(* ===== verification/_CoqProject ===== *)
-Q . S2P
Prelude.v
Api.v
CommandBuffer.v
Unstr.v
Rbac.v
Codec.v
Identity.v
Session.v
Revocations.v
Limits.v
LogoutLimits.v
Config.v
Authenticator.v
Access.v
PortForward.v
Streams.v
Delivery.v
Feeds.v
Budget.v
Text.v
Faults.v
Issues.v
Symptoms.v
Diagnosis.v
Atomic.v
Stores.v
Guard.v
Routes.v
Program.v
Respond.v
Kube.v
Rollout.v
Drain.v
Actions.v
Flux.v
Argocd.v
Inspect.v
Handlers.v
Corpus.v
Pss.v
Checks.v
Numbers.v
Patches.v
Security.v
Lifecycle.v
Supply.v
NodeFacts.v
References.v
ObjectRules.v
Registry.v
Logs.v
Topology.v
Posture.v
Waste.v
Shared.v
Reads.v
Compare.v
Agent.v
Charts.v
Applied.v
FluxViews.v
ArgoViews.v
Gitops.v
Details.v
Timeline.v
Update.v
HelmReleases.v
Helm.v
