(* ===== verification/Prelude.v ===== *)
(** * Spinoza: a verification of its server's core

    Spinoza (src/) is a dashboard for Kubernetes: a Go server (src/internal)
    that authenticates its users, asks each cluster what they may do, watches
    the clusters' objects through shared informers and streams tables of rows
    to a browser (src/frontend).  This library is a shallow embedding of the
    parts of the server that decide who may do what, that keep shared state
    under concurrency, that diagnose and audit a cluster, that change it and
    that keep files, with the theorems that make them correct.

    ** The parts and how they interact

    A request passes the guard: it must come from this machine with the token
    of the run, or from the server's own address with an identity the
    authenticator gives.  The router then asks the policy whether the caller
    may have the endpoint.  The identity travels with the request's context.
    The access service asks the cluster's authorizer what that identity may do
    and caches the answers.  The resource manager keeps one watch stream per
    kind, shared by all who read it; a websocket session subscribes to a stream
    and relays its changes.  A request that changes a cluster goes through its
    handler, which asks the access service, has a protected cluster confirmed
    and calls one of the actions.  Port forwards, RBAC reports, command output,
    logs, the diagnosis and the audit of a cluster and the stores of settings
    are services beside them.

    - [Prelude]: results, comparators and stable sorting, times as integers of
      nanoseconds, counting over lists of threads, simulations, tactics and the
      hint database [go].  Every file requires it.
    - [Api]: the data types of internal/api the components exchange.
    - [Text]: decimal numbers and the order of joined strings.
    - [CommandBuffer]: internal/commandbuffer/buffer.go, the bounded buffers
      that keep the head or the tail of a command's output.
    - [Unstr]: internal/unstr/unstr.go over the class [Unstructured], which
      stands for k8s.io/apimachinery's accessors.
    - [Rbac]: internal/rbac; reading a cluster's roles and bindings ([Read]),
      building the index of holders ([Build]) and asking who may do something
      ([Who]).
    - [Codec]: base64url, SHA-256 and HMAC, the standard-library codecs the
      cookies use.
    - [Identity]: internal/auth/identity.go, roles.go, claims.go.
    - [Session]: internal/auth/session.go, the signed cookies, over the class
      [JSON] (encoding/json).
    - [Revocations]: internal/auth/revoke.go.
    - [Limits]: internal/auth/flowlimits.go.
    - [LogoutLimits]: internal/auth/logoutlimits.go.
    - [Config]: internal/auth/config.go over the class [Net] (net/url, net).
    - [Authenticator]: internal/auth/auth.go and oidc.go, which compose the six
      files above; go-oidc and oauth2 are the class [Provider].
    - [Guard]: internal/server/guard.go and auth.go, which requests are let in.
    - [Routes]: internal/server/routes.go and policy.go, the table of endpoints,
      the policy over it, net/http's router and [Handler], the whole way of a
      request.
    - [Access]: internal/access; reviews, their cache and limits, the
      capabilities of objects and the namespaces a caller may read.
    - [PortForward]: internal/portforward/registry.go, the registry and the
      goroutines that start, watch, stop and move forwards.
    - [Streams]: internal/resources/manager.go, the life of watch streams.
    - [Delivery]: internal/resources/manager.go, scope.go and
      internal/server/ws.go, how a change reaches a client's table.
    - [Feeds]: internal/server/ws.go, a session's table of open feeds and the
      goroutines that build, adopt, relay, fail, replace and drop them.
    - [Budget]: internal/server/budget.go, the slots of expensive work.
    - [Faults]: internal/faults/faults.go and internal/listerr/listerr.go.
    - [Issues]: internal/issues/page.go, the orders of fold.go and the paged
      queue of internal/server/views.go.
    - [Symptoms]: internal/issues, what is wrong with one object.
    - [Diagnosis]: internal/issues, the whole report: what is collected, the
      detectors, and the fold of findings into rows.
    - [Atomic]: internal/atomicfile and internal/filetx.
    - [Stores]: the stores of internal/settings, internal/protect and
      internal/kubeconfig over such files, and internal/clusterid.
    - [Program]: calls to a cluster and what is done with the answers, as a tree
      of questions; [wp] is what holds whatever is answered.  [Respond]:
      internal/server/respond.go.  [Kube]: the calls of client-go's clients that
      change or read a cluster, with the accessors [Described] and [Fields].
    - [Actions], [Drain], [Rollout]: internal/actions; every action on a
      workload, node or cron job, the goroutines of a drain, and the revisions
      of a workload with their difference.
    - [Flux] and [Argocd]: the actions of internal/flux and internal/argocd.
    - [Inspect]: internal/inspect; details, edits and deletion of one object.
    - [Handlers]: the handlers of internal/server/objects.go and gitops.go, with
      the confirmation of contexts.go and the record of history.go.
    - [Corpus], [Pss], [Checks]: internal/checks; what an audit reads, the
      policies of Pod Security, and the engine: filters, mutes, weights, reports
      and baselines over checks with their finders.
    - [Numbers], [Patches], [Security], [Lifecycle], [Supply], [NodeFacts],
      [References], [ObjectRules]: the rules of internal/checks, with the
      numbers they read and the patches they propose.  [Registry]: the checks
      that ship with the program.
    - [Posture]: internal/checks/cis.go and surveycache.go; what an audit says
      about the controls of frameworks, and the cache of surveys.
    - [Logs]: internal/logs, the merged log of the pods a selector matches.
    - [Topology]: internal/topology, the graph of a cluster's objects, folded.
    - [Waste]: internal/waste, what pods reserve and do not use.
    - [Shared]: internal/resources/cache.go, a value callers share for a while
      and one of them builds.
    - [Reads]: internal/resources/scope.go, search.go, counts.go and
      internal/podcount; what a caller may see, searching and counting, over the
      reviews of [Access] and the filters of [Delivery].
    - [Compare]: internal/compare and internal/server/compare.go.
    - [Agent]: internal/mcp, the server of agents and its tools that change a
      cluster with the actions of [Actions], [Flux] and [Argocd].
    - [Charts]: internal/charts; which addresses and pages the versions of Helm
      charts are read from, their order, and the cache of what was read.
    - [Applied]: the shapes of the GitOps views.  [FluxViews]: what internal/flux
      shows, with the newest versions of [Charts].  [ArgoViews]: what
      internal/argocd shows.
    - [Gitops]: internal/gitops/drift.go, ownership.go, graph.go and appgraph.go.
      [Details]: internal/gitops/detail.go and internal/inspect/events.go, one
      applier with what is read of its resources.
    - [Timeline]: internal/resources/timeline.go and internal/server/timeline.go,
      which changes are noted and the recording that writes them down.
    - [Update]: internal/update, the newest release and its installation.
    - [HelmReleases]: internal/helm, the revisions of releases a cluster stores,
      their bodies, histories and details.  [Helm]: what is done with the helm
      program, its arguments and environment, the catalog of charts, and the
      values of charts that are read once for all who ask.

    ** How code becomes definitions

    A method that runs under a mutex is a function from the state the mutex
    guards to the new state and the results, with the code's guards in the
    code's order and its early returns.  Code that leaves the mutex between two
    critical sections is a thread: its positions are an inductive type, and an
    inductive [step] relation lets threads, timers and the environment
    interleave ([PortForward.step], [Streams.step], [Delivery.dstep],
    [Feeds.step], [Budget.step], [Stores.step], [Drain.step], [Logs.step],
    [Shared.step], [Charts.step], [Timeline.step], [Update.step], [Helm.step] and the systems of [Access], [Limits] and
    [LogoutLimits]).  A channel that is closed twice or written after it was
    closed panics in Go: the registries carry that as a flag or a cause, and
    theorems show it is never set, in [Streams] but for the cause that
    [more_after_vanished] reaches.  A Go map walked in an unspecified order is a
    [gmap] where the order cannot show and an explicit list argument, quantified
    over, where it can.  The clock is an argument.  Integers that only count are
    [Z]; where a width shows, as in the order keys of [Issues], the grace
    periods of [Symptoms] and the sums of [Supply], [NodeFacts], [Waste] and
    [Reads], the wrap-around is written out.  Times are
    nanoseconds in [Z]; the overflow of a 63-bit nanosecond count (292 years) is
    outside the model elsewhere.  Errors are values of [result] or of a
    component's error type, with the messages of the code.

    Code outside src/ is never defined here: it is a class or an argument, with
    what its documentation promises as a named law where a proof needs it
    ([JSONRoundTrip] and [JSONOk] for texts encoding/json keeps as they are,
    [json_expires] for an int64 it keeps, [RFC3339], the laws in [Quoting]), and
    each such class has a concrete instance at which the witnesses evaluate.  The
    accessors of apimachinery are [Unstructured], [Meta], [Described], [Fields],
    [Editable], [Edited], [Linked] and [Owned], its quantities [Quantities], the built-in kinds of
    client-go's scheme [Scheme], the policies of pod-security-admission
    [PodSecurity], user rules in CEL [Judge], YAML [YAML], time formats [Stamps], messages of agents [Messages], bodies
    [JSONText], [Documents] and [Payloads], fields' managers [Managed], addresses
    [Authorities], versions of charts [Semver] and the spelling of strings and
    numbers [Wording] and [Spelling].  Go's
    standard library is modelled where the source leans on it: the router and
    path cleaning of net/http, unescaping, host splitting, trimming, base64.

    ** What the theorems show

    - Requests: [handlers_guarded], [entitled_reach] and [policy_sound] say who
      reaches a handler, on both kinds of listener, over the whole table.
    - Signing in and out: [logout_ends_session], [callback_once],
      [callback_signs_in], [renewals_capped], [session_roundtrip], and the
      lemmas [proxy_needs_secret] and [Validate_spec].
    - Limits: [logout_rate_bounded] and the lemmas [logout_concurrency_bounded]
      and those on login flows hold for every sequence of claims and releases;
      [work_budget_exact] and [await_not_stranded] for the slots of expensive
      work and those who wait for one.
    - RBAC: [who_sound_complete], with the lemmas [build_grants_exact],
      [cluster_admin_total] and [read_schedule_independent]: the report of who
      may do something is that of the bindings and rules, whatever order reads
      finish in.
    - Access: [Require_sound], [recall_sound], with the lemmas
      [asking_tells_apart], [reviews_bounded] and [Where_exact]: no action passes without an
      answered permission of its own caller, callers never share a cached
      decision.  [reads_within_scope]: searches, tables, leases and metrics show
      a caller only what the authorizer lets that caller read; the lemmas
      [search_exact], [countOne_total] and [countOne_ends] say that a search and
      a count are complete or say that they are not.
    - Agents: [agent_changes], what an agent can change whatever it sends.
    - Changes: [changes_accounted], what a request may do to a cluster whatever
      the cluster answers, what of it is confirmed and what is recorded, dry
      runs included; [argo_acts_when_it_may]; [drain_safe] and
      [drain_ends] for every interleaving of a drain; [kinds_told] for two
      clusters held against each other, by the difference of lines of the lemma
      [differingLines_symmetric_difference].
    - Audits: [rules_tell_of_what_was_read], a rule that does not stand down
      tells the same of the objects audited whatever is held of the kinds it does
      not ask for; [audit_tells_all], every finding is counted and all are shown
      but those of one key that a page ends between ([repeated_warning_lost]); the
      lemmas [baseline_exact], what is new and what is fixed,
      [cis_catalog_exact], the controls are those of the checks, and
      [survey_recent].
    - Reports: [graph_accounts] and [graph_well_formed], folding a graph loses
      no object and no trouble, but for objects that own each other in a circle
      ([knot_dropped]); [waste_accounts], every pod counts once.
    - GitOps: [drift_exact], an object is said to have no drift just when it
      carries what was declared ([carried]), where names in lists tell entries
      apart ([drift_of_a_repeated_name]); the lemmas [gitops_graph_well_formed],
      [enrich_reads_the_troubled], [flux_dashboard_accounts], [verdict_exact]
      and [healthIssues_exact].
    - Charts: [only_public_dialled], no name or redirect leads to this machine
      or a private network, by the lemma [routable_public]; [requests_confined]
      and [get_ends] for what is asked of a registry; [charts_fetched_once] for
      every interleaving of those who fetch, wait and warm the cache.
    - Timeline: [timeline_accounts], where each change that was noted is: written
      down, on its way, counted in a gap, or given to a store that keeps nothing
      ([unwritten_untold]).
    - Helm: [helm_runs_as_asked], helm is run once at most, as the caller and for
      what was asked, and the file of values is removed; the lemmas
      [history_covers], who follows a history's pages sees each revision once,
      [newestPerRelease_exact], [listFrom_complete], [helmEnvironment_allowed],
      [SearchCharts_spec] and [values_fetched_once].
    - Update: the lemmas [offered_newer], [answers_in_order] and
      [install_runs_what_it_fetched].
    - Logs: [logs_merged], and [logs_wind_down] for the goroutines' end.
    - Shared registries: [no_leaked_run], [no_stranded_waiter],
      [subscribers_served], [feeds_own_resources], [frames_in_order],
      [shared_sound], with the lemmas [streams_in_use] and
      [dropped_builder_cancelled]: no
      interleaving leaks, strands, cancels what is in use, closes twice or sends
      out of order.
    - Delivery: [tables_converge]; whatever is dropped, delayed or broken on the
      way, a client that has been sent everything shows exactly the rows it may
      see, but for rows queued while its resync narrowed what that is
      ([narrowed_filter_leaks_row]).
    - Diagnosis: [build_reports], [diagnosis_typed] and the lemma
      [build_reports_pods]: what is wrong with a cluster is reported by rows of the
      declared kinds, as severe as the worst that is not explained away, or the
      diagnosis panics ([build_panics_on_reason]); [pages_cover] and [page_of_cursor]: a client that follows
      the page markers sees every row once, and a text that is no marker is
      refused.
    - Files: [save_atomic], a saved file holds the old or the whole new content
      wherever the machine stops; [stores_keep_promise], the stores refine a
      register of what their documents read back as, under concurrent processes
      and crashes.
    - Output buffers: the lemmas on heads and tails ([tail_keeps_suffix]).

    ** Fuel and bounds

    Recursion is structural or on a measure that is the length of the input: the
    codecs, the trimming of text and the pieces of a path.  A save is run for
    eight calls, which [save_atomic] proves enough; following page markers ends
    after one request more than there are rows, which [pages_cover] proves.  The
    shortest decimal of a float64 is searched among as many digits and exponents
    as one can have, an octal number has as many digits as an int64, and owners
    are followed as far as the code follows them, as are folds of a graph
    (sixteen levels).  Counting pages runs for as many pages as there are
    different tokens and one more, which [countOne_ends] proves enough; so do the
    lists of [HelmReleases], by [listFrom_ends], and evicting values as many rounds
    as there are entries.
    Capacities (channel of 256 events, batches of 200, 32 review slots, and so
    on) are the constants of the code.

    ** What is not modelled

    The handlers beyond those that change a cluster, the tables, the queue of
    issues and the stores; of the checks, user rules' CEL expressions, files of
    rules in other formats, SARIF and the cache of decoded pods; where Helm keeps
    its files, the sqlite store, telemetry, what the agents' tools that only read
    give, and the frontend.
    client-go, the informers' own caches, TLS and the operating system are
    behind the classes and step choices named above.  In [Delivery] an object is
    deleted before another UID takes its name, row filters of a windowed table
    are left out.  In [Timeline] a transaction that fails keeps nothing.  In
    [PortForward] the sequence number does not wrap.  In
    [Guard] the public origin is ASCII, in [Charts] a host; following a redirect
    is net/http's, which asks [CheckRedirect].  In [Logs] the lines of a pod's log are
    events, whatever [bufio.Scanner] makes of the bytes.
    Next would come user rules, telemetry and the catalog and layouts of
    resources. *)

From Stdlib Require Export ZArith Lia.
From stdpp Require Export base tactics list sorting gmap strings pretty fin_maps numbers.

#[export] Set Warnings "-clear-no-such-hyp,-register-all".
#[global] Set Default Proof Using "Type".
#[global] Unset Program Cases.

Create HintDb go.
Create Rewrite HintDb go.

Declare Scope go_scope.
Delimit Scope go_scope with go.
#[global] Open Scope go_scope.

(** * Tactics *)

(** Case analysis on the integer tests of the goal. *)
Ltac zcases :=
  repeat match goal with
  | |- context [(?a <? ?b)%Z] => destruct (Z.ltb_spec a b)
  | |- context [(?a <=? ?b)%Z] => destruct (Z.leb_spec a b)
  | |- context [(?a =? ?b)%Z] => destruct (Z.eqb_spec a b)
  end.

(** Turns the boolean tests among the hypotheses into propositions. *)
Ltac breflect :=
  repeat match goal with
  | H : (_ && _)%bool = true |- _ => apply andb_true_iff in H as [? ?]
  | H : (_ || _)%bool = false |- _ => apply orb_false_iff in H as [? ?]
  | H : negb _ = true |- _ => apply negb_true_iff in H
  | H : negb _ = false |- _ => apply negb_false_iff in H
  | H : bool_decide _ = true |- _ => apply bool_decide_eq_true in H
  | H : bool_decide _ = false |- _ => apply bool_decide_eq_false in H
  | H : (_ <? _)%Z = true |- _ => apply Z.ltb_lt in H
  | H : (_ <? _)%Z = false |- _ => apply Z.ltb_ge in H
  | H : (_ <=? _)%Z = true |- _ => apply Z.leb_le in H
  | H : (_ <=? _)%Z = false |- _ => apply Z.leb_gt in H
  | H : (_ =? _)%Z = true |- _ => apply Z.eqb_eq in H
  | H : (_ =? _)%Z = false |- _ => apply Z.eqb_neq in H
  end.

(** * Results: Go's [(value, error)] pairs, one of the two at a time. *)

Inductive result (E A : Type) : Type :=
| Ok (a : A)
| Err (e : E).
Arguments Ok {E A} a.
Arguments Err {E A} e.

#[export] Instance result_ret {E} : MRet (result E) := fun _ a => Ok a.
#[export] Instance result_bind {E} : MBind (result E) := fun _ _ f m =>
  match m with Ok a => f a | Err e => Err e end.

Lemma result_bind_ok {E A B} (m : result E A) (f : A -> result E B) b :
  m ≫= f = Ok b <-> exists a, m = Ok a /\ f a = Ok b.
Proof.
  destruct m as [a | e]; cbn; split.
  - intros H. eauto.
  - intros (x & [= ->] & H). exact H.
  - discriminate.
  - intros (x & H & _). discriminate.
Qed.

(** * Lengths and slices.  Go's [int] is 64 bits wide; a length never
    exceeds it, so lengths are the [Z] of a list's length. *)

Definition zlen {A} (l : list A) : Z := Z.of_nat (length l).

Definition zdrop {A} (n : Z) (l : list A) : list A := drop (Z.to_nat n) l.
Definition ztake {A} (n : Z) (l : list A) : list A := take (Z.to_nat n) l.

(** [copy(dst, src)]: overwrites the front of [dst], as far as both reach. *)
Definition go_copy {A} (dst src : list A) : list A :=
  take (length dst) src ++ drop (length src) dst.

(** [slices.Contains]. *)
Definition contains {A} `{EqDecision A} (l : list A) (x : A) : bool := bool_decide (x ∈ l).

Lemma zlen_nonneg {A} (l : list A) : (0 <= zlen l)%Z.
Proof. unfold zlen. lia. Qed.

Lemma zlen_nil {A} : zlen (@nil A) = 0%Z.
Proof. done. Qed.

Lemma zlen_cons {A} (x : A) l : zlen (x :: l) = (1 + zlen l)%Z.
Proof. unfold zlen. cbn. lia. Qed.

Lemma zlen_app {A} (l k : list A) : zlen (l ++ k) = (zlen l + zlen k)%Z.
Proof. unfold zlen. rewrite length_app. lia. Qed.

(** Arithmetic over lengths: every length becomes a variable. *)
Ltac zgen :=
  repeat match goal with
  | |- context [zlen ?l] =>
      let n := fresh "n" in pose proof (zlen_nonneg l); set (n := zlen l) in *; clearbody n
  | H : context [zlen ?l] |- _ =>
      let n := fresh "n" in pose proof (zlen_nonneg l); set (n := zlen l) in *; clearbody n
  end.
Ltac zlia := zgen; lia.

Lemma zlen_nil_inv {A} (l : list A) : zlen l = 0%Z -> l = [].
Proof. destruct l; [done | unfold zlen; cbn; lia]. Qed.

Lemma contains_spec {A} `{EqDecision A} (l : list A) x : contains l x = true <-> x ∈ l.
Proof. apply bool_decide_eq_true. Qed.

Lemma zlen_ztake {A} n (l : list A) : (0 <= n)%Z -> zlen (ztake n l) = Z.min n (zlen l).
Proof. intros. unfold zlen, ztake. rewrite length_take. lia. Qed.

Lemma zlen_zdrop {A} n (l : list A) : zlen (zdrop n l) = Z.max 0 (zlen l - Z.max 0 n).
Proof. unfold zlen, zdrop. rewrite length_drop. lia. Qed.

Lemma ztake_ge {A} n (l : list A) : (zlen l <= n)%Z -> ztake n l = l.
Proof. intros H. unfold ztake, zlen in *. apply take_ge. lia. Qed.

Lemma ztake_app_le {A} n (s t : list A) :
  (zlen s <= n)%Z -> ztake n (s ++ t) = s ++ ztake (n - zlen s) t.
Proof.
  intros H. unfold ztake, zlen in *. rewrite take_app, take_ge by lia.
  do 2 f_equal. lia.
Qed.

Lemma ztake_app_ge {A} n (s t : list A) :
  (n <= zlen s)%Z -> ztake n (s ++ t) = ztake n s.
Proof. intros H. unfold ztake, zlen in *. by rewrite take_app_le by lia. Qed.

Lemma zdrop_app_le {A} n (s t : list A) :
  (n <= zlen s)%Z -> zdrop n (s ++ t) = zdrop n s ++ t.
Proof. intros H. unfold zdrop, zlen in *. by rewrite drop_app_le by lia. Qed.

Lemma zdrop_app_ge {A} n (s t : list A) :
  (zlen s <= n)%Z -> zdrop n (s ++ t) = zdrop (n - zlen s) t.
Proof.
  intros H. unfold zdrop, zlen in *. rewrite drop_app_ge by lia. f_equal. lia.
Qed.

Lemma zdrop_all {A} n (s : list A) : (n <= 0)%Z -> zdrop n s = s.
Proof. intros H. unfold zdrop. by replace (Z.to_nat n) with 0 by lia. Qed.

Lemma zdrop_none {A} n (s : list A) : (zlen s <= n)%Z -> zdrop n s = [].
Proof. intros H. unfold zdrop, zlen in *. apply drop_ge. lia. Qed.

Lemma zdrop_zdrop {A} n m (s : list A) :
  (0 <= n)%Z -> (0 <= m)%Z -> zdrop n (zdrop m s) = zdrop (m + n) s.
Proof. intros. unfold zdrop. rewrite drop_drop. f_equal. lia. Qed.

(** * Strings: byte strings, as in Go. *)

Notation "s +s+ t" := (String.append s t) (at level 60, right associativity) : go_scope.

(** [strings.Compare] as an integer. *)
Definition str_compare (s t : string) : Z :=
  match String.compare s t with Lt => -1 | Eq => 0 | Gt => 1 end.

(** What follows the prefix [p] of [s], if [s] starts with it. *)
Fixpoint strip_prefix (p s : string) : option string :=
  match p, s with
  | EmptyString, _ => Some s
  | String a p', String b s' => if Ascii.eqb a b then strip_prefix p' s' else None
  | String _ _, EmptyString => None
  end.

(** [strings.HasPrefix(s, p)]. *)
Definition has_prefix (s p : string) : bool :=
  match strip_prefix p s with Some _ => true | None => false end.

(** [strings.HasSuffix(s, t)] *)
Fixpoint has_suffix (s t : string) : bool :=
  bool_decide (s = t) || match s with EmptyString => false | String _ s' => has_suffix s' t end.

(** [strings.Cut(s, sep)] for a non-empty separator. *)
Fixpoint str_cut (s sep : string) : string * string * bool :=
  match strip_prefix sep s with
  | Some after => (EmptyString, after, true)
  | None =>
      match s with
      | EmptyString => (EmptyString, EmptyString, false)
      | String c s' =>
          let '(before, after, found) := str_cut s' sep in (String c before, after, found)
      end
  end.

(** [strings.Contains(s, sub)]. *)
Fixpoint str_contains (s sub : string) : bool :=
  has_prefix s sub ||
  match s with EmptyString => false | String _ s' => str_contains s' sub end.

Lemma strip_prefix_spec p s r : strip_prefix p s = Some r <-> s = (p +s+ r)%go.
Proof.
  revert s. induction p as [| a p IH]; intros s.
  - cbn. split; [by intros [= ->] | by intros ->].
  - change ((String a p +s+ r)%go) with (String a (p +s+ r)%go).
    destruct s as [| b s]; cbn; [done |].
    destruct (Ascii.eqb_spec a b) as [-> | Hab]; [rewrite IH; naive_solver | naive_solver].
Qed.

Lemma str_cut_found s sep before after :
  str_cut s sep = (before, after, true) -> s = (before +s+ sep +s+ after)%go.
Proof.
  revert before. induction s as [| c s IH]; intros before; cbn [str_cut];
    (destruct (strip_prefix sep _) as [r |] eqn:E;
      [apply strip_prefix_spec in E; intros [= <- <-]; exact E |]); [done |].
  destruct (str_cut s sep) as [[b a] f]. intros [= <- -> ->]. by rewrite (IH b).
Qed.

(** A one-byte separator is found where it first occurs. *)
Lemma str_cut_first c (l : list Ascii.ascii) s :
  Forall (fun d => d <> c) l ->
  str_cut (String.string_of_list_ascii l +s+ String c s) (String c EmptyString) =
  (String.string_of_list_ascii l, s, true).
Proof.
  induction 1 as [| d l Hd Hl IH].
  - change (String.string_of_list_ascii [] +s+ String c s) with (String c s). cbn.
    by rewrite Ascii.eqb_refl.
  - change (String.string_of_list_ascii (d :: l) +s+ String c s) with
      (String d (String.string_of_list_ascii l +s+ String c s)). cbn [str_cut strip_prefix].
    destruct (Ascii.eqb_spec c d); [congruence |]. by rewrite IH.
Qed.

Definition of_codes (l : list N) : string :=
  String.string_of_list_ascii (map Ascii.ascii_of_N l).

(** The UTF-8 encodings of the code points [unicode.IsSpace] accepts. *)
Definition space_codes : list (list N) :=
  [[9]; [10]; [11]; [12]; [13]; [32]; [0xc2; 0x85]; [0xc2; 0xa0]; [0xe1; 0x9a; 0x80]]%N ++
  map (fun k => [0xe2; 0x80; 0x80 + N.of_nat k]%N) (seq 0 11) ++
  [[0xe2; 0x80; 0xa8]; [0xe2; 0x80; 0xa9]; [0xe2; 0x80; 0xaf]; [0xe2; 0x81; 0x9f];
   [0xe3; 0x80; 0x80]]%N.

Fixpoint trim_left (fuel : nat) (spaces : list string) (s : string) : string :=
  match fuel with
  | O => s
  | S fuel =>
      match omap (fun p => strip_prefix p s) spaces with
      | rest :: _ => trim_left fuel spaces rest
      | [] => s
      end
  end.

Definition str_rev (s : string) : string :=
  String.string_of_list_ascii (rev (String.list_ascii_of_string s)).

(** [strings.TrimSpace]. *)
Definition TrimSpace (s : string) : string :=
  let l := trim_left (String.length s) (map of_codes space_codes) s in
  str_rev (trim_left (String.length l) (map (fun c => of_codes (rev c)) space_codes) (str_rev l)).

(** [strings.Split(s, sep)] for a separator of one byte. *)
Fixpoint str_split (sep : Ascii.ascii) (s : string) : list string :=
  match s with
  | EmptyString => [EmptyString]
  | String c s' =>
      match str_split sep s' with
      | part :: rest =>
          if Ascii.eqb c sep then EmptyString :: part :: rest else String c part :: rest
      | [] => []
      end
  end.

(** [slices.Index]: -1 when absent. *)
Fixpoint index_from {A} `{EqDecision A} (at_ : Z) (l : list A) (x : A) : Z :=
  match l with
  | [] => -1
  | y :: l' => if bool_decide (y = x) then at_ else index_from (at_ + 1) l' x
  end.
Definition slices_index {A} `{EqDecision A} (l : list A) (x : A) : Z := index_from 0 l x.

(** * Time.  An instant is the number of nanoseconds since Go's zero
    [time.Time]; a [time.Duration] is a 64-bit number of nanoseconds. *)

(** ** An int64 that wraps around *)

Definition wrap64 (n : Z) : Z := ((n + 2 ^ 63) mod 2 ^ 64 - 2 ^ 63)%Z.

Lemma wrap64_mod n : exists k, wrap64 n = (n + k * 2 ^ 64)%Z.
Proof. unfold wrap64. exists (- ((n + 2 ^ 63) / 2 ^ 64))%Z. pose proof (Z.div_mod (n + 2 ^ 63) (2 ^ 64) ltac:(lia)). lia. Qed.

Lemma wrap64_add_l a b : wrap64 (wrap64 a + b) = wrap64 (a + b).
Proof.
  destruct (wrap64_mod a) as [k Hk]. rewrite Hk. unfold wrap64. f_equal.
  replace (a + k * 2 ^ 64 + b + 2 ^ 63)%Z with (a + b + 2 ^ 63 + k * 2 ^ 64)%Z by lia. by rewrite Z.mod_add by lia.
Qed.

Lemma wrap64_id n : (- 2 ^ 63 <= n < 2 ^ 63)%Z -> wrap64 n = n.
Proof. intros H. unfold wrap64. rewrite Z.mod_small by lia. lia. Qed.


Definition time := Z.
Definition duration := Z.
Bind Scope Z_scope with time duration.

Definition Second : duration := 1000000000%Z.
Definition Minute : duration := (60 * Second)%Z.
Definition Hour : duration := (60 * Minute)%Z.

Definition maxDuration : duration := (2 ^ 63 - 1)%Z.
Definition minDuration : duration := (- 2 ^ 63)%Z.

Definition zeroTime : time := 0%Z.
Definition IsZero (t : time) : bool := (t =? 0)%Z.
Definition Before (t u : time) : bool := (t <? u)%Z.
Definition After (t u : time) : bool := (u <? t)%Z.
Definition tadd (t : time) (d : duration) : time := (t + d)%Z.

(** [t.Sub(u)] saturates at the ends of [time.Duration]. *)
Definition tsub (t u : time) : duration := Z.max minDuration (Z.min maxDuration (t - u)).

Ltac times :=
  unfold Before, After, tadd, tsub, IsZero, zeroTime, minDuration, maxDuration,
    Hour, Minute, Second, time, duration in *.

Lemma tsub_lt t u d : (minDuration < d <= maxDuration)%Z -> (tsub t u < d)%Z <-> (t < u + d)%Z.
Proof. times. lia. Qed.

Lemma tsub_le t u d : (minDuration <= d < maxDuration)%Z -> (tsub t u <= d)%Z <-> (t <= u + d)%Z.
Proof. times. lia. Qed.

(** [t.Unix()] and [time.Unix(sec, 0)]; 62135596800 seconds lie between the
    zero time and 1970. *)
Definition unixEpoch : time := (62135596800 * Second)%Z.
Definition Unix (t : time) : Z := ((t - unixEpoch) / Second)%Z.
Definition fromUnix (sec : Z) : time := (unixEpoch + sec * Second)%Z.

Lemma Unix_fromUnix n : Unix (fromUnix n) = n.
Proof. unfold Unix, fromUnix. times. rewrite Z.add_simpl_l. by apply Z.div_mul. Qed.

Lemma fromUnix_le t : (t - Second < fromUnix (Unix t) <= t)%Z.
Proof. unfold Unix, fromUnix. times. Z.div_mod_to_equations. lia. Qed.

(** [t.Compare(u)]. *)
Definition tcompare (t u : time) : Z := if Before t u then -1 else if After t u then 1 else 0.

(** * Comparators and sorting.  [slices.SortFunc] and [slices.SortStableFunc]
    take a comparison returning an integer; a comparator is one that is a
    total preorder. *)

Class Comparator {A} (cmp : A -> A -> Z) : Prop := {
  cmp_flip : forall x y, (cmp x y <= 0)%Z <-> (0 <= cmp y x)%Z;
  cmp_trans : forall x y z, (cmp x y <= 0)%Z -> (cmp y z <= 0)%Z -> (cmp x z <= 0)%Z;
}.

Definition cmp_le {A} (cmp : A -> A -> Z) (x y : A) : Prop := (cmp x y <= 0)%Z.

(** [if c x y != 0 { return c x y }; return d x y] *)
Definition cmp_then {A} (c d : A -> A -> Z) (x y : A) : Z :=
  if (c x y =? 0)%Z then d x y else c x y.

Definition cmp_on {A B} (f : A -> B) (c : B -> B -> Z) (x y : A) : Z := c (f x) (f y).
Definition cmp_asc (x y : Z) : Z := (x - y)%Z.
Definition cmp_desc (x y : Z) : Z := (y - x)%Z.

Section comparators.
Context {A : Type}.
Implicit Types c d : A -> A -> Z.

Lemma cmp_eq_flip c `{!Comparator c} x y : c x y = 0%Z <-> c y x = 0%Z.
Proof. pose proof (cmp_flip x y). pose proof (cmp_flip y x). lia. Qed.

Lemma cmp_refl c `{!Comparator c} x : c x x = 0%Z.
Proof. pose proof (cmp_flip x x). lia. Qed.

Lemma cmp_total c `{!Comparator c} x y : cmp_le c x y \/ cmp_le c y x.
Proof. unfold cmp_le. pose proof (cmp_flip x y). lia. Qed.

Lemma cmp_lt_trans c `{!Comparator c} x y z :
  (c x y < 0)%Z -> (c y z <= 0)%Z -> (c x z < 0)%Z.
Proof.
  intros H1 H2. pose proof (cmp_trans x y z).
  destruct (Z.eq_dec (c x z) 0%Z) as [E | ]; [| lia].
  rewrite cmp_eq_flip in E by done. pose proof (cmp_trans y z x).
  pose proof (cmp_flip y x). lia.
Qed.

Lemma cmp_le_lt_trans c `{!Comparator c} x y z :
  (c x y <= 0)%Z -> (c y z < 0)%Z -> (c x z < 0)%Z.
Proof.
  intros H1 H2. pose proof (cmp_trans x y z).
  destruct (Z.eq_dec (c x z) 0%Z) as [E | ]; [| lia].
  rewrite cmp_eq_flip in E by done. pose proof (cmp_trans z x y).
  pose proof (cmp_flip z y). lia.
Qed.

#[export] Instance cmp_then_ok c d `{!Comparator c, !Comparator d} : Comparator (cmp_then c d).
Proof.
  split; unfold cmp_then.
  - intros x y. pose proof (cmp_eq_flip c x y). pose proof (cmp_flip (cmp := c) x y).
    pose proof (cmp_flip (cmp := d) x y). zcases; intuition lia.
  - intros x y z. pose proof (cmp_trans (cmp := c) x y z). pose proof (cmp_trans (cmp := d) x y z).
    pose proof (cmp_lt_trans c x y z). pose proof (cmp_le_lt_trans c x y z). zcases; lia.
Qed.

#[export] Instance cmp_on_ok {B} (f : A -> B) (c : B -> B -> Z) `{!Comparator c} :
  Comparator (cmp_on f c).
Proof. split; unfold cmp_on; intros; [apply cmp_flip | by eapply cmp_trans]. Qed.
End comparators.

#[export] Instance cmp_asc_ok : Comparator cmp_asc.
Proof. split; unfold cmp_asc; lia. Qed.

#[export] Instance tcompare_ok : Comparator tcompare.
Proof.
  split; unfold tcompare, Before, After, time; intros; repeat case_match;
    repeat match goal with H : (_ <? _)%Z = _ |- _ => first [apply Z.ltb_lt in H | apply Z.ltb_ge in H] end; lia.
Qed.

#[export] Instance cmp_desc_ok : Comparator cmp_desc.
Proof. split; unfold cmp_desc; lia. Qed.

Section strings_compare.
Local Open Scope string_scope.

Lemma str_compare_flip s t : str_compare s t = (- str_compare t s)%Z.
Proof. unfold str_compare. rewrite String.compare_antisym. by destruct (String.compare t s). Qed.

Lemma str_compare_eq s t : str_compare s t = 0%Z <-> s = t.
Proof.
  unfold str_compare. split.
  - destruct (String.compare s t) eqn:E; [| done | done]. intros _. by apply String.compare_eq_iff.
  - intros ->. pose proof (String.compare_antisym t t). by destruct (String.compare t t).
Qed.

Lemma str_compare_cons a s b t :
  str_compare (String a s) (String b t) =
  if (Ascii.N_of_ascii a <? Ascii.N_of_ascii b)%N then (-1)%Z
  else if (Ascii.N_of_ascii b <? Ascii.N_of_ascii a)%N then 1%Z
  else str_compare s t.
Proof.
  unfold str_compare. cbn. unfold Ascii.compare.
  destruct (N.compare_spec (Ascii.N_of_ascii a) (Ascii.N_of_ascii b)) as [E | E | E].
  - by rewrite E, N.ltb_irrefl.
  - by apply N.ltb_lt in E as ->.
  - pose proof E as E'. apply N.ltb_lt in E'. rewrite E'.
    by apply N.lt_le_incl, N.ltb_ge in E as ->.
Qed.

#[export] Instance str_compare_ok : Comparator str_compare.
Proof.
  split; [intros; rewrite str_compare_flip; lia |].
  intros x. induction x as [| a x IH]; intros [| b y] [| c z]; try done.
  rewrite !str_compare_cons. specialize (IH y z).
  destruct (N.ltb_spec (Ascii.N_of_ascii a) (Ascii.N_of_ascii b)),
    (N.ltb_spec (Ascii.N_of_ascii b) (Ascii.N_of_ascii a)),
    (N.ltb_spec (Ascii.N_of_ascii b) (Ascii.N_of_ascii c)),
    (N.ltb_spec (Ascii.N_of_ascii c) (Ascii.N_of_ascii b)),
    (N.ltb_spec (Ascii.N_of_ascii a) (Ascii.N_of_ascii c)),
    (N.ltb_spec (Ascii.N_of_ascii c) (Ascii.N_of_ascii a)); intros; try lia; auto.
Qed.
End strings_compare.

(** Stable insertion sort: what [slices.SortStableFunc] computes.  For
    [slices.SortFunc], which is not stable, it is one of the permitted results. *)
Section sorting.
Context {A : Type} (cmp : A -> A -> Z).

Fixpoint insert_by (x : A) (l : list A) : list A :=
  match l with
  | [] => [x]
  | y :: l' => if (cmp x y <=? 0)%Z then x :: l else y :: insert_by x l'
  end.

Definition sort_by (l : list A) : list A := foldr insert_by [] l.

Lemma insert_by_perm x l : insert_by x l ≡ₚ x :: l.
Proof.
  induction l as [| y l IH]; cbn; [done |].
  destruct (_ <=? _)%Z; [done |]. rewrite IH. apply Permutation_swap.
Qed.

Lemma sort_by_perm l : sort_by l ≡ₚ l.
Proof. induction l as [| x l IH]; cbn; [done |]. by rewrite insert_by_perm, IH. Qed.

Lemma sort_by_length l : length (sort_by l) = length l.
Proof. by rewrite sort_by_perm. Qed.

Lemma sort_by_elem x l : x ∈ sort_by l <-> x ∈ l.
Proof. by rewrite sort_by_perm. Qed.

Context `{!Comparator cmp}.

Lemma insert_by_sorted x l :
  StronglySorted (cmp_le cmp) l -> StronglySorted (cmp_le cmp) (insert_by x l).
Proof using Type*.
  induction 1 as [| y l Hl IH Hy]; cbn; [repeat constructor |].
  destruct (Z.leb_spec (cmp x y) 0) as [H | H].
  - constructor; [by constructor |]. constructor; [done |].
    eapply List.Forall_impl; [| exact Hy]. intros z Hz. by eapply cmp_trans.
  - constructor; [done |]. rewrite insert_by_perm. constructor; [| done].
    unfold cmp_le. pose proof (cmp_flip y x). lia.
Qed.

Lemma sort_by_sorted l : StronglySorted (cmp_le cmp) (sort_by l).
Proof using Type*. induction l; cbn; [constructor |]. by apply insert_by_sorted. Qed.

Lemma sort_by_id l : StronglySorted (cmp_le cmp) l -> sort_by l = l.
Proof using Type*.
  unfold sort_by. induction 1 as [| y l Hl IH Hy]; cbn; [done |]. rewrite IH.
  destruct l as [| z l]; [done |]. cbn. inversion Hy as [| ? ? Hz]; subst.
  unfold cmp_le in Hz. by apply Z.leb_le in Hz as ->.
Qed.

(** Any sorted permutation is the one computed, when no two different
    elements compare equal. *)
Lemma sort_by_unique l k :
  (forall x y, x ∈ l -> y ∈ l -> cmp x y = 0%Z -> x = y) ->
  k ≡ₚ l -> StronglySorted (cmp_le cmp) k -> k = sort_by l.
Proof using Type*.
  intros Hinj Hp Hs. apply (StronglySorted_unique_strong (cmp_le cmp)).
  - intros x y Hx Hy H1 H2. unfold cmp_le in *. apply Hinj.
    + by rewrite <- Hp.
    + by apply sort_by_elem.
    + pose proof (cmp_flip y x). lia.
  - done.
  - apply sort_by_sorted.
  - by rewrite sort_by_perm.
Qed.
End sorting.

Lemma StronglySorted_weaken {A} (R S : A -> A -> Prop) l :
  (forall x y, R x y -> S x y) -> StronglySorted R l -> StronglySorted S l.
Proof.
  intros H. induction 1 as [| x l Hl IH Hx]; constructor; [done |].
  eapply List.Forall_impl; [| exact Hx]. eauto.
Qed.

(** * Membership in the lists the loops build *)

Lemma StronglySorted_lookup_lt {A} (R : A -> A -> Prop) l i j x y :
  StronglySorted R l -> l !! i = Some x -> l !! j = Some y -> i < j -> R x y.
Proof.
  intros Hs Hx Hy Hij. rewrite <- (take_drop j l) in Hs. eapply StronglySorted_app_1_elem_of; [exact Hs | |].
  - apply list_elem_of_lookup. exists i. by apply lookup_take_Some.
  - apply list_elem_of_lookup. exists 0. by rewrite lookup_drop, Nat.add_0_r.
Qed.

Lemma existsb_elem {A} (f : A -> bool) l : existsb f l = true <-> exists x, x ∈ l /\ f x = true.
Proof. rewrite existsb_exists. by setoid_rewrite list_elem_of_In. Qed.

Lemma forallb_elem {A} (f : A -> bool) l : forallb f l = true <-> forall x, x ∈ l -> f x = true.
Proof. rewrite forallb_forall. by setoid_rewrite list_elem_of_In. Qed.

Lemma flat_map_elem {A B} (f : A -> list B) l y :
  y ∈ flat_map f l <-> exists x, x ∈ l /\ y ∈ f x.
Proof. rewrite list_elem_of_In, in_flat_map. by setoid_rewrite list_elem_of_In. Qed.

Lemma map_elem {A B} (f : A -> B) l y : y ∈ map f l <-> exists x, y = f x /\ x ∈ l.
Proof. apply list_elem_of_fmap. Qed.

Lemma filter_elem {A} (f : A -> bool) l x : x ∈ List.filter f l <-> x ∈ l /\ f x = true.
Proof. rewrite !list_elem_of_In. apply List.filter_In. Qed.

Lemma NoDup_map_filter {A B} (f : A -> B) P l : NoDup (map f l) -> NoDup (map f (List.filter P l)).
Proof.
  induction l as [| x l IH]; [done |]. cbn. intros [Hx Hl]%list.NoDup_cons. destruct (P x); cbn; [| by apply IH].
  apply list.NoDup_cons. split; [| by apply IH].
  intros (y & Hf & [Hy _]%filter_elem)%map_elem. apply Hx, map_elem. by exists y.
Qed.

(** * Counting the elements of a list that pass a test *)

Definition one (b : bool) : Z := if b then 1%Z else 0%Z.

Definition counted {A} (f : A -> bool) (l : list A) : Z := zlen (List.filter f l).

Section counting.
Context {A : Type}.
Implicit Types (f : A -> bool) (l : list A).

Lemma counted_snoc f l p : counted f (l ++ [p]) = (counted f l + one (f p))%Z.
Proof. unfold counted. rewrite List.filter_app, zlen_app. f_equal. cbn. by destruct (f p). Qed.

Lemma counted_insert f l i p q :
  l !! i = Some p -> counted f (<[i := q]> l) = (counted f l - one (f p) + one (f q))%Z.
Proof.
  unfold counted. revert i. induction l as [| x l IH]; intros [| i] H; try done.
  - injection H as ->. cbn. unfold one. destruct (f p), (f q); rewrite ?zlen_cons; zlia.
  - change (<[S i := q]> (x :: l)) with (x :: <[i := q]> l). cbn [List.filter].
    specialize (IH _ H). unfold one in *.
    destruct (f x); rewrite ?zlen_cons; destruct (f p), (f q); zgen; lia.
Qed.

Lemma counted_nonneg f l : (0 <= counted f l)%Z.
Proof. apply zlen_nonneg. Qed.

Lemma counted_pos f l i p : l !! i = Some p -> f p = true -> (0 < counted f l)%Z.
Proof.
  intros H Hf. pose proof (counted_insert f l i p p H). unfold counted in *.
  assert (p ∈ List.filter f l) as Hin.
  { apply filter_elem. split; [by eapply list_elem_of_lookup_2 | done]. }
  destruct (List.filter f l); [by apply elem_of_nil in Hin |]. rewrite zlen_cons. zlia.
Qed.

Lemma counted_zero f l : counted f l = 0%Z -> forall i p, l !! i = Some p -> f p = false.
Proof.
  intros Hz i p Hi. destruct (f p) eqn:E; [| done]. pose proof (counted_pos f l i p Hi E). lia.
Qed.

Lemma counted_cons f x l : counted f (x :: l) = (one (f x) + counted f l)%Z.
Proof. unfold counted. cbn. destruct (f x); cbn; [apply zlen_cons | done]. Qed.

Lemma counted_unique f l i j p q :
  (counted f l <= 1)%Z -> l !! i = Some p -> l !! j = Some q -> f p = true -> f q = true -> i = j.
Proof.
  intros Hc Hi Hj Hp Hq. revert i j Hi Hj Hc. induction l as [| x l IH]; [done |].
  intros [| i] [| j] Hi Hj; rewrite counted_cons; intros Hc; cbn in Hi, Hj; try done.
  - injection Hi as ->. pose proof (counted_pos f l j q Hj Hq). rewrite Hp in Hc. cbn in Hc. lia.
  - injection Hj as ->. pose proof (counted_pos f l i p Hi Hp). rewrite Hq in Hc. cbn in Hc. lia.
  - f_equal. apply (IH i j Hi Hj). destruct (f x); cbn in Hc; lia.
Qed.
Lemma counted_app f l k : counted f (l ++ k) = (counted f l + counted f k)%Z.
Proof. unfold counted. by rewrite List.filter_app, zlen_app. Qed.

Lemma counted_none f l : Forall (fun p => f p = false) l -> counted f l = 0%Z.
Proof. induction 1 as [| p l Hp _ IH]; [done |]. by rewrite counted_cons, Hp, IH. Qed.
End counting.

(** Membership after one element of a list is replaced. *)
Lemma elem_of_insert_inv {A} (l : list A) i x y : y ∈ <[i := x]> l -> y = x \/ y ∈ l.
Proof.
  intros H. apply list_elem_of_lookup_1 in H as [j Hj].
  apply list_lookup_insert_Some in Hj as [(_ & <- & _) | [_ Hj]]; [by left |].
  right. by eapply list_elem_of_lookup_2.
Qed.

Lemma elem_of_insert_new {A} (l : list A) i x y : l !! i = Some y -> x ∈ <[i := x]> l.
Proof.
  intros H. apply (list_elem_of_lookup_2 _ i). apply list_lookup_insert_eq. by eapply lookup_lt_Some.
Qed.

Lemma elem_of_insert_keep {A} (l : list A) i x y z : l !! i = Some y -> z ∈ l -> z <> y -> z ∈ <[i := x]> l.
Proof.
  intros Hi Hz Hne. apply list_elem_of_lookup_1 in Hz as [j Hj].
  apply (list_elem_of_lookup_2 _ j). rewrite list_lookup_insert_ne; [done | congruence].
Qed.

(** Replacing one element, up to order. *)
Lemma list_insert_perm {A} (l : list A) i x y :
  l !! i = Some x -> exists k, l ≡ₚ x :: k /\ <[i := y]> l ≡ₚ y :: k.
Proof.
  intros H. exists (take i l ++ drop (S i) l). split.
  - rewrite <- (take_drop_middle l i x H) at 1. by rewrite <- Permutation_middle.
  - rewrite insert_take_drop by (by eapply lookup_lt_Some). by rewrite <- Permutation_middle.
Qed.

Lemma NoDup_sub {A} (l k : list A) : l ⊆+ k -> NoDup k -> NoDup l.
Proof. intros [r ->]%submseteq_Permutation H. by apply list.NoDup_app in H as [? _]. Qed.

(** An invariant of every step holds in every reachable state. *)
Lemma rtc_invariant {S} (step : S -> S -> Prop) (inv : S -> Prop) s s' :
  (forall a b, inv a -> step a b -> inv b) -> inv s -> rtc step s s' -> inv s'.
Proof. intros Hstep Hs. induction 1 as [| a b c Hab _ IH]; [done |]. apply IH. by eapply Hstep. Qed.

(** Forward simulation: a relation every concrete step of which is some steps
    of the specification relates everything reachable. *)
Lemma simulation_rtc {C A} (cstep : C -> C -> Prop) (astep : A -> A -> Prop) (R : C -> A -> Prop) c c' a :
  (forall c c' a, R c a -> cstep c c' -> exists a', rtc astep a a' /\ R c' a') ->
  R c a -> rtc cstep c c' -> exists a', rtc astep a a' /\ R c' a'.
Proof.
  intros Hsim HR H. revert a HR. induction H as [c | c1 c2 c3 H12 _ IH]; intros a HR; [by exists a |].
  destruct (Hsim _ _ _ HR H12) as (a2 & Ha & HR2). destruct (IH _ HR2) as (a3 & Ha' & HR3).
  exists a3. split; [by etrans | done].
Qed.

(** ** Sums, and [slices.Compact] *)

Definition sum_of {A} (f : A -> Z) (items : list A) : Z := foldr (fun item n => f item + n)%Z 0%Z items.

Lemma sum_of_snoc {A} (f : A -> Z) items item : sum_of f (items ++ [item]) = (sum_of f items + f item)%Z.
Proof. unfold sum_of. induction items as [| x items IH]; cbn; lia. Qed.

Lemma sum_of_cons {A} (f : A -> Z) x l : sum_of f (x :: l) = (f x + sum_of f l)%Z.
Proof. done. Qed.

Lemma sum_of_perm {A} (f : A -> Z) l k : l ≡ₚ k -> sum_of f l = sum_of f k.
Proof. unfold sum_of. induction 1; cbn; lia. Qed.

Fixpoint Compact {A} `{EqDecision A} (l : list A) : list A :=
  match l with
  | x :: (y :: _) as rest => if bool_decide (x = y) then Compact rest else x :: Compact rest
  | _ => l
  end.

#[export] Hint Resolve zlen_nonneg sort_by_perm sort_by_sorted : go.
#[export] Hint Rewrite @zlen_nil @zlen_cons @zlen_app : go.
