(* ===== verification/Api.v ===== *)
(** internal/api/types.go: the data types the components exchange, as far as
    the components of this development use them. *)

From S2P Require Import Prelude.

Module Api.

Record ResourceDescriptor := MkResourceDescriptor {
  rd_Group : string;
  rd_Version : string;
  rd_Resource : string;
  rd_Kind : string;
  rd_Namespaced : bool;
  rd_Category : string;
}.

Record ObjectRef := MkObjectRef {
  or_Group : string;
  or_Version : string;
  or_Resource : string;
  or_Namespace : string;
  or_Name : string;
}.

Record Scope := MkScope {
  Everywhere : bool;
  Namespaces : list string;
  Undecided : list string;
}.

Record Refusal := MkRefusal { r_Capability : string; r_Reason : string }.

Record Access := MkAccess { Refused : list Refusal }.

Record RowRefusal := MkRowRefusal { rr_At : Z; rr_Reason : string }.

Record BulkAccess := MkBulkAccess { b_Refused : list RowRefusal }.

#[export] Instance ResourceDescriptor_eq_dec : EqDecision ResourceDescriptor.
Proof. solve_decision. Defined.
#[export] Instance ObjectRef_eq_dec : EqDecision ObjectRef.
Proof. solve_decision. Defined.

End Api.
