(* ===== verification/CommandBuffer.v ===== *)
(** internal/commandbuffer/buffer.go: the bounded byte buffer that keeps the
    head or the tail of a command's output.  The mutex makes every method one
    atomic step, so a method is a function from buffer to buffer. *)

From S2P Require Import Prelude.

Module CommandBuffer.

Record Buffer := MkBuffer {
  body : list Byte.byte;
  limit : Z;
  tail : bool;
  exceeded : bool;
}.

Definition positive (limit : Z) : Z := if (limit <? 0)%Z then 0%Z else limit.

Definition Head (limit : Z) : Buffer := MkBuffer [] (positive limit) false false.

Definition Tail (limit : Z) : Buffer := MkBuffer [] (positive limit) true false.

Definition writeHead (b : Buffer) (chunk : list Byte.byte) : Buffer :=
  let remaining := (limit b - zlen (body b))%Z in
  if (remaining <=? 0)%Z then
    if (0 <? zlen chunk)%Z then MkBuffer (body b) (limit b) (tail b) true else b
  else if (zlen chunk <=? remaining)%Z then
    MkBuffer (body b ++ chunk) (limit b) (tail b) (exceeded b)
  else MkBuffer (body b ++ ztake remaining chunk) (limit b) (tail b) true.

Definition writeTail (b : Buffer) (chunk : list Byte.byte) : Buffer :=
  if (zlen chunk =? 0)%Z then b
  else if (limit b =? 0)%Z then MkBuffer (body b) (limit b) (tail b) true
  else if (limit b <=? zlen chunk)%Z then
    MkBuffer (zdrop (zlen chunk - limit b) chunk) (limit b) (tail b)
      (exceeded b || (0 <? zlen (body b))%Z || (limit b <? zlen chunk)%Z)
  else
    let overflow := (zlen (body b) + zlen chunk - limit b)%Z in
    if (0 <? overflow)%Z then
      let moved := go_copy (body b) (zdrop overflow (body b)) in
      let kept := ztake (zlen (body b) - overflow) moved in
      MkBuffer (kept ++ chunk) (limit b) (tail b) true
    else MkBuffer (body b ++ chunk) (limit b) (tail b) (exceeded b).

(** [Write] reports the whole chunk as written and never an error. *)
Definition Write (b : Buffer) (chunk : list Byte.byte) : Buffer * Z :=
  ((if tail b then writeTail b chunk else writeHead b chunk), zlen chunk).

Definition Bytes (b : Buffer) : list Byte.byte := body b.
Definition Exceeded (b : Buffer) : bool := exceeded b.

Definition writeAll (b : Buffer) (chunks : list (list Byte.byte)) : Buffer :=
  fold_left (fun b chunk => (Write b chunk).1) chunks b.

(** What the buffer promises after the stream [s] went through it. *)
Definition head_spec (l : Z) (s : list Byte.byte) (b : Buffer) : Prop :=
  tail b = false /\ limit b = l /\ body b = ztake l s /\ exceeded b = (l <? zlen s)%Z.

Definition tail_spec (l : Z) (s : list Byte.byte) (b : Buffer) : Prop :=
  tail b = true /\ limit b = l /\ body b = zdrop (zlen s - l) s /\ exceeded b = (l <? zlen s)%Z.

(** ** The stream lemmas *)

(** Shifting the body left by [n] with [copy] and cutting the tail is [drop]. *)
Lemma copy_shift {A} n (l : list A) :
  (0 <= n <= zlen l)%Z ->
  ztake (zlen l - n) (go_copy l (zdrop n l)) = zdrop n l.
Proof.
  intros H. unfold go_copy, ztake, zdrop, zlen in *.
  rewrite (take_ge (drop _ l)) by (rewrite length_drop; lia).
  rewrite take_app_le by (rewrite length_drop; lia).
  apply take_ge. rewrite length_drop. lia.
Qed.

Ltac zlens :=
  repeat match goal with
  | |- context [zlen (@app ?A ?l ?k)] => rewrite (@zlen_app A l k)
  end;
  repeat match goal with
  | l : list Byte.byte |- _ =>
      lazymatch goal with
      | _ : (0 <= zlen l)%Z |- _ => fail
      | _ => let Hnn := fresh "Hnn" in pose proof (zlen_nonneg l) as Hnn
      end
  end.

Lemma writeHead_spec l s b chunk :
  (0 <= l)%Z -> head_spec l s b -> head_spec l (s ++ chunk) (writeHead b chunk).
Proof.
  intros Hl (Ht & Hlim & Hb & He). unfold head_spec, writeHead.
  rewrite Hlim, He. rewrite Hb. rewrite zlen_ztake by done. zlens.
  destruct (Z.leb_spec (l - Z.min l (zlen s)) 0).
  { destruct (Z.ltb_spec 0 (zlen chunk)); cbn; rewrite ?He, ?Hb; repeat split; auto;
      rewrite ?ztake_app_ge by lia; auto; zcases; lia. }
  destruct (Z.leb_spec (zlen chunk) (l - Z.min l (zlen s))); cbn; repeat split; auto;
    zcases; try lia.
  - rewrite !ztake_ge; zlens; auto; lia.
  - rewrite (ztake_app_le l s), ztake_ge by lia. do 2 f_equal. lia.
Qed.

Lemma writeTail_spec l s b chunk :
  (0 <= l)%Z -> tail_spec l s b -> tail_spec l (s ++ chunk) (writeTail b chunk).
Proof.
  intros Hl (Ht & Hlim & Hb & He). unfold tail_spec, writeTail.
  pose proof (zlen_nonneg (zdrop (zlen s - l) s)) as Hd.
  rewrite Hlim, He. rewrite Hb. zlens. rewrite zlen_zdrop in *.
  destruct (Z.eqb_spec (zlen chunk) 0) as [H0 | H0].
  { apply zlen_nil_inv in H0 as ->. rewrite app_nil_r, Z.add_0_r. done. }
  destruct (Z.eqb_spec l 0) as [-> | Hl0].
  { cbn. repeat split; auto; [rewrite !zdrop_none by (zlens; lia); done | zcases; lia]. }
  destruct (Z.leb_spec l (zlen chunk)) as [H1 | H1].
  { cbn. repeat split; auto; [| zcases; cbn; try done; lia].
    rewrite (zdrop_app_ge _ s) by lia. f_equal. lia. }
  destruct (Z.ltb_spec 0 (Z.max 0 (zlen s - Z.max 0 (zlen s - l)) + zlen chunk - l)) as [H2 | H2].
  - cbn. repeat split; auto; [| zcases; lia].
    rewrite <- (zlen_zdrop (zlen s - l) s), copy_shift by (rewrite zlen_zdrop; lia).
    rewrite zdrop_app_le by lia. f_equal. rewrite zlen_zdrop.
    destruct (Z.leb_spec (zlen s) l).
    + rewrite (zdrop_all (zlen s - l)) by lia. f_equal; lia.
    + rewrite zdrop_zdrop by lia. f_equal; lia.
  - cbn. repeat split; auto; [| zcases; lia].
    rewrite !zdrop_all by lia. done.
Qed.

Lemma writeAll_spec (P : list Byte.byte -> Buffer -> Prop) b s chunks :
  (forall s b chunk, P s b -> P (s ++ chunk) (Write b chunk).1) ->
  P s b -> P (s ++ concat chunks) (writeAll b chunks).
Proof.
  intros Hstep. unfold writeAll. revert s b.
  induction chunks as [| c cs IH]; intros s b H; cbn; [by rewrite app_nil_r |].
  rewrite app_assoc. apply IH, Hstep, H.
Qed.

Lemma positive_nonneg n : (0 <= positive n)%Z.
Proof. unfold positive. zcases; lia. Qed.

Lemma Tail_init n : tail_spec (positive n) [] (Tail n).
Proof.
  unfold tail_spec, zdrop. rewrite drop_nil. repeat split. symmetry.
  apply Z.ltb_ge, positive_nonneg.
Qed.

Lemma Head_init n : head_spec (positive n) [] (Head n).
Proof.
  unfold head_spec, ztake. rewrite take_nil. repeat split. symmetry.
  apply Z.ltb_ge, positive_nonneg.
Qed.

#[local] Hint Resolve Tail_init Head_init positive_nonneg writeHead_spec writeTail_spec : core.

(** A [Tail] buffer holds exactly the last [limit] bytes of everything
    written to it, however the stream was cut into chunks, and it reports
    [Exceeded] exactly when something was dropped. *)
Theorem tail_keeps_suffix (n : Z) (chunks : list (list Byte.byte)) :
  let b := writeAll (Tail n) chunks in
  let s := concat chunks in
  Bytes b = zdrop (zlen s - positive n) s /\ Exceeded b = (positive n <? zlen s)%Z.
Proof.
  cbn. destruct (writeAll_spec (tail_spec (positive n)) (Tail n) [] chunks) as (_ & _ & ? & ?); auto.
  intros s b c H. cbn. rewrite (proj1 H). auto.
Qed.

(** A [Head] buffer holds exactly the first [limit] bytes of everything
    written to it, and reports [Exceeded] exactly when something was dropped. *)
Theorem head_keeps_prefix (n : Z) (chunks : list (list Byte.byte)) :
  let b := writeAll (Head n) chunks in
  let s := concat chunks in
  Bytes b = ztake (positive n) s /\ Exceeded b = (positive n <? zlen s)%Z.
Proof.
  cbn. destruct (writeAll_spec (head_spec (positive n)) (Head n) [] chunks) as (_ & _ & ? & ?); auto.
  intros s b c H. cbn. rewrite (proj1 H). auto.
Qed.

End CommandBuffer.
