(* ===== verification/Unstr.v ===== *)
(** internal/unstr/unstr.go: reading fields out of an unstructured Kubernetes
    object.  The [unstructured] package of k8s.io/apimachinery is third-party
    code: it is the class [Unstructured], an interface the definitions take as
    an argument.  [Doc] is a concrete instance, used to evaluate examples. *)

From S2P Require Import Prelude.

(** Go's [any], as far as a decoded JSON document holds it. *)
Inductive any : Type :=
| ANil
| ABool (b : bool)
| AInt (i : Z)
| AFloat (bits : Z)
| AString (s : string)
| ASlice (l : list any)
| AMap (m : list (string * any)).

(** [map[string]any] as a list of bindings; the first one for a key counts. *)
Definition amap := list (string * any).

Fixpoint aget (m : amap) (key : string) : option any :=
  match m with
  | [] => None
  | (k, v) :: m' => if bool_decide (k = key) then Some v else aget m' key
  end.

(** Type assertions [v.(T)]. *)
Definition asString (v : option any) : option string :=
  match v with Some (AString s) => Some s | _ => None end.
Definition asMap (v : option any) : option amap :=
  match v with Some (AMap m) => Some m | _ => None end.
Definition asSlice (v : option any) : option (list any) :=
  match v with Some (ASlice l) => Some l | _ => None end.
Definition asInt (v : option any) : option Z :=
  match v with Some (AInt i) => Some i | _ => None end.

(** What a nested read of apimachinery reports. *)
Record nested (A : Type) := Nested { value : A; found : bool; failed : bool }.
Arguments Nested {A} value found failed.
Arguments value {A} n.
Arguments found {A} n.
Arguments failed {A} n.

Class Unstructured (U : Type) := {
  GetName : U -> string;
  GetNamespace : U -> string;
  GetKind : U -> string;
  GetUID : U -> string;
  NestedString : U -> list string -> nested string;
  NestedBool : U -> list string -> nested bool;
  NestedInt64 : U -> list string -> nested Z;
  NestedSlice : U -> list string -> nested (list any);
  NestedMap : U -> list string -> nested amap;
}.

Module Unstr.
Section unstr.
Context {U : Type} `{!Unstructured U}.

(** [if !found || err != nil { return zero }; return value] *)
Definition held {A} (zero : A) (n : nested A) : A :=
  if negb (found n) || failed n then zero else value n.

Definition UString (u : U) (fields : list string) : string :=
  held "" (NestedString u fields).

Definition UBool (u : U) (fields : list string) : bool :=
  held false (NestedBool u fields).

Definition UInt (u : U) (fields : list string) : Z :=
  held 0%Z (NestedInt64 u fields).

Definition USlice (u : U) (fields : list string) : list any :=
  held [] (NestedSlice u fields).

Definition UMap (u : U) (fields : list string) : option amap :=
  let n := NestedMap u fields in
  if negb (found n) || failed n then None else Some (value n).

Definition At (entry : amap) (key : string) : string :=
  match asString (aget entry key) with Some value => value | None => "" end.

(** The first condition of the given type. *)
Fixpoint conditionOfType (type : string) (conditions : list any) : option amap :=
  match conditions with
  | [] => None
  | raw :: rest =>
      match asMap (Some raw) with
      | None => conditionOfType type rest
      | Some entry =>
          if bool_decide (At entry "type" = type) then Some entry
          else conditionOfType type rest
      end
  end.

Definition Ready (u : U) : string * string :=
  match conditionOfType "Ready" (USlice u ["status"; "conditions"]) with
  | Some entry => (At entry "status", At entry "message")
  | None => ("", "")
  end.

Definition ReadySummary (u : U) : string :=
  match conditionOfType "Ready" (USlice u ["status"; "conditions"]) with
  | None => ""
  | Some entry =>
      if bool_decide (At entry "status" = "True") then "Ready"
      else if bool_decide (At entry "reason" <> "") then At entry "reason"
      else "NotReady"
  end.
End unstr.
End Unstr.

(** ** A concrete document *)

Record Doc := MkDoc { Object : amap }.

Fixpoint doc_field (v : any) (fields : list string) : nested any :=
  match fields with
  | [] => Nested v true false
  | f :: rest =>
      match v with
      | ANil => Nested ANil false false
      | AMap m =>
          match aget m f with
          | None => Nested ANil false false
          | Some w => doc_field w rest
          end
      | _ => Nested ANil false true
      end
  end.

Definition doc_as {A} (zero : A) (cast : option any -> option A) (u : Doc) (fields : list string) :
    nested A :=
  let n := doc_field (AMap (Object u)) fields in
  if negb (found n) || failed n then Nested zero false (failed n)
  else match cast (Some (value n)) with
       | Some a => Nested a true false
       | None => Nested zero false true
       end.

#[export] Instance doc_unstructured : Unstructured Doc := {
  GetName u := Unstr.held "" (doc_as "" asString u ["metadata"; "name"]);
  GetNamespace u := Unstr.held "" (doc_as "" asString u ["metadata"; "namespace"]);
  GetKind u := Unstr.held "" (doc_as "" asString u ["kind"]);
  GetUID u := Unstr.held "" (doc_as "" asString u ["metadata"; "uid"]);
  NestedString := doc_as "" asString;
  NestedBool := doc_as false (fun v => match v with Some (ABool b) => Some b | _ => None end);
  NestedInt64 := doc_as 0%Z asInt;
  NestedSlice := doc_as [] asSlice;
  NestedMap := doc_as [] asMap;
}.
