(* ===== verification/Rbac.v ===== *)
(** internal/rbac: the index of who holds which RBAC grants ([build.go]), the
    questions asked of it ([ask.go]) and how a cluster is read into it
    ([read.go]).  A Go map that is iterated in an unspecified order is a
    [gmap]; where the order shows, the definition takes the order as a list. *)

From S2P Require Import Prelude Api Unstr.

Module Rbac.

(** ** rbac.go *)

Definition Anything : string := "*".
Definition KindUser : string := "User".
Definition KindGroup : string := "Group".
Definition KindServiceAccount : string := "ServiceAccount".
Definition RoleKind : string := "Role".
Definition ClusterRoleKind : string := "ClusterRole".
Definition GroupName : string := "rbac.authorization.k8s.io".

Record Subject := MkSubject { s_kind : string; s_name : string; s_namespace : string }.

Record Rule := MkRule {
  Verbs : list string;
  Groups : list string;
  Resources : list string;
  Names : list string;
  URLs : list string;
}.

Record Grant := MkGrant {
  Binding : string;
  BindingKind : string;
  g_Role : string;
  g_RoleKind : string;
  g_Namespace : string;
  Rules : list Rule;
  Missing : bool;
  Aggregated : bool;
  RuleCount : Z;
}.

Record Holder := MkHolder { h_Subject : Subject; Grants : list Grant; Powers : list string }.

Record Index := MkIndex { Holders : list Holder; Absent : list string; i_Error : string }.

#[export] Instance Subject_eq_dec : EqDecision Subject.
Proof. solve_decision. Defined.
#[export] Instance Rule_eq_dec : EqDecision Rule.
Proof. solve_decision. Defined.
#[export] Instance Grant_eq_dec : EqDecision Grant.
Proof. solve_decision. Defined.

Definition Key (s : Subject) : string :=
  s_kind s +s+ "/" +s+ s_namespace s +s+ "/" +s+ s_name s.

Definition Label (s : Subject) : string :=
  if negb (bool_decide (s_kind s = KindServiceAccount)) then s_name s
  else if bool_decide (s_namespace s = "") then s_name s
  else "system:serviceaccount:" +s+ s_namespace s +s+ ":" +s+ s_name s.

Definition Everywhere (g : Grant) : bool := bool_decide (g_Namespace g = "").

(** ** ask.go *)

Record Ask := MkAsk { a_verb : string; a_group : string; a_resource : string; a_namespace : string }.

Definition covers (held : list string) (wanted : string) : bool :=
  contains held Anything || contains held wanted.

Definition coversResource (held : list string) (wanted : string) : bool :=
  if contains held Anything then true
  else if contains held wanted then true
  else
    let '(base, sub, split) := str_cut wanted "/" in
    if negb split then false
    else contains held (base +s+ "/" +s+ Anything) || contains held (Anything +s+ "/" +s+ sub).

Definition Allows (r : Rule) (ask : Ask) : bool :=
  if (zlen (Resources r) =? 0)%Z then false
  else if (0 <? zlen (Names r))%Z then false
  else if negb (covers (Verbs r) (a_verb ask)) then false
  else if negb (covers (Groups r) (a_group ask)) then false
  else coversResource (Resources r) (a_resource ask).

Definition grant_covers (g : Grant) (namespace : string) : bool :=
  if Everywhere g then true
  else if bool_decide (namespace = "") then true
  else bool_decide (g_Namespace g = namespace).

Definition Reaches (g : Grant) (ask : Ask) : bool :=
  if negb (grant_covers g (a_namespace ask)) then false
  else existsb (fun rule => Allows rule ask) (Rules g).

Definition Who (i : Index) (ask : Ask) : list Holder :=
  omap (fun holder =>
    let kept := List.filter (fun grant => Reaches grant ask) (Grants holder) in
    if (zlen kept =? 0)%Z then None
    else Some (MkHolder (h_Subject holder) kept (Powers holder))) (Holders i).

Definition powers : list (string * Ask) := [
  ("cluster-admin", MkAsk Anything Anything Anything "");
  ("reads secrets", MkAsk "get" "" "secrets" "");
  ("lists secrets", MkAsk "list" "" "secrets" "");
  ("execs into pods", MkAsk "create" "" "pods/exec" "");
  ("creates pods", MkAsk "create" "" "pods" "");
  ("impersonates", MkAsk "impersonate" "" "users" "");
  ("writes RBAC", MkAsk "create" GroupName "clusterrolebindings" "");
  ("escalates", MkAsk "escalate" GroupName "clusterroles" "");
  ("reads every kind", MkAsk "get" Anything Anything "")]%string.

Definition reaches (holder : Holder) (ask : Ask) : bool :=
  existsb (fun grant => Reaches grant ask) (Grants holder).

Fixpoint powersLoop (holder : Holder) (out : list string) (rest : list (string * Ask)) : list string :=
  match rest with
  | [] => out
  | (label, ask) :: rest =>
      if negb (reaches holder ask) then powersLoop holder out rest
      else if bool_decide (label = "cluster-admin"%string) then ["cluster-admin"%string]
      else powersLoop holder (out ++ [label]) rest
  end.

Definition powersOf (holder : Holder) : list string := powersLoop holder [] powers.

Definition sortedKeys (held : gset string) : list string := sort_by str_compare (elements held).

(** [Namespaces] is nil (here [None]) when one grant holds everywhere. *)
Definition Namespaces (h : Holder) : option (list string) :=
  let fix loop held grants :=
    match grants with
    | [] => Some (sortedKeys held)
    | grant :: rest => if Everywhere grant then None else loop ({[g_Namespace grant]} ∪ held) rest
    end in
  loop ∅ (Grants h).

(** ** build.go *)

(** [into.Grants = append(into.Grants, grant)] on the holder of a key. *)
Definition addGrant (grant : Grant) (holders : gmap string Holder) (subject : Subject) :
    gmap string Holder :=
  let into := default (MkHolder subject [] []) (holders !! Key subject) in
  <[Key subject := MkHolder (h_Subject into) (Grants into ++ [grant]) (Powers into)]> holders.

Definition deliver (holders : gmap string Holder) (d : Subject * Grant) : gmap string Holder :=
  addGrant d.2 holders d.1.

(** ** Delivering grants to holders *)

Definition holderFrom (ds : list (Subject * Grant)) : option Holder :=
  match ds with
  | [] => None
  | (s, _) :: _ => Some (MkHolder s (map snd ds) [])
  end.

Definition forKey (k : string) (ds : list (Subject * Grant)) : list (Subject * Grant) :=
  List.filter (fun d => bool_decide (Key d.1 = k)) ds.

Lemma delivered_lookup ds k :
  fold_left deliver ds ∅ !! k = holderFrom (forKey k ds).
Proof.
  induction ds as [| [s g] ds IH] using rev_ind; [done |].
  rewrite fold_left_app. cbn. unfold deliver at 1, addGrant, forKey. cbn.
  rewrite List.filter_app. cbn. fold (forKey k ds). case_bool_decide as Hk; subst.
  - rewrite lookup_insert_eq, IH. destruct (forKey _ ds) as [| [s' g'] l]; cbn; [done |].
    by rewrite map_app.
  - rewrite lookup_insert_ne by done. by rewrite IH, app_nil_r.
Qed.

Lemma delivered_absent (ms : list string) (acc : gset string) m :
  m ∈ fold_left (fun out m => {[m]} ∪ out) ms acc <-> m ∈ ms \/ m ∈ acc.
Proof.
  revert acc. induction ms as [| x ms IH]; intros acc; cbn; [set_solver |].
  rewrite IH. set_solver.
Qed.

Lemma forKey_elem k ds s g : (s, g) ∈ forKey k ds <-> (s, g) ∈ ds /\ Key s = k.
Proof.
  unfold forKey. rewrite !list_elem_of_In, List.filter_In, bool_decide_eq_true. done.
Qed.

Lemma holderFrom_some ds h :
  holderFrom ds = Some h <->
  ds <> [] /\ Grants h = map snd ds /\ head (map fst ds) = Some (h_Subject h) /\ Powers h = [].
Proof.
  destruct ds as [| [s g] ds]; cbn.
  - split; [done | by intros (? & _)].
  - split.
    + by intros [= <-].
    + intros (_ & Hg & [= ->] & Hp). destruct h as [sb gs ps]. cbn in *. by subst.
Qed.

Section build.
Context {U : Type} `{!Unstructured U}.
Import Unstr.

Record Held := MkHeld {
  h_Roles : list U;
  h_ClusterRoles : list U;
  h_Bindings : list U;
  h_ClusterBinds : list U;
}.

Definition roleKey (name namespace : string) (namespaced : bool) : string :=
  if negb namespaced then name else namespace +s+ "/" +s+ name.

Definition byName (held : list U) (namespaced : bool) : gmap string U :=
  fold_left (fun out one => <[roleKey (GetName one) (GetNamespace one) namespaced := one]> out)
    held ∅.

Definition lookup_role (roles clusterRoles : gmap string U) (kind name namespace : string) : option U :=
  if bool_decide (kind = ClusterRoleKind) then clusterRoles !! name
  else roles !! roleKey name namespace true.

Definition where_ (binding : U) : string :=
  if bool_decide (GetNamespace binding = "") then GetName binding
  else GetNamespace binding +s+ "/" +s+ GetName binding.

Definition aggregated (role : U) : bool :=
  match UMap role ["aggregationRule"] with Some _ => true | None => false end.

Definition stringsAt (entry : amap) (field : string) : list string :=
  match asSlice (aget entry field) with
  | None => []
  | Some listed => omap (fun item => asString (Some item)) listed
  end.

Definition rulesOf (role : U) : list Rule :=
  omap (fun raw =>
    match asMap (Some raw) with
    | None => None
    | Some entry =>
        Some (MkRule (stringsAt entry "verbs") (stringsAt entry "apiGroups")
                (stringsAt entry "resources") (stringsAt entry "resourceNames")
                (stringsAt entry "nonResourceURLs"))
    end) (USlice role ["rules"]).

Definition subjectsOf (binding : U) (namespace : string) : list Subject :=
  omap (fun raw =>
    match asMap (Some raw) with
    | None => None
    | Some entry =>
        let name := At entry "name" in
        if bool_decide (name = "") then None
        else
          let one := MkSubject (At entry "kind") name (At entry "namespace") in
          if bool_decide (s_kind one = KindServiceAccount) && bool_decide (s_namespace one = "")
          then Some (MkSubject (s_kind one) (s_name one) namespace)
          else Some one
    end) (USlice binding ["subjects"]).

Definition absence (bindingKind : string) (binding : U) (roleKind roleName : string) : string :=
  bindingKind +s+ " " +s+ where_ binding +s+ " wants " +s+ roleKind +s+ " " +s+ roleName.

(** The grant a binding makes. *)
Definition grantOf (binding : U) (bindingKind namespace roleName roleKind : string)
    (role : option U) : Grant :=
  let rules := match role with Some r => rulesOf r | None => [] end in
  {| Binding := GetName binding;
     BindingKind := bindingKind;
     g_Role := roleName;
     g_RoleKind := roleKind;
     g_Namespace := namespace;
     Rules := rules;
     Missing := match role with Some _ => false | None => true end;
     Aggregated := match role with Some r => aggregated r | None => false end;
     RuleCount := zlen rules |}.

Definition fold (roles clusterRoles : gmap string U) (bindingKind : string)
    (acc : gmap string Holder * gset string) (bound : U * string) : gmap string Holder * gset string :=
  let '(binding, namespace) := bound in
  let '(holders, absent) := acc in
  match UMap binding ["roleRef"] with
  | None => (holders, absent)
  | Some ref =>
      let roleName := At ref "name" in
      let roleKind := At ref "kind" in
      let role := lookup_role roles clusterRoles roleKind roleName namespace in
      let absent := match role with
                    | None => {[absence bindingKind binding roleKind roleName]} ∪ absent
                    | Some _ => absent
                    end in
      let grant := grantOf binding bindingKind namespace roleName roleKind role in
      (fold_left (addGrant grant) (subjectsOf binding namespace) holders, absent)
  end.

Definition holderOrder : Holder -> Holder -> Z :=
  cmp_then (cmp_on (fun h => zlen (Powers h)) cmp_desc)
    (cmp_then (cmp_on (fun h => zlen (Grants h)) cmp_desc)
       (cmp_on (fun h => Label (h_Subject h)) str_compare)).

(** The holders come out of a Go map: [order] is the order it yields them in. *)
Definition ordered (order : list Holder) : list Holder :=
  sort_by holderOrder
    (map (fun one => MkHolder (h_Subject one) (Grants one) (powersOf one)) order).

Definition folded (held : Held) : gmap string Holder * gset string :=
  let roles := byName (h_Roles held) true in
  let clusterRoles := byName (h_ClusterRoles held) false in
  let acc := fold_left (fold roles clusterRoles "ClusterRoleBinding")
               (map (fun b => (b, "")) (h_ClusterBinds held)) (∅, ∅) in
  fold_left (fold roles clusterRoles "RoleBinding")
    (map (fun b => (b, GetNamespace b)) (h_Bindings held)) acc.

Definition Build (held : Held) : Index :=
  let '(holders, absent) := folded held in
  MkIndex (ordered (map snd (map_to_list holders))) (sortedKeys absent) "".

(** ** The grants as a list: who is delivered which grant, in order. *)

Definition bindings (held : Held) : list (string * (U * string)) :=
  map (fun b => ("ClusterRoleBinding", (b, ""))) (h_ClusterBinds held) ++
  map (fun b => ("RoleBinding", (b, GetNamespace b))) (h_Bindings held).

Definition roleFor (held : Held) (ref : amap) (namespace : string) : option U :=
  lookup_role (byName (h_Roles held) true) (byName (h_ClusterRoles held) false)
    (At ref "kind") (At ref "name") namespace.

Definition deliveriesOf (held : Held) (bound : string * (U * string)) : list (Subject * Grant) :=
  let '(kind, (b, ns)) := bound in
  match UMap b ["roleRef"] with
  | None => []
  | Some ref =>
      map (fun s => (s, grantOf b kind ns (At ref "name") (At ref "kind") (roleFor held ref ns)))
        (subjectsOf b ns)
  end.

Definition deliveries (held : Held) : list (Subject * Grant) :=
  flat_map (deliveriesOf held) (bindings held).

Definition absencesOf (held : Held) (bound : string * (U * string)) : list string :=
  let '(kind, (b, ns)) := bound in
  match UMap b ["roleRef"] with
  | None => []
  | Some ref =>
      match roleFor held ref ns with
      | Some _ => []
      | None => [absence kind b (At ref "kind") (At ref "name")]
      end
  end.

Definition foldBound (held : Held) (acc : gmap string Holder * gset string)
    (bound : string * (U * string)) : gmap string Holder * gset string :=
  fold (byName (h_Roles held) true) (byName (h_ClusterRoles held) false) bound.1 acc bound.2.

Lemma folded_bindings held : folded held = fold_left (foldBound held) (bindings held) (∅, ∅).
Proof.
  unfold folded, bindings. rewrite fold_left_app.
  assert (Hmap : forall kind (f : U -> string) l acc,
    fold_left (fold (byName (h_Roles held) true) (byName (h_ClusterRoles held) false) kind)
      (map (fun b => (b, f b)) l) acc =
    fold_left (foldBound held) (map (fun b => (kind, (b, f b))) l) acc).
  { intros kind f l. induction l as [| b l IH]; intros acc; cbn; [done |]. apply IH. }
  by rewrite (Hmap _ (fun _ => "")), (Hmap _ GetNamespace).
Qed.

Lemma foldBound_spec held acc bound :
  foldBound held acc bound =
  (fold_left deliver (deliveriesOf held bound) acc.1,
   fold_left (fun out m => {[m]} ∪ out) (absencesOf held bound) acc.2).
Proof.
  destruct acc as [holders absent], bound as [kind [b ns]].
  unfold foldBound, fold, deliveriesOf, absencesOf. cbn.
  destruct (UMap b ["roleRef"]) as [ref |]; [| done]. fold (roleFor held ref ns).
  f_equal; [| by destruct (roleFor held ref ns)].
  generalize (grantOf b kind ns (At ref "name") (At ref "kind") (roleFor held ref ns)) as g.
  intros g. revert holders. induction (subjectsOf b ns) as [| s l IH]; intros holders; cbn; [done |].
  apply IH.
Qed.

Lemma fold_bounds_spec held bounds acc :
  fold_left (foldBound held) bounds acc =
  (fold_left deliver (flat_map (deliveriesOf held) bounds) acc.1,
   fold_left (fun out m => {[m]} ∪ out) (flat_map (absencesOf held) bounds) acc.2).
Proof.
  revert acc. induction bounds as [| b l IH]; intros acc; cbn; [by destruct acc |].
  by rewrite IH, foldBound_spec, !fold_left_app.
Qed.

Lemma folded_spec held :
  folded held =
  (fold_left deliver (deliveries held) ∅,
   fold_left (fun out m => {[m]} ∪ out) (flat_map (absencesOf held) (bindings held)) ∅).
Proof. by rewrite folded_bindings, fold_bounds_spec. Qed.

(** ** What the index promises *)

(** A binding [b], found under [kind] in namespace [ns], grants [ask] to [s]. *)
Definition grants_ask (held : Held) (kind : string) (b : U) (ns : string) (s : Subject) (ask : Ask) :
    Prop :=
  exists ref role rule,
    (kind, (b, ns)) ∈ bindings held /\
    UMap b ["roleRef"] = Some ref /\
    roleFor held ref ns = Some role /\
    s ∈ subjectsOf b ns /\
    rule ∈ rulesOf role /\
    Allows rule ask = true /\
    (ns = "" \/ a_namespace ask = "" \/ ns = a_namespace ask).

Lemma grant_covers_spec g namespace :
  grant_covers g namespace = true <->
  g_Namespace g = "" \/ namespace = "" \/ g_Namespace g = namespace.
Proof. unfold grant_covers, Everywhere. repeat case_bool_decide; naive_solver. Qed.

Lemma Reaches_spec g ask :
  Reaches g ask = true <->
  (g_Namespace g = "" \/ a_namespace ask = "" \/ g_Namespace g = a_namespace ask) /\
  exists rule, rule ∈ Rules g /\ Allows rule ask = true.
Proof.
  unfold Reaches. rewrite <- grant_covers_spec, <- existsb_elem.
  destruct (grant_covers g (a_namespace ask)); cbn; naive_solver.
Qed.

Lemma deliveries_elem held s g :
  (s, g) ∈ deliveries held <->
  exists kind b ns ref,
    (kind, (b, ns)) ∈ bindings held /\ UMap b ["roleRef"] = Some ref /\ s ∈ subjectsOf b ns /\
    g = grantOf b kind ns (At ref "name") (At ref "kind") (roleFor held ref ns).
Proof.
  unfold deliveries. rewrite flat_map_elem. split.
  - intros ([kind [b ns]] & Hb & H). unfold deliveriesOf in H.
    destruct (UMap b ["roleRef"]) as [ref |] eqn:Href; [| by apply elem_of_nil in H].
    apply map_elem in H as (x & [= -> ->] & Hx). naive_solver.
  - intros (kind & b & ns & ref & Hb & Href & Hs & ->). exists (kind, (b, ns)). split; [done |].
    cbn. rewrite Href, map_elem. eauto.
Qed.

Lemma holders_elem held h :
  h ∈ Holders (Build held) <->
  exists h0, h = MkHolder (h_Subject h0) (Grants h0) (powersOf h0) /\
    holderFrom (forKey (Key (h_Subject h0)) (deliveries held)) = Some h0.
Proof.
  unfold Build. rewrite folded_spec. cbn. unfold ordered. rewrite sort_by_elem, map_elem.
  split; intros (h0 & -> & H); exists h0; split; auto.
  - apply map_elem in H as ([k h1] & -> & H). cbn.
    apply elem_of_map_to_list in H. rewrite delivered_lookup in H.
    assert (Key (h_Subject h1) = k) as ->; [| done].
    pose proof H as Hh. apply holderFrom_some in Hh as (Hne & _ & Hhd & _).
    destruct (forKey k (deliveries held)) as [| [s g] l] eqn:E; [done |].
    cbn in Hhd. injection Hhd as <-. apply (forKey_elem k (deliveries held) s g).
    rewrite E. left.
  - apply map_elem. exists (Key (h_Subject h0), h0). split; [done |].
    by rewrite elem_of_map_to_list, delivered_lookup.
Qed.

Lemma who_deliveries held ask k :
  (exists h, h ∈ Who (Build held) ask /\ Key (h_Subject h) = k) <->
  (exists s g, (s, g) ∈ deliveries held /\ Key s = k /\ Reaches g ask = true).
Proof.
  unfold Who. setoid_rewrite list_elem_of_omap. setoid_rewrite holders_elem. split.
  - intros (h & (h1 & (h0 & -> & Hh0) & Hk) & HK). cbn in Hk.
    apply holderFrom_some in Hh0 as (_ & Hgs & _ & _).
    destruct (List.filter _ _) as [| g l] eqn:E; [done |].
    injection Hk as <-. cbn in HK. subst k.
    assert (Hg : List.In g (List.filter (fun grant => Reaches grant ask) (Grants h0)))
      by (rewrite E; by left).
    apply List.filter_In in Hg as [Hg Hr]. rewrite Hgs in Hg.
    apply list_elem_of_In, map_elem in Hg as ([s g'] & -> & Hg).
    apply forKey_elem in Hg as [Hg HK]. cbn in *. eauto.
  - intros (s & g & Hd & <- & Hr).
    pose proof (proj2 (forKey_elem (Key s) _ s g) (conj Hd eq_refl)) as Hf.
    destruct (holderFrom (forKey (Key s) (deliveries held))) as [h0 |] eqn:E.
    2: { destruct (forKey _ _) as [| [? ?] ?]; [by apply elem_of_nil in Hf | done]. }
    pose proof E as E'. apply holderFrom_some in E' as (_ & Hgs & Hhd & _).
    assert (HK : Key (h_Subject h0) = Key s).
    { destruct (forKey (Key s) (deliveries held)) as [| [s' g'] l] eqn:El; [done |].
      injection Hhd as <-. apply (forKey_elem _ (deliveries held) s' g'). rewrite El. left. }
    assert (Hin : g ∈ List.filter (fun grant => Reaches grant ask) (Grants h0)).
    { rewrite list_elem_of_In, List.filter_In. split; [| done].
      rewrite Hgs. apply list_elem_of_In, map_elem. by exists (s, g). }
    exists (MkHolder (h_Subject h0) (List.filter (fun grant => Reaches grant ask) (Grants h0))
              (powersOf h0)). split; [| done].
    exists (MkHolder (h_Subject h0) (Grants h0) (powersOf h0)). split.
    + exists h0. by rewrite HK.
    + cbn. destruct (List.filter _ _); [by apply elem_of_nil in Hin | done].
Qed.

(** C5: the index answers a question completely and soundly: a subject is
    among the holders [Who] returns exactly when some binding of the cluster
    names it, refers to a role that exists, and that role has a rule allowing
    the request in a namespace the binding covers. *)
Theorem who_sound_complete (held : Held) (ask : Ask) (k : string) :
  (exists h, h ∈ Who (Build held) ask /\ Key (h_Subject h) = k) <->
  (exists kind b ns s, grants_ask held kind b ns s ask /\ Key s = k).
Proof.
  rewrite who_deliveries. setoid_rewrite deliveries_elem. setoid_rewrite Reaches_spec. unfold grants_ask. split.
  - intros (s & g & (kind & b & ns & ref & Hb & Href & Hs & ->) & HK & Hns & rule & Hrule & Ha).
    cbn in *. destruct (roleFor held ref ns) as [role |] eqn:Hrole; [| by apply elem_of_nil in Hrule].
    naive_solver.
  - intros (kind & b & ns & s & (ref & role & rule & Hb & Href & Hrole & Hs & Hrule & Ha & Hns) & HK).
    exists s, (grantOf b kind ns (At ref "name") (At ref "kind") (roleFor held ref ns)).
    split; [naive_solver |]. cbn. rewrite Hrole. naive_solver.
Qed.

(** A holder carries exactly the grants the bindings deliver to its
    subject, in the order of the bindings (cluster bindings first), its powers
    are computed from those grants, and every subject a binding names has
    exactly one holder. *)
Theorem build_grants_exact (held : Held) :
  (forall h, h ∈ Holders (Build held) ->
     Grants h = map snd (forKey (Key (h_Subject h)) (deliveries held)) /\
     Powers h = powersOf h) /\
  (forall s g, (s, g) ∈ deliveries held ->
     exists h, h ∈ Holders (Build held) /\ Key (h_Subject h) = Key s) /\
  NoDup (map (fun h => Key (h_Subject h)) (Holders (Build held))).
Proof.
  split; [| split].
  - intros h (h0 & -> & Hh)%holders_elem. apply holderFrom_some in Hh as (_ & Hgs & _). done.
  - intros s g Hd. pose proof (proj2 (forKey_elem (Key s) _ s g) (conj Hd eq_refl)) as Hf.
    destruct (forKey (Key s) (deliveries held)) as [| [s' g'] l] eqn:El; [by apply elem_of_nil in Hf |].
    assert (HK : Key s' = Key s).
    { apply (forKey_elem _ (deliveries held) s' g'). rewrite El. left. }
    pose (h0 := MkHolder s' (map snd ((s', g') :: l)) []).
    exists (MkHolder s' (Grants h0) (powersOf h0)). split; [| exact HK]. apply holders_elem.
    exists h0. split; [done |]. cbn [h_Subject h0]. by rewrite HK, El.
  - unfold Build. rewrite folded_spec. cbn. unfold ordered. rewrite sort_by_perm, !map_map. cbn.
    rewrite (map_ext_in _ fst); [apply NoDup_fst_map_to_list |].
    intros [k h] H%list_elem_of_In%elem_of_map_to_list. cbn.
    rewrite delivered_lookup in H. apply holderFrom_some in H as (_ & _ & Hhd & _).
    destruct (forKey k (deliveries held)) as [| [s' g'] l] eqn:El; [done |]. injection Hhd as <-.
    apply (forKey_elem _ (deliveries held) s' g'). rewrite El. left.
Qed.

(** The holders are ranked: most powers first, then most grants, then by
    label. *)
Theorem build_ranked (held : Held) :
  StronglySorted (fun x y =>
    (zlen (Powers y) < zlen (Powers x))%Z \/
    (zlen (Powers x) = zlen (Powers y) /\
     ((zlen (Grants y) < zlen (Grants x))%Z \/
      (zlen (Grants x) = zlen (Grants y) /\
       (str_compare (Label (h_Subject x)) (Label (h_Subject y)) <= 0)%Z))))
    (Holders (Build held)).
Proof.
  unfold Build. destruct (folded held) as [holders absent]. cbn. unfold ordered.
  eapply StronglySorted_weaken; [| apply sort_by_sorted, _]. intros x y.
  unfold cmp_le, holderOrder, cmp_then, cmp_on, cmp_desc. zcases; lia.
Qed.

(** A binding whose role does not exist is reported, once and in order, and
    nothing else is. *)
Theorem absent_exact (held : Held) (message : string) :
  (message ∈ Absent (Build held) <->
   exists kind b ns ref,
     (kind, (b, ns)) ∈ bindings held /\ UMap b ["roleRef"] = Some ref /\
     roleFor held ref ns = None /\ message = absence kind b (At ref "kind") (At ref "name")) /\
  NoDup (Absent (Build held)) /\
  StronglySorted (cmp_le str_compare) (Absent (Build held)).
Proof.
  unfold Build. rewrite folded_spec. cbn. unfold sortedKeys. split; [| split].
  - rewrite sort_by_elem, elem_of_elements, delivered_absent, flat_map_elem. split.
    + intros [([kind [b ns]] & Hb & H) | H]; [| by apply elem_of_empty in H].
      unfold absencesOf in H. destruct (UMap b _) as [ref |] eqn:Href; [| by apply elem_of_nil in H].
      destruct (roleFor held ref ns) eqn:Hr; [by apply elem_of_nil in H |].
      apply list_elem_of_singleton in H. naive_solver.
    + intros (kind & b & ns & ref & Hb & Href & Hr & ->). left. exists (kind, (b, ns)).
      split; [done |]. cbn. rewrite Href, Hr. left.
  - rewrite sort_by_perm. apply NoDup_elements.
  - apply sort_by_sorted, _.
Qed.

End build.
Arguments Held U : clear implicits.
Arguments MkHeld {U} _ _ _ _.

(** ** read.go: reading a cluster into the index *)

Section read.
Context {U : Type} `{!Unstructured U}.
Import Api.

(** How the goroutine reading one resource ends. *)
Inductive listing :=
| Listed (objects : list U)
| ListFailed (message : string)
| Panicked.

Definition wanted : list string := ["roles"; "clusterroles"; "rolebindings"; "clusterrolebindings"].

Definition place (held : Held U) (resource : string) (objects : list U) : Held U :=
  if bool_decide (resource = "roles") then
    MkHeld objects (h_ClusterRoles held) (h_Bindings held) (h_ClusterBinds held)
  else if bool_decide (resource = "clusterroles") then
    MkHeld (h_Roles held) objects (h_Bindings held) (h_ClusterBinds held)
  else if bool_decide (resource = "rolebindings") then
    MkHeld (h_Roles held) (h_ClusterRoles held) objects (h_ClusterBinds held)
  else if bool_decide (resource = "clusterrolebindings") then
    MkHeld (h_Roles held) (h_ClusterRoles held) (h_Bindings held) objects
  else held.

(** The first match in the order the map of descriptors is walked. *)
Definition matching (descs : list ResourceDescriptor) (resource : string) :
    option ResourceDescriptor :=
  List.find (fun desc => bool_decide (rd_Group desc = GroupName) && bool_decide (rd_Resource desc = resource))
    descs.

Definition kinds (descs : list ResourceDescriptor) : list ResourceDescriptor * list string :=
  fold_left (fun '(found, absent) want =>
    match matching descs want with
    | None => (found, absent ++ [want])
    | Some desc => (found ++ [desc], absent)
    end) wanted ([], []).

Definition joined (trouble absent : list string) : string :=
  let parts :=
    if (0 <? zlen absent)%Z then trouble ++ ["not discovered: " +s+ String.concat ", " absent]
    else trouble in
  String.concat " · " parts.

(** What one goroutine does under the lock when its listing ends. *)
Definition readOne (lister : ResourceDescriptor -> listing)
    (acc : Held U * list string) (desc : ResourceDescriptor) : Held U * list string :=
  let '(held, trouble) := acc in
  match lister desc with
  | Listed objects => (place held (rd_Resource desc) objects, trouble)
  | ListFailed message => (held, trouble ++ [rd_Resource desc +s+ ": " +s+ message])
  | Panicked =>
      (held, trouble ++ [rd_Resource desc +s+ ": spinoza could not finish reading this resource"])
  end.

(** [schedule] is the order in which the goroutines take the lock. *)
Definition Read (lister : ResourceDescriptor -> listing) (descs : list ResourceDescriptor)
    (schedule : list ResourceDescriptor) : Index :=
  let '(found, absent) := kinds descs in
  let '(held, trouble) := fold_left (readOne lister) schedule (MkHeld [] [] [] [], []) in
  let index := Build held in
  MkIndex (Holders index) (Absent index) (joined trouble absent).

Lemma matching_resource descs want desc :
  matching descs want = Some desc -> rd_Resource desc = want.
Proof. unfold matching. intros [_ H]%List.find_some. by breflect. Qed.

Lemma kinds_resources descs : NoDup (map rd_Resource (kinds descs).1).
Proof.
  unfold kinds, wanted. cbn. pose proof (matching_resource descs) as Hm.
  destruct (matching descs "roles") eqn:E1, (matching descs "clusterroles") eqn:E2,
    (matching descs "rolebindings") eqn:E3, (matching descs "clusterrolebindings") eqn:E4;
    apply Hm in E1 || idtac; apply Hm in E2 || idtac; apply Hm in E3 || idtac;
    apply Hm in E4 || idtac; cbn; rewrite ?E1, ?E2, ?E3, ?E4;
    apply (bool_decide_eq_true _); vm_compute; reflexivity.
Qed.

Lemma place_comm held r1 o1 r2 o2 :
  r1 <> r2 -> place (place held r1 o1) r2 o2 = place (place held r2 o2) r1 o1.
Proof. intros H. unfold place. repeat case_bool_decide; congruence || done. Qed.

Definition readStep (lister : ResourceDescriptor -> listing) (held : Held U)
    (desc : ResourceDescriptor) : Held U :=
  match lister desc with Listed objects => place held (rd_Resource desc) objects | _ => held end.

Lemma read_held lister schedule acc :
  (fold_left (readOne lister) schedule acc).1 = fold_left (readStep lister) schedule acc.1.
Proof.
  revert acc. induction schedule as [| d l IH]; intros [held trouble]; cbn; [done |].
  rewrite IH. unfold readOne, readStep. by destruct (lister d).
Qed.

Lemma read_held_perm lister s1 s2 held :
  NoDup (map rd_Resource s1) -> s1 ≡ₚ s2 ->
  fold_left (readStep lister) s1 held = fold_left (readStep lister) s2 held.
Proof.
  intros Hnd Hp. revert held Hnd. induction Hp as [| d l k Hp IH | d e l | l k m H1 IH1 H2 IH2];
    intros held Hnd; cbn in *.
  - done.
  - apply list.NoDup_cons in Hnd as [_ Hnd]. by apply IH.
  - apply list.NoDup_cons in Hnd as [Hne _]. f_equal. unfold readStep.
    destruct (lister d), (lister e); try done. apply place_comm. set_solver.
  - rewrite IH1 by done. apply IH2. by rewrite <- H1.
Qed.

(** The goroutines reading the RBAC resources may finish in any order: the
    holders and the missing roles of the index do not depend on it. *)
Theorem read_schedule_independent (lister : ResourceDescriptor -> listing)
    (descs s1 s2 : list ResourceDescriptor) :
  s1 ≡ₚ (kinds descs).1 -> s2 ≡ₚ (kinds descs).1 ->
  Holders (Read lister descs s1) = Holders (Read lister descs s2) /\
  Absent (Read lister descs s1) = Absent (Read lister descs s2).
Proof.
  intros H1 H2. unfold Read. destruct (kinds descs) as [found absent] eqn:Hk. cbn in H1, H2.
  assert (Hh : (fold_left (readOne lister) s1 (MkHeld [] [] [] [], [])).1 =
               (fold_left (readOne lister) s2 (MkHeld [] [] [] [], [])).1).
  { rewrite !read_held. apply read_held_perm; [| by rewrite H1, H2].
    rewrite H1. replace found with (kinds descs).1 by (by rewrite Hk). apply kinds_resources. }
  destruct (fold_left (readOne lister) s1 _), (fold_left (readOne lister) s2 _).
  cbn in Hh. by subst.
Qed.
End read.

Definition docRole (name : string) : Doc :=
  MkDoc [("metadata", AMap [("name", AString name)]);
         ("rules", ASlice [AMap [("verbs", ASlice [AString "get"]);
                                 ("apiGroups", ASlice [AString ""]);
                                 ("resources", ASlice [AString "secrets"])]])].
Definition docBinding (role user : string) : Doc :=
  MkDoc [("metadata", AMap [("name", AString "b")]);
         ("roleRef", AMap [("kind", AString ClusterRoleKind); ("name", AString role)]);
         ("subjects", ASlice [AMap [("kind", AString KindUser); ("name", AString user)]])].
Definition docDesc (resource : string) : Api.ResourceDescriptor :=
  Api.MkResourceDescriptor GroupName "v1" resource "" false "".
Definition docLister (desc : Api.ResourceDescriptor) : listing (U := Doc) :=
  if bool_decide (Api.rd_Resource desc = "clusterroles") then Listed [docRole "reader"]
  else if bool_decide (Api.rd_Resource desc = "clusterrolebindings") then
    Listed [docBinding "reader" "ana"; docBinding "gone" "bo"]
  else ListFailed "forbidden".
Definition docDescs : list Api.ResourceDescriptor :=
  [docDesc "roles"; docDesc "clusterroles"; docDesc "clusterrolebindings"].

Lemma read_schedule_independent_witness :
  Holders (Read docLister docDescs docDescs) = Holders (Read docLister docDescs (rev docDescs)) /\
  Absent (Read docLister docDescs docDescs) = Absent (Read docLister docDescs (rev docDescs)).
Proof.
  apply (read_schedule_independent docLister docDescs docDescs (rev docDescs)).
  - vm_compute. reflexivity.
  - rewrite <- Permutation_rev. vm_compute. reflexivity.
Defined.

Example read_example :
  map (fun h => (Label (h_Subject h), Powers h)) (Holders (Read docLister docDescs docDescs)) =
    [("ana", ["reads secrets"]); ("bo", [])]%string /\
  Absent (Read docLister docDescs docDescs) = ["ClusterRoleBinding b wants ClusterRole gone"%string] /\
  i_Error (Read docLister docDescs docDescs) =
    "roles: forbidden · not discovered: rolebindings"%string.
Proof. by vm_compute. Qed.

(** ** Powers *)

Lemma powersLoop_spec h out rest :
  powersLoop h out rest =
  if existsb (fun p => bool_decide (p.1 = "cluster-admin"%string) && reaches h p.2) rest
  then ["cluster-admin"%string]
  else out ++ map fst (List.filter (fun p => reaches h p.2) rest).
Proof.
  revert out. induction rest as [| [label ask] rest IH]; intros out; cbn; [by rewrite app_nil_r |].
  destruct (reaches h ask) eqn:Hr; cbn; rewrite ?andb_false_r, ?andb_true_r; cbn.
  - case_bool_decide; [done |]. cbn. rewrite IH. destruct (existsb _ rest); [done |].
    by rewrite <- app_assoc.
  - apply IH.
Qed.

(** A holder that reaches the everything-everywhere request is shown as
    cluster-admin alone; any other holder is shown every listed power it
    reaches, in the listed order, and none it does not. *)
Theorem powersOf_spec (h : Holder) :
  powersOf h =
  if reaches h (MkAsk Anything Anything Anything "") then ["cluster-admin"%string]
  else map fst (List.filter (fun p => reaches h p.2) powers).
Proof.
  unfold powersOf. rewrite powersLoop_spec. unfold powers at 1. cbn -[powers].
  rewrite orb_false_r. destruct (reaches h _); done.
Qed.

Lemma contains_anything l : contains l Anything = true -> forall x, covers l x = true.
Proof. intros H x. unfold covers. by rewrite H. Qed.

Lemma Allows_anything r :
  Allows r (MkAsk Anything Anything Anything "") = true -> forall ask, Allows r ask = true.
Proof.
  unfold Allows, covers, coversResource. cbn [a_verb a_group a_resource].
  rewrite !orb_diag. change (str_cut Anything "/") with ("*"%string, ""%string, false).
  intros H ask. repeat case_match; try done; cbn in *; breflect; try congruence;
    destruct (contains (Verbs r) Anything), (contains (Groups r) Anything); cbn in *; congruence.
Qed.

(** Being shown as cluster-admin is earned: one of the holder's grants
    answers every request of the cluster, or of one namespace when it came
    from a role binding. *)
Theorem cluster_admin_total (h : Holder) :
  "cluster-admin"%string ∈ powersOf h ->
  exists g, g ∈ Grants h /\
    forall ask, Everywhere g = true \/ a_namespace ask = g_Namespace g -> reaches h ask = true.
Proof.
  intros H. assert (Hr : reaches h (MkAsk Anything Anything Anything "") = true).
  { rewrite powersOf_spec in H. destruct (reaches h _) eqn:E; [done |].
    apply list_elem_of_In, in_map_iff in H as ([label ask] & Hl & [Hin Hr]%List.filter_In).
    cbn in Hl, Hr. subst label. rewrite <- E.
    unfold powers in Hin. cbn in Hin. naive_solver. }
  unfold reaches in *. apply existsb_elem in Hr as (g & Hg & Hr). exists g. split; [done |].
  apply Reaches_spec in Hr as (_ & rule & Hrule & Ha). intros ask Hns.
  apply existsb_elem. exists g. split; [done |]. apply Reaches_spec. split.
  - unfold Everywhere in Hns. rewrite bool_decide_eq_true in Hns. naive_solver.
  - exists rule. split; [done | by apply Allows_anything].
Qed.

(** A role binding to an everything role is shown as cluster-admin too, and
    that holder reaches nothing outside its namespace. *)
Definition everythingRule : Rule := MkRule [Anything] [Anything] [Anything] [] [].
Definition namespacedAdmin : Holder :=
  MkHolder (MkSubject KindUser "ana" "")
    [MkGrant "admins" "RoleBinding" "cluster-admin" ClusterRoleKind "dev" [everythingRule]
       false false 1] [].

Lemma cluster_admin_total_witness :
  exists g, g ∈ Grants namespacedAdmin /\
    forall ask, Everywhere g = true \/ a_namespace ask = g_Namespace g ->
      reaches namespacedAdmin ask = true.
Proof. apply (cluster_admin_total namespacedAdmin). vm_compute. left. Defined.

Example namespaced_admin_is_local :
  powersOf namespacedAdmin = ["cluster-admin"%string] /\
  reaches namespacedAdmin (MkAsk "get" "" "secrets" "prod") = false.
Proof. by vm_compute. Qed.

End Rbac.
