(* ===== verification/Codec.v ===== *)
(** The standard-library codecs the source uses: [base64.RawURLEncoding]
    (encoding/base64), SHA-256 (crypto/sha256) and HMAC (crypto/hmac), over
    byte strings, with the round trip of base64. *)

From S2P Require Import Prelude.

Module Codec.

Definition byte_of (c : Ascii.ascii) : Z := Z.of_N (Ascii.N_of_ascii c).
Definition of_byte (z : Z) : Ascii.ascii := Ascii.ascii_of_N (Z.to_N (z mod 256)).

Definition bytes_of (s : string) : list Z := map byte_of (String.list_ascii_of_string s).
Definition of_bytes (l : list Z) : string := String.string_of_list_ascii (map of_byte l).

(** ** base64.RawURLEncoding *)

Definition alphabet : string := "ABCDEFGHIJKLMNOPQRSTUVWXYZabcdefghijklmnopqrstuvwxyz0123456789-_".

Definition enc_char (n : Z) : Ascii.ascii :=
  default (Ascii.ascii_of_N 0) (String.get (Z.to_nat n) alphabet).

Fixpoint index_char (c : Ascii.ascii) (s : string) (at_ : Z) : option Z :=
  match s with
  | EmptyString => None
  | String d s' => if Ascii.eqb c d then Some at_ else index_char c s' (at_ + 1)
  end.

Definition dec_char (c : Ascii.ascii) : option Z := index_char c alphabet 0.

Fixpoint sextets (l : list Z) : list Z :=
  match l with
  | [] => []
  | [a] => [a / 4; (a mod 4) * 16]%Z
  | [a; b] => [a / 4; (a mod 4) * 16 + b / 16; (b mod 16) * 4]%Z
  | a :: b :: c :: rest =>
      (a / 4 :: (a mod 4) * 16 + b / 16 :: (b mod 16) * 4 + c / 64 :: c mod 64 :: sextets rest)%Z
  end.

(** Trailing bits are ignored (the encoding is not [Strict]); a lone sextet is
    an error. *)
Fixpoint octets (l : list Z) : option (list Z) :=
  match l with
  | [] => Some []
  | [_] => None
  | [s; t] => Some [s * 4 + t / 16]%Z
  | [s; t; u] => Some [s * 4 + t / 16; (t mod 16) * 16 + u / 4]%Z
  | s :: t :: u :: v :: rest =>
      r ← octets rest;
      Some (s * 4 + t / 16 :: (t mod 16) * 16 + u / 4 :: (u mod 4) * 64 + v :: r)%Z
  end.

Definition EncodeToString (s : string) : string :=
  String.string_of_list_ascii (map enc_char (sextets (bytes_of s))).

(** Go's decoder skips carriage returns and line feeds. *)
Definition newline (c : Ascii.ascii) : bool :=
  Ascii.eqb c (Ascii.ascii_of_N 10) || Ascii.eqb c (Ascii.ascii_of_N 13).

Definition DecodeString (s : string) : option string :=
  chars ← mapM dec_char (List.filter (fun c => negb (newline c)) (String.list_ascii_of_string s));
  of_bytes <$> octets chars.

Lemma byte_of_range c : (0 <= byte_of c < 256)%Z.
Proof. unfold byte_of. pose proof (Ascii.N_ascii_bounded c). lia. Qed.

Lemma of_byte_of c : of_byte (byte_of c) = c.
Proof.
  unfold of_byte. rewrite Z.mod_small by apply byte_of_range. unfold byte_of.
  by rewrite N2Z.id, Ascii.ascii_N_embedding.
Qed.

Lemma of_bytes_of s : of_bytes (bytes_of s) = s.
Proof.
  unfold of_bytes, bytes_of. rewrite map_map, (map_ext _ id) by apply of_byte_of.
  by rewrite map_id, String.string_of_list_ascii_of_string.
Qed.

Lemma bytes_of_range s : Forall (fun z => (0 <= z < 256)%Z) (bytes_of s).
Proof. unfold bytes_of. apply list.Forall_forall. intros x (c & -> & _)%map_elem. apply byte_of_range. Qed.

Lemma enc_char_ok n : (0 <= n < 64)%Z -> dec_char (enc_char n) = Some n /\ newline (enc_char n) = false.
Proof.
  intros H.
  assert (Hall : forallb (fun k => let n := Z.of_nat k in
      bool_decide (dec_char (enc_char n) = Some n) && negb (newline (enc_char n))) (seq 0 64) = true)
    by (vm_compute; reflexivity).
  rewrite forallb_forall in Hall. specialize (Hall (Z.to_nat n)). cbn zeta in Hall.
  rewrite in_seq, Z2Nat.id in Hall by lia. specialize (Hall ltac:(lia)). by breflect.
Qed.

Lemma triples_ind {A} (P : list A -> Prop) :
  P [] -> (forall a, P [a]) -> (forall a b, P [a; b]) ->
  (forall a b c l, P l -> P (a :: b :: c :: l)) -> forall l, P l.
Proof.
  intros H0 H1 H2 H3 l. remember (length l) as n eqn:Hn. revert l Hn.
  induction (lt_wf n) as [n _ IH]. intros [| a [| b [| c l]]] Hn; auto.
  apply H3, (IH (length l)); [cbn in Hn; lia | done].
Qed.

Ltac dlia := Z.div_mod_to_equations; lia.

Ltac foralls := repeat (apply list.Forall_cons; split); [dlia.. | done].

Lemma sextets_ok l :
  Forall (fun z => (0 <= z < 256)%Z) l ->
  Forall (fun z => (0 <= z < 64)%Z) (sextets l) /\ octets (sextets l) = Some l.
Proof.
  induction l as [| a | a b | a b c l IH] using triples_ind; intros H;
    repeat match goal with
    | H : Forall _ (_ :: _) |- _ => apply list.Forall_cons in H as [? ?]
    end.
  - by repeat constructor.
  - split; [foralls |]. cbn. repeat f_equal. dlia.
  - split; [foralls |]. cbn. repeat f_equal; dlia.
  - destruct IH as [IH1 IH2]; [done |]. split; [cbn; foralls |].
    cbn. rewrite IH2. cbn. repeat f_equal; dlia.
Qed.

Lemma base64_roundtrip s : DecodeString (EncodeToString s) = Some s.
Proof.
  unfold DecodeString, EncodeToString. rewrite String.list_ascii_of_string_of_list_ascii.
  destruct (sextets_ok (bytes_of s) (bytes_of_range s)) as [Hr Ho].
  assert (Hm : forall l, Forall (fun z => (0 <= z < 64)%Z) l ->
    mapM dec_char (List.filter (fun c => negb (newline c)) (map enc_char l)) = Some l).
  { induction 1 as [| n l Hn Hl IH]; [done |]. cbn -[newline enc_char dec_char].
    destruct (enc_char_ok n Hn) as [Hd Hw]. rewrite Hw. cbn -[newline enc_char dec_char].
    rewrite Hd. cbn -[newline enc_char dec_char]. by rewrite IH. }
  rewrite Hm by done. cbn. rewrite Ho. cbn. by rewrite of_bytes_of.
Qed.

(** The encoding never contains a full stop. *)
Lemma enc_char_dot n : enc_char n <> Ascii.ascii_of_N 46.
Proof.
  unfold enc_char. generalize (Z.to_nat n) as k. intros k.
  assert (Hall : forall s, forallb (fun c => negb (Ascii.eqb c (Ascii.ascii_of_N 46)))
      (String.list_ascii_of_string s) = true ->
    forall k, default (Ascii.ascii_of_N 0) (String.get k s) <> Ascii.ascii_of_N 46).
  { induction s as [| c s IH]; cbn; intros H j; [done |].
    apply andb_true_iff in H as [Hc Hs]. destruct j; [| by apply IH]. cbn.
    intros ->. by rewrite Ascii.eqb_refl in Hc. }
  by apply Hall.
Qed.

(** ** SHA-256 and HMAC *)

Definition word (z : Z) : Z := (z mod 2 ^ 32)%Z.
Definition rotr (n x : Z) : Z := Z.lor (Z.shiftr x n) (word (Z.shiftl x (32 - n))).
Definition lnot (x : Z) : Z := (2 ^ 32 - 1 - x)%Z.

(** The constants of FIPS 180-4, from their definition: 32 bits of the
    fractional parts of the cube and square roots of the first primes. *)
Definition is_prime (n : Z) : bool :=
  forallb (fun d => negb (n mod d =? 0)%Z) (map Z.of_nat (seq 2 (Z.to_nat n - 2))).

Definition primes : list Z := List.filter is_prime (map Z.of_nat (seq 2 310)).

(** The integer cube root below [2 ^ bits], bit by bit. *)
Fixpoint cube_root (bits : nat) (root n : Z) : Z :=
  match bits with
  | O => root
  | S bits =>
      let next := (root + 2 ^ Z.of_nat bits)%Z in
      cube_root bits (if (next * next * next <=? n)%Z then next else root) n
  end.

Definition K256 : list Z :=
  Eval vm_compute in map (fun p => word (cube_root 36 0 (Z.shiftl p 96))) (take 64 primes).

Definition H256 : list Z :=
  Eval vm_compute in map (fun p => word (Z.sqrt (Z.shiftl p 64))) (take 8 primes).

Definition be_bytes (n : nat) (z : Z) : list Z :=
  map (fun i => (Z.shiftr z (8 * Z.of_nat (n - 1 - i))) mod 256)%Z (seq 0 n).

Definition be_word (l : list Z) : Z := fold_left (fun acc b => acc * 256 + b)%Z l 0%Z.

Fixpoint chunks {A} (fuel n : nat) (l : list A) : list (list A) :=
  match fuel, l with
  | S fuel, _ :: _ => take n l :: chunks fuel n (drop n l)
  | _, _ => []
  end.

Definition pad (l : list Z) : list Z :=
  l ++ [128%Z] ++ repeat 0%Z (Z.to_nat ((55 - zlen l) mod 64)) ++ be_bytes 8 (8 * zlen l).

(** The message schedule, newest word first. *)
Fixpoint extend (fuel : nat) (w : list Z) : list Z :=
  match fuel with
  | O => w
  | S fuel =>
      let x := nth 14 w 0%Z in
      let y := nth 1 w 0%Z in
      let s0 := Z.lxor (Z.lxor (rotr 7 x) (rotr 18 x)) (Z.shiftr x 3) in
      let s1 := Z.lxor (Z.lxor (rotr 17 y) (rotr 19 y)) (Z.shiftr y 10) in
      extend fuel (word (nth 15 w 0 + s0 + nth 6 w 0 + s1)%Z :: w)
  end.

Definition round (st : list Z) (kw : Z * Z) : list Z :=
  match st with
  | [a; b; c; d; e; f; g; h] =>
      let s1 := Z.lxor (Z.lxor (rotr 6 e) (rotr 11 e)) (rotr 25 e) in
      let ch := Z.lxor (Z.land e f) (Z.land (lnot e) g) in
      let t1 := (h + s1 + ch + kw.1 + kw.2)%Z in
      let s0 := Z.lxor (Z.lxor (rotr 2 a) (rotr 13 a)) (rotr 22 a) in
      let mj := Z.lxor (Z.lxor (Z.land a b) (Z.land a c)) (Z.land b c) in
      [word (t1 + s0 + mj); a; b; c; word (d + t1); e; f; g]
  | _ => st
  end.

Definition compress (st : list Z) (block : list Z) : list Z :=
  let w := rev (extend 48 (rev (map be_word (chunks 16 4 block)))) in
  map (fun p => word (p.1 + p.2)) (combine st (fold_left round (combine K256 w) st)).

Definition sha256 (l : list Z) : list Z :=
  let m := pad l in
  flat_map (be_bytes 4) (fold_left compress (chunks (length m) 64 m) H256).

Definition hmac (key msg : list Z) : list Z :=
  let k0 := if (64 <? zlen key)%Z then sha256 key else key in
  let k := k0 ++ repeat 0%Z (64 - length k0) in
  let xor_with b := map (Z.lxor b) k in
  sha256 (xor_with 0x5c%Z ++ sha256 (xor_with 0x36%Z ++ msg)).

(** Known answers: FIPS 180 for SHA-256 and RFC 4231 test case 2 for HMAC. *)
Example sha256_abc :
  map be_word (chunks 8 4 (sha256 (bytes_of "abc"))) =
  [0xba7816bf; 0x8f01cfea; 0x414140de; 0x5dae2223; 0xb00361a3; 0x96177a9c; 0xb410ff61; 0xf20015ad]%Z.
Proof. vm_compute. reflexivity. Qed.

Example hmac_rfc4231_2 :
  map be_word (chunks 8 4 (hmac (bytes_of "Jefe") (bytes_of "what do ya want for nothing?"))) =
  [0x5bdcc146; 0xbf60754e; 0x6a042426; 0x089575c7; 0x5a003f08; 0x9d273983; 0x9dec58b9; 0x64ec3843]%Z.
Proof. vm_compute. reflexivity. Qed.

End Codec.
