(* ===== verification/Identity.v ===== *)
(** internal/auth/identity.go, roles.go, claims.go and the list parsing of
    config.go: who is asking, with which role. *)

From S2P Require Import Prelude Unstr.

Module Identity.

Definition RoleViewer : string := "viewer".
Definition RoleEditor : string := "editor".
Definition RoleAdmin : string := "admin".

Definition rolesWeakestFirst : list string := [RoleViewer; RoleEditor; RoleAdmin].

Record Identity := MkIdentity {
  User : string;
  Groups : list string;
  Role : string;
  Session : string;
}.

#[export] Instance Identity_eq_dec : EqDecision Identity.
Proof. solve_decision. Defined.

(** [Identity{}] *)
Definition noIdentity : Identity := MkIdentity "" [] "" "".

Definition Anonymous (who : Identity) : bool := bool_decide (User who = "").

(** A [context.Context], as far as the identity it carries goes. *)
Definition Context_ := option Identity.

Definition WithIdentity (_ : Context_) (who : Identity) : Context_ := Some who.

Definition IdentityFrom (ctx : Context_) : Identity * bool :=
  match ctx with Some who => (who, true) | None => (noIdentity, false) end.

Definition ActingAs (ctx : Context_) : Identity * bool :=
  let '(who, ok) := IdentityFrom ctx in
  if negb ok then (noIdentity, false)
  else if Anonymous who then (noIdentity, false)
  else (who, true).

Definition Carry (from onto : Context_) : Context_ :=
  let '(who, ok) := ActingAs from in
  if negb ok then onto else WithIdentity onto who.

Definition AsServer (ctx : Context_) : Context_ := WithIdentity ctx noIdentity.

Definition KnownRole (role : string) : bool := contains rolesWeakestFirst role.

Definition Allows (held needed : string) : bool :=
  if bool_decide (needed = "") then true
  else
    let neededAt := slices_index rolesWeakestFirst needed in
    if (neededAt <? 0)%Z then false
    else (neededAt <=? slices_index rolesWeakestFirst held)%Z.

(** ** roles.go *)

Record roleMap := MkRoleMap {
  admin : list string;
  editor : list string;
  viewer : list string;
  fallback : string;
}.

Definition named (rm : roleMap) : bool :=
  if (0 <? zlen (admin rm))%Z then true
  else if (0 <? zlen (editor rm))%Z then true
  else (0 <? zlen (viewer rm))%Z.

Definition anyOf (held wanted : list string) : bool := existsb (contains held) wanted.

Definition forGroups (rm : roleMap) (groups : list string) : string :=
  if negb (named rm) then fallback rm
  else if anyOf groups (admin rm) then RoleAdmin
  else if anyOf groups (editor rm) then RoleEditor
  else if anyOf groups (viewer rm) then RoleViewer
  else fallback rm.

(** ** config.go and claims.go *)

(** [ParseList]: comma-separated, trimmed, empty parts dropped. *)
Definition ParseList (raw : string) : list string :=
  omap (fun part =>
    let trimmed := TrimSpace part in
    if bool_decide (trimmed = "") then None else Some trimmed)
    (str_split (Ascii.ascii_of_N 44) raw).

(** A claim's dynamic type: a string, a [[]string], an [[]any], or another. *)
Inductive claim :=
| ClaimString (s : string)
| ClaimStrings (l : list string)
| ClaimAnys (l : list any)
| ClaimOther.

Definition claimSet := gmap string claim.

Fixpoint usernameFrom (claims : claimSet) (keys : list string) : string :=
  match keys with
  | [] => ""
  | key :: rest =>
      match claims !! key with
      | Some (ClaimString text) =>
          if bool_decide (text <> "") then text else usernameFrom claims rest
      | _ => usernameFrom claims rest
      end
  end.

Definition stringsIn (values : list any) : list string :=
  omap (fun one =>
    match asString (Some one) with
    | None => None
    | Some text =>
        let trimmed := TrimSpace text in
        if bool_decide (trimmed = "") then None else Some trimmed
    end) values.

Definition groupsFrom (claims : claimSet) (key : string) : list string :=
  match claims !! key with
  | None => []
  | Some (ClaimString value) => ParseList value
  | Some (ClaimStrings value) => value
  | Some (ClaimAnys value) => stringsIn value
  | Some ClaimOther => []
  end.

Definition prefixed (values : list string) (prefix : string) : list string :=
  if bool_decide (prefix = "") then values else map (fun one => prefix +s+ one) values.

(** [newSessionID()] draws a random name: it is the argument [fresh]. *)
Definition sessionIDFrom (claims : claimSet) (fresh : string) : string :=
  match claims !! "sid" with
  | Some (ClaimString held) => if bool_decide (held <> "") then held else fresh
  | _ => fresh
  end.

(** auth.go: the identity a verified set of claims makes. *)
Definition identityFrom (roles : roleMap) (usernameKeys : list string)
    (groupsClaim usernamePrefix groupsPrefix : string) (claims : claimSet) (fresh : string) :
    result string Identity :=
  let name := usernameFrom claims usernameKeys in
  if bool_decide (name = "") then
    Err "the id token carries none of the claims spinoza reads a username from"
  else
    let groups := prefixed (groupsFrom claims groupsClaim) groupsPrefix in
    Ok (MkIdentity (usernamePrefix +s+ name) groups (forGroups roles groups)
          (sessionIDFrom claims fresh)).

(** ** What the roles promise *)

(** The rank of a role; an unknown role has none. *)
Definition rank (role : string) : option nat :=
  if bool_decide (role = RoleViewer) then Some 0
  else if bool_decide (role = RoleEditor) then Some 1
  else if bool_decide (role = RoleAdmin) then Some 2
  else None.

Lemma slices_index_rank role :
  slices_index rolesWeakestFirst role = match rank role with Some n => Z.of_nat n | None => (-1)%Z end.
Proof.
  unfold slices_index, rolesWeakestFirst, rank. cbn.
  repeat case_bool_decide; subst; try done; cbn; congruence.
Qed.

(** A role grants what is asked of it exactly when nothing is asked or both
    roles are known and the held one ranks at least as high; so an unknown role
    grants nothing and an unknown requirement is never met. *)
Theorem Allows_spec (held needed : string) :
  Allows held needed = true <->
  needed = "" \/
  exists h n, rank held = Some h /\ rank needed = Some n /\ n <= h.
Proof.
  unfold Allows. rewrite !slices_index_rank. case_bool_decide as H0.
  { split; [by left | done]. }
  destruct (rank needed) as [n |]; cbn.
  - replace (Z.of_nat n <? 0)%Z with false by (symmetry; apply Z.ltb_ge; lia).
    rewrite Z.leb_le. destruct (rank held) as [h |].
    + split; [intros H; right; exists h, n; repeat split; lia |].
      intros [H | (h' & n' & [= ->] & [= ->] & H)]; [done | lia].
    + split; [lia | intros [H | (h' & n' & ? & _)]; done].
  - split; [done | intros [H | (h' & n' & _ & ? & _)]; done].
Qed.

Lemma anyOf_spec held wanted : anyOf held wanted = true <-> exists g, g ∈ wanted /\ g ∈ held.
Proof. unfold anyOf. rewrite existsb_elem. by setoid_rewrite contains_spec. Qed.

Lemma named_false rm : named rm = false -> admin rm = [] /\ editor rm = [] /\ viewer rm = [].
Proof.
  unfold named. destruct rm as [[| a ad] [| e ed] [| v vi] f]; cbn; try done.
Qed.

(** The role of a set of groups is the strongest one a group is mapped to,
    and the fallback when no group is mapped; more groups never weaken a mapped
    role. *)
Theorem forGroups_strongest (rm : roleMap) (groups : list string) :
  forGroups rm groups =
    (if anyOf groups (admin rm) then RoleAdmin
     else if anyOf groups (editor rm) then RoleEditor
     else if anyOf groups (viewer rm) then RoleViewer
     else fallback rm) /\
  (forall more, anyOf groups (admin rm ++ editor rm ++ viewer rm) = true ->
     Allows (forGroups rm (groups ++ more)) (forGroups rm groups) = true).
Proof.
  assert (H : forall gs, forGroups rm gs =
    (if anyOf gs (admin rm) then RoleAdmin else if anyOf gs (editor rm) then RoleEditor
     else if anyOf gs (viewer rm) then RoleViewer else fallback rm)).
  { intros gs. unfold forGroups. destruct (named rm) eqn:E; [done |].
    apply named_false in E as (-> & -> & ->). done. }
  split; [apply H |]. intros more Hm. rewrite !H.
  assert (Hmono : forall w, anyOf groups w = true -> anyOf (groups ++ more) w = true).
  { intros w. rewrite !anyOf_spec. intros (g & Hg & Hin). exists g. set_solver. }
  unfold anyOf in Hm. rewrite !existsb_app in Hm. fold (anyOf groups) in *.
  pose proof (Hmono (admin rm)). pose proof (Hmono (editor rm)). pose proof (Hmono (viewer rm)).
  unfold anyOf in *.
  repeat case_match; try done; try (by vm_compute); naive_solver.
Qed.

Lemma forGroups_strongest_witness :
  let rm := MkRoleMap ["ops"] ["dev"] [] "viewer" in
  Allows (forGroups rm (["dev"] ++ ["ops"])) (forGroups rm ["dev"]) = true.
Proof. apply forGroups_strongest. vm_compute. reflexivity. Defined.

(** Work that carries a caller's identity onto another context acts as that
    caller and nobody else, and work done as the server acts as nobody. *)
Theorem Carry_ActingAs (from onto : Context_) :
  ActingAs (Carry from onto) =
    (if (ActingAs from).2 then ActingAs from else ActingAs onto) /\
  ActingAs (AsServer onto) = (noIdentity, false) /\
  (forall who, ActingAs from = (who, true) -> from = Some who /\ User who <> "").
Proof.
  split; [| split; [done |]].
  - unfold Carry. destruct from as [who |]; [| done]. unfold ActingAs at 1 3 4. cbn.
    destruct (Anonymous who) eqn:E; cbn; [done |]. unfold ActingAs. cbn. by rewrite E.
  - intros who. unfold ActingAs, IdentityFrom. destruct from as [w |]; cbn; [| done].
    unfold Anonymous. case_bool_decide; [done |]. intros [= ->]. done.
Qed.

Lemma Carry_ActingAs_witness :
  Some (MkIdentity "ana" [] RoleViewer "s1") = Some (MkIdentity "ana" [] RoleViewer "s1") /\
  "ana" <> "".
Proof.
  exact (proj2 (proj2 (Carry_ActingAs (Some (MkIdentity "ana" [] RoleViewer "s1")) None))
    (MkIdentity "ana" [] RoleViewer "s1") eq_refl).
Defined.

Example parse_list_example : ParseList " a, b ,, c" = ["a"; "b"; "c"].
Proof. vm_compute. reflexivity. Qed.

End Identity.
