(* ===== verification/Session.v ===== *)
(** internal/auth/session.go: the signed session cookie.  [encoding/json] is
    the class [JSON], with the round trip it promises as a named law; base64
    and HMAC-SHA256 are the definitions of [Codec].  The clock is the argument
    [now] of each method. *)

From Stdlib Require Import Ascii.
From S2P Require Import Prelude Codec Identity.

(** A JSON codec for one type: [json.Marshal] and [json.Unmarshal]. *)
Class JSON (T : Type) := {
  Marshal : T -> option string;
  Unmarshal : string -> option T;
}.

(** What the documentation of encoding/json promises for values whose strings
    are valid UTF-8, the values [valid] describes. *)
Class JSONRoundTrip (T : Type) `{!JSON T} (valid : T -> Prop) : Prop := {
  json_roundtrip : forall x body, valid x -> Marshal x = Some body -> Unmarshal body = Some x;
}.

Module Session.
Import Codec Identity.

Definition SessionCookie : string := "spinoza_session".
Definition maxCookieBytes : Z := 3800.

Record sessionClaims := MkSessionClaims {
  c_Expires : Z;
  c_Groups : list string;
  c_Issued : Z;
  c_Role : string;
  c_Session : string;
  c_User : string;
}.

Record stashClaims := MkStashClaims { st_Expires : Z; st_Payload : string }.

Record session := MkSession { who : Identity; issued : time; expires : time }.

Record sessions := MkSessions {
  secret : string;
  ttl : duration;
  maxAge : duration;
  secure : bool;
}.

Record cookie := MkCookie {
  ck_Name : string;
  ck_Value : string;
  ck_Secure : bool;
  ck_MaxAge : Z;
}.

Definition strlen (s : string) : Z := Z.of_nat (String.length s).

Definition sign (ss : sessions) (payload : string) : string :=
  EncodeToString (of_bytes (hmac (bytes_of (secret ss)) (bytes_of payload))).

Definition errCookieTooBig : string :=
  "the session cookie would be too large; your identity provider returns more groups than a cookie holds".
Definition errMarshal : string := "json: unsupported value".

Section seal.
Context {T : Type} `{!JSON T}.

Definition seal (ss : sessions) (payload : T) : result string string :=
  match Marshal payload with
  | None => Err errMarshal
  | Some body =>
      let encoded := EncodeToString body in
      let value := encoded +s+ "." +s+ sign ss encoded in
      if (maxCookieBytes <? strlen value)%Z then Err errCookieTooBig else Ok value
  end.

Definition unseal (ss : sessions) (value : string) : option T :=
  let '(body, signature, found) := str_cut value "." in
  if negb found then None
  else if negb (bool_decide (signature = sign ss body)) then None
  else
    match DecodeString body with
    | None => None
    | Some payload => Unmarshal payload
    end.
End seal.

Definition expiry (ss : sessions) (issued now : time) : time :=
  let expires := tadd now (ttl ss) in
  let maximum := tadd issued (maxAge ss) in
  if Before maximum expires then maximum else expires.

Definition halfSpent (ss : sessions) (expires now : time) : bool :=
  (tsub expires now <? Z.quot (ttl ss) 2)%Z.

Definition renewable (ss : sessions) (issued now : time) : bool :=
  (tsub now issued <? maxAge ss)%Z.

(** [int(age.Seconds())] *)
Definition mkCookie (ss : sessions) (name value : string) (age : duration) : cookie :=
  MkCookie name value (secure ss) (Z.quot age Second).

Definition drop (ss : sessions) (name : string) : cookie := mkCookie ss name "" (- Hour)%Z.

Section claims.
Context `{!JSON sessionClaims}.

Definition claimsOf (w : Identity) (issued expires : time) : sessionClaims :=
  {| c_User := User w; c_Groups := Groups w; c_Role := Role w; c_Session := Session w;
     c_Issued := Unix issued; c_Expires := Unix expires |}.

Definition encodeUntil (ss : sessions) (w : Identity) (issued expires : time) :
    result string string :=
  seal ss (claimsOf w issued expires).

Definition encode (ss : sessions) (w : Identity) (issued now : time) : result string string :=
  encodeUntil ss w issued (expiry ss issued now).

Definition decode (ss : sessions) (value : string) (now : time) : option session :=
  match unseal ss value with
  | None => None
  | Some claims =>
      let issued := fromUnix (c_Issued claims) in
      if negb (Before now (fromUnix (c_Expires claims))) || negb (Before now (tadd issued (maxAge ss)))
      then None
      else
        let w := MkIdentity (c_User claims) (c_Groups claims) (c_Role claims) (c_Session claims) in
        if Anonymous w then None
        else Some (MkSession w issued (fromUnix (c_Expires claims)))
  end.

(** The cookie [issue] sets. *)
Definition issue (ss : sessions) (w : Identity) (issued now : time) : result string cookie :=
  let expires := expiry ss issued now in
  match encodeUntil ss w issued expires with
  | Err e => Err e
  | Ok value => Ok (mkCookie ss SessionCookie value (tsub expires now))
  end.

(** [read]: the request's session cookie, if it carries one. *)
Definition read (ss : sessions) (carried : option string) (now : time) : option session :=
  match carried with None => None | Some value => decode ss value now end.
End claims.

Section stash.
Context {T : Type} `{!JSON T, !JSON stashClaims}.

Definition stash (ss : sessions) (name : string) (payload : T) (age : duration) (now : time) :
    result string cookie :=
  match Marshal payload with
  | None => Err errMarshal
  | Some body =>
      match seal ss (MkStashClaims (Unix (tadd now age)) body) with
      | Err e => Err e
      | Ok value => Ok (mkCookie ss name value age)
      end
  end.

Definition unstashNamed (ss : sessions) (carried : option string) (now : time) : option T :=
  match carried with
  | None => None
  | Some value =>
      match unseal ss value with
      | None => None
      | Some claims =>
          if negb (Before now (fromUnix (st_Expires claims))) then None
          else Unmarshal (st_Payload claims)
      end
  end.
End stash.

(** ** Sealing *)

Lemma encoded_no_dot s : exists l, EncodeToString s = String.string_of_list_ascii l /\
  Forall (fun d => d <> Ascii.ascii_of_N 46) l.
Proof.
  eexists. split; [reflexivity |]. apply list.Forall_forall. intros d (n & -> & _)%map_elem.
  apply enc_char_dot.
Qed.

Lemma unseal_signed {T} `{!JSON T} ss body :
  unseal ss (EncodeToString body +s+ "." +s+ sign ss (EncodeToString body)) = Unmarshal body.
Proof.
  unfold unseal. pose proof (base64_roundtrip body) as Hrt.
  destruct (encoded_no_dot body) as (l & Hl & Hd). rewrite Hl in *.
  change ("." +s+ sign ss (String.string_of_list_ascii l)) with
    (String (Ascii.ascii_of_N 46) (sign ss (String.string_of_list_ascii l))).
  change "." with (String (Ascii.ascii_of_N 46) EmptyString).
  rewrite str_cut_first by done. cbn. rewrite bool_decide_true by done. cbn. by rewrite Hrt.
Qed.

Lemma seal_unseal {T} `{!JSON T} ss x value :
  seal ss x = Ok value -> exists body, Marshal x = Some body /\ unseal ss value = Unmarshal body.
Proof.
  unfold seal. destruct (Marshal x) as [body |]; [| done]. case_match; [done |].
  intros [= <-]. exists body. by rewrite unseal_signed.
Qed.

(** Only what the server signed is read back: a value opens only when it is
    a body, a full stop and the signature the secret makes for that body. *)
Theorem unseal_authentic {T : Type} `{!JSON T} (ss : sessions) (value : string) (x : T) :
  unseal ss value = Some x ->
  exists body payload, value = body +s+ "." +s+ sign ss body /\
    DecodeString body = Some payload /\ Unmarshal payload = Some x.
Proof.
  unfold unseal. destruct (str_cut value ".") as [[body signature] found] eqn:E.
  destruct found; cbn; [| done]. apply str_cut_found in E.
  case_bool_decide as Hs; cbn; [| done]. destruct (DecodeString body) as [payload |] eqn:Hd; [| done].
  intros H. exists body, payload. by rewrite <- Hs.
Qed.

Section lifetime.
Context `{!JSON sessionClaims} {valid : sessionClaims -> Prop} `{!JSONRoundTrip sessionClaims valid}.
Implicit Types w : Identity.

Lemma decode_encoded ss w i e value now :
  valid (claimsOf w i e) -> encodeUntil ss w i e = Ok value ->
  decode ss value now =
  if (now <? fromUnix (Unix e))%Z && (now <? fromUnix (Unix i) + maxAge ss)%Z && negb (Anonymous w)
  then Some (MkSession w (fromUnix (Unix i)) (fromUnix (Unix e))) else None.
Proof using JSONRoundTrip0.
  intros Hv (body & Hm & Hu)%seal_unseal. unfold decode. rewrite Hu.
  rewrite (json_roundtrip (valid := valid) _ _ Hv Hm). unfold claimsOf. cbn.
  replace (MkIdentity (User w) (Groups w) (Role w) (Session w)) with w by (by destruct w).
  times. destruct (now <? _)%Z; cbn; [| done]. destruct (now <? _)%Z; cbn; [| done].
  by destruct (Anonymous w).
Qed.

(** C38: a session cookie gives back the identity it was issued to until the
    earlier of its expiry and its age cap (to the second), and nothing after
    that; an anonymous identity is never given back. *)
Theorem session_roundtrip (ss : sessions) (w : Identity) (i now : time) (value : string) (t : time) :
  valid (claimsOf w i (expiry ss i now)) ->
  encode ss w i now = Ok value ->
  (decode ss value t =
     Some (MkSession w (fromUnix (Unix i)) (fromUnix (Unix (expiry ss i now)))) <->
   (t < fromUnix (Unix (expiry ss i now)))%Z /\ (t < fromUnix (Unix i) + maxAge ss)%Z /\
   User w <> "") /\
  (decode ss value t = None \/
   decode ss value t = Some (MkSession w (fromUnix (Unix i)) (fromUnix (Unix (expiry ss i now))))).
Proof using JSONRoundTrip0.
  intros Hv He. unfold encode in He. rewrite (decode_encoded _ _ _ _ _ _ Hv He).
  unfold Anonymous. destruct (Z.ltb_spec t (fromUnix (Unix (expiry ss i now)))),
    (Z.ltb_spec t (fromUnix (Unix i) + maxAge ss)); case_bool_decide; cbn;
    split; auto; split; intros; naive_solver lia.
Qed.

(** The cookies one sign-in at [i0] leads to, by any number of renewals. *)
Inductive renewals (ss : sessions) (w : Identity) (i0 : time) : string -> Prop :=
| renewals_login now value : encode ss w i0 now = Ok value -> renewals ss w i0 value
| renewals_renew value now s value' :
    renewals ss w i0 value -> decode ss value now = Some s ->
    encode ss (who s) (issued s) now = Ok value' -> renewals ss w i0 value'.

Lemma renewals_decode ss w i0 value t s :
  (forall i e, valid (claimsOf w i e)) ->
  renewals ss w i0 value -> decode ss value t = Some s ->
  who s = w /\ issued s = fromUnix (Unix i0) /\ (t < issued s + maxAge ss)%Z /\
  (t < expires s)%Z /\ User w <> "".
Proof using JSONRoundTrip0.
  intros Hv H. revert t s.
  assert (Hdec : forall i now value t s, fromUnix (Unix i) = fromUnix (Unix i0) ->
    encode ss w i now = Ok value -> decode ss value t = Some s ->
    who s = w /\ issued s = fromUnix (Unix i0) /\ (t < issued s + maxAge ss)%Z /\
    (t < expires s)%Z /\ User w <> "").
  { intros i now v t s Hi He Hd. unfold encode in He.
    rewrite (decode_encoded _ _ _ _ _ _ (Hv _ _) He) in Hd. unfold Anonymous in Hd.
    case_match eqn:Hc; [| done]. injection Hd as <-. breflect. cbn. by rewrite <- Hi. }
  induction H as [now value He | value now s0 value' H IH Hd He]; intros t s.
  - by apply (Hdec i0 now).
  - destruct (IH _ _ Hd) as (Hw & Hi & _). rewrite Hw in He.
    apply (Hdec (issued s0) now); [by rewrite Hi, Unix_fromUnix | done].
Qed.

(** Renewing cannot stretch a sign-in: whatever chain of renewals a cookie
    comes from, it is refused from [maxAge] after the sign-in on, and it never
    speaks for anybody but who signed in. *)
Theorem renewals_capped (ss : sessions) (w : Identity) (i0 : time) (value : string) (t : time) :
  (forall i e, valid (claimsOf w i e)) ->
  renewals ss w i0 value ->
  (forall s, decode ss value t = Some s -> who s = w /\ (t < i0 + maxAge ss)%Z) /\
  ((i0 + maxAge ss <= t)%Z -> decode ss value t = None).
Proof using JSONRoundTrip0.
  intros Hv Hr. pose proof (fromUnix_le i0) as Hle.
  assert (H : forall s, decode ss value t = Some s -> who s = w /\ (t < i0 + maxAge ss)%Z).
  { intros s Hd. destruct (renewals_decode _ _ _ _ _ _ Hv Hr Hd) as (Hw & Hi & Ht & _).
    split; [done |]. rewrite Hi in Ht. lia. }
  split; [done |]. intros Hge. destruct (decode ss value t) eqn:E; [| done].
  destruct (H _ eq_refl). lia.
Qed.
End lifetime.

(** ** A codec that computes, for the examples: it carries the times and the
    user, for sessions named s1 of viewers with no groups. *)

Fixpoint bits_of (p : positive) : string :=
  match p with xH => EmptyString | xO p => String "0"%char (bits_of p) | xI p => String "1"%char (bits_of p) end.
Fixpoint of_bits (s : string) : option positive :=
  match s with
  | EmptyString => Some xH
  | String c s => p ← of_bits s; Some (if Ascii.eqb c "0"%char then xO p else xI p)
  end.

Definition z_text (z : Z) : string :=
  match z with Z0 => "z" | Zpos p => String "p"%char (bits_of p) | Zneg p => String "n"%char (bits_of p) end.
Definition text_z (s : string) : option Z :=
  match s with
  | String c s => if Ascii.eqb c "z"%char then Some 0%Z
                  else p ← of_bits s; Some (if Ascii.eqb c "p"%char then Zpos p else Zneg p)
  | EmptyString => None
  end.

#[export] Instance exampleJSON : JSON sessionClaims := {
  Marshal c := Some (z_text (c_Issued c) +s+ "," +s+ z_text (c_Expires c) +s+ "," +s+ c_User c);
  Unmarshal body :=
    let '(i, rest, _) := str_cut body "," in
    let '(e, user, _) := str_cut rest "," in
    i ← text_z i; e ← text_z e; Some (MkSessionClaims e [] i RoleViewer "s1" user);
}.

Definition exampleClaims (c : sessionClaims) : Prop :=
  c_Groups c = [] /\ c_Role c = RoleViewer /\ c_Session c = "s1".

Lemma of_bits_of p : of_bits (bits_of p) = Some p.
Proof. induction p as [p IH | p IH |]; cbn; rewrite ?IH; done. Qed.

Lemma text_z_text z : text_z (z_text z) = Some z.
Proof. destruct z; cbn; rewrite ?of_bits_of; done. Qed.

Lemma z_text_cut z rest : str_cut (z_text z +s+ "," +s+ rest) "," = (z_text z, rest, true).
Proof.
  pose proof (str_cut_first ","%char (String.list_ascii_of_string (z_text z)) rest) as H.
  rewrite String.string_of_list_ascii_of_string in H. apply H.
  assert (Hb : forall p, Forall (fun d => d <> ","%char) (String.list_ascii_of_string (bits_of p))).
  { induction p; cbn; repeat constructor; done. }
  destruct z; cbn; repeat constructor; done || apply Hb.
Qed.

#[export] Instance exampleJSON_roundtrip : JSONRoundTrip sessionClaims exampleClaims.
Proof.
  split. intros c body (Hg & Hr & Hs) [= <-]. cbn. rewrite !z_text_cut, !text_z_text. cbn.
  destruct c. cbn in *. by subst.
Qed.

Definition exampleSessions : sessions :=
  MkSessions "0123456789abcdef0123456789abcdef" (8 * Hour)%Z (24 * Hour)%Z true.
Definition ana : Identity := MkIdentity "ana" [] RoleViewer "s1".
Definition signIn : time := fromUnix 1750000000.
Definition anaCookie : string :=
  match encode exampleSessions ana signIn signIn with Ok value => value | Err _ => "" end.

Lemma anaCookie_encoded : encode exampleSessions ana signIn signIn = Ok anaCookie.
Proof. vm_compute. reflexivity. Qed.

Lemma ana_valid i e : exampleClaims (claimsOf ana i e).
Proof. by repeat split. Qed.

Lemma unseal_authentic_witness :
  exists body payload, anaCookie = body +s+ "." +s+ sign exampleSessions body /\
    DecodeString body = Some payload /\
    Unmarshal payload = Some (claimsOf ana signIn (signIn + 8 * Hour)%Z).
Proof.
  apply (unseal_authentic exampleSessions anaCookie (claimsOf ana signIn (signIn + 8 * Hour)%Z)).
  vm_compute. reflexivity.
Defined.

Lemma session_roundtrip_witness :
  decode exampleSessions anaCookie (signIn + Hour)%Z = Some (MkSession ana signIn (signIn + 8 * Hour)%Z).
Proof.
  destruct (session_roundtrip (valid := exampleClaims) exampleSessions ana signIn signIn anaCookie
    (signIn + Hour)%Z (ana_valid _ _) anaCookie_encoded) as [[_ H] _].
  etransitivity; [apply H; repeat split; vm_compute; done | vm_compute; reflexivity].
Defined.

Lemma renewals_capped_witness : decode exampleSessions anaCookie (signIn + 24 * Hour)%Z = None.
Proof.
  apply (renewals_capped (valid := exampleClaims) exampleSessions ana signIn anaCookie).
  - exact ana_valid.
  - apply (renewals_login _ _ _ signIn), anaCookie_encoded.
  - vm_compute. done.
Defined.

End Session.
