(* ===== verification/Revocations.v ===== *)
(** internal/auth/revoke.go: the sessions that were ended early.  Every method
    runs under the mutex, so it is one step on the map of revoked sessions; the
    store that keeps them across restarts is an interface, and its answers are
    arguments. *)

From S2P Require Import Prelude.

Module Revocations.

Record revocations := MkRevocations {
  gone : gmap string time;
  within : duration;
  kept : bool;
}.

Definition newRevocations (within : duration) : revocations := MkRevocations ∅ within false.

(** The revocations of [gone] still running at [now]. *)
Definition live (now : time) (gone : gmap string time) : gmap string time :=
  filter (fun p => Before now p.2 = true) gone.

Definition sweep (rv : revocations) (now : time) : revocations :=
  MkRevocations (live now (gone rv)) (within rv) (kept rv).

(** [keep]: [held] is what the store answered, [None] when it failed. *)
Definition keep (rv : revocations) (held : option (gmap string time)) : revocations :=
  match held with
  | None => rv
  | Some held => MkRevocations (held ∪ gone rv) (within rv) true
  end.

(** What [revoke] asks the store to write down, if one is kept. *)
Record write := MkWrite { w_session : string; w_until : time; w_now : time }.

Definition revoke (rv : revocations) (session : string) (now : time) : revocations * option write :=
  if bool_decide (session = "") then (rv, None)
  else
    let rv := sweep rv now in
    let until := tadd now (within rv) in
    (MkRevocations (<[session := until]> (gone rv)) (within rv) (kept rv),
     if negb (kept rv) then None else Some (MkWrite session until now)).

Definition revoked (rv : revocations) (session : string) (now : time) : revocations * bool :=
  if bool_decide (session = "") then (rv, false)
  else
    match gone rv !! session with
    | None => (rv, false)
    | Some until =>
        if negb (Before now until) then
          (MkRevocations (delete session (gone rv)) (within rv) (kept rv), false)
        else (rv, true)
    end.

(** ** Histories: the calls made, each with the clock it read. *)

Inductive call :=
| Revoke (session : string) (now : time)
| IsRevoked (session : string) (now : time)
| Keep (held : option (gmap string time)).

Definition clock (c : call) : option time :=
  match c with Revoke _ now | IsRevoked _ now => Some now | Keep _ => None end.

Definition step (rv : revocations) (c : call) : revocations :=
  match c with
  | Revoke s now => (revoke rv s now).1
  | IsRevoked s now => (revoked rv s now).1
  | Keep held => keep rv held
  end.

Definition run (rv : revocations) (calls : list call) : revocations := fold_left step calls rv.

(** The clock of a call lies within [lo, hi], and a store read back does not
    shorten a revocation of [s] that ends at [until]. *)
Definition call_ok (s : string) (until lo hi : time) (c : call) : Prop :=
  match c with
  | Revoke _ now | IsRevoked _ now => (lo <= now <= hi)%Z
  | Keep (Some held) => forall t, held !! s = Some t -> (until <= t)%Z
  | Keep None => True
  end.

Definition holds (rv : revocations) (s : string) (until : time) : Prop :=
  exists t : time, gone rv !! s = Some t /\ (until <= t)%Z.

Lemma live_lookup (now : time) g s (t : time) :
  live now g !! s = Some t <-> g !! s = Some t /\ (now < t)%Z.
Proof. unfold live. rewrite map_lookup_filter_Some. times. by rewrite Z.ltb_lt. Qed.

Lemma step_within rv c : within (step rv c) = within rv.
Proof.
  destruct c as [s now | s now | [held |]]; cbn; unfold revoke, revoked; repeat case_match; done.
Qed.

Lemma step_holds rv c s until lo hi :
  (hi < until)%Z -> (until <= lo + within rv)%Z -> call_ok s until lo hi c ->
  holds rv s until -> holds (step rv c) s until.
Proof.
  intros Hhi Hlo Hc (t & Ht & Hu). destruct c as [x now | x now | [held |]]; cbn in *.
  - unfold revoke. case_bool_decide; cbn; [by exists t |]. unfold holds. cbn.
    destruct (decide (x = s)) as [-> | Hne].
    + rewrite lookup_insert_eq. eexists. split; [done |]. times. lia.
    + rewrite lookup_insert_ne by done. exists t. rewrite live_lookup. split; [split |]; lia || done.
  - unfold revoked. case_bool_decide; cbn; [by exists t |].
    destruct (gone rv !! x) as [u |] eqn:Hx; [| by exists t].
    case_match eqn:Hb; cbn; [| by exists t]. exists t. cbn. split; [| done].
    destruct (decide (x = s)) as [-> | Hne]; [| by rewrite lookup_delete_ne].
    rewrite Ht in Hx. injection Hx as <-. times. breflect. lia.
  - unfold holds. cbn. destruct (held !! s) as [u |] eqn:Hs.
    + exists u. split; [by apply lookup_union_Some_l | by apply Hc].
    + exists t. split; [| done]. by rewrite lookup_union_r.
  - by exists t.
Qed.

Lemma run_holds rv calls s until lo hi :
  (hi < until)%Z -> (until <= lo + within rv)%Z -> Forall (call_ok s until lo hi) calls ->
  holds rv s until -> holds (run rv calls) s until.
Proof.
  intros Hhi Hlo Hc. revert rv Hlo. induction Hc as [| c calls Hc Hcs IH]; intros rv Hlo H; cbn; [done |].
  apply IH; [by rewrite step_within | by eapply step_holds].
Qed.

(** Revoking a session is effective for the whole retention period: however
    many calls follow, in any order, as long as the clock does not run back
    before the revocation, the session is reported revoked until the period is
    over. *)
Lemma revoke_effective (rv : revocations) (s : string) (now t : time) (calls : list call) :
  s <> "" -> (now <= t < now + within rv)%Z ->
  Forall (call_ok s (now + within rv)%Z now t) calls ->
  (revoked (run (step rv (Revoke s now)) calls) s t).2 = true.
Proof.
  intros Hs Ht Hc.
  destruct (run_holds (step rv (Revoke s now)) calls s (now + within rv)%Z now t) as (u & Hu & Hle).
  - lia.
  - by rewrite step_within.
  - done.
  - cbn. unfold revoke. rewrite bool_decide_false by done. cbn.
    exists (now + within rv)%Z. split; [apply lookup_insert_eq | lia].
  - unfold revoked. rewrite bool_decide_false by done. rewrite Hu. times.
    replace (t <? u)%Z with true by (symmetry; apply Z.ltb_lt; lia). done.
Qed.

(** A session nobody revoked is never reported revoked, whatever else was
    revoked or asked, and the empty name never is. *)
Lemma never_revoked (rv : revocations) (s : string) (t : time) (calls : list call) :
  gone rv !! s = None ->
  Forall (fun c => match c with
                   | Revoke x _ => x <> s
                   | Keep (Some held) => held !! s = None
                   | _ => True
                   end) calls ->
  (revoked (run rv calls) s t).2 = false /\ (revoked rv "" t).2 = false.
Proof.
  intros Hn Hc. split; [| done].
  assert (H : gone (run rv calls) !! s = None).
  { revert rv Hn. induction Hc as [| c calls Hc Hcs IH]; intros rv Hn; cbn; [done |]. apply IH.
    destruct c as [x now | x now | [held |]]; cbn; [| | | done].
    - unfold revoke. case_bool_decide; cbn; [done |]. rewrite lookup_insert_ne by done.
      destruct (live _ _ !! s) eqn:E; [| done]. apply live_lookup in E as [E _]. by rewrite Hn in E.
    - unfold revoked. repeat case_match; cbn; try done.
      destruct (decide (x = s)) as [-> | ?]; [apply lookup_delete_eq | by rewrite lookup_delete_ne].
    - rewrite lookup_union, Hc, Hn. done. }
  unfold revoked. case_bool_decide; [done |]. by rewrite H.
Qed.

Example revoked_for_a_day :
  (revoked (run (step (newRevocations (24 * Hour)%Z) (Revoke "s1" 100))
     [IsRevoked "s1" 200; Revoke "s2" 300; IsRevoked "s3" 400]) "s1" 500).2 = true.
Proof. vm_compute. reflexivity. Qed.

End Revocations.
