(* ===== verification/Limits.v ===== *)
(** internal/auth/flowlimits.go: the one-shot registry of login callbacks and
    the budget of concurrent code exchanges.  Every method runs under a mutex;
    the release function a successful claim returns is a token that works
    once. *)

From S2P Require Import Prelude.

Module Limits.

(** ** Tokens: the release functions handed out, with the source that claimed
    and whether [sync.Once] has fired. *)

Abbreviation tokens := (list (string * bool)).


Definition outstanding (toks : tokens) (source : string) : Z :=
  zlen (List.filter (fun p => negb p.2 && bool_decide (p.1 = source)) toks).

Definition outstandingAll (toks : tokens) : Z := zlen (List.filter (fun p => negb p.2) toks).

Lemma outstanding_claim toks s x :
  outstanding (toks ++ [(s, false)]) x = (outstanding toks x + one (bool_decide (s = x)))%Z.
Proof.
  unfold outstanding. rewrite List.filter_app, zlen_app. f_equal. cbn. by case_bool_decide.
Qed.

Lemma outstandingAll_claim toks s :
  outstandingAll (toks ++ [(s, false)]) = (outstandingAll toks + 1)%Z.
Proof. unfold outstandingAll. by rewrite List.filter_app, zlen_app. Qed.

Lemma outstanding_release toks i s x :
  toks !! i = Some (s, false) ->
  outstanding (<[i := (s, true)]> toks) x = (outstanding toks x - one (bool_decide (s = x)))%Z.
Proof.
  unfold outstanding. revert i. induction toks as [| [y b] toks IH]; intros [| i] H; try done.
  - injection H as -> ->. cbn. case_bool_decide; cbn; rewrite ?zlen_cons; zlia.
  - cbn in *. specialize (IH _ H). case_match; rewrite ?zlen_cons; [| done].
    rewrite <- Z.add_sub_assoc. f_equal. exact IH.
Qed.

Lemma outstandingAll_release toks i s :
  toks !! i = Some (s, false) ->
  outstandingAll (<[i := (s, true)]> toks) = (outstandingAll toks - 1)%Z.
Proof.
  unfold outstandingAll. revert i. induction toks as [| [y b] toks IH]; intros [| i] H; try done.
  - injection H as -> ->. cbn. rewrite zlen_cons. zlia.
  - cbn in *. specialize (IH _ H). case_match; rewrite ?zlen_cons; [| done].
    rewrite <- Z.add_sub_assoc. f_equal. exact IH.
Qed.

Lemma outstanding_pos toks i s : toks !! i = Some (s, false) -> (0 < outstanding toks s)%Z.
Proof.
  intros H. pose proof (outstanding_release toks i s s H) as Hr.
  rewrite bool_decide_true in Hr by done. cbn in Hr.
  pose proof (zlen_nonneg (List.filter (fun p => negb p.2 && bool_decide (p.1 = s))
    (<[i := (s, true)]> toks))) as Hn. unfold outstanding in *. zlia.
Qed.

Lemma outstanding_nonneg toks s : (0 <= outstanding toks s)%Z.
Proof. apply zlen_nonneg. Qed.

#[local] Hint Resolve outstanding_nonneg : core.

(** A Go map read of a missing counter is zero. *)
Definition count (m : gmap string Z) (s : string) : Z := default 0%Z (m !! s).

(** ** consumedFlows *)

Record consumedFlows := MkConsumedFlows { capacity : Z; used : gmap string time }.

Definition newConsumedFlows (capacity : Z) : consumedFlows := MkConsumedFlows capacity ∅.

Inductive flowError := FlowReplay | FlowRegistryFull.

Definition consume (f : consumedFlows) (state : string) (expires now : time) :
    consumedFlows * result flowError unit :=
  let kept := filter (fun p => Before now p.2 = true) (used f) in
  let f := MkConsumedFlows (capacity f) kept in
  match kept !! state with
  | Some _ => (f, Err FlowReplay)
  | None =>
      if (capacity f <=? Z.of_nat (size kept))%Z then (f, Err FlowRegistryFull)
      else (MkConsumedFlows (capacity f) (<[state := expires]> kept), Ok tt)
  end.

Record attempt := MkAttempt { at_state : string; at_expires : time; at_now : time }.

Definition attempts (f : consumedFlows) (l : list attempt) : consumedFlows :=
  fold_left (fun f a => (consume f (at_state a) (at_expires a) (at_now a)).1) l f.

Lemma kept_lookup (now : time) (m : gmap string time) s (t : time) :
  filter (fun p => Before now p.2 = true) m !! s = Some t <-> m !! s = Some t /\ (now < t)%Z.
Proof. rewrite map_lookup_filter_Some. times. by rewrite Z.ltb_lt. Qed.

Lemma consume_keeps f a s (e : time) :
  used f !! s = Some e -> (at_now a < e)%Z ->
  used (consume f (at_state a) (at_expires a) (at_now a)).1 !! s = Some e.
Proof.
  intros Hs Hlt. unfold consume.
  assert (Hk : filter (fun p => Before (at_now a) p.2 = true) (used f) !! s = Some e)
    by (by apply kept_lookup).
  case_match eqn:Ha; cbn; [done |]. case_match; cbn; [done |].
  rewrite lookup_insert_ne; [done |]. intros E. by rewrite E, Hk in Ha.
Qed.

Lemma consume_ok f s (e now : time) :
  (consume f s e now).2 = Ok tt -> used (consume f s e now).1 !! s = Some e.
Proof. unfold consume. case_match; [done |]. case_match; [done |]. intros _. apply lookup_insert_eq. Qed.

(** A state already registered is refused as a replay until it expires. *)
Lemma consume_replay f s (e e' t : time) :
  used f !! s = Some e -> (t < e)%Z -> (consume f s e' t).2 = Err FlowReplay.
Proof.
  intros H Ht. unfold consume.
  assert (Hk : filter (fun p => Before t p.2 = true) (used f) !! s = Some e)
    by (by apply kept_lookup). by rewrite Hk.
Qed.

(** The registry of consumed callbacks never outgrows its capacity, and a
    new callback is turned away for lack of room only when that many others are
    still unexpired. *)
Theorem consume_bounded (f : consumedFlows) (l : list attempt) (s : string) (e now : time) :
  (Z.of_nat (size (used f)) <= capacity f)%Z ->
  let g := attempts f l in
  (Z.of_nat (size (used g)) <= capacity f)%Z /\
  ((consume g s e now).2 = Err FlowRegistryFull ->
     Z.of_nat (size (filter (fun p => Before now p.2 = true) (used g))) = capacity f).
Proof.
  intros H g.
  assert (Hg : capacity g = capacity f /\ (Z.of_nat (size (used g)) <= capacity f)%Z).
  { subst g. revert f H. induction l as [| a l IH]; intros f H; cbn; [done |].
    assert (Hstep : forall x, capacity (consume f x (at_expires a) (at_now a)).1 = capacity f /\
      (Z.of_nat (size (used (consume f x (at_expires a) (at_now a)).1)) <= capacity f)%Z).
    { intros x. unfold consume. set (k := filter _ _).
      assert (Hk : size k <= size (used f)) by (apply map_subseteq_size, map_filter_subseteq).
      case_match eqn:Hx; cbn; [lia |]. case_match eqn:Hc; cbn; [lia |]. breflect. cbn in *.
      rewrite map_size_insert_None by done. lia. }
    destruct (Hstep (at_state a)) as [Hc Hs]. rewrite <- Hc in Hs. rewrite <- Hc.
    by apply IH. }
  destruct Hg as [Hc Hs]. split; [done |]. unfold consume. case_match; [done |].
  case_match eqn:Hf; [| done]. intros _. breflect. cbn in *.
  assert (Hk : size (filter (fun p => Before now p.2 = true) (used g)) <= size (used g))
    by (apply map_subseteq_size, map_filter_subseteq). lia.
Qed.

Lemma consume_bounded_witness :
  let g := attempts (newConsumedFlows 1) [MkAttempt "a" 100 1; MkAttempt "b" 100 2] in
  (Z.of_nat (size (used g)) <= 1)%Z /\
  ((consume g "c" 100 3).2 = Err FlowRegistryFull ->
     Z.of_nat (size (filter (fun p => Before 3 p.2 = true) (used g))) = 1%Z).
Proof.
  apply (consume_bounded (newConsumedFlows 1)
    [MkAttempt "a" 100 1; MkAttempt "b" 100 2] "c" 100 3). vm_compute. done.
Defined.

(** ** exchangeBudget *)

Record exchangeBudget := MkExchangeBudget {
  global : Z;
  perSource : Z;
  eb_used : Z;
  bySource : gmap string Z;
}.

Definition newExchangeBudget (global perSource : Z) : exchangeBudget :=
  MkExchangeBudget global perSource 0 ∅.

Definition claim (b : exchangeBudget) (source : string) : exchangeBudget * bool :=
  let globalFull := (global b <=? eb_used b)%Z in
  let sourceFull := (perSource b <=? count (bySource b) source)%Z in
  if globalFull || sourceFull then (b, false)
  else (MkExchangeBudget (global b) (perSource b) (eb_used b + 1)
          (<[source := (count (bySource b) source + 1)%Z]> (bySource b)), true).

(** What the release function does the first time. *)
Definition release (b : exchangeBudget) (source : string) : exchangeBudget :=
  let left := (count (bySource b) source - 1)%Z in
  let m := <[source := left]> (bySource b) in
  MkExchangeBudget (global b) (perSource b) (eb_used b - 1)
    (if (left =? 0)%Z then delete source m else m).

(** The budget with the release functions it handed out; calling one a second
    time does nothing. *)
Inductive exchange_step : exchangeBudget * tokens -> exchangeBudget * tokens -> Prop :=
| exchange_claim b toks source b' :
    claim b source = (b', true) -> exchange_step (b, toks) (b', toks ++ [(source, false)])
| exchange_refuse b toks source b' :
    claim b source = (b', false) -> exchange_step (b, toks) (b', toks)
| exchange_release b toks i source :
    toks !! i = Some (source, false) ->
    exchange_step (b, toks) (release b source, <[i := (source, true)]> toks)
| exchange_again b toks i source :
    toks !! i = Some (source, true) -> exchange_step (b, toks) (b, toks).

Record exchange_inv (b : exchangeBudget) (toks : tokens) : Prop := {
  xi_used : eb_used b = outstandingAll toks;
  xi_global : (eb_used b <= Z.max 0 (global b))%Z;
  xi_source : forall s, bySource b !! s =
    if (outstanding toks s =? 0)%Z then None else Some (outstanding toks s);
  xi_per : forall s, (outstanding toks s <= Z.max 0 (perSource b))%Z;
}.

Lemma exchange_step_inv st st' :
  exchange_step st st' -> exchange_inv st.1 st.2 ->
  exchange_inv st'.1 st'.2 /\ global st'.1 = global st.1 /\ perSource st'.1 = perSource st.1.
Proof.
  intros Hst [Hu Hg Hs Hp].
  assert (Hcount : forall s, count (bySource st.1) s = outstanding st.2 s).
  { intros s. unfold count. rewrite Hs. case_match; breflect; cbn; lia. }
  destruct Hst as [b toks source b' Hc | b toks source b' Hc | b toks i source Ht | b toks i source Ht];
    cbn in *.
  - unfold claim in Hc. rewrite Hcount in Hc. destruct (_ || _) eqn:E; [done |].
    injection Hc as <-. breflect. split; [| done]. split; cbn.
    + rewrite outstandingAll_claim. lia.
    + lia.
    + intros s. rewrite outstanding_claim. pose proof (outstanding_nonneg toks s).
      case_bool_decide; subst; cbn.
      * rewrite lookup_insert_eq. by replace (outstanding toks s + 1 =? 0)%Z with false by lia.
      * by rewrite lookup_insert_ne, Hs, Z.add_0_r.
    + intros s. rewrite outstanding_claim. specialize (Hp s). case_bool_decide; subst; cbn; lia.
  - unfold claim in Hc. destruct (_ || _); [| done]. by injection Hc as <-.
  - split; [| done]. pose proof (outstanding_pos _ _ _ Ht). split; cbn.
    + erewrite outstandingAll_release by done. lia.
    + lia.
    + intros s. rewrite (outstanding_release _ _ _ _ Ht), Hcount.
      case_bool_decide as E; [subst s | rewrite Z.sub_0_r]; cbn.
      * case_match; breflect; [apply lookup_delete_eq | apply lookup_insert_eq].
      * case_match; rewrite ?lookup_delete_ne, lookup_insert_ne by done; apply Hs.
    + intros s. rewrite (outstanding_release _ _ _ _ Ht). specialize (Hp s).
      case_bool_decide; cbn; lia.
  - done.
Qed.

(** However claims, refusals and releases interleave, the exchange budget
    counts exactly the code exchanges in flight: never more than the global
    limit, never more than the per-source limit from one source, and it keeps
    no entry for a source that has none. *)
Theorem exchange_budget_safe (g p : Z) (b : exchangeBudget) (toks : tokens) :
  rtc exchange_step (newExchangeBudget g p, []) (b, toks) ->
  outstandingAll toks = eb_used b /\ (eb_used b <= Z.max 0 g)%Z /\
  forall s, (outstanding toks s <= Z.max 0 p)%Z /\
    bySource b !! s = if (outstanding toks s =? 0)%Z then None else Some (outstanding toks s).
Proof.
  intros H.
  assert (Hinv : forall st st', rtc exchange_step st st' ->
    exchange_inv st.1 st.2 -> global st.1 = g -> perSource st.1 = p ->
    exchange_inv st'.1 st'.2 /\ global st'.1 = g /\ perSource st'.1 = p).
  { induction 1 as [| st1 st2 st3 Hs Hr IH]; [done |]. intros Hi Hg Hp.
    destruct (exchange_step_inv _ _ Hs Hi) as (Hi' & Hg' & Hp'). apply IH; congruence || done. }
  destruct (Hinv _ _ H) as ([Hu Hg Hs Hp] & Hg' & Hp'); cbn in *; try done.
  - split; cbn; intros; try done; [lia | change (outstanding [] s) with 0%Z; lia].
  - subst. repeat split; auto.
Qed.

Lemma exchange_budget_safe_witness :
  let b := release (claim (claim (newExchangeBudget 2 1) "a").1 "b").1 "a" in
  let toks := [("a", true); ("b", false)] in
  outstandingAll toks = eb_used b /\ (eb_used b <= Z.max 0 2)%Z /\
  forall s, (outstanding toks s <= Z.max 0 1)%Z /\
    bySource b !! s = if (outstanding toks s =? 0)%Z then None else Some (outstanding toks s).
Proof.
  intros b toks. apply (exchange_budget_safe 2 1 b toks).
  eapply rtc_l; [by apply (exchange_claim _ _ "a") |].
  eapply rtc_l; [by apply (exchange_claim _ _ "b") |].
  eapply rtc_l; [by apply (exchange_release _ _ 0 "a") |].
  eapply rtc_l; [by apply (exchange_again _ _ 0 "a") |]. apply rtc_refl.
Defined.

End Limits.
