(* ===== verification/LogoutLimits.v ===== *)
(** internal/auth/logoutlimits.go: the budget of back-channel logout
    verifications: concurrency per server and per source, a sliding-window
    rate, and a cooldown after a failure.  The order in which a Go map of
    sources is walked is an argument. *)

From S2P Require Import Prelude Limits.

Module LogoutLimits.
Import Limits.

Definition logoutGlobalConcurrent : Z := 4.
Definition logoutSourceConcurrent : Z := 2.
Definition logoutGlobalRate : Z := 32.
Definition logoutSourceRate : Z := 8.
Definition logoutSourceCapacity : Z := 1024.
Definition logoutRateWindow : duration := Minute.
Definition logoutFailureCooldown : duration := (5 * Second)%Z.

Record logoutSourceWindow := MkWindow { w_events : list time; last : time; w_used : Z }.

Definition emptyWindow : logoutSourceWindow := MkWindow [] zeroTime 0.

Record budget := MkBudget {
  globalConcurrent : Z;
  sourceConcurrent : Z;
  globalRate : Z;
  sourceRate : Z;
  sourceCapacity : Z;
  window : duration;
  cooldown : duration;
  b_used : Z;
  events : list time;
  sources : gmap string logoutSourceWindow;
  failureUntil : time;
}.

Definition newLogoutVerificationBudget : budget :=
  MkBudget logoutGlobalConcurrent logoutSourceConcurrent logoutGlobalRate logoutSourceRate
    logoutSourceCapacity logoutRateWindow logoutFailureCooldown 0 [] ∅ zeroTime.

Definition with_state (b : budget) (used : Z) (evs : list time)
    (srcs : gmap string logoutSourceWindow) (until : time) : budget :=
  MkBudget (globalConcurrent b) (sourceConcurrent b) (globalRate b) (sourceRate b)
    (sourceCapacity b) (window b) (cooldown b) used evs srcs until.

(** Drops the leading events that are not after the cutoff. *)
Fixpoint recentLogoutEvents (evs : list time) (cutoff : time) : list time :=
  match evs with
  | [] => []
  | e :: rest => if After e cutoff then evs else recentLogoutEvents rest cutoff
  end.

(** The loop of [evictLogoutSource]: the idle source used longest ago. *)
Definition oldestIdle (order : list (string * logoutSourceWindow)) : string * time :=
  fold_left (fun '(oldest, oldestAt) '(source, held) =>
    if (0 <? w_used held)%Z then (oldest, oldestAt)
    else if bool_decide (oldest <> "") && negb (Before (last held) oldestAt) then (oldest, oldestAt)
    else (source, last held)) order ("", zeroTime).

Definition evictLogoutSource (b : budget) (order : list (string * logoutSourceWindow)) : budget * bool :=
  if (Z.of_nat (size (sources b)) <? sourceCapacity b)%Z then (b, true)
  else
    let oldest := (oldestIdle order).1 in
    if bool_decide (oldest <> "") then
      (with_state b (b_used b) (events b) (delete oldest (sources b)) (failureUntil b), true)
    else (b, false).

Definition claim (b : budget) (source : string) (now : time)
    (order : list (string * logoutSourceWindow)) : budget * bool :=
  if Before now (failureUntil b) then (b, false)
  else
    let b := with_state b (b_used b) (recentLogoutEvents (events b) (tadd now (- window b)))
               (sources b) (failureUntil b) in
    let known := sources b !! source in
    let held := default emptyWindow known in
    let heldEvents := recentLogoutEvents (w_events held) (tadd now (- window b)) in
    let globalFull := (globalConcurrent b <=? b_used b)%Z in
    let sourceFull := (sourceConcurrent b <=? w_used held)%Z in
    let globalRateFull := (globalRate b <=? zlen (events b))%Z in
    let sourceRateFull := (sourceRate b <=? zlen heldEvents)%Z in
    if globalFull || sourceFull || globalRateFull || sourceRateFull then (b, false)
    else
      let '(b, room) := match known with Some _ => (b, true) | None => evictLogoutSource b order end in
      if negb room then (b, false)
      else
        (with_state b (b_used b + 1) (events b ++ [now])
           (<[source := MkWindow (heldEvents ++ [now]) now (w_used held + 1)]> (sources b))
           (failureUntil b), true).

(** What the release function does the first time. *)
Definition release (b : budget) (source : string) : budget :=
  let held := default emptyWindow (sources b !! source) in
  with_state b (b_used b - 1) (events b)
    (<[source := MkWindow (w_events held) (last held) (w_used held - 1)]> (sources b))
    (failureUntil b).

Definition failed (b : budget) (now : time) : budget :=
  with_state b (b_used b) (events b) (sources b) (tadd now (cooldown b)).

(** ** Runs: the budget, the release functions handed out, the clock, and the
    times at which claims were granted (a history no code keeps). *)

Record run := MkRun { bud : budget; toks : tokens; clock : time; granted : list time }.

Inductive step : run -> run -> Prop :=
| step_claim r source now order b' :
    (clock r <= now)%Z -> order ≡ₚ map_to_list (sources (bud r)) ->
    claim (bud r) source now order = (b', true) ->
    step r (MkRun b' (toks r ++ [(source, false)]) now (granted r ++ [now]))
| step_refuse r source now order b' :
    (clock r <= now)%Z -> order ≡ₚ map_to_list (sources (bud r)) ->
    claim (bud r) source now order = (b', false) ->
    step r (MkRun b' (toks r) now (granted r))
| step_release r i source :
    toks r !! i = Some (source, false) ->
    step r (MkRun (release (bud r) source) (<[i := (source, true)]> (toks r)) (clock r) (granted r))
| step_again r i source :
    toks r !! i = Some (source, true) -> step r r
| step_failed r now :
    (clock r <= now)%Z -> step r (MkRun (failed (bud r) now) (toks r) now (granted r)).

Definition start (b : budget) : run := MkRun b [] 0 [].

(** Claims granted in the window that ends at [t]. *)
Definition grantedIn (d : duration) (t : time) (l : list time) : Z :=
  zlen (List.filter (fun a => (t - d <? a)%Z && (a <=? t)%Z) l).

Definition same_limits (b c : budget) : Prop :=
  globalConcurrent b = globalConcurrent c /\ sourceConcurrent b = sourceConcurrent c /\
  globalRate b = globalRate c /\ sourceCapacity b = sourceCapacity c /\
  window b = window c /\ cooldown b = cooldown c.

Definition usedBy (b : budget) (s : string) : Z :=
  w_used (default emptyWindow (sources b !! s)).

Lemma oldestIdle_in order :
  (oldestIdle order).1 = "" \/
  exists h, ((oldestIdle order).1, h) ∈ order /\ (w_used h <= 0)%Z.
Proof.
  unfold oldestIdle.
  assert (H : forall l acc, fold_left (fun '(oldest, oldestAt) '(source, held) =>
      if (0 <? w_used held)%Z then (oldest, oldestAt)
      else if bool_decide (oldest <> "") && negb (Before (last held) oldestAt) then (oldest, oldestAt)
      else (source, last held)) l acc = acc \/
    exists h, ((fold_left (fun '(oldest, oldestAt) '(source, held) =>
      if (0 <? w_used held)%Z then (oldest, oldestAt)
      else if bool_decide (oldest <> "") && negb (Before (last held) oldestAt) then (oldest, oldestAt)
      else (source, last held)) l acc).1, h) ∈ l /\ (w_used h <= 0)%Z).
  { induction l as [| [s h] l IH]; intros [o oa]; [by left |].
    cbn [fold_left]. destruct (Z.ltb_spec 0 (w_used h)) as [Hu | Hu].
    { destruct (IH (o, oa)) as [-> | (h' & ? & ?)]; [by left | right; exists h'; split; [by right | done]]. }
    destruct (_ && _).
    { destruct (IH (o, oa)) as [-> | (h' & ? & ?)]; [by left | right; exists h'; split; [by right | done]]. }
    destruct (IH (s, last h)) as [-> | (h' & ? & ?)].
    - right. exists h. split; [left | done].
    - right. exists h'. split; [by right | done]. }
  destruct (H order ("", zeroTime)) as [-> | ?]; [by left | by right].
Qed.

(** Eviction only ever forgets an idle source, and makes room. *)
Lemma evict_spec b order b' :
  order ≡ₚ map_to_list (sources b) -> evictLogoutSource b order = (b', true) ->
  same_limits b' b /\ b_used b' = b_used b /\ events b' = events b /\
  failureUntil b' = failureUntil b /\
  (Z.of_nat (size (sources b')) < sourceCapacity b \/
   Z.of_nat (size (sources b')) < Z.of_nat (size (sources b)))%Z /\
  (size (sources b') <= size (sources b)) /\
  (sources b' = sources b \/
   exists k h, sources b !! k = Some h /\ (w_used h <= 0)%Z /\ sources b' = delete k (sources b)).
Proof.
  intros Hp. unfold evictLogoutSource. case_match eqn:Hc.
  { intros [= <-]. breflect. repeat split; auto. }
  case_bool_decide as Ho; [| done]. intros [= <-]. cbn.
  destruct (oldestIdle_in order) as [? | (h & Hin & Hu)]; [done |].
  set (old := (oldestIdle order).1) in *. clearbody old.
  rewrite Hp in Hin. apply elem_of_map_to_list in Hin.
  pose proof (map_size_delete old (sources b)) as Hs. rewrite Hin in Hs. cbn in Hs.
  pose proof (map_size_non_empty_iff (sources b)) as Hne.
  assert (size (sources b) <> 0).
  { apply Hne. intros He. by rewrite He, lookup_empty in Hin. }
  repeat split; auto; [right; lia | lia |]. right. eauto.
Qed.

Record inv (r : run) : Prop := {
  i_used : b_used (bud r) = outstandingAll (toks r);
  i_conc : (b_used (bud r) <= Z.max 0 (globalConcurrent (bud r)))%Z;
  i_src : forall s, usedBy (bud r) s = outstanding (toks r) s;
  i_per : forall s, (outstanding (toks r) s <= Z.max 0 (sourceConcurrent (bud r)))%Z;
  i_cap : (Z.of_nat (size (sources (bud r))) <= Z.max 0 (sourceCapacity (bud r)))%Z;
  i_past : Forall (fun a => (a <= clock r)%Z) (granted r);
  i_sorted : StronglySorted Z.le (granted r);
  i_hist : exists dropped, granted r = dropped ++ events (bud r) /\
    Forall (fun a => (a <= clock r - window (bud r))%Z) dropped;
  i_rate : forall t, (grantedIn (window (bud r)) t (granted r) <= Z.max 0 (globalRate (bud r)))%Z;
}.

Lemma recent_split (evs : list time) (cutoff : time) :
  exists dropped, evs = dropped ++ recentLogoutEvents evs cutoff /\
    Forall (fun a => (a <= cutoff)%Z) dropped.
Proof.
  induction evs as [| e l IH]; cbn; [by exists [] |].
  unfold After. destruct (Z.ltb_spec cutoff e); [by exists [] |].
  destruct IH as (d & Hd & Hf). exists (e :: d). split; [by cbn; rewrite <- Hd | by constructor].
Qed.

Lemma trim_hist (hist dropped evs : list time) (now : time) (w : duration) :
  hist = dropped ++ evs -> Forall (fun a => (a <= now - w)%Z) dropped ->
  exists d, hist = d ++ recentLogoutEvents evs (tadd now (- w)) /\
    Forall (fun a => (a <= now - w)%Z) d.
Proof.
  intros -> Hd. destruct (recent_split evs (tadd now (- w))) as (d & He & Hf).
  exists (dropped ++ d). split; [rewrite <- app_assoc; f_equal; exact He |].
  apply Forall_app. split; [done |]. eapply List.Forall_impl; [| exact Hf]. times. cbn. lia.
Qed.

Lemma grantedIn_app d t (l k : list time) : grantedIn d t (l ++ k) = (grantedIn d t l + grantedIn d t k)%Z.
Proof. unfold grantedIn. by rewrite List.filter_app, zlen_app. Qed.

Lemma grantedIn_le d t (l : list time) : (grantedIn d t l <= zlen l)%Z.
Proof. unfold grantedIn, zlen. apply inj_le, List.filter_length_le. Qed.

Lemma grantedIn_none d t (l : list time) : Forall (fun a => (a <= t - d)%Z) l -> grantedIn d t l = 0%Z.
Proof.
  unfold grantedIn. induction 1 as [| a l Ha Hl IH]; [done |]. cbn.
  by replace (t - d <? a)%Z with false by (symmetry; apply Z.ltb_ge; lia).
Qed.

(** Granting at [now] keeps every window within the rate. *)
Lemma grant_rate d (now : time) rate (dropped recent hist : list time) :
  hist = dropped ++ recent -> Forall (fun a => (a <= now - d)%Z) dropped ->
  (zlen recent < rate)%Z ->
  (forall t, (grantedIn d t hist <= rate)%Z) ->
  forall t, (grantedIn d t (hist ++ [now]) <= rate)%Z.
Proof.
  intros -> Hd Hr Hold t. destruct (Z.ltb_spec t now) as [Ht | Ht].
  - rewrite grantedIn_app. specialize (Hold t).
    assert (grantedIn d t [now] = 0%Z) as ->; [| lia].
    unfold grantedIn. cbn. replace (now <=? t)%Z with false by (symmetry; apply Z.leb_gt; lia).
    by rewrite andb_false_r.
  - rewrite !grantedIn_app, (grantedIn_none d t dropped).
    2: { eapply List.Forall_impl; [| exact Hd]. cbn. lia. }
    pose proof (grantedIn_le d t recent). pose proof (grantedIn_le d t [now]).
    change (zlen [now]) with 1%Z in *. zlia.
Qed.

Lemma sorted_snoc l (a : time) :
  StronglySorted Z.le l -> Forall (fun x => (x <= a)%Z) l -> StronglySorted Z.le (l ++ [a]).
Proof.
  induction 1 as [| x l Hl IH Hx]; intros Ha; cbn; [repeat constructor |].
  apply list.Forall_cons in Ha as [Hxa Ha]. constructor; [by apply IH |].
  apply Forall_app. by repeat constructor.
Qed.

(** What a claim does, on both outcomes. *)
Lemma claim_spec b source now order b' ok :
  order ≡ₚ map_to_list (sources b) -> claim b source now order = (b', ok) ->
  same_limits b' b /\ failureUntil b' = failureUntil b /\
  if ok then
    (failureUntil b <= now)%Z /\
    b_used b' = (b_used b + 1)%Z /\ (b_used b < globalConcurrent b)%Z /\
    (usedBy b source < sourceConcurrent b)%Z /\
    (zlen (recentLogoutEvents (events b) (tadd now (- window b))) < globalRate b)%Z /\
    events b' = recentLogoutEvents (events b) (tadd now (- window b)) ++ [now] /\
    (forall s, (0 <= usedBy b s)%Z -> usedBy b' s = (usedBy b s + one (bool_decide (source = s)))%Z) /\
    (Z.of_nat (size (sources b')) <= Z.max (sourceCapacity b) (Z.of_nat (size (sources b))))%Z
  else
    b_used b' = b_used b /\ sources b' = sources b /\
    (events b' = events b \/ events b' = recentLogoutEvents (events b) (tadd now (- window b))).
Proof.
  intros Hp. unfold claim. case_match eqn:Hf; [intros [= <- <-]; by repeat split; auto |].
  unfold with_state. cbn. case_match eqn:Hfull.
  { intros [= <- <-]. by repeat split; auto. }
  breflect. unfold same_limits, usedBy. destruct (sources b !! source) as [h |] eqn:Hk; cbn.
  - intros [= <- <-]. cbn in *. repeat split; auto; times; breflect; auto.
    + intros s _. case_bool_decide as E; [subst; by rewrite lookup_insert_eq, Hk |].
      rewrite lookup_insert_ne by done. cbn. lia.
    + rewrite map_size_insert_Some by done. lia.
  - destruct (evictLogoutSource _ order) as [c room] eqn:He.
    destruct room; cbn; [| intros [= <- <-]].
    + apply evict_spec in He; [| done]. cbn in He.
      destruct He as (Hlim & Hu & Hev & Hfu & Hsz & Hszle & Hsrc).
      destruct Hlim as (? & ? & ? & ? & ? & ?).
      cbn in *. intros [= <- <-]. cbn. rewrite Hu, Hev. times. breflect.
      repeat split; auto; [| ].
      * intros s Hs. case_bool_decide as E; [subst; by rewrite lookup_insert_eq, Hk |].
        rewrite lookup_insert_ne by done. destruct Hsrc as [-> | (k & hk & Hlk & Hw & ->)]; cbn; [lia |].
        destruct (decide (k = s)) as [-> | Hne]; [| rewrite lookup_delete_ne by done; cbn; lia].
        rewrite lookup_delete_eq, Hlk in *. cbn in *. lia.
      * destruct (sources c !! source) eqn:Hc.
        -- rewrite map_size_insert_Some by done. lia.
        -- rewrite map_size_insert_None by done. lia.
    + unfold evictLogoutSource in He. repeat case_match; try done. injection He as <-. cbn.
      by repeat split; auto.
Qed.

Lemma usedBy_release b source s :
  usedBy (release b source) s = (usedBy b s - one (bool_decide (source = s)))%Z.
Proof.
  unfold usedBy, release, with_state. cbn. case_bool_decide as E.
  - subst. by rewrite lookup_insert_eq.
  - rewrite lookup_insert_ne by done. cbn. lia.
Qed.

Lemma same_limits_trans a b c : same_limits a b -> same_limits b c -> same_limits a c.
Proof. unfold same_limits. intuition congruence. Qed.

Lemma step_limits r r' : step r r' -> same_limits (bud r') (bud r).
Proof.
  destruct 1; cbn; [.. | done | done | done];
    by eapply claim_spec in H1 as [? _].
Qed.

Lemma past_later (l : list time) (a b : time) :
  (a <= b)%Z -> Forall (fun x => (x <= a)%Z) l -> Forall (fun x => (x <= b)%Z) l.
Proof. intros Hab H. eapply List.Forall_impl; [| exact H]. cbn. intros. lia. Qed.

Lemma inv_claim r source now order b' :
  inv r -> (clock r <= now)%Z -> order ≡ₚ map_to_list (sources (bud r)) ->
  claim (bud r) source now order = (b', true) ->
  inv (MkRun b' (toks r ++ [(source, false)]) now (granted r ++ [now])).
Proof.
  intros [Hu Hc Hs Hp Hcap Hpast Hsort (dr & Hh & Hd) Hr] Hnow Hord Hcl.
  apply claim_spec in Hcl as ((L1 & L2 & L3 & L4 & L5 & L6) & Hf & Hfu & Hu' & Hlt & Hsl & Hrl & Hev & Hus & Hsz);
    [| done].
  destruct (trim_hist (granted r) dr (events (bud r)) now (window (bud r))) as (d & Hhd & Hdd);
    [done | eapply past_later; [| exact Hd]; lia |].
  pose proof (outstanding_claim (toks r) source) as Hoc.
  split; cbn; rewrite ?L1, ?L2, ?L3, ?L4, ?L5, ?Hu', ?Hev.
  - rewrite outstandingAll_claim. lia.
  - lia.
  - intros s. rewrite Hoc, Hus, Hs; [done |]. rewrite Hs. apply outstanding_nonneg.
  - intros s. rewrite Hoc. specialize (Hp s). rewrite Hs in Hsl.
    case_bool_decide; subst; unfold one; lia.
  - lia.
  - apply Forall_app. split; [eapply past_later; [| eassumption]; lia |]. apply List.Forall_cons; [apply Z.le_refl | apply List.Forall_nil].
  - apply sorted_snoc; [done |]. eapply past_later; [| eassumption]; lia.
  - exists d. split; [| done]. rewrite app_assoc. f_equal. exact Hhd.
  - eapply grant_rate; [exact Hhd | exact Hdd | | done]. lia.
Qed.

Lemma logouts_step r r' : inv r -> step r r' -> inv r'.
Proof.
  intros Hi Hst. destruct Hst as [r source now order b' Hn Ho Hc | r source now order b' Hn Ho Hc
    | r i source Hk | | r now Hn]; [by eapply inv_claim | | | done |].
  - destruct Hi as [Hu Hco Hs Hp Hcap Hpast Hsort (dr & Hh & Hd) Hr].
    apply claim_spec in Hc as ((L1 & L2 & L3 & L4 & L5 & L6) & Hf & Hu' & Hsr & Hev); [| done].
    assert (Hd' : Forall (fun a => (a <= now - window (bud r))%Z) dr)
      by (eapply past_later; [| exact Hd]; lia).
    split; cbn; unfold usedBy in *; rewrite ?L1, ?L2, ?L3, ?L4, ?L5, ?Hu', ?Hsr; auto.
    + eapply past_later; [| eassumption]; lia.
    + destruct Hev as [-> | ->]; [by exists dr |]. by eapply trim_hist.
  - destruct Hi as [Hu Hco Hs Hp Hcap Hpast Hsort Hh Hr].
    pose proof (outstandingAll_release _ _ _ Hk) as Hra.
    assert (Hro := fun s => outstanding_release _ _ _ s Hk).
    pose proof (outstanding_pos _ _ _ Hk) as Hpos.
    split; cbn; auto; [lia | lia | | |].
    + intros s. by rewrite usedBy_release, Hro, Hs.
    + intros s. rewrite Hro. specialize (Hp s). case_bool_decide; unfold one; lia.
    + rewrite <- Hs in Hpos. unfold usedBy in Hpos. destruct (sources (bud r) !! source) eqn:E.
      * rewrite map_size_insert_Some; [done |]. by exists l.
      * cbn in Hpos. lia.
  - destruct Hi as [Hu Hco Hs Hp Hcap Hpast Hsort (dr & Hh & Hd) Hr].
    split; cbn; auto; [eapply past_later; [| eassumption]; lia |]. exists dr. split; [done |].
    eapply past_later; [| exact Hd]. lia.
Qed.

Definition fresh (b : budget) : Prop := b_used b = 0%Z /\ events b = [] /\ sources b = ∅.

Lemma logouts_start b : fresh b -> inv (start b).
Proof.
  intros (Hu & He & Hs). split; cbn; unfold usedBy; rewrite ?Hu, ?He, ?Hs; auto; try (cbn; lia).
  - intros s. change (outstanding [] s) with 0%Z. lia.
  - change (Z.of_nat (size ∅)) with 0%Z. lia.
  - constructor.
  - exists []. auto.
  - intros t. change (grantedIn (window b) t []) with 0%Z. lia.
Qed.

Lemma logouts_reach r r' : inv r -> rtc step r r' -> inv r' /\ same_limits (bud r') (bud r).
Proof.
  intros Hi Hst. induction Hst as [r | r r1 r2 H1 H2 IH]; [by split; [done | repeat split] |].
  destruct IH as [IH1 IH2]; [by eapply logouts_step |]. split; [done |].
  eapply same_limits_trans; [done | by apply step_limits].
Qed.

(** C20: however many logout requests arrive, from whatever sources and with
    whatever failures in between, the verifications granted in any window of
    time, wherever it ends, are at most the global rate. *)
Theorem logout_rate_bounded (b : budget) (r : run) (t : time) :
  fresh b -> rtc step (start b) r ->
  (grantedIn (window b) t (granted r) <= Z.max 0 (globalRate b))%Z.
Proof.
  intros Hf Hr. apply logouts_reach in Hr as [Hi (_ & _ & L3 & _ & L5 & _)]; [| by apply logouts_start].
  cbn in L3, L5. pose proof (i_rate r Hi t) as H. by rewrite L3, L5 in H.
Qed.

(** The verifications running at once are exactly those granted and not
    released, at most the global bound together and the source bound for one
    source, and the sources remembered never exceed the capacity: evicting a
    source never forgets one that is running. *)
Theorem logout_concurrency_bounded (b : budget) (r : run) (s : string) :
  fresh b -> rtc step (start b) r ->
  b_used (bud r) = outstandingAll (toks r) /\ usedBy (bud r) s = outstanding (toks r) s /\
  (outstandingAll (toks r) <= Z.max 0 (globalConcurrent b))%Z /\
  (outstanding (toks r) s <= Z.max 0 (sourceConcurrent b))%Z /\
  (Z.of_nat (size (sources (bud r))) <= Z.max 0 (sourceCapacity b))%Z.
Proof.
  intros Hf Hr. apply logouts_reach in Hr as [Hi (L1 & L2 & _ & L4 & _)]; [| by apply logouts_start].
  cbn in *. destruct Hi as [Hu Hc Hs Hp Hcap _ _ _ _]. rewrite L1, L2, L4 in *.
  repeat split; auto. by rewrite <- Hu.
Qed.

Lemma step_cooling r r' until :
  (until <= failureUntil (bud r))%Z -> (until <= clock r + cooldown (bud r))%Z ->
  step r r' ->
  (until <= failureUntil (bud r'))%Z /\ (until <= clock r' + cooldown (bud r'))%Z.
Proof.
  intros H1 H2 Hst. pose proof (step_limits _ _ Hst) as (_ & _ & _ & _ & _ & Hcd).
  destruct Hst; cbn in *; rewrite ?Hcd; [| | done | done |].
  - eapply claim_spec in H3 as (_ & Hf & _); [| done]. rewrite Hf. split; [done | lia].
  - eapply claim_spec in H3 as (_ & Hf & _); [| done]. rewrite Hf. split; [done | lia].
  - times. split; lia.
Qed.

Lemma rtc_cooling r r' until :
  rtc step r r' -> (until <= failureUntil (bud r))%Z ->
  (until <= clock r + cooldown (bud r))%Z -> (until <= failureUntil (bud r'))%Z.
Proof.
  induction 1 as [r | r r1 r2 Hs _ IH]; [done |]. intros H1 H2.
  destruct (step_cooling r r1 until) as [H3 H4]; auto.
Qed.

(** After a failed verification every claim is refused until the cooldown
    has passed, whatever claims, releases and failures come in between. *)
Theorem logout_cooldown (r r' : run) (now t : time) (source : string)
    (order : list (string * logoutSourceWindow)) :
  rtc step (MkRun (failed (bud r) now) (toks r) now (granted r)) r' ->
  (t < now + cooldown (bud r))%Z ->
  claim (bud r') source t order = (bud r', false).
Proof.
  intros Hr Ht.
  assert (H : (now + cooldown (bud r) <= failureUntil (bud r'))%Z).
  { eapply rtc_cooling; [exact Hr | |]; cbn; times; lia. }
  unfold claim. times. by replace (t <? failureUntil (bud r'))%Z with true
    by (symmetry; apply Z.ltb_lt; lia).
Qed.

(** ** Examples: two claims of one source, then one that must wait. *)

Definition idle : run := start newLogoutVerificationBudget.
Definition held1 : budget := (claim newLogoutVerificationBudget "10.0.0.7" 100 []).1.
Definition run1 : run := MkRun held1 [("10.0.0.7", false)] 100 [100%Z].

Lemma idle_step : rtc step idle run1.
Proof.
  apply rtc_once. apply (step_claim idle "10.0.0.7" 100 [] held1); cbn; [lia | | reflexivity].
  by rewrite map_to_list_empty.
Qed.

Lemma logout_rate_bounded_witness : (grantedIn Minute 100 [100%Z] <= 32)%Z.
Proof.
  exact (logout_rate_bounded newLogoutVerificationBudget run1 100%Z
    (conj eq_refl (conj eq_refl eq_refl)) idle_step).
Defined.

Lemma logout_concurrency_bounded_witness : usedBy held1 "10.0.0.7" = 1%Z.
Proof.
  exact (proj1 (proj2 (logout_concurrency_bounded newLogoutVerificationBudget run1 "10.0.0.7"
    (conj eq_refl (conj eq_refl eq_refl)) idle_step))).
Defined.

Lemma logout_cooldown_witness :
  claim (failed held1 200) "10.0.0.8" (200 + 4 * Second) [] = (failed held1 200, false).
Proof.
  apply (logout_cooldown run1 (MkRun (failed held1 200) [("10.0.0.7", false)] 200 [100%Z]) 200).
  - apply rtc_refl.
  - vm_compute. reflexivity.
Defined.

End LogoutLimits.
