(* ===== verification/Config.v ===== *)
(** internal/auth/config.go: the authentication settings, their defaults and
    what is refused at start.  net/url's Parse and net's ParseIP are the class
    [Net]: the parts of a parsed URL the checks read, and whether an address
    is a loopback one. *)

From Stdlib Require Import Ascii.
From S2P Require Import Prelude Identity.

Record URL := MkURL {
  url_Scheme : string;
  url_Host : string;
  url_Hostname : string;
  url_User : bool;
}.

(** [IsAbs]: the URL has a scheme. *)
Definition IsAbs (u : URL) : bool := bool_decide (url_Scheme u <> "").

Class Net := {
  url_Parse : string -> option URL;
  ParseIP_loopback : string -> option bool;
}.

Module Config.
Import Identity.

Definition ModeNone : string := "none".
Definition ModeProxy : string := "proxy".
Definition ModeOIDC : string := "oidc".
Definition modes : list string := [ModeNone; ModeProxy; ModeOIDC].

Definition DefaultUserHeader : string := "X-Forwarded-User".
Definition DefaultGroupsHeader : string := "X-Forwarded-Groups".
Definition DefaultProxyAuthHeader : string := "X-Spinoza-Proxy-Secret".
Definition DefaultGroupsClaim : string := "groups".
Definition DefaultUsernameKeys : string := "preferred_username,email,sub".
Definition DefaultSessionTTL : duration := (8 * Hour)%Z.
Definition DefaultSessionMax : duration := (24 * Hour)%Z.
Definition DefaultProxyWSMaxAge : duration := (5 * Minute)%Z.
Definition maximumProxyWSMaxAge : duration := (15 * Minute)%Z.
Definition minimumSecretBytes : Z := 32.
Definition DefaultScopes : list string := ["openid"; "profile"; "email"; "groups"].

Record ProxyConfig := MkProxyConfig {
  UserHeader : string;
  GroupsHeader : string;
  SecretHeader : string;
  SharedSecret : string;
  LogoutURL : string;
  WebSocketMaxAge : duration;
}.

Record OIDCConfig := MkOIDCConfig {
  IssuerURL : string;
  InternalIssuerURL : string;
  ClientID : string;
  ClientSecret : string;
  RedirectURL : string;
  Scopes : list string;
  GroupsClaim : string;
  UsernameClaims : list string;
  UsernamePrefix : string;
  GroupsPrefix : string;
  PostLogoutURL : string;
  CACertFile : string;
  InsecureSkipVerify : bool;
  UnsafeAllowHTTP : bool;
  BackchannelLogout : bool;
}.

Record Config := MkConfig {
  Mode : string;
  PublicURL : string;
  AllowAnonymous : bool;
  SessionSecret : string;
  SessionTTL : duration;
  SessionMaxAge : duration;
  DefaultRole : string;
  AdminGroups : list string;
  EditorGroups : list string;
  ViewerGroups : list string;
  Proxy : ProxyConfig;
  OIDC : OIDCConfig;
}.

(** [if s == "" { s = d }] *)
Definition or_default (s d : string) : string := if bool_decide (s = "") then d else s.

Definition withDefaults (cfg : Config) : Config :=
  let p := Proxy cfg in
  let o := OIDC cfg in
  MkConfig (or_default (Mode cfg) ModeNone) (PublicURL cfg) (AllowAnonymous cfg) (SessionSecret cfg)
    (if (SessionTTL cfg <=? 0)%Z then DefaultSessionTTL else SessionTTL cfg)
    (if (SessionMaxAge cfg <=? 0)%Z then DefaultSessionMax else SessionMaxAge cfg)
    (or_default (DefaultRole cfg) RoleViewer)
    (AdminGroups cfg) (EditorGroups cfg) (ViewerGroups cfg)
    (MkProxyConfig (or_default (UserHeader p) DefaultUserHeader)
       (or_default (GroupsHeader p) DefaultGroupsHeader)
       (or_default (SecretHeader p) DefaultProxyAuthHeader)
       (SharedSecret p) (LogoutURL p)
       (if (WebSocketMaxAge p =? 0)%Z then DefaultProxyWSMaxAge else WebSocketMaxAge p))
    (MkOIDCConfig (IssuerURL o) (InternalIssuerURL o) (ClientID o) (ClientSecret o) (RedirectURL o)
       (match Scopes o with [] => DefaultScopes | _ => Scopes o end)
       (or_default (GroupsClaim o) DefaultGroupsClaim)
       (match UsernameClaims o with
        | [] => str_split (Ascii.ascii_of_N 44) DefaultUsernameKeys
        | _ => UsernameClaims o end)
       (UsernamePrefix o) (GroupsPrefix o) (PostLogoutURL o) (CACertFile o)
       (InsecureSkipVerify o) (UnsafeAllowHTTP o) (BackchannelLogout o)).

(** The refusals, one constructor per message of the code. *)
Inductive configError :=
| UnknownMode
| TTLOverCap
| SecretTooShort
| NeedsAnonymous
| ProxySecretTooShort
| WSMaxAgeNegative
| WSMaxAgeTooLong
| UnknownDefaultRole
| NeedsIssuer
| NeedsClientID
| NeedsRedirect
| BadURL (name : string)
| NotAbsolute (name : string)
| HasCredentials (name : string)
| NotHTTPS (name : string)
| PlaintextRefused (name : string)
| NotWeb (name : string)
| HasFragment (name : string)
| TwoTrusts.

Definition strlen (s : string) : Z := Z.of_nat (String.length s).

Definition validateSession (cfg : Config) : option configError :=
  if (SessionMaxAge cfg <? SessionTTL cfg)%Z then Some TTLOverCap
  else if ((0 <? strlen (SessionSecret cfg)) && (strlen (SessionSecret cfg) <? minimumSecretBytes))%Z
  then Some SecretTooShort
  else None.

Definition validateProxy (pc : ProxyConfig) : option configError :=
  if (strlen (SharedSecret pc) <? minimumSecretBytes)%Z then Some ProxySecretTooShort
  else if (WebSocketMaxAge pc <? 0)%Z then Some WSMaxAgeNegative
  else if (maximumProxyWSMaxAge <? WebSocketMaxAge pc)%Z then Some WSMaxAgeTooLong
  else None.

(** [subtle.ConstantTimeCompare(raw, secret) == 1] *)
Definition authenticates (pc : ProxyConfig) (raw : string) : bool :=
  bool_decide (raw = SharedSecret pc).

Definition webScheme (scheme : string) : bool :=
  bool_decide (scheme = "http") || bool_decide (scheme = "https").

(** [strings.ToLower] on the ASCII letters: a host is ASCII. *)
Definition lower (c : ascii) : ascii :=
  let n := N_of_ascii c in if ((65 <=? n) && (n <=? 90))%N then ascii_of_N (n + 32) else c.
Definition ToLower (s : string) : string :=
  String.string_of_list_ascii (map lower (String.list_ascii_of_string s)).

Section net.
Context `{!Net}.

Definition loopbackEndpoint (host : string) : bool :=
  if bool_decide (ToLower host = "localhost") || has_suffix (ToLower host) ".localhost" then true
  else match ParseIP_loopback host with None => false | Some loopback => loopback end.

Definition secureEndpoint (name raw : string) (unsafeHTTP : bool) : option configError :=
  match url_Parse raw with
  | None => Some (BadURL name)
  | Some parsed =>
      if negb (IsAbs parsed) || bool_decide (url_Host parsed = "") then Some (NotAbsolute name)
      else if url_User parsed then Some (HasCredentials name)
      else if bool_decide (url_Scheme parsed = "https") then None
      else if bool_decide (url_Scheme parsed <> "http") then Some (NotHTTPS name)
      else if loopbackEndpoint (url_Hostname parsed) then None
      else if unsafeHTTP then None
      else Some (PlaintextRefused name)
  end.

Definition validateIssuerEndpoints (oc : OIDCConfig) : option configError :=
  match secureEndpoint "oidc issuer url" (IssuerURL oc) (UnsafeAllowHTTP oc) with
  | Some e => Some e
  | None =>
      if bool_decide (InternalIssuerURL oc = "") then None
      else secureEndpoint "oidc internal issuer url" (InternalIssuerURL oc) (UnsafeAllowHTTP oc)
  end.

Definition validateRedirect (oc : OIDCConfig) : option configError :=
  if bool_decide (RedirectURL oc = "") then Some NeedsRedirect
  else match url_Parse (RedirectURL oc) with
  | None => Some (BadURL "oidc redirect url")
  | Some parsed =>
      if negb (IsAbs parsed) then Some (NotAbsolute "oidc redirect url")
      else if bool_decide (url_Host parsed = "") then Some (NotAbsolute "oidc redirect url")
      else if negb (webScheme (url_Scheme parsed)) then Some (NotWeb "oidc redirect url")
      else if url_User parsed then Some (HasCredentials "oidc redirect url")
      else if str_contains (RedirectURL oc) "#" then Some (HasFragment "oidc redirect url")
      else if InsecureSkipVerify oc && bool_decide (CACertFile oc <> "") then Some TwoTrusts
      else None
  end.

Definition validateOIDC (oc : OIDCConfig) : option configError :=
  if bool_decide (IssuerURL oc = "") then Some NeedsIssuer
  else if bool_decide (ClientID oc = "") then Some NeedsClientID
  else match validateIssuerEndpoints oc with
  | Some e => Some e
  | None => validateRedirect oc
  end.

Definition Validate (cfg : Config) : option configError :=
  if negb (contains modes (Mode cfg)) then Some UnknownMode
  else match validateSession cfg with
  | Some e => Some e
  | None =>
      if bool_decide (Mode cfg = ModeNone) && bool_decide (PublicURL cfg <> "") &&
         negb (AllowAnonymous cfg) then Some NeedsAnonymous
      else match (if bool_decide (Mode cfg = ModeProxy) then validateProxy (Proxy cfg) else None) with
      | Some e => Some e
      | None =>
          if negb (KnownRole (DefaultRole cfg)) then Some UnknownDefaultRole
          else if bool_decide (Mode cfg <> ModeOIDC) then None
          else validateOIDC (OIDC cfg)
      end
  end.

(** ** What validation promises *)

(** An endpoint passes exactly when it is an absolute URL without credentials
    over https, or over http where that is safe or allowed. *)
Definition endpoint_ok (raw : string) (unsafeHTTP : bool) : Prop :=
  exists u, url_Parse raw = Some u /\ url_Host u <> "" /\ url_User u = false /\
    (url_Scheme u = "https" \/
     url_Scheme u = "http" /\ (loopbackEndpoint (url_Hostname u) = true \/ unsafeHTTP = true)).

Lemma secureEndpoint_spec name raw unsafeHTTP :
  secureEndpoint name raw unsafeHTTP = None <-> endpoint_ok raw unsafeHTTP.
Proof.
  unfold secureEndpoint, endpoint_ok, IsAbs. destruct (url_Parse raw) as [u |]; [| split; [done | by intros (u & ? & _)]].
  trans (url_Host u <> "" /\ url_User u = false /\ (url_Scheme u = "https" \/
     url_Scheme u = "http" /\ (loopbackEndpoint (url_Hostname u) = true \/ unsafeHTTP = true))).
  2: { split; [by exists u | by intros (v & [= ->] & ?)]. }
  destruct (url_User u), (loopbackEndpoint (url_Hostname u)), unsafeHTTP;
    repeat case_bool_decide; cbn; intuition congruence.
Qed.

(** Which configurations start, by mode. *)
Definition startable (cfg : Config) : Prop :=
  (SessionTTL cfg <= SessionMaxAge cfg)%Z /\
  (SessionSecret cfg = "" \/ (minimumSecretBytes <= strlen (SessionSecret cfg))%Z) /\
  KnownRole (DefaultRole cfg) = true /\
  ((Mode cfg = ModeNone /\ (PublicURL cfg = "" \/ AllowAnonymous cfg = true)) \/
   (Mode cfg = ModeProxy /\ (minimumSecretBytes <= strlen (SharedSecret (Proxy cfg)))%Z /\
    (0 <= WebSocketMaxAge (Proxy cfg) <= maximumProxyWSMaxAge)%Z) \/
   (Mode cfg = ModeOIDC /\ IssuerURL (OIDC cfg) <> "" /\ ClientID (OIDC cfg) <> "" /\
    endpoint_ok (IssuerURL (OIDC cfg)) (UnsafeAllowHTTP (OIDC cfg)) /\
    (InternalIssuerURL (OIDC cfg) = "" \/
     endpoint_ok (InternalIssuerURL (OIDC cfg)) (UnsafeAllowHTTP (OIDC cfg))) /\
    validateRedirect (OIDC cfg) = None)).

Lemma validateSession_spec cfg :
  validateSession cfg = None <->
  (SessionTTL cfg <= SessionMaxAge cfg)%Z /\
  (SessionSecret cfg = "" \/ (minimumSecretBytes <= strlen (SessionSecret cfg))%Z).
Proof.
  unfold validateSession. destruct (SessionSecret cfg) as [| c s] eqn:Hs.
  - cbn. unfold duration in *. zcases; cbn; intuition (done || lia).
  - assert (0 < strlen (String c s))%Z by (unfold strlen; cbn; lia).
    unfold duration in *. zcases; cbn; intuition (done || lia).
Qed.

Lemma validateProxy_spec pc :
  validateProxy pc = None <->
  (minimumSecretBytes <= strlen (SharedSecret pc))%Z /\
  (0 <= WebSocketMaxAge pc <= maximumProxyWSMaxAge)%Z.
Proof. unfold validateProxy, duration in *. zcases; intuition (done || lia). Qed.

Lemma validateOIDC_spec oc :
  validateOIDC oc = None <->
  IssuerURL oc <> "" /\ ClientID oc <> "" /\ endpoint_ok (IssuerURL oc) (UnsafeAllowHTTP oc) /\
  (InternalIssuerURL oc = "" \/ endpoint_ok (InternalIssuerURL oc) (UnsafeAllowHTTP oc)) /\
  validateRedirect oc = None.
Proof.
  unfold validateOIDC, validateIssuerEndpoints.
  rewrite <- (secureEndpoint_spec "oidc issuer url"), <- (secureEndpoint_spec "oidc internal issuer url").
  destruct (secureEndpoint "oidc issuer url" _ _), (secureEndpoint "oidc internal issuer url" _ _);
    repeat case_bool_decide; intuition (done || congruence).
Qed.

(** A configuration is accepted exactly when its sessions are bounded, its
    secrets long enough and its mode safe to serve: no anonymous cluster mode
    unless asked for, no proxy trust without a long shared secret, no identity
    provider over plaintext except on loopback or by explicit opt-in. *)
Theorem Validate_spec (cfg : Config) : Validate cfg = None <-> startable cfg.
Proof.
  unfold Validate, startable. pose proof (validateSession_spec cfg) as Hs.
  pose proof (validateProxy_spec (Proxy cfg)) as Hp. pose proof (validateOIDC_spec (OIDC cfg)) as Ho.
  destruct (contains modes (Mode cfg)) eqn:Hm; cbn.
  - apply contains_spec in Hm.
    assert (Hcases : Mode cfg = ModeNone \/ Mode cfg = ModeProxy \/ Mode cfg = ModeOIDC)
      by (unfold modes in Hm; set_solver).
    destruct (validateSession cfg); [intuition done |].
    destruct (KnownRole (DefaultRole cfg)); cbn.
    + destruct Hcases as [E | [E | E]]; rewrite E; cbn;
        [destruct (AllowAnonymous cfg); repeat case_bool_decide; cbn | destruct (validateProxy _) | ];
        intuition (done || congruence).
    + split; [| intuition done]. repeat case_match; done.
  - split; [done |]. intros (_ & _ & _ & Hmode). assert (Mode cfg ∈ modes) as Hin.
    { unfold modes. destruct Hmode as [[-> _] | [[-> _] | [-> _]]]; set_solver. }
    by apply contains_spec in Hin; congruence.
Qed.
End net.

End Config.
