(* ===== verification/Authenticator.v ===== *)
(** internal/auth/auth.go and oidc.go: who a request speaks for, the sign-in
    callback, signing out and the back-channel logout, composed from the
    sessions, revocations and budgets of the files before.  The go-oidc and
    oauth2 packages are the class [Provider]; a parsed request is a record of
    what the handlers read of it. *)

From Stdlib Require Import Ascii.
From S2P Require Import Prelude Unstr Codec Identity Session Revocations Limits LogoutLimits Config.

Module Authenticator.
Import Identity Session Revocations Config.

Definition flashLifetime : duration := Minute.
Definition returnParam : string := "next".
Definition flashCookie : string := "spinoza_login_error".
Definition flowCookie : string := "spinoza_login".
Definition flowLifetime : duration := (10 * Minute)%Z.
Definition maxLogoutTokenBytes : Z := 16384.
Definition maxConsumedFlows : Z := 4096.
Definition backchannelEvent : string := "http://schemas.openid.net/event/backchannel-logout".

(** A request, parsed by net/http. *)
Record request := MkRequest {
  Header : string -> string;
  Cookie : string -> option string;
  Query : string -> string;
  RemoteAddr : string;
}.

(** ** callbackSource *)

(** [net.SplitHostPort]: the host, when the address has one. *)
Fixpoint last_index (c : ascii) (l : list ascii) (at_ : nat) (found : option nat) : option nat :=
  match l with
  | [] => found
  | d :: l' => last_index c l' (S at_) (if Ascii.eqb c d then Some at_ else found)
  end.

Fixpoint first_index (c : ascii) (l : list ascii) : option nat :=
  match l with
  | [] => None
  | d :: l' => if Ascii.eqb c d then Some 0 else S <$> first_index c l'
  end.

Definition has_byte (c : ascii) (l : list ascii) : bool :=
  match first_index c l with Some _ => true | None => false end.

Definition SplitHost (hostport : string) : option string :=
  let l := String.list_ascii_of_string hostport in
  i ← last_index ":" l 0 None;
  '(host, j, k) ←
    (if has_prefix hostport "[" then
      e ← first_index "]" l;
      if bool_decide (e + 1 = i) then Some (take (e - 1) (skipn 1 l), 1, e + 1) else None
    else
      if has_byte ":" (take i l) then None else Some (take i l, 0, 0));
  if has_byte "[" (skipn j l) || has_byte "]" (skipn k l) then None
  else Some (String.string_of_list_ascii host).

Definition callbackSource (r : request) : string :=
  match SplitHost (RemoteAddr r) with
  | Some host =>
      if bool_decide (host <> "") then host
      else if bool_decide (RemoteAddr r <> "") then RemoteAddr r else "unknown"
  | None => if bool_decide (RemoteAddr r <> "") then RemoteAddr r else "unknown"
  end.

(** ** Identify *)

(** What [New] builds of the configuration. *)
Definition newRoleMap (cfg : Config) : roleMap :=
  MkRoleMap (AdminGroups cfg) (EditorGroups cfg) (ViewerGroups cfg) (DefaultRole cfg).

(** The authenticator's fixed part; [oidc] holds the end-session endpoint of
    the provider found, [None] when there is no provider. *)
Record Authenticator := MkAuthenticator {
  cfg : Config;
  a_sessions : sessions;
  roles : roleMap;
  oidc : option string;
}.

(** Its changing part. *)
Record registers := MkRegisters {
  revoked_ : revocations;
  flows : Limits.consumedFlows;
  exchanges : Limits.exchangeBudget;
  logouts : LogoutLimits.budget;
}.

(** [newAuthenticator], once the configuration with its defaults is valid:
    [secret] is the configured secret or a generated one, [secure] whether the
    public URL is https, [found] the provider's discovery. *)
Definition newAuthenticator (given : Config) (secret : string) (secure : bool) (found : option string) :
    Authenticator * registers :=
  let c := withDefaults given in
  (MkAuthenticator c (MkSessions secret (SessionTTL c) (SessionMaxAge c) secure) (newRoleMap c) found,
   MkRegisters (newRevocations (SessionMaxAge c)) (Limits.newConsumedFlows maxConsumedFlows)
     (Limits.newExchangeBudget 8 4) LogoutLimits.newLogoutVerificationBudget).

Definition fromHeaders (a : Authenticator) (r : request) : option Identity :=
  if negb (authenticates (Proxy (cfg a)) (Header r (SecretHeader (Proxy (cfg a))))) then None
  else
    let user := TrimSpace (Header r (UserHeader (Proxy (cfg a)))) in
    if bool_decide (user = "") then None
    else
      let groups := ParseList (Header r (GroupsHeader (Proxy (cfg a)))) in
      Some (MkIdentity user groups (forGroups (roles a) groups) user).

Definition sameIdentity (left right : Identity) : bool :=
  if bool_decide (User left <> User right) || bool_decide (Role left <> Role right) ||
     bool_decide (Session left <> Session right) then false
  else bool_decide (Groups left = Groups right).

Definition LiveSessionLimit (a : option Authenticator) : duration :=
  match a with
  | None => 0%Z
  | Some a => if bool_decide (Mode (cfg a) <> ModeProxy) then 0%Z else WebSocketMaxAge (Proxy (cfg a))
  end.

Section identify.
Context `{!JSON sessionClaims}.

(** [fromSession]: the identity, and the cookie a renewal sets. *)
Definition fromSession (a : Authenticator) (rv : revocations) (r : request) (now : time) :
    revocations * option Identity * option cookie :=
  match read (a_sessions a) (Cookie r SessionCookie) now with
  | None => (rv, None, None)
  | Some held =>
      let '(rv, gone) := revoked rv (Session (who held)) now in
      if gone then (rv, None, None)
      else
        let renewed :=
          if halfSpent (a_sessions a) (expires held) now && renewable (a_sessions a) (issued held) now then
            match issue (a_sessions a) (who held) (issued held) now with Ok c => Some c | Err _ => None end
          else None in
        (rv, Some (who held), renewed)
  end.

Definition Identify (a : Authenticator) (rv : revocations) (r : request) (now : time) :
    revocations * option Identity * option cookie :=
  if bool_decide (Mode (cfg a) = ModeNone) then (rv, Some (MkIdentity "" [] RoleAdmin ""), None)
  else if bool_decide (Mode (cfg a) = ModeProxy) then (rv, fromHeaders a r, None)
  else fromSession a rv r now.

Definition StillValid (a : Authenticator) (rv : revocations) (r : request) (expected : Identity)
    (now : time) : revocations * bool :=
  if bool_decide (Mode (cfg a) = ModeNone) then
    (rv, sameIdentity (MkIdentity "" [] RoleAdmin "") expected)
  else if bool_decide (Mode (cfg a) = ModeProxy) then
    (rv, match fromHeaders a r with Some current => sameIdentity current expected | None => false end)
  else
    match read (a_sessions a) (Cookie r SessionCookie) now with
    | None => (rv, false)
    | Some held =>
        let '(rv, gone) := revoked rv (Session (who held)) now in
        if gone then (rv, false) else (rv, sameIdentity (who held) expected)
    end.

(** [Logout]: what it revokes; the session cookie is dropped in any case.
    [awayURL] is [logoutURL], the provider's logout page. *)
Definition afterLogout (a : Authenticator) (awayURL : string) : string :=
  if bool_decide (Mode (cfg a) = ModeProxy) && bool_decide (LogoutURL (Proxy (cfg a)) <> "") then
    LogoutURL (Proxy (cfg a))
  else match oidc a with
  | None => "/"
  | Some _ => if bool_decide (awayURL = "") then "/?prompt=login" else awayURL
  end.

Definition Logout (a : Authenticator) (rv : revocations) (r : request) (awayURL : string)
    (now : time) : revocations * option write * cookie * string :=
  let '(rv, who, _) := Identify a rv r now in
  let '(rv, w) :=
    match who, oidc a with
    | Some who, Some _ => revoke rv (Session who) now
    | _, _ => (rv, None)
    end in
  (rv, w, drop (a_sessions a) SessionCookie, afterLogout a awayURL).
End identify.

Definition landingFrom (r : request) : string :=
  let wanted := Query r returnParam in
  if negb (has_prefix wanted "/") then "/"
  else if has_prefix wanted "//" then "/"
  else if str_contains wanted "\" then "/"
  else wanted.

(** ** oidc.go *)

Definition hashable (c : ascii) : bool :=
  Ascii.eqb c "/" || Ascii.eqb c "?" || Ascii.eqb c "#".

Definition swapBase (endpoint from to : string) : string :=
  if bool_decide (endpoint = "") then ""
  else match strip_prefix from endpoint with
  | None => endpoint
  | Some suffix =>
      match suffix with
      | EmptyString => to
      | String c _ => if negb (hashable c) then endpoint else to +s+ suffix
      end
  end.

(** [askableScopes]: the scopes kept; the dropped ones are only logged. *)
Definition askableScopes (wanted supported : list string) : list string :=
  match supported with
  | [] => wanted
  | _ => List.filter (fun one => bool_decide (one = "openid") || contains supported one) wanted
  end.

Definition forcedLogin (r : request) : bool := bool_decide (Query r "prompt" = "login").

Record flowState := MkFlowState {
  fs_Nonce : string;
  fs_Return : string;
  fs_State : string;
  fs_Verifier : string;
}.

Record logoutClaims := MkLogoutClaims { lc_Events : list string; lc_SID : string; lc_Sub : string }.

(** An ID token go-oidc verified: its nonce and its claims, if they decode. *)
Record idToken := MkIdToken { tok_Nonce : string; tok_Claims : result string claimSet }.

(** The oauth2 and go-oidc packages: [Exchange] trades a code and a verifier
    for a response that may carry a raw id token, [Verify] checks a raw token. *)
Class Provider := {
  Exchange : string -> string -> result string (option string);
  Verify : string -> result string idToken;
  VerifyLogout : string -> result string (result string logoutClaims);
}.

Definition errNoProvider : string := "spinoza was not started with an identity provider".
Definition errStateMismatch : string := "the login did not come back with the state spinoza sent; start again".
Definition errFlowReplay : string := "this login callback was already used; start again".
Definition errFlowRegistryFull : string := "too many login callbacks are awaiting expiry; try again".
Definition errNoIDToken : string := "the identity provider returned no id token".
Definition errNonceMismatch : string := "the id token carries a nonce spinoza did not send".

Definition refusedBy (r : request) : string :=
  let reason := or_default (Query r "error_description") (Query r "error") in
  if bool_decide (reason = "") then "the identity provider came back without an authorization code"
  else "the identity provider refused the login: " +s+ reason.

Section exchange.
Context `{!Provider}.

Definition exchange (r : request) (flow : flowState) : result string (claimSet * string) :=
  let code := Query r "code" in
  if bool_decide (code = "") then Err (refusedBy r)
  else match Exchange code (fs_Verifier flow) with
  | Err e => Err ("the identity provider refused the login: " +s+ e)
  | Ok None => Err errNoIDToken
  | Ok (Some raw) =>
      match Verify raw with
      | Err e => Err ("the id token did not verify: " +s+ e)
      | Ok token =>
          if bool_decide (tok_Nonce token <> fs_Nonce flow) then Err errNonceMismatch
          else match tok_Claims token with
          | Err e => Err ("the id token could not be read: " +s+ e)
          | Ok claims => Ok (claims, fs_Return flow)
          end
      end
  end.

Definition verifyLogoutToken (raw : string) : result string logoutClaims :=
  match VerifyLogout raw with
  | Err e => Err ("the logout token did not verify: " +s+ e)
  | Ok (Err e) => Err ("the logout token could not be read: " +s+ e)
  | Ok (Ok claims) =>
      if negb (contains (lc_Events claims) backchannelEvent) then
        Err "the logout token is not a back-channel logout"
      else if bool_decide (lc_SID claims = "") && bool_decide (lc_Sub claims = "") then
        Err "the logout token names neither a session nor a subject"
      else Ok claims
  end.
End exchange.

(** ** Callback *)

(** What a handler answers: the status, the message or the redirect, and the
    cookies set on the way. *)
Inductive body := Message (m : string) | Redirect (to : string) | Empty.

Record reply := MkReply { status : Z; said : body; set_cookies : list cookie }.

Section callback.
Context `{!JSON sessionClaims, !JSON stashClaims, !JSON flowState, !JSON string, !Provider}.

Definition readFlow (ss : sessions) (r : request) (now : time) : result string flowState :=
  match unstashNamed ss (Cookie r flowCookie) now with
  | None => Err errStateMismatch
  | Some flow =>
      if bool_decide (Query r "state" <> fs_State flow) then Err errStateMismatch else Ok flow
  end.

(** [refuse]: back to the landing page, the reason stashed for it. *)
Definition refuse (a : Authenticator) (err : string) (now : time) : reply :=
  MkReply 302 (Redirect "/")
    (match stash (a_sessions a) flashCookie err flashLifetime now with Ok c => [c] | Err _ => [] end).

Definition dropping (c : cookie) (rep : reply) : reply :=
  MkReply (status rep) (said rep) (c :: set_cookies rep).

(** The callback up to the code exchange: either the answer, or the flow with
    the exchange slot claimed.  The flow cookie is dropped first. *)
Definition callbackBegin (a : Authenticator) (st : registers) (r : request) (now : time) :
    registers * (reply + flowState) :=
  match oidc a with
  | None => (st, inl (MkReply 404 (Message errNoProvider) []))
  | Some _ =>
      let dropped := drop (a_sessions a) flowCookie in
      match readFlow (a_sessions a) r now with
      | Err e => (st, inl (dropping dropped (refuse a e now)))
      | Ok flow =>
          let '(fl, consumed) := Limits.consume (flows st) (fs_State flow) (tadd now flowLifetime) now in
          let st := MkRegisters (revoked_ st) fl (exchanges st) (logouts st) in
          match consumed with
          | Err Limits.FlowRegistryFull =>
              (st, inl (dropping dropped (MkReply 429 (Message errFlowRegistryFull) [])))
          | Err Limits.FlowReplay => (st, inl (dropping dropped (refuse a errFlowReplay now)))
          | Ok _ =>
              if bool_decide (Query r "code" = "") then
                (st, inl (dropping dropped (refuse a (refusedBy r) now)))
              else
                let '(ex, claimed) := Limits.claim (exchanges st) (callbackSource r) in
                let st := MkRegisters (revoked_ st) (flows st) ex (logouts st) in
                if negb claimed then
                  (st, inl (dropping dropped (MkReply 429 (Message "login exchange is busy; try again") [])))
                else (st, inr flow)
          end
      end
  end.

(** The rest, from the code exchange on; it releases the slot last.  [fresh]
    is the random session id drawn when the claims name none. *)
Definition callbackFinish (a : Authenticator) (st : registers) (r : request) (flow : flowState)
    (fresh : string) (now : time) : registers * reply :=
  let dropped := drop (a_sessions a) flowCookie in
  let answer :=
    match exchange r flow with
    | Err e => refuse a e now
    | Ok (claims, back) =>
        match identityFrom (roles a) (UsernameClaims (OIDC (cfg a))) (GroupsClaim (OIDC (cfg a)))
                (UsernamePrefix (OIDC (cfg a))) (GroupsPrefix (OIDC (cfg a))) claims fresh with
        | Err e => refuse a e now
        | Ok who =>
            match issue (a_sessions a) who now now with
            | Err e => MkReply 500 (Message e) []
            | Ok c => MkReply 302 (Redirect back) [c]
            end
        end
    end in
  (MkRegisters (revoked_ st) (flows st) (Limits.release (exchanges st) (callbackSource r)) (logouts st),
   dropping dropped answer).

(** The whole callback, the exchange taking from [now] to [later]. *)
Definition Callback (a : Authenticator) (st : registers) (r : request) (fresh : string)
    (now later : time) : registers * reply :=
  match callbackBegin a st r now with
  | (st, inl rep) => (st, rep)
  | (st, inr flow) => callbackFinish a st r flow fresh later
  end.

(** ** BackchannelLogout *)

(** The posted form: too large, unreadable, or the logout token it carries. *)
Inductive form := FormTooLarge | FormUnreadable | FormRead (logout_token : string).

Definition logoutBegin (a : Authenticator) (st : registers) (r : request) (f : form) (now : time)
    (order : list (string * LogoutLimits.logoutSourceWindow)) : registers * (reply + string) :=
  if bool_decide (oidc a = None) || negb (BackchannelLogout (OIDC (cfg a))) then
    (st, inl (MkReply 404 (Message "back-channel logout is off") []))
  else match f with
  | FormTooLarge => (st, inl (MkReply 413 (Message "the back-channel logout request is too large") []))
  | FormUnreadable => (st, inl (MkReply 400 (Message "the back-channel logout request could not be read") []))
  | FormRead raw =>
      if bool_decide (raw = "") then
        (st, inl (MkReply 400 (Message "the request carried no logout_token") []))
      else if (maxLogoutTokenBytes <? strlen raw)%Z then
        (st, inl (MkReply 413 (Message "the logout token is too large") []))
      else
        let '(lb, claimed) := LogoutLimits.claim (logouts st) (callbackSource r) now order in
        let st := MkRegisters (revoked_ st) (flows st) (exchanges st) lb in
        if negb claimed then
          (st, inl (MkReply 429 (Message "back-channel logout verification is busy; try again") []))
        else (st, inr raw)
  end.

Definition logoutFinish (st : registers) (r : request) (raw : string) (now : time) :
    registers * reply :=
  let '(rv, lb, rep) :=
    match verifyLogoutToken raw with
    | Err e => (revoked_ st, LogoutLimits.failed (logouts st) now, MkReply 400 (Message e) [])
    | Ok claims =>
        if bool_decide (lc_SID claims = "") then (revoked_ st, logouts st, MkReply 200 Empty [])
        else ((revoke (revoked_ st) (lc_SID claims) now).1, logouts st, MkReply 200 Empty [])
    end in
  (MkRegisters rv (flows st) (exchanges st) (LogoutLimits.release lb (callbackSource r)), rep).
End callback.

(** ** Signing out *)

Section logout.
Context `{!JSON sessionClaims} {valid : sessionClaims -> Prop} `{!JSONRoundTrip sessionClaims valid}.

Lemma fromSession_revoked a rv r now s :
  read (a_sessions a) (Cookie r SessionCookie) now = Some s ->
  (revoked rv (Session (who s)) now).2 = true ->
  (fromSession a rv r now).1.2 = None.
Proof. intros Hr Hv. unfold fromSession. rewrite Hr. destruct (revoked rv _ now) as [rv' g]. cbn in *. by subst. Qed.

Lemma Identify_session a rv r now :
  Mode (cfg a) = ModeOIDC -> Identify a rv r now = fromSession a rv r now.
Proof. intros Hm. unfold Identify. by rewrite Hm. Qed.

(** C1: signing out ends the sign-in for good.  Once one cookie of a sign-in was
    used to sign out, no cookie that sign-in ever led to, by whatever chain of
    renewals, identifies anybody again, at any later time and after any later
    revocations and checks: as long as a cookie would still open, its session
    is remembered as revoked. *)
Theorem logout_ends_session (a : Authenticator) (rv : revocations) (r r' : request) (away : string)
    (w : Identity) (i0 t0 t : time) (value value' : string) (calls : list call) (i' : Identity) :
  (forall i e, valid (claimsOf w i e)) ->
  within rv = maxAge (a_sessions a) -> oidc a <> None ->
  Mode (cfg a) = ModeOIDC -> Session w <> "" -> (i0 <= t0 <= t)%Z ->
  renewals (a_sessions a) w i0 value -> Cookie r SessionCookie = Some value ->
  renewals (a_sessions a) w i0 value' -> Cookie r' SessionCookie = Some value' ->
  (Identify a rv r t0).1.2 <> None ->
  Forall (call_ok (Session w) (t0 + within rv)%Z t0 t) calls ->
  let rv' := run (Logout a rv r away t0).1.1.1 calls in
  (Identify a rv' r' t).1.2 = None /\ (StillValid a rv' r' i' t).2 = false.
Proof using JSONRoundTrip0.
  intros Hv Hw Ho Hm Hs Ht Hr1 Hc1 Hr2 Hc2 Hid Hcalls rv'.
  unfold StillValid. rewrite Identify_session in * by done. rewrite Hm. cbn [bool_decide].
  replace (bool_decide (ModeOIDC = ModeNone)) with false by done.
  replace (bool_decide (ModeOIDC = ModeProxy)) with false by done.
  assert (Hgone : (t < t0 + within rv)%Z -> (revoked rv' (Session w) t).2 = true).
  { intros Hlt. subst rv'. unfold Logout. rewrite Identify_session by done.
    unfold fromSession in *. rewrite Hc1 in *. cbn in *.
    destruct (decode (a_sessions a) value t0) as [s |] eqn:Hd; [| done].
    destruct (renewals_decode _ _ _ _ _ _ Hv Hr1 Hd) as (Hws & _). rewrite Hws in *.
    destruct (revoked rv (Session w) t0) as [rv1 g] eqn:Hrv. destruct g; cbn in *; [done |].
    destruct (oidc a); [| done]. cbn.
    assert (Hw1 : within rv1 = within rv).
    { pose proof (step_within rv (IsRevoked (Session w) t0)) as H. cbn in H. by rewrite Hrv in H. }
    destruct (revoke rv1 (Session w) t0) as [rv2 wr] eqn:Hrk.
    pose proof (revoke_effective rv1 (Session w) t0 t calls Hs) as He. cbn in He. rewrite Hrk in He.
    apply He; rewrite Hw1; [lia | done]. }
  destruct (read (a_sessions a) (Cookie r' SessionCookie) t) as [s |] eqn:Hread.
  - pose proof Hread as Hd. rewrite Hc2 in Hd. cbn in Hd.
    destruct (renewals_decode _ _ _ _ _ _ Hv Hr2 Hd) as (Hws & Hi & Hlt & _).
    pose proof (fromUnix_le i0). rewrite Hi in Hlt.
    assert (Hg : (revoked rv' (Session (who s)) t).2 = true) by (rewrite Hws; apply Hgone; lia).
    split; [by eapply fromSession_revoked |]. destruct (revoked rv' (Session (who s)) t) as [rv3 g]. cbn in Hg. by subst.
  - unfold fromSession. by rewrite Hread.
Qed.
End logout.

(** Behind a proxy nobody is identified without the shared secret, which a
    valid configuration makes at least 32 bytes long; the identity is the user
    the proxy names, with the role of the groups it names. *)
Theorem proxy_needs_secret `{!JSON sessionClaims} (a : Authenticator) (rv : revocations)
    (r : request) (now : time) (who : Identity) :
  Mode (cfg a) = ModeProxy -> validateProxy (Proxy (cfg a)) = None ->
  (Identify a rv r now).1.2 = Some who ->
  Header r (SecretHeader (Proxy (cfg a))) = SharedSecret (Proxy (cfg a)) /\
  (32 <= strlen (Header r (SecretHeader (Proxy (cfg a)))))%Z /\
  User who = TrimSpace (Header r (UserHeader (Proxy (cfg a)))) /\ User who <> "" /\
  Role who = forGroups (roles a) (Groups who) /\ Session who = User who.
Proof.
  intros Hm Hv.
  replace (Identify a rv r now) with (rv, fromHeaders a r, @None cookie)
    by (unfold Identify; by rewrite Hm). unfold fromHeaders, authenticates. cbn.
  case_bool_decide as Hs; cbn; [| done]. case_bool_decide as Hu; cbn; [done |]. intros [= <-].
  apply validateProxy_spec in Hv as [Hv _]. rewrite Hs. repeat split; done.
Qed.

Lemma strip_prefix_first p s c : strip_prefix (String c p) s <> None -> exists s', s = String c s'.
Proof. destruct s as [| d s]; cbn; [done |]. destruct (Ascii.eqb_spec c d); [| done]. subst. eauto. Qed.

(** The page a login lands on is a path on this host. *)
Lemma landing_is_local r :
  let to := landingFrom r in
  has_prefix to "/" = true /\ has_prefix to "//" = false /\ str_contains to "\" = false.
Proof.
  unfold landingFrom. generalize (Query r returnParam) as wanted. intros wanted.
  case_match eqn:E1; [done |]. case_match eqn:E2; [done |]. case_match eqn:E3; [done |].
  by apply negb_false_iff in E1.
Qed.

(** ** Signing in *)

Definition signs_in (rep : reply) : Prop := exists c, c ∈ set_cookies rep /\ ck_Name c = SessionCookie.

Section signing_in.
Context `{!JSON sessionClaims, !JSON stashClaims, !JSON flowState, !JSON string, !Provider}.

Lemma refuse_not a e now : ~ signs_in (dropping (drop (a_sessions a) flowCookie) (refuse a e now)).
Proof.
  intros (c & Hc & Hn). cbn in Hc. apply elem_of_cons in Hc as [-> | Hc]; [done |].
  destruct (stash _ _ _ _ _) as [f |] eqn:Hs; [| by apply elem_of_nil in Hc].
  apply list_elem_of_singleton in Hc as ->. unfold stash in Hs. repeat case_match; try done.
  by injection Hs as <-.
Qed.

Lemma message_not a s m : ~ signs_in (dropping (drop (a_sessions a) flowCookie) (MkReply s m [])).
Proof. intros (c & Hc & Hn). cbn in Hc. by apply list_elem_of_singleton in Hc as ->. Qed.

(** What it takes to get past the first half of the callback. *)
Lemma callbackBegin_spec a st r now st' res :
  callbackBegin a st r now = (st', res) ->
  (exists l, flows st' = Limits.attempts (flows st) l /\
     Forall (fun at_ => Limits.at_now at_ = now) l) /\
  match res with
  | inl rep => ~ signs_in rep
  | inr flow =>
      oidc a <> None /\ readFlow (a_sessions a) r now = Ok flow /\
      (Limits.consume (flows st) (fs_State flow) (tadd now flowLifetime) now).2 = Ok tt /\
      flows st' = (Limits.consume (flows st) (fs_State flow) (tadd now flowLifetime) now).1 /\
      Query r "code" <> ""
  end.
Proof.
  unfold callbackBegin. destruct (oidc a); [| intros [= <- <-]; split; [by exists [] |]].
  2: { intros (c & Hc & _). by apply elem_of_nil in Hc. }
  destruct (readFlow _ r now) as [flow | e]; [| intros [= <- <-]; split; [by exists [] | apply refuse_not]].
  destruct (Limits.consume _ _ _ now) as [fl consumed] eqn:Hc.
  assert (Hl : exists l, fl = Limits.attempts (flows st) l /\ Forall (fun at_ => Limits.at_now at_ = now) l).
  { exists [Limits.MkAttempt (fs_State flow) (tadd now flowLifetime) now]. cbn. rewrite Hc.
    split; [done | by repeat constructor]. }
  destruct consumed as [[] | [|]]; cbn;
    [| intros [= <- <-]; split; [done | apply refuse_not] | intros [= <- <-]; split; [done | apply message_not]].
  case_bool_decide; [intros [= <- <-]; split; [done | apply refuse_not] |].
  destruct (Limits.claim _ _) as [ex claimed]. destruct claimed; cbn; intros [= <- <-]; split; try done.
  - rewrite Hc. by repeat split.
  - apply message_not.
Qed.

Lemma Callback_flows a st r fresh now later :
  exists l, flows (Callback a st r fresh now later).1 = Limits.attempts (flows st) l /\
    Forall (fun at_ => Limits.at_now at_ = now) l.
Proof.
  unfold Callback. destruct (callbackBegin a st r now) as [st' res] eqn:E.
  apply callbackBegin_spec in E as [(l & Hl & Hf) _]. exists l. by destruct res.
Qed.

(** C25: a login callback signs somebody in only when everything checks: the
    browser carries a flow this server sealed and the callback names its state,
    the flow was not used before, the provider issued an ID token for this very
    flow (its nonce), and the token names a user; then the session is that
    user's and the browser goes where the flow set out from. *)
Theorem callback_signs_in (a : Authenticator) (st : registers) (r : request) (fresh : string)
    (now later : time) :
  signs_in (Callback a st r fresh now later).2 ->
  exists flow raw token claims who c,
    readFlow (a_sessions a) r now = Ok flow /\ Query r "state" = fs_State flow /\
    (Limits.consume (flows st) (fs_State flow) (tadd now flowLifetime) now).2 = Ok tt /\
    Exchange (Query r "code") (fs_Verifier flow) = Ok (Some raw) /\ Verify raw = Ok token /\
    tok_Nonce token = fs_Nonce flow /\ tok_Claims token = Ok claims /\
    identityFrom (roles a) (UsernameClaims (OIDC (cfg a))) (GroupsClaim (OIDC (cfg a)))
      (UsernamePrefix (OIDC (cfg a))) (GroupsPrefix (OIDC (cfg a))) claims fresh = Ok who /\
    issue (a_sessions a) who later later = Ok c /\
    (Callback a st r fresh now later).2 =
      MkReply 302 (Redirect (fs_Return flow)) [drop (a_sessions a) flowCookie; c].
Proof.
  unfold Callback. destruct (callbackBegin a st r now) as [st' [rep | flow]] eqn:E;
    apply callbackBegin_spec in E as [_ E]; [done |]. destruct E as (_ & Hr & Hc & _ & Hcode).
  assert (Hst : Query r "state" = fs_State flow).
  { unfold readFlow in Hr. case_match; [| done]. case_bool_decide as Hq; [done |].
    injection Hr as ->. by destruct (decide (Query r "state" = fs_State flow)). }
  unfold callbackFinish, exchange. cbn.
  rewrite bool_decide_false by done. destruct (Exchange _ _) as [[raw |] |] eqn:Hx;
    [| by intros Hz%refuse_not | by intros Hz%refuse_not].
  destruct (Verify raw) as [token | e] eqn:Hv; [| by intros Hz%refuse_not].
  case_bool_decide as Hn; [by intros Hz%refuse_not |].
  destruct (tok_Claims token) as [claims | e] eqn:Hcl; [| by intros Hz%refuse_not].
  destruct (identityFrom _ _ _ _ _ claims fresh) as [who | e] eqn:Hid;
    [| by intros Hz%refuse_not].
  destruct (issue _ who later later) as [c | e] eqn:Hi; [| by intros Hz%message_not].
  intros _. exists flow, raw, token, claims, who, c. repeat split; auto.
Qed.

(** A callback with its clock readings. *)
Record called := MkCalled { ca_r : request; ca_fresh : string; ca_now : time; ca_later : time }.

Definition callbacks (a : Authenticator) (st : registers) (l : list called) : registers :=
  fold_left (fun st c => (Callback a st (ca_r c) (ca_fresh c) (ca_now c) (ca_later c)).1) l st.

Lemma attempts_keep f l s (e t : time) :
  Forall (fun at_ => (Limits.at_now at_ <= t)%Z) l -> (t < e)%Z ->
  Limits.used f !! s = Some e -> Limits.used (Limits.attempts f l) !! s = Some e.
Proof.
  intros Hl Ht. revert f. induction Hl as [| x l Hx Hl IH]; intros f Hf; cbn; [done |].
  apply IH. apply Limits.consume_keeps; [done | lia].
Qed.

Lemma callbacks_keep a st l s (e t : time) :
  Forall (fun c => (ca_now c <= t)%Z) l -> (t < e)%Z ->
  Limits.used (flows st) !! s = Some e -> Limits.used (flows (callbacks a st l)) !! s = Some e.
Proof.
  intros Hl Ht. revert st. induction Hl as [| c l Hc Hl IH]; intros st Hst; cbn; [done |].
  apply IH. destruct (Callback_flows a st (ca_r c) (ca_fresh c) (ca_now c) (ca_later c)) as (k & -> & Hk).
  apply (attempts_keep _ _ _ _ t); [| done | done].
  eapply List.Forall_impl; [| exact Hk]. cbn. intros x ->. done.
Qed.

(** encoding/json writes an int64 and reads the same one back.  Nothing is asked
    of the payload, a json.RawMessage, which is compacted and escaped. *)
Hypothesis json_expires : forall (claims claims' : stashClaims) body,
  Marshal claims = Some body -> Unmarshal body = Some claims' -> st_Expires claims' = st_Expires claims.

(** A stashed value is never read back once its age is over. *)
Lemma unstash_expired {T} `{!JSON T} ss name (x : T) age s c t :
  stash ss name x age s = Ok c -> (s + age <= t)%Z ->
  @unstashNamed flowState _ _ ss (Some (ck_Value c)) t = None.
Proof using json_expires.
  intros Hs Ht. unfold stash in Hs. destruct (Marshal x) as [payload |]; [| done].
  destruct (seal ss _) as [value |] eqn:Hse; [| done]. injection Hs as <-. cbn.
  apply seal_unseal in Hse as (b & Hm & Hu). rewrite Hu.
  destruct (Unmarshal b) as [claims |] eqn:Hc; [| done]. rewrite (json_expires _ _ _ Hm Hc). cbn.
  pose proof (fromUnix_le (tadd s age)). times.
  by replace (t <? _)%Z with false by (symmetry; apply Z.ltb_ge; lia).
Qed.

(** C21: one sign-in per flow: after a callback signed somebody in, no callback
    that carries the same flow cookie signs anybody in again, at any later time
    and whatever other callbacks came in between; either the flow's state is
    still registered as used, or its cookie no longer opens.  Of encoding/json
    only this is asked: an int64 that was written is read back as the same. *)
Theorem callback_once (a : Authenticator) (st : registers) (first again : called)
    (between : list called) (flow : flowState) (s : time) (c : cookie) :
  stash (a_sessions a) flowCookie flow flowLifetime s = Ok c ->
  Cookie (ca_r first) flowCookie = Some (ck_Value c) ->
  Cookie (ca_r again) flowCookie = Some (ck_Value c) ->
  (s <= ca_now first <= ca_now again)%Z ->
  Forall (fun b => (ca_now b <= ca_now again)%Z) between ->
  signs_in (Callback a st (ca_r first) (ca_fresh first) (ca_now first) (ca_later first)).2 ->
  ~ signs_in (Callback a (callbacks a st (first :: between)) (ca_r again) (ca_fresh again)
                (ca_now again) (ca_later again)).2.
Proof using json_expires.
  destruct first as [r f now later], again as [r' f' t later']. cbn [ca_r ca_fresh ca_now ca_later].
  intros Hs Hc1 Hc2 Ht Hb Hin Hin'.
  assert (Hlt : (t < now + flowLifetime)%Z).
  { destruct (Z.ltb_spec t (now + flowLifetime)); [done |]. exfalso.
    unfold Callback in Hin'. destruct (callbackBegin a _ r' t) as [st' [rep | fl]] eqn:E;
      apply callbackBegin_spec in E as [_ E]; [done |]. destruct E as (_ & Hr & _).
    unfold readFlow in Hr. rewrite Hc2 in Hr.
    rewrite (unstash_expired _ _ _ _ _ _ t Hs) in Hr; [done | lia]. }
  change (callbacks a st (_ :: between)) with
    (callbacks a (Callback a st r f now later).1 between) in Hin'.
  set (st2 := callbacks _ _ between) in *. unfold Callback in Hin, Hin'.
  destruct (callbackBegin a st r now) as [st1 [rep | fl]] eqn:E1;
    pose proof (callbackBegin_spec _ _ _ _ _ _ E1) as [_ H1]; [done |].
  destruct H1 as (_ & Hr1 & Hok & Hfl & _).
  destruct (callbackBegin a st2 r' t) as [st3 [rep | fl']] eqn:E2;
    pose proof (callbackBegin_spec _ _ _ _ _ _ E2) as [_ H2]; [done |].
  destruct H2 as (_ & Hr2 & Hok2 & _).
  assert (fl' = fl) as ->.
  { unfold readFlow in Hr1, Hr2. rewrite Hc1 in Hr1. rewrite Hc2 in Hr2. cbn in Hr1, Hr2.
    destruct (unseal (a_sessions a) (ck_Value c)) as [sc |]; [| done].
    repeat case_match; try done; congruence. }
  assert (Hused : Limits.used (flows st2) !! fs_State fl = Some (tadd now flowLifetime)).
  { subst st2. apply (callbacks_keep _ _ _ _ _ t); [done | times; lia |].
    unfold Callback. rewrite E1. cbn. rewrite Hfl. by apply Limits.consume_ok. }
  rewrite (Limits.consume_replay _ _ (tadd now flowLifetime)) in Hok2; [done | done | times; lia].
Qed.
End signing_in.

(** ** Examples: ana signs in through a provider, and signs out *)

#[export] Instance exampleStashJSON : JSON stashClaims := {
  Marshal c := Some (z_text (st_Expires c) +s+ "," +s+ st_Payload c);
  Unmarshal b :=
    let '(e, payload, _) := str_cut b "," in e ← text_z e; Some (MkStashClaims e payload);
}.

#[export] Instance exampleStash_roundtrip : JSONRoundTrip stashClaims (fun _ => True).
Proof.
  split. intros [e p] b _ [= <-]. cbn. rewrite z_text_cut. by rewrite text_z_text.
Qed.

#[export] Instance exampleFlowJSON : JSON flowState := {
  Marshal f := Some (fs_State f);
  Unmarshal s := Some (MkFlowState "nonce" "/pods" s "verifier");
}.
#[export] Instance exampleTextJSON : JSON string := { Marshal s := Some s; Unmarshal s := Some s }.

#[export] Instance exampleProvider : Provider := {
  Exchange code verifier := if bool_decide (code = "abc") then Ok (Some "token") else Err "bad code";
  Verify raw := Ok (MkIdToken "nonce" (Ok {["sub" := ClaimString "ana"; "sid" := ClaimString "s1"]}));
  VerifyLogout raw := Ok (Ok (MkLogoutClaims [backchannelEvent] "s1" ""));
}.

Definition exampleConfig (mode : string) : Config :=
  withDefaults (MkConfig mode "" false "" 0 0 "" [] [] []
    (MkProxyConfig "" "" "" "0123456789abcdef0123456789abcdef" "" 0)
    (MkOIDCConfig "https://id.example" "" "spinoza" "" "" [] "" [] "" "" "" "" false false true)).

Definition exampleAuthenticator (mode : string) : Authenticator :=
  MkAuthenticator (exampleConfig mode) exampleSessions (newRoleMap (exampleConfig mode)) (Some "").

Definition exampleRegisters : registers :=
  (newAuthenticator (exampleConfig ModeOIDC) "" true None).2.

Definition withCookie (name value : string) : request :=
  MkRequest (fun _ => "") (fun n => if bool_decide (n = name) then Some value else None)
    (fun q => if bool_decide (q = "code") then "abc" else if bool_decide (q = "state") then "st" else "")
    "10.0.0.7:4000".

Lemma logout_ends_session_witness :
  let a := exampleAuthenticator ModeOIDC in
  let rv := newRevocations (24 * Hour)%Z in
  let r := withCookie SessionCookie anaCookie in
  let rv' := run (Logout a rv r "" (signIn + 5)%Z).1.1.1 [IsRevoked "s1" (signIn + 7)%Z] in
  (Identify a rv r (signIn + 5)%Z).1.2 = Some ana /\
  (Identify a rv' r (signIn + 9)%Z).1.2 = None /\ (StillValid a rv' r ana (signIn + 9)%Z).2 = false.
Proof.
  intros a rv r rv'. split; [vm_compute; reflexivity |].
  assert (Hr : renewals exampleSessions ana signIn anaCookie)
    by (apply (renewals_login _ _ _ signIn), anaCookie_encoded).
  refine (logout_ends_session (valid := exampleClaims) a rv r r "" ana signIn (signIn + 5) (signIn + 9)
    anaCookie anaCookie [IsRevoked "s1" (signIn + 7)%Z] ana ana_valid eq_refl _ eq_refl _ _
    Hr eq_refl Hr eq_refl _ _).
  - discriminate.
  - discriminate.
  - vm_compute. split; discriminate.
  - intros H. assert (Hsome : bool_decide ((Identify a rv r (signIn + 5)%Z).1.2 = None) = false)
      by (vm_compute; reflexivity). by rewrite H in Hsome.
  - repeat constructor; vm_compute; discriminate.
Defined.

Lemma proxy_needs_secret_witness :
  let r := MkRequest (fun h => if bool_decide (h = DefaultUserHeader) then " ana "
             else if bool_decide (h = DefaultProxyAuthHeader) then "0123456789abcdef0123456789abcdef"
             else "") (fun _ => None) (fun _ => "") "" in
  TrimSpace (Header r DefaultUserHeader) = "ana" /\
  (32 <= strlen (Header r DefaultProxyAuthHeader))%Z.
Proof.
  intros r. split; [vm_compute; reflexivity |].
  apply (proxy_needs_secret (exampleAuthenticator ModeProxy) (newRevocations Hour) r 0
    (MkIdentity "ana" [] RoleViewer "ana")); vm_compute; reflexivity.
Defined.

Definition exampleFlow : flowState := MkFlowState "nonce" "/pods" "st" "verifier".

Definition flowSet : cookie :=
  match stash exampleSessions flowCookie exampleFlow flowLifetime signIn with
  | Ok c => c | Err _ => drop exampleSessions flowCookie end.

Definition exampleCall (k : Z) : called :=
  MkCalled (withCookie flowCookie (ck_Value flowSet)) "fresh" (signIn + k * Second)%Z
    (signIn + (k + 1) * Second)%Z.

Lemma example_signs_in :
  signs_in (Callback (exampleAuthenticator ModeOIDC) exampleRegisters (ca_r (exampleCall 3)) "fresh"
    (ca_now (exampleCall 3)) (ca_later (exampleCall 3))).2.
Proof.
  exists (match encode exampleSessions ana (signIn + 4 * Second)%Z (signIn + 4 * Second)%Z with
          | Ok v => mkCookie exampleSessions SessionCookie v (8 * Hour)%Z
          | Err _ => flowSet end).
  split; [| vm_compute; reflexivity]. vm_compute. right. left.
Qed.

Lemma callback_signs_in_witness :
  exists flow, readFlow exampleSessions (ca_r (exampleCall 3)) (ca_now (exampleCall 3)) = Ok flow.
Proof.
  destruct (callback_signs_in (exampleAuthenticator ModeOIDC) exampleRegisters (ca_r (exampleCall 3))
    "fresh" _ _ example_signs_in) as (flow & _ & _ & _ & _ & _ & H & _). by exists flow.
Defined.

Lemma callback_once_witness :
  ~ signs_in (Callback (exampleAuthenticator ModeOIDC)
      (callbacks (exampleAuthenticator ModeOIDC) exampleRegisters [exampleCall 3; exampleCall 5])
      (ca_r (exampleCall 9)) "fresh" (ca_now (exampleCall 9)) (ca_later (exampleCall 9))).2.
Proof.
  apply (callback_once) with (first := exampleCall 3) (again := exampleCall 9) (between := [exampleCall 5])
    (flow := exampleFlow) (s := signIn) (c := flowSet).
  - intros claims claims' body Hm Hu. rewrite (json_roundtrip (valid := fun _ => True) _ _ I Hm) in Hu. by injection Hu as ->.
  - vm_compute. reflexivity.
  - vm_compute. reflexivity.
  - vm_compute. reflexivity.
  - vm_compute. split; discriminate.
  - repeat constructor. vm_compute. discriminate.
  - exact example_signs_in.
Defined.

End Authenticator.
