(* ===== verification/Access.v ===== *)
(** internal/access: what a caller may do, asked of the cluster's own
    authorizer.  A review is answered by the API server: its answer, and the
    order in which concurrent reviews finish, are arguments.  strconv.Quote is
    the class [Quoting], with the two facts of its documentation the cache's
    key relies on. *)

From Stdlib Require Import Ascii.
From S2P Require Import Prelude Api Identity Limits.

Definition NUL : ascii := ascii_of_nat 0.

Class Quoting := {
  Quote : string -> string;
  Quote_inj : forall s t, Quote s = Quote t -> s = t;
  Quote_no_nul : forall s, Forall (fun c => c <> NUL) (String.list_ascii_of_string (Quote s));
  Quote_nonempty : forall s, Quote s <> "";
}.

Module Access.
Import Api Identity Limits.

Record Check := MkCheck {
  Verb : string;
  Group : string;
  Resource : string;
  Subresource : string;
  c_Namespace : string;
  c_Name : string;
}.

#[export] Instance Check_eq_dec : EqDecision Check.
Proof. solve_decision. Defined.
#[export] Instance Check_countable : Countable Check.
Proof.
  refine (inj_countable'
    (fun c => (Verb c, Group c, Resource c, Subresource c, c_Namespace c, c_Name c))
    (fun '(v, g, r, s, n, m) => MkCheck v g r s n m) _). by intros [].
Defined.

Record Decision_ := MkDecision { Allowed : bool; Answered : bool; Reason : string }.

#[export] Instance Decision_eq_dec : EqDecision Decision_.
Proof. solve_decision. Defined.

Definition remembered : duration := (30 * Second)%Z.
Definition globalReviewLimit : Z := 32.
Definition identityReviewLimit : Z := 8.
Definition rememberedLimit : Z := 4096.

Record answer_ := MkAnswer { decision : Decision_; asked : time }.

(** [question]: who asks, and what. *)
Abbreviation question := (string * Check)%type.

(** ** capabilities.go *)

Record capability := MkCapability { name : string; checks : list Check }.

Abbreviation groupResource := (string * string)%type.

Definition pods : string := "pods".
Definition appsGroup : string := "apps".
Definition batchGroup : string := "batch".
Definition deployments : string := "deployments".
Definition nodes : string := "nodes".

Definition scalable : list groupResource :=
  [(appsGroup, deployments); (appsGroup, "statefulsets"); (appsGroup, "replicasets");
   ("", "replicationcontrollers")].
Definition restartable : list groupResource :=
  [(appsGroup, deployments); (appsGroup, "statefulsets"); (appsGroup, "daemonsets")].
Definition revertible : list groupResource :=
  [(appsGroup, deployments); (appsGroup, "statefulsets"); (appsGroup, "daemonsets")].
Definition ownsPods : list groupResource :=
  [(appsGroup, deployments); (appsGroup, "statefulsets"); (appsGroup, "daemonsets");
   (appsGroup, "replicasets"); ("batch", "jobs"); ("", "replicationcontrollers")].
Definition cronJobs : groupResource := (batchGroup, "cronjobs").

Definition with_ (check : Check) (verb : string) : Check :=
  MkCheck verb (Group check) (Resource check) (Subresource check) (c_Namespace check) (c_Name check).

Definition podCheck (verb namespace name subresource : string) : Check :=
  MkCheck verb "" pods subresource namespace name.

Definition historyOf (here : groupResource) (namespace : string) : Check :=
  if bool_decide (here.2 = deployments) then MkCheck "list" appsGroup "replicasets" "" namespace ""
  else MkCheck "list" appsGroup "controllerrevisions" "" namespace "".

Definition IsFluxGroup (group : string) : bool := has_suffix group ".toolkit.fluxcd.io".
Definition IsArgoGroup (group : string) : bool := bool_decide (group = "argoproj.io").
Definition gitops (group : string) : bool := IsFluxGroup group || IsArgoGroup group.

Definition nodeCapabilities (object : Check) : list capability :=
  let cordon := with_ object "patch" in
  [MkCapability "cordon" [cordon]; MkCapability "drain" [podCheck "list" "" "" ""; cordon]].

Definition podCapabilities (ref : ObjectRef) : list capability :=
  [MkCapability "logs" [podCheck "get" (or_Namespace ref) (or_Name ref) "log"];
   MkCapability "exec" [podCheck "create" (or_Namespace ref) (or_Name ref) "exec"];
   MkCapability "portForward" [podCheck "create" (or_Namespace ref) (or_Name ref) "portforward"]].

Definition capabilitiesFor (ref : ObjectRef) : list capability :=
  let here := (or_Group ref, or_Resource ref) in
  let object := MkCheck "" (or_Group ref) (or_Resource ref) "" (or_Namespace ref) (or_Name ref) in
  let when (b : bool) (l : list capability) := if b then l else [] in
  let held :=
    [MkCapability "edit" [with_ object "update"]; MkCapability "delete" [with_ object "delete"]] ++
    when (contains scalable here)
      [MkCapability "scale" [MkCheck "patch" (or_Group ref) (or_Resource ref) "scale"
                               (or_Namespace ref) (or_Name ref)]] ++
    when (contains restartable here) [MkCapability "restart" [with_ object "patch"]] ++
    when (contains revertible here)
      [MkCapability "undo" [with_ object "patch"; historyOf here (or_Namespace ref)]] ++
    when (gitops (or_Group ref)) [MkCapability "reconcile" [with_ object "patch"]] ++
    when (bool_decide (here = cronJobs))
      [MkCapability "suspend" [with_ object "patch"];
       MkCapability "trigger" [MkCheck "create" batchGroup "jobs" "" (or_Namespace ref) ""]] ++
    when (bool_decide (here = ("", nodes))) (nodeCapabilities object) in
  if bool_decide (here = ("", pods)) then held ++ podCapabilities ref
  else
    held ++
    when (contains ownsPods here) [MkCapability "logs" [podCheck "get" (or_Namespace ref) "" "log"]] ++
    when (bool_decide (here = ("", "services")))
      [MkCapability "portForward" [podCheck "create" (or_Namespace ref) "" "portforward"]].

(** release.go *)
Definition storeFor (driver : string) : string :=
  if bool_decide (driver = "configmap") then "configmaps" else "secrets".

Definition releaseCapabilities (namespace driver : string) : list capability :=
  let store := MkCheck "" "" (storeFor driver) "" namespace "" in
  let create := with_ store "create" in
  let update := with_ store "update" in
  [MkCapability "install" [create]; MkCapability "upgrade" [create; update];
   MkCapability "rollback" [create; update]; MkCapability "uninstall" [with_ store "delete"]].

Definition capabilityNamed (wanted : string) (ref : ObjectRef) : option capability :=
  List.find (fun one => bool_decide (name one = wanted)) (capabilitiesFor ref).

Definition describe (check : Check) : string :=
  let named := if bool_decide (Group check <> "") then Group check +s+ "/" +s+ Resource check
               else Resource check in
  if bool_decide (Subresource check <> "") then named +s+ "/" +s+ Subresource check else named.

Definition because (reason : string) (check : Check) : string :=
  if bool_decide (reason <> "") then reason
  else "you may not " +s+ Verb check +s+ " " +s+ describe check +s+ " here".

Fixpoint firstRefusal (checks : list Check) (decisions : list Decision_) : option (Check * string) :=
  match checks, decisions with
  | c :: checks, d :: decisions =>
      if Allowed d then firstRefusal checks decisions else Some (c, Reason d)
  | _, _ => None
  end.

(** The walk over the slices of the decisions, one slice per capability. *)
Fixpoint refusals (held : list capability) (decisions : list Decision_) : list Refusal :=
  match held with
  | [] => []
  | one :: held =>
      let mine := take (length (checks one)) decisions in
      let rest := refusals held (drop (length (checks one)) decisions) in
      match firstRefusal (checks one) mine with
      | None => rest
      | Some (stopped, why) => MkRefusal (name one) (because why stopped) :: rest
      end
  end.

Definition answer (review : list Check -> list Decision_) (held : list capability) : Access :=
  MkAccess (refusals held (review (flat_map checks held))).

Definition Review (review : list Check -> list Decision_) (ref : ObjectRef) : Access :=
  answer review (capabilitiesFor ref).

Definition ReviewRelease (review : list Check -> list Decision_) (namespace driver : string) : Access :=
  answer review (releaseCapabilities namespace driver).

Fixpoint rowRefusals (at_ : Z) (wanted : list (list Check)) (decisions : list Decision_) : list RowRefusal :=
  match wanted with
  | [] => []
  | mine :: wanted =>
      let rest := rowRefusals (at_ + 1) wanted (drop (length mine) decisions) in
      match firstRefusal mine (take (length mine) decisions) with
      | None => rest
      | Some (stopped, why) => MkRowRefusal at_ (because why stopped) :: rest
      end
  end.

Definition wantedChecks (wanted : string) (ref : ObjectRef) : list Check :=
  match capabilityNamed wanted ref with Some found => checks found | None => [] end.

Definition ReviewEach (review : list Check -> list Decision_) (wanted : string) (refs : list ObjectRef) :
    BulkAccess :=
  let rows := map (wantedChecks wanted) refs in
  MkBulkAccess (rowRefusals 0 rows (review (concat rows))).

(** ** scope.go *)

Inductive verdict := unanswered | denied | allowed.

#[export] Instance verdict_eq_dec : EqDecision verdict.
Proof. solve_decision. Defined.

Fixpoint decideLoop (found : verdict) (decisions : list Decision_) : verdict :=
  match decisions with
  | [] => found
  | one :: rest =>
      if negb (Answered one) then decideLoop unanswered rest
      else if negb (Allowed one) then denied
      else decideLoop found rest
  end.

Definition decide_ (decisions : list Decision_) : verdict :=
  match decisions with [] => unanswered | _ => decideLoop allowed decisions end.

Definition clusterWide : list Check :=
  [MkCheck "list" "" pods "" "" ""; MkCheck "list" appsGroup deployments "" "" ""].

Definition within (namespace : string) : list Check :=
  map (fun c => MkCheck (Verb c) (Group c) (Resource c) (Subresource c) namespace (c_Name c)) clusterWide.

(** The names of each verdict, in order: readable ones, unsure ones. *)
Fixpoint verdicts (names : list string) (checksIn : string -> list Check) (decisions : list Decision_) :
    list string * list string :=
  match names with
  | [] => ([], [])
  | name :: names =>
      let n := length (checksIn name) in
      let '(readable, unsure) := verdicts names checksIn (drop n decisions) in
      match decide_ (take n decisions) with
      | allowed => (name :: readable, unsure)
      | unanswered => (readable, name :: unsure)
      | denied => (readable, unsure)
      end
  end.

Definition Where (review : list Check -> list Decision_) (names : list string)
    (checksIn : string -> list Check) : Scope :=
  let '(readable, unsure) := verdicts names checksIn (review (flat_map checksIn names)) in
  MkScope false (sort_by str_compare readable) (sort_by str_compare unsure).

Definition everywhere : Scope := MkScope true [] [].

(** [readScope] and [OwnScope]; the names of the namespaces are asked for only
    when they are needed. *)
Definition readScope (review : list Check -> list Decision_) (ctx : Context_) (names : list string) : Scope :=
  if negb (ActingAs ctx).2 then everywhere
  else if bool_decide (decide_ (review clusterWide) = allowed) then everywhere
  else Where review names within.

Definition OwnScope (review : list Check -> list Decision_) (connected : bool) (names : list string) : Scope :=
  if negb connected then everywhere
  else if bool_decide (decide_ (review clusterWide) <> denied) then everywhere
  else Where review names within.

(** ** access.go: who asks *)

Section asking.
Context {Qt : Quoting}.

(** The cache key of a caller: the quoted user and the quoted groups in order,
    with a NUL byte before each group; empty for the server itself. *)
Definition asking (ctx : Context_) : string :=
  match ActingAs ctx with
  | (who, true) =>
      fold_left (fun key group => key +s+ String NUL (Quote group))
        (sort_by str_compare (Groups who)) (Quote (User who))
  | (_, false) => ""
  end.
End asking.

(** ** access.go: a review *)

(** The first loop: what was recalled is filled in, the rest is pending. *)
Fixpoint gather (i : nat) (checks : list Check) (recalled : list (option Decision_)) :
    list Decision_ * gmap Check (list nat) :=
  match checks, recalled with
  | check :: checks, held :: recalled =>
      let '(out, pending) := gather (S i) checks recalled in
      match held with
      | Some d => (d :: out, pending)
      | None => (MkDecision false false "" :: out,
          <[check := i :: default [] (pending !! check)]> pending)
      end
  | _, _ => ([], ∅)
  end.

(** One goroutine: the decision of a check at every place that waits for it. *)
Definition fill (decision : Decision_) (out : list Decision_) (places : list nat) : list Decision_ :=
  fold_left (fun out at_ => <[at_ := decision]> out) places out.

(** [review]: [recalled] is what the cache had at each place, [order] the
    pending checks in the order their goroutines wrote their results, and
    [ask] what each of them got. *)
Definition review (checks : list Check) (recalled : list (option Decision_))
    (order : list (Check * list nat)) (ask : Check -> Decision_) : list Decision_ :=
  fold_left (fun out '(check, places) => fill (ask check) out places) order
    (gather 0 checks recalled).1.

Inductive refusal := Denied (message : string) | Unanswered (message : string).

(** [require] *)
Fixpoint require (checks : list Check) (decisions : list Decision_) : option refusal :=
  match checks, decisions with
  | check :: checks, d :: decisions =>
      if Allowed d && Answered d then require checks decisions
      else if negb (Answered d) then Some (Unanswered (because (Reason d) check))
      else Some (Denied (because (Reason d) check))
  | _, _ => None
  end.

(** [Require] and [RequireFresh]: nothing is asked without a cluster or for
    work that acts as nobody. *)
Definition Require (connected : bool) (ctx : Context_) (checks : list Check)
    (review : list Check -> list Decision_) : option refusal :=
  if negb connected then None
  else if negb (ActingAs ctx).2 then None
  else require checks (review checks).

Definition RequireFresh (connected : bool) (ctx : Context_) (checks : list Check)
    (ask : Check -> Decision_) : option refusal :=
  if negb connected then None
  else if negb (ActingAs ctx).2 then None
  else require checks (map ask checks).

(** ** access.go: the service *)

(** The API server's answer to one review. *)
Inductive reviewed :=
| ReviewFailed (err : string)
| ReviewAnswered (ok : bool) (evaluationError reason : string).

(** The decision of [ask] once its slot is claimed, and whether it is kept. *)
Definition decisionOf (r : reviewed) : Decision_ * bool :=
  match r with
  | ReviewFailed err => (MkDecision false false err, false)
  | ReviewAnswered ok evaluationError reason =>
      if bool_decide (evaluationError <> "") && negb ok then
        (MkDecision false false evaluationError, false)
      else (MkDecision ok true (if ok then "" else reason), true)
  end.

Definition capacityFull : Decision_ := MkDecision false false "authorization check capacity is full".

Record service := MkService {
  seen : gmap question answer_;
  inFlight : gmap string Z;
  slots : Z;
  ttl : duration;
  capacity : Z;
  globalSlots : Z;
  identityLimit : Z;
}.

Definition New : service :=
  MkService ∅ ∅ 0 remembered rememberedLimit globalReviewLimit identityReviewLimit.

Definition with_seen (s : service) (m : gmap question answer_) : service :=
  MkService m (inFlight s) (slots s) (ttl s) (capacity s) (globalSlots s) (identityLimit s).

Definition with_slots (s : service) (m : gmap string Z) (n : Z) : service :=
  MkService (seen s) m n (ttl s) (capacity s) (globalSlots s) (identityLimit s).

Definition recall (s : service) (want : question) (now : time) : service * option Decision_ :=
  match seen s !! want with
  | None => (s, None)
  | Some held =>
      if (ttl s <? tsub now (asked held))%Z then (with_seen s (delete want (seen s)), None)
      else (s, Some (decision held))
  end.

(** The eviction loop of [remember] over the map in some order. *)
Definition oldestSeen (order : list (question * answer_)) : option question * time :=
  fold_left (fun '(oldest, oldestAt) '(key, held) =>
    if IsZero oldestAt || Before (asked held) oldestAt then (Some key, asked held)
    else (oldest, oldestAt)) order (None, zeroTime).

Definition limitOr (n default : Z) : Z := if (n <=? 0)%Z then default else n.

Definition freshSeen (s : service) (now : time) : gmap question answer_ :=
  filter (fun p => (ttl s <? tsub now (asked p.2))%Z = false) (seen s).

Definition remember (s : service) (want : question) (d : Decision_) (now : time)
    (order : list (question * answer_)) : service :=
  let kept := freshSeen s now in
  let kept :=
    if bool_decide (kept !! want = None) && (limitOr (capacity s) rememberedLimit <=? Z.of_nat (size kept))%Z
    then match (oldestSeen order).1 with Some key => delete key kept | None => kept end
    else kept in
  with_seen s (<[want := MkAnswer d now]> kept).

(** [claim] and its release function, one atomic step at a time: a slot of the
    channel, then the identity's count under the mutex; a turned-away claim
    gives its slot back, a release first lowers the count and then gives the
    slot back. *)
Definition takeSlot (s : service) : option service :=
  if (slots s <? globalSlots s)%Z then Some (with_slots s (inFlight s) (slots s + 1)) else None.

Definition giveSlot (s : service) : service := with_slots s (inFlight s) (slots s - 1).

Definition startAsking (s : service) (identity : string) : option service :=
  if (limitOr (identityLimit s) identityReviewLimit <=? count (inFlight s) identity)%Z then None
  else Some (with_slots s (<[identity := (count (inFlight s) identity + 1)%Z]> (inFlight s)) (slots s)).

Definition lower (s : service) (identity : string) : service :=
  let left := (count (inFlight s) identity - 1)%Z in
  let m := <[identity := left]> (inFlight s) in
  with_slots s (if (left =? 0)%Z then delete identity m else m) (slots s).

(** ** Reviews: every place gets the decision of its own check *)

Lemma gather_spec checks recalled i :
  length checks = length recalled ->
  (forall k, (gather i checks recalled).1 !! k =
     (fun h => default (MkDecision false false "") h) <$> recalled !! k) /\
  (forall c, NoDup (default [] ((gather i checks recalled).2 !! c))) /\
  (forall c j, j ∈ default [] ((gather i checks recalled).2 !! c) <->
     i <= j /\ checks !! (j - i) = Some c /\ recalled !! (j - i) = Some None).
Proof.
  revert recalled i. induction checks as [| c checks IH]; intros [| h recalled] i Hl; try done.
  { cbn. repeat split; intros; rewrite ?lookup_empty in *; cbn in *; try constructor; set_solver. }
  cbn in Hl. destruct (IH recalled (S i) ltac:(lia)) as (Ho & Hn & Hp). cbn.
  destruct (gather (S i) checks recalled) as [out pending]. cbn in *.
  assert (Hstep : forall x j, i <= j -> (c :: checks) !! (j - i) = Some x /\
      (h :: recalled) !! (j - i) = Some None <->
      (j = i /\ x = c /\ h = None) \/
      (S i <= j /\ checks !! (j - S i) = Some x /\ recalled !! (j - S i) = Some None)).
  { intros x j Hj. destruct (decide (j = i)) as [-> | Hne].
    - rewrite Nat.sub_diag. cbn. intuition (congruence || lia).
    - replace (j - i) with (S (j - S i)) by lia. cbn. intuition (congruence || lia). }
  destruct h as [d |]; cbn; (split; [intros [| k]; [done | apply Ho] |]).
  - split; [done |]. intros x j. rewrite Hp. split.
    + intros (H1 & H2 & H3). split; [lia |]. apply Hstep; [lia |]. by right.
    + intros (H1 & H2). apply Hstep in H2; [| done]. destruct H2 as [(_ & _ & ?) | H2]; done.
  - split.
    + intros x. destruct (decide (c = x)) as [-> | Hne]; [| by rewrite lookup_insert_ne].
      rewrite lookup_insert_eq. cbn. apply list.NoDup_cons. split; [| done].
      rewrite Hp. intros [? _]. lia.
    + intros x j. destruct (decide (c = x)) as [-> | Hne].
      * rewrite lookup_insert_eq. cbn. rewrite elem_of_cons, Hp. split.
        -- intros [-> | H]; (split; [lia |]); apply Hstep; [lia | by left | lia | by right].
        -- intros (H1 & H2). apply Hstep in H2; [| done]. intuition.
      * rewrite lookup_insert_ne, Hp by done. split.
        -- intros H. split; [lia |]. apply Hstep; [lia | by right].
        -- intros (H1 & H2). apply Hstep in H2; [| done]. destruct H2 as [(_ & ? & _) | ?]; congruence || done.
Qed.

Lemma fill_lookup d places out k :
  fill d out places !! k = if decide (k ∈ places) then (fun _ => d) <$> out !! k else out !! k.
Proof.
  unfold fill. revert out. induction places as [| p places IH]; intros out; cbn.
  { by rewrite decide_False by set_solver. }
  rewrite IH. destruct (decide (p = k)) as [-> | Hne].
  - rewrite (decide_True (P := k ∈ k :: places)) by set_solver.
    destruct (out !! k) as [x |] eqn:Hx.
    + rewrite list_lookup_insert_eq by (by eapply lookup_lt_Some). by case_decide.
    + rewrite list_insert_ge by (by apply lookup_ge_None). rewrite Hx. by case_decide.
  - rewrite list_lookup_insert_ne by done. by destruct (decide (k ∈ places)), (decide (k ∈ p :: places)); set_solver.
Qed.

(** Writing the results in any order leaves every place with the decision of
    the check that waits there. *)
Lemma fills_lookup (ask : Check -> Decision_) (at_ : nat -> option Check) order out k :
  (forall c pl j, (c, pl) ∈ order -> j ∈ pl -> at_ j = Some c) ->
  fold_left (fun out '(check, places) => fill (ask check) out places) order out !! k =
  match at_ k with
  | Some c => if existsb (fun p => bool_decide (k ∈ p.2)) order then (fun _ => ask c) <$> out !! k
              else out !! k
  | None => out !! k
  end.
Proof.
  revert out. induction order as [| [c pl] order IH]; intros out H; cbn; [by destruct (at_ k) |].
  rewrite IH by (intros; eapply H; [by right | done]). rewrite fill_lookup.
  case_bool_decide as Hk; cbn.
  - rewrite decide_True by done. rewrite (H c pl k) by (left || done).
    destruct (out !! k); by destruct (existsb _ _).
  - by rewrite decide_False.
Qed.

(** What a review returns: the recalled decision where there was one, the
    answer to the place's own check elsewhere. *)
Lemma review_spec checks recalled order ask :
  length checks = length recalled ->
  order ≡ₚ map_to_list (gather 0 checks recalled).2 ->
  review checks recalled order ask =
  zip_with (fun c h => match h with Some d => d | None => ask c end) checks recalled.
Proof.
  intros Hl Ho. destruct (gather_spec checks recalled 0 Hl) as (Hout & _ & Hpl).
  apply list_eq. intros k. unfold review.
  assert (Hin : forall c pl j, (c, pl) ∈ order -> j ∈ pl ->
      checks !! j = Some c /\ recalled !! j = Some None).
  { intros c pl j Hc Hj. rewrite Ho in Hc. apply elem_of_map_to_list in Hc.
    destruct (Hpl c j) as [H _]. rewrite Hc in H. cbn in H.
    replace (j - 0) with j in H by lia. by apply H. }
  rewrite (fills_lookup ask (fun j => checks !! j)).
  2: { intros c pl j Hc Hj. by destruct (Hin c pl j Hc Hj). }
  rewrite lookup_zip_with, Hout. destruct (checks !! k) as [c |] eqn:Hc; cbn.
  2: { apply lookup_ge_None in Hc. destruct (recalled !! k) eqn:Hr; [| done].
       apply lookup_lt_Some in Hr. lia. }
  destruct (recalled !! k) as [[d |] |] eqn:Hr; cbn; [| | by case_match].
  - case_match eqn:He; [| done]. apply existsb_elem in He as ((c' & pl) & Hp & Hk).
    apply bool_decide_eq_true in Hk. destruct (Hin c' pl k Hp Hk). congruence.
  - assert (existsb (fun p => bool_decide (k ∈ p.2)) order = true) as ->; [| done].
    apply existsb_elem. destruct (Hpl c k) as [_ H].
    replace (k - 0) with k in H by lia. specialize (H ltac:(lia + (repeat split; (lia || done)))).
    destruct ((gather 0 checks recalled).2 !! c) as [pl |] eqn:He; [| by apply elem_of_nil in H].
    exists (c, pl). split; [rewrite Ho; by apply elem_of_map_to_list | by apply bool_decide_eq_true].
Qed.

Lemma require_None checks ds :
  length checks = length ds ->
  require checks ds = None <-> Forall (fun d => Allowed d = true /\ Answered d = true) ds.
Proof.
  revert ds. induction checks as [| c checks IH]; intros [| d ds] Hl; try done; cbn.
  rewrite list.Forall_cons. destruct (Allowed d), (Answered d); cbn;
    [rewrite IH by (cbn in Hl; lia) | | |]; intuition done.
Qed.

(** C17: a request that requires permissions passes only when, for every one of
    them, the decision the cache held for the caller or the answer the API
    server just gave is an answered yes; one that is denied, failed, or turned
    away for capacity stops the request.  Work that acts as nobody is the
    server's own and is not asked about. *)
Theorem Require_sound (ctx : Context_) (checks : list Check) (recalled : list (option Decision_))
    (order : list (Check * list nat)) (ask : Check -> Decision_) :
  length checks = length recalled ->
  order ≡ₚ map_to_list (gather 0 checks recalled).2 ->
  Require true ctx checks (fun cs => review cs recalled order ask) = None <->
  (ActingAs ctx).2 = false \/
  forall i c h, checks !! i = Some c -> recalled !! i = Some h ->
    let d := match h with Some d => d | None => ask c end in
    Allowed d = true /\ Answered d = true.
Proof.
  intros Hl Ho. unfold Require. cbn. destruct (ActingAs ctx).2; cbn; [| intuition].
  rewrite review_spec by done.
  rewrite require_None by (rewrite length_zip_with; lia).
  rewrite Forall_lookup. split.
  - intros H. right. intros i c h Hc Hh. apply (H i). by rewrite lookup_zip_with, Hc, Hh.
  - intros [H | H]; [done |]. intros i d. rewrite lookup_zip_with_Some.
    intros (c & h & -> & Hc & Hh). by eapply H.
Qed.

(** ** The cache key tells callers apart *)

Section keys.
Context {Qt : Quoting}.

Abbreviation chars := String.list_ascii_of_string.

Lemma chars_inj s t : chars s = chars t -> s = t.
Proof.
  intros H. rewrite <- (String.string_of_list_ascii_of_string s),
    <- (String.string_of_list_ascii_of_string t). by rewrite H.
Qed.

Lemma chars_app s t : chars (s +s+ t) = chars s ++ chars t.
Proof.
  induction s as [| c s IH]; [done |].
  change (c :: chars (s +s+ t) = c :: chars s ++ chars t). by rewrite IH.
Qed.

Definition segments (l : list string) : list ascii := flat_map (fun g => NUL :: chars (Quote g)) l.

Lemma asking_chars user groups :
  chars (fold_left (fun key group => key +s+ String NUL (Quote group)) groups user) =
  chars user ++ segments groups.
Proof.
  revert user. induction groups as [| g groups IH]; intros user; cbn; [by rewrite app_nil_r |].
  rewrite IH, chars_app. cbn. by rewrite <- app_assoc.
Qed.

Lemma prefix_inj (a b x y : list ascii) :
  Forall (fun c => c <> NUL) a -> Forall (fun c => c <> NUL) b ->
  (x = [] \/ exists x', x = NUL :: x') -> (y = [] \/ exists y', y = NUL :: y') ->
  a ++ x = b ++ y -> a = b /\ x = y.
Proof.
  intros Ha Hb Hx Hy. revert b Hb. induction Ha as [| c a Hc Ha IH]; intros b Hb H; cbn in *.
  - destruct Hb as [| d b Hd Hb]; [done |]. cbn in H. subst. destruct Hx as [| [x' [= ]]]; done.
  - destruct Hb as [| d b Hd Hb]; cbn in H.
    + subst. destruct Hy as [| [y' [= ]]]; done.
    + injection H as -> H. destruct (IH b Hb H). by subst.
Qed.

Lemma segments_head l : segments l = [] \/ exists x, segments l = NUL :: x.
Proof. destruct l; [by left | right; by eexists]. Qed.

Lemma segments_inj l k : segments l = segments k -> l = k.
Proof.
  revert k. induction l as [| g l IH]; intros [| h k]; cbn; try done. intros [= H].
  apply prefix_inj in H as [Hg Hk]; try apply Quote_no_nul; try apply segments_head.
  f_equal; [by apply Quote_inj, chars_inj | by apply IH].
Qed.

(** Two callers share cached decisions only when they are the same user with
    the same groups, in whatever order the groups were listed, and the server's
    own questions are never mixed with a caller's. *)
Theorem asking_tells_apart (one two : Context_) :
  asking one = asking two <->
  match ActingAs one, ActingAs two with
  | (u, true), (v, true) => User u = User v /\ Groups u ≡ₚ Groups v
  | (_, false), (_, false) => True
  | _, _ => False
  end.
Proof.
  unfold asking. destruct (ActingAs one) as [u [|]], (ActingAs two) as [v [|]]; cbn; try done.
  - split.
    + intros H. apply (f_equal chars) in H. rewrite !asking_chars in H.
      apply prefix_inj in H as [Hu Hg]; try apply Quote_no_nul; try apply segments_head.
      split; [by apply Quote_inj, chars_inj |]. apply segments_inj in Hg.
      rewrite <- (sort_by_perm str_compare (Groups u)), Hg. apply sort_by_perm.
    + intros [-> Hp]. f_equal. apply sort_by_unique.
      * apply _.
      * intros x y _ _. apply str_compare_eq.
      * by rewrite sort_by_perm.
      * apply sort_by_sorted, _.
  - split; [| done]. intros H. apply (f_equal chars) in H. rewrite asking_chars in H.
    apply app_eq_nil in H as [H _]. by apply (Quote_nonempty (User u)), chars_inj.
  - split; [| done]. intros H. apply (f_equal chars) in H. rewrite asking_chars in H.
    symmetry in H. apply app_eq_nil in H as [H _]. by apply (Quote_nonempty (User v)), chars_inj.
Qed.
End keys.

(** ** Capabilities and namespaces *)

Section verdicts.
Context (dec : Check -> Decision_).

(** The refusal of one list of checks: the first that is not allowed. *)
Definition refusedBy (wanted : list Check) : option string :=
  (fun c => because (Reason (dec c)) c) <$> List.find (fun c => negb (Allowed (dec c))) wanted.

Lemma firstRefusal_spec wanted :
  (fun p => because p.2 p.1) <$> firstRefusal wanted (map dec wanted) = refusedBy wanted.
Proof.
  unfold refusedBy. induction wanted as [| c wanted IH]; cbn; [done |].
  by destruct (Allowed (dec c)); cbn.
Qed.

Lemma take_map_app wanted rest : take (length wanted) (map dec (wanted ++ rest)) = map dec wanted.
Proof. rewrite map_app, take_app_length'; [done | by rewrite length_map]. Qed.

Lemma drop_map_app wanted rest : drop (length wanted) (map dec (wanted ++ rest)) = map dec rest.
Proof. rewrite map_app, drop_app_length'; [done | by rewrite length_map]. Qed.

(** What a caller is told it may not do is exactly the capabilities with a
    check the authorizer did not allow, each with the reason of its first such
    check, and a bulk review names exactly the rows refused, by their position. *)
Theorem refusals_exact (held : list capability) (wanted : string) (refs : list ObjectRef) :
  Refused (answer (map dec) held) =
    omap (fun one => MkRefusal (name one) <$> refusedBy (checks one)) held /\
  b_Refused (ReviewEach (map dec) wanted refs) =
    omap id (imap (fun i ref => MkRowRefusal (Z.of_nat i) <$> refusedBy (wantedChecks wanted ref)) refs).
Proof.
  split.
  - cbn. induction held as [| one held IH]; cbn; [done |].
    rewrite take_map_app, drop_map_app, IH, <- firstRefusal_spec.
    by destruct (firstRefusal _ _) as [[]|].
  - unfold ReviewEach. cbn.
    assert (H : forall at_, rowRefusals (Z.of_nat at_) (map (wantedChecks wanted) refs)
        (map dec (concat (map (wantedChecks wanted) refs))) =
      omap id (imap (fun i ref => MkRowRefusal (Z.of_nat (at_ + i)) <$> refusedBy (wantedChecks wanted ref)) refs)).
    { induction refs as [| ref refs IH]; intros at_; cbn; [done |].
      rewrite take_map_app, drop_map_app, <- firstRefusal_spec.
      replace (Z.of_nat at_ + 1)%Z with (Z.of_nat (S at_)) by lia. rewrite IH, Nat.add_0_r.
      rewrite (imap_ext _ ((fun i ref => MkRowRefusal (Z.of_nat (at_ + i)) <$>
        refusedBy (wantedChecks wanted ref)) ∘ S)).
      2: { intros i x Hx. cbn. do 3 f_equal. lia. }
      by destruct (firstRefusal _ _) as [[]|]. }
    apply (H 0).
Qed.

Definition yes (c : Check) : bool := Allowed (dec c) && Answered (dec c).
Definition no (c : Check) : bool := negb (Allowed (dec c)) && Answered (dec c).

Lemma decideLoop_spec found wanted :
  found <> denied ->
  decideLoop found (map dec wanted) =
  if existsb no wanted then denied
  else if forallb (fun c => Answered (dec c)) wanted then found else unanswered.
Proof.
  revert found. induction wanted as [| c wanted IH]; intros found Hf; cbn; [done |].
  unfold no at 1. destruct (Answered (dec c)), (Allowed (dec c)); cbn; rewrite ?IH by done; try done;
    by repeat case_match.
Qed.

(** Where a caller may do something: everything wanted there is an answered
    yes. *)
Definition mayIn (checksIn : string -> list Check) (n : string) : bool :=
  negb (bool_decide (checksIn n = [])) && forallb yes (checksIn n).

(** Where it is not known: nothing wanted there is an answered no, and not
    everything is an answered yes. *)
Definition unsureIn (checksIn : string -> list Check) (n : string) : bool :=
  negb (existsb no (checksIn n)) && negb (mayIn checksIn n).

Lemma decide_spec checksIn n :
  decide_ (map dec (checksIn n)) =
  if mayIn checksIn n then allowed else if unsureIn checksIn n then unanswered else denied.
Proof.
  unfold unsureIn, mayIn. destruct (checksIn n) as [| c l] eqn:E; [done |].
  change (decide_ (map dec (c :: l))) with (decideLoop allowed (map dec (c :: l))).
  rewrite decideLoop_spec by done. rewrite bool_decide_false by done. cbn [negb andb].
  assert (H : forall l, existsb no l = false ->
    forallb yes l = forallb (fun c => Answered (dec c)) l).
  { induction l0 as [| x l0 IH]; [done |]. cbn. unfold no at 1, yes at 1.
    destruct (Allowed (dec x)), (Answered (dec x)); cbn; intros; rewrite ?IH by done; done. }
  destruct (existsb no (c :: l)) eqn:Hn; cbn [negb].
  - assert (forallb yes (c :: l) = false) as ->; [| done].
    apply not_true_iff_false. intros Hy. apply existsb_elem in Hn as (x & Hx & Hno).
    rewrite forallb_elem in Hy. specialize (Hy x Hx). unfold yes, no in *.
    by destruct (Allowed (dec x)), (Answered (dec x)).
  - rewrite (H (c :: l) Hn). by destruct (forallb _ _).
Qed.

(** The namespaces a caller is shown are exactly those where every check it
    needs is an answered yes, sorted; the undecided ones are exactly those with
    no answered no where some answer is missing; a namespace with an answered
    no is in neither list. *)
Theorem Where_exact (names : list string) (checksIn : string -> list Check) :
  Where (map dec) names checksIn =
    MkScope false (sort_by str_compare (List.filter (mayIn checksIn) names))
      (sort_by str_compare (List.filter (unsureIn checksIn) names)) /\
  (forall n, n ∈ Namespaces (Where (map dec) names checksIn) <-> n ∈ names /\ mayIn checksIn n = true) /\
  (forall n, existsb no (checksIn n) = true ->
     mayIn checksIn n = false /\ unsureIn checksIn n = false).
Proof.
  assert (H : Where (map dec) names checksIn =
    MkScope false (sort_by str_compare (List.filter (mayIn checksIn) names))
      (sort_by str_compare (List.filter (unsureIn checksIn) names))).
  { unfold Where.
    assert (Hv : verdicts names checksIn (map dec (flat_map checksIn names)) =
      (List.filter (mayIn checksIn) names, List.filter (unsureIn checksIn) names)); [| by rewrite Hv].
    induction names as [| n names IH]; cbn; [done |].
    rewrite take_map_app, drop_map_app, IH, decide_spec.
    destruct (unsureIn checksIn n) eqn:Hu, (mayIn checksIn n) eqn:Hm; try done.
    unfold unsureIn in Hu. rewrite Hm in Hu. by rewrite andb_false_r in Hu. }
  split; [done |]. split.
  - intros n. rewrite H. cbn. by rewrite sort_by_elem, filter_elem.
  - intros n Hn. assert (Hm : mayIn checksIn n = false).
    { unfold mayIn. apply andb_false_iff. right. apply not_true_iff_false. intros Hy.
      apply existsb_elem in Hn as (x & Hx & Hno). rewrite forallb_elem in Hy. specialize (Hy x Hx).
      unfold yes, no in *. by destruct (Allowed (dec x)), (Answered (dec x)). }
    split; [done |]. unfold unsureIn. by rewrite Hn.
Qed.
End verdicts.

(** ** Concurrent reviews *)

(** Where a review is: it took a slot of the channel, was turned away for its
    identity's limit, is asking the API server, lowered its count on release,
    or is over. *)
Inductive phase := Entered | Turned | Asking | Lowered | Over.

#[export] Instance phase_eq_dec : EqDecision phase.
Proof. solve_decision. Defined.

Abbreviation reviews := (list (string * phase)).

(** The service, the reviews begun, the decisions the API server gave, and the
    clock. *)
Record world := MkWorld { svc : service; running : reviews; log : list (question * Decision_ * time); clk : time }.

Definition holdsSlot (p : string * phase) : bool := negb (bool_decide (p.2 = Over)).
Definition asks (identity : string) (p : string * phase) : bool :=
  bool_decide (p = (identity, Asking)).

Inductive step : world -> world -> Prop :=
| step_enter w identity s :
    takeSlot (svc w) = Some s ->
    step w (MkWorld s (running w ++ [(identity, Entered)]) (log w) (clk w))
| step_admit w i identity s :
    running w !! i = Some (identity, Entered) -> startAsking (svc w) identity = Some s ->
    step w (MkWorld s (<[i := (identity, Asking)]> (running w)) (log w) (clk w))
| step_turn w i identity :
    running w !! i = Some (identity, Entered) -> startAsking (svc w) identity = None ->
    step w (MkWorld (svc w) (<[i := (identity, Turned)]> (running w)) (log w) (clk w))
| step_turned w i identity :
    running w !! i = Some (identity, Turned) ->
    step w (MkWorld (giveSlot (svc w)) (<[i := (identity, Over)]> (running w)) (log w) (clk w))
| step_answer w i identity check r d now order :
    running w !! i = Some (identity, Asking) -> (clk w <= now)%Z ->
    decisionOf r = (d, true) ->
    order ≡ₚ map_to_list (freshSeen (svc w) now) ->
    step w (MkWorld (remember (svc w) (identity, check) d now order) (running w)
              (log w ++ [((identity, check), d, now)]) now)
| step_recall w want now :
    (clk w <= now)%Z -> step w (MkWorld (recall (svc w) want now).1 (running w) (log w) now)
| step_lower w i identity :
    running w !! i = Some (identity, Asking) ->
    step w (MkWorld (lower (svc w) identity) (<[i := (identity, Lowered)]> (running w)) (log w) (clk w))
| step_leave w i identity :
    running w !! i = Some (identity, Lowered) ->
    step w (MkWorld (giveSlot (svc w)) (<[i := (identity, Over)]> (running w)) (log w) (clk w)).

Definition begin : world := MkWorld New [] [] 1.

Record inv (w : world) : Prop := {
  i_slots : slots (svc w) = counted holdsSlot (running w);
  i_global : (slots (svc w) <= globalReviewLimit)%Z;
  i_flight : forall s, inFlight (svc w) !! s =
    if (counted (asks s) (running w) =? 0)%Z then None else Some (counted (asks s) (running w));
  i_identity : forall s, (counted (asks s) (running w) <= identityReviewLimit)%Z;
  i_seen : forall q a, seen (svc w) !! q = Some a ->
    (q, decision a, asked a) ∈ log w /\ Answered (decision a) = true /\ (asked a <= clk w)%Z;
  i_size : (Z.of_nat (size (seen (svc w))) <= rememberedLimit)%Z;
  i_const : ttl (svc w) = remembered /\ capacity (svc w) = rememberedLimit /\
    globalSlots (svc w) = globalReviewLimit /\ identityLimit (svc w) = identityReviewLimit;
}.

Lemma oldestSeen_in order :
  (oldestSeen order).1 = None \/ exists k a, (oldestSeen order).1 = Some k /\ (k, a) ∈ order.
Proof.
  unfold oldestSeen.
  assert (H : forall (l : list (question * answer_)) (acc : option question * time),
    let r := fold_left (fun '(oldest, oldestAt) '(key, held) =>
      if IsZero oldestAt || Before (asked held) oldestAt then (Some key, asked held)
      else (oldest, oldestAt)) l acc in
    r.1 = acc.1 \/ exists k a, r.1 = Some k /\ (k, a) ∈ l).
  { induction l as [| [k a] l IH]; intros [o oa]; cbn; [by left |].
    destruct (_ || _).
    - destruct (IH (Some k, asked a)) as [-> | (k' & a' & ? & ?)]; right; [exists k, a | exists k', a'];
        split; cbn; auto; [left | by right].
    - destruct (IH (o, oa)) as [-> | (k' & a' & ? & ?)]; [by left | right; exists k', a'].
      split; [done | by right]. }
  destruct (H order (None, zeroTime)) as [-> | ?]; [by left | by right].
Qed.

(** The eviction loop finds a key whenever there is one. *)
Lemma oldestSeen_some order : order <> [] -> (oldestSeen order).1 <> None.
Proof.
  unfold oldestSeen. destruct order as [| [k a] order]; [done |]. intros _. cbn.
  assert (H : forall (l : list (question * answer_)) (o : option question) (oa : time),
      o <> None -> (fold_left (fun '(oldest, oldestAt) '(key, held) =>
      if IsZero oldestAt || Before (asked held) oldestAt then (Some key, asked held)
      else (oldest, oldestAt)) l (o, oa)).1 <> None).
  { induction l as [| [k' a'] l IH]; intros o oa Ho; cbn; [done |]. by destruct (_ || _); apply IH. }
  by apply H.
Qed.

Lemma freshSeen_lookup s now q a :
  freshSeen s now !! q = Some a -> seen s !! q = Some a.
Proof. unfold freshSeen. rewrite map_lookup_filter_Some. by intros []. Qed.

(** What the cache holds after a decision is remembered. *)
Lemma remember_spec s want d now order :
  order ≡ₚ map_to_list (freshSeen s now) ->
  (0 < capacity s)%Z -> (Z.of_nat (size (seen s)) <= capacity s)%Z ->
  (forall q a, seen (remember s want d now order) !! q = Some a ->
     (q = want /\ a = MkAnswer d now) \/ seen s !! q = Some a) /\
  seen (remember s want d now order) !! want = Some (MkAnswer d now) /\
  (Z.of_nat (size (seen (remember s want d now order))) <= capacity s)%Z.
Proof.
  intros Ho Hc Hs. unfold remember, with_seen. cbn. set (kept := freshSeen s now) in *.
  assert (Hk : (Z.of_nat (size kept) <= capacity s)%Z).
  { enough (size kept <= size (seen s)) by lia. apply map_subseteq_size, map_filter_subseteq. }
  assert (Hlim : limitOr (capacity s) rememberedLimit = capacity s).
  { unfold limitOr. by replace (capacity s <=? 0)%Z with false by (symmetry; apply Z.leb_gt; lia). }
  set (kept' := if _ && _ then _ else kept).
  assert (Hsub : forall q a, kept' !! q = Some a -> seen s !! q = Some a).
  { intros q a Hq. apply (freshSeen_lookup s now). fold kept. subst kept'.
    case_match; [| done]. case_match; [| done]. by apply lookup_delete_Some in Hq as [_ ?]. }
  assert (Hsz : kept' !! want = None -> (Z.of_nat (size kept') + 1 <= capacity s)%Z).
  { intros Hw. subst kept'. rewrite Hlim in *. destruct (_ && _) eqn:E.
    - breflect. assert (size kept <> 0) as Hne by lia.
      assert (order <> []) as Hord.
      { intros ->. apply Permutation_nil_l in Ho. symmetry in Ho. apply map_to_list_empty_iff in Ho.
        apply Hne. by rewrite Ho, map_size_empty. }
      destruct (oldestSeen_in order) as [? | (k & a & Hk' & Hin)]; [by apply oldestSeen_some in Hord |].
      rewrite Hk' in *. rewrite Ho in Hin. apply elem_of_map_to_list in Hin.
      rewrite map_size_delete, Hin. cbn. lia.
    - apply andb_false_iff in E as [E | E]; breflect; [done | lia]. }
  split; [| split; [apply lookup_insert_eq |]].
  - intros q a. rewrite lookup_insert_Some. intros [[<- <-] | [_ ?]]; [by left | right; auto].
  - destruct (kept' !! want) as [a |] eqn:Hw.
    + rewrite map_size_insert_Some by (by exists a).
      enough (size kept' <= size kept) by lia. subst kept'. case_match; [| done]. case_match; [| done].
      apply map_subseteq_size, delete_subseteq.
    + rewrite map_size_insert_None by done. specialize (Hsz eq_refl). lia.
Qed.

Ltac inv_world H := destruct H as [Hsl Hgl Hfl Hid Hse Hsz (Httl & Hcap & Hgs & Hil)].

Lemma inv_phase w i identity p q s :
  inv w -> running w !! i = Some (identity, p) ->
  seen s = seen (svc w) -> ttl s = ttl (svc w) -> capacity s = capacity (svc w) ->
  globalSlots s = globalSlots (svc w) -> identityLimit s = identityLimit (svc w) ->
  slots s = (slots (svc w) - one (holdsSlot (identity, p)) + one (holdsSlot (identity, q)))%Z ->
  (one (holdsSlot (identity, q)) <= one (holdsSlot (identity, p)))%Z ->
  (q = Asking -> (counted (asks identity) (running w) + 1 <= identityReviewLimit)%Z) ->
  (forall x, inFlight s !! x =
     let n := (counted (asks x) (running w) - one (asks x (identity, p)) + one (asks x (identity, q)))%Z in
     if (n =? 0)%Z then None else Some n) ->
  inv (MkWorld s (<[i := (identity, q)]> (running w)) (log w) (clk w)).
Proof.
  intros H Hi E1 E2 E3 E4 E5 Hs Hle Hq Hf. inv_world H.
  pose proof (fun f => counted_insert f (running w) i (identity, p) (identity, q) Hi) as Hc.
  split; cbn; rewrite ?E1, ?E2, ?E3, ?E4, ?E5, ?Hc; auto; [lia | lia | |].
  - intros x. rewrite Hc. apply Hf.
  - intros x. rewrite Hc. specialize (Hid x). unfold asks in *. cbn.
    destruct (decide (q = Asking)) as [-> | Hne].
    + specialize (Hq eq_refl). destruct (decide (x = identity)) as [-> | Hx].
      * repeat case_bool_decide; unfold one; lia.
      * repeat case_bool_decide; unfold one; try lia; congruence.
    + rewrite (bool_decide_false ((identity, q) = _)) by congruence. case_bool_decide; unfold one; lia.
Qed.

Lemma takeSlot_spec s s' : takeSlot s = Some s' ->
  (slots s < globalSlots s)%Z /\ s' = with_slots s (inFlight s) (slots s + 1).
Proof. unfold takeSlot. destruct (Z.ltb_spec (slots s) (globalSlots s)); [by intros [= <-] | done]. Qed.

Lemma count_flight w s : inv w -> count (inFlight (svc w)) s = counted (asks s) (running w).
Proof. intros H. inv_world H. unfold count. rewrite Hfl. case_match; breflect; cbn; lia. Qed.

Lemma asks_refl identity : asks identity (identity, Asking) = true.
Proof. by apply bool_decide_eq_true. Qed.

Lemma asks_other x identity p : p <> Asking -> asks x (identity, p) = false.
Proof. intros. apply bool_decide_eq_false. congruence. Qed.

Lemma asks_ne x identity p : x <> identity -> asks x (identity, p) = false.
Proof. intros. apply bool_decide_eq_false. congruence. Qed.

Lemma slot_one identity p : one (holdsSlot (identity, p)) = match p with Over => 0%Z | _ => 1%Z end.
Proof. by destruct p. Qed.

Ltac phase H Hi :=
  eapply inv_phase; [exact H | exact Hi | done | done | done | done | done
    | rewrite !slot_one; cbn; lia | rewrite !slot_one; cbn; lia | try done | intros x].

Lemma slots_step w w' : inv w -> step w w' -> inv w'.
Proof.
  intros H Hst. pose proof H as Hw. inv_world Hw.
  destruct Hst as [w identity s Ht | w i identity s Hi Ha | w i identity Hi Ha | w i identity Hi
    | w i identity check r d now order Hi Hn Hd Ho | w want now Hn | w i identity Hi | w i identity Hi].
  - apply takeSlot_spec in Ht as [Hlt ->]. split; cbn; auto.
    + rewrite counted_snoc, Hsl. done.
    + lia.
    + intros x. rewrite counted_snoc, asks_other by done. cbn. rewrite Z.add_0_r. apply Hfl.
    + intros x. rewrite counted_snoc, asks_other by done. cbn. rewrite Z.add_0_r. apply Hid.
  - unfold startAsking in Ha. rewrite Hil, (count_flight w identity H) in Ha. case_match eqn:Hc; [done |].
    injection Ha as <-. breflect. unfold limitOr in Hc. cbn in Hc.
    phase H Hi; [intros _; lia |]. cbn. rewrite (asks_other x identity Entered) by done. cbn.
    pose proof (counted_nonneg (asks identity) (running w)).
    destruct (decide (x = identity)) as [-> | Hx].
    + rewrite lookup_insert_eq, asks_refl. cbn.
      replace (counted (asks identity) (running w) - 0 + 1 =? 0)%Z with false by lia. f_equal. lia.
    + rewrite lookup_insert_ne, asks_ne, Hfl by done. cbn. by rewrite Z.sub_0_r, Z.add_0_r.
  - phase H Hi.
    rewrite !asks_other, Hfl by done. cbn. by rewrite Z.sub_0_r, Z.add_0_r.
  - phase H Hi.
    rewrite !asks_other, Hfl by done. cbn. by rewrite Z.sub_0_r, Z.add_0_r.
  - destruct (remember_spec (svc w) (identity, check) d now order Ho) as (Hin & _ & Hsz').
    { rewrite Hcap. done. }
    { by rewrite Hcap. }
    split; cbn; auto; [| by rewrite Hcap in Hsz'].
    intros q a Hq. apply Hin in Hq as [[-> ->] | Hq]; cbn.
    + split; [apply elem_of_app; right; by left |]. split; [| done].
      unfold decisionOf in Hd. repeat case_match; try done; by injection Hd as <-.
    + destruct (Hse q a Hq) as (? & ? & ?). split; [apply elem_of_app; by left |]. split; [done | lia].
  - unfold recall. case_match eqn:Hq; [case_match eqn:Hage |]; cbn; split; cbn; auto;
      try (intros q b Hb; try apply lookup_delete_Some in Hb as [_ Hb];
           destruct (Hse q b Hb) as (? & ? & ?); repeat split; auto; lia).
    enough (size (delete want (seen (svc w))) <= size (seen (svc w))) by lia.
    apply map_subseteq_size, delete_subseteq.
  - pose proof (counted_pos (asks identity) _ _ _ Hi (asks_refl identity)).
    phase H Hi. unfold lower.
    rewrite (count_flight w identity H), (asks_other x identity Lowered) by done. cbn.
    destruct (decide (x = identity)) as [-> | Hx].
    + rewrite asks_refl. cbn. rewrite Z.add_0_r.
      case_match; [apply lookup_delete_eq | apply lookup_insert_eq].
    + rewrite asks_ne by done. cbn. rewrite Z.sub_0_r, Z.add_0_r, <- Hfl.
      case_match; rewrite ?lookup_delete_ne, lookup_insert_ne by done; done.
  - phase H Hi.
    rewrite !asks_other, Hfl by done. cbn. by rewrite Z.sub_0_r, Z.add_0_r.
Qed.

Lemma slots_begin : inv begin.
Proof. split; cbn; try done; intros; by rewrite lookup_empty in *. Qed.

Lemma slots_reach w : rtc step begin w -> inv w.
Proof.
  assert (H : forall w w', rtc step w w' -> inv w -> inv w').
  { induction 1 as [| w1 w2 w3 Hs _ IH]; [done |]. intros Hi. apply IH. by eapply slots_step. }
  intros Hr. by apply (H begin), slots_begin.
Qed.

(** C27: a cached decision is only ever given to the caller it was made for, about
    the very check it was made for, as the API server's answered decision, at
    most thirty seconds old; and the cache never holds more than its limit. *)
Theorem recall_sound (w : world) (want : question) (now : time) (d : Decision_) :
  rtc step begin w -> (clk w <= now)%Z ->
  (recall (svc w) want now).2 = Some d ->
  Answered d = true /\
  (exists t, (want, d, t) ∈ log w /\ (t <= now <= t + 30 * Second)%Z) /\
  (Z.of_nat (size (seen (svc w))) <= rememberedLimit)%Z.
Proof.
  intros Hr Hn Hrc. apply slots_reach in Hr. inv_world Hr. unfold recall in Hrc.
  destruct (seen (svc w) !! want) as [a |] eqn:Ha; [| done]. case_match eqn:Hage; [done |].
  injection Hrc as <-. destruct (Hse want a Ha) as (Hin & Hans & Hle). breflect.
  rewrite Httl in Hage. unfold remembered in *.
  assert (now <= asked a + 30 * Second)%Z by (apply tsub_le; [vm_compute; split; done | done]).
  split; [done |]. split; [exists (asked a); split; [done | lia] | done].
Qed.

(** However reviews are claimed, turned away and released, at most 32 of
    them hold a slot at once and at most 8 of one caller are asking; the counts
    are exact, so when every review is over no slot and no count is left. *)
Theorem reviews_bounded (w : world) (identity : string) :
  rtc step begin w ->
  (counted holdsSlot (running w) <= 32)%Z /\ (counted (asks identity) (running w) <= 8)%Z /\
  slots (svc w) = counted holdsSlot (running w) /\
  (Forall (fun p => p.2 = Over) (running w) -> slots (svc w) = 0%Z /\ inFlight (svc w) = ∅).
Proof.
  intros Hr. apply slots_reach in Hr. inv_world Hr. rewrite <- Hsl.
  split; [done |]. split; [apply Hid |]. split; [done |]. intros Hov.
  assert (Hz : forall f, (forall s, f (s, Over) = false) -> counted f (running w) = 0%Z).
  { intros f Hf. unfold counted. clear -Hov Hf. induction Hov as [| [s p] l Hp Hl IH]; [done |].
    cbn in *. subst. by rewrite Hf. }
  split; [rewrite Hsl; by apply Hz |]. apply map_eq. intros s. rewrite Hfl, Hz, lookup_empty; [done |].
  intros x. by apply asks_other.
Qed.

(** ** Examples *)

(** A quoting that computes: the bits of every byte, and a mark at the end. *)
Definition bit (b : bool) : ascii := if b then "1"%char else "0"%char.

Fixpoint bitQuote (s : string) : string :=
  match s with
  | EmptyString => "$"
  | String (Ascii a b c d e f g h) s =>
      String (bit a) (String (bit b) (String (bit c) (String (bit d)
        (String (bit e) (String (bit f) (String (bit g) (String (bit h) (bitQuote s))))))))
  end.

Lemma bit_inj a b : bit a = bit b -> a = b.
Proof. by destruct a, b. Qed.

Lemma bitQuote_inj s t : bitQuote s = bitQuote t -> s = t.
Proof.
  revert t. induction s as [| [a b c d e f g h] s IH]; intros [| [a' b' c' d' e' f' g' h'] t]; cbn;
    [done | destruct a'; done | destruct a; done |].
  intros [= H1 H2 H3 H4 H5 H6 H7 H8 Hs].
  apply bit_inj in H1, H2, H3, H4, H5, H6, H7, H8. apply IH in Hs. by subst.
Qed.

#[export] Instance exampleQuoting : Quoting.
Proof.
  refine {| Quote := bitQuote; Quote_inj := bitQuote_inj |}.
  - induction s as [| [a b c d e f g h] s IH]; cbn; [by repeat constructor |].
    assert (Hb : forall x, bit x <> NUL) by (by intros []). repeat constructor; auto.
  - by intros [| [a b c d e f g h] s].
Defined.

Lemma asking_tells_apart_witness :
  asking (Some (MkIdentity "ana" ["ops"; "dev"] RoleViewer "s1")) =
  asking (Some (MkIdentity "ana" ["dev"; "ops"] RoleAdmin "s2")).
Proof.
  apply asking_tells_apart. split; [reflexivity |]. apply Permutation_swap.
Defined.

Definition getPods : Check := MkCheck "get" "" "pods" "" "shop" "".
Definition listNodes : Check := MkCheck "list" "" "nodes" "" "" "".
Definition granted : Decision_ := MkDecision true true "".

Lemma Require_sound_witness :
  Require true (Some (MkIdentity "ana" [] RoleViewer "s1")) [getPods; listNodes; getPods]
    (fun cs => review cs [Some granted; None; None] [(getPods, [2]); (listNodes, [1])] (fun _ => granted))
  = None.
Proof.
  apply Require_sound.
  - reflexivity.
  - vm_compute. reflexivity.
  - right. intros [| [| [| i]]] c h Hc Hh; cbn in *; try done; injection Hh as <-; by split.
Defined.

Definition asksOnce : world :=
  MkWorld (with_slots New {["k" := 1%Z]} 1) [("k", Asking)] [] 1.

Definition answeredOnce : world :=
  MkWorld (remember (svc asksOnce) ("k", getPods) granted 5 []) [("k", Asking)]
    [(("k", getPods), granted, 5%Z)] 5.

Lemma answeredOnce_reached : rtc step begin answeredOnce.
Proof.
  eapply rtc_l; [by apply (step_enter begin "k") |].
  eapply rtc_l; [by apply (step_admit _ 0 "k") |]. cbn.
  apply rtc_once.
  apply (step_answer asksOnce 0 "k" getPods (ReviewAnswered true "" "") granted 5 []); try done.
Qed.

Lemma recall_sound_witness :
  Answered granted = true /\
  (exists t, (("k", getPods), granted, t) ∈ log answeredOnce /\ (t <= 6 <= t + 30 * Second)%Z) /\
  (Z.of_nat (size (seen (svc answeredOnce))) <= rememberedLimit)%Z.
Proof.
  apply (recall_sound answeredOnce ("k", getPods) 6 granted).
  - exact answeredOnce_reached.
  - vm_compute. discriminate.
  - vm_compute. reflexivity.
Defined.

Lemma reviews_bounded_witness : slots (svc answeredOnce) = counted holdsSlot (running answeredOnce).
Proof. apply (reviews_bounded answeredOnce "k"), answeredOnce_reached. Defined.

End Access.
