(* ===== verification/PortForward.v ===== *)
(** internal/portforward/registry.go: the registry of port forwards.  Each
    critical section under the mutex is a function on the registry; the
    goroutines that start, watch, stop and move forwards interleave between
    them as steps of a system.  The runner, the resolver and the prober are
    interfaces: what they answer is the choice of the step. *)

From S2P Require Import Prelude Identity.

Module PortForward.
Import Identity.

Definition KindPod : string := "Pod".
Definition KindService : string := "Service".
Definition StateRunning : string := "running".
Definition StateFailed : string := "failed".

Record startKey := MkStartKey { k_kind : string; k_namespace : string; k_name : string; k_port : Z }.

#[export] Instance startKey_eq_dec : EqDecision startKey.
Proof. solve_decision. Defined.
#[export] Instance startKey_countable : Countable startKey.
Proof.
  refine (inj_countable' (fun k => (k_kind k, k_namespace k, k_name k, k_port k))
    (fun '(a, b, c, d) => MkStartKey a b c d) _). by intros [].
Defined.

Record forward_ := MkForward {
  ID : string;
  Kind : string;
  Namespace : string;
  Name : string;
  Pod : string;
  RemotePort : Z;
  LocalPort : Z;
  State : string;
  Error : string;
}.

(** A record holds its run by name: the run's stop channel is closed when the
    run is halted. *)
Record record_ := MkRecord {
  forward : forward_;
  current : nat;
  acting : option Identity;
  replacing : bool;
}.

Record registry := MkRegistry {
  forwards : gmap string record_;
  starting : gmap startKey nat;
  sequence : Z;
  stopped : bool;
}.

Definition newRegistry : registry := MkRegistry ∅ ∅ 0 false.

Definition keyOf (f : forward_) : startKey := MkStartKey (Kind f) (Namespace f) (Name f) (RemotePort f).

(** [matchLocked]: the first running forward of the target in the map's order. *)
Definition matchLocked (order : list (string * record_)) (key : startKey) : option forward_ :=
  List.find (fun f => bool_decide (State f = StateRunning) && bool_decide (keyOf f = key))
    (map (fun p => forward p.2) order).

Inductive reservation := Stopped | Found (f : forward_) | Wait (pending : nat) | Reserved.

(** [reserve]; [ch] is the channel it makes. *)
Definition reserve (r : registry) (key : startKey) (ch : nat) (order : list (string * record_)) :
    registry * reservation :=
  if stopped r then (r, Stopped)
  else match matchLocked order key with
  | Some f => (r, Found f)
  | None =>
      match starting r !! key with
      | Some pending => (r, Wait pending)
      | None => (MkRegistry (forwards r) (<[key := ch]> (starting r)) (sequence r) (stopped r), Reserved)
      end
  end.

(** [release]: the channel it closes, under the mutex. *)
Definition release (r : registry) (key : startKey) : registry * option nat :=
  match starting r !! key with
  | None => (r, None)
  | Some pending => (MkRegistry (forwards r) (delete key (starting r)) (sequence r) (stopped r), Some pending)
  end.

Definition sequentialID (n : Z) : string := "pf-" +s+ pretty n.

(** [register]: [None] when the registry has stopped. *)
Definition register (r : registry) (key : startKey) (pod : string) (local : Z) (active : nat)
    (actor : option Identity) : registry * option forward_ :=
  if stopped r then (r, None)
  else
    let n := (sequence r + 1)%Z in
    let f := MkForward (sequentialID n) (k_kind key) (k_namespace key) (k_name key) pod (k_port key)
               local StateRunning "" in
    (MkRegistry (<[ID f := MkRecord f active actor false]> (forwards r)) (starting r) n (stopped r), Some f).

Definition with_forward (e : record_) (f : forward_) (run : nat) (repl : bool) : record_ :=
  MkRecord f run (acting e) repl.

Definition set_forwards (r : registry) (m : gmap string record_) : registry :=
  MkRegistry m (starting r) (sequence r) (stopped r).

Definition fail_forward (f : forward_) (message : string) : forward_ :=
  MkForward (ID f) (Kind f) (Namespace f) (Name f) (Pod f) (RemotePort f) (LocalPort f) StateFailed message.

(** The end of [watch]: [err] is what the runner returned. *)
Definition watchEnd (r : registry) (id : string) (active : nat) (err : option string) : registry :=
  match forwards r !! id with
  | None => r
  | Some entry =>
      if bool_decide (current entry <> active) then r
      else if replacing entry then r
      else if bool_decide (State (forward entry) = StateFailed) then r
      else match err with
      | None => set_forwards r (delete id (forwards r))
      | Some e =>
          set_forwards r (<[id := with_forward entry (fail_forward (forward entry) e) (current entry)
                                    (replacing entry)]> (forwards r))
      end
  end.

Definition beginReplace (r : registry) (id : string) : registry * option nat :=
  if stopped r then (r, None)
  else match forwards r !! id with
  | None => (r, None)
  | Some entry =>
      if replacing entry then (r, None)
      else (set_forwards r (<[id := with_forward entry (forward entry) (current entry) true]> (forwards r)),
            Some (current entry))
  end.

(** [adopt]: whether the new run was taken over. *)
Definition adopt (r : registry) (id pod : string) (local : Z) (active : nat) : registry * bool :=
  match forwards r !! id with
  | None => (r, false)
  | Some entry =>
      if stopped r then (r, false)
      else
        let f := forward entry in
        let moved := MkForward (ID f) (Kind f) (Namespace f) (Name f) pod (RemotePort f) local StateRunning "" in
        (set_forwards r (<[id := with_forward entry moved active false]> (forwards r)), true)
  end.

(** [fail]: the run it halts after unlocking. *)
Definition fail (r : registry) (id message : string) : registry * option nat :=
  match forwards r !! id with
  | None => (r, None)
  | Some entry =>
      (set_forwards r (<[id := with_forward entry (fail_forward (forward entry) message) (current entry)
                                false]> (forwards r)), Some (current entry))
  end.

Definition Stop (r : registry) (id : string) : registry * option nat :=
  match forwards r !! id with
  | None => (r, None)
  | Some entry => (set_forwards r (delete id (forwards r)), Some (current entry))
  end.

(** [StopAll]: the runs it halts and the channels it closes after unlocking. *)
Definition StopAll (r : registry) : registry * list nat * list nat :=
  (MkRegistry ∅ ∅ (sequence r) true,
   map (fun p => current p.2) (map_to_list (forwards r)),
   map snd (map_to_list (starting r))).

Definition List_ (r : registry) : list forward_ :=
  sort_by (cmp_on ID str_compare) (map (fun p => forward p.2) (map_to_list (forwards r))).

(** ** The system: goroutines interleaving between critical sections *)

(** A run still forwards until it is halted or its runner returned. *)
Inductive status := Live | Over.

(** A goroutine: [Start] after its reservation, with the run it launched, with
    a run the registry refused, or about to release; the watcher of a run; or
    one with runs left to halt and channels left to close. *)
Inductive thread :=
| Reserving (key : startKey)
| Launched (key : startKey) (run : nat)
| Refused (key : startKey) (run : nat)
| Releasing (key : startKey)
| Watching (id : string) (run : nat)
| Cleaning (halts closes : list nat).

(** The one goroutine that moves forwards off dead pods ([reapLoop]); [pass] is
    what is left of the forwards its pass listed as running. *)
Inductive reaper := Idle | Taken (id : string) (previous : nat) | Awaiting (id : string)
| Restarting (id : string) (active : nat) | Failing (id : string).

Record system := MkSystem {
  reg : registry;
  chans : gmap nat bool;
  runs : gmap nat status;
  threads : gmap nat thread;
  reap : reaper;
  panicked : bool;
  pass : list string;
}.

(** [halt] works any number of times. *)
Definition halt (m : gmap nat status) (run : nat) : gmap nat status := <[run := Over]> m.

(** [close] of a channel that is not open panics. *)
Definition closing (s : system) (ch : nat) : gmap nat bool * bool :=
  match chans s !! ch with
  | Some false => (<[ch := true]> (chans s), panicked s)
  | _ => (chans s, true)
  end.

Inductive step : system -> system -> Prop :=
| step_reserve s key ch t order r' :
    order ≡ₚ map_to_list (forwards (reg s)) ->
    reserve (reg s) key ch order = (r', Reserved) -> chans s !! ch = None -> threads s !! t = None ->
    step s (MkSystem r' (<[ch := false]> (chans s)) (runs s) (<[t := Reserving key]> (threads s)) (reap s) (panicked s) (pass s))
| step_giveup s t key :
    threads s !! t = Some (Reserving key) ->
    step s (MkSystem (reg s) (chans s) (runs s) (<[t := Releasing key]> (threads s)) (reap s) (panicked s) (pass s))
| step_launch s t key run :
    threads s !! t = Some (Reserving key) -> runs s !! run = None ->
    step s (MkSystem (reg s) (chans s) (<[run := Live]> (runs s)) (<[t := Launched key run]> (threads s)) (reap s) (panicked s) (pass s))
| step_abort s t key run :
    threads s !! t = Some (Launched key run) \/ threads s !! t = Some (Refused key run) ->
    step s (MkSystem (reg s) (chans s) (halt (runs s) run) (<[t := Releasing key]> (threads s)) (reap s) (panicked s) (pass s))
| step_register s t key run pod local actor r' f w :
    threads s !! t = Some (Launched key run) -> threads s !! w = None ->
    register (reg s) key pod local run actor = (r', Some f) ->
    step s (MkSystem r' (chans s) (runs s)
              (<[w := Watching (ID f) run]> (<[t := Releasing key]> (threads s))) (reap s) (panicked s) (pass s))
| step_refused s t key run pod local actor r' :
    threads s !! t = Some (Launched key run) ->
    register (reg s) key pod local run actor = (r', None) ->
    step s (MkSystem r' (chans s) (runs s) (<[t := Refused key run]> (threads s)) (reap s) (panicked s) (pass s))
| step_release s t key r' :
    threads s !! t = Some (Releasing key) -> release (reg s) key = (r', None) ->
    step s (MkSystem r' (chans s) (runs s) (delete t (threads s)) (reap s) (panicked s) (pass s))
| step_release_close s t key r' ch :
    threads s !! t = Some (Releasing key) -> release (reg s) key = (r', Some ch) ->
    step s (MkSystem r' (closing s ch).1 (runs s) (delete t (threads s)) (reap s) (closing s ch).2 (pass s))
| step_watch s t id run err :
    threads s !! t = Some (Watching id run) ->
    step s (MkSystem (watchEnd (reg s) id run err) (chans s) (halt (runs s) run) (delete t (threads s)) (reap s) (panicked s) (pass s))
| step_stop s id t r' run :
    threads s !! t = None -> Stop (reg s) id = (r', Some run) ->
    step s (MkSystem r' (chans s) (runs s) (<[t := Cleaning [run] []]> (threads s)) (reap s) (panicked s) (pass s))
| step_stopall s t r' halts closes :
    threads s !! t = None -> StopAll (reg s) = (r', halts, closes) ->
    step s (MkSystem r' (chans s) (runs s) (<[t := Cleaning halts closes]> (threads s)) (reap s) (panicked s) (pass s))
| step_halt s t run halts closes :
    threads s !! t = Some (Cleaning (run :: halts) closes) ->
    step s (MkSystem (reg s) (chans s) (halt (runs s) run) (<[t := Cleaning halts closes]> (threads s)) (reap s) (panicked s) (pass s))
| step_close s t ch closes :
    threads s !! t = Some (Cleaning [] (ch :: closes)) ->
    step s (MkSystem (reg s) (closing s ch).1 (runs s) (<[t := Cleaning [] closes]> (threads s)) (reap s) (closing s ch).2 (pass s))
| step_clean s t :
    threads s !! t = Some (Cleaning [] []) ->
    step s (MkSystem (reg s) (chans s) (runs s) (delete t (threads s)) (reap s) (panicked s) (pass s))
| step_pass s :
    reap s = Idle -> pass s = [] ->
    step s (MkSystem (reg s) (chans s) (runs s) (threads s) (reap s) (panicked s)
              (map ID (List.filter (fun f => bool_decide (State f = StateRunning)) (List_ (reg s)))))
| step_alive s id ids :
    reap s = Idle -> pass s = id :: ids ->
    step s (MkSystem (reg s) (chans s) (runs s) (threads s) (reap s) (panicked s) ids)
| step_taken s id ids r' previous :
    reap s = Idle -> pass s = id :: ids -> beginReplace (reg s) id = (r', Some previous) ->
    step s (MkSystem r' (chans s) (runs s) (threads s) (Taken id previous) (panicked s) ids)
| step_reap_fail s id ids message r' run t :
    reap s = Idle -> pass s = id :: ids -> fail (reg s) id message = (r', Some run) -> threads s !! t = None ->
    step s (MkSystem r' (chans s) (runs s) (<[t := Cleaning [run] []]> (threads s)) (reap s) (panicked s) ids)
| step_halted s id previous :
    reap s = Taken id previous ->
    step s (MkSystem (reg s) (chans s) (halt (runs s) previous) (threads s) (Awaiting id) (panicked s) (pass s))
| step_restart s id run :
    reap s = Awaiting id -> runs s !! run = None ->
    step s (MkSystem (reg s) (chans s) (<[run := Live]> (runs s)) (threads s) (Restarting id run) (panicked s) (pass s))
| step_adopt s id pod local run r' w :
    reap s = Restarting id run -> threads s !! w = None -> adopt (reg s) id pod local run = (r', true) ->
    step s (MkSystem r' (chans s) (runs s) (<[w := Watching id run]> (threads s)) Idle (panicked s) (pass s))
| step_orphan s id pod local run r' :
    reap s = Restarting id run -> adopt (reg s) id pod local run = (r', false) ->
    step s (MkSystem r' (chans s) (halt (runs s) run) (threads s) Idle (panicked s) (pass s))
| step_failing s id run :
    reap s = Restarting id run ->
    step s (MkSystem (reg s) (chans s) (halt (runs s) run) (threads s) (Failing id) (panicked s) (pass s))
| step_failed s id message r' run t :
    reap s = Failing id -> fail (reg s) id message = (r', Some run) -> threads s !! t = None ->
    step s (MkSystem r' (chans s) (runs s) (<[t := Cleaning [run] []]> (threads s)) Idle (panicked s) (pass s))
| step_failed_gone s id message r' :
    reap s = Failing id -> fail (reg s) id message = (r', None) ->
    step s (MkSystem r' (chans s) (runs s) (threads s) Idle (panicked s) (pass s)).

Definition begin : system := MkSystem newRegistry ∅ ∅ ∅ Idle false [].

(** ** What each goroutine holds *)

Definition closesOf (th : thread) : list nat := match th with Cleaning _ cs => cs | _ => [] end.

Definition keyHeld (th : thread) : option startKey :=
  match th with
  | Reserving k | Launched k _ | Refused k _ | Releasing k => Some k
  | Watching _ _ | Cleaning _ _ => None
  end.

Definition runsHeld (th : thread) : list nat :=
  match th with Launched _ r | Refused _ r => [r] | Cleaning hs _ => hs | _ => [] end.

(** The same by goroutine; one that is gone holds nothing. *)
Definition at_thread {A} (f : thread -> A) (none : A) (m : gmap nat thread) (t : nat) : A :=
  match m !! t with Some th => f th | None => none end.

Definition upd {A} (f : nat -> A) (t : nat) (x : A) : nat -> A := fun t' => if decide (t' = t) then x else f t'.

Lemma upd_same {A} (f : nat -> A) t x : upd f t x t = x.
Proof. unfold upd. by rewrite decide_True. Qed.

Lemma upd_other {A} (f : nat -> A) t x t' : t' <> t -> upd f t x t' = f t'.
Proof. intros. unfold upd. by rewrite decide_False. Qed.

Lemma at_insert {A} (f : thread -> A) none m t th t' :
  at_thread f none (<[t := th]> m) t' = upd (at_thread f none m) t (f th) t'.
Proof.
  unfold at_thread, upd. case_decide; subst; [by rewrite lookup_insert_eq | by rewrite lookup_insert_ne].
Qed.

Lemma at_delete {A} (f : thread -> A) none m t t' :
  at_thread f none (delete t m) t' = upd (at_thread f none m) t none t'.
Proof.
  unfold at_thread, upd. case_decide; subst; [by rewrite lookup_delete_eq | by rewrite lookup_delete_ne].
Qed.

Lemma at_some {A} (f : thread -> A) none m t th :
  m !! t = Some th -> at_thread f none m t = f th.
Proof. unfold at_thread. by intros ->. Qed.

Lemma at_none {A} (f : thread -> A) none m t :
  m !! t = None -> at_thread f none m t = none.
Proof. unfold at_thread. by intros ->. Qed.

(** *** Channels: an open one is closed by exactly one owner *)

Record chan_inv (st : gmap startKey nat) (ch : gmap nat bool) (cl : nat -> list nat) : Prop := {
  ch_start : forall k c, st !! k = Some c -> ch !! c = Some false /\ forall t, c ∉ cl t;
  ch_inj : forall k1 k2 c, st !! k1 = Some c -> st !! k2 = Some c -> k1 = k2;
  ch_clean : forall t c, c ∈ cl t -> ch !! c = Some false;
  ch_nodup : forall t, NoDup (cl t);
  ch_uniq : forall t1 t2 c, c ∈ cl t1 -> c ∈ cl t2 -> t1 = t2;
  ch_owned : forall c, ch !! c = Some false -> (exists k, st !! k = Some c) \/ exists t, c ∈ cl t;
}.

Lemma chan_ext st ch cl cl' : (forall t, cl' t = cl t) -> chan_inv st ch cl -> chan_inv st ch cl'.
Proof.
  intros E [H1 H2 H3 H4 H5 H6]. split; auto.
  - intros k c Hk. destruct (H1 _ _ Hk). split; [done |]. intros t. by rewrite E.
  - intros t c. rewrite E. apply H3.
  - intros t. rewrite E. apply H4.
  - intros t1 t2 c. rewrite !E. apply H5.
  - intros c Hc. destruct (H6 _ Hc) as [? | [t ?]]; [by left | right; exists t; by rewrite E].
Qed.

Lemma chan_reserve st ch cl key c :
  chan_inv st ch cl -> st !! key = None -> ch !! c = None ->
  chan_inv (<[key := c]> st) (<[c := false]> ch) cl.
Proof.
  intros [H1 H2 H3 H4 H5 H6] Hk Hc.
  assert (Hnot : forall t, c ∉ cl t) by (intros t Hin; by rewrite (H3 _ _ Hin) in Hc).
  assert (Hst : forall k, st !! k <> Some c) by (intros k Hin; destruct (H1 _ _ Hin); congruence).
  split; auto.
  - intros k c'. rewrite lookup_insert_Some. intros [[<- <-] | [Hne Hin]].
    + by rewrite lookup_insert_eq.
    + destruct (H1 _ _ Hin). split; [| done]. rewrite lookup_insert_ne; [done |]. intros <-. by destruct (Hst k).
  - intros k1 k2 c'. rewrite !lookup_insert_Some. intros [[<- <-] | [Hn1 Hk1]] [[<- Hc2] | [Hn2 Hk2]];
      [done | by destruct (Hst k2) | subst; by destruct (Hst k1) | by apply (H2 _ _ c')].
  - intros t c' Hin. rewrite lookup_insert_ne; [by eapply H3 |]. intros <-. by apply (Hnot t).
  - intros c'. rewrite lookup_insert_Some. intros [[<- _] | [Hne Hin]].
    + left. exists key. apply lookup_insert_eq.
    + destruct (H6 _ Hin) as [[k Hk'] | ?]; [left | by right]. exists k.
      rewrite lookup_insert_ne; [done |]. intros <-. congruence.
Qed.

Lemma chan_release st ch cl key c :
  chan_inv st ch cl -> st !! key = Some c ->
  ch !! c = Some false /\ chan_inv (delete key st) (<[c := true]> ch) cl.
Proof.
  intros [H1 H2 H3 H4 H5 H6] Hk. destruct (H1 _ _ Hk) as [Hc Hcl]. split; [done |]. split; auto.
  - intros k c'. rewrite lookup_delete_Some. intros [Hne Hin]. destruct (H1 _ _ Hin). split; [| done].
    rewrite lookup_insert_ne; [done |]. intros <-. by apply Hne, (H2 _ _ c).
  - intros k1 k2 c'. rewrite !lookup_delete_Some. intros [_ ?] [_ ?]. by apply (H2 _ _ c').
  - intros t c' Hin. rewrite lookup_insert_ne; [by eapply H3 |]. intros <-. by apply (Hcl t).
  - intros c'. rewrite lookup_insert_Some. intros [[_ ?] | [Hne Hin]]; [done |].
    destruct (H6 _ Hin) as [[k Hk'] | ?]; [left | by right]. exists k.
    rewrite lookup_delete_ne; [done |]. intros <-. congruence.
Qed.

Lemma chan_stopall st ch cl t :
  chan_inv st ch cl -> cl t = [] -> chan_inv ∅ ch (upd cl t (map snd (map_to_list st))).
Proof.
  intros [H1 H2 H3 H4 H5 H6] Ht.
  assert (Hin : forall c, c ∈ map snd (map_to_list st) <-> exists k, st !! k = Some c).
  { intros c. rewrite list_elem_of_fmap. split.
    - intros ([k c'] & -> & Hk). exists k. by apply elem_of_map_to_list in Hk.
    - intros [k Hk]. exists (k, c). by rewrite elem_of_map_to_list. }
  split.
  - intros k c. by rewrite lookup_empty.
  - intros k1 k2 c. by rewrite lookup_empty.
  - intros t' c. unfold upd. case_decide; [| apply H3]. rewrite Hin. intros [k Hk]. by destruct (H1 _ _ Hk).
  - intros t'. unfold upd. case_decide; [| apply H4].
    apply (NoDup_fmap_2_strong snd); [| apply NoDup_map_to_list].
    intros [k1 c1] [k2 c2] Hk1 Hk2 Hc. cbn in Hc. subst. apply elem_of_map_to_list in Hk1, Hk2.
    by rewrite (H2 _ _ _ Hk1 Hk2).
  - intros t1 t2 c. unfold upd. case_decide; case_decide; subst; rewrite ?Hin; try done; [| | apply H5].
    + intros [k Hk] Hc. destruct (H1 _ _ Hk) as [_ Hn]. by apply Hn in Hc.
    + intros Hc [k Hk]. destruct (H1 _ _ Hk) as [_ Hn]. by apply Hn in Hc.
  - intros c Hc. right. destruct (H6 _ Hc) as [Hk | [t' Ht']].
    + exists t. by rewrite upd_same, Hin.
    + exists t'. rewrite upd_other; [done |]. intros ->. rewrite Ht in Ht'. by apply elem_of_nil in Ht'.
Qed.

Lemma chan_close st ch cl t c cs :
  chan_inv st ch cl -> cl t = c :: cs ->
  ch !! c = Some false /\ chan_inv st (<[c := true]> ch) (upd cl t cs).
Proof.
  intros [H1 H2 H3 H4 H5 H6] Ht.
  assert (Hc : c ∈ cl t) by (rewrite Ht; left).
  pose proof (H4 t) as Hnd. rewrite Ht in Hnd. apply list.NoDup_cons in Hnd as [Hn Hnd].
  split; [by eapply H3 |].
  assert (Hsub : forall t' c', c' ∈ upd cl t cs t' -> c' ∈ cl t' /\ c' <> c).
  { intros t' c'. unfold upd. case_decide as E; [subst; rewrite Ht |].
    - intros Hin. split; [by right |]. by intros ->.
    - intros Hin. split; [done |]. intros ->. by apply E, (H5 _ _ c). }
  split; auto.
  - intros k c' Hk. destruct (H1 _ _ Hk) as [Hf Hn']. split.
    + rewrite lookup_insert_ne; [done |]. intros <-. by apply (Hn' t).
    + intros t' Hin. by apply (Hn' t'), Hsub.
  - intros t' c' [Hin Hne]%Hsub. rewrite lookup_insert_ne by done. by eapply H3.
  - intros t'. unfold upd. case_decide; auto.
  - intros t1 t2 c' [Hi1 _]%Hsub [Hi2 _]%Hsub. by eapply H5.
  - intros c'. rewrite lookup_insert_Some. intros [[_ ?] | [Hne Hf]]; [done |].
    destruct (H6 _ Hf) as [? | [t' Ht']]; [by left | right]. exists t'.
    unfold upd. case_decide; [subst; rewrite Ht in Ht' | done].
    apply elem_of_cons in Ht' as [? | ?]; [congruence | done].
Qed.

(** *** Reservations: a target is being started by at most one goroutine *)

Record key_inv (st : gmap startKey nat) (stop : bool) (ky : nat -> option startKey) : Prop := {
  ke_uniq : forall t1 t2 k, ky t1 = Some k -> ky t2 = Some k -> t1 = t2;
  ke_held : forall k c, st !! k = Some c -> exists t, ky t = Some k;
  ke_starting : forall t k, stop = false -> ky t = Some k -> is_Some (st !! k);
}.

Lemma key_ext st stop ky ky' : (forall t, ky' t = ky t) -> key_inv st stop ky -> key_inv st stop ky'.
Proof.
  intros E [H1 H2 H3]. split.
  - intros t1 t2 k. rewrite !E. apply H1.
  - intros k c Hk. destruct (H2 _ _ Hk) as [t Ht]. exists t. by rewrite E.
  - intros t k. rewrite E. apply H3.
Qed.

Lemma key_reserve st ky t key c :
  key_inv st false ky -> st !! key = None -> ky t = None ->
  key_inv (<[key := c]> st) false (upd ky t (Some key)).
Proof.
  intros [H1 H2 H3] Hk Ht.
  assert (Hno : forall t', ky t' <> Some key).
  { intros t' Hin. destruct (H3 t' key eq_refl Hin). congruence. }
  split.
  - intros t1 t2 k. unfold upd. case_decide; case_decide; subst; try done; [| | apply H1].
    + intros [= ->] Hin. by apply Hno in Hin.
    + intros Hin [= ->]. by apply Hno in Hin.
  - intros k c'. rewrite lookup_insert_Some. intros [[<- _] | [Hne Hin]].
    + exists t. apply upd_same.
    + destruct (H2 _ _ Hin) as [t' Ht']. exists t'. rewrite upd_other; [done | congruence].
  - intros t' k _. unfold upd. case_decide.
    + intros [= ->]. rewrite lookup_insert_eq. by eexists.
    + intros Hin. destruct (decide (key = k)) as [-> | Hne]; [by apply Hno in Hin |].
      rewrite lookup_insert_ne by done. by eapply H3.
Qed.

Lemma key_release st stop ky t key :
  key_inv st stop ky -> ky t = Some key -> key_inv (delete key st) stop (upd ky t None).
Proof.
  intros [H1 H2 H3] Ht. split.
  - intros t1 t2 k. unfold upd. case_decide; case_decide; try done. apply H1.
  - intros k c. rewrite lookup_delete_Some. intros [Hne Hin]. destruct (H2 _ _ Hin) as [t' Ht'].
    exists t'. rewrite upd_other; [done | congruence].
  - intros t' k Hs. unfold upd. case_decide; [done |]. intros Hin.
    rewrite lookup_delete_ne; [by eapply H3 |]. intros <-. by apply H, (H1 _ _ key).
Qed.

Lemma key_gone st stop ky t key :
  key_inv st stop ky -> ky t = Some key -> st !! key = None -> key_inv st stop (upd ky t None).
Proof.
  intros Hi Ht Hk. pose proof (key_release st stop ky t key Hi Ht) as H.
  by rewrite delete_id in H.
Qed.

Lemma key_stopall st stop ky : key_inv st stop ky -> key_inv ∅ true ky.
Proof. intros [H1 H2 H3]. split; [done | intros k c; by rewrite lookup_empty | done]. Qed.

(** *** Runs: a run that still forwards always has an owner *)

Definition currents (m : gmap string record_) (id : string) : option nat := current <$> m !! id.

Definition reaper_owns (p : reaper) (run : nat) : Prop :=
  match p with Taken _ r | Restarting _ r => run = r | _ => False end.

Record run_inv (cur : string -> option nat) (m : gmap nat status) (hl : nat -> list nat) (p : reaper) : Prop := {
  ru_owned : forall run, m !! run = Some Live ->
    (exists id, cur id = Some run) \/ (exists t, run ∈ hl t) \/ reaper_owns p run;
  ru_known : forall id run, cur id = Some run -> is_Some (m !! run);
  ru_reaper : match p with
    | Idle => True
    | Taken id previous => forall run, cur id = Some run -> run = previous
    | Awaiting id | Restarting id _ | Failing id =>
        forall run, cur id = Some run -> m !! run = Some Over
    end;
}.

Lemma run_ext cur cur' m hl hl' p :
  (forall id, cur' id = cur id) -> (forall t, hl' t = hl t) ->
  run_inv cur m hl p -> run_inv cur' m hl' p.
Proof.
  intros E1 E2 [H1 H2 H3]. split.
  - intros run Hr. destruct (H1 _ Hr) as [[id ?] | [[t ?] | ?]]; [left | right; left | by right; right].
    + exists id. by rewrite E1.
    + exists t. by rewrite E2.
  - intros id run. rewrite E1. apply H2.
  - destruct p; auto; intros run; rewrite E1; auto.
Qed.

(** A fresh run comes alive in the hands of a goroutine or of the reaper. *)
Lemma run_fresh cur m hl hl' p p' run :
  run_inv cur m hl p -> m !! run = None ->
  (forall t x, x ∈ hl t -> x ∈ hl' t) -> (forall x, reaper_owns p x -> reaper_owns p' x) ->
  ((exists t, run ∈ hl' t) \/ reaper_owns p' run) ->
  (p' = p \/ exists id, p = Awaiting id /\ p' = Restarting id run) ->
  run_inv cur (<[run := Live]> m) hl' p'.
Proof.
  intros [H1 H2 H3] Hm Hh Hp Hown Hcase. split.
  - intros x. rewrite lookup_insert_Some. intros [[<- _] | [Hne Hx]]; [by right |].
    destruct (H1 _ Hx) as [? | [[t ?] | ?]]; [by left | right; left; eauto | right; right; auto].
  - intros id x Hx. destruct (decide (run = x)) as [<- | Hne]; [rewrite lookup_insert_eq; by eexists |].
    rewrite lookup_insert_ne by done. by eapply H2.
  - assert (Hkeep : forall id x, cur id = Some x -> m !! x = Some Over -> <[run := Live]> m !! x = Some Over).
    { intros id x _ Hx. rewrite lookup_insert_ne; [done |]. congruence. }
    destruct Hcase as [-> | (id' & -> & ->)]; [destruct p |]; cbn in *; eauto.
Qed.

(** A run that is over needs no owner: the one that gives it up may forget it. *)
Lemma run_over cur m hl hl' p p' run :
  run_inv cur m hl p ->
  (forall t x, x ∈ hl t -> x = run \/ x ∈ hl' t) ->
  (forall x, reaper_owns p x -> x = run \/ reaper_owns p' x) ->
  (p' = p \/ p' = Idle \/ (exists id, p = Taken id run /\ p' = Awaiting id) \/
   (exists id, p = Restarting id run /\ p' = Failing id)) ->
  run_inv cur (halt m run) hl' p'.
Proof.
  intros [H1 H2 H3] Hh Hp Hcase. unfold halt.
  assert (Hkeep : forall x, m !! x = Some Over -> <[run := Over]> m !! x = Some Over).
  { intros x Hx. destruct (decide (run = x)) as [<- | ?]; [apply lookup_insert_eq | by rewrite lookup_insert_ne]. }
  split.
  - intros x. rewrite lookup_insert_Some. intros [[_ ?] | [Hne Hx]]; [done |].
    destruct (H1 _ Hx) as [? | [[t Ht] | Ho]]; [by left | |].
    + destruct (Hh _ _ Ht); [congruence | right; left; eauto].
    + destruct (Hp _ Ho); [congruence | by right; right].
  - intros id x Hx. destruct (decide (run = x)) as [<- | Hne]; [rewrite lookup_insert_eq; by eexists |].
    rewrite lookup_insert_ne by done. by eapply H2.
  - destruct Hcase as [-> | [-> | [(id' & -> & ->) | (id' & -> & ->)]]]; [| done | |].
    + destruct p; eauto.
    + intros x Hx. rewrite (H3 x Hx). apply lookup_insert_eq.
    + eauto.
Qed.

(** A listed run handed to goroutine [t], while no more entries appear. *)
Lemma run_unlist cur cur' m hl hl' p :
  run_inv cur m hl p ->
  (forall id run, cur' id = Some run -> cur id = Some run) ->
  (forall t x, x ∈ hl t -> x ∈ hl' t) ->
  (forall id run, cur id = Some run -> cur' id = Some run \/ m !! run = Some Over \/ exists t, run ∈ hl' t) ->
  run_inv cur' m hl' p.
Proof.
  intros [H1 H2 H3] Hc Hh Hg. split.
  - intros x Hx. destruct (H1 _ Hx) as [[id Hid] | [[t Ht] | Ho]].
    + destruct (Hg _ _ Hid) as [? | [? | ?]]; [left; eauto | congruence | by right; left].
    + right; left; eauto.
    + by right; right.
  - intros id x Hx. eapply H2. eauto.
  - destruct p; eauto.
Qed.

(** A launched run becomes listed under a new name. *)
Lemma run_listed cur cur' m hl hl' p p' id run :
  run_inv cur m hl p -> is_Some (m !! run) ->
  (forall x, cur' x = if decide (x = id) then Some run else cur x) ->
  (forall old, cur id = Some old -> m !! old = Some Over) ->
  (forall t x, x ∈ hl t -> x = run \/ x ∈ hl' t) ->
  (forall x, reaper_owns p x -> x = run \/ reaper_owns p' x) ->
  (p' = Idle \/ p' = p /\ match p with
     | Idle => True
     | Taken id' _ | Awaiting id' | Restarting id' _ | Failing id' => id' <> id
     end) ->
  run_inv cur' m hl' p'.
Proof.
  intros [H1 H2 H3] Hm Hc Hold Hh Hp Hcase.
  assert (Hrun : cur' id = Some run) by (rewrite Hc; by rewrite decide_True).
  split.
  - intros x Hx. destruct (H1 _ Hx) as [[i Hi] | [[t Ht] | Ho]].
    + left. destruct (decide (i = id)) as [-> | Hne]; [by rewrite (Hold x Hi) in Hx |].
      exists i. by rewrite Hc, decide_False.
    + destruct (Hh _ _ Ht) as [-> | ?]; [left; eauto | right; left; eauto].
    + destruct (Hp _ Ho) as [-> | ?]; [left; eauto | by right; right].
  - intros i x. rewrite Hc. case_decide; [by intros [= <-] | apply H2].
  - destruct Hcase as [-> | [-> Hne]]; [done |].
    destruct p; auto; intros x; rewrite Hc, decide_False by done; auto.
Qed.

Definition reaperID (p : reaper) : option string :=
  match p with
  | Idle => None
  | Taken id _ | Awaiting id | Restarting id _ | Failing id => Some id
  end.

Lemma sequentialID_inj n m : sequentialID n = sequentialID m -> n = m.
Proof.
  unfold sequentialID. intros H.
  assert (Hs : forall s u v, s +s+ u = s +s+ v -> u = v).
  { induction s as [| c s IH]; intros u v; [done |]. intros [= Hx]. by apply IH. }
  by apply Hs, (inj pretty) in H.
Qed.

Record inv (s : system) : Prop := {
  v_chan : chan_inv (starting (reg s)) (chans s) (at_thread closesOf [] (threads s));
  v_key : key_inv (starting (reg s)) (stopped (reg s)) (at_thread keyHeld None (threads s));
  v_run : run_inv (currents (forwards (reg s))) (runs s) (at_thread runsHeld [] (threads s)) (reap s);
  v_stop : stopped (reg s) = true -> forwards (reg s) = ∅ /\ starting (reg s) = ∅;
  v_seq : forall n, (sequence (reg s) < n)%Z ->
    currents (forwards (reg s)) (sequentialID n) = None /\ reaperID (reap s) <> Some (sequentialID n);
  v_known : forall t th x, threads s !! t = Some th -> x ∈ runsHeld th -> is_Some (runs s !! x);
  v_mine : forall x, reaper_owns (reap s) x -> is_Some (runs s !! x);
  v_ok : panicked s = false;
}.

Lemma known_insert (m : gmap nat status) r v x : is_Some (m !! x) -> is_Some (<[r := v]> m !! x).
Proof. intros H. apply lookup_insert_is_Some. destruct (decide (r = x)); auto. Qed.

Lemma known_same (m : gmap nat status) r v : is_Some (<[r := v]> m !! r).
Proof. rewrite lookup_insert_eq. by eexists. Qed.

(** The runs the goroutines hold stay known. *)
Ltac known H :=
  let t' := fresh "t'" in let th' := fresh "th'" in let x := fresh "x" in
  let Hl := fresh "Hl" in let Hx := fresh "Hx" in
  intros t' th' x Hl Hx; unfold halt;
  try (apply lookup_delete_Some in Hl as [_ Hl]);
  repeat (apply lookup_insert_Some in Hl as [[_ <-] | [_ Hl]]);
  cbn in Hx; rewrite ?elem_of_cons, ?elem_of_nil in Hx;
  repeat match type of Hx with _ \/ _ => destruct Hx as [-> | Hx] end; try done;
  try apply known_same; repeat apply known_insert;
  try (by eapply (v_known _ H); [eassumption | cbn; rewrite ?elem_of_cons; auto]).

Ltac at_cases := repeat (first [rewrite at_insert | rewrite at_delete]; unfold upd; case_decide; subst).

(** What a goroutine holds is unchanged by a step that only moves it on. *)
Ltac same :=
  let t' := fresh "t'" in
  intros t'; at_cases;
  repeat (erewrite at_some by eassumption); repeat (rewrite at_none by eassumption); reflexivity.

Ltac chan_same H := eapply chan_ext; [| exact (v_chan _ H)]; same.
Ltac key_same H := eapply key_ext; [| exact (v_key _ H)]; same.
Ltac run_same H := eapply run_ext; [reflexivity | | exact (v_run _ H)]; same.

(** A goroutine's runs, when it moves on to hold at least as many. *)
Ltac grows :=
  let t' := fresh "t'" in let x := fresh "x" in
  intros t' x; at_cases; auto;
  repeat (erewrite at_some by eassumption); repeat (rewrite at_none by eassumption); cbn;
  rewrite ?elem_of_cons, ?elem_of_nil; tauto || naive_solver.

Lemma currents_insert m id e x :
  currents (<[id := e]> m) x = if decide (x = id) then Some (current e) else currents m x.
Proof.
  unfold currents. case_decide; subst; [by rewrite lookup_insert_eq | by rewrite lookup_insert_ne].
Qed.

Lemma currents_update m id e e' x :
  m !! id = Some e -> current e' = current e -> currents (<[id := e']> m) x = currents m x.
Proof.
  intros Hm He. rewrite currents_insert. case_decide; [subst | done]. unfold currents. by rewrite Hm, He.
Qed.

Lemma currents_delete m id x :
  currents (delete id m) x = if decide (x = id) then None else currents m x.
Proof.
  unfold currents. case_decide; subst; [by rewrite lookup_delete_eq | by rewrite lookup_delete_ne].
Qed.

Lemma reserve_spec r key ch order r' :
  reserve r key ch order = (r', Reserved) ->
  stopped r = false /\ starting r !! key = None /\
  r' = MkRegistry (forwards r) (<[key := ch]> (starting r)) (sequence r) false.
Proof.
  unfold reserve. destruct (stopped r); [done |]. case_match; [done |]. case_match; [done |].
  by intros [= <-].
Qed.

Lemma release_spec r key r' res :
  release r key = (r', res) ->
  res = starting r !! key /\ forwards r' = forwards r /\ sequence r' = sequence r /\
  stopped r' = stopped r /\ starting r' = delete key (starting r).
Proof.
  unfold release. destruct (starting r !! key) eqn:E; intros [= <- <-]; repeat split; auto.
  by rewrite delete_id.
Qed.

(** Entries whose current run changes nothing else. *)
Lemma fail_spec r id message r' res :
  fail r id message = (r', res) ->
  starting r' = starting r /\ stopped r' = stopped r /\ sequence r' = sequence r /\
  (forall x, currents (forwards r') x = currents (forwards r) x) /\
  (forwards r = ∅ -> forwards r' = ∅) /\ res = currents (forwards r) id.
Proof.
  unfold fail, currents. destruct (forwards r !! id) as [e |] eqn:E; intros [= <- <-]; cbn; repeat split; auto.
  - intros x. by apply (currents_update _ _ e).
  - intros H. by rewrite H, lookup_empty in E.
Qed.

Lemma inv_reserve s key ch t order r' :
  inv s -> reserve (reg s) key ch order = (r', Reserved) -> chans s !! ch = None -> threads s !! t = None ->
  inv (MkSystem r' (<[ch := false]> (chans s)) (runs s) (<[t := Reserving key]> (threads s)) (reap s) (panicked s) (pass s)).
Proof.
  intros H (Hst & Hk & ->)%reserve_spec Hc Ht. split; cbn.
  - apply chan_reserve; [| done | done]. chan_same H.
  - eapply key_ext; [intros x; apply at_insert |]. pose proof (v_key _ H) as Hkey. rewrite Hst in Hkey.
    apply key_reserve; [done | done | by apply at_none].
  - run_same H.
  - done.
  - apply (v_seq _ H).
  - known H.
  - apply (v_mine _ H).
  - apply (v_ok _ H).
Qed.

Lemma inv_launch s t key run :
  inv s -> threads s !! t = Some (Reserving key) -> runs s !! run = None ->
  inv (MkSystem (reg s) (chans s) (<[run := Live]> (runs s)) (<[t := Launched key run]> (threads s)) (reap s) (panicked s) (pass s)).
Proof.
  intros H Ht Hr. split; cbn; try apply H.
  - chan_same H.
  - key_same H.
  - eapply run_fresh; [exact (v_run _ H) | done | grows | done | | by left].
    left. exists t. rewrite at_insert, upd_same. left.
  - known H.
  - intros x Hx. by apply known_insert, (v_mine _ H).
Qed.

Lemma inv_abort s t key run :
  inv s -> threads s !! t = Some (Launched key run) \/ threads s !! t = Some (Refused key run) ->
  inv (MkSystem (reg s) (chans s) (halt (runs s) run) (<[t := Releasing key]> (threads s)) (reap s) (panicked s) (pass s)).
Proof.
  intros H Ht. split; cbn; try apply H.
  - destruct Ht; chan_same H.
  - destruct Ht; key_same H.
  - eapply run_over; [exact (v_run _ H) | | by right | by left]. intros t' x. rewrite at_insert. unfold upd.
    case_decide; [subst | by right]. unfold at_thread. destruct Ht as [-> | ->]; cbn;
      rewrite list_elem_of_singleton; by left.
  - known H.
  - intros x Hx. by apply known_insert, (v_mine _ H).
Qed.

Lemma inv_register s t key run pod local actor r' f w :
  inv s -> threads s !! t = Some (Launched key run) -> threads s !! w = None ->
  register (reg s) key pod local run actor = (r', Some f) ->
  inv (MkSystem r' (chans s) (runs s)
         (<[w := Watching (ID f) run]> (<[t := Releasing key]> (threads s))) (reap s) (panicked s) (pass s)).
Proof.
  intros H Ht Hw. unfold register. destruct (stopped (reg s)) eqn:Hst; [done |]. intros [= <- <-].
  pose proof (v_seq _ H (sequence (reg s) + 1) ltac:(lia)) as [Hnew Hreap].
  assert (Hwt : w <> t) by congruence.
  split; cbn; try apply H; try done.
  - chan_same H.
  - rewrite <- Hst. key_same H.
  - eapply (run_listed _ _ _ _ _ _ _ _ run); [exact (v_run _ H) | | intros x; apply currents_insert | | | by right |].
    + eapply (v_known _ H); [exact Ht | left].
    + intros old. cbn. by rewrite Hnew.
    + intros t' x. at_cases; [| | by right].
      * rewrite at_none by done. intros Hx. by apply elem_of_nil in Hx.
      * erewrite at_some by done. cbn. rewrite list_elem_of_singleton. by left.
    + right. split; [done |]. by destruct (reap s); cbn in *; try done; intros ->.
  - intros n Hn. rewrite currents_insert. destruct (v_seq _ H n ltac:(lia)) as [? ?].
    rewrite decide_False; [done |]. intros E%sequentialID_inj. lia.
  - known H.
Qed.

Lemma inv_refused s t key run pod local actor r' :
  inv s -> threads s !! t = Some (Launched key run) ->
  register (reg s) key pod local run actor = (r', None) ->
  inv (MkSystem r' (chans s) (runs s) (<[t := Refused key run]> (threads s)) (reap s) (panicked s) (pass s)).
Proof.
  intros H Ht. unfold register. destruct (stopped (reg s)) eqn:Hst; [| done]. intros [= <-].
  split; cbn; try apply H.
  - chan_same H.
  - key_same H.
  - run_same H.
  - known H.
Qed.

Lemma inv_giveup s t key :
  inv s -> threads s !! t = Some (Reserving key) ->
  inv (MkSystem (reg s) (chans s) (runs s) (<[t := Releasing key]> (threads s)) (reap s) (panicked s) (pass s)).
Proof.
  intros H Ht. split; cbn; try apply H.
  - chan_same H.
  - key_same H.
  - run_same H.
  - known H.
Qed.

Lemma closing_open s ch : chans s !! ch = Some false -> closing s ch = (<[ch := true]> (chans s), panicked s).
Proof. unfold closing. by intros ->. Qed.

Lemma inv_release s t key r' :
  inv s -> threads s !! t = Some (Releasing key) -> release (reg s) key = (r', None) ->
  inv (MkSystem r' (chans s) (runs s) (delete t (threads s)) (reap s) (panicked s) (pass s)).
Proof.
  intros H Ht (Hk & Hf & Hs & Hp & Hst)%release_spec. symmetry in Hk.
  rewrite delete_id in Hst by done.
  split; cbn; rewrite ?Hf, ?Hs, ?Hp, ?Hst; try apply H.
  - chan_same H.
  - eapply key_ext; [intros x; apply at_delete |]. eapply key_gone; [apply H | (erewrite at_some by eassumption; done) | done].
  - run_same H.
  - known H.
Qed.

Lemma inv_release_close s t key r' ch :
  inv s -> threads s !! t = Some (Releasing key) -> release (reg s) key = (r', Some ch) ->
  inv (MkSystem r' (closing s ch).1 (runs s) (delete t (threads s)) (reap s) (closing s ch).2 (pass s)).
Proof.
  intros H Ht (Hk & Hf & Hs & Hp & Hst)%release_spec. symmetry in Hk.
  destruct (chan_release _ _ _ _ _ (v_chan _ H) Hk) as [Hopen Hc].
  rewrite closing_open by done.
  split; cbn; rewrite ?Hf, ?Hs, ?Hp, ?Hst; try apply H.
  - eapply chan_ext; [| exact Hc]. same.
  - eapply key_ext; [intros x; apply at_delete |]. eapply key_release; [apply H | (erewrite at_some by eassumption; done)].
  - run_same H.
  - intros Hsp. destruct (v_stop _ H Hsp) as [-> ->]. by rewrite delete_empty.
  - known H.
Qed.

Lemma watchEnd_spec r id run err :
  let r' := watchEnd r id run err in
  starting r' = starting r /\ stopped r' = stopped r /\ sequence r' = sequence r /\
  (forwards r = ∅ -> forwards r' = ∅) /\
  (forall x, currents (forwards r') x = currents (forwards r) x) \/
  starting r' = starting r /\ stopped r' = stopped r /\ sequence r' = sequence r /\
  (forwards r = ∅ -> forwards r' = ∅) /\
  currents (forwards r) id = Some run /\ forwards r' = delete id (forwards r).
Proof.
  unfold watchEnd. destruct (forwards r !! id) as [e |] eqn:E; [| by left].
  assert (Hne : forwards r <> ∅) by (intros H; by rewrite H, lookup_empty in E).
  case_bool_decide as Hc; [by left |]. destruct (replacing e); [by left |].
  case_bool_decide; [by left |]. destruct err as [msg |]; cbn.
  - left. repeat split; try done. intros x. by apply (currents_update _ _ e).
  - right. repeat split; try done. unfold currents. rewrite E. cbn. f_equal.
    by destruct (decide (current e = run)).
Qed.

Lemma inv_watch s t id run err :
  inv s -> threads s !! t = Some (Watching id run) ->
  inv (MkSystem (watchEnd (reg s) id run err) (chans s) (halt (runs s) run) (delete t (threads s)) (reap s) (panicked s) (pass s)).
Proof.
  intros H Ht.
  assert (Hover : run_inv (currents (forwards (reg s))) (halt (runs s) run)
      (at_thread runsHeld [] (delete t (threads s))) (reap s)).
  { eapply run_over; [exact (v_run _ H) | | by right | by left]. intros t' x Hx. right. revert Hx.
    at_cases; [| done]. by erewrite at_some by eassumption. }
  destruct (watchEnd_spec (reg s) id run err) as
    [(Hst & Hsp & Hsq & He & Hcur) | (Hst & Hsp & Hsq & He & Hcur & Hdel)];
  (split; cbn; rewrite ?Hst, ?Hsp, ?Hsq;
    [chan_same H | key_same H | | | | known H | intros x Hx; by apply known_insert, (v_mine _ H) | apply (v_ok _ H)]).
  - eapply run_ext; [exact Hcur | reflexivity | exact Hover].
  - intros Hs. destruct (v_stop _ H Hs). auto.
  - intros n Hn. rewrite Hcur. by apply (v_seq _ H).
  - eapply run_unlist; [exact Hover | | auto |].
    + intros i x. rewrite Hdel, currents_delete. by case_decide.
    + intros i x Hi. rewrite Hdel, currents_delete. case_decide; [subst | by left]. right. left.
      rewrite Hcur in Hi. injection Hi as <-. apply lookup_insert_eq.
  - intros Hs. destruct (v_stop _ H Hs). auto.
  - intros n Hn. rewrite Hdel, currents_delete. destruct (v_seq _ H n Hn). by case_decide.
Qed.

(** A goroutine that takes over the halting of an unlisted or failed run. *)
Lemma inv_handover s t r' run p ids :
  inv s -> threads s !! t = None ->
  starting r' = starting (reg s) -> stopped r' = stopped (reg s) -> sequence r' = sequence (reg s) ->
  (forwards (reg s) = ∅ -> forwards r' = ∅) -> is_Some (runs s !! run) ->
  (forall x c, currents (forwards r') x = Some c -> currents (forwards (reg s)) x = Some c) ->
  (forall x c, currents (forwards (reg s)) x = Some c -> currents (forwards r') x = Some c \/ c = run) ->
  (p = reap s \/ p = Idle /\ forall x, ~ reaper_owns (reap s) x) ->
  inv (MkSystem r' (chans s) (runs s) (<[t := Cleaning [run] []]> (threads s)) p (panicked s) ids).
Proof.
  intros H Ht Hst Hsp Hsq He Hrun Hc1 Hc2 Hp. split; cbn; rewrite ?Hst, ?Hsp, ?Hsq.
  - chan_same H.
  - key_same H.
  - assert (Hrest : run_inv (currents (forwards r')) (runs s)
        (at_thread runsHeld [] (<[t := Cleaning [run] []]> (threads s))) (reap s)).
    { eapply run_unlist; [exact (v_run _ H) | exact Hc1 | |].
      - intros t' x. at_cases; [| done]. rewrite at_none by done. intros Hx. by apply elem_of_nil in Hx.
      - intros id c Hid. destruct (Hc2 _ _ Hid) as [? | ->]; [by left |]. right. right. exists t.
        rewrite at_insert, upd_same. left. }
    destruct Hp as [-> | [-> Hno]]; [done |]. destruct Hrest as [H1 H2 _]. split; [| done | done].
    intros x Hx. destruct (H1 x Hx) as [? | [? | ?]]; [by left | by right; left | by destruct (Hno x)].
  - intros Hs. destruct (v_stop _ H Hs). auto.
  - intros n Hn. destruct (v_seq _ H n Hn) as [Hn1 Hn2]. split.
    + destruct (currents (forwards r') (sequentialID n)) eqn:E; [| done]. apply Hc1 in E. congruence.
    + by destruct Hp as [-> | [-> _]].
  - intros t' th x Hl Hx. apply lookup_insert_Some in Hl as [[_ <-] | [_ Hl]].
    + cbn in Hx. apply list_elem_of_singleton in Hx as ->. done.
    + by eapply (v_known _ H).
  - intros x Hx. destruct Hp as [-> | [-> _]]; [by apply (v_mine _ H) | done].
  - apply (v_ok _ H).
Qed.

Lemma currents_known s id run : inv s -> currents (forwards (reg s)) id = Some run -> is_Some (runs s !! run).
Proof. intros H. apply (ru_known _ _ _ _ (v_run _ H)). Qed.

Lemma inv_stop s id t r' run :
  inv s -> threads s !! t = None -> Stop (reg s) id = (r', Some run) ->
  inv (MkSystem r' (chans s) (runs s) (<[t := Cleaning [run] []]> (threads s)) (reap s) (panicked s) (pass s)).
Proof.
  intros H Ht. unfold Stop. destruct (forwards (reg s) !! id) as [e |] eqn:E; [| done]. intros [= <- <-].
  assert (Hcur : currents (forwards (reg s)) id = Some (current e)) by (unfold currents; by rewrite E).
  apply inv_handover; try done; cbn.
  - intros Hz. by rewrite Hz, lookup_empty in E.
  - by eapply currents_known.
  - intros x c. rewrite currents_delete. by case_decide.
  - intros x c Hx. rewrite currents_delete. case_decide; [subst | by left]. right. congruence.
  - by left.
Qed.

Lemma inv_fail s id message t r' run p ids :
  inv s -> threads s !! t = None -> fail (reg s) id message = (r', Some run) ->
  (p = reap s \/ p = Idle /\ forall x, ~ reaper_owns (reap s) x) ->
  inv (MkSystem r' (chans s) (runs s) (<[t := Cleaning [run] []]> (threads s)) p (panicked s) ids).
Proof.
  intros H Ht (Hst & Hsp & Hsq & Hcur & He & Hrun)%fail_spec Hp.
  apply inv_handover; try done.
  - symmetry in Hrun. by eapply currents_known.
  - intros x c. by rewrite Hcur.
  - intros x c. rewrite Hcur. by left.
Qed.

Lemma inv_stopall s t r' halts closes :
  inv s -> threads s !! t = None -> StopAll (reg s) = (r', halts, closes) ->
  inv (MkSystem r' (chans s) (runs s) (<[t := Cleaning halts closes]> (threads s)) (reap s) (panicked s) (pass s)).
Proof.
  intros H Ht [= <- <- <-].
  assert (Hin : forall id run, currents (forwards (reg s)) id = Some run <->
      exists e, forwards (reg s) !! id = Some e /\ current e = run).
  { intros id run. unfold currents. rewrite fmap_Some. naive_solver. }
  split; cbn.
  - eapply chan_ext; [intros x; apply at_insert |]. apply chan_stopall; [apply H | by apply at_none].
  - eapply key_ext; [| eapply key_stopall, H]. same.
  - eapply run_unlist; [exact (v_run _ H) | | |].
    + intros id run. unfold currents. by rewrite lookup_empty.
    + intros t' x. at_cases; [| done]. rewrite at_none by done. intros Hx. by apply elem_of_nil in Hx.
    + intros id run (e & He & <-)%Hin. right. right. exists t. rewrite at_insert, upd_same. cbn.
      apply list_elem_of_fmap. exists (id, e). split; [done |]. by apply elem_of_map_to_list.
  - done.
  - intros n Hn. unfold currents. rewrite lookup_empty. split; [done |]. by apply (v_seq _ H).
  - intros t' th x Hl Hx. apply lookup_insert_Some in Hl as [[_ <-] | [_ Hl]]; [| by eapply (v_known _ H)].
    cbn in Hx. apply list_elem_of_fmap in Hx as ([id e] & -> & He). apply elem_of_map_to_list in He.
    apply (currents_known s id); [done |]. apply Hin. eauto.
  - apply (v_mine _ H).
  - apply (v_ok _ H).
Qed.

Lemma inv_halt s t run halts closes :
  inv s -> threads s !! t = Some (Cleaning (run :: halts) closes) ->
  inv (MkSystem (reg s) (chans s) (halt (runs s) run) (<[t := Cleaning halts closes]> (threads s)) (reap s) (panicked s) (pass s)).
Proof.
  intros H Ht. split; cbn; try apply H.
  - chan_same H.
  - key_same H.
  - eapply run_over; [exact (v_run _ H) | | by right | by left]. intros t' x. at_cases; [| by right].
    erewrite at_some by eassumption. cbn. rewrite elem_of_cons. tauto.
  - intros t' th x Hl Hx. apply known_insert. apply lookup_insert_Some in Hl as [[_ <-] | [_ Hl]].
    + eapply (v_known _ H); [exact Ht | by right].
    + by eapply (v_known _ H).
  - intros x Hx. by apply known_insert, (v_mine _ H).
Qed.

Lemma inv_close s t ch closes :
  inv s -> threads s !! t = Some (Cleaning [] (ch :: closes)) ->
  inv (MkSystem (reg s) (closing s ch).1 (runs s) (<[t := Cleaning [] closes]> (threads s)) (reap s) (closing s ch).2 (pass s)).
Proof.
  intros H Ht.
  destruct (chan_close _ _ _ t ch closes (v_chan _ H)) as [Hopen Hc]; [by erewrite at_some by eassumption |].
  rewrite closing_open by done. split; cbn; try apply H.
  - eapply chan_ext; [intros x; apply at_insert |]. done.
  - key_same H.
  - run_same H.
  - known H.
Qed.

Lemma inv_clean s t :
  inv s -> threads s !! t = Some (Cleaning [] []) ->
  inv (MkSystem (reg s) (chans s) (runs s) (delete t (threads s)) (reap s) (panicked s) (pass s)).
Proof.
  intros H Ht. split; cbn; try apply H.
  - chan_same H.
  - key_same H.
  - run_same H.
  - known H.
Qed.

Lemma inv_taken s id r' previous ids :
  inv s -> reap s = Idle -> beginReplace (reg s) id = (r', Some previous) ->
  inv (MkSystem r' (chans s) (runs s) (threads s) (Taken id previous) (panicked s) ids).
Proof.
  intros H Hi. unfold beginReplace. destruct (stopped (reg s)) eqn:Hst; [done |].
  destruct (forwards (reg s) !! id) as [e |] eqn:E; [| done]. destruct (replacing e); [done |].
  intros [= <- <-].
  assert (Hc : forall x, currents (<[id := with_forward e (forward e) (current e) true]> (forwards (reg s))) x =
    currents (forwards (reg s)) x) by (intros x; by apply (currents_update _ _ e)).
  assert (Hcur : currents (forwards (reg s)) id = Some (current e)) by (unfold currents; by rewrite E).
  split; cbn; try apply H.
  - eapply run_ext; [exact Hc | reflexivity |]. destruct (v_run _ H) as [H1 H2 H3]. rewrite Hi in *.
    split; [| done |].
    + intros x Hx. destruct (H1 x Hx) as [? | [? | []]]; auto.
    + intros x. rewrite Hcur. congruence.
  - by rewrite Hst.
  - intros n Hn. rewrite Hc. destruct (v_seq _ H n Hn) as [Hn1 _]. split; [done |].
    cbn. intros [= ->]. congruence.
  - intros x ->. by apply (currents_known s id).
Qed.

Lemma inv_over s run p' :
  inv s ->
  (forall x, reaper_owns (reap s) x -> x = run \/ reaper_owns p' x) ->
  (forall x, ~ reaper_owns p' x) ->
  (reaperID p' = reaperID (reap s) \/ p' = Idle) ->
  (p' = Idle \/ (exists id, reap s = Taken id run /\ p' = Awaiting id) \/
   (exists id, reap s = Restarting id run /\ p' = Failing id)) ->
  inv (MkSystem (reg s) (chans s) (halt (runs s) run) (threads s) p' (panicked s) (pass s)).
Proof.
  intros H Hown Hno Hid Hcase. split; cbn; try apply H.
  - eapply run_over; [exact (v_run _ H) | by right | exact Hown | by right].
  - intros n Hn. destruct (v_seq _ H n Hn) as [? ?]. split; [done |]. by destruct Hid as [-> | ->].
  - intros t' th x Hl Hx. apply known_insert. by eapply (v_known _ H).
  - intros x Hx. by destruct (Hno x).
Qed.

Lemma inv_restart s id run :
  inv s -> reap s = Awaiting id -> runs s !! run = None ->
  inv (MkSystem (reg s) (chans s) (<[run := Live]> (runs s)) (threads s) (Restarting id run) (panicked s) (pass s)).
Proof.
  intros H Hi Hr. split; cbn; try apply H.
  - eapply run_fresh; [exact (v_run _ H) | done | done | by rewrite Hi | by right | right; eauto].
  - intros n Hn. pose proof (v_seq _ H n Hn) as Hs. by rewrite Hi in Hs.
  - intros t' th x Hl Hx. apply known_insert. by eapply (v_known _ H).
  - intros x ->. apply known_same.
Qed.

Lemma inv_adopt s id pod local run r' w :
  inv s -> reap s = Restarting id run -> threads s !! w = None ->
  adopt (reg s) id pod local run = (r', true) ->
  inv (MkSystem r' (chans s) (runs s) (<[w := Watching id run]> (threads s)) Idle (panicked s) (pass s)).
Proof.
  intros H Hi Hw. unfold adopt. destruct (forwards (reg s) !! id) as [e |] eqn:E; [| done].
  destruct (stopped (reg s)) eqn:Hst; [done |]. intros [= <-].
  assert (Hcur : currents (forwards (reg s)) id = Some (current e)) by (unfold currents; by rewrite E).
  split; cbn; try apply H; try done.
  - chan_same H.
  - key_same H.
  - eapply (run_listed _ _ _ _ _ _ _ id run); [exact (v_run _ H) | | intros x; apply currents_insert | | | | by left].
    + apply (v_mine _ H). by rewrite Hi.
    + intros old Hold. pose proof (ru_reaper _ _ _ _ (v_run _ H)) as Hr. rewrite Hi in Hr. by apply Hr.
    + intros t' x. right. revert H0. at_cases; [| done]. rewrite at_none by done.
      intros Hx. by apply elem_of_nil in Hx.
    + intros x. rewrite Hi. cbn. by left.
  - by rewrite Hst.
  - intros n Hn. destruct (v_seq _ H n Hn) as [Hn1 _]. split; [| done]. rewrite currents_insert.
    case_decide as Hd; [| done]. rewrite Hd in Hn1. congruence.
  - known H.
Qed.

Lemma inv_pass s ids :
  inv s -> inv (MkSystem (reg s) (chans s) (runs s) (threads s) (reap s) (panicked s) ids).
Proof. intros H. split; apply H. Qed.

Lemma forwards_step s s' : inv s -> step s s' -> inv s'.
Proof.
  intros H Hst. destruct Hst.
  - by eapply inv_reserve.
  - by apply inv_giveup.
  - by apply inv_launch.
  - by eapply inv_abort.
  - by eapply inv_register.
  - by eapply inv_refused.
  - by eapply inv_release.
  - by eapply inv_release_close.
  - by apply inv_watch.
  - by eapply inv_stop.
  - by eapply inv_stopall.
  - by apply inv_halt.
  - by apply inv_close.
  - by apply inv_clean.
  - by apply inv_pass.
  - by apply inv_pass.
  - by eapply inv_taken.
  - eapply inv_fail; [done | done | done | by left].
  - apply inv_over; [done | intros x; rewrite H0; cbn; tauto | intros x [] | rewrite H0; cbn; by left | right; left; eauto].
  - by eapply inv_restart.
  - by eapply inv_adopt.
  - assert (r' = reg s) as ->.
    { unfold adopt in H1. repeat case_match; congruence. }
    apply inv_over; [done | intros x; rewrite H0; cbn; tauto | intros x [] | by right | by left].
  - apply inv_over; [done | intros x; rewrite H0; cbn; tauto | intros x [] | rewrite H0; by left | right; right; eauto].
  - eapply inv_fail; [done | done | done | right]. split; [done |]. intros x. rewrite H0. intros [].
  - assert (r' = reg s) as ->.
    { unfold fail in H1. repeat case_match; congruence. }
    pose proof (v_run _ H) as [H2 H3 _]. rewrite H0 in H2. split; try apply H; cbn; try done.
    intros n Hn. by destruct (v_seq _ H n Hn).
Qed.

Lemma forwards_begin : inv begin.
Proof.
  split; cbn; try done; split; try done; unfold at_thread, currents; cbn; intros;
    rewrite ?lookup_empty in *; try done; try (by apply elem_of_nil in H); try constructor.
Qed.

Lemma forwards_reach s : rtc step begin s -> inv s.
Proof.
  assert (H : forall s s', rtc step s s' -> inv s -> inv s').
  { induction 1 as [| s1 s2 s3 Hs _ IH]; [done |]. intros Hi. apply IH. by eapply forwards_step. }
  intros Hr. by apply (H begin), forwards_begin.
Qed.

(** C24: no interleaving of starts, stops, moves and shutdowns closes a
    reservation channel twice, and no waiter is stranded: a channel somebody may
    wait on is closed already, or held by a start that will release it, or left
    to a shutdown that will close it. *)
Theorem no_stranded_waiter (s : system) (c : nat) :
  rtc step begin s ->
  panicked s = false /\
  (chans s !! c = Some false ->
   (exists k t th, starting (reg s) !! k = Some c /\ threads s !! t = Some th /\ keyHeld th = Some k) \/
   (exists t th, threads s !! t = Some th /\ c ∈ closesOf th)).
Proof.
  intros H%forwards_reach. split; [apply (v_ok _ H) |]. intros Hc.
  destruct (ch_owned _ _ _ (v_chan _ H) _ Hc) as [[k Hk] | [t Ht]].
  - left. destruct (ke_held _ _ _ (v_key _ H) _ _ Hk) as [t Ht]. unfold at_thread in Ht.
    destruct (threads s !! t) as [th |] eqn:E; [| done]. by exists k, t, th.
  - right. unfold at_thread in Ht. destruct (threads s !! t) as [th |] eqn:E; [by exists t, th |].
    by apply elem_of_nil in Ht.
Qed.

(** Two requests for the same target never start it side by side: at most
    one goroutine is between reserving a target and releasing it. *)
Theorem start_exclusive (s : system) (t1 t2 : nat) (th1 th2 : thread) (k : startKey) :
  rtc step begin s ->
  threads s !! t1 = Some th1 -> threads s !! t2 = Some th2 ->
  keyHeld th1 = Some k -> keyHeld th2 = Some k -> t1 = t2.
Proof.
  intros H%forwards_reach H1 H2 K1 K2. apply (ke_uniq _ _ _ (v_key _ H) t1 t2 k).
  - by rewrite (at_some _ _ _ _ _ H1).
  - by rewrite (at_some _ _ _ _ _ H2).
Qed.

(** C11: no forward leaks.  A run that still forwards is the current run of a
    listed forward, or in the hands of a goroutine that will register or halt
    it; so once the registry has stopped and the goroutines are done, nothing
    forwards, nothing is listed and no channel is left open. *)
Theorem no_leaked_run (s : system) :
  rtc step begin s ->
  (forall run, runs s !! run = Some Live ->
     (exists id e, forwards (reg s) !! id = Some e /\ current e = run) \/
     (exists t th, threads s !! t = Some th /\ run ∈ runsHeld th) \/ reaper_owns (reap s) run) /\
  (stopped (reg s) = true -> threads s = ∅ -> reap s = Idle ->
     (forall run, runs s !! run <> Some Live) /\ forwards (reg s) = ∅ /\
     forall c, chans s !! c <> Some false).
Proof.
  intros H%forwards_reach.
  assert (Ho : forall run, runs s !! run = Some Live ->
     (exists id e, forwards (reg s) !! id = Some e /\ current e = run) \/
     (exists t th, threads s !! t = Some th /\ run ∈ runsHeld th) \/ reaper_owns (reap s) run).
  { intros run Hr. destruct (ru_owned _ _ _ _ (v_run _ H) _ Hr) as [[id Hid] | [[t Ht] | ?]]; [| | auto].
    - left. unfold currents in Hid. apply fmap_Some in Hid as (e & He & ->). eauto.
    - right. left. unfold at_thread in Ht. destruct (threads s !! t) eqn:E; [eauto |].
      by apply elem_of_nil in Ht. }
  split; [done |]. intros Hs Ht Hi. destruct (v_stop _ H Hs) as [Hf Hst]. split; [| split; [done |]].
  - intros run Hr. destruct (Ho run Hr) as [(id & e & He & _) | [(t & th & Hth & _) | Hr']].
    + by rewrite Hf, lookup_empty in He.
    + by rewrite Ht, lookup_empty in Hth.
    + by rewrite Hi in Hr'.
  - intros c Hc. destruct (ch_owned _ _ _ (v_chan _ H) _ Hc) as [[k Hk] | [t Hin]].
    + by rewrite Hst, lookup_empty in Hk.
    + rewrite Ht in Hin. unfold at_thread in Hin. rewrite lookup_empty in Hin. by apply elem_of_nil in Hin.
Qed.

(** ** Examples *)

Definition web : startKey := MkStartKey KindService "shop" "web" 80.

(** One start, reserved, launched and registered. *)
Definition started (pod : string) : system :=
  MkSystem
    (MkRegistry {["pf-1" := MkRecord (MkForward "pf-1" KindService "shop" "web" pod 80 4001 StateRunning "")
                              0 None false]} ∅ 1 false)
    {[0 := true]} {[0 := Live]} {[1 := Watching "pf-1" 0]} Idle false [].

(** Applies one step of a concrete run, its premises by evaluation. *)
Tactic Notation "go" uconstr(rule) := eapply rtc_l; [eapply rule; try reflexivity |].

Lemma started_reached : rtc step begin (started "web-a").
Proof.
  go (step_reserve begin web 0 0 []).
  go (step_launch _ 0 web 0).
  go (fun r' f => step_register _ 0 web 0 "web-a" 4001 None r' f 1).
  go (fun r' => step_release_close _ 0 web r' 0).
  apply rtc_refl.
Qed.

Lemma no_stranded_waiter_witness : panicked (started "web-a") = false.
Proof. apply (no_stranded_waiter (started "web-a") 0), started_reached. Defined.

Definition starting_web : system :=
  MkSystem (MkRegistry ∅ {[web := 0]} 0 false) {[0 := false]} ∅ {[7 := Reserving web]} Idle false [].

Lemma starting_web_reached : rtc step begin starting_web.
Proof. go (step_reserve begin web 0 7 []). apply rtc_refl. Qed.

Lemma start_exclusive_witness : 7 = 7.
Proof.
  apply (start_exclusive starting_web 7 7 (Reserving web) (Reserving web) web starting_web_reached);
    reflexivity.
Defined.

Lemma no_leaked_run_witness :
  (exists id e, forwards (reg (started "web-a")) !! id = Some e /\ current e = 0) \/
  (exists t th, threads (started "web-a") !! t = Some th /\ 0 ∈ runsHeld th) \/
  reaper_owns (reap (started "web-a")) 0.
Proof. apply (no_leaked_run (started "web-a") started_reached). reflexivity. Defined.

Definition lostForward : record_ :=
  MkRecord (MkForward "pf-1" KindService "shop" "web" "web-a" 80 4001 StateFailed "lost connection to pod")
    0 None false.

Definition secondForward : record_ :=
  MkRecord (MkForward "pf-2" KindService "shop" "web" "web-b" 80 4002 StateRunning "") 1 None false.

(** The forward failed after the reaper listed it as running. *)
Definition lost : system :=
  MkSystem (MkRegistry {["pf-1" := lostForward]} ∅ 1 false) {[0 := true]} {[0 := Over]} ∅ Idle false ["pf-1"].

(** Its target was started again. *)
Definition startedAgain : system :=
  MkSystem (MkRegistry (<["pf-2" := secondForward]> {["pf-1" := lostForward]}) ∅ 2 false)
    (<[1 := true]> {[0 := true]}) (<[1 := Live]> {[0 := Over]}) {[1 := Watching "pf-2" 1]} Idle false ["pf-1"].

Lemma lost_reached : rtc step (started "web-a") lost.
Proof.
  go (step_pass _). go (step_watch _ 1 "pf-1" 0 (Some "lost connection to pod")). apply rtc_refl.
Qed.

Lemma startedAgain_reached : rtc step lost startedAgain.
Proof.
  go (step_reserve _ web 1 0 _). go (step_launch _ 0 web 1).
  go (fun r' f => step_register _ 0 web 1 "web-b" 4002 None r' f 1).
  go (fun r' => step_release_close _ 0 web r' 1). apply rtc_refl.
Qed.

(** A forward that failed while the reaper was looking at it is brought back to
    running even though its target was started again meanwhile: then two
    forwards of one target run, which [reserve] is there to prevent. *)
Theorem moved_beside_new :
  exists s, rtc step begin s /\
    exists id1 id2 e1 e2, id1 <> id2 /\
      forwards (reg s) !! id1 = Some e1 /\ forwards (reg s) !! id2 = Some e2 /\
      State (forward e1) = StateRunning /\ State (forward e2) = StateRunning /\
      keyOf (forward e1) = keyOf (forward e2).
Proof.
  eexists. split.
  - etrans; [apply started_reached |]. etrans; [apply lost_reached |]. etrans; [apply startedAgain_reached |].
    go (fun r' => step_taken _ "pf-1" [] r' 0). go (step_halted _ "pf-1" 0).
    go (step_restart _ "pf-1" 2). go (fun r' => step_adopt _ "pf-1" "web-b" 4001 2 r' 2).
    apply rtc_refl.
  - exists "pf-1", "pf-2". eexists. eexists. repeat split; [done | reflexivity..].
Qed.

End PortForward.
