(* ===== verification/Streams.v ===== *)
(** internal/resources/manager.go: the life of the shared watch streams.  A
    stream is built once per key behind a gate, shared by its subscribers,
    pinned by warmed caches, retired when idle and shut down when its kind
    vanishes.  Each critical section under the manager's mutex is a function;
    requests, timers and refreshes interleave as steps. *)

From S2P Require Import Prelude.

Module Streams.

Abbreviation gvr := (string * string * string)%type.
(** [streamKey]: a resource and the namespace it is watched in. *)
Abbreviation streamKey := (gvr * string)%type.

(** [idle]: a retirement timer is armed.  [cancelled]: the informer's context. *)
Record stream := MkStream {
  skey : streamKey;
  subs : gset nat;
  refs : Z;
  pinned : bool;
  idle : bool;
  cancelled : bool;
}.

(** What a panic on a channel came of: a watch's handler sent on a closed one, a
    closed one was closed again, or a request for more rows sent on one. *)
Inductive cause := SentByWatch | ClosedTwice | AskedForMore.

(** [chans]: whether the event and resync channels of a subscriber are open.
    [panicked]: the last panic. *)
Record manager := MkManager {
  streams : gmap streamKey nat;
  heap : gmap nat stream;
  chans : gmap nat bool;
  building : gmap streamKey Z;
  panicked : option cause;
}.

Definition NewManager : manager := MkManager ∅ ∅ ∅ ∅ None.

Definition set_stream (m : manager) (st : nat) (x : stream) : manager :=
  MkManager (streams m) (<[st := x]> (heap m)) (chans m) (building m) (panicked m).

Definition registered (x : stream) (sub : nat) : stream :=
  MkStream (skey x) ({[sub]} ∪ subs x) (refs x + 1) (pinned x) false (cancelled x).

(** [register]: [None] when the stream is no longer the manager's. *)
Definition register (m : manager) (key : streamKey) (st sub : nat) : option manager :=
  if bool_decide (streams m !! key <> Some st) then None
  else match heap m !! st with
  | None => None
  | Some x =>
      Some (MkManager (streams m) (<[st := registered x sub]> (heap m)) (<[sub := true]> (chans m))
              (building m) (panicked m))
  end.

(** Closing the channels of subscribers; closing a closed one panics. *)
Fixpoint closeSubs (l : list nat) (c : gmap nat bool) : option (gmap nat bool) :=
  match l with
  | [] => Some c
  | s :: l => match c !! s with Some true => closeSubs l (<[s := false]> c) | _ => None end
  end.

Definition closing (m : manager) (l : list nat) : manager :=
  match closeSubs l (chans m) with
  | Some c => MkManager (streams m) (heap m) c (building m) (panicked m)
  | None => MkManager (streams m) (heap m) (chans m) (building m) (Some ClosedTwice)
  end.

Definition detach (m : manager) (st sub : nat) : manager :=
  match heap m !! st with
  | None => m
  | Some x =>
      let present := bool_decide (sub ∈ subs x) in
      let m := if present then closing m [sub] else m in
      let left := if present then subs x ∖ {[sub]} else subs x in
      let n := if present then (refs x - 1)%Z else refs x in
      let arm := (n =? 0)%Z && negb (pinned x) && negb (idle x) in
      set_stream m st (MkStream (skey x) left n (pinned x) (idle x || arm) (cancelled x))
  end.

Definition cancel (x : stream) : stream :=
  MkStream (skey x) (subs x) (refs x) (pinned x) (idle x) true.

(** [retire]: what the timer of [detach] runs. *)
Definition retire (m : manager) (key : streamKey) (st : nat) : manager :=
  match heap m !! st with
  | None => m
  | Some x =>
      let x := MkStream (skey x) (subs x) (refs x) (pinned x) false (cancelled x) in
      let m := set_stream m st x in
      if (0 <? refs x)%Z || pinned x then m
      else if bool_decide (streams m !! key <> Some st) then m
      else MkManager (delete key (streams m)) (<[st := cancel x]> (heap m)) (chans m) (building m) (panicked m)
  end.

Definition pin (m : manager) (key : streamKey) (st : nat) : manager * bool :=
  if bool_decide (streams m !! key <> Some st) then (m, false)
  else match heap m !! st with
  | None => (m, false)
  | Some x => (set_stream m st (MkStream (skey x) (subs x) (refs x) true (idle x) (cancelled x)), true)
  end.

Definition unpin (m : manager) (key : streamKey) : manager :=
  match streams m !! key with
  | None => m
  | Some st =>
      match heap m !! st with
      | None => m
      | Some x =>
          let x := MkStream (skey x) (subs x) (refs x) false (idle x) (cancelled x) in
          if (refs x =? 0)%Z then
            MkManager (delete key (streams m)) (<[st := cancel x]> (heap m)) (chans m) (building m) (panicked m)
          else set_stream m st x
      end
  end.

(** The first half of [dropVanished]: the streams taken out of the map. *)
Definition dropVanished (m : manager) (kept : gvr -> bool) : manager * list nat :=
  (MkManager (filter (fun p => kept p.1.1 = true) (streams m)) (heap m) (chans m) (building m) (panicked m),
   map snd (map_to_list (filter (fun p => kept p.1.1 = false) (streams m)))).

Definition shutdown (m : manager) (st : nat) : manager :=
  match heap m !! st with
  | None => m
  | Some x =>
      set_stream (closing m (elements (subs x))) st (MkStream (skey x) ∅ 0 false (idle x) true)
  end.

(** A send on a subscriber's channels, which panics when they are closed. *)
Definition send (m : manager) (from : cause) (sub : nat) : manager :=
  match chans m !! sub with
  | Some true => m
  | _ => MkManager (streams m) (heap m) (chans m) (building m) (Some from)
  end.

(** [fanout], [watchRecovered]: a handler of the stream's informer sends to the
    subscribers the stream has at that moment, those [wants] says. *)
Definition fanout (m : manager) (st : nat) (wants : nat -> bool) : manager :=
  match heap m !! st with
  | None => m
  | Some x => fold_left (fun m sub => send m SentByWatch sub) (List.filter wants (elements (subs x))) m
  end.

(** [Subscription.SetLimit] signals a resync on the channel its subscription
    holds, whatever became of the stream. *)
Definition SetLimit (m : manager) (sub : nat) : manager := send m AskedForMore sub.

(** [acquireGate]: the stream there is, or a reference on the key's gate. *)
Definition acquireGate (m : manager) (key : streamKey) : manager * option nat :=
  match streams m !! key with
  | Some st => (m, Some st)
  | None =>
      (MkManager (streams m) (heap m) (chans m)
         (<[key := (default 0 (building m !! key) + 1)%Z]> (building m)) (panicked m), None)
  end.

Definition releaseGate (m : manager) (key : streamKey) : manager :=
  match building m !! key with
  | None => m
  | Some n =>
      MkManager (streams m) (heap m) (chans m)
        (if (n - 1 =? 0)%Z then delete key (building m) else <[key := (n - 1)%Z]> (building m)) (panicked m)
  end.

(** The end of [streamFor]: the stream just built becomes the manager's. *)
Definition insert_stream (m : manager) (key : streamKey) (st : nat) : manager :=
  MkManager (<[key := st]> (streams m)) (<[st := MkStream key ∅ 0 false false false]> (heap m)) (chans m)
    (building m) (panicked m).

(** ** Requests in progress *)

(** A request waits at the key's gate, holds it, builds the stream, leaves the
    gate with what it found, or holds a stream it will subscribe to or pin; a
    refresh has streams left to shut down. *)
Inductive thread :=
| Gated (key : streamKey)
| Locked (key : streamKey)
| Builds (key : streamKey)
| Leaving (key : streamKey) (got : option nat)
| Holding (key : streamKey) (st : nat)
| Doomed (st : nat)
| Done.

#[export] Instance thread_eq_dec : EqDecision thread.
Proof. solve_decision. Defined.

Definition at_gate (key : streamKey) (th : thread) : bool :=
  match th with
  | Gated k | Locked k | Builds k | Leaving k _ => bool_decide (k = key)
  | _ => false
  end.

(** Inside the gate's mutex. *)
Definition in_gate (key : streamKey) (th : thread) : bool :=
  match th with Locked k | Builds k => bool_decide (k = key) | _ => false end.

Record system := MkSystem { mgr : manager; threads : list thread }.

Inductive step : system -> system -> Prop :=
| step_existing s key m st :
    acquireGate (mgr s) key = (m, Some st) -> step s (MkSystem m (threads s ++ [Holding key st]))
| step_acquire s key m :
    acquireGate (mgr s) key = (m, None) -> step s (MkSystem m (threads s ++ [Gated key]))
| step_lock s i key :
    threads s !! i = Some (Gated key) -> (forall th, th ∈ threads s -> in_gate key th = false) ->
    step s (MkSystem (mgr s) (<[i := Locked key]> (threads s)))
| step_found s i key st :
    threads s !! i = Some (Locked key) -> streams (mgr s) !! key = Some st ->
    step s (MkSystem (mgr s) (<[i := Leaving key (Some st)]> (threads s)))
| step_missing s i key :
    threads s !! i = Some (Locked key) -> streams (mgr s) !! key = None ->
    step s (MkSystem (mgr s) (<[i := Builds key]> (threads s)))
| step_failed s i key :
    threads s !! i = Some (Builds key) ->
    step s (MkSystem (mgr s) (<[i := Leaving key None]> (threads s)))
| step_built s i key st :
    threads s !! i = Some (Builds key) -> heap (mgr s) !! st = None ->
    step s (MkSystem (insert_stream (mgr s) key st) (<[i := Leaving key (Some st)]> (threads s)))
| step_leave s i key got :
    threads s !! i = Some (Leaving key got) ->
    step s (MkSystem (releaseGate (mgr s) key)
              (<[i := match got with Some st => Holding key st | None => Done end]> (threads s)))
| step_register s i key st sub m :
    threads s !! i = Some (Holding key st) -> chans (mgr s) !! sub = None ->
    register (mgr s) key st sub = Some m -> step s (MkSystem m (<[i := Done]> (threads s)))
| step_refused s i key st sub :
    threads s !! i = Some (Holding key st) -> register (mgr s) key st sub = None ->
    step s (MkSystem (mgr s) (<[i := Done]> (threads s)))
| step_pin s i key st m ok :
    threads s !! i = Some (Holding key st) -> pin (mgr s) key st = (m, ok) ->
    step s (MkSystem m (<[i := Done]> (threads s)))
| step_detach s st sub : step s (MkSystem (detach (mgr s) st sub) (threads s))
| step_retire s st x :
    heap (mgr s) !! st = Some x -> step s (MkSystem (retire (mgr s) (skey x) st) (threads s))
| step_fanout s st wants : step s (MkSystem (fanout (mgr s) st wants) (threads s))
| step_limit s sub :
    is_Some (chans (mgr s) !! sub) -> step s (MkSystem (SetLimit (mgr s) sub) (threads s))
| step_unpin s key : step s (MkSystem (unpin (mgr s) key) (threads s))
| step_drop s kept m gone :
    dropVanished (mgr s) kept = (m, gone) -> step s (MkSystem m (threads s ++ map Doomed gone))
| step_shutdown s i st :
    threads s !! i = Some (Doomed st) ->
    step s (MkSystem (shutdown (mgr s) st) (<[i := Done]> (threads s))).

Definition begin : system := MkSystem NewManager [].

(** ** Gates *)

Record gate_inv (bld : gmap streamKey Z) (str : gmap streamKey nat) (l : list thread) : Prop := {
  g_refs : forall key, bld !! key =
    if (counted (at_gate key) l =? 0)%Z then None else Some (counted (at_gate key) l);
  g_one : forall key, (counted (in_gate key) l <= 1)%Z;
  g_none : forall key, Builds key ∈ l -> str !! key = None;
}.

Lemma gate_snoc bld str l th :
  gate_inv bld str l -> (forall k, at_gate k th = false) -> gate_inv bld str (l ++ [th]).
Proof.
  intros [H1 H2 H3] Hth.
  assert (Hin : forall k, in_gate k th = false).
  { intros k. specialize (Hth k). by destruct th. }
  split.
  - intros k. rewrite counted_snoc, Hth. cbn. rewrite Z.add_0_r. apply H1.
  - intros k. rewrite counted_snoc, Hin. cbn. rewrite Z.add_0_r. apply H2.
  - intros k Hk. apply elem_of_app in Hk as [Hk | Hk]; [by apply H3 |].
    apply list_elem_of_singleton in Hk. subst. specialize (Hth k). cbn in Hth.
    by rewrite bool_decide_true in Hth.
Qed.

Lemma gate_snocs bld str l ths :
  gate_inv bld str l -> Forall (fun th => forall k, at_gate k th = false) ths -> gate_inv bld str (l ++ ths).
Proof.
  intros H Hf. revert l H. induction Hf as [| th ths Hth _ IH]; intros l H; [by rewrite app_nil_r |].
  change (th :: ths) with ([th] ++ ths). rewrite app_assoc. apply IH. by apply gate_snoc.
Qed.

Lemma gate_move bld str l i th th' :
  gate_inv bld str l -> l !! i = Some th ->
  (forall k, at_gate k th' = at_gate k th) ->
  (forall k, in_gate k th' = true -> in_gate k th = true \/ forall x, x ∈ l -> in_gate k x = false) ->
  (forall k, th' = Builds k -> str !! k = None) -> gate_inv bld str (<[i := th']> l).
Proof.
  intros [H1 H2 H3] Hi Ha Hin Hb. split.
  - intros k. rewrite (counted_insert _ _ _ _ _ Hi), Ha.
    replace (counted (at_gate k) l - one (at_gate k th) + one (at_gate k th))%Z
      with (counted (at_gate k) l) by lia. apply H1.
  - intros k. rewrite (counted_insert _ _ _ _ _ Hi). specialize (H2 k). unfold one.
    destruct (in_gate k th') eqn:E; [| destruct (in_gate k th); lia].
    destruct (Hin k E) as [-> | Hno]; [lia |].
    assert (counted (in_gate k) l = 0%Z) as ->; [| destruct (in_gate k th); lia].
    unfold counted. clear -Hno. induction l as [| x l IH]; [done |]. cbn.
    rewrite Hno by left. apply IH. intros y Hy. apply Hno. by right.
  - intros k Hk. apply elem_of_insert_inv in Hk as [Hk | Hk]; [by apply Hb | by apply H3].
Qed.

Lemma gate_unstream bld str str' l :
  gate_inv bld str l -> (forall k, str !! k = None -> str' !! k = None) -> gate_inv bld str' l.
Proof. intros [H1 H2 H3] H. split; auto. Qed.

Lemma gate_acquire bld str l key :
  gate_inv bld str l ->
  gate_inv (<[key := (default 0 (bld !! key) + 1)%Z]> bld) str (l ++ [Gated key]).
Proof.
  intros [H1 H2 H3]. split.
  - intros k. rewrite counted_snoc. cbn. pose proof (counted_nonneg (at_gate k) l).
    destruct (decide (key = k)) as [-> | Hne].
    + rewrite lookup_insert_eq, H1, bool_decide_true by done. unfold one.
      destruct (Z.eqb_spec (counted (at_gate k) l) 0) as [E | E]; cbn.
      * by rewrite E.
      * by replace (counted (at_gate k) l + 1 =? 0)%Z with false by lia.
    + rewrite lookup_insert_ne, bool_decide_false by done. cbn. by rewrite Z.add_0_r.
  - intros k. rewrite counted_snoc. cbn. rewrite Z.add_0_r. apply H2.
  - intros k Hk. apply elem_of_app in Hk as [Hk | Hk]; [by apply H3 |]. by apply list_elem_of_singleton in Hk.
Qed.

Lemma gate_leave m l i key got th :
  gate_inv (building m) (streams m) l -> l !! i = Some (Leaving key got) ->
  (forall k, at_gate k th = false) ->
  gate_inv (building (releaseGate m key)) (streams (releaseGate m key)) (<[i := th]> l).
Proof.
  intros [H1 H2 H3] Hi Hth.
  assert (Hin : forall k, in_gate k th = false) by (intros k; specialize (Hth k); by destruct th).
  pose proof (counted_pos (at_gate key) l i _ Hi) as Hpos. cbn in Hpos. rewrite bool_decide_true in Hpos by done.
  specialize (Hpos eq_refl).
  assert (Hst : streams (releaseGate m key) = streams m) by (unfold releaseGate; by case_match).
  split.
  - intros k. rewrite (counted_insert _ _ _ _ _ Hi), Hth. cbn. unfold releaseGate. rewrite (H1 key).
    replace (counted (at_gate key) l =? 0)%Z with false by lia. cbn.
    destruct (decide (key = k)) as [-> | Hne].
    + rewrite bool_decide_true by done. unfold one. rewrite Z.add_0_r.
      destruct (Z.eqb_spec (counted (at_gate k) l - 1) 0); [apply lookup_delete_eq | apply lookup_insert_eq].
    + rewrite bool_decide_false by done. unfold one. rewrite Z.sub_0_r, Z.add_0_r, <- H1.
      by case_match; rewrite ?lookup_delete_ne, ?lookup_insert_ne.
  - intros k. rewrite (counted_insert _ _ _ _ _ Hi), Hin. cbn. specialize (H2 k). lia.
  - intros k Hk. rewrite Hst. apply elem_of_insert_inv in Hk as [Hk | Hk]; [| by apply H3].
    subst. specialize (Hth k). cbn in Hth. by rewrite bool_decide_true in Hth.
Qed.

(** ** Subscribers and streams *)

Definition holds_stream (key : streamKey) (st : nat) (th : thread) : Prop :=
  th = Leaving key (Some st) \/ th = Holding key st.

Record life_inv (m : manager) (l : list thread) : Prop := {
  l_map : forall key st, streams m !! key = Some st ->
    exists x, heap m !! st = Some x /\ skey x = key /\ cancelled x = false;
  l_refs : forall st x, heap m !! st = Some x -> refs x = Z.of_nat (size (subs x));
  l_open : forall st x sub, heap m !! st = Some x -> sub ∈ subs x -> chans m !! sub = Some true;
  l_uniq : forall st st' x x' sub, heap m !! st = Some x -> heap m !! st' = Some x' ->
    sub ∈ subs x -> sub ∈ subs x' -> st = st';
  l_gone : forall st x, heap m !! st = Some x -> streams m !! skey x <> Some st ->
    Doomed st ∉ l -> subs x = ∅;
  l_cancelled : forall st x, heap m !! st = Some x -> cancelled x = true -> subs x = ∅;
  l_doomed : forall st key, Doomed st ∈ l -> streams m !! key <> Some st;
  l_held : forall th key st, th ∈ l -> holds_stream key st th -> is_Some (heap m !! st);
  l_dead : forall st, Doomed st ∈ l -> is_Some (heap m !! st);
  l_kept : forall key st x, streams m !! key = Some st -> heap m !! st = Some x ->
    pinned x = true \/ (0 < refs x)%Z \/ idle x = true \/ exists th, th ∈ l /\ holds_stream key st th;
  l_ok : panicked m = None \/ panicked m = Some AskedForMore;
}.

Lemma closeSubs_spec l c :
  NoDup l -> (forall s, s ∈ l -> c !! s = Some true) ->
  exists c', closeSubs l c = Some c' /\ forall s, s ∉ l -> c' !! s = c !! s.
Proof.
  revert c. induction l as [| s l IH]; intros c Hnd Hc; [by exists c |].
  apply list.NoDup_cons in Hnd as [Hn Hnd]. cbn. rewrite Hc by left.
  destruct (IH (<[s := false]> c) Hnd) as (c' & Hc' & Hs).
  { intros s' Hs'. rewrite lookup_insert_ne; [apply Hc; by right | by intros ->]. }
  exists c'. split; [done |]. intros s' Hs'. rewrite Hs by (intros ?; apply Hs'; by right).
  apply lookup_insert_ne. intros ->. apply Hs'. left.
Qed.

Lemma closing_spec m l :
  NoDup l -> (forall s, s ∈ l -> chans m !! s = Some true) ->
  streams (closing m l) = streams m /\ heap (closing m l) = heap m /\
  building (closing m l) = building m /\ panicked (closing m l) = panicked m /\
  forall s, s ∉ l -> chans (closing m l) !! s = chans m !! s.
Proof.
  intros Hnd Hc. destruct (closeSubs_spec l (chans m) Hnd Hc) as (c' & Hc' & Hs).
  unfold closing. rewrite Hc'. by repeat split.
Qed.

(** A step on one stream, while the map of streams at most loses it. *)
Lemma life_update m m' l st x x' :
  life_inv m l -> heap m !! st = Some x -> heap m' = <[st := x']> (heap m) ->
  skey x' = skey x -> (panicked m' = None \/ panicked m' = Some AskedForMore) ->
  (forall k s, streams m' !! k = Some s -> streams m !! k = Some s) ->
  (forall k s, s <> st -> streams m !! k = Some s -> streams m' !! k = Some s) ->
  refs x' = Z.of_nat (size (subs x')) ->
  (forall sub, sub ∈ subs x' -> chans m' !! sub = Some true /\ (sub ∈ subs x \/ chans m !! sub = None)) ->
  (forall st2 x2 sub, st2 <> st -> heap m !! st2 = Some x2 -> sub ∈ subs x2 -> chans m' !! sub = Some true) ->
  (cancelled x' = true -> subs x' = ∅ /\ forall k, streams m' !! k <> Some st) ->
  (streams m' !! skey x <> Some st -> Doomed st ∉ l -> subs x' = ∅) ->
  (streams m' !! skey x = Some st -> pinned x' = true \/ (0 < refs x')%Z \/ idle x' = true \/
     exists th, th ∈ l /\ holds_stream (skey x) st th) ->
  life_inv m' l.
Proof.
  intros [H1 H2 H3 H4 H5 H6 H7 H8 H8' H9 H10] Hx Hheap Hk Hok Hsub1 Hsub2 Hr Hop Hoth Hcan Hgone Hkept.
  assert (Hlook : forall s y, heap m' !! s = Some y -> (s = st /\ y = x') \/ (s <> st /\ heap m !! s = Some y)).
  { intros s y. rewrite Hheap, lookup_insert_Some. intros [[-> ->] | [? ?]]; [by left | right]. split; [congruence | done]. }
  assert (Hown : forall key, streams m !! key = Some st -> key = skey x).
  { intros key Hs. destruct (H1 key st Hs) as (y & Hy & Hky & _). congruence. }
  assert (Hhas : forall s, is_Some (heap m !! s) -> is_Some (heap m' !! s)).
  { intros s Hs. rewrite Hheap. apply lookup_insert_is_Some. destruct (decide (st = s)); auto. }
  split; [| | | | | | | | | | done].
  - intros key s Hs. destruct (decide (s = st)) as [-> | Hne].
    + exists x'. rewrite Hheap, lookup_insert_eq. rewrite Hk, (Hown key) by auto. repeat split.
      destruct (cancelled x') eqn:E; [| done]. destruct (Hcan eq_refl) as [_ Hno]. by apply Hno in Hs.
    + destruct (H1 key s (Hsub1 _ _ Hs)) as (y & Hy & ?). exists y.
      rewrite Hheap, lookup_insert_ne; [done | congruence].
  - intros s y [[-> ->] | [? Hy]]%Hlook; [done | by eapply H2].
  - intros s y sub [[-> ->] | [? Hy]]%Hlook Hin; [by apply Hop | by eapply Hoth].
  - assert (Hfresh : forall s y sub, heap m !! s = Some y -> s <> st -> sub ∈ subs y -> sub ∈ subs x' -> False).
    { intros s y sub Hy Hne Hin Hin'. destruct (Hop _ Hin') as [_ [Ho | Hn]].
      - apply Hne. by eapply H4.
      - by rewrite (H3 _ _ _ Hy Hin) in Hn. }
    intros s s' y y' sub [[-> ->] | [Hn Hy]]%Hlook [[-> ->] | [Hn' Hy']]%Hlook Hin Hin'; [done | | | by eapply H4].
    + by destruct (Hfresh _ _ _ Hy' Hn' Hin' Hin).
    + by destruct (Hfresh _ _ _ Hy Hn Hin Hin').
  - intros s y [[-> ->] | [Hn Hy]]%Hlook Hmap Hd; [rewrite Hk in Hmap; auto |].
    eapply H5; [exact Hy | | done]. intros Hs. by apply Hmap, Hsub2.
  - intros s y [[-> ->] | [? Hy]]%Hlook Hc; [by apply Hcan | by eapply H6].
  - intros s key Hd Hs. by apply (H7 s key Hd), Hsub1.
  - intros th key s Hth Hh. by eapply Hhas, H8.
  - intros s Hd. by apply Hhas, H8'.
  - intros key s y Hs [[-> ->] | [Hn Hy]]%Hlook.
    + assert (key = skey x) as -> by auto. by apply Hkept.
    + eapply H9; [by apply Hsub1 | done].
Qed.

(** A request moves on. *)
Lemma life_move m l i th th' :
  life_inv m l -> l !! i = Some th ->
  (forall st, th' <> Doomed st) ->
  (forall key st, holds_stream key st th' -> is_Some (heap m !! st)) ->
  (forall key st x, holds_stream key st th -> streams m !! key = Some st -> heap m !! st = Some x ->
     pinned x = true \/ (0 < refs x)%Z \/ idle x = true \/ holds_stream key st th') ->
  (forall st x, th = Doomed st -> heap m !! st = Some x -> subs x = ∅) ->
  life_inv m (<[i := th']> l).
Proof.
  intros [H1 H2 H3 H4 H5 H6 H7 H8 H8' H9 H10] Hi Hnd Hh Hk Hdoom.
  assert (Hd : forall st, Doomed st ∈ <[i := th']> l -> Doomed st ∈ l).
  { intros st Hs. apply elem_of_insert_inv in Hs as [Hs | Hs]; [by destruct (Hnd st) | done]. }
  split; auto.
  - intros st x Hx Hm Hs. destruct (decide (th = Doomed st)) as [E | E]; [by eapply Hdoom |].
    eapply H5; [done | done |]. intros Hin. apply Hs. eapply elem_of_insert_keep; [done | done | congruence].
  - intros th0 key st Hth Hhold. apply elem_of_insert_inv in Hth as [-> | Hth]; [by eapply Hh | by eapply H8].
  - intros key st x Hs Hx. destruct (H9 key st x Hs Hx) as [? | [? | [? | (th0 & Hth & Hhold)]]]; auto.
    apply list_elem_of_lookup_1 in Hth as [j Hj]. destruct (decide (j = i)) as [-> | Hne].
    + assert (th0 = th) as -> by congruence.
      destruct (Hk key st x Hhold Hs Hx) as [? | [? | [? | ?]]]; auto.
      right. right. right. exists th'. split; [by eapply elem_of_insert_new | done].
    + right. right. right. exists th0. split; [| done]. apply (list_elem_of_lookup_2 _ j).
      rewrite list_lookup_insert_ne; [done | congruence].
Qed.

(** A new request. *)
Lemma life_snoc m l th :
  life_inv m l -> (forall st, th <> Doomed st) ->
  (forall key st, holds_stream key st th -> is_Some (heap m !! st)) -> life_inv m (l ++ [th]).
Proof.
  intros [H1 H2 H3 H4 H5 H6 H7 H8 H8' H9 H10] Hnd Hh.
  assert (Hd : forall st, Doomed st ∈ l ++ [th] <-> Doomed st ∈ l).
  { intros st. rewrite elem_of_app, list_elem_of_singleton. split; [| by left].
    intros [? | E]; [done |]. by destruct (Hnd st). }
  split; auto.
  - intros st x Hx Hm. rewrite Hd. by apply H5.
  - intros st key. rewrite Hd. apply H7.
  - intros th0 key st Hth Hhold. apply elem_of_app in Hth as [Hth | Hth%list_elem_of_singleton];
      [by eapply H8 | subst; by eapply Hh].
  - intros st. rewrite Hd. apply H8'.
  - intros key st x Hs Hx. destruct (H9 key st x Hs Hx) as [? | [? | [? | (th0 & Hth & ?)]]]; auto.
    right. right. right. exists th0. split; [apply elem_of_app; by left | done].
Qed.

(** A step that only touches the gates. *)
Lemma life_gates m m' l :
  life_inv m l -> streams m' = streams m -> heap m' = heap m -> chans m' = chans m ->
  panicked m' = panicked m -> life_inv m' l.
Proof.
  intros [H1 H2 H3 H4 H5 H6 H7 H8 H8' H9 H10] E1 E2 E3 E4.
  split; rewrite ?E1, ?E2, ?E3, ?E4; auto.
Qed.

Lemma life_register m m' l key st sub :
  life_inv m l -> chans m !! sub = None -> register m key st sub = Some m' ->
  life_inv m' l /\ building m' = building m /\ streams m' = streams m /\
  exists x, heap m' !! st = Some x /\ (0 < refs x)%Z.
Proof.
  intros H Hs. unfold register. case_bool_decide as Hk; [done |].
  destruct (heap m !! st) as [x |] eqn:Hx; [| done]. intros [= <-].
  assert (Hmap : streams m !! key = Some st) by (by destruct (decide (streams m !! key = Some st))).
  destruct (l_map _ _ H _ _ Hmap) as (y & Hy & Hky & Hcy). rewrite Hx in Hy. injection Hy as <-.
  assert (Hfresh : forall s z, heap m !! s = Some z -> sub ∉ subs z).
  { intros s z Hz Hin. by rewrite (l_open _ _ H _ _ _ Hz Hin) in Hs. }
  pose proof (l_refs _ _ H _ _ Hx) as Hr.
  split; [| repeat split].
  - eapply (life_update m _ l st x (registered x sub)); try done; cbn.
    + apply (l_ok _ _ H).
    + rewrite Hr, size_union, size_singleton by (specialize (Hfresh _ _ Hx); set_solver). lia.
    + intros sub'. rewrite elem_of_union, elem_of_singleton. intros [-> | Hin].
      * rewrite lookup_insert_eq. auto.
      * rewrite lookup_insert_ne by (intros ->; by apply (Hfresh _ _ Hx)). split; [by eapply (l_open _ _ H) | by left].
    + intros s z sub' Hne Hz Hin. rewrite lookup_insert_ne by (intros ->; by apply (Hfresh _ _ Hz)).
      by eapply (l_open _ _ H).
    + by rewrite Hcy.
    + intros Hno. by rewrite Hky in Hno.
    + intros _. right. left. lia.
  - exists (registered x sub). cbn. rewrite lookup_insert_eq. split; [done |]. lia.
Qed.

Lemma life_detach m l st sub :
  life_inv m l -> life_inv (detach m st sub) l /\
  building (detach m st sub) = building m /\ streams (detach m st sub) = streams m.
Proof.
  intros H. unfold detach. destruct (heap m !! st) as [x |] eqn:Hx; [| done].
  pose proof (l_refs _ _ H _ _ Hx) as Hr.
  case_bool_decide as Hin.
  - destruct (closing_spec m [sub]) as (E1 & E2 & E3 & E4 & E5).
    { apply NoDup_singleton. }
    { intros s ->%list_elem_of_singleton. by eapply (l_open _ _ H). }
    split; [| by split]. eapply (life_update m _ l st x (MkStream (skey x) (subs x ∖ {[sub]}) (refs x - 1) (pinned x)
      (idle x || ((refs x - 1 =? 0)%Z && negb (pinned x) && negb (idle x))) (cancelled x)));
      try done; cbn; rewrite ?E1, ?E2, ?E4; auto.
    + apply (l_ok _ _ H).
    + rewrite Hr. rewrite size_difference by set_solver. rewrite size_singleton.
      assert (size (subs x) <> 0); [| lia]. rewrite size_non_empty_iff. set_solver.
    + intros s. rewrite elem_of_difference, elem_of_singleton. intros [Hs Hne].
      rewrite E5 by (rewrite list_elem_of_singleton; done). split; [by eapply (l_open _ _ H) | by left].
    + intros s z sub' Hne Hz Hs. rewrite E5; [by eapply (l_open _ _ H) |].
      rewrite list_elem_of_singleton. intros ->. apply Hne. by eapply (l_uniq _ _ H).
    + intros Hc. rewrite (l_cancelled _ _ H _ _ Hx Hc) in Hin. set_solver.
    + intros Hno Hd. rewrite (l_gone _ _ H _ _ Hx Hno Hd). set_solver.
    + intros _. rewrite Hr. destruct (pinned x); [by left |]. destruct (idle x); [by auto |].
      assert (size (subs x) <> 0) by (rewrite size_non_empty_iff; set_solver).
      destruct (Z.eqb_spec (Z.of_nat (size (subs x)) - 1) 0); cbn; [by auto |]. right. left. lia.
  - split; [| by split]. eapply (life_update m _ l st x (MkStream (skey x) (subs x) (refs x) (pinned x)
      (idle x || ((refs x =? 0)%Z && negb (pinned x) && negb (idle x))) (cancelled x)));
      try done; cbn; auto.
    + apply (l_ok _ _ H).
    + intros s Hs. split; [by eapply (l_open _ _ H) | by left].
    + intros. by eapply (l_open _ _ H).
    + intros Hc. split; [by eapply (l_cancelled _ _ H) |]. intros k Hk.
      destruct (l_map _ _ H _ _ Hk) as (y & Hy & _ & Hcy). congruence.
    + apply (l_gone _ _ H _ _ Hx).
    + intros Hk. destruct (l_kept _ _ H _ _ _ Hk Hx) as [? | [? | [-> | ?]]]; auto.
Qed.

(** Taking an unused stream out of the map and cancelling it. *)
Lemma life_remove m m' l st x x' key :
  life_inv m l -> heap m !! st = Some x -> subs x = ∅ -> streams m !! key = Some st ->
  streams m' = delete key (streams m) -> heap m' = <[st := x']> (heap m) -> chans m' = chans m ->
  panicked m' = panicked m -> skey x' = skey x -> subs x' = ∅ -> refs x' = 0%Z -> life_inv m' l.
Proof.
  intros H Hx Hs Hk E1 E2 E3 E4 Hk' Hs' Hr'.
  assert (Hown : key = skey x).
  { destruct (l_map _ _ H _ _ Hk) as (y & Hy & Hky & _). congruence. }
  assert (Hno : forall k, streams m' !! k <> Some st).
  { intros k. rewrite E1, lookup_delete_Some. intros [Hne Hst].
    destruct (l_map _ _ H _ _ Hst) as (y & Hy & Hky & _). congruence. }
  eapply (life_update m m' l st x x'); try done.
  - rewrite E4. apply (l_ok _ _ H).
  - intros k s. rewrite E1, lookup_delete_Some. by intros [].
  - intros k s Hne Hst. rewrite E1, lookup_delete_ne; [done |]. congruence.
  - rewrite Hs', Hr'. done.
  - intros sub. rewrite Hs'. set_solver.
  - intros s z sub Hne Hz Hin. rewrite E3. by eapply (l_open _ _ H).
  - intros Hst. by apply Hno in Hst.
Qed.

Lemma life_retire m l st x :
  life_inv m l -> heap m !! st = Some x ->
  life_inv (retire m (skey x) st) l /\ building (retire m (skey x) st) = building m /\
  forall k, streams m !! k = None -> streams (retire m (skey x) st) !! k = None.
Proof.
  intros H Hx. unfold retire. rewrite Hx. cbn. pose proof (l_refs _ _ H _ _ Hx) as Hr.
  set (y := MkStream (skey x) (subs x) (refs x) (pinned x) false (cancelled x)).
  assert (Hstay : (0 < refs x)%Z \/ pinned x = true \/ streams m !! skey x <> Some st ->
    life_inv (set_stream m st y) l).
  { intros Hb. eapply (life_update m _ l st x y); try done; cbn; auto.
    - apply (l_ok _ _ H).
    - intros s Hs. split; [by eapply (l_open _ _ H) | by left].
    - intros. by eapply (l_open _ _ H).
    - intros Hc. split; [by eapply (l_cancelled _ _ H) |]. intros k Hk.
      destruct (l_map _ _ H _ _ Hk) as (z & Hz & _ & Hcz). congruence.
    - apply (l_gone _ _ H _ _ Hx).
    - intros Hk. destruct Hb as [? | [? | ?]]; auto. }
  destruct (Z.ltb_spec 0 (refs x)); cbn; [split; [apply Hstay; auto | done] |].
  destruct (pinned x) eqn:Hp; [split; [apply Hstay; auto | done] |].
  case_bool_decide as Hk; [split; [apply Hstay; auto | done] |].
  split; [| split; [done |]].
  - assert (subs x = ∅) as Hs by (apply leibniz_equiv, size_empty_inv; lia).
    eapply (life_remove m _ l st x (cancel y) (skey x)); try done; cbn; auto.
    + by rewrite insert_insert_eq.
    + rewrite Hr, Hs. done.
  - intros k Hn. cbn. rewrite lookup_delete_None. by right.
Qed.

Lemma life_unpin m l key :
  life_inv m l -> life_inv (unpin m key) l /\ building (unpin m key) = building m /\
  forall k, streams m !! k = None -> streams (unpin m key) !! k = None.
Proof.
  intros H. unfold unpin. destruct (streams m !! key) as [st |] eqn:Hk; [| done].
  destruct (l_map _ _ H _ _ Hk) as (x & Hx & Hkx & Hcx). rewrite Hx. cbn.
  pose proof (l_refs _ _ H _ _ Hx) as Hr.
  set (y := MkStream (skey x) (subs x) (refs x) false (idle x) (cancelled x)).
  destruct (Z.eqb_spec (refs x) 0) as [E | E]; (split; [| split; [done |]]).
  - assert (subs x = ∅) as Hs by (apply leibniz_equiv, size_empty_inv; lia).
    by eapply (life_remove m _ l st x (cancel y) key).
  - intros k Hn. cbn. rewrite lookup_delete_None. by right.
  - eapply (life_update m _ l st x y); try done; cbn; auto.
    + apply (l_ok _ _ H).
    + intros s Hs. split; [by eapply (l_open _ _ H) | by left].
    + intros. by eapply (l_open _ _ H).
    + by rewrite Hcx.
    + apply (l_gone _ _ H _ _ Hx).
    + intros _. right. left. lia.
  - done.
Qed.

Lemma life_pin m l key st m' ok :
  life_inv m l -> pin m key st = (m', ok) ->
  life_inv m' l /\ building m' = building m /\ streams m' = streams m /\
  (forall x, streams m' !! key = Some st -> heap m' !! st = Some x -> pinned x = true).
Proof.
  intros H. unfold pin. case_bool_decide as Hk; [by intros [= <- <-] |].
  assert (Hmap : streams m !! key = Some st) by (by destruct (decide (streams m !! key = Some st))).
  destruct (l_map _ _ H _ _ Hmap) as (x & Hx & Hkx & Hcx). rewrite Hx. intros [= <- <-].
  split; [| repeat split].
  - eapply (life_update m _ l st x (MkStream (skey x) (subs x) (refs x) true (idle x) (cancelled x)));
      try done; cbn; auto.
    + apply (l_ok _ _ H).
    + by eapply (l_refs _ _ H).
    + intros s Hs. split; [by eapply (l_open _ _ H) | by left].
    + intros. by eapply (l_open _ _ H).
    + by rewrite Hcx.
    + apply (l_gone _ _ H _ _ Hx).
  - intros y _. cbn. rewrite lookup_insert_eq. by intros [= <-].
Qed.

Lemma drop_lookup m kept k st :
  streams (dropVanished m kept).1 !! k = Some st <-> streams m !! k = Some st /\ kept k.1 = true.
Proof. cbn. by rewrite map_lookup_filter_Some. Qed.

Lemma drop_gone m kept st :
  st ∈ (dropVanished m kept).2 <-> exists k, streams m !! k = Some st /\ kept k.1 = false.
Proof.
  cbn. rewrite list_elem_of_fmap. split.
  - intros ([k s] & -> & Hin). apply elem_of_map_to_list, map_lookup_filter_Some in Hin as [? ?]. eauto.
  - intros (k & Hk & Hf). exists (k, st). split; [done |].
    by apply elem_of_map_to_list, map_lookup_filter_Some.
Qed.

Lemma life_drop m l kept :
  life_inv m l -> life_inv (dropVanished m kept).1 (l ++ map Doomed (dropVanished m kept).2).
Proof.
  intros H. pose proof (drop_lookup m kept) as Hl. pose proof (drop_gone m kept) as Hg.
  destruct (dropVanished m kept) as [m' gone] eqn:E. cbn in Hl, Hg. unfold dropVanished in E.
  injection E as <- <-. cbn [fst snd] in *. set (m' := MkManager _ _ _ _ _) in *.
  set (gone := map snd _) in *. clearbody gone.
  assert (Hd : forall st, Doomed st ∈ l ++ map Doomed gone <-> Doomed st ∈ l \/ st ∈ gone).
  { intros st. rewrite elem_of_app, list_elem_of_fmap. naive_solver. }
  assert (Hh : forall th key st, holds_stream key st th -> th ∈ l ++ map Doomed gone -> th ∈ l).
  { intros th key st Hs. rewrite elem_of_app, list_elem_of_fmap. intros [? | (z & -> & _)]; [done |].
    by destruct Hs. }
  destruct H as [H1 H2 H3 H4 H5 H6 H7 H8 H8' H9 H10]. split; cbn; auto.
  - intros k st [Hk _]%Hl. by apply H1.
  - intros st x Hx Hm Hn. rewrite Hd in Hn. apply (H5 _ _ Hx); [| tauto]. intros Hk.
    destruct (kept (skey x).1) eqn:Ek; [apply Hm; by apply Hl | apply Hn; right; apply Hg; eauto].
  - intros st k Hdm [Hk Hkept]%Hl. apply Hd in Hdm as [Hdm | Hdm]; [by apply (H7 st k) |].
    apply Hg in Hdm as (k' & Hk' & Hf).
    destruct (H1 _ _ Hk) as (x & Hx & Hkx & _). destruct (H1 _ _ Hk') as (y & Hy & Hky & _). congruence.
  - intros th key st Hth Hs. eapply H8; [by eapply Hh | done].
  - intros st Hdm. apply Hd in Hdm as [Hdm | Hdm]; [auto |]. apply Hg in Hdm as (k & Hk & _).
    destruct (H1 _ _ Hk) as (x & Hx & _). by exists x.
  - intros k st x [Hk _]%Hl Hx. destruct (H9 _ _ _ Hk Hx) as [? | [? | [? | (th & Hth & ?)]]]; auto.
    right. right. right. exists th. split; [apply elem_of_app; by left | done].
Qed.

(** A stream's subscribers have open channels, so its handlers' sends succeed. *)
Lemma fanout_sends m l st wants : life_inv m l -> fanout m st wants = m.
Proof.
  intros H. unfold fanout. destruct (heap m !! st) as [x |] eqn:Hx; [| done].
  assert (Ho : forall sub, sub ∈ List.filter wants (elements (subs x)) -> chans m !! sub = Some true).
  { intros sub [Hs%elem_of_elements _]%filter_elem. by eapply (l_open _ _ H). }
  induction (List.filter wants (elements (subs x))) as [| sub subs IH]; [done |]. cbn.
  unfold send at 2. rewrite Ho by left. apply IH. intros s Hs. apply Ho. by right.
Qed.

Lemma SetLimit_spec m sub :
  streams (SetLimit m sub) = streams m /\ heap (SetLimit m sub) = heap m /\ chans (SetLimit m sub) = chans m /\
  building (SetLimit m sub) = building m /\
  (panicked (SetLimit m sub) = panicked m \/ panicked (SetLimit m sub) = Some AskedForMore).
Proof. unfold SetLimit, send. repeat case_match; cbn; repeat split; auto. Qed.

Lemma life_shutdown m l i st :
  life_inv m l -> l !! i = Some (Doomed st) ->
  life_inv (shutdown m st) (<[i := Done]> l) /\ building (shutdown m st) = building m /\
  streams (shutdown m st) = streams m.
Proof.
  intros H Hi. pose proof (list_elem_of_lookup_2 _ _ _ Hi) as Hd.
  destruct (l_dead _ _ H _ Hd) as [x Hx]. unfold shutdown. rewrite Hx.
  destruct (closing_spec m (elements (subs x))) as (E1 & E2 & E3 & E4 & E5).
  { apply NoDup_elements. }
  { intros s Hs%elem_of_elements. by eapply (l_open _ _ H). }
  split; [| by split]. set (y := MkStream (skey x) ∅ 0 false (idle x) true).
  assert (Hm : life_inv (set_stream (closing m (elements (subs x))) st y) l).
  { eapply (life_update m _ l st x y); try done; cbn; rewrite ?E1, ?E2, ?E4; auto.
    - apply (l_ok _ _ H).
    - intros s z sub Hne Hz Hin. rewrite E5; [by eapply (l_open _ _ H) |].
      rewrite elem_of_elements. intros Hin'. apply Hne. by eapply (l_uniq _ _ H).
    - intros _. split; [done |]. intros k. by apply (l_doomed _ _ H).
    - intros Hk. by apply (l_doomed _ _ H) in Hk. }
  eapply life_move; [exact Hm | exact Hi | done | | |].
  - intros key s [? | ?]; done.
  - intros key s z [? | ?]; done.
  - intros s z [= <-]. cbn. rewrite lookup_insert_eq. by intros [= <-].
Qed.

Lemma life_insert m l i key st :
  life_inv m l -> l !! i = Some (Builds key) -> heap m !! st = None -> streams m !! key = None ->
  life_inv (insert_stream m key st) (<[i := Leaving key (Some st)]> l).
Proof.
  intros [H1 H2 H3 H4 H5 H6 H7 H8 H8' H9 H10] Hi Hst Hk.
  set (x0 := MkStream key ∅ 0 false false false).
  assert (Hlook : forall s y, <[st := x0]> (heap m) !! s = Some y ->
      (s = st /\ y = x0) \/ (s <> st /\ heap m !! s = Some y)).
  { intros s y. rewrite lookup_insert_Some. intros [[-> ->] | [? ?]]; [by left | right]. split; [congruence | done]. }
  assert (Hmaps : forall k s, <[key := st]> (streams m) !! k = Some s ->
      (k = key /\ s = st) \/ (k <> key /\ s <> st /\ streams m !! k = Some s)).
  { intros k s. rewrite lookup_insert_Some. intros [[-> ->] | [? Hs]]; [by left | right].
    repeat split; try congruence. intros ->. destruct (H1 _ _ Hs) as (y & Hy & _). congruence. }
  assert (Hhas : forall s, is_Some (heap m !! s) -> is_Some (<[st := x0]> (heap m) !! s)).
  { intros s Hs. apply lookup_insert_is_Some. destruct (decide (st = s)); auto. }
  assert (Hd : forall s, Doomed s ∈ <[i := Leaving key (Some st)]> l <-> Doomed s ∈ l).
  { intros s. split; intros Hs; [apply elem_of_insert_inv in Hs as [? | ?]; done |].
    eapply elem_of_insert_keep; [exact Hi | done | done]. }
  split; cbn; fold x0; auto.
  - intros k s [[-> ->] | (Hn & Hns & Hs)]%Hmaps; [exists x0; by rewrite lookup_insert_eq |].
    destruct (H1 _ _ Hs) as (y & Hy & ?). exists y. by rewrite lookup_insert_ne.
  - intros s y [[-> ->] | [_ Hy]]%Hlook; [done | by eapply H2].
  - intros s y sub [[-> ->] | [_ Hy]]%Hlook; [set_solver | by eapply H3].
  - intros s s' y y' sub [[-> ->] | [_ Hy]]%Hlook [[-> ->] | [_ Hy']]%Hlook; [done | set_solver | set_solver |].
    by eapply H4.
  - intros s y [[-> ->] | [Hn Hy]]%Hlook Hm Hdm; [done |]. rewrite Hd in Hdm.
    eapply H5; [done | | done]. intros Hs. apply Hm. rewrite lookup_insert_ne; [done | congruence].
  - intros s y [[-> ->] | [_ Hy]]%Hlook; [done | by eapply H6].
  - intros s k Hdm [[-> ->] | (Hn & Hns & Hs)]%Hmaps; apply Hd in Hdm.
    + destruct (H8' _ Hdm). congruence.
    + by apply (H7 s k).
  - intros th k s Hth Hs. apply elem_of_insert_inv in Hth as [-> | Hth]; [| by eapply Hhas, H8].
    destruct Hs as [[= -> ->] | Hs]; [| done]. rewrite lookup_insert_eq. by eexists.
  - intros s Hdm. by apply Hhas, H8', Hd.
  - intros k s y [[-> ->] | (Hn & Hns & Hs)]%Hmaps Hy.
    + right. right. right. exists (Leaving key (Some st)). split; [by eapply elem_of_insert_new | by left].
    + rewrite lookup_insert_ne in Hy by done.
      destruct (H9 _ _ _ Hs Hy) as [? | [? | [? | (th & Hth & Hh)]]]; auto.
      right. right. right. exists th. split; [| done].
      eapply elem_of_insert_keep; [exact Hi | done |]. by destruct Hh as [-> | ->].
Qed.

Record inv (s : system) : Prop := {
  v_gate : gate_inv (building (mgr s)) (streams (mgr s)) (threads s);
  v_life : life_inv (mgr s) (threads s);
}.

Lemma Forall_doomed gone : Forall (fun th => forall k, at_gate k th = false) (map Doomed gone).
Proof. apply list.Forall_forall. by intros th (st & -> & _)%list_elem_of_fmap. Qed.

Lemma holds_other key st th :
  (forall k got, th <> Leaving k got) -> (forall k s, th <> Holding k s) -> ~ holds_stream key st th.
Proof. intros H1 H2 [-> | ->]; [by apply (H1 key (Some st)) | by apply (H2 key st)]. Qed.

(** A request that moves on without holding a stream before. *)
Ltac moves Hl Hi :=
  eapply life_move; [exact Hl | exact Hi | done | |
    intros ?k ?st ?x Hhold; exfalso; revert Hhold; by apply holds_other | done].

Lemma streams_step s s' : inv s -> step s s' -> inv s'.
Proof.
  intros [Hg Hl] Hst. destruct Hst as [s key m st Ha | s key m Ha | s i key Hi Hno | s i key st Hi Hk
    | s i key Hi Hk | s i key Hi | s i key st Hi Hh | s i key got Hi | s i key st sub m Hi Hs Hr
    | s i key st sub Hi Hr | s i key st m ok Hi Hp | s st sub | s st x Hx | s st wants | s sub Hc | s key | s kept m gone Hd | s i st Hi].
  - unfold acquireGate in Ha. destruct (streams (mgr s) !! key) as [st' |] eqn:Hk; [| done].
    injection Ha as <- <-. split; cbn; [by apply gate_snoc |]. apply life_snoc; [done | done |].
    intros k st [? | [= -> ->]]; [done |]. destruct (l_map _ _ Hl _ _ Hk) as (x & Hx & _). by exists x.
  - unfold acquireGate in Ha. destruct (streams (mgr s) !! key) eqn:Hk; [done |]. injection Ha as <-.
    split; cbn; [by apply gate_acquire |]. apply life_snoc; [by eapply life_gates | done |].
    intros k st [? | ?]; done.
  - split; cbn.
    + eapply gate_move; [exact Hg | exact Hi | done | | done]. intros k Hk. right. intros th Hth.
      cbn in Hk. apply bool_decide_eq_true in Hk as <-. by apply Hno.
    + moves Hl Hi. intros k st [? | ?]; done.
  - split; cbn.
    + eapply gate_move; [exact Hg | exact Hi | done | done | done].
    + moves Hl Hi. intros k st' [[= -> ->] | ?]; [| done].
      destruct (l_map _ _ Hl _ _ Hk) as (x & Hx & _). by exists x.
  - split; cbn.
    + eapply gate_move; [exact Hg | exact Hi | done | by left | by intros k [= ->]].
    + moves Hl Hi. intros k st [? | ?]; done.
  - split; cbn.
    + eapply gate_move; [exact Hg | exact Hi | done | done | done].
    + moves Hl Hi. intros k st [? | ?]; done.
  - pose proof (g_none _ _ _ Hg key (list_elem_of_lookup_2 _ _ _ Hi)) as Hk. split; cbn.
    + pose proof (gate_move _ _ _ i _ (Leaving key (Some st)) Hg Hi) as [H1 H2 H3]; try done.
      split; [done | done |]. intros k Hb. rewrite lookup_insert_ne; [by apply H3 |]. intros ->.
      apply list_elem_of_lookup_1 in Hb as [j Hj]. destruct (decide (j = i)) as [-> | Hne].
      * rewrite list_lookup_insert_eq in Hj by (by eapply lookup_lt_Some). done.
      * rewrite list_lookup_insert_ne in Hj by congruence. apply Hne.
        eapply (counted_unique (in_gate k)); [apply (g_one _ _ _ Hg) | exact Hj | exact Hi | |];
          by apply bool_decide_eq_true.
    + by apply life_insert.
  - split; cbn.
    + eapply gate_leave; [exact Hg | exact Hi |]. by destruct got.
    + assert (Hl' : life_inv (releaseGate (mgr s) key) (threads s))
        by (eapply life_gates; [exact Hl | ..]; unfold releaseGate; by case_match).
      assert (Hheap : heap (releaseGate (mgr s) key) = heap (mgr s)) by (unfold releaseGate; by case_match).
      eapply life_move; [exact Hl' | exact Hi | by destruct got | | | done].
      * intros k st Hh. rewrite Hheap. destruct got; destruct Hh as [? | [= -> ->]]; try done.
        apply (l_held _ _ Hl (Leaving k (Some st)) k); [by eapply list_elem_of_lookup_2 | by left].
      * intros k st x [[= -> ->] | ?] _ _; [| done]. right. right. right. by right.
  - destruct (life_register _ _ _ _ _ _ Hl Hs Hr) as (Hl' & Hb & Hst & x & Hx & Hpos). split; cbn.
    + rewrite Hb, Hst. eapply gate_move; [exact Hg | exact Hi | done | done | done].
    + eapply life_move; [exact Hl' | exact Hi | done | intros k s' [? | ?]; done | | done].
      intros k s' y [? | [= <- <-]] _ Hy; [done |]. right. left. congruence.
  - split; cbn.
    + eapply gate_move; [exact Hg | exact Hi | done | done | done].
    + eapply life_move; [exact Hl | exact Hi | done | intros k s' [? | ?]; done | | done].
      intros k s' y [? | [= <- <-]] Hk Hy; [done |]. unfold register in Hr.
      rewrite bool_decide_false, Hy in Hr by (intros ?; contradiction). done.
  - destruct (life_pin _ _ _ _ _ _ Hl Hp) as (Hl' & Hb & Hst & Hpin). split; cbn.
    + rewrite Hb, Hst. eapply gate_move; [exact Hg | exact Hi | done | done | done].
    + eapply life_move; [exact Hl' | exact Hi | done | intros k s' [? | ?]; done | | done].
      intros k s' y [? | [= <- <-]] Hk Hy; [done |]. left. eauto.
  - destruct (life_detach (mgr s) (threads s) st sub Hl) as (Hl' & Hb & Hst).
    split; cbn; [by rewrite Hb, Hst | done].
  - destruct (life_retire _ _ _ _ Hl Hx) as (Hl' & Hb & Hst).
    split; cbn; [rewrite Hb; by eapply gate_unstream | done].
  - rewrite (fanout_sends _ _ _ _ Hl). by split.
  - destruct (SetLimit_spec (mgr s) sub) as (E1 & E2 & E3 & E4 & Hp). split; cbn; [by rewrite E1, E4 |].
    destruct Hl. split; rewrite ?E1, ?E2, ?E3; try done. destruct Hp as [-> | ->]; auto.
  - destruct (life_unpin (mgr s) (threads s) key Hl) as (Hl' & Hb & Hst).
    split; cbn; [rewrite Hb; by eapply gate_unstream | done].
  - pose proof (life_drop (mgr s) (threads s) kept Hl) as Hl'. rewrite Hd in Hl'. cbn in Hl'.
    injection Hd as <- <-. split; cbn; [| done]. apply gate_snocs; [| apply Forall_doomed].
    eapply gate_unstream; [exact Hg |]. intros k Hk. apply map_lookup_filter_None. by left.
  - destruct (life_shutdown _ _ _ _ Hl Hi) as (Hl' & Hb & Hst). split; cbn; [| done].
    rewrite Hb, Hst. eapply gate_move; [exact Hg | exact Hi | done | done | done].
Qed.

Lemma streams_begin : inv begin.
Proof.
  split; split; cbn; intros; rewrite ?lookup_empty in *; try done;
    try (by apply elem_of_nil in H); try (change (counted (in_gate key) []) with 0%Z; lia).
  by left.
Qed.

Lemma streams_reach s : rtc step begin s -> inv s.
Proof.
  assert (H : forall s s', rtc step s s' -> inv s -> inv s').
  { induction 1 as [| s1 s2 s3 Hs _ IH]; [done |]. intros Hi. apply IH. by eapply streams_step. }
  intros Hr. by apply (H begin), streams_begin.
Qed.

(** C15: no interleaving of subscriptions, detachments, timers, unpins, refreshes,
    builds, changes sent to the subscribers and requests for more rows takes a
    stream away from its subscribers: while a stream has a subscriber its count
    is exact, the subscriber's channels are open, its request for more rows can
    be sent, the informer runs, and the stream is the one shared by its key or
    about to be shut down with all of them.  A watch's handler never sends on a
    closed channel and no channel is closed twice; a panic can only come of a
    request for more rows whose subscriber its stream has already lost. *)
Theorem subscribers_served (s : system) (st sub : nat) (x : stream) :
  rtc step begin s ->
  heap (mgr s) !! st = Some x -> sub ∈ subs x ->
  (panicked (mgr s) = None \/ panicked (mgr s) = Some AskedForMore) /\
  chans (mgr s) !! sub = Some true /\ SetLimit (mgr s) sub = mgr s /\
  refs x = Z.of_nat (size (subs x)) /\ cancelled x = false /\
  (streams (mgr s) !! skey x = Some st \/ Doomed st ∈ threads s).
Proof.
  intros [_ H]%streams_reach Hx Hs. split; [apply (l_ok _ _ H) |].
  assert (Ho : chans (mgr s) !! sub = Some true) by (by eapply (l_open _ _ H)).
  split; [done |]. split; [unfold SetLimit, send; by rewrite Ho |].
  split; [by eapply (l_refs _ _ H) |]. split.
  - destruct (cancelled x) eqn:E; [| done]. rewrite (l_cancelled _ _ H _ _ Hx E) in Hs. set_solver.
  - destruct (decide (streams (mgr s) !! skey x = Some st)) as [| Hn]; [by left |]. right.
    destruct (decide (Doomed st ∈ threads s)) as [| Hd]; [done |].
    rewrite (l_gone _ _ H _ _ Hx Hn Hd) in Hs. set_solver.
Qed.

(** A shared stream never outlives its use: it is pinned, or has subscribers,
    or its retirement timer is armed, or a request that will subscribe to it or
    pin it is on its way; and one key never has two builds at once, so a build
    never replaces a stream that is in use. *)
Theorem streams_in_use (s : system) (key : streamKey) (st : nat) :
  rtc step begin s ->
  (streams (mgr s) !! key = Some st ->
   exists x, heap (mgr s) !! st = Some x /\ cancelled x = false /\
     (pinned x = true \/ (0 < refs x)%Z \/ idle x = true \/
      exists th, th ∈ threads s /\ holds_stream key st th)) /\
  (counted (in_gate key) (threads s) <= 1)%Z /\
  (Builds key ∈ threads s -> streams (mgr s) !! key = None).
Proof.
  intros [Hg H]%streams_reach. split; [| split; [apply (g_one _ _ _ Hg) | apply (g_none _ _ _ Hg)]].
  intros Hk. destruct (l_map _ _ H _ _ Hk) as (x & Hx & _ & Hc). exists x.
  split; [done |]. split; [done |]. by eapply (l_kept _ _ H).
Qed.

(** ** Examples *)

Definition pods : streamKey := (("", "v1", "pods"), "").

(** One subscriber on one stream, just registered. *)
Definition watching : system :=
  MkSystem (MkManager {[pods := 0]} {[0 := MkStream pods {[5]} 1 false false false]} {[5 := true]} ∅ None)
    [Done].

(** Applies one step of a concrete run, its premises by evaluation. *)
Tactic Notation "go" uconstr(rule) := eapply rtc_l; [eapply rule; try reflexivity |].

Lemma watching_reached : rtc step begin watching.
Proof.
  go (step_acquire _ pods). go (step_lock _ 0 pods).
  { intros th Hth. by apply list_elem_of_singleton in Hth as ->. }
  go (step_missing _ 0 pods). go (step_built _ 0 pods 0). go (step_leave _ 0 pods (Some 0)).
  go (fun m => step_register _ 0 pods 0 5 m). apply rtc_refl.
Qed.

Lemma subscribers_served_witness : chans (mgr watching) !! 5 = Some true.
Proof.
  refine (proj1 (proj2 (subscribers_served watching 0 5 (MkStream pods {[5]} 1 false false false)
    watching_reached eq_refl _))). set_solver.
Defined.

Lemma streams_in_use_witness :
  exists x, heap (mgr watching) !! 0 = Some x /\ cancelled x = false /\
    (pinned x = true \/ (0 < refs x)%Z \/ idle x = true \/
     exists th, th ∈ threads watching /\ holds_stream pods 0 th).
Proof. apply (streams_in_use watching pods 0 watching_reached). reflexivity. Defined.

(** A refresh that drops the kind shuts the stream down; the subscription object
    is still there, and asking it for more rows sends on a closed channel. *)
Theorem more_after_vanished :
  exists s sub, rtc step begin s /\ chans (mgr s) !! sub = Some false /\
    panicked (mgr s) = None /\ step s (MkSystem (SetLimit (mgr s) sub) (threads s)) /\
    panicked (SetLimit (mgr s) sub) = Some AskedForMore.
Proof.
  eexists. exists 5. split.
  - etrans; [apply watching_reached |].
    go (step_drop _ (fun _ => false)). go (step_shutdown _ 1 0). apply rtc_refl.
  - split; [by vm_compute |]. split; [by vm_compute |]. split; [| by vm_compute].
    apply step_limit. exists false. by vm_compute.
Qed.

End Streams.
