(* ===== verification/Delivery.v ===== *)
(** internal/resources/manager.go and internal/server/ws.go: how the changes an
    informer sees reach one client's table.  The informer's cache changes first
    and its handlers run later, in order; a stream fans each change out to its
    subscribers' bounded channels; the websocket relay turns events into batches
    and a resync signal into a fresh snapshot. *)

From S2P Require Import Prelude Api.

Module Delivery.
Import Api.

Definition eventBuffer : Z := 256.
Definition maxBatch : Z := 200.
Definition defaultEventWindow : Z := 100.

(** A row of a table; [row_Key] is what [sortKey] reads of its object. *)
Record Row := MkRow {
  row_UID : string;
  row_Name : string;
  row_Namespace : string;
  row_Key : string;
  row_Cells : list string;
}.

#[export] Instance Row_eq_dec : EqDecision Row.
Proof. solve_decision. Defined.

(** [Event], by its kind; "added" and "modified" carry a row. *)
Inductive Event :=
| Changed (row : Row)
| Deleted (uid : string)
| Broke (message : string).

(** ** scope.go: the namespaces a subscriber may see *)

Record nsFilter := MkFilter { nf_all : bool; nf_names : list string }.

Definition everything : nsFilter := MkFilter true [].

Definition filterFor (seen : Scope) : nsFilter :=
  if Everywhere seen then everything else MkFilter false (Namespaces seen).

Definition allows (nf : nsFilter) (namespace : string) : bool :=
  if nf_all nf then true else contains (nf_names nf) namespace.

Record subscriber := MkSubscriber {
  events : list Event;
  resync : bool;
  ns : string;
  seen : nsFilter;
  limit : Z;
}.

Definition newSubscriber (ns : string) (limit : Z) (seen : nsFilter) : subscriber :=
  MkSubscriber [] false ns seen limit.

(** Whether rows of a namespace are in the subscriber's table. *)
Definition visible (s : subscriber) (namespace : string) : bool :=
  if negb (allows (seen s) namespace) then false
  else if bool_decide (ns s = "") then true
  else bool_decide (namespace = ns s).

Definition wants (s : subscriber) (ev : Event) : bool :=
  match ev with Changed row => visible s (row_Namespace row) | _ => true end.

Definition signalResync (s : subscriber) : subscriber :=
  MkSubscriber (events s) true (ns s) (seen s) (limit s).

(** [sub.events <- ev], when there is room. *)
Definition push (s : subscriber) (ev : Event) : subscriber :=
  MkSubscriber (events s ++ [ev]) (resync s) (ns s) (seen s) (limit s).

(** One turn of the loop of [fanout]. *)
Definition offer (ev : Event) (s : subscriber) : subscriber :=
  if negb (wants s ev) then s
  else if (0 <? limit s)%Z then signalResync s
  else if (zlen (events s) <? eventBuffer)%Z then push s ev
  else signalResync s.

Definition fanout (ev : Event) (subs : gmap nat subscriber) : gmap nat subscriber := offer ev <$> subs.

(** [watchBroke] and [watchRecovered] on [broken] and the subscribers. *)
Definition watchBroke (kind reason : string) (broken : bool) (subs : gmap nat subscriber) :
    bool * gmap nat subscriber :=
  if broken then (true, subs)
  else (true, fanout (Broke ("the watch on " +s+ kind +s+ " broke: " +s+ reason)) subs).

Definition watchRecovered (broken : bool) (subs : gmap nat subscriber) : bool * gmap nat subscriber :=
  if negb broken then (false, subs) else (false, signalResync <$> subs).

(** [publish] and [publishDelete], the row made. *)
Definition publish (ev : Event) (broken : bool) (subs : gmap nat subscriber) : bool * gmap nat subscriber :=
  let '(broken, subs) := watchRecovered broken subs in (broken, fanout ev subs).

(** ** Snapshots *)

Definition limitFor (isEvents : bool) (asked : Z) : Z :=
  if (0 <? asked)%Z then asked else if isEvents then defaultEventWindow else 0.

(** [newerFirst]: by time, newest first, then namespace, name and UID. *)
Definition newerFirst : Row -> Row -> Z :=
  cmp_then (fun x y => str_compare (row_Key y) (row_Key x))
    (cmp_then (cmp_on row_Namespace str_compare)
       (cmp_then (cmp_on row_Name str_compare) (cmp_on row_UID str_compare))).

Definition newestFirst (held : list Row) (limit : Z) : list Row :=
  if (limit <=? 0)%Z then held
  else
    let sorted := sort_by newerFirst held in
    if (zlen sorted <=? limit)%Z then sorted else ztake limit sorted.

(** [snapshot] without row filters: [objs] is the cache's listing. *)
Definition snapshot (s : subscriber) (objs : list Row) : list Row * Z :=
  let held := List.filter (fun r => visible s (row_Namespace r)) objs in
  (newestFirst held (limit s), zlen held).

(** ** The relay *)

(** What the client shows: the rows by UID. *)
Abbreviation table := (gmap string Row).

Definition change (view : table) (ev : Event) : table :=
  match ev with
  | Changed row => <[row_UID row := row]> view
  | Deleted uid => delete uid view
  | Broke _ => view
  end.

Definition shown (rows : list Row) : table := list_to_map (map (fun r => (row_UID r, r)) rows).

(** The queued events [writeBatch] takes after the first: it stops at
    [maxBatch], or with an error, which it takes and reports. *)
Fixpoint batch (n : nat) (l : list Event) : list Event * list Event :=
  match n, l with
  | S n, Broke m :: l => ([], l)
  | S n, ev :: l => let '(taken, rest) := batch n l in (ev :: taken, rest)
  | _, _ => ([], l)
  end.

Definition writeBatch (s : subscriber) (view : table) : subscriber * table :=
  match events s with
  | [] => (s, view)
  | Broke m :: rest => (MkSubscriber rest (resync s) (ns s) (seen s) (limit s), view)
  | first :: rest =>
      let '(taken, rest) := batch (Z.to_nat (maxBatch - 1)) rest in
      (MkSubscriber rest (resync s) (ns s) (seen s) (limit s), fold_left change (first :: taken) view)
  end.

(** [drainEvents] and [Subscription.Refresh], the steps of [sendResync]
    before it reads the cache. *)
Definition drainEvents (s : subscriber) : subscriber :=
  MkSubscriber [] (resync s) (ns s) (seen s) (limit s).

Definition Refresh (s : subscriber) (seen : nsFilter) : subscriber :=
  MkSubscriber (events s) (resync s) (ns s) seen (limit s).

(** [Subscription.SetLimit], the limit put by [limitFor]. *)
Definition SetLimit (isEvents : bool) (asked : Z) (s : subscriber) : subscriber :=
  signalResync (MkSubscriber (events s) (resync s) (ns s) (seen s) (limitFor isEvents asked)).

(** What the relay received on [sub.Resync]. *)
Definition received (s : subscriber) : subscriber :=
  MkSubscriber (events s) false (ns s) (seen s) (limit s).

(** ** The steps of a stream and its clients *)

(** Where a relay is: waiting on its channels; in [sendResync] before the claim;
    after [drainEvents]; after [Refresh].  [told]: its last frame said the resync
    was refused or could not be read.  [leaked] is no state of the program: the
    UIDs of the rows that passed the old filter between [drainEvents] and
    [Refresh] and that the new filter hides, until the next resync drains. *)
Inductive phase := Waiting | Signalled | Drained | Refreshed.

Record client := MkClient { at_phase : phase; view : table; told : bool; leaked : gset string }.

(** [cached]: the informer's cache.  [pending]: changes whose handlers have not
    run yet.  [gone]: UIDs of deleted objects, which the cluster never reuses. *)
Record feed := MkFeed {
  cached : table;
  gone : gset string;
  pending : list Event;
  broken : bool;
  subs : gmap nat subscriber;
  clients : gmap nat client;
}.

Definition with_client (f : feed) (i : nat) (s : subscriber) (c : client) : feed :=
  MkFeed (cached f) (gone f) (pending f) (broken f) (<[i := s]> (subs f)) (<[i := c]> (clients f)).

Definition listing (objs : list Row) (held : table) : Prop := objs ≡ₚ (map_to_list held).*2.

(** The rows of a queue that a filter hides. *)
Definition hidden_rows (s : subscriber) : gset string :=
  list_to_set (omap (fun ev => match ev with
    | Changed row => if wants s ev then None else Some (row_UID row)
    | _ => None
    end) (events s)).

(** [nsOf]: an object's namespace never changes. *)
Inductive dstep (nsOf : string -> string) : feed -> feed -> Prop :=
| d_change f row :
    row_UID row ∉ gone f -> row_Namespace row = nsOf (row_UID row) ->
    dstep nsOf f (MkFeed (<[row_UID row := row]> (cached f)) (gone f) (pending f ++ [Changed row])
      (broken f) (subs f) (clients f))
| d_delete f uid :
    is_Some (cached f !! uid) ->
    dstep nsOf f (MkFeed (delete uid (cached f)) ({[uid]} ∪ gone f) (pending f ++ [Deleted uid])
      (broken f) (subs f) (clients f))
| d_publish f ev rest b l :
    pending f = ev :: rest -> publish ev (broken f) (subs f) = (b, l) ->
    dstep nsOf f (MkFeed (cached f) (gone f) rest b l (clients f))
| d_broke f kind reason b l :
    watchBroke kind reason (broken f) (subs f) = (b, l) ->
    dstep nsOf f (MkFeed (cached f) (gone f) (pending f) b l (clients f))
| d_register f i namespace limit seen :
    subs f !! i = None ->
    dstep nsOf f (with_client f i (newSubscriber namespace limit seen) (MkClient Refreshed ∅ false ∅))
| d_limit f i s c isEvents asked :
    subs f !! i = Some s -> clients f !! i = Some c ->
    dstep nsOf f (with_client f i (SetLimit isEvents asked s) c)
| d_batch f i s v b x s' v' :
    subs f !! i = Some s -> clients f !! i = Some (MkClient Waiting v b x) -> writeBatch s v = (s', v') ->
    dstep nsOf f (with_client f i s' (MkClient Waiting v' b x))
| d_signal f i s v b x :
    subs f !! i = Some s -> clients f !! i = Some (MkClient Waiting v b x) -> resync s = true ->
    dstep nsOf f (with_client f i (received s) (MkClient Signalled v b x))
| d_refused f i s v b x :
    subs f !! i = Some s -> clients f !! i = Some (MkClient Signalled v b x) ->
    dstep nsOf f (with_client f i s (MkClient Waiting v true x))
| d_drain f i s v b x :
    subs f !! i = Some s -> clients f !! i = Some (MkClient Signalled v b x) ->
    dstep nsOf f (with_client f i (drainEvents s) (MkClient Drained v b ∅))
| d_refresh f i s v b x seen :
    subs f !! i = Some s -> clients f !! i = Some (MkClient Drained v b x) ->
    dstep nsOf f (with_client f i (Refresh s seen) (MkClient Refreshed v b (hidden_rows (Refresh s seen))))
| d_snapshot f i s v b x objs :
    subs f !! i = Some s -> clients f !! i = Some (MkClient Refreshed v b x) -> listing objs (cached f) ->
    dstep nsOf f (with_client f i s (MkClient Waiting (shown (snapshot s objs).1) false x))
| d_unread f i s v b x :
    subs f !! i = Some s -> clients f !! i = Some (MkClient Refreshed v b x) ->
    dstep nsOf f (with_client f i s (MkClient Waiting v true x))
| d_close f i :
    dstep nsOf f (MkFeed (cached f) (gone f) (pending f) (broken f) (delete i (subs f)) (delete i (clients f))).

Definition started : feed := MkFeed ∅ ∅ [] false ∅ ∅.

(** The part of the cache a subscriber may see. *)
Definition seen_part (s : subscriber) (held : table) : table :=
  filter (fun p => visible s (row_Namespace p.2) = true) held.

(** ** Replaying events *)

(** What a list of events leaves at a UID, if it touches it. *)
Fixpoint touch (l : list Event) (k : string) : option (option Row) :=
  match l with
  | [] => None
  | ev :: l =>
      match touch l k with
      | Some v => Some v
      | None =>
          match ev with
          | Changed row => if bool_decide (row_UID row = k) then Some (Some row) else None
          | Deleted uid => if bool_decide (uid = k) then Some None else None
          | Broke _ => None
          end
      end
  end.

Lemma change_touch view ev k : change view ev !! k = default (view !! k) (touch [ev] k).
Proof.
  destruct ev as [row | uid | m]; cbn; [| | done]; case_bool_decide as E; subst; cbn;
    by rewrite ?lookup_insert_eq, ?lookup_insert_ne, ?lookup_delete_eq, ?lookup_delete_ne by done.
Qed.

Lemma touch_app l l' k :
  touch (l ++ l') k = match touch l' k with Some v => Some v | None => touch l k end.
Proof. induction l as [| ev l IH]; cbn; [by case_match |]. rewrite IH. by destruct (touch l' k). Qed.

Lemma replay_touch l view k : fold_left change l view !! k = default (view !! k) (touch l k).
Proof.
  revert view. induction l as [| ev l IH]; intros view; [done |].
  cbn [fold_left]. rewrite IH, change_touch. cbn. by destruct (touch l k).
Qed.

Lemma touch_in l k v :
  touch l k = Some v ->
  match v with Some row => Changed row ∈ l /\ row_UID row = k | None => Deleted k ∈ l end.
Proof.
  induction l as [| ev l IH]; cbn; [done |]. destruct (touch l k) as [w |].
  - intros [= <-]. specialize (IH eq_refl). destruct w as [row |].
    + destruct IH as [IH ?]. split; [by right | done].
    + by right.
  - destruct ev as [row | uid | m]; [| | done]; case_bool_decide; [| done | | done]; intros [= <-]; subst.
    + split; [by left | done].
    + by left.
Qed.

Lemma touch_filter P l k :
  (forall ev, ev ∈ l -> touch [ev] k <> None -> P ev = true) -> touch (List.filter P l) k = touch l k.
Proof.
  induction l as [| ev l IH]; intros H; [done |].
  assert (IH' : touch (List.filter P l) k = touch l k) by (apply IH; intros e He; apply H; by right).
  change (ev :: l) with ([ev] ++ l). rewrite (touch_app [ev] l). cbn [List.filter app].
  destruct (P ev) eqn:E.
  - change (ev :: List.filter P l) with ([ev] ++ List.filter P l). by rewrite touch_app, IH'.
  - rewrite IH'. destruct (touch l k); [done |]. destruct (touch [ev] k) eqn:Ht; [| done].
    rewrite H in E; [done | by left | by rewrite Ht].
Qed.

Lemma touch_filter_none P l k : touch l k = None -> touch (List.filter P l) k = None.
Proof.
  induction l as [| ev l IH]; cbn; [done |]. destruct (touch l k); [done |]. specialize (IH eq_refl).
  intros E. destruct (P ev); [cbn; by rewrite IH | done].
Qed.

(** ** The cache and its handlers *)

(** What the changes whose handlers have not run say of the cache. *)
Record cache_inv (nsOf : string -> string) (held : table) (gone : gset string) (pend : list Event) : Prop := {
  c_typed : forall k row, held !! k = Some row -> row_UID row = k /\ row_Namespace row = nsOf k;
  c_gone : forall k, k ∈ gone -> held !! k = None;
  c_deleted : forall k, Deleted k ∈ pend -> k ∈ gone;
  c_rows : forall row, Changed row ∈ pend -> row_Namespace row = nsOf (row_UID row);
  c_last : forall k v, touch pend k = Some v -> v = held !! k;
}.

Lemma cache_change nsOf held gone pend row :
  cache_inv nsOf held gone pend -> row_UID row ∉ gone -> row_Namespace row = nsOf (row_UID row) ->
  cache_inv nsOf (<[row_UID row := row]> held) gone (pend ++ [Changed row]).
Proof.
  intros [H1 H2 H3 H4 H5] Hg Hn. split.
  - intros k r [[<- <-] | [_ Hr]]%lookup_insert_Some; [done | by apply H1].
  - intros k Hk. rewrite lookup_insert_ne; [by apply H2 | by intros <-].
  - intros k [Hk | Hk%list_elem_of_singleton]%elem_of_app; [by apply H3 | done].
  - intros r [Hr | Hr%list_elem_of_singleton]%elem_of_app; [by apply H4 | by injection Hr as ->].
  - intros k v. rewrite touch_app. cbn. case_bool_decide as E; subst.
    + intros [= <-]. by rewrite lookup_insert_eq.
    + rewrite lookup_insert_ne by done. apply H5.
Qed.

Lemma cache_delete nsOf held gone pend uid :
  cache_inv nsOf held gone pend ->
  cache_inv nsOf (delete uid held) ({[uid]} ∪ gone) (pend ++ [Deleted uid]).
Proof.
  intros [H1 H2 H3 H4 H5]. split.
  - intros k r [_ Hr]%lookup_delete_Some. by apply H1.
  - intros k [->%elem_of_singleton | Hk]%elem_of_union; [apply lookup_delete_eq |].
    apply lookup_delete_None. right. by apply H2.
  - intros k [Hk | Hk%list_elem_of_singleton]%elem_of_app; [apply H3 in Hk |]; set_solver.
  - intros r [Hr | Hr%list_elem_of_singleton]%elem_of_app; [by apply H4 | done].
  - intros k v. rewrite touch_app. cbn. case_bool_decide as E; subst.
    + intros [= <-]. by rewrite lookup_delete_eq.
    + rewrite lookup_delete_ne by done. apply H5.
Qed.

Lemma cache_next nsOf held gone ev rest :
  cache_inv nsOf held gone (ev :: rest) -> cache_inv nsOf held gone rest.
Proof.
  intros [H1 H2 H3 H4 H5]. split; auto.
  - intros k Hk. apply H3. by right.
  - intros r Hr. apply H4. by right.
  - intros k v Hv. apply H5. cbn. by rewrite Hv.
Qed.

(** The wanted part of the pending changes still agrees with the cache. *)
Lemma cache_wanted nsOf held gone pend s k v :
  cache_inv nsOf held gone pend -> touch (List.filter (wants s) pend) k = Some v -> v = held !! k.
Proof.
  intros [H1 H2 H3 H4 H5] Hv. pose proof (touch_in _ _ _ Hv) as Hin. destruct v as [row |].
  - destruct Hin as [[Hr Hw]%filter_elem <-]. cbn in Hw. rewrite H4 in Hw by done.
    apply H5. rewrite <- Hv. symmetry. apply touch_filter. intros ev He Ht.
    destruct ev as [r | uid | m]; [| done | done]. cbn in *. case_bool_decide as E; [| done].
    by rewrite H4, E.
  - apply filter_elem in Hin as [Hin _]. symmetry. auto.
Qed.

(** ** One client *)

(** The events on their way to a client. *)
Definition queue (s : subscriber) (pend : list Event) : list Event :=
  events s ++ List.filter (wants s) pend.

(** Once the queue is applied the client shows exactly [part], but for the keys
    of [x]. *)
Definition settled (x : gset string) (q : list Event) (view part : table) : Prop :=
  forall k, k ∉ x -> default (view !! k) (touch q k) = part !! k.

Definition agrees (x : gset string) (q : list Event) (held : table) : Prop :=
  forall k v, k ∉ x -> touch q k = Some v -> v = held !! k.

Lemma seen_lookup s held k :
  seen_part s held !! k =
  match held !! k with Some row => if visible s (row_Namespace row) then Some row else None | None => None end.
Proof.
  unfold seen_part. rewrite map_lookup_filter. destruct (held !! k) as [row |]; [| done].
  cbn. unfold guard. destruct (decide _) as [E | E]; cbn in *; [by rewrite E |]. by destruct (visible s _).
Qed.

(** An event as the cache's change: its UID is alive and its namespace fixed. *)
Definition event_ok (nsOf : string -> string) (gone : gset string) (ev : Event) : Prop :=
  match ev with
  | Changed row => (row_UID row ∉ gone) /\ row_Namespace row = nsOf (row_UID row)
  | _ => True
  end.

Lemma settled_change nsOf held gone pend s x view ev :
  cache_inv nsOf held gone pend -> event_ok nsOf gone ev ->
  settled x (queue s pend) view (seen_part s held) ->
  settled x (queue s (pend ++ [ev])) view (seen_part s (change held ev)).
Proof.
  intros Hc Hok H k Hx. unfold queue. rewrite List.filter_app, app_assoc, touch_app. fold (queue s pend).
  rewrite seen_lookup, change_touch. specialize (H k Hx). rewrite seen_lookup in H.
  destruct ev as [row | uid | m]; cbn; [| case_bool_decide; done | done].
  destruct Hok as [_ Hn]. destruct (visible s (row_Namespace row)) eqn:E; cbn;
    case_bool_decide as Ek; cbn; rewrite ?E; [done | done | | done].
  rewrite H. destruct (held !! k) as [r |] eqn:Hr; [| done].
  destruct (c_typed _ _ _ _ Hc _ _ Hr) as [_ Hrn]. subst. by rewrite Hrn, <- Hn, E.
Qed.

Lemma agrees_change nsOf held gone pend s x ev :
  event_ok nsOf gone ev -> (forall k, Deleted k ∈ queue s pend -> k ∈ gone) ->
  (forall row, Changed row ∈ queue s pend ->
    (visible s (row_Namespace row) = true \/ row_UID row ∈ x) /\ row_Namespace row = nsOf (row_UID row)) ->
  agrees x (queue s pend) held -> agrees x (queue s (pend ++ [ev])) (change held ev).
Proof.
  intros Hok Hd Hr H k v Hx. unfold queue. rewrite List.filter_app, app_assoc, touch_app. fold (queue s pend).
  rewrite change_touch. specialize (H k).
  destruct ev as [row | uid | m]; cbn; [| case_bool_decide; [by intros [= <-] | by apply H] | by apply H].
  destruct Hok as [Hg Hn]. destruct (visible s (row_Namespace row)) eqn:E; cbn;
    case_bool_decide as Ek; cbn; [by intros [= <-] | by apply H | | by apply H].
  intros Hv. apply touch_in in Hv. destruct v as [r |].
  - destruct Hv as [Hv Hk]. destruct (Hr _ Hv) as [[Hvis | Hvis] Hrn]; congruence.
  - apply Hd in Hv. congruence.
Qed.

Lemma settled_snapshot x q s held :
  agrees x q held -> (forall row, Changed row ∈ q -> visible s (row_Namespace row) = true \/ row_UID row ∈ x) ->
  settled x q (seen_part s held) (seen_part s held).
Proof.
  intros H Hv k Hx. destruct (touch q k) as [v |] eqn:E; [| done]. pose proof (H _ _ Hx E) as Hk. cbn.
  rewrite seen_lookup, <- Hk. destruct v as [row |]; [| done].
  apply touch_in in E as [E <-]. destruct (Hv _ E) as [-> | ?]; done.
Qed.

Lemma batch_spec n l taken rest :
  batch n l = (taken, rest) -> forall view, fold_left change l view = fold_left change rest (fold_left change taken view).
Proof.
  revert l taken. induction n as [| n IH]; intros l taken; cbn; [by intros [= <- <-] |].
  destruct l as [| ev l]; [by intros [= <- <-] |]. destruct ev as [row | uid | m]; cbn; [| | by intros [= <- <-]];
    destruct (batch n l) as [tk rs] eqn:E; intros [= <- <-] view; cbn; by apply IH.
Qed.

Lemma batch_suffix n l taken rest : batch n l = (taken, rest) -> rest `suffix_of` l.
Proof.
  revert l taken. induction n as [| n IH]; intros l taken; cbn; [by intros [= <- <-] |].
  destruct l as [| ev l]; [by intros [= <- <-] |].
  destruct ev as [row | uid | m]; [| | intros [= <- <-]; by apply suffix_cons_r];
    destruct (batch n l) as [tk rs] eqn:E; intros [= <- <-]; by eapply suffix_cons_r, IH.
Qed.

Lemma writeBatch_spec s view s' view' :
  writeBatch s view = (s', view') ->
  fold_left change (events s) view = fold_left change (events s') view' /\ events s' `suffix_of` events s /\
  resync s' = resync s /\ ns s' = ns s /\ seen s' = seen s /\ limit s' = limit s.
Proof.
  unfold writeBatch. destruct (events s) as [| ev l] eqn:El; [intros [= <- <-]; by rewrite El |].
  destruct ev as [row | uid | m]; [| | intros [= <- <-]; repeat split; by apply suffix_cons_r];
    destruct (batch _ l) as [tk rs] eqn:E; intros [= <- <-]; repeat split; cbn;
    try (by eapply batch_spec); by eapply suffix_cons_r, batch_suffix.
Qed.

(** ** What an event does to a subscriber *)

Lemma wants_same s s' : ns s' = ns s -> seen s' = seen s -> wants s' = wants s.
Proof. unfold wants, visible. by intros -> ->. Qed.

Lemma offer_fields ev s :
  ns (offer ev s) = ns s /\ seen (offer ev s) = seen s /\ limit (offer ev s) = limit s /\
  (resync s = true -> resync (offer ev s) = true).
Proof. unfold offer. repeat (case_match; [done || (repeat split; done) |]); repeat split; done. Qed.

(** A subscriber without a limit has the event, or is to resync. *)
Lemma offer_queue ev s rest :
  (limit s <= 0)%Z ->
  resync (offer ev s) = true \/ queue (offer ev s) rest = queue s (ev :: rest).
Proof.
  intros Hl. unfold offer, queue. cbn [List.filter]. destruct (wants s ev) eqn:E; cbn; [| by right].
  replace (0 <? limit s)%Z with false by lia. destruct (_ <? _)%Z; [right | by left].
  cbn. by rewrite <- app_assoc.
Qed.

Lemma offer_limited ev s :
  (0 < limit s)%Z -> events (offer ev s) = events s /\ (wants s ev = true -> resync (offer ev s) = true).
Proof.
  intros Hl. unfold offer. destruct (wants s ev); cbn; [| done].
  by replace (0 <? limit s)%Z with true by lia.
Qed.

Lemma offer_in ev s e : e ∈ events (offer ev s) -> e ∈ events s \/ (e = ev /\ wants s ev = true).
Proof.
  unfold offer. destruct (wants s ev); cbn; [| by left]. destruct (_ <? _)%Z; [by left |].
  destruct (_ <? _)%Z; [| by left]. cbn. intros [? | ->%list_elem_of_singleton]%elem_of_app; auto.
Qed.

(** ** One client *)

(** What holds of every subscriber's queue. *)
Record queued_inv (nsOf : string -> string) (gone : gset string) (s : subscriber) (c : client) : Prop := {
  o_wanted : forall ev, ev ∈ events s ->
    wants s ev = true \/ exists row, ev = Changed row /\ row_UID row ∈ leaked c;
  o_deleted : forall k, Deleted k ∈ events s -> k ∈ gone;
  o_rows : forall row, Changed row ∈ events s -> row_Namespace row = nsOf (row_UID row);
  o_leaked : forall k, k ∈ leaked c -> visible s (nsOf k) = false;
  o_fresh : at_phase c = Drained -> leaked c = ∅;
}.

(** A subscriber without a limit. *)
Record open_inv (held : table) (pend : list Event) (s : subscriber) (c : client) : Prop := {
  o_waiting : at_phase c = Waiting ->
    resync s = true \/ told c = true \/ settled (leaked c) (queue s pend) (view c) (seen_part s held);
  o_drained : at_phase c = Drained \/ at_phase c = Refreshed ->
    resync s = true \/ agrees (leaked c) (queue s pend) held;
}.

(** A subscriber with a limit: it resyncs, and what was queued for it before it
    had the limit goes with the resync. *)
Record limited_inv (held : table) (pend : list Event) (s : subscriber) (c : client) : Prop := {
  w_drained : at_phase c = Drained \/ at_phase c = Refreshed -> resync s = true \/ events s = [];
  w_waiting : at_phase c = Waiting ->
    resync s = true \/ told c = true \/
    (events s = [] /\
     ((exists ev, ev ∈ pend /\ wants s ev = true) \/
      exists objs, listing objs held /\ view c = shown (snapshot s objs).1));
}.

Record client_inv (nsOf : string -> string) (held : table) (gone : gset string) (pend : list Event)
    (s : subscriber) (c : client) : Prop := {
  client_queued : queued_inv nsOf gone s c;
  client_open : (limit s <= 0)%Z -> open_inv held pend s c;
  client_limited : (0 < limit s)%Z -> limited_inv held pend s c;
}.

Section queued.
Context (nsOf : string -> string) (held : table) (gone : gset string) (pend : list Event) (s : subscriber) (c : client).
Hypothesis (Hc : cache_inv nsOf held gone pend) (Hq : queued_inv nsOf gone s c).

Lemma queue_deleted k : Deleted k ∈ queue s pend -> k ∈ gone.
Proof using All.
  intros [Hk | Hk]%elem_of_app; [by apply (o_deleted _ _ _ _ Hq) |].
  apply filter_elem in Hk as [Hk _]. by apply (c_deleted _ _ _ _ Hc).
Qed.

Lemma queue_rows row :
  Changed row ∈ queue s pend ->
  (visible s (row_Namespace row) = true \/ row_UID row ∈ leaked c) /\ row_Namespace row = nsOf (row_UID row).
Proof using All.
  intros [Hr | Hr]%elem_of_app.
  - split; [| by apply (o_rows _ _ _ _ Hq)].
    destruct (o_wanted _ _ _ _ Hq _ Hr) as [? | (r & [= <-] & ?)]; auto.
  - apply filter_elem in Hr as [Hr Hw]. split; [by left | by apply (c_rows _ _ _ _ Hc)].
Qed.

Lemma queued_change gone' : gone ⊆ gone' -> queued_inv nsOf gone' s c.
Proof using Hq. destruct Hq. split; auto. Qed.

Lemma open_change ev :
  event_ok nsOf gone ev -> open_inv held pend s c -> open_inv (change held ev) (pend ++ [ev]) s c.
Proof using All.
  intros Hok [H4 H5]. split.
  - intros Hp. destruct (H4 Hp) as [? | [? | ?]]; [by left | by right; left | right; right].
    by eapply settled_change.
  - intros Hp. destruct (H5 Hp) as [? | ?]; [by left | right].
    eapply agrees_change; [done | apply queue_deleted | apply queue_rows | done].
Qed.

End queued.

(** A subscriber that is to resync owes nothing else. *)
Lemma client_to_resync nsOf held gone pend s c :
  queued_inv nsOf gone s c -> resync s = true -> client_inv nsOf held gone pend s c.
Proof. intros Hq Hr. split; [done | |]; intros _; split; auto. Qed.

(** ** Listings *)

Lemma values_insert (k : string) (row : Row) (held : table) :
  (map_to_list (<[k := row]> held)).*2 ≡ₚ row :: (map_to_list (delete k held)).*2.
Proof. rewrite <- (insert_delete_eq), map_to_list_insert by apply lookup_delete_eq. done. Qed.

Lemma filter_split {A} (P : A -> bool) l : List.filter P l ++ List.filter (fun x => negb (P x)) l ≡ₚ l.
Proof.
  induction l as [| x l IH]; [done |]. cbn. destruct (P x); cbn; [by rewrite IH |].
  by rewrite <- Permutation_middle, IH.
Qed.

Lemma filter_again {A} (P : A -> bool) l : List.filter P (List.filter P l) = List.filter P l.
Proof. induction l as [| x l IH]; [done |]. cbn. destruct (P x) eqn:E; cbn; rewrite ?E, IH; done. Qed.

Lemma filter_against {A} (P : A -> bool) l : List.filter P (List.filter (fun x => negb (P x)) l) = [].
Proof. induction l as [| x l IH]; [done |]. cbn. destruct (P x) eqn:E; cbn; rewrite ?E; done. Qed.

Lemma filter_perm {A} (P : A -> bool) l l' : l ≡ₚ l' -> List.filter P l ≡ₚ List.filter P l'.
Proof.
  induction 1; cbn; [done | | | by etrans]; repeat case_match; rewrite ?IHPermutation; try done. apply Permutation_swap.
Qed.

(** A change of an object a subscriber does not see leaves its rows as they are. *)
Lemma hidden_listing s (held : table) row objs :
  visible s (row_Namespace row) = false ->
  (forall r, held !! row_UID row = Some r -> visible s (row_Namespace r) = false) ->
  listing objs held ->
  exists objs', listing objs' (<[row_UID row := row]> held) /\ snapshot s objs' = snapshot s objs.
Proof.
  set (P r := visible s (row_Namespace r)). intros Hrow Hold Hl.
  set (vals := (map_to_list (<[row_UID row := row]> held)).*2).
  exists (List.filter P objs ++ List.filter (fun r => negb (P r)) vals). split.
  - unfold listing. fold vals. rewrite <- (filter_split P vals) at 2. f_equiv.
    rewrite (filter_perm _ _ _ Hl). unfold vals. rewrite (filter_perm _ _ _ (values_insert _ _ _)).
    cbn [List.filter]. unfold P at 2. rewrite Hrow. destruct (held !! row_UID row) as [r |] eqn:Hr.
    + rewrite <- (insert_id held (row_UID row) r) at 1 by done.
      rewrite (filter_perm _ _ _ (values_insert _ _ _)). cbn [List.filter]. unfold P at 1.
      by rewrite (Hold _ eq_refl).
    + by rewrite delete_id.
  - unfold snapshot. fold P. by rewrite List.filter_app, filter_again, filter_against, app_nil_r.
Qed.

Lemma limited_change held pend s c ev nsOf gone :
  cache_inv nsOf held gone pend -> event_ok nsOf gone ev ->
  limited_inv held pend s c -> limited_inv (change held ev) (pend ++ [ev]) s c.
Proof.
  intros Hc Hok [H1 H2]. split; [done |]. intros Hp.
  destruct (H2 Hp) as [? | [? | [He Hw]]]; [by left | by right; left | right; right; split; [done |]].
  destruct (wants s ev) eqn:Hwe; [left; exists ev; split; [apply elem_of_app; right; by left | done] |].
  destruct Hw as [(e & He' & Hwe') | (objs & Ho & Hv)];
    [left; exists e; split; [apply elem_of_app; by left | done] | right].
  destruct ev as [row | uid | m]; [| done | done]. destruct Hok as [_ Hn].
  destruct (hidden_listing s held row objs Hwe) as (objs' & Ho' & Hs); [| done |].
  - intros r Hr. destruct (c_typed _ _ _ _ Hc _ _ Hr) as [_ Hrn]. by rewrite Hrn, <- Hn.
  - exists objs'. by rewrite Hs.
Qed.

(** Without a limit a snapshot shows exactly what the subscriber may see. *)
Lemma shown_lookup rows k row :
  NoDup (map row_UID rows) -> shown rows !! k = Some row <-> row ∈ rows /\ row_UID row = k.
Proof.
  intros Hn. unfold shown. rewrite <- elem_of_list_to_map.
  - rewrite map_elem. split; [intros (r & [= -> ->] & ?); done | intros [? <-]; eauto].
  - rewrite map_map. done.
Qed.

Lemma snapshot_all nsOf held gone pend s objs :
  cache_inv nsOf held gone pend -> (limit s <= 0)%Z -> listing objs held ->
  shown (snapshot s objs).1 = seen_part s held.
Proof.
  intros Hc Hl Ho. unfold snapshot, newestFirst. replace (limit s <=? 0)%Z with true by lia. cbn [fst].
  assert (Hin : forall r, r ∈ objs <-> exists k, held !! k = Some r).
  { intros r. rewrite Ho, list_elem_of_fmap. setoid_rewrite <- elem_of_map_to_list. split.
    - intros ([k r'] & -> & ?). eauto.
    - intros [k ?]. by exists (k, r). }
  assert (Hnd : NoDup (map row_UID objs)).
  { change (map row_UID objs) with (row_UID <$> objs). rewrite Ho.
    rewrite <- list_fmap_compose. rewrite (list_fmap_ext _ fst (map_to_list held)).
    - apply NoDup_fst_map_to_list.
    - intros i [k r] Hi%list_elem_of_lookup_2%elem_of_map_to_list. by apply (c_typed _ _ _ _ Hc). }
  apply map_eq. intros k. apply option_eq. intros r. rewrite shown_lookup.
  - rewrite filter_elem, Hin, seen_lookup. split.
    + intros [[[k' Hk] Hv] <-]. destruct (c_typed _ _ _ _ Hc _ _ Hk) as [-> _]. by rewrite Hk, Hv.
    + destruct (held !! k) as [r' |] eqn:Hk; [| done]. destruct (visible s _) eqn:Hv; [| done].
      intros [= <-]. split; [by eauto | by apply (c_typed _ _ _ _ Hc)].
  - by apply NoDup_map_filter.
Qed.

Lemma queued_offer nsOf held gone ev rest s c :
  cache_inv nsOf held gone (ev :: rest) -> queued_inv nsOf gone s c -> queued_inv nsOf gone (offer ev s) c.
Proof.
  intros Hc [H1 H2 H3 H4 H0]. destruct (offer_fields ev s) as (Hn & Hs & _ & _).
  assert (Hev : ev ∈ ev :: rest) by left. split.
  - intros e [He | [-> He]]%offer_in; rewrite (wants_same s) by done; auto.
  - intros k [He | [<- He]]%offer_in; [by apply H2 | by apply (c_deleted _ _ _ _ Hc)].
  - intros r [He | [<- He]]%offer_in; [by apply H3 | by apply (c_rows _ _ _ _ Hc)].
  - intros k. unfold visible. rewrite Hn, Hs. apply H4.
  - done.
Qed.

(** A subscriber that only ever gains its resync signal, or the event. *)
Lemma client_offer nsOf held gone ev rest s c :
  cache_inv nsOf held gone (ev :: rest) -> client_inv nsOf held gone (ev :: rest) s c ->
  client_inv nsOf held gone rest (offer ev s) c.
Proof.
  intros Hc [Hq H H']. destruct (offer_fields ev s) as (Hn & Hs & Hl & Hr).
  split; [by eapply queued_offer | |]; rewrite Hl; intros Hlim.
  - destruct (H Hlim) as [H4 H5]. split; intros Hp.
    + destruct (H4 Hp) as [? | [? | ?]]; [left; auto | by right; left |].
      destruct (offer_queue ev s rest Hlim) as [? | ->]; [by left | right; right].
      unfold seen_part, visible in *. by rewrite Hn, Hs.
    + destruct (H5 Hp) as [? | ?]; [left; auto |].
      destruct (offer_queue ev s rest Hlim) as [? | ->]; [by left | by right].
  - destruct (H' Hlim) as [H1 H2]. destruct (offer_limited ev s Hlim) as [He Hw]. split; intros Hp.
    + destruct (H1 Hp) as [? | ?]; [left; auto | right; congruence].
    + destruct (H2 Hp) as [? | [? | [Hnil [(e & [-> | He']%elem_of_cons & Hwe) | (objs & Ho & Hv)]]]];
        [left; auto | by right; left | left; auto | |]; right; right; (split; [congruence |]).
      * left. exists e. by rewrite (wants_same s).
      * right. exists objs. split; [done |]. unfold snapshot, visible in *. by rewrite Hn, Hs, Hl.
Qed.

Lemma client_signal nsOf held gone pend s c :
  client_inv nsOf held gone pend s c -> client_inv nsOf held gone pend (signalResync s) c.
Proof. intros [[H1 H2 H3 H4 H0] _ _]. by apply client_to_resync. Qed.

Lemma client_setlimit nsOf held gone pend s c isEvents asked :
  client_inv nsOf held gone pend s c -> client_inv nsOf held gone pend (SetLimit isEvents asked s) c.
Proof. intros [[H1 H2 H3 H4 H0] _ _]. by apply client_to_resync. Qed.

Record feed_inv (nsOf : string -> string) (f : feed) : Prop := {
  f_cache : cache_inv nsOf (cached f) (gone f) (pending f);
  f_clients : forall i s c, subs f !! i = Some s -> clients f !! i = Some c ->
    client_inv nsOf (cached f) (gone f) (pending f) s c;
}.

Lemma feed_with nsOf f i s c :
  feed_inv nsOf f -> client_inv nsOf (cached f) (gone f) (pending f) s c -> feed_inv nsOf (with_client f i s c).
Proof.
  intros [H1 H2] Hi. split; [done |]. intros j s' c' Hs Hc. cbn in *.
  destruct (decide (i = j)) as [-> | Hn].
  - rewrite lookup_insert_eq in Hs. rewrite lookup_insert_eq in Hc. by simplify_eq.
  - rewrite lookup_insert_ne in Hs by done. rewrite lookup_insert_ne in Hc by done. by apply (H2 j).
Qed.

Lemma feed_change nsOf f ev gone' :
  feed_inv nsOf f -> event_ok nsOf (gone f) ev -> gone f ⊆ gone' ->
  cache_inv nsOf (change (cached f) ev) gone' (pending f ++ [ev]) ->
  feed_inv nsOf (MkFeed (change (cached f) ev) gone' (pending f ++ [ev]) (broken f) (subs f) (clients f)).
Proof.
  intros [H1 H2] Hok Hg Hc. split; [done |]. cbn. intros i s c Hs Hcl.
  destruct (H2 _ _ _ Hs Hcl) as [Hq Ho Hl]. split; [by eapply queued_change | |]; intros Hlim.
  - eapply open_change; eauto.
  - eapply limited_change; eauto.
Qed.

Lemma watchRecovered_spec b subs : watchRecovered b subs = (false, if b then signalResync <$> subs else subs).
Proof. by destruct b. Qed.

Lemma feed_signal nsOf f b (b' : bool) :
  feed_inv nsOf f ->
  feed_inv nsOf (MkFeed (cached f) (gone f) (pending f) b
    (if b' then signalResync <$> subs f else subs f) (clients f)).
Proof.
  intros [H1 H2]. split; [done |]. cbn. intros i s c Hs Hc. destruct b'; [| by apply (H2 i)].
  rewrite lookup_fmap in Hs. destruct (subs f !! i) as [s' |] eqn:E; [| done]. injection Hs as <-.
  by eapply client_signal, H2.
Qed.

Lemma feed_publish nsOf f ev rest :
  feed_inv nsOf f -> pending f = ev :: rest ->
  feed_inv nsOf (MkFeed (cached f) (gone f) rest (broken f) (fanout ev (subs f)) (clients f)).
Proof.
  intros [H1 H2] Hp. rewrite Hp in *. split; [by eapply cache_next |]. cbn. intros i s c Hs Hc.
  unfold fanout in Hs. rewrite lookup_fmap in Hs. destruct (subs f !! i) as [s' |] eqn:E; [| done].
  injection Hs as <-. by eapply client_offer, H2.
Qed.

(** An error reaches the queues without touching a row. *)
Lemma client_broke nsOf held gone pend m s c :
  cache_inv nsOf held gone pend -> client_inv nsOf held gone pend s c ->
  client_inv nsOf held gone pend (offer (Broke m) s) c.
Proof.
  intros Hc H. eapply client_offer.
  - destruct Hc as [H1 H2 H3 H4 H5]. split; auto.
    + intros k [? | ?]%elem_of_cons; [done | by apply H3].
    + intros r [? | ?]%elem_of_cons; [done | by apply H4].
    + intros k v. cbn. intros Hv. apply H5. by destruct (touch pend k).
  - assert (Ht : forall k, touch (queue s (Broke m :: pend)) k = touch (queue s pend) k).
    { intros k. unfold queue. cbn. rewrite !touch_app. cbn. by destruct (touch (List.filter _ pend) k). }
    destruct H as [Hq H H']. split; [done | |]; intros Hl.
    + destruct (H Hl) as [H4 H5]. split.
      * intros Hp. destruct (H4 Hp) as [? | [? | Hs]]; [by left | by right; left | right; right].
        intros k. rewrite Ht. apply Hs.
      * intros Hp. destruct (H5 Hp) as [? | Hs]; [by left | right]. intros k v. rewrite Ht. apply Hs.
    + destruct (H' Hl) as [H1 H2]. split; [done |]. intros Hp.
      destruct (H2 Hp) as [? | [? | [Hnil [(e & ? & ?) | ?]]]]; [by left | by right; left | |];
        right; right; (split; [done |]); [left | by right].
      exists e. split; [by right | done].
Qed.

Lemma feed_broke nsOf f m b :
  feed_inv nsOf f -> feed_inv nsOf (MkFeed (cached f) (gone f) (pending f) b (fanout (Broke m) (subs f)) (clients f)).
Proof.
  intros [H1 H2]. split; [done |]. cbn. intros i s c Hs Hc.
  unfold fanout in Hs. rewrite lookup_fmap in Hs. destruct (subs f !! i) as [s' |] eqn:E; [| done].
  injection Hs as <-. by eapply client_broke, H2.
Qed.

(** ** The relay's steps *)

Lemma client_batch nsOf held gone pend s v b x s' v' :
  client_inv nsOf held gone pend s (MkClient Waiting v b x) -> writeBatch s v = (s', v') ->
  client_inv nsOf held gone pend s' (MkClient Waiting v' b x).
Proof.
  intros [[H1 H2 H3 H0 _] H H'] Hw. destruct (writeBatch_spec _ _ _ _ Hw) as (Hf & Hsuf & Hr & Hn & Hs & Hl).
  assert (Hin : forall e, e ∈ events s' -> e ∈ events s).
  { intros e He. destruct Hsuf as [l ->]. apply elem_of_app. by right. }
  split; rewrite ?Hl.
  - split; [intros e He; rewrite (wants_same s) by done; auto | auto | auto | | done].
    intros k. unfold visible. rewrite Hn, Hs. apply H0.
  - intros Hlim. destruct (H Hlim) as [H4 H5]. split; [| by intros [? | ?]].
    intros _. destruct (H4 eq_refl) as [? | [? | Hst]]; [left; congruence | by right; left | right; right].
    intros k Hx. specialize (Hst k Hx). cbn in *. rewrite <- replay_touch in Hst |- *.
    unfold queue, seen_part, visible in *. rewrite (wants_same s), Hn, Hs by done.
    rewrite fold_left_app, Hf in Hst. by rewrite fold_left_app.
  - intros Hlim. destruct (H' Hlim) as [H4 H5]. split; [by intros [? | ?] |]. intros _.
    destruct (H5 eq_refl) as [? | [? | [Hnil Hv]]]; [left; congruence | by right; left | right; right].
    unfold writeBatch in Hw. rewrite Hnil in Hw. by injection Hw as <- <-.
Qed.

Lemma client_signalled nsOf held gone pend s v b x :
  client_inv nsOf held gone pend s (MkClient Waiting v b x) ->
  client_inv nsOf held gone pend (received s) (MkClient Signalled v b x).
Proof.
  intros [[H1 H2 H3 H4 _] _ _]. split; [by split | |]; intros _; split; solve [done | by intros [? | ?]].
Qed.

Lemma client_told nsOf held gone pend s p v b x :
  client_inv nsOf held gone pend s (MkClient p v b x) ->
  client_inv nsOf held gone pend s (MkClient Waiting v true x).
Proof.
  intros [[H1 H2 H3 H4 _] _ _]. split; [by split | |]; intros _; split;
    solve [by intros [? | ?] | intros _; right; by left].
Qed.

Lemma client_drained nsOf held gone pend s v b x :
  cache_inv nsOf held gone pend -> client_inv nsOf held gone pend s (MkClient Signalled v b x) ->
  client_inv nsOf held gone pend (drainEvents s) (MkClient Drained v b ∅).
Proof.
  intros Hc _. split; [split; set_solver | |]; intros _.
  - split; [done |]. intros _. right. intros k v' _ Hv. by eapply (cache_wanted nsOf _ _ _ (drainEvents s)).
  - split; [| done]. intros _. by right.
Qed.

Lemma hidden_spec s k :
  k ∈ hidden_rows s <-> exists row, Changed row ∈ events s /\ wants s (Changed row) = false /\ row_UID row = k.
Proof.
  unfold hidden_rows. rewrite elem_of_list_to_set, list_elem_of_omap. split.
  - intros (ev & He & Hk). destruct ev as [row | |]; [| done | done].
    destruct (wants s (Changed row)) eqn:E; [done |]. injection Hk as <-. by exists row.
  - intros (row & He & Hw & <-). exists (Changed row). by rewrite Hw.
Qed.

Lemma client_refreshed nsOf held gone pend s v b x seen :
  cache_inv nsOf held gone pend -> client_inv nsOf held gone pend s (MkClient Drained v b x) ->
  client_inv nsOf held gone pend (Refresh s seen) (MkClient Refreshed v b (hidden_rows (Refresh s seen))).
Proof.
  intros Hc [[H1 H2 H3 H4 Hx] H H']. specialize (Hx eq_refl). cbn in Hx. subst x. split; [split | |].
  - intros ev He. destruct (wants (Refresh s seen) ev) eqn:E; [by left | right].
    destruct ev as [row | |]; [| done | done]. exists row. split; [done |]. apply hidden_spec. by exists row.
  - done.
  - done.
  - intros k (row & He & Hw & <-)%hidden_spec. cbn in He. by rewrite <- H3.
  - done.
  - intros Hl. destruct (H Hl) as [_ H5]. split; [done |]. intros _.
    destruct H5 as [? | Ha]; [by left | by left | right]. intros k v' Hk Hv.
    unfold queue in Hv. rewrite touch_app in Hv.
    destruct (touch (List.filter _ pend) k) as [v'' |] eqn:Ep.
    { injection Hv as <-. by eapply (cache_wanted nsOf _ _ _ (Refresh s seen)). }
    pose proof (touch_in _ _ _ Hv) as Hin. destruct v' as [row |].
    + destruct Hin as [Hin <-]. apply Ha; [done |]. unfold queue. rewrite touch_app.
      rewrite touch_filter_none; [done |]. rewrite <- Ep. symmetry. apply touch_filter.
      intros ev He Ht. destruct ev as [r | uid | m]; [| done | done]. cbn in Ht. case_bool_decide as E; [| done].
      destruct (wants (Refresh s seen) (Changed row)) eqn:Hw.
      * cbn in Hw |- *. rewrite (c_rows _ _ _ _ Hc r He), E. by rewrite (H3 _ Hin) in Hw.
      * destruct Hk. apply hidden_spec. by exists row.
    + symmetry. by apply (c_gone _ _ _ _ Hc), H2.
  - intros Hl. destruct (H' Hl) as [H5 _]. split; [| done]. intros _. apply H5. by left.
Qed.

Lemma client_snapshot nsOf held gone pend s v b x objs :
  cache_inv nsOf held gone pend -> client_inv nsOf held gone pend s (MkClient Refreshed v b x) ->
  listing objs held ->
  client_inv nsOf held gone pend s (MkClient Waiting (shown (snapshot s objs).1) false x).
Proof.
  intros Hc [Hq H H'] Ho. split; [by destruct Hq; split | |]; intros Hl.
  - destruct (H Hl) as [_ H5]. split; [| by intros [? | ?]].
    intros _. destruct H5 as [? | Ha]; [by right | by left | right; right]. cbn [view].
    rewrite (snapshot_all nsOf held gone pend) by done. apply settled_snapshot; [done |].
    intros row Hr. by apply (queue_rows nsOf held gone pend s _ Hc Hq).
  - destruct (H' Hl) as [H5 _]. split; [by intros [? | ?] |]. intros _.
    destruct H5 as [? | ?]; [by right | by left | right; right]. split; [done |]. right. by exists objs.
Qed.

Lemma client_registered nsOf held gone pend namespace limit seen :
  cache_inv nsOf held gone pend ->
  client_inv nsOf held gone pend (newSubscriber namespace limit seen) (MkClient Refreshed ∅ false ∅).
Proof.
  intros Hc. split; [split; set_solver | |]; intros _.
  - split; [done |]. intros _. right. intros k v' _ Hv. by eapply (cache_wanted nsOf _ _ _ (newSubscriber namespace limit seen)).
  - split; [| done]. intros _. by right.
Qed.

Lemma feed_step nsOf f f' : feed_inv nsOf f -> dstep nsOf f f' -> feed_inv nsOf f'.
Proof.
  intros H Hst. pose proof H as [H1 H2]. destruct Hst.
  - apply (feed_change _ _ (Changed row)); [done | done | done | by apply cache_change].
  - apply (feed_change _ _ (Deleted uid)); [done | done | set_solver | by apply cache_delete].
  - unfold publish in H3. rewrite watchRecovered_spec in H3. injection H3 as <- <-.
    apply (feed_publish nsOf (MkFeed (cached f) (gone f) (pending f) false
      (if broken f then signalResync <$> subs f else subs f) (clients f)) ev); [by apply feed_signal | done].
  - unfold watchBroke in H0. destruct (broken f) eqn:E; injection H0 as <- <-;
      [by split | by apply feed_broke].
  - apply feed_with; [done | by apply client_registered].
  - apply feed_with; [done |]. by eapply client_setlimit, H2.
  - apply feed_with; [done |]. eapply client_batch; [by eapply H2 | done].
  - apply feed_with; [done |]. by eapply client_signalled, H2.
  - apply feed_with; [done |]. by eapply client_told, H2.
  - apply feed_with; [done |]. by eapply client_drained, H2.
  - apply feed_with; [done |]. eapply client_refreshed; [exact H1 | by eapply H2].
  - apply feed_with; [done |]. eapply client_snapshot; [exact H1 | by eapply H2 | done].
  - apply feed_with; [done |]. by eapply client_told, H2.
  - split; [done |]. cbn. intros j s c [_ Hs]%lookup_delete_Some [_ Hc]%lookup_delete_Some. by apply (H2 j).
Qed.

Lemma feed_reach nsOf f : rtc (dstep nsOf) started f -> feed_inv nsOf f.
Proof.
  assert (H : forall f f', rtc (dstep nsOf) f f' -> feed_inv nsOf f -> feed_inv nsOf f').
  { induction 1 as [| f1 f2 f3 Hs _ IH]; [done |]. intros Hi. apply IH. by eapply feed_step. }
  intros Hr. apply (H started); [done |]. split; [| done]. split; cbn; try done; intros k; set_solver.
Qed.


(** ** Examples *)

Definition pod (uid namespace key : string) : Row := MkRow uid ("pod-" +s+ uid) namespace key ["Running"].

Definition inWeb (uid : string) : string := "web".

(** One table on every namespace: its pod was added while it opened, delivered,
    and written as a batch. *)
Definition opened (row : Row) : feed :=
  MkFeed {[row_UID row := row]} ∅ [] false
    {[0 := MkSubscriber [] false "" everything 0]} {[0 := MkClient Waiting {[row_UID row := row]} false ∅]}.

(** Applies one step of a concrete run, its premises by evaluation. *)
Tactic Notation "go" uconstr(rule) := eapply rtc_l; [eapply rule; try reflexivity |].

Lemma opened_reached : rtc (dstep inWeb) started (opened (pod "u1" "web" "t1")).
Proof.
  go (d_register _ _ 0 "" 0%Z everything). go (d_snapshot _ _ 0 _ _ _ _ []); [vm_compute; constructor |].
  go (d_change _ _ (pod "u1" "web" "t1")); [set_solver |].
  go (d_publish _ _ (Changed (pod "u1" "web" "t1"))).
  go (d_batch _ _ 0). apply rtc_refl.
Qed.


(** A full channel drops an event and signals a resync.  The relay consumes the
    signal; when the resync is refused it sends an error and goes on, nothing
    signals again, and the queue empties with the event lost. *)
Definition crowded : subscriber :=
  MkSubscriber (List.repeat (Changed (pod "u1" "web" "t1")) 256) false "" everything 0.

Theorem refused_resync_loses_event :
  let s := offer (Changed (pod "u2" "web" "t2")) crowded in
  let '(s1, v1) := writeBatch (received s) ∅ in
  let '(s2, v2) := writeBatch s1 v1 in
  resync s = true /\ events s2 = [] /\ resync s2 = false /\ v2 !! "u2" = None.
Proof. by vm_compute. Qed.

(** [sendResync] drains the queue before [Refresh] replaces the filter.  A row
    queued between the two passed the old filter; it is applied after the
    snapshot and shows in the table of a subscriber who may no longer see it.
    The state is reached and has nothing left to deliver. *)
Definition both : nsFilter := MkFilter false ["web"; "ops"].
Definition narrow : nsFilter := MkFilter false ["web"].
Definition inOps (uid : string) : string := "ops".

Definition leaky : feed :=
  let row := pod "u1" "ops" "t1" in
  MkFeed {["u1" := row]} ∅ [] false {[0 := MkSubscriber [] false "" narrow 0]}
    {[0 := MkClient Waiting {["u1" := row]} false {["u1"]}]}.

Theorem narrowed_filter_leaks_row :
  rtc (dstep inOps) started leaky /\ visible (MkSubscriber [] false "" narrow 0) "ops" = false.
Proof.
  split; [| by vm_compute].
  go (d_register _ _ 0 "" 0%Z both). go (d_snapshot _ _ 0 _ _ _ _ []); [vm_compute; constructor |].
  go (d_limit _ _ 0 _ _ false 0%Z). go (d_signal _ _ 0). go (d_drain _ _ 0).
  go (d_change _ _ (pod "u1" "ops" "t1")); [set_solver |].
  go (d_publish _ _ (Changed (pod "u1" "ops" "t1"))).
  go (d_refresh _ _ 0 _ _ _ _ narrow).
  go (d_snapshot _ _ 0 _ _ _ _ [pod "u1" "ops" "t1"]); [vm_compute; reflexivity |].
  go (d_batch _ _ 0). apply rtc_refl.
Qed.

End Delivery.
