(* ===== verification/Feeds.v ===== *)
(** internal/server/ws.go: the feeds of one websocket session.  The reader
    claims, replaces and drops subscriptions under the session's mutex; each
    claimed one is built and relayed by a goroutine of its own, which owns what
    it opened until the session adopts it; frames are written under a second
    mutex, after the subscription was found to be current.  The critical
    sections are functions; readers, builders, relays and a closing cluster
    interleave as steps. *)

From S2P Require Import Prelude.

Module Feeds.

Definition maxSubscriptions : Z := 64.

Inductive feed := tables | streams.

#[export] Instance feed_eq_dec : EqDecision feed.
Proof. solve_decision. Defined.

(** [entry]: the adopted resource, if any, and whether the builder's context
    can be cancelled through it. *)
Record entry := MkEntry { resource : option nat; gen : nat; cluster : string; cancel : bool }.

#[export] Instance entry_eq_dec : EqDecision entry.
Proof. solve_decision. Defined.

Record session := MkSession {
  s_tables : gmap string entry;
  s_logs : gmap string entry;
  nextGen : nat;
}.

Definition entriesOf (s : session) (which : feed) : gmap string entry :=
  match which with streams => s_logs s | tables => s_tables s end.

Definition with_entries (s : session) (which : feed) (m : gmap string entry) : session :=
  match which with
  | streams => MkSession (s_tables s) m (nextGen s)
  | tables => MkSession m (s_logs s) (nextGen s)
  end.

(** [len(sess.tables) + len(sess.logs)]. *)
Definition held_count (s : session) : Z := (Z.of_nat (size (s_tables s)) + Z.of_nat (size (s_logs s)))%Z.

(** [tryClaim]: the new generation, and the entry it replaces. *)
Definition tryClaim (s : session) (which : feed) (subID cluster : string) :
    session * option (nat * option entry) :=
  let previous := entriesOf s which !! subID in
  if bool_decide (previous = None) && (maxSubscriptions <=? held_count s)%Z then (s, None)
  else
    let g := S (nextGen s) in
    let s := MkSession (s_tables s) (s_logs s) g in
    (with_entries s which (<[subID := MkEntry None g cluster false]> (entriesOf s which)), Some (g, previous)).

Definition holdCancel (s : session) (which : feed) (subID : string) (g : nat) : session * bool :=
  match entriesOf s which !! subID with
  | None => (s, false)
  | Some held =>
      if bool_decide (gen held <> g) then (s, false)
      else (with_entries s which
              (<[subID := MkEntry (resource held) (gen held) (cluster held) true]> (entriesOf s which)), true)
  end.

Definition adopt (s : session) (which : feed) (subID : string) (g r : nat) : session * bool :=
  match entriesOf s which !! subID with
  | None => (s, false)
  | Some held =>
      if bool_decide (gen held <> g) then (s, false)
      else (with_entries s which
              (<[subID := MkEntry (Some r) (gen held) (cluster held) (cancel held)]> (entriesOf s which)), true)
  end.

Definition isCurrent (s : session) (which : feed) (subID : string) (g : nat) : bool :=
  match entriesOf s which !! subID with None => false | Some held => bool_decide (gen held = g) end.

Definition forgetCurrent (s : session) (which : feed) (subID : string) (g : nat) : session * option entry :=
  match entriesOf s which !! subID with
  | None => (s, None)
  | Some held =>
      if bool_decide (gen held <> g) then (s, None)
      else (with_entries s which (delete subID (entriesOf s which)), Some held)
  end.

(** The critical section of [drop]; the entry is stopped after it. *)
Definition drop (s : session) (which : feed) (subID : string) : session * option entry :=
  match entriesOf s which !! subID with
  | None => (s, None)
  | Some held => (with_entries s which (delete subID (entriesOf s which)), Some held)
  end.

Definition on_cluster (c : string) (p : string * entry) : Prop := cluster p.2 = c.

#[export] Instance on_cluster_dec c p : Decision (on_cluster c p).
Proof. unfold on_cluster. apply _. Defined.

(** The critical sections of [dropOn] and [closeAll]. *)
Definition dropOn (s : session) (c : string) : session * list entry :=
  (MkSession (filter (fun p => ~ on_cluster c p) (s_tables s)) (filter (fun p => ~ on_cluster c p) (s_logs s))
     (nextGen s),
   (map_to_list (filter (on_cluster c) (s_tables s))).*2 ++
   (map_to_list (filter (on_cluster c) (s_logs s))).*2).

Definition closeAll (s : session) : session * list entry :=
  (MkSession ∅ ∅ (nextGen s), (map_to_list (s_tables s)).*2 ++ (map_to_list (s_logs s)).*2).

(** ** The goroutines *)

(** A frame of a subscription; [final] is the error [failAndForget] ends one with. *)
Record frame := MkFrame { f_feed : feed; f_sub : string; f_gen : nat; final : bool }.

(** A builder was started for a generation, may be cancelled, has opened what
    it will offer for adoption, relays, is between [isCurrent] and the end of
    its write, or failed and is about to write the error; [Stopping]: entries
    that were taken out of the session and will be stopped. *)
Inductive thread :=
| Started (which : feed) (subID : string) (g : nat)
| Building (which : feed) (subID : string) (g : nat)
| Opened (which : feed) (subID : string) (g r : nat)
| Relaying (which : feed) (subID : string) (g : nat)
| Writing (which : feed) (subID : string) (g : nat)
| Failing (which : feed) (subID : string) (g : nat) (held : entry)
| Stopping (held : entry)
| Over.

(** [resources]: every resource ever opened, and whether it is still open;
    [cancelled]: the generations whose building context was cancelled;
    [twice]: a resource was closed a second time. *)
Record system := MkSystem {
  sess : session;
  resources : gmap nat bool;
  cancelled : gset nat;
  twice : bool;
  threads : list thread;
  frames : list frame;
}.

(** Inside [writeMu]. *)
Definition writes (th : thread) : bool :=
  match th with Writing _ _ _ | Failing _ _ _ _ => true | _ => false end.

(** Closing a resource. *)
Definition closing (s : system) (r : nat) : system :=
  MkSystem (sess s) (<[r := false]> (resources s)) (cancelled s)
    (twice s || bool_decide (resources s !! r <> Some true)) (threads s) (frames s).

(** [stop]: cancel the building context, close the resource. *)
Definition stop (s : system) (held : entry) : system :=
  let s := MkSystem (sess s) (resources s) (if cancel held then {[gen held]} ∪ cancelled s else cancelled s)
             (twice s) (threads s) (frames s) in
  match resource held with None => s | Some r => closing s r end.

Definition become (s : system) (i : nat) (th : thread) : system :=
  MkSystem (sess s) (resources s) (cancelled s) (twice s) (<[i := th]> (threads s)) (frames s).

Definition spawn (s : system) (ths : list thread) : system :=
  MkSystem (sess s) (resources s) (cancelled s) (twice s) (threads s ++ ths) (frames s).

Definition with_sess (s : system) (x : session) : system :=
  MkSystem x (resources s) (cancelled s) (twice s) (threads s) (frames s).

Definition written (s : system) (f : frame) : system :=
  MkSystem (sess s) (resources s) (cancelled s) (twice s) (threads s) (frames s ++ [f]).

(** Who may open: a table's builder only after [holdCancel]; logs have none. *)
Definition about_to_open (which : feed) (subID : string) (g : nat) : thread :=
  match which with tables => Building which subID g | streams => Started which subID g end.

Definition stoppings (l : option entry) : list thread := map Stopping (option_list l).

Inductive step : system -> system -> Prop :=
| step_claim s which subID c x g previous :
    tryClaim (sess s) which subID c = (x, Some (g, previous)) ->
    step s (spawn (with_sess s x) (Started which subID g :: stoppings previous))
| step_drop s which subID x held :
    drop (sess s) which subID = (x, held) -> step s (spawn (with_sess s x) (stoppings held))
| step_drop_on s c x l :
    dropOn (sess s) c = (x, l) -> step s (spawn (with_sess s x) (map Stopping l))
| step_close_all s x l :
    closeAll (sess s) = (x, l) -> step s (spawn (with_sess s x) (map Stopping l))
| step_stop s i held :
    threads s !! i = Some (Stopping held) -> step s (become (stop s held) i Over)
| step_hold s i which subID g x :
    threads s !! i = Some (Started which subID g) -> holdCancel (sess s) which subID g = (x, true) ->
    step s (become (with_sess s x) i (Building which subID g))
| step_not_held s i which subID g x :
    threads s !! i = Some (Started which subID g) -> holdCancel (sess s) which subID g = (x, false) ->
    step s (become (with_sess s x) i Over)
| step_open s i which subID g r :
    threads s !! i = Some (about_to_open which subID g) -> resources s !! r = None ->
    step s (MkSystem (sess s) (<[r := true]> (resources s)) (cancelled s) (twice s)
              (<[i := Opened which subID g r]> (threads s)) (frames s))
| step_adopt s i which subID g r x :
    threads s !! i = Some (Opened which subID g r) -> adopt (sess s) which subID g r = (x, true) ->
    step s (become (with_sess s x) i (Relaying which subID g))
| step_not_adopted s i which subID g r x :
    threads s !! i = Some (Opened which subID g r) -> adopt (sess s) which subID g r = (x, false) ->
    step s (become (closing (with_sess s x) r) i Over)
| step_write s i which subID g :
    threads s !! i = Some (Relaying which subID g) -> (forall th, th ∈ threads s -> writes th = false) ->
    isCurrent (sess s) which subID g = true -> step s (become s i (Writing which subID g))
| step_stale s i which subID g :
    threads s !! i = Some (Relaying which subID g) -> (forall th, th ∈ threads s -> writes th = false) ->
    isCurrent (sess s) which subID g = false -> step s (become s i Over)
| step_written s i which subID g :
    threads s !! i = Some (Writing which subID g) ->
    step s (become (written s (MkFrame which subID g false)) i (Relaying which subID g))
| step_relayed s i which subID g :
    threads s !! i = Some (Relaying which subID g) -> step s (become s i Over)
| step_fail s i which subID g x held :
    (threads s !! i = Some (Started which subID g) \/ threads s !! i = Some (Building which subID g)) ->
    (forall th, th ∈ threads s -> writes th = false) ->
    forgetCurrent (sess s) which subID g = (x, Some held) ->
    step s (become (with_sess s x) i (Failing which subID g held))
| step_fail_stale s i which subID g x :
    (threads s !! i = Some (Started which subID g) \/ threads s !! i = Some (Building which subID g)) ->
    (forall th, th ∈ threads s -> writes th = false) ->
    forgetCurrent (sess s) which subID g = (x, None) -> step s (become (with_sess s x) i Over)
| step_failed s i which subID g held :
    threads s !! i = Some (Failing which subID g held) ->
    step s (become (written (stop s held) (MkFrame which subID g true)) i Over).

Definition begin : system := MkSystem (MkSession ∅ ∅ 0) ∅ ∅ false [] [].

(** ** What is owned *)

Definition entries (s : session) : list entry := (map_to_list (s_tables s)).*2 ++ (map_to_list (s_logs s)).*2.

(** The resource a thread owns, and the generation it works for. *)
Definition thread_owns (th : thread) : option nat :=
  match th with
  | Opened _ _ _ r => Some r
  | Failing _ _ _ held | Stopping held => resource held
  | _ => None
  end.

Definition works_for (th : thread) : option nat :=
  match th with
  | Started _ _ g | Building _ _ g | Opened _ _ g _ | Relaying _ _ g | Writing _ _ g | Failing _ _ g _ => Some g
  | Stopping _ | Over => None
  end.

(** Not yet adopted. *)
Definition offers (th : thread) : option (feed * string * nat) :=
  match th with
  | Started w id g | Building w id g | Opened w id g _ => Some (w, id, g)
  | _ => None
  end.

Definition owned (x : session) (l : list thread) : list nat := omap resource (entries x) ++ omap thread_owns l.

Lemma entries_of_with s w m w' :
  entriesOf (with_entries s w m) w' = if decide (w = w') then m else entriesOf s w'.
Proof. by destruct w, w'. Qed.

Lemma nextGen_with s w m : nextGen (with_entries s w m) = nextGen s.
Proof. by destruct w. Qed.

Lemma entry_values_insert (m : gmap string entry) k e :
  (map_to_list (<[k := e]> m)).*2 ≡ₚ e :: (map_to_list (delete k m)).*2.
Proof. rewrite <- insert_delete_eq, map_to_list_insert by apply lookup_delete_eq. done. Qed.

Lemma values_delete (m : gmap string entry) k e :
  m !! k = Some e -> (map_to_list m).*2 ≡ₚ e :: (map_to_list (delete k m)).*2.
Proof. intros H. rewrite <- (insert_id m k e) at 1 by done. apply entry_values_insert. Qed.

(** The entries but the one of a key. *)
Definition others (s : session) (w : feed) (id : string) : list entry :=
  entries (with_entries s w (delete id (entriesOf s w))).

Lemma entries_insert s w id e :
  entries (with_entries s w (<[id := e]> (entriesOf s w))) ≡ₚ e :: others s w id.
Proof.
  unfold entries, others. destruct w; cbn; rewrite entry_values_insert; cbn; [done |].
  by rewrite <- Permutation_middle.
Qed.

Lemma entries_delete s w id e : entriesOf s w !! id = Some e -> entries s ≡ₚ e :: others s w id.
Proof.
  unfold entries, others. destruct w; cbn; intros H; rewrite (values_delete _ _ _ H); cbn; [done |].
  by rewrite <- Permutation_middle.
Qed.

Lemma entries_absent s w id : entriesOf s w !! id = None -> entries s = others s w id.
Proof. unfold entries, others. destruct w; cbn; intros H; by rewrite delete_id. Qed.

Lemma entries_gen x g : entries (MkSession (s_tables x) (s_logs x) g) = entries x.
Proof. done. Qed.

Lemma entries_elem s e : e ∈ entries s <-> exists w id, entriesOf s w !! id = Some e.
Proof.
  unfold entries. rewrite elem_of_app, !list_elem_of_fmap. split.
  - intros [([id ?] & -> & H%elem_of_map_to_list) | ([id ?] & -> & H%elem_of_map_to_list)].
    + by exists tables, id.
    + by exists streams, id.
  - intros ([|] & id & H); cbn in H; [left | right]; exists (id, e); by rewrite elem_of_map_to_list.
Qed.

(** ** The invariants *)

Record own_inv (x : session) (res : gmap nat bool) (bad : bool) (l : list thread) : Prop := {
  o_nodup : NoDup (owned x l);
  o_open : forall r, r ∈ owned x l <-> res !! r = Some true;
  o_once : bad = false;
  o_unique : NoDup (omap works_for l);
  o_gens : forall g, g ∈ omap works_for l -> g <= nextGen x;
  o_entries : forall e, e ∈ entries x -> gen e <= nextGen x;
  o_fresh : forall th w id g e, th ∈ l -> offers th = Some (w, id, g) ->
    entriesOf x w !! id = Some e -> gen e = g -> resource e = None;
  o_room : (held_count x <= maxSubscriptions)%Z;
}.

(** What a thread may become without touching what is owned. *)
Definition milder (th th' : thread) : Prop :=
  thread_owns th' = thread_owns th /\ (works_for th' = works_for th \/ works_for th' = None) /\
  (offers th' = offers th \/ offers th' = None).

Lemma works_replace l i th th' :
  l !! i = Some th -> (works_for th' = works_for th \/ works_for th' = None) ->
  omap works_for (<[i := th']> l) ⊆+ omap works_for l.
Proof.
  intros Hi Hw. destruct (list_insert_perm l i th th' Hi) as (k & H1 & H2). rewrite H2, H1. cbn.
  destruct Hw as [-> | ->]; [done |]. destruct (works_for th); [by constructor | done].
Qed.

Lemma owns_replace l i th th' :
  l !! i = Some th -> exists k, omap thread_owns l ≡ₚ option_list (thread_owns th) ++ k /\
    omap thread_owns (<[i := th']> l) ≡ₚ option_list (thread_owns th') ++ k.
Proof.
  intros Hi. destruct (list_insert_perm l i th th' Hi) as (k & H1 & H2).
  exists (omap thread_owns k). rewrite H2, H1. cbn.
  by destruct (thread_owns th), (thread_owns th').
Qed.

(** Changes that keep what is owned: the session's entries lose or mark some,
    threads take them over or move on. *)
Lemma own_keep x x' res bad l l' :
  own_inv x res bad l -> owned x' l' ≡ₚ owned x l ->
  omap works_for l' ⊆+ omap works_for l -> nextGen x' = nextGen x ->
  (forall w id e, entriesOf x' w !! id = Some e ->
     exists e0, entriesOf x w !! id = Some e0 /\ gen e = gen e0 /\ resource e = resource e0) ->
  (forall th, th ∈ l' -> offers th = None \/ exists th0, th0 ∈ l /\ offers th = offers th0) ->
  (held_count x' <= held_count x)%Z -> own_inv x' res bad l'.
Proof.
  intros [H1 H2 H3 H4 H5 H6 H7 H8] Hp Hw Hn He Ho Hc. split; [by rewrite Hp | | done | | | | | lia].
  - intros r. rewrite Hp. apply H2.
  - by eapply NoDup_sub.
  - intros g Hg. rewrite Hn. apply H5. by eapply elem_of_submseteq.
  - intros e (w & id & Hl)%entries_elem. destruct (He _ _ _ Hl) as (e0 & Hl0 & -> & _). rewrite Hn.
    apply H6, entries_elem. by exists w, id.
  - intros th w id g e Hth Hof Hl Hg. destruct (He _ _ _ Hl) as (e0 & Hl0 & Hge & ->).
    destruct (Ho _ Hth) as [Ho' | (th0 & Hth0 & Heq)]; [congruence |].
    apply (H7 th0 w id g); congruence.
Qed.

Lemma own_move x res bad l i th th' :
  own_inv x res bad l -> l !! i = Some th -> milder th th' -> own_inv x res bad (<[i := th']> l).
Proof.
  intros H Hi (Hr & Hw & Ho). eapply own_keep; [done | | by eapply works_replace | done | eauto | | done].
  - unfold owned. destruct (owns_replace l i th th' Hi) as (k & H1 & H2). rewrite H2, H1. by rewrite Hr.
  - intros t [-> | Ht]%elem_of_insert_inv; [| by right; exists t].
    destruct Ho as [-> | ->]; [right | by left]. exists th. split; [by eapply list_elem_of_lookup_2 | done].
Qed.

(** Marking an entry, as [holdCancel] does. *)
Lemma own_mark x res bad l w id e e' :
  own_inv x res bad l -> entriesOf x w !! id = Some e -> gen e' = gen e -> resource e' = resource e ->
  own_inv (with_entries x w (<[id := e']> (entriesOf x w))) res bad l.
Proof.
  intros H He Hg Hr. eapply own_keep; [done | | done | apply nextGen_with | | | ].
  - unfold owned. rewrite entries_insert, (entries_delete x w id e He). cbn. by rewrite Hr.
  - intros w' id' e0. rewrite entries_of_with. case_decide as Ew; [subst | by eauto].
    intros [[<- <-] | [? ?]]%lookup_insert_Some; [exists e | exists e0]; done.
  - intros th Hth. right. by exists th.
  - unfold held_count. destruct w; cbn in *; rewrite map_size_insert_Some by eauto; lia.
Qed.

(** A resource is closed by the thread that owns it. *)
Lemma own_close x res bad l l' r :
  own_inv x res bad l -> res !! r = Some true -> owned x l ≡ₚ r :: owned x l' ->
  omap works_for l' ⊆+ omap works_for l ->
  (forall th, th ∈ l' -> offers th = None \/ exists th0, th0 ∈ l /\ offers th = offers th0) ->
  own_inv x (<[r := false]> res) (bad || bool_decide (res !! r <> Some true)) l'.
Proof.
  intros [H1 H2 H3 H4 H5 H6 H7 H8] Hr Hp Hw Ho.
  rewrite Hp in H1. apply list.NoDup_cons in H1 as [Hnr H1]. split; try done.
  - intros r'. destruct (decide (r = r')) as [-> | Hne].
    + rewrite lookup_insert_eq. by split.
    + rewrite lookup_insert_ne, <- H2, Hp by done. rewrite elem_of_cons.
      split; [by right | intros [? | ?]; [by subst | done]].
  - rewrite Hr, bool_decide_false by (intros Hn; by apply Hn). by rewrite H3.
  - by eapply NoDup_sub.
  - intros g Hg. apply H5. by eapply elem_of_submseteq.
  - intros th w id g e Hth Hof Hl Hg.
    destruct (Ho _ Hth) as [? | (th0 & Hth0 & Heq)]; [congruence |]. apply (H7 th0 w id g); congruence.
Qed.

(** The thread that owns an open resource lets it go, closing it. *)
Lemma own_closed x res bad l i th th' r :
  own_inv x res bad l -> l !! i = Some th -> thread_owns th = Some r -> thread_owns th' = None ->
  works_for th' = None -> offers th' = None ->
  own_inv x (<[r := false]> res) (bad || bool_decide (res !! r <> Some true)) (<[i := th']> l).
Proof.
  intros H Hi Hr Hr' Hw Ho. destruct (owns_replace l i th th' Hi) as (k & H1 & H2).
  assert (Hp : owned x l ≡ₚ r :: owned x (<[i := th']> l)).
  { unfold owned. rewrite H2, H1, Hr, Hr'. cbn. by rewrite <- Permutation_middle. }
  eapply own_close; [done | | done | | ].
  - apply (o_open _ _ _ _ H). rewrite Hp. by left.
  - eapply works_replace; [done | by right].
  - intros t [-> | Ht]%elem_of_insert_inv; [by left | by right; exists t].
Qed.

Lemma own_open x res bad l i th th' r :
  own_inv x res bad l -> l !! i = Some th -> res !! r = None ->
  thread_owns th = None -> thread_owns th' = Some r -> works_for th' = works_for th -> offers th' = offers th ->
  own_inv x (<[r := true]> res) bad (<[i := th']> l).
Proof.
  intros [H1 H2 H3 H4 H5 H6 H7 H8] Hi Hr Ht Ht' Hw Ho.
  destruct (owns_replace l i th th' Hi) as (k & E1 & E2).
  assert (Hp : owned x (<[i := th']> l) ≡ₚ r :: owned x l).
  { unfold owned. rewrite E2, E1, Ht, Ht'. cbn. by rewrite <- Permutation_middle. }
  assert (Hsub : omap works_for (<[i := th']> l) ⊆+ omap works_for l) by (eapply works_replace; [done | by left]).
  split; try done.
  - rewrite Hp. apply list.NoDup_cons. split; [rewrite H2; congruence | done].
  - intros r'. rewrite Hp, elem_of_cons, H2. destruct (decide (r = r')) as [-> | Hne].
    + rewrite lookup_insert_eq. split; [done | by left].
    + rewrite lookup_insert_ne by done. split; [intros [? | ?]; [by subst | done] | by right].
  - by eapply NoDup_sub.
  - intros g Hg. apply H5. by eapply elem_of_submseteq.
  - intros t w id g e [-> | Hin]%elem_of_insert_inv Hof Hl Hg; [| by apply (H7 t w id g)].
    apply (H7 th w id g); [by eapply list_elem_of_lookup_2 | congruence | done | done].
Qed.

Lemma unique_worker l i j a b g :
  NoDup (omap works_for l) -> l !! i = Some a -> l !! j = Some b ->
  works_for a = Some g -> works_for b = Some g -> i = j.
Proof.
  revert i j. induction l as [| x l IH]; intros i j Hn Hi Hj Ha Hb; [done |].
  assert (Hin : forall k y, l !! k = Some y -> works_for y = Some g -> g ∈ omap works_for l).
  { intros k y Hk Hy. apply list_elem_of_omap. exists y. split; [by eapply list_elem_of_lookup_2 | done]. }
  destruct i as [| i], j as [| j]; cbn in *; [done | | |].
  - simplify_eq. rewrite Ha in Hn. apply list.NoDup_cons in Hn as [Hn _]. by destruct Hn; eapply Hin.
  - simplify_eq. rewrite Hb in Hn. apply list.NoDup_cons in Hn as [Hn _]. by destruct Hn; eapply Hin.
  - f_equal. apply IH; try done. destruct (works_for x); [by apply list.NoDup_cons in Hn as [_ ?] | done].
Qed.

Lemma offers_work th w id g : offers th = Some (w, id, g) -> works_for th = Some g.
Proof. by destruct th; cbn; intros [= <- <- <-]. Qed.

Lemma own_adopt x res bad l i w id g r e :
  own_inv x res bad l -> l !! i = Some (Opened w id g r) -> entriesOf x w !! id = Some e -> gen e = g ->
  own_inv (with_entries x w (<[id := MkEntry (Some r) (gen e) (cluster e) (cancel e)]> (entriesOf x w)))
    res bad (<[i := Relaying w id g]> l).
Proof.
  intros [H1 H2 H3 H4 H5 H6 H7 H8] Hi He Hg. pose proof (list_elem_of_lookup_2 _ _ _ Hi) as Hin.
  pose proof (H7 _ w id g e Hin eq_refl He Hg) as Hnone. set (e' := MkEntry (Some r) _ _ _).
  assert (Hsub : omap works_for (<[i := Relaying w id g]> l) ⊆+ omap works_for l)
    by (eapply works_replace; [done | by left]).
  assert (Hp : owned (with_entries x w (<[id := e']> (entriesOf x w))) (<[i := Relaying w id g]> l) ≡ₚ owned x l).
  { unfold owned. destruct (owns_replace l i _ (Relaying w id g) Hi) as (k & E1 & E2).
    rewrite E2, E1, entries_insert, (entries_delete x w id e He). cbn. rewrite Hnone. cbn.
    by rewrite <- Permutation_middle. }
  split; [by rewrite Hp | intros r'; by rewrite Hp | done | by eapply NoDup_sub | | | |].
  - intros g' Hg'. rewrite nextGen_with. apply H5. by eapply elem_of_submseteq.
  - intros e0. rewrite entries_insert, nextGen_with, elem_of_cons. intros [-> | H0].
    + apply (H6 e). apply entries_elem. eauto.
    + apply H6. rewrite (entries_delete x w id e He). by right.
  - intros th w' id' g' e0 Hth Hof Hl Hg'. rewrite entries_of_with in Hl.
    apply list_elem_of_lookup in Hth as [j Hj]. destruct (decide (i = j)) as [-> | Hne].
    { rewrite list_lookup_insert_eq in Hj by (by eapply lookup_lt_Some). by simplify_eq. }
    rewrite list_lookup_insert_ne in Hj by done. pose proof (list_elem_of_lookup_2 _ _ _ Hj) as Hth.
    case_decide as Ew; [subst | by eapply H7].
    apply lookup_insert_Some in Hl as [[<- <-] | [_ Hl]]; [| by eapply H7].
    destruct Hne. cbn in Hof. eapply (unique_worker l); [exact H4 | exact Hi | exact Hj | done |].
    by eapply offers_work.
  - unfold held_count in *. destruct w; cbn in *; rewrite map_size_insert_Some by eauto; lia.
Qed.

(** Entries taken out of the session are handed to stoppers. *)
Lemma own_take x x' res bad l gone :
  own_inv x res bad l -> entries x ≡ₚ gone ++ entries x' -> nextGen x' = nextGen x ->
  (forall w id e, entriesOf x' w !! id = Some e -> entriesOf x w !! id = Some e) ->
  (held_count x' <= held_count x)%Z -> own_inv x' res bad (l ++ map Stopping gone).
Proof.
  intros H Hp Hn He Hc.
  assert (Hw : omap works_for (map Stopping gone) = []) by (clear; by induction gone).
  assert (Ho : omap thread_owns (map Stopping gone) = omap resource gone).
  { clear. induction gone as [| e gone IH]; [done |]. cbn. by rewrite IH. }
  eapply own_keep; [done | | | done | | | done].
  - unfold owned. rewrite Hp, !omap_app, Ho. solve_Permutation.
  - by rewrite omap_app, Hw, app_nil_r.
  - intros w id e Hl. exists e. split; [by apply He | done].
  - intros th [Hth | Hth]%elem_of_app; [right; by exists th | left].
    apply list_elem_of_fmap in Hth as (e & -> & _). done.
Qed.

Lemma held_count_insert x w id e :
  held_count (with_entries x w (<[id := e]> (entriesOf x w))) =
  (held_count x + if bool_decide (entriesOf x w !! id = None) then 1 else 0)%Z.
Proof.
  unfold held_count. destruct w; cbn; rewrite map_size_insert; destruct (_ !! id); cbn;
    rewrite ?bool_decide_true, ?bool_decide_false by done; lia.
Qed.

Lemma held_count_delete x w id :
  (held_count (with_entries x w (delete id (entriesOf x w))) <= held_count x)%Z.
Proof. unfold held_count. destruct w; cbn; rewrite map_size_delete; destruct (_ !! id); cbn; lia. Qed.

Lemma own_claim x res bad l w id c x' g previous :
  own_inv x res bad l -> tryClaim x w id c = (x', Some (g, previous)) ->
  own_inv x' res bad (l ++ Started w id g :: stoppings previous).
Proof.
  intros [H1 H2 H3 H4 H5 H6 H7 H8] Hc. unfold tryClaim in Hc. destruct (_ && _) eqn:Hroom; [done |].
  injection Hc as <- <- <-. set (g := S (nextGen x)). set (e := MkEntry None g c false).
  set (x0 := MkSession (s_tables x) (s_logs x) g). set (prev := entriesOf x w !! id).
  replace (entriesOf x w) with (entriesOf x0 w) by (by destruct w).
  assert (Hw : omap works_for (stoppings prev) = []) by (by destruct prev).
  assert (Hout : entries x ≡ₚ option_list prev ++ others x w id).
  { unfold prev. destruct (entriesOf x w !! id) as [e0 |] eqn:E; cbn.
    - by apply entries_delete.
    - by rewrite (entries_absent x w id E). }
  assert (Hothers : others x0 w id = others x w id) by (by destruct w).
  assert (Hp : owned (with_entries x0 w (<[id := e]> (entriesOf x0 w))) (l ++ Started w id g :: stoppings prev)
               ≡ₚ owned x l).
  { unfold owned. rewrite entries_insert, Hothers, Hout, !omap_app. cbn. destruct prev; cbn; [| by rewrite app_nil_r].
    destruct (resource _); cbn; [solve_Permutation | by rewrite app_nil_r]. }
  assert (Hworks : omap works_for (l ++ Started w id g :: stoppings prev) = omap works_for l ++ [g]).
  { rewrite omap_app. cbn. by rewrite Hw. }
  assert (Hfresh : g ∉ omap works_for l) by (intros Hg%H5; unfold g in Hg; lia).
  split; [by rewrite Hp | intros r; by rewrite Hp | done | | | | |].
  - rewrite Hworks. apply list.NoDup_app. split; [done |]. split; [| by apply NoDup_singleton].
    intros g' Hg' ->%list_elem_of_singleton. done.
  - intros g'. rewrite Hworks, nextGen_with. intros [Hg' | ->%list_elem_of_singleton]%elem_of_app;
      [apply H5 in Hg' |]; cbn; unfold g; lia.
  - intros e0. rewrite entries_insert, nextGen_with, Hothers, elem_of_cons. intros [-> | H0]; [cbn; lia |].
    assert (gen e0 <= nextGen x) by (apply H6; rewrite Hout; apply elem_of_app; by right). cbn. unfold g. lia.
  - intros th w' id' g' e0 Hth Hof Hl Hg'. rewrite entries_of_with in Hl.
    assert (Hl' : e0 = e \/ entriesOf x w' !! id' = Some e0).
    { case_decide as Ew; [subst w' | right; by destruct w']. apply lookup_insert_Some in Hl as [[_ <-] | [_ Hl]];
        [by left | right; by destruct w]. }
    destruct Hl' as [-> | Hl']; [done |].
    apply elem_of_app in Hth as [Hth | Hth]; [by eapply H7 |]. apply elem_of_cons in Hth as [-> | Hth].
    + cbn in Hof. injection Hof as <- <- <-. assert (gen e0 <= nextGen x) by (apply H6, entries_elem; eauto).
      unfold g in Hg'. lia.
    + destruct prev; cbn in Hth; [apply list_elem_of_singleton in Hth as -> | by apply elem_of_nil in Hth]. done.
  - rewrite held_count_insert. change (held_count x0) with (held_count x).
    replace (entriesOf x0 w) with (entriesOf x w) by (by destruct w). fold prev.
    unfold prev. destruct (bool_decide _); [| lia]. rewrite andb_true_l in Hroom. apply Z.leb_gt in Hroom. lia.
Qed.

(** [failAndForget] takes over the entry of its own generation. *)
Lemma own_forget x res bad l i th w id g e :
  own_inv x res bad l -> l !! i = Some th -> thread_owns th = None -> works_for th = Some g ->
  entriesOf x w !! id = Some e ->
  own_inv (with_entries x w (delete id (entriesOf x w))) res bad (<[i := Failing w id g e]> l).
Proof.
  intros H Hi Ht Hw He. eapply own_keep; [done | | | apply nextGen_with | | | apply held_count_delete].
  - unfold owned. destruct (owns_replace l i th (Failing w id g e) Hi) as (k & E1 & E2).
    rewrite E2, E1, (entries_delete x w id e He), Ht. cbn. fold (others x w id).
    destruct (resource e); cbn; [| done]. by rewrite <- Permutation_middle.
  - eapply works_replace; [done | by left].
  - intros w' id' e0. rewrite entries_of_with. case_decide as Ew; [subst | by eauto].
    intros [_ Hl]%lookup_delete_Some. eauto.
  - intros t [-> | Hin]%elem_of_insert_inv; [by left | right; by exists t].
Qed.

(** ** The order of the frames *)

(** Every frame of a subscription comes before generation [g] is over. *)
Definition after_all (fr : list frame) (w : feed) (id : string) (g : nat) : Prop :=
  forall f, f ∈ fr -> f_feed f = w -> f_sub f = id -> f_gen f < g \/ (f_gen f = g /\ final f = false).

(** Frames of one subscription go by generation, and none follows its error. *)
Definition ordered (fr : list frame) : Prop :=
  forall i j f f', fr !! i = Some f -> fr !! j = Some f' -> i < j ->
    f_feed f = f_feed f' -> f_sub f = f_sub f' ->
    f_gen f < f_gen f' \/ (f_gen f = f_gen f' /\ final f = false).

Lemma ordered_snoc fr f :
  ordered fr -> after_all fr (f_feed f) (f_sub f) (f_gen f) -> ordered (fr ++ [f]).
Proof.
  intros Ho Ha i j a b Hi Hj Hlt Hf Hs. apply lookup_app_Some in Hj as [Hj | [Hlen Hj]].
  - rewrite lookup_app_l in Hi by (apply lookup_lt_Some in Hj; lia). by eapply Ho.
  - apply list_lookup_singleton_Some in Hj as [Hj <-].
    apply lookup_app_Some in Hi as [Hi | [Hlen' Hi]]; [apply Ha; [by eapply list_elem_of_lookup_2 | done | done] |].
    apply list_lookup_singleton_Some in Hi as [Hi <-]. lia.
Qed.

Lemma after_snoc fr f w id g :
  after_all fr w id g ->
  (f_feed f = w -> f_sub f = id -> f_gen f < g \/ (f_gen f = g /\ final f = false)) ->
  after_all (fr ++ [f]) w id g.
Proof. intros H Hf f' [Hin | ->%list_elem_of_singleton]%elem_of_app; [by apply H | done]. Qed.

(** The subscription and generation a thread inside [writeMu] will write for. *)
Definition about (th : thread) : option (feed * string * nat * bool) :=
  match th with
  | Writing w id g => Some (w, id, g, false)
  | Failing w id g _ => Some (w, id, g, true)
  | _ => None
  end.

Lemma about_writes th : writes th = false <-> about th = None.
Proof. by destruct th. Qed.

Record write_inv (x : session) (l : list thread) (fr : list frame) : Prop := {
  w_one : (counted writes l <= 1)%Z;
  w_gens : forall f, f ∈ fr -> f_gen f <= nextGen x;
  w_order : ordered fr;
  w_current : forall w id e, entriesOf x w !! id = Some e -> after_all fr w id (gen e);
  w_writer : forall th w id g b, th ∈ l -> about th = Some (w, id, g, b) -> after_all fr w id g;
  w_behind : forall th w id g b e, th ∈ l -> about th = Some (w, id, g, b) ->
    entriesOf x w !! id = Some e -> g < gen e \/ (g = gen e /\ b = false);
}.

(** No entry appears or changes its generation. *)
Definition shrinks (x x' : session) : Prop :=
  nextGen x' = nextGen x /\
  forall w id e, entriesOf x' w !! id = Some e -> exists e0, entriesOf x w !! id = Some e0 /\ gen e0 = gen e.

Lemma shrinks_refl x : shrinks x x.
Proof. split; [done | eauto]. Qed.

Lemma shrinks_mark x w id e e' :
  entriesOf x w !! id = Some e -> gen e' = gen e -> shrinks x (with_entries x w (<[id := e']> (entriesOf x w))).
Proof.
  intros He Hg. split; [apply nextGen_with |]. intros w' id' e0. rewrite entries_of_with.
  case_decide; [subst | by eauto]. intros [[<- <-] | [_ Hl]]%lookup_insert_Some; eauto.
Qed.

Lemma shrinks_delete x w id : shrinks x (with_entries x w (delete id (entriesOf x w))).
Proof.
  split; [apply nextGen_with |]. intros w' id' e0. rewrite entries_of_with.
  case_decide; [subst | by eauto]. intros [_ Hl]%lookup_delete_Some. eauto.
Qed.

Lemma write_keep x x' l l' fr :
  write_inv x l fr -> shrinks x x' -> (counted writes l' <= 1)%Z ->
  (forall th, th ∈ l' -> about th = None \/ exists th0, th0 ∈ l /\ about th0 = about th) ->
  write_inv x' l' fr.
Proof.
  intros [H1 H2 H3 H4 H5 H6] [Hn Hs] Hc Ho. split; [done | by rewrite Hn | done | | |].
  - intros w id e He. destruct (Hs _ _ _ He) as (e0 & He0 & <-). by eapply H4.
  - intros th w id g b Hth Ha. destruct (Ho _ Hth) as [? | (th0 & Hth0 & Heq)]; [congruence |].
    apply (H5 th0 w id g b); congruence.
  - intros th w id g b e Hth Ha He. destruct (Hs _ _ _ He) as (e0 & He0 & <-).
    destruct (Ho _ Hth) as [? | (th0 & Hth0 & Heq)]; [congruence |]. apply (H6 th0 w id g b); congruence.
Qed.

(** A thread moves on without entering [writeMu]. *)
Lemma write_move x x' l i th th' fr :
  write_inv x l fr -> shrinks x x' -> l !! i = Some th -> about th' = None ->
  write_inv x' (<[i := th']> l) fr.
Proof.
  intros H Hs Hi Ha. eapply write_keep; [done | done | |].
  - rewrite (counted_insert _ _ _ _ _ Hi). pose proof (w_one _ _ _ H).
    apply about_writes in Ha. unfold one. rewrite Ha. destruct (writes th); lia.
  - intros t [-> | Hin]%elem_of_insert_inv; [by left | right; by exists t].
Qed.

Lemma write_more x x' l fr ths :
  write_inv x l fr -> shrinks x x' -> Forall (fun th => about th = None) ths -> write_inv x' (l ++ ths) fr.
Proof.
  intros H Hs Hf. eapply write_keep; [done | done | |].
  - rewrite counted_app, (counted_none writes ths); [pose proof (w_one _ _ _ H); lia |].
    eapply List.Forall_impl; [| exact Hf]. intros t. by rewrite about_writes.
  - intros t [Hin | Hin]%elem_of_app; [right; by exists t | left]. rewrite list.Forall_forall in Hf. by apply Hf.
Qed.

(** A thread enters [writeMu], free until then, for the current generation. *)
Lemma write_enter x x' l i th th' fr w id g b e :
  write_inv x l fr -> shrinks x x' -> l !! i = Some th -> (forall t, t ∈ l -> writes t = false) ->
  about th' = Some (w, id, g, b) -> entriesOf x w !! id = Some e -> gen e = g ->
  (b = true -> entriesOf x' w !! id = None) ->
  write_inv x' (<[i := th']> l) fr.
Proof.
  intros [H1 H2 H3 H4 H5 H6] [Hn Hs] Hi Hno Ha He Hg Hb.
  assert (Hz : counted writes l = 0%Z) by (apply counted_none, list.Forall_forall; auto).
  assert (Hwas : forall t, t ∈ l -> about t = None) by (intros t Ht; by apply about_writes, Hno).
  split; [| by rewrite Hn | done | | |].
  - rewrite (counted_insert _ _ _ _ _ Hi), Hz. unfold one. by destruct (writes th), (writes th').
  - intros w' id' e' He'. destruct (Hs _ _ _ He') as (e0 & He0 & <-). by eapply H4.
  - intros t w' id' g' b' [-> | Ht]%elem_of_insert_inv Ha'; [| by rewrite (Hwas _ Ht) in Ha'].
    rewrite Ha in Ha'. injection Ha' as <- <- <- <-. subst g. by eapply H4.
  - intros t w' id' g' b' e' [-> | Ht]%elem_of_insert_inv Ha' He'; [| by rewrite (Hwas _ Ht) in Ha'].
    rewrite Ha in Ha'. injection Ha' as <- <- <- <-. destruct (Hs _ _ _ He') as (e0 & He0 & Hg0).
    destruct b; [by rewrite Hb in He' |]. right. split; [congruence | done].
Qed.

(** A frame is written and [writeMu] left. *)
Lemma write_written x l i th th' fr w id g b :
  write_inv x l fr -> (forall th g, th ∈ l -> works_for th = Some g -> g <= nextGen x) ->
  l !! i = Some th -> about th = Some (w, id, g, b) -> about th' = None ->
  write_inv x (<[i := th']> l) (fr ++ [MkFrame w id g b]).
Proof.
  intros [H1 H2 H3 H4 H5 H6] Hgen Hi Ha Ha'. pose proof (list_elem_of_lookup_2 _ _ _ Hi) as Hin.
  assert (Hw : writes th = true) by (by destruct th).
  assert (Hz : counted writes (<[i := th']> l) = 0%Z).
  { rewrite (counted_insert _ _ _ _ _ Hi), Hw. apply about_writes in Ha'. rewrite Ha'. cbn.
    pose proof (counted_pos writes l i th Hi Hw). lia. }
  assert (Hno : forall t, t ∈ <[i := th']> l -> about t = None).
  { intros t [j Hj]%list_elem_of_lookup_1. apply about_writes. by eapply counted_zero. }
  split; [lia | | | | |].
  - intros f [Hf | ->%list_elem_of_singleton]%elem_of_app; [by apply H2 |]. cbn.
    apply (Hgen th); [done |]. by destruct th; cbn in *; simplify_eq.
  - apply ordered_snoc; [done |]. cbn. by eapply H5.
  - intros w' id' e He. apply after_snoc; [by eapply H4 |]. cbn. intros <- <-.
    by eapply (H6 th w id g b).
  - intros t w' id' g' b' Ht Hab. by rewrite (Hno _ Ht) in Hab.
  - intros t w' id' g' b' e Ht Hab. by rewrite (Hno _ Ht) in Hab.
Qed.

Lemma write_claim x l fr w id c x' g previous :
  write_inv x l fr -> (forall th g, th ∈ l -> works_for th = Some g -> g <= nextGen x) ->
  tryClaim x w id c = (x', Some (g, previous)) -> write_inv x' (l ++ Started w id g :: stoppings previous) fr.
Proof.
  intros H Hgen Hc. unfold tryClaim in Hc. destruct (_ && _); [done |]. injection Hc as <- <- <-.
  apply (write_keep (with_entries (MkSession (s_tables x) (s_logs x) (S (nextGen x))) w
    (<[id := MkEntry None (S (nextGen x)) c false]> (entriesOf x w))) _ l).
  - destruct H as [H1 H2 H3 H4 H5 H6]. split; [done | | done | | done |].
    + intros f Hf. rewrite nextGen_with. cbn. specialize (H2 _ Hf). lia.
    + intros w' id' e He f Hf Hff Hfs. rewrite entries_of_with in He. case_decide as Ew; [subst w' |].
      * apply lookup_insert_Some in He as [[<- <-] | [_ He]]; [left; specialize (H2 _ Hf); cbn; lia |].
        by eapply (H4 _ _ _ He).
      * eapply (H4 w' id' e); [by destruct w, w' | done..].
    + intros th w' id' g' b e Hth Ha He. rewrite entries_of_with in He.
      assert (Hg' : g' <= nextGen x) by (apply (Hgen th); [done | by destruct th; cbn in *; simplify_eq]).
      case_decide as Ew; [subst w' |].
      * apply lookup_insert_Some in He as [[<- <-] | [_ He]]; [left; cbn; lia | by eapply H6].
      * eapply H6; [exact Hth | exact Ha | by destruct w, w'].
  - apply shrinks_refl.
  - rewrite counted_app, (counted_none writes (_ :: _)); [pose proof (w_one _ _ _ H); lia |].
    by destruct (_ !! id); repeat constructor.
  - intros th [Hth | Hth]%elem_of_app; [right; by exists th | left].
    apply elem_of_cons in Hth as [-> | Hth]; [done |].
    destruct (_ !! id); cbn in Hth; [apply list_elem_of_singleton in Hth as -> | by apply elem_of_nil in Hth]. done.
Qed.

(** ** Cancelled builders *)

(** A building context is reachable: through its entry, or it is cancelled, or
    about to be. *)
Definition cancel_inv (x : session) (canc : gset nat) (l : list thread) : Prop :=
  forall w id g, Building w id g ∈ l ->
    (exists e, entriesOf x w !! id = Some e /\ gen e = g /\ cancel e = true) \/
    g ∈ canc \/ exists held, Stopping held ∈ l /\ gen held = g /\ cancel held = true.

(** Every entry is kept, marked at most, or handed to a stopper. *)
Lemma cancel_keep x x' canc canc' l l' :
  cancel_inv x canc l -> canc ⊆ canc' ->
  (forall w id g, Building w id g ∈ l' -> Building w id g ∈ l) ->
  (forall w id e, entriesOf x w !! id = Some e -> cancel e = true -> Building w id (gen e) ∈ l' ->
     (exists e', entriesOf x' w !! id = Some e' /\ gen e' = gen e /\ cancel e' = true) \/ Stopping e ∈ l') ->
  (forall held, Stopping held ∈ l -> cancel held = true -> Stopping held ∈ l' \/ gen held ∈ canc') ->
  cancel_inv x' canc' l'.
Proof.
  intros H Hc Hb He Hs w id g Hg. destruct (H w id g (Hb _ _ _ Hg)) as [(e & Hl & <- & Hce) | [Hin | (held & Hh & <- & Hch)]].
  - destruct (He w id e Hl Hce Hg) as [Hl' | Hst]; [by left | right; right]. by exists e.
  - right. left. by apply Hc.
  - right. destruct (Hs _ Hh Hch) as [? | ?]; [right; by exists held | by left].
Qed.

(** ** Every step *)

Record inv (s : system) : Prop := {
  i_own : own_inv (sess s) (resources s) (twice s) (threads s);
  i_write : write_inv (sess s) (threads s) (frames s);
  i_cancel : cancel_inv (sess s) (cancelled s) (threads s);
}.

Lemma works_bound s th g : inv s -> th ∈ threads s -> works_for th = Some g -> g <= nextGen (sess s).
Proof. intros H Hth Hg. apply (o_gens _ _ _ _ (i_own _ H)). apply list_elem_of_omap. by exists th. Qed.

(** Entries of another key are not touched. *)
Lemma lookup_marked x w id e w' id' e0 :
  entriesOf x w' !! id' = Some e0 -> (w, id) <> (w', id') ->
  entriesOf (with_entries x w (<[id := e]> (entriesOf x w))) w' !! id' = Some e0.
Proof.
  intros Hl Hne. rewrite entries_of_with. case_decide; [subst | done].
  rewrite lookup_insert_ne; [done | congruence].
Qed.

Lemma lookup_dropped x w id w' id' e0 :
  entriesOf x w' !! id' = Some e0 -> (w, id) <> (w', id') ->
  entriesOf (with_entries x w (delete id (entriesOf x w))) w' !! id' = Some e0.
Proof.
  intros Hl Hne. rewrite entries_of_with. case_decide; [subst | done].
  rewrite lookup_delete_ne; [done | congruence].
Qed.

(** A thread that is neither building nor stopping moves on. *)
Lemma cancel_move x canc l i th th' :
  cancel_inv x canc l -> l !! i = Some th -> (forall held, th <> Stopping held) ->
  (forall w id g, th' <> Building w id g) -> cancel_inv x canc (<[i := th']> l).
Proof.
  intros H Hi Hs Hb. eapply cancel_keep; [exact H | done | | |].
  - intros w id g [E | Hin]%elem_of_insert_inv; [by destruct (Hb w id g) | done].
  - intros w id e He Hc _. left. by exists e.
  - intros held Hh _. left. eapply elem_of_insert_keep; [exact Hi | done | by intros <-; destruct (Hs held)].
Qed.

Lemma cancel_more x x' canc l ths :
  cancel_inv x canc l -> (forall w id g, Building w id g ∉ ths) ->
  (forall w id e, entriesOf x w !! id = Some e ->
     entriesOf x' w !! id = Some e \/ Stopping e ∈ ths) -> cancel_inv x' canc (l ++ ths).
Proof.
  intros H Hb He. eapply cancel_keep; [exact H | done | | |].
  - intros w id g [Hin | Hin]%elem_of_app; [done | by destruct (Hb w id g)].
  - intros w id e Hl Hc _. destruct (He _ _ _ Hl) as [Hl' | Hst]; [left; by exists e | right].
    apply elem_of_app. by right.
  - intros held Hh _. left. apply elem_of_app. by left.
Qed.

Lemma cancel_mark x canc l w id e e' :
  cancel_inv x canc l -> entriesOf x w !! id = Some e -> gen e' = gen e ->
  (cancel e = true -> cancel e' = true) ->
  cancel_inv (with_entries x w (<[id := e']> (entriesOf x w))) canc l.
Proof.
  intros H Hl Hg Hc. eapply cancel_keep; [exact H | done | done | | by left].
  intros w' id' e0 Hl0 Hc0 _. left. destruct (decide ((w, id) = (w', id'))) as [E | Hne].
  - injection E as <- <-. simplify_eq. exists e'. rewrite entries_of_with, decide_True, lookup_insert_eq by done.
    auto.
  - exists e0. by rewrite (lookup_marked x w id e' w' id' e0).
Qed.

Lemma stoppings_no_builder l w id g : Building w id g ∉ map Stopping l.
Proof. intros (e & E & _)%list_elem_of_fmap. done. Qed.

Lemma stopping_elem e l : e ∈ l -> Stopping e ∈ map Stopping l.
Proof. intros H. apply list_elem_of_fmap. by exists e. Qed.

Lemma stoppings_quiet l : Forall (fun th => about th = None) (map Stopping l).
Proof. apply list.Forall_forall. by intros th (e & -> & _)%list_elem_of_fmap. Qed.

(** Entries leave the session for stoppers. *)
Lemma inv_take s x' gone :
  inv s -> entries (sess s) ≡ₚ gone ++ entries x' -> shrinks (sess s) x' ->
  (forall w id e, entriesOf x' w !! id = Some e -> entriesOf (sess s) w !! id = Some e) ->
  (forall w id e, entriesOf (sess s) w !! id = Some e -> entriesOf x' w !! id = Some e \/ e ∈ gone) ->
  (held_count x' <= held_count (sess s))%Z -> inv (spawn (with_sess s x') (map Stopping gone)).
Proof.
  intros [H1 H2 H3] Hp Hs He Hg Hc. split; cbn.
  - eapply own_take; [exact H1 | done | apply Hs | done | done].
  - eapply write_more; [exact H2 | done | apply stoppings_quiet].
  - eapply cancel_more; [exact H3 | apply stoppings_no_builder |]. intros w id e Hl.
    destruct (Hg _ _ _ Hl) as [? | ?]; [by left | right; by apply stopping_elem].
Qed.

Lemma filter_values (P : string * entry -> Prop) `{!forall p, Decision (P p)} (m : gmap string entry) :
  (map_to_list m).*2 ≡ₚ (map_to_list (filter P m)).*2 ++ (map_to_list (filter (fun p => ~ P p) m)).*2.
Proof.
  rewrite <- fmap_app. f_equiv. apply NoDup_Permutation; [apply NoDup_map_to_list | |].
  - apply list.NoDup_app. split; [apply NoDup_map_to_list |]. split; [| apply NoDup_map_to_list].
    intros [k e] H1%elem_of_map_to_list H2%elem_of_map_to_list.
    apply map_lookup_filter_Some in H1 as [_ H1]. by apply map_lookup_filter_Some in H2 as [_ H2].
  - intros [k e]. rewrite elem_of_app, !elem_of_map_to_list, !map_lookup_filter_Some.
    destruct (decide (P (k, e))); tauto.
Qed.

Lemma take_on s c :
  inv s -> inv (spawn (with_sess s (dropOn (sess s) c).1) (map Stopping (dropOn (sess s) c).2)).
Proof.
  intros H. destruct (sess s) as [tb lg n] eqn:Es.
  assert (Hin : forall w id e, entriesOf (dropOn (MkSession tb lg n) c).1 w !! id = Some e ->
    entriesOf (MkSession tb lg n) w !! id = Some e) by (intros [|] id e [? _]%map_lookup_filter_Some; done).
  rewrite <- Es in *. apply inv_take; [done | | | done | |]; rewrite Es in *.
  - unfold entries. cbn. rewrite (filter_values (on_cluster c) tb), (filter_values (on_cluster c) lg) at 1.
    solve_Permutation.
  - split; [done |]. intros w id e Hl. exists e. auto.
  - intros w id e Hl. destruct (decide (on_cluster c (id, e))) as [Ho | Ho].
    + right. apply elem_of_app. destruct w; cbn in Hl; [left | right]; apply list_elem_of_fmap;
        exists (id, e); by rewrite elem_of_map_to_list, map_lookup_filter_Some.
    + left. destruct w; cbn in *; by apply map_lookup_filter_Some.
  - unfold held_count. cbn.
    pose proof (map_size_filter (fun p => ~ on_cluster c p) tb).
    pose proof (map_size_filter (fun p => ~ on_cluster c p) lg). lia.
Qed.

Lemma take_all s :
  inv s -> inv (spawn (with_sess s (closeAll (sess s)).1) (map Stopping (closeAll (sess s)).2)).
Proof.
  intros H. apply inv_take; [done | | | | |].
  - cbn. change (entries (MkSession ∅ ∅ _)) with (@nil entry). by rewrite app_nil_r.
  - split; [done |]. intros [|] id e Hl; cbn in Hl; by rewrite lookup_empty in Hl.
  - intros [|] id e Hl; cbn in Hl; by rewrite lookup_empty in Hl.
  - intros w id e Hl. right. apply (entries_elem (sess s)). eauto.
  - unfold held_count. cbn. rewrite !map_size_empty. lia.
Qed.

Lemma take_drop s w id x held :
  inv s -> drop (sess s) w id = (x, held) -> inv (spawn (with_sess s x) (stoppings held)).
Proof.
  intros H Hd. unfold drop in Hd. destruct (entriesOf (sess s) w !! id) as [e |] eqn:He; injection Hd as <- <-.
  - apply (inv_take s _ [e]); [done | by apply entries_delete | apply shrinks_delete | | | apply held_count_delete].
    + intros w' id' e0. rewrite entries_of_with. case_decide; [subst | done]. by intros [_ ?]%lookup_delete_Some.
    + intros w' id' e0 Hl. destruct (decide ((w, id) = (w', id'))) as [E | Hne].
      * injection E as <- <-. right. simplify_eq. by left.
      * left. by apply lookup_dropped.
  - apply (inv_take s _ []); [done | done | apply shrinks_refl | done | by left | lia].
Qed.

(** A thread that owns an entry stops it and is over. *)
Lemma own_stop s held i th :
  own_inv (sess s) (resources s) (twice s) (threads s) -> threads s !! i = Some th ->
  thread_owns th = resource held -> (forall w id g, offers th <> Some (w, id, g)) ->
  own_inv (sess (stop s held)) (resources (stop s held)) (twice (stop s held)) (<[i := Over]> (threads s)).
Proof.
  intros H Hi Hr Ho. unfold stop. destruct (resource held) as [r |] eqn:E; cbn.
  - by eapply own_closed.
  - eapply own_move; [done | done |]. split; [cbn; congruence |]. split; by right.
Qed.

Lemma stop_same s held :
  sess (stop s held) = sess s /\ threads (stop s held) = threads s /\ frames (stop s held) = frames s /\
  cancelled (stop s held) = (if cancel held then {[gen held]} ∪ cancelled s else cancelled s).
Proof. unfold stop. by destruct (resource held). Qed.

Lemma hold_spec x w id g x' :
  holdCancel x w id g = (x', true) -> exists e, entriesOf x w !! id = Some e /\ gen e = g /\
    x' = with_entries x w (<[id := MkEntry (resource e) (gen e) (cluster e) true]> (entriesOf x w)).
Proof.
  unfold holdCancel. destruct (_ !! id) as [e |]; [| done]. case_bool_decide as E; [done |].
  intros [= <-]. exists e. split; [done |]. split; [| done]. by destruct (decide (gen e = g)).
Qed.

Lemma hold_false x w id g x' : holdCancel x w id g = (x', false) -> x' = x.
Proof. unfold holdCancel. destruct (_ !! id); [case_bool_decide |]; by intros [= <-]. Qed.

Lemma adopt_spec x w id g r x' :
  adopt x w id g r = (x', true) -> exists e, entriesOf x w !! id = Some e /\ gen e = g /\
    x' = with_entries x w (<[id := MkEntry (Some r) (gen e) (cluster e) (cancel e)]> (entriesOf x w)).
Proof.
  unfold adopt. destruct (_ !! id) as [e |]; [| done]. case_bool_decide as E; [done |].
  intros [= <-]. exists e. split; [done |]. split; [| done]. by destruct (decide (gen e = g)).
Qed.

Lemma adopt_false x w id g r x' : adopt x w id g r = (x', false) -> x' = x.
Proof. unfold adopt. destruct (_ !! id); [case_bool_decide |]; by intros [= <-]. Qed.

Lemma forget_spec x w id g x' e :
  forgetCurrent x w id g = (x', Some e) ->
  entriesOf x w !! id = Some e /\ gen e = g /\ x' = with_entries x w (delete id (entriesOf x w)).
Proof.
  unfold forgetCurrent. destruct (_ !! id) as [e0 |]; [| done]. case_bool_decide as E; [done |].
  intros [= <- <-]. split; [done |]. split; [| done]. by destruct (decide (gen e0 = g)).
Qed.

Lemma forget_none x w id g x' : forgetCurrent x w id g = (x', None) -> x' = x.
Proof. unfold forgetCurrent. destruct (_ !! id); [case_bool_decide |]; by intros [= <-]. Qed.

Lemma with_sess_same s : with_sess s (sess s) = s.
Proof. by destruct s. Qed.

(** A thread that only moves on. *)
Lemma inv_move s i th th' :
  inv s -> threads s !! i = Some th -> milder th th' -> about th' = None ->
  (forall held, th <> Stopping held) -> (forall w id g, th' <> Building w id g) -> inv (become s i th').
Proof.
  intros [H1 H2 H3] Hi Hm Ha Hs Hb. split; cbn.
  - by eapply own_move.
  - eapply write_move; [done | apply shrinks_refl | done | done].
  - by eapply cancel_move.
Qed.

Lemma inv_stopped s i held :
  inv s -> threads s !! i = Some (Stopping held) -> inv (become (stop s held) i Over).
Proof.
  intros [H1 H2 H3] Hi. destruct (stop_same s held) as (E1 & E2 & E3 & E4). split; cbn; rewrite E2.
  - by eapply own_stop.
  - rewrite E1, E3. by eapply write_move; [| apply shrinks_refl | |].
  - rewrite E1, E4. eapply cancel_keep; [exact H3 | destruct (cancel held); set_solver | | |].
    + intros w id g [? | ?]%elem_of_insert_inv; done.
    + intros w id e Hl Hc _. left. by exists e.
    + intros h Hh Hc. destruct (decide (h = held)) as [-> | Hne].
      * right. rewrite Hc. set_solver.
      * left. eapply elem_of_insert_keep; [exact Hi | done | congruence].
Qed.

Lemma inv_hold s i w id g x :
  inv s -> threads s !! i = Some (Started w id g) -> holdCancel (sess s) w id g = (x, true) ->
  inv (become (with_sess s x) i (Building w id g)).
Proof.
  intros [H1 H2 H3] Hi (e & He & Hg & ->)%hold_spec. set (e' := MkEntry _ _ _ true). split; cbn.
  - apply (own_move _ _ _ _ i (Started w id g)); [by apply (own_mark _ _ _ _ _ _ e) | done |].
    split; [done |]. split; by left.
  - eapply write_move; [done | by apply (shrinks_mark _ _ _ e) | done | done].
  - pose proof (cancel_mark _ _ _ w id e e' H3 He eq_refl (fun _ => eq_refl)) as H3'.
    intros w' id' g' [E | Hin]%elem_of_insert_inv.
    + injection E as <- <- <-. left. exists e'. rewrite entries_of_with, decide_True, lookup_insert_eq by done.
      by subst.
    + destruct (H3' _ _ _ Hin) as [? | [? | (h & Hh & Hgh & Hch)]]; [by left | by right; left | right; right].
      exists h. split; [eapply elem_of_insert_keep; [exact Hi | done | done] | done].
Qed.

Lemma inv_open s i w id g r :
  inv s -> threads s !! i = Some (about_to_open w id g) -> resources s !! r = None ->
  inv (MkSystem (sess s) (<[r := true]> (resources s)) (cancelled s) (twice s)
         (<[i := Opened w id g r]> (threads s)) (frames s)).
Proof.
  intros [H1 H2 H3] Hi Hr. split; cbn.
  - eapply own_open; [done | done | done | by destruct w | done | by destruct w | by destruct w].
  - eapply write_move; [done | apply shrinks_refl | done | done].
  - eapply cancel_move; [done | done | by destruct w | done].
Qed.

Lemma feeds_adopt s i w id g r x :
  inv s -> threads s !! i = Some (Opened w id g r) -> adopt (sess s) w id g r = (x, true) ->
  inv (become (with_sess s x) i (Relaying w id g)).
Proof.
  intros [H1 H2 H3] Hi (e & He & Hg & ->)%adopt_spec. split; cbn.
  - by apply own_adopt.
  - eapply write_move; [done | by apply (shrinks_mark _ _ _ e) | done | done].
  - eapply cancel_move; [by apply (cancel_mark _ _ _ _ _ e) | done | done | done].
Qed.

Lemma inv_not_adopted s i w id g r :
  inv s -> threads s !! i = Some (Opened w id g r) -> inv (become (closing s r) i Over).
Proof.
  intros [H1 H2 H3] Hi. split; cbn.
  - by eapply own_closed.
  - by eapply write_move; [| apply shrinks_refl | |].
  - by eapply cancel_move.
Qed.

Lemma inv_write s i w id g :
  inv s -> threads s !! i = Some (Relaying w id g) -> (forall th, th ∈ threads s -> writes th = false) ->
  isCurrent (sess s) w id g = true -> inv (become s i (Writing w id g)).
Proof.
  intros [H1 H2 H3] Hi Hno Hc. unfold isCurrent in Hc. destruct (_ !! id) as [e |] eqn:He; [| done].
  apply bool_decide_eq_true in Hc. split; cbn.
  - eapply own_move; [done | done |]. split; [done |]. split; by left.
  - by eapply write_enter; [| apply shrinks_refl | | | | | |].
  - by eapply cancel_move.
Qed.

Lemma inv_written s i th th' w id g b :
  inv s -> threads s !! i = Some th -> about th = Some (w, id, g, b) -> milder th th' -> about th' = None ->
  (forall w id g, th' <> Building w id g) -> inv (become (written s (MkFrame w id g b)) i th').
Proof.
  intros H Hi Ha Hm Ha' Hb. pose proof H as [H1 H2 H3]. split; cbn.
  - by eapply own_move.
  - eapply write_written; [done | | done | done | done]. intros t g' Ht Hg'. by eapply works_bound.
  - eapply cancel_move; [done | done | by destruct th | done].
Qed.

Lemma feeds_fail s i th w id g x e :
  inv s -> threads s !! i = Some th -> (th = Started w id g \/ th = Building w id g) ->
  (forall th, th ∈ threads s -> writes th = false) ->
  forgetCurrent (sess s) w id g = (x, Some e) -> inv (become (with_sess s x) i (Failing w id g e)).
Proof.
  intros H Hi Hth Hno (He & Hg & ->)%forget_spec. pose proof H as [H1 H2 H3].
  assert (Hw : works_for th = Some g) by (by destruct Hth; subst).
  split; cbn.
  - eapply own_forget; [done | done | by destruct Hth; subst | done | done].
  - eapply write_enter; [done | apply shrinks_delete | done | done | done | done | done |].
    intros _. rewrite entries_of_with, decide_True by done. apply lookup_delete_eq.
  - eapply cancel_keep; [exact H3 | done | | |].
    + intros w' id' g' [? | ?]%elem_of_insert_inv; done.
    + intros w' id' e0 Hl Hc Hb. left. exists e0. split; [| done]. apply lookup_dropped; [done |].
      intros [= <- <-]. simplify_eq. apply list_elem_of_lookup_1 in Hb as [j Hj].
      destruct (decide (i = j)) as [-> | Hne].
      * rewrite list_lookup_insert_eq in Hj by (by eapply lookup_lt_Some). done.
      * rewrite list_lookup_insert_ne in Hj by done. apply Hne.
        by eapply (unique_worker _ i j _ _ _ (o_unique _ _ _ _ H1) Hi Hj).
    + intros h Hh _. left. eapply elem_of_insert_keep; [exact Hi | done | by destruct Hth; subst].
Qed.

Lemma inv_failed s i w id g e :
  inv s -> threads s !! i = Some (Failing w id g e) ->
  inv (become (written (stop s e) (MkFrame w id g true)) i Over).
Proof.
  intros H Hi. pose proof H as [H1 H2 H3]. destruct (stop_same s e) as (E1 & E2 & E3 & E4).
  split; cbn; rewrite E2.
  - by eapply own_stop.
  - rewrite E1, E3. eapply write_written; [done | | done | done | done].
    intros t g' Ht Hg'. by eapply works_bound.
  - rewrite E1, E4. eapply cancel_keep; [exact H3 | destruct (cancel e); set_solver | | |].
    + intros w' id' g' [? | ?]%elem_of_insert_inv; done.
    + intros w' id' e0 Hl Hc _. left. by exists e0.
    + intros h Hh _. left. by eapply elem_of_insert_keep.
Qed.

Lemma feeds_step s s' : inv s -> step s s' -> inv s'.
Proof.
  intros H Hst. destruct Hst as [s w id c x g p Hc | s w id x held Hd | s c x l Hd | s x l Hd | s i held Hi
    | s i w id g x Hi Hh | s i w id g x Hi Hh | s i w id g r Hi Hr | s i w id g r x Hi Ha | s i w id g r x Hi Ha
    | s i w id g Hi Hno Hc | s i w id g Hi Hno Hc | s i w id g Hi | s i w id g Hi | s i w id g x held Hi Hno Hf
    | s i w id g x Hi Hno Hf | s i w id g held Hi].
  - pose proof H as [H1 H2 H3]. split; cbn.
    + by eapply own_claim.
    + eapply write_claim; [done | | done]. intros t g' Ht Hg'. by eapply works_bound.
    + unfold tryClaim in Hc. destruct (_ && _); [done |]. injection Hc as <- <- <-.
      eapply cancel_more; [exact H3 | |].
      * intros w' id' g' [? | Hin]%elem_of_cons; [done | by apply stoppings_no_builder in Hin].
      * intros w' id' e0 Hl. destruct (decide ((w, id) = (w', id'))) as [E | Hne].
        -- injection E as <- <-. right. right. rewrite Hl. by left.
        -- left. rewrite entries_of_with. case_decide; [subst | by destruct w'].
           rewrite lookup_insert_ne; [done | congruence].
  - by eapply take_drop.
  - pose proof (take_on s c H) as H'. by rewrite Hd in H'.
  - pose proof (take_all s H) as H'. by rewrite Hd in H'.
  - by apply inv_stopped.
  - by eapply inv_hold.
  - apply hold_false in Hh as ->. rewrite with_sess_same. eapply inv_move; [done | exact Hi | | done | done | done].
    split; [done |]. split; by right.
  - by apply inv_open.
  - by eapply feeds_adopt.
  - apply adopt_false in Ha as ->. rewrite with_sess_same. by eapply (inv_not_adopted s).
  - by apply inv_write.
  - eapply inv_move; [done | exact Hi | | done | done | done]. split; [done |]. split; by right.
  - eapply inv_written; [done | exact Hi | done | | done | done]. split; [done |]. split; by left.
  - eapply inv_move; [done | exact Hi | | done | done | done]. split; [done |]. split; by right.
  - destruct Hi as [Hi | Hi]; (eapply feeds_fail; [done | exact Hi | by auto | done | done]).
  - apply forget_none in Hf as ->. rewrite with_sess_same.
    destruct Hi as [Hi | Hi]; (eapply inv_move; [done | exact Hi | | done | done | done]);
      (split; [done |]; split; by right).
  - by apply inv_failed.
Qed.

Lemma feeds_begin : inv begin.
Proof.
  split; [split | split |]; cbn; try done.
  - constructor.
  - intros r. rewrite lookup_empty. split; [by intros ?%elem_of_nil | done].
  - constructor.
  - by intros g ?%elem_of_nil.
  - by intros e ?%elem_of_nil.
  - by intros th w id g e ?%elem_of_nil.
  - by intros f ?%elem_of_nil.
  - intros [|] id e He; cbn in He; by rewrite lookup_empty in He.
  - by intros th w id g b ?%elem_of_nil.
  - by intros th w id g b e ?%elem_of_nil.
  - by intros w id g ?%elem_of_nil.
Qed.

Lemma feeds_reach s : rtc step begin s -> inv s.
Proof. intros H. eapply rtc_invariant; [exact feeds_step | exact feeds_begin | done]. Qed.

(** C12: no interleaving of claims, replacements, failures, drops and a closing
    session leaks or double-closes what its goroutines opened: an open resource
    has exactly one owner, an entry of the session, a builder that will offer it
    or close it, or a goroutine about to close it; a session never holds more
    than its maximum; and when the session has been emptied and its goroutines
    are done nothing is open. *)
Theorem feeds_own_resources (s : system) :
  rtc step begin s ->
  twice s = false /\ NoDup (owned (sess s) (threads s)) /\
  (forall r, resources s !! r = Some true <->
     (exists w id e, entriesOf (sess s) w !! id = Some e /\ resource e = Some r) \/
     (exists th, th ∈ threads s /\ thread_owns th = Some r)) /\
  (held_count (sess s) <= maxSubscriptions)%Z /\
  (entries (sess s) = [] -> Forall (fun th => th = Over) (threads s) -> forall r, resources s !! r <> Some true).
Proof.
  intros [H _ _]%feeds_reach. split; [apply (o_once _ _ _ _ H) |]. split; [apply (o_nodup _ _ _ _ H) |].
  assert (Ho : forall r, resources s !! r = Some true <->
     (exists w id e, entriesOf (sess s) w !! id = Some e /\ resource e = Some r) \/
     (exists th, th ∈ threads s /\ thread_owns th = Some r)).
  { intros r. rewrite <- (o_open _ _ _ _ H). unfold owned. rewrite elem_of_app, !list_elem_of_omap.
    setoid_rewrite entries_elem. naive_solver. }
  split; [exact Ho |]. split; [apply (o_room _ _ _ _ H) |]. intros He Hover r Hr. apply Ho in Hr as [Hr | Hr].
  - destruct Hr as (w & id & e & Hl & _). assert (e ∈ entries (sess s)) as Hin by (apply entries_elem; eauto).
    rewrite He in Hin. by apply elem_of_nil in Hin.
  - destruct Hr as (th & Hth & Hr). rewrite list.Forall_forall in Hover. by rewrite (Hover _ Hth) in Hr.
Qed.

(** A client never sees frames of a subscription out of order: whatever is
    replaced or fails meanwhile, the frames of one subscription go by
    generation, so none of a replaced one follows a frame of its successor, and
    nothing of a generation follows the error that ended it. *)
Theorem frames_in_order (s : system) (i j : nat) (f f' : frame) :
  rtc step begin s ->
  frames s !! i = Some f -> frames s !! j = Some f' -> i < j -> f_feed f = f_feed f' -> f_sub f = f_sub f' ->
  f_gen f < f_gen f' \/ (f_gen f = f_gen f' /\ final f = false).
Proof. intros [_ H _]%feeds_reach. apply (w_order _ _ _ H). Qed.

(** A table that is dropped, replaced or closed while it is still being
    built does not keep its builder waiting: the building context is cancelled,
    is about to be, or can still be through the session's entry. *)
Theorem dropped_builder_cancelled (s : system) (w : feed) (id : string) (g : nat) :
  rtc step begin s -> Building w id g ∈ threads s -> isCurrent (sess s) w id g = false ->
  g ∈ cancelled s \/ exists held, Stopping held ∈ threads s /\ gen held = g /\ cancel held = true.
Proof.
  intros [_ _ H]%feeds_reach Hin Hc. destruct (H _ _ _ Hin) as [(e & He & Hg & _) | [? | ?]]; [| by left | by right].
  unfold isCurrent in Hc. rewrite He, bool_decide_true in Hc; done.
Qed.

(** ** Examples *)

Tactic Notation "go" uconstr(rule) := eapply rtc_l; [eapply rule; try reflexivity |].

(** A table is opened and shows a frame; then it is replaced, and the
    replacement shows one. *)
Definition replaced : system :=
  MkSystem (MkSession {["t" := MkEntry (Some 1) 2 "c" true]} ∅ 2) {[0 := false; 1 := true]} {[1]} false
    [Over; Relaying tables "t" 2; Over] [MkFrame tables "t" 1 false; MkFrame tables "t" 2 false].

(** Nobody is inside [writeMu]. *)
Ltac quiet := by apply list.Forall_forall; repeat constructor.

Lemma replaced_reached : rtc step begin replaced.
Proof.
  go (step_claim _ tables "t" "c"). go (step_hold _ 0 tables "t" 1). go (step_open _ 0 tables "t" 1 0).
  go (step_adopt _ 0 tables "t" 1 0). go (step_write _ 0 tables "t" 1); [quiet |].
  go (step_written _ 0 tables "t" 1). go (step_claim _ tables "t" "c"). go (step_hold _ 1 tables "t" 2).
  go (step_open _ 1 tables "t" 2 1). go (step_adopt _ 1 tables "t" 2 1). go (step_stop _ 2).
  go (step_stale _ 0 tables "t" 1); [quiet |]. go (step_write _ 1 tables "t" 2); [quiet |].
  go (step_written _ 1 tables "t" 2). apply rtc_refl.
Qed.

Lemma feeds_own_resources_witness : resources replaced !! 1 = Some true /\ twice replaced = false.
Proof.
  destruct (feeds_own_resources replaced replaced_reached) as (H1 & _ & H2 & _). split; [| done].
  apply H2. left. exists tables, "t", (MkEntry (Some 1) 2 "c" true). by vm_compute.
Defined.

Lemma frames_in_order_witness : 1 < 2 \/ (1 = 2 /\ false = false).
Proof.
  apply (frames_in_order replaced 0 1 (MkFrame tables "t" 1 false) (MkFrame tables "t" 2 false) replaced_reached);
    try reflexivity. lia.
Defined.

(** A table dropped while its builder waits for a slot. *)
Definition abandoned : system :=
  MkSystem (MkSession ∅ ∅ 1) ∅ ∅ false [Building tables "t" 1; Stopping (MkEntry None 1 "c" true)] [].

Lemma abandoned_reached : rtc step begin abandoned.
Proof.
  go (step_claim _ tables "t" "c"). go (step_hold _ 0 tables "t" 1). go (step_drop _ tables "t"). apply rtc_refl.
Qed.

Lemma dropped_builder_cancelled_witness :
  1 ∈ cancelled abandoned \/
  exists held, Stopping held ∈ threads abandoned /\ gen held = 1 /\ cancel held = true.
Proof. apply (dropped_builder_cancelled abandoned tables "t" 1 abandoned_reached); [by left | reflexivity]. Defined.

End Feeds.
