(* ===== verification/Budget.v ===== *)
(** internal/server/budget.go: the budgets of concurrent work (table snapshots,
    log streams) and of live connections (ws.go).  A claim takes units from the
    server's and its identity's share; [await] waits on a channel that every
    release closes and replaces. *)

From S2P Require Import Prelude.

Module Budget.

(** [freed]: which channel is current; the ones before it are closed. *)
Record workBudget := MkBudget {
  global : Z;
  perIdentity : Z;
  used : Z;
  byIdentity : gmap string Z;
  freed : nat;
}.

Definition newWorkBudget (global perIdentity : Z) : workBudget := MkBudget global perIdentity 0 ∅ 0.

Definition taken (b : workBudget) (identity : string) : Z := default 0%Z (byIdentity b !! identity).

(** What [attempt] answers: no accounting is needed, the units are claimed, or
    the channel to wait on. *)
Inductive attempted := Free | Granted | Full (freed : nat).

Definition fullFor (b : workBudget) (identity : string) (units : Z) : bool :=
  (global b <? used b + units)%Z || (perIdentity b <? taken b identity + units)%Z.

(** [attempt]; a nil budget is [None]. *)
Definition attempt (b : option workBudget) (identity : string) (units : Z) : option workBudget * attempted :=
  match b with
  | None => (None, Free)
  | Some b =>
      if (units <=? 0)%Z then (Some b, Free)
      else if fullFor b identity units then (Some b, Full (freed b))
      else (Some (MkBudget (global b) (perIdentity b) (used b + units)
                    (<[identity := (taken b identity + units)%Z]> (byIdentity b)) (freed b)), Granted)
  end.

(** The release a claim returns, the first time it is called. *)
Definition release (b : workBudget) (identity : string) (units : Z) : workBudget :=
  let left := (taken b identity - units)%Z in
  MkBudget (global b) (perIdentity b) (used b - units)
    (if (left =? 0)%Z then delete identity (byIdentity b) else <[identity := left]> (byIdentity b))
    (S (freed b)).

(** ** Claims, waiters and releases *)

(** A release function: whose it is, its units, whether [once] has fired. *)
Record token := MkToken { t_identity : string; t_units : Z; fired : bool }.

(** [Waits]: a caller of [await] is in its select, on a channel. *)
Inductive waiter := Waits (identity : string) (on : nat) | Through (identity : string) | GaveUp.

Record system := MkSystem { budget : workBudget; tokens : list token; waiters : list waiter }.

Inductive step : system -> system -> Prop :=
| step_claim s identity units b :
    attempt (Some (budget s)) identity units = (Some b, Granted) ->
    step s (MkSystem b (tokens s ++ [MkToken identity units false]) (waiters s))
| step_await s identity n b :
    attempt (Some (budget s)) identity 1 = (Some b, Full n) ->
    step s (MkSystem b (tokens s) (waiters s ++ [Waits identity n]))
| step_wake s i identity n b :
    waiters s !! i = Some (Waits identity n) -> n < freed (budget s) ->
    attempt (Some (budget s)) identity 1 = (Some b, Granted) ->
    step s (MkSystem b (tokens s ++ [MkToken identity 1 false]) (<[i := Through identity]> (waiters s)))
| step_again s i identity n m b :
    waiters s !! i = Some (Waits identity n) -> n < freed (budget s) ->
    attempt (Some (budget s)) identity 1 = (Some b, Full m) ->
    step s (MkSystem b (tokens s) (<[i := Waits identity m]> (waiters s)))
| step_give_up s i identity n :
    waiters s !! i = Some (Waits identity n) -> step s (MkSystem (budget s) (tokens s) (<[i := GaveUp]> (waiters s)))
| step_release s i t :
    tokens s !! i = Some t -> fired t = false ->
    step s (MkSystem (release (budget s) (t_identity t) (t_units t))
              (<[i := MkToken (t_identity t) (t_units t) true]> (tokens s)) (waiters s))
| step_release_again s i t :
    tokens s !! i = Some t -> fired t = true -> step s s.

Definition begin (global perIdentity : Z) : system := MkSystem (newWorkBudget global perIdentity) [] [].

(** Units claimed and not released, of the identities that pass a test. *)
Definition weight (P : string -> bool) (t : token) : Z :=
  if negb (fired t) && P (t_identity t) then t_units t else 0%Z.

Definition outstanding (P : string -> bool) (toks : list token) : Z := foldr (fun t acc => weight P t + acc)%Z 0%Z toks.

Arguments outstanding : simpl never.

Definition anybody (identity : string) : bool := true.

Definition only (identity other : string) : bool := bool_decide (other = identity).

Lemma outstanding_cons P t toks : outstanding P (t :: toks) = (weight P t + outstanding P toks)%Z.
Proof. done. Qed.

Lemma outstanding_snoc P toks t : outstanding P (toks ++ [t]) = (outstanding P toks + weight P t)%Z.
Proof. induction toks as [| x l IH]; [unfold outstanding; cbn; lia |]. cbn [app]. rewrite !outstanding_cons, IH. lia. Qed.

Lemma outstanding_insert P toks i t t' :
  toks !! i = Some t -> outstanding P (<[i := t']> toks) = (outstanding P toks - weight P t + weight P t')%Z.
Proof.
  revert i. induction toks as [| x l IH]; intros [| i] H; try done.
  - injection H as ->. cbn [insert list_insert]. rewrite !outstanding_cons. lia.
  - change (<[S i := t']> (x :: l)) with (x :: <[i := t']> l). rewrite !outstanding_cons, (IH _ H). lia.
Qed.

(** The accounting: exact, within both limits, and nobody waits on an open
    channel for units there are. *)
Record inv (s : system) : Prop := {
  i_used : used (budget s) = outstanding anybody (tokens s);
  i_by : forall identity, byIdentity (budget s) !! identity =
    if (outstanding (only identity) (tokens s) =? 0)%Z then None else Some (outstanding (only identity) (tokens s));
  i_units : Forall (fun t => (0 < t_units t)%Z) (tokens s);
  i_global : (0 <= global (budget s) -> used (budget s) <= global (budget s))%Z;
  i_share : forall identity, (0 <= perIdentity (budget s) ->
    outstanding (only identity) (tokens s) <= perIdentity (budget s))%Z;
  i_wait : forall identity n, Waits identity n ∈ waiters s ->
    n <= freed (budget s) /\ (n = freed (budget s) -> fullFor (budget s) identity 1 = true);
}.

Lemma taken_outstanding s identity :
  inv s -> taken (budget s) identity = outstanding (only identity) (tokens s).
Proof. intros H. unfold taken. rewrite (i_by _ H). destruct (Z.eqb_spec (outstanding (only identity) (tokens s)) 0); cbn; lia. Qed.

Lemma held_nonneg P toks : Forall (fun t => (0 < t_units t)%Z) toks -> (0 <= outstanding P toks)%Z.
Proof. induction 1 as [| t l Ht _ IH]; [done |]. rewrite outstanding_cons. unfold weight. destruct (_ && _); lia. Qed.

(** More taken, more is full. *)
Lemma full_grows b b' identity :
  global b' = global b -> perIdentity b' = perIdentity b -> (used b <= used b')%Z ->
  (taken b identity <= taken b' identity)%Z -> fullFor b identity 1 = true -> fullFor b' identity 1 = true.
Proof.
  unfold fullFor. intros -> -> Hu Ht. rewrite !orb_true_iff, !Z.ltb_lt. intros [? | ?]; [left | right]; lia.
Qed.

Lemma attempt_granted b identity units b' :
  attempt (Some b) identity units = (Some b', Granted) ->
  (0 < units)%Z /\ (used b + units <= global b)%Z /\ (taken b identity + units <= perIdentity b)%Z /\
  b' = MkBudget (global b) (perIdentity b) (used b + units)
         (<[identity := (taken b identity + units)%Z]> (byIdentity b)) (freed b).
Proof.
  cbn. destruct (Z.leb_spec units 0); [done |]. unfold fullFor. destruct (_ || _) eqn:E; [done |].
  intros [= <-]. apply orb_false_iff in E as [E1%Z.ltb_ge E2%Z.ltb_ge]. done.
Qed.

Lemma attempt_full b identity units b' n :
  attempt (Some b) identity units = (Some b', Full n) -> b' = b /\ n = freed b /\ fullFor b identity units = true.
Proof. cbn. destruct (_ <=? _)%Z; [done |]. destruct (fullFor _ _ _) eqn:E; [| done]. by intros [= <- <-]. Qed.

Lemma weight_only identity other units :
  weight (only identity) (MkToken other units false) = if bool_decide (other = identity) then units else 0%Z.
Proof. done. Qed.

Lemma inv_grant s identity units b ws :
  inv s -> attempt (Some (budget s)) identity units = (Some b, Granted) ->
  (forall i n, Waits i n ∈ ws -> Waits i n ∈ waiters s) ->
  inv (MkSystem b (tokens s ++ [MkToken identity units false]) ws).
Proof.
  intros H Ha Hws. pose proof (taken_outstanding _ identity H) as Ht.
  apply attempt_granted in Ha as (Hu & Hg & Hp & ->). pose proof H as [H1 H2 H3 H4 H5 H6].
  assert (Hb : forall other, outstanding (only other) (tokens s ++ [MkToken identity units false]) =
    (outstanding (only other) (tokens s) + if bool_decide (identity = other) then units else 0)%Z)
    by (intros other; by rewrite outstanding_snoc).
  split; cbn.
  - rewrite H1, outstanding_snoc. done.
  - intros other. rewrite Hb. pose proof (held_nonneg (only other) _ H3). case_bool_decide as E; [subst |].
    + rewrite lookup_insert_eq, Ht. by replace (_ =? 0)%Z with false by lia.
    + rewrite lookup_insert_ne, Z.add_0_r by done. apply H2.
  - apply Forall_app. split; [done |]. by repeat constructor.
  - intros _. lia.
  - intros other Hn. rewrite Hb. specialize (H5 other Hn). case_bool_decide as E; [subst |]; lia.
  - intros other n Hin. destruct (H6 other n (Hws _ _ Hin)) as [Hle Hf]. split; [done |]. intros Hn.
    eapply full_grows; [| | | | by apply Hf]; cbn; [done | done | lia |].
    unfold taken at 2. cbn. destruct (decide (identity = other)) as [-> | Hne].
    + rewrite lookup_insert_eq. cbn. lia.
    + rewrite lookup_insert_ne by done. done.
Qed.

Lemma budget_release s i t :
  inv s -> tokens s !! i = Some t -> fired t = false ->
  inv (MkSystem (release (budget s) (t_identity t) (t_units t))
         (<[i := MkToken (t_identity t) (t_units t) true]> (tokens s)) (waiters s)).
Proof.
  intros H Hi Hf. pose proof H as [H1 H2 H3 H4 H5 H6].
  assert (Hu : (0 < t_units t)%Z) by (by eapply (Forall_lookup_1 _ _ _ _ H3)).
  assert (Hb : forall P, outstanding P (<[i := MkToken (t_identity t) (t_units t) true]> (tokens s)) =
    (outstanding P (tokens s) - if P (t_identity t) then t_units t else 0)%Z).
  { intros P. rewrite (outstanding_insert _ _ _ _ _ Hi). unfold weight. rewrite Hf. cbn. lia. }
  assert (Hu' : Forall (fun t => (0 < t_units t)%Z) (<[i := MkToken (t_identity t) (t_units t) true]> (tokens s)))
    by (by apply Forall_insert).
  split; cbn; [| | done | | |].
  - by rewrite H1, Hb.
  - intros other. rewrite Hb, (taken_outstanding _ _ H).
    change (only other (t_identity t)) with (bool_decide (t_identity t = other)).
    case_bool_decide as E; [subst other |].
    + case_match; [apply lookup_delete_eq | apply lookup_insert_eq].
    + rewrite Z.sub_0_r, <- H2. by case_match; rewrite ?lookup_delete_ne, ?lookup_insert_ne.
  - intros Hn. specialize (H4 Hn). lia.
  - intros other Hn. rewrite Hb. specialize (H5 other Hn). destruct (only other (t_identity t)); lia.
  - intros other n Hin. destruct (H6 _ _ Hin) as [Hle _]. lia.
Qed.

Lemma inv_waiters s ws :
  inv s -> (forall i n, Waits i n ∈ ws ->
    Waits i n ∈ waiters s \/ (n = freed (budget s) /\ fullFor (budget s) i 1 = true)) ->
  inv (MkSystem (budget s) (tokens s) ws).
Proof.
  intros [H1 H2 H3 H4 H5 H6] Hw. split; cbn; try done. intros i n Hin.
  destruct (Hw _ _ Hin) as [? | [-> ?]]; [by apply H6 | done].
Qed.

Lemma budget_step s s' : inv s -> step s s' -> inv s'.
Proof.
  intros H Hst. destruct Hst as [s who units b Ha | s who n b Ha | s i who n b Hi Hn Ha | s i who n m b Hi Hn Ha
    | s i who n Hi | s i t Hi Hf | s i t Hi Hf].
  - by eapply inv_grant.
  - apply attempt_full in Ha as (-> & -> & Hf). apply inv_waiters; [done |].
    intros j k [? | [= -> ->]%list_elem_of_singleton]%elem_of_app; [by left | by right].
  - eapply inv_grant; [done | done |]. by intros j k [? | ?]%elem_of_insert_inv.
  - apply attempt_full in Ha as (-> & -> & Hf). apply inv_waiters; [done |].
    intros j k [[= -> ->] | ?]%elem_of_insert_inv; [by right | by left].
  - apply inv_waiters; [done |]. intros j k [? | ?]%elem_of_insert_inv; [done | by left].
  - by apply budget_release.
  - done.
Qed.

Lemma budget_reach g p s : rtc step (begin g p) s -> inv s /\ global (budget s) = g /\ perIdentity (budget s) = p.
Proof.
  intros Hr. apply (rtc_invariant step
    (fun s => inv s /\ global (budget s) = g /\ perIdentity (budget s) = p) (begin g p)); [| | done].
  - intros a b (Ha & Hg & Hp) Hst. split; [by eapply budget_step |].
    destruct Hst as [? ? ? ? E | ? ? ? ? E | ? ? ? ? ? ? ? E | ? ? ? ? ? ? ? ? E | | |]; cbn; try done;
      first [apply attempt_granted in E as (_ & _ & _ & ->) | apply attempt_full in E as (-> & _ & _)]; done.
  - split; [| done]. split; cbn; try done; by intros ? ? ?%elem_of_nil.
Qed.

(** C26: a work budget counts exactly the units claimed and not released, within
    the server's and each identity's limit, whoever waits, is woken or gives
    up, and however often a release is called. *)
Theorem work_budget_exact (g p : Z) (s : system) (identity : string) :
  (0 <= g)%Z -> (0 <= p)%Z -> rtc step (begin g p) s ->
  used (budget s) = outstanding anybody (tokens s) /\
  taken (budget s) identity = outstanding (only identity) (tokens s) /\
  (outstanding anybody (tokens s) <= g)%Z /\ (outstanding (only identity) (tokens s) <= p)%Z.
Proof.
  intros Hg Hp (H & Eg & Ep)%budget_reach. split; [apply (i_used _ H) |].
  split; [by apply taken_outstanding |]. rewrite <- (i_used _ H). split.
  - rewrite <- Eg. apply (i_global _ H). by rewrite Eg.
  - rewrite <- Ep. apply (i_share _ H). by rewrite Ep.
Qed.

(** A wakeup is never lost: a caller of [await] that is blocked, on a
    channel nobody closed yet, could not get a unit now; so once every claim is
    released nobody is blocked. *)
Theorem await_not_stranded (g p : Z) (s : system) (identity : string) (n : nat) :
  rtc step (begin g p) s -> Waits identity n ∈ waiters s -> ~ n < freed (budget s) ->
  attempt (Some (budget s)) identity 1 = (Some (budget s), Full n) /\
  ((1 <= g)%Z -> (1 <= p)%Z -> exists t, t ∈ tokens s /\ fired t = false).
Proof.
  intros (H & Eg & Ep)%budget_reach Hin Hn. destruct (i_wait _ H _ _ Hin) as [Hle Hf].
  assert (n = freed (budget s)) as -> by lia. specialize (Hf eq_refl). cbn. rewrite Hf. split; [done |].
  intros Hg Hp. destruct (decide (Exists (fun t => fired t = false) (tokens s))) as [(t & Ht & E)%list.Exists_exists | Hno];
    [by exists t |]. exfalso.
  assert (Hz : forall P, outstanding P (tokens s) = 0%Z).
  { intros P. clear -Hno. induction (tokens s) as [| t l IH]; [done |]. rewrite outstanding_cons, IH.
    - unfold weight. destruct (fired t) eqn:E; [done |]. destruct Hno. by left.
    - intros He. apply Hno. by right. }
  unfold fullFor in Hf. rewrite (taken_outstanding _ _ H), (i_used _ H), !Hz, Eg, Ep in Hf.
  apply orb_true_iff in Hf as [Hf%Z.ltb_lt | Hf%Z.ltb_lt]; lia.
Qed.

(** ** Examples *)

Tactic Notation "go" uconstr(rule) := eapply rtc_l; [eapply rule; try reflexivity |].

(** One unit in all: a second caller waits. *)
Definition busy : system :=
  MkSystem (MkBudget 1 1 1 {["ann" := 1%Z]} 0) [MkToken "ann" 1 false] [Waits "bob" 0].

Lemma busy_reached : rtc step (begin 1 1) busy.
Proof. go (step_claim _ "ann" 1%Z). go (step_await _ "bob" 0). apply rtc_refl. Qed.

Lemma work_budget_exact_witness : used (budget busy) = outstanding anybody (tokens busy).
Proof. apply (work_budget_exact 1 1 busy "ann"); [lia | lia | exact busy_reached]. Defined.

Lemma await_not_stranded_witness : exists t, t ∈ tokens busy /\ fired t = false.
Proof.
  apply (await_not_stranded 1 1 busy "bob" 0 busy_reached); [by left | cbn; lia | lia | lia].
Defined.

End Budget.
