(* ===== verification/Text.v ===== *)
(** Text the components share: decimal numbers as strconv and fmt print them,
    and how the byte order of joined strings follows from the order of their
    parts. *)

From S2P Require Import Prelude.

Module Text.

Definition strlen (s : string) : Z := Z.of_nat (String.length s).

(** [strconv.Itoa]. *)
Definition Itoa (n : Z) : string := pretty n.

Fixpoint zeros (n : nat) : string := match n with O => "" | S n => "0" +s+ zeros n end.

(** [fmt.Sprintf("%0*d", width, n)] for a non-negative number. *)
Definition zero_padded (width : Z) (n : Z) : string :=
  zeros (Z.to_nat (width - strlen (Itoa n))) +s+ Itoa n.

Definition NUL : Ascii.ascii := Ascii.ascii_of_N 0.
Definition nul : string := String NUL "".

(** [strings.Join]. *)
Definition Join (sep : string) (l : list string) : string := String.concat sep l.

Definition no_nul (s : string) : Prop := Forall (fun c => c <> NUL) (String.list_ascii_of_string s).

(** ** Fixed-width decimals *)

Definition digit (n : N) : Ascii.ascii := pretty_N_char n.

Fixpoint digits (w : nat) (n : N) : string :=
  match w with O => "" | S w => digits w (n / 10) +s+ String (digit (n mod 10)) "" end.

Lemma append_cons c s t : (String c s +s+ t) = String c (s +s+ t).
Proof. done. Qed.

Lemma append_empty t : ("" +s+ t) = t.
Proof. done. Qed.

Lemma append_assoc s t u : ((s +s+ t) +s+ u) = (s +s+ t +s+ u).
Proof. induction s as [| c s IH]; [done |]. by rewrite !append_cons, IH. Qed.

Lemma append_length s t : String.length (s +s+ t) = String.length s + String.length t.
Proof. induction s as [| c s IH]; [done |]. rewrite append_cons. cbn. by rewrite IH. Qed.

Lemma append_nil s : (s +s+ "") = s.
Proof. induction s as [| c s IH]; [done |]. by rewrite append_cons, IH. Qed.

Lemma digits_length w n : String.length (digits w n) = w.
Proof. revert n. induction w as [| w IH]; intros n; cbn; [done |]. rewrite append_length, IH. cbn. lia. Qed.

Lemma zeros_snoc n s : (zeros n +s+ "0" +s+ s) = (zeros (S n) +s+ s).
Proof.
  induction n as [| n IH]; [done |]. cbn [zeros]. rewrite append_assoc, IH. cbn [zeros].
  by rewrite append_assoc.
Qed.

Lemma digits_zero w : digits w 0 = zeros w.
Proof.
  induction w as [| w IH]; [done |]. cbn [digits]. change (0 / 10)%N with 0%N. rewrite IH.
  change (String (digit (0 mod 10)) "") with ("0" +s+ ""). by rewrite zeros_snoc, append_nil.
Qed.

Lemma digits_go w x s :
  (x < 10 ^ N.of_nat w)%N ->
  exists k, k <= w /\ (digits w x +s+ s) = (zeros (w - k) +s+ pretty_N_go x s) /\
    String.length (pretty_N_go x s) = k + String.length s.
Proof.
  revert x s. induction w as [| w IH]; intros x s Hx.
  - exists 0. assert (x = 0%N) as -> by (cbn in Hx; lia). done.
  - destruct (decide (x = 0%N)) as [-> | Hne].
    { exists 0. rewrite digits_zero, pretty_N_go_0, Nat.sub_0_r. split; [lia | done]. }
    rewrite pretty_N_go_step by lia. cbn [digits]. rewrite append_assoc, append_cons, append_empty.
    destruct (IH (x / 10)%N (String (pretty_N_char (x mod 10)) s)) as (k & Hk & E & Hl).
    { apply N.Div0.div_lt_upper_bound. rewrite Nat2N.inj_succ, N.pow_succ_r' in Hx. lia. }
    exists (S k). split; [lia |]. split; [exact E |]. rewrite Hl. cbn. lia.
Qed.

(** Padded numbers that fit are their fixed-width digits. *)
Lemma zero_padded_digits w n :
  (0 < w)%nat -> (0 <= n < 10 ^ Z.of_nat w)%Z -> zero_padded (Z.of_nat w) n = digits w (Z.to_N n).
Proof.
  intros Hw Hn. unfold zero_padded, Itoa, strlen.
  assert (Hp : pretty n = if decide (n = 0%Z) then "0" else pretty_N_go (Z.to_N n) "").
  { destruct n as [| p | p]; [done | done | lia]. }
  rewrite Hp. case_decide as E.
  - subst. cbn [String.length]. change (Z.to_N 0) with 0%N. rewrite digits_zero.
    pose proof (zeros_snoc (w - 1) "") as Hz. rewrite !append_nil in Hz.
    replace (Z.to_nat (Z.of_nat w - Z.of_nat 1)) with (w - 1) by lia. rewrite Hz. f_equal. lia.
  - destruct (digits_go w (Z.to_N n) "") as (k & Hk & Ed & Hl).
    { apply N2Z.inj_lt. rewrite Z2N.id, N2Z.inj_pow, nat_N_Z by lia. lia. }
    rewrite append_nil in Ed. rewrite Ed, Hl. cbn [String.length]. do 2 f_equal. lia.
Qed.

(** ** The order of joined strings *)

Lemma str_compare_refl s : str_compare s s = 0%Z.
Proof. by apply str_compare_eq. Qed.

Lemma compare_append s s' t t' :
  String.length s = String.length s' ->
  str_compare (s +s+ t) (s' +s+ t') =
  (if str_compare s s' =? 0 then str_compare t t' else str_compare s s')%Z.
Proof.
  revert s'. induction s as [| a s IH]; intros [| b s'] Hl; try done.
  rewrite !append_cons. injection Hl as Hl. rewrite !str_compare_cons, IH by done. by repeat case_match.
Qed.

(** A NUL ends a string before any of its continuations. *)
Lemma compare_nul s s' t t' :
  no_nul s -> no_nul s' ->
  str_compare (s +s+ nul +s+ t) (s' +s+ nul +s+ t') =
  (if str_compare s s' =? 0 then str_compare t t' else str_compare s s')%Z.
Proof.
  unfold no_nul. revert s'. induction s as [| a s IH]; intros [| b s'] Hs Hs'; unfold nul; rewrite ?append_cons, ?append_empty.
  - rewrite !str_compare_cons. by rewrite !N.ltb_irrefl.
  - apply list.Forall_cons in Hs' as [Hb _]. rewrite str_compare_cons.
    assert (Ascii.N_of_ascii NUL < Ascii.N_of_ascii b)%N as ->%N.ltb_lt; [| done].
    change (Ascii.N_of_ascii NUL) with 0%N. destruct (Ascii.N_of_ascii b) eqn:E; [| lia].
    destruct Hb. by rewrite <- (Ascii.ascii_N_embedding b), E.
  - apply list.Forall_cons in Hs as [Hb _]. rewrite str_compare_cons.
    assert (Ascii.N_of_ascii NUL < Ascii.N_of_ascii a)%N as Hlt.
    { change (Ascii.N_of_ascii NUL) with 0%N. destruct (Ascii.N_of_ascii a) eqn:E; [| lia].
      destruct Hb. by rewrite <- (Ascii.ascii_N_embedding a), E. }
    pose proof Hlt as ->%N.ltb_lt. by apply N.lt_le_incl, N.ltb_ge in Hlt as ->.
  - apply list.Forall_cons in Hs as [_ Hs]. apply list.Forall_cons in Hs' as [_ Hs'].
    rewrite !str_compare_cons, IH by done. by repeat case_match.
Qed.

Lemma digit_order a b :
  (a < 10)%N -> (b < 10)%N ->
  str_compare (String (digit a) "") (String (digit b) "") =
  (if (a <? b)%N then -1 else if (b <? a)%N then 1 else 0)%Z.
Proof.
  intros Ha Hb. rewrite str_compare_cons.
  assert (H : forall n, (n < 10)%N -> Ascii.N_of_ascii (digit n) = (48 + n)%N).
  { intros n Hn. rewrite <- (N2Nat.id n). assert (Hk : N.to_nat n < 10) by lia. revert Hk. generalize (N.to_nat n).
    intros k Hk. do 10 (destruct k as [| k]; [done |]). lia. }
  rewrite !H by done.
  destruct (N.ltb_spec (48 + a) (48 + b)), (N.ltb_spec a b), (N.ltb_spec (48 + b) (48 + a)), (N.ltb_spec b a); done || lia.
Qed.

Lemma digits_order w a b :
  (a < 10 ^ N.of_nat w)%N -> (b < 10 ^ N.of_nat w)%N ->
  str_compare (digits w a) (digits w b) = (if (a <? b)%N then -1 else if (b <? a)%N then 1 else 0)%Z.
Proof.
  revert a b. induction w as [| w IH]; intros a b Ha Hb.
  - assert (a = 0%N) as -> by (cbn in Ha; lia). assert (b = 0%N) as -> by (cbn in Hb; lia). done.
  - cbn [digits]. rewrite compare_append by (by rewrite !digits_length).
    rewrite Nat2N.inj_succ, N.pow_succ_r' in Ha, Hb.
    rewrite IH, digit_order by (first [apply N.Div0.div_lt_upper_bound; lia | apply N.mod_lt; lia]).
    pose proof (N.Div0.div_mod a 10). pose proof (N.Div0.div_mod b 10).
    pose proof (N.mod_lt a 10 ltac:(done)). pose proof (N.mod_lt b 10 ltac:(done)).
    clear IH Ha Hb. generalize dependent (a / 10)%N. generalize dependent (b / 10)%N.
    generalize dependent (a mod 10)%N. generalize dependent (b mod 10)%N. intros rb Hrb ra Hra qb Hb qa Ha.
    destruct (N.ltb_spec qa qb), (N.ltb_spec qb qa); cbn;
      destruct (N.ltb_spec ra rb), (N.ltb_spec rb ra), (N.ltb_spec a b), (N.ltb_spec b a); done || lia.
Qed.

End Text.
