(* ===== verification/Faults.v ===== *)
(** internal/faults/faults.go and internal/listerr/listerr.go: the causes read
    out of error messages, and the account of which resources could not be
    listed.  The expressions of [causes] are lists of alternatives, an
    alternative a list of pieces; [regexp] matches them without regard to case. *)

From S2P Require Import Prelude Text.

Module Faults.
Import Text.

(** A literal, [.*], or a quoted name captured as [$1]. *)
Inductive piece := Lit (text : string) | AnyStar | Quoted.

Definition lower_byte (c : Ascii.ascii) : Ascii.ascii :=
  let n := Ascii.N_of_ascii c in
  if (65 <=? n)%N && (n <=? 90)%N then Ascii.ascii_of_N (n + 32) else c.

Definition ascii_s : Ascii.ascii := Ascii.ascii_of_N 115.
Definition ascii_k : Ascii.ascii := Ascii.ascii_of_N 107.

(** The code points outside ASCII that fold to [s] and to [k]. *)
Definition longS : string := of_codes [197; 191]%N.
Definition kelvin : string := of_codes [226; 132; 170]%N.

Definition eat (c : Ascii.ascii) (s : string) : option string :=
  let other :=
    if bool_decide (lower_byte c = ascii_s) then strip_prefix longS s
    else if bool_decide (lower_byte c = ascii_k) then strip_prefix kelvin s
    else None in
  match s with
  | String d rest => if bool_decide (lower_byte c = lower_byte d) then Some rest else other
  | EmptyString => None
  end.

Fixpoint eat_all (text s : string) : option string :=
  match text with
  | EmptyString => Some s
  | String c text => rest ← eat c s; eat_all text rest
  end.

Definition quote : Ascii.ascii := Ascii.ascii_of_N 34.
Definition newline : Ascii.ascii := Ascii.ascii_of_N 10.

(** The rests of [s] that [.*] may leave. *)
Fixpoint skips (s : string) : list string :=
  s :: match s with
       | EmptyString => []
       | String c rest => if bool_decide (c = newline) then [] else skips rest
       end.

Fixpoint first_some {A B} (f : A -> option B) (l : list A) : option B :=
  match l with
  | [] => None
  | a :: l => match f a with Some b => Some b | None => first_some f l end
  end.

(** Matches at the start of [s]: what was captured. *)
Fixpoint match_pieces (ps : list piece) (captured s : string) : option string :=
  match ps with
  | [] => Some captured
  | Lit text :: ps => rest ← eat_all text s; match_pieces ps captured rest
  | AnyStar :: ps => first_some (match_pieces ps captured) (skips s)
  | Quoted :: ps =>
      match s with
      | String c rest =>
          if bool_decide (c = quote) then
            let '(name, after, found) := str_cut rest (String quote "") in
            if found && negb (bool_decide (name = "")) then match_pieces ps name after else None
          else None
      | EmptyString => None
      end
  end.

(** [FindStringSubmatchIndex]: the leftmost match, the first alternative of it. *)
Fixpoint search (alternatives : list (list piece)) (s : string) : option string :=
  match first_some (fun ps => match_pieces ps "" s) alternatives with
  | Some captured => Some captured
  | None => match s with EmptyString => None | String _ rest => search alternatives rest end
  end.

(** [ExpandString] of a template whose only variable is [$1]. *)
Fixpoint expand (template captured : string) : string :=
  match template with
  | String c rest =>
      match rest with
      | String d more =>
          if bool_decide (c = Ascii.ascii_of_N 36) && bool_decide (d = Ascii.ascii_of_N 49) then captured +s+ expand more captured
          else String c (expand rest captured)
      | EmptyString => template
      end
  | EmptyString => ""
  end.

Definition lits (l : list string) : list (list piece) := map (fun text => [Lit text]) l.

Definition causes : list (list (list piece) * string) := [
  (lits ["metadata.annotations: Too long"; "annotation is too large"; "exceeds the maximum"],
   "the manifest is too large for the last-applied annotation; sync with server-side apply");
  ([[Lit "admission webhook "; Quoted; Lit " denied the request"]], "the admission webhook $1 rejected it");
  (lits ["field is immutable"; "may not be changed"; "cannot change"],
   "an immutable field changed; sync with replace to recreate it");
  ([[Lit "is forbidden: User "; Quoted; Lit " cannot"]], "$1 may not write that resource");
  (lits ["is forbidden"; "forbidden:"], "argo cd may not write that resource");
  (lits ["Operation terminated"], "the operation was stopped");
  ([[Lit "namespaces "; Quoted; Lit " not found"]],
   "the destination namespace $1 does not exist; add CreateNamespace=true or create it in git");
  (lits ["error validating data"; "ValidationError"], "the manifest does not match the cluster's schema for that kind");
  ([[Lit "no matches for kind "; Quoted]; [Lit "the server could not find the requested resource"]],
   "the crd for that kind is missing or not ready");
  (lits ["authentication required"; "could not read Username"; "invalid credentials"; "401 Unauthorized"],
   "the repository refused argo cd's credentials");
  (lits ["repository not found"; "remote: Repository not found"; "unable to resolve"; "couldn't find remote ref"],
   "the repository or revision could not be resolved");
  (lits ["context deadline exceeded"; "dial tcp"; "connection refused"; "i/o timeout"; "TLS handshake"],
   "argo cd could not reach the cluster or the repository");
  ([[Lit "hook"; AnyStar; Lit "failed"]; [Lit "SyncFailed"]], "a sync hook failed");
  (lits ["another operation is already in progress"], "another operation is still running");
  ([[Lit "Timed out waiting"]; [Lit "health check"; AnyStar; Lit "timed out"]; [Lit "progressing deadline"]],
   "the resources were applied but never became healthy");
  ([[Lit "Resource "; AnyStar; Lit " not permitted in project"]; [Lit "is not permitted in project"]],
   "the appproject does not allow that resource");
  (lits ["Operation cannot be fulfilled"; "the object has been modified"],
   "something else changed the resource while argo cd was writing it")].

Definition Cause (message : string) : string :=
  if bool_decide (message = "") then ""
  else match first_some (fun '(match_, cause) =>
         captured ← search match_ message; Some (TrimSpace (expand cause captured))) causes with
       | Some cause => cause
       | None => ""
       end.

Definition quoted (s : string) : string := String quote (s +s+ String quote "").

Example cause_webhook :
  Cause ("x Admission WebHook " +s+ quoted "policy.io" +s+ " denied the request: no") =
  "the admission webhook policy.io rejected it".
Proof. by vm_compute. Qed.

Example cause_hook : Cause "post-sync HOOK job has Failed twice" = "a sync hook failed".
Proof. by vm_compute. Qed.

Example cause_none : Cause ("is fobidden: User " +s+ quoted "") = "".
Proof. by vm_compute. Qed.

End Faults.

Module Listerr.
Import Text.

Definition maxDetails : Z := 3.
Definition maxFailureSize : Z := 256.

Record Collector := MkCollector { attempted : gset string; failures : gmap string string }.

Definition New : Collector := MkCollector ∅ ∅.

Definition dots : string := "...".

(** [utf8.RuneStart(message[end])], for an [end] within the message. *)
Definition RuneStart (message : string) (end_ : nat) : bool :=
  match String.get end_ message with
  | Some c => negb (N.land (Ascii.N_of_ascii c) 192 =? 128)%N
  | None => true
  end.

Fixpoint back_to_rune (message : string) (end_ : nat) : nat :=
  match end_ with
  | O => O
  | S n => if RuneStart message end_ then end_ else back_to_rune message n
  end.

Definition shorten (message : string) : string :=
  if (strlen message <=? maxFailureSize)%Z then message
  else String.substring 0 (back_to_rune message (Z.to_nat (maxFailureSize - strlen dots))) message +s+ dots.

(** [Record]: [err] is the error's message, if there is one. *)
Definition Record_ (c : Collector) (resource : string) (err : option string) : Collector :=
  let c := MkCollector ({[resource]} ∪ attempted c) (failures c) in
  match err with
  | None => c
  | Some message => MkCollector (attempted c) (<[resource := shorten message]> (failures c))
  end.

Definition RecordPanic (c : Collector) (resource : string) (caught : bool) : Collector :=
  if negb caught then c else Record_ c resource (Some "spinoza could not finish reading this resource").

Definition Message (c : Collector) : string :=
  if bool_decide (failures c = ∅) then ""
  else
    let names := sort_by str_compare (map fst (map_to_list (failures c))) in
    let head := Itoa (zlen names) +s+ " of " +s+ Itoa (Z.of_nat (size (attempted c))) +s+
                " resource types could not be listed" in
    let shown := if (maxDetails <? zlen names)%Z then ztake maxDetails names else names in
    let details := map (fun name => name +s+ " (" +s+ default "" (failures c !! name) +s+ ")") shown in
    let message := head +s+ ": " +s+ Join "; " details in
    let remaining := (zlen names - zlen shown)%Z in
    if (0 <? remaining)%Z then message +s+ "; and " +s+ Itoa remaining +s+ " more" else message.

(** ** What the account says *)

Lemma back_to_rune_le message n : back_to_rune message n <= n.
Proof. induction n as [| n IH]; cbn; [done |]. case_match; lia. Qed.

Lemma substring_length s n : String.length (String.substring 0 n s) <= n.
Proof. revert s. induction n as [| n IH]; intros [| c s]; cbn; try lia. specialize (IH s). lia. Qed.

Lemma shorten_bounded message : (strlen (shorten message) <= maxFailureSize)%Z.
Proof.
  unfold shorten. destruct (Z.leb_spec (strlen message) maxFailureSize) as [H | H]; [done |].
  unfold strlen, maxFailureSize in *. rewrite append_length.
  change (Z.to_nat _) with 253. change (String.length dots) with 3.
  pose proof (substring_length message (back_to_rune message 253)). pose proof (back_to_rune_le message 253). lia.
Qed.

Lemma message_empty c : Message c = "" <-> failures c = ∅.
Proof.
  unfold Message. case_bool_decide as E; [done |]. split; [| done]. intros H. exfalso.
  cbn zeta in H. apply (f_equal String.length) in H.
  case_match; rewrite !append_length in H; cbn in H; lia.
Qed.

Lemma attempted_failures c resource err :
  dom (failures c) ⊆ attempted c -> dom (failures (Record_ c resource err)) ⊆ attempted (Record_ c resource err).
Proof. intros H. destruct err; cbn; set_solver. Qed.

End Listerr.
