(* ===== verification/Issues.v ===== *)
(** internal/issues/page.go, the ranking of fold.go and pagedQueue of
    server/views.go: how the rows of a diagnosis are ranked and counted, and how
    a client walks through the ranked rows page by page with an opaque cursor.
    [time.Parse] and [Format] are the class [RFC3339]. *)

From S2P Require Import Prelude Api Codec Text.

(** [time.Parse(time.RFC3339, text)] and [t.UTC().Format(time.RFC3339)]. *)
Class RFC3339 := {
  ParseTime : string -> option time;
  FormatTime : time -> string;
}.

Module Issues.
Import Api Codec Text.

Definition SeverityHigh : string := "high".
Definition SeverityMedium : string := "medium".
Definition SeverityLow : string := "low".

Definition severityWarning : Z := 1.
Definition severityDegraded : Z := 2.
Definition severityFatal : Z := 3.

Record IssueChild := MkChild {
  ch_Object : ObjectRef;
  ch_Kind : string;
  ch_Severity : string;
  ch_Detail : string;
  ch_Since : string;
}.

Record Issue := MkIssue {
  ID : string;
  Cluster : string;
  Severity : string;
  Detector : string;
  Title : string;
  Detail : string;
  Action : string;
  Change : string;
  ChangedAt : string;
  Uncertain : bool;
  Object : ObjectRef;
  Kind : string;
  Since : string;
  Folded : Z;
  Children : list IssueChild;
}.

Section times.
Context {Tm : RFC3339}.

Definition seenAt (text : string) : time := match ParseTime text with Some at_ => at_ | None => zeroTime end.

Definition stamp (at_ : time) : string := if IsZero at_ then "" else FormatTime at_.

(** ** Ranking *)

Definition severityRank (name : string) : Z :=
  if bool_decide (name = SeverityHigh) then severityFatal
  else if bool_decide (name = SeverityMedium) then severityDegraded
  else severityWarning.

Definition ByWorst : string := "worst".
Definition ByNewest : string := "newest".
Definition ByOldest : string := "oldest".

Definition OrderOf (asked : string) : string :=
  if bool_decide (asked = ByNewest) || bool_decide (asked = ByOldest) then asked else ByWorst.

Definition sameMoment (left right : Issue) : Z :=
  if bool_decide (Cluster left <> Cluster right) then str_compare (Cluster left) (Cluster right)
  else str_compare (ID left) (ID right).

Definition newestFirst (left right : Issue) : Z :=
  if negb (seenAt (Since left) =? seenAt (Since right))%Z
  then tcompare (seenAt (Since right)) (seenAt (Since left)) else sameMoment left right.

Definition oldestFirst (left right : Issue) : Z :=
  if negb (seenAt (Since left) =? seenAt (Since right))%Z
  then tcompare (seenAt (Since left)) (seenAt (Since right)) else sameMoment left right.

Definition worstFirst (left right : Issue) : Z :=
  if negb (severityRank (Severity left) =? severityRank (Severity right))%Z
  then (severityRank (Severity right) - severityRank (Severity left))%Z
  else if negb (Folded left =? Folded right)%Z then (Folded right - Folded left)%Z
  else if negb (seenAt (Since left) =? seenAt (Since right))%Z
  then tcompare (seenAt (Since right)) (seenAt (Since left))
  else if bool_decide (Cluster left <> Cluster right) then str_compare (Cluster left) (Cluster right)
  else str_compare (ID left) (ID right).

(** The comparison [Rank] sorts with. *)
Definition inOrder (order : string) : Issue -> Issue -> Z :=
  if bool_decide (order = ByNewest) then newestFirst
  else if bool_decide (order = ByOldest) then oldestFirst
  else worstFirst.

Definition Rank (rows : list Issue) (order : string) : list Issue := sort_by (inOrder order) rows.

(** ** Page keys and cursors *)

Definition foldCeiling : Z := 999999999.
Definition timeCeiling : Z := 9999999999.

Definition clamp (value ceiling : Z) : Z :=
  let value := if (value <? 0)%Z then 0%Z else value in
  if (ceiling <? value)%Z then ceiling else value.

Definition countUp (value ceiling : Z) : string :=
  zero_padded (strlen (Itoa ceiling)) (clamp value ceiling).

Definition countDown (value ceiling : Z) : string :=
  zero_padded (strlen (Itoa ceiling)) (ceiling - clamp value ceiling).

Definition secondsOf (at_ : time) : Z := if IsZero at_ then 0%Z else Unix at_.

Definition issueKey (row : Issue) (order : string) : string :=
  if bool_decide (order = ByNewest) then
    Join nul [countDown (secondsOf (seenAt (Since row))) timeCeiling; Cluster row; ID row]
  else if bool_decide (order = ByOldest) then
    Join nul [countUp (secondsOf (seenAt (Since row))) timeCeiling; Cluster row; ID row]
  else
    Join nul [Itoa (severityFatal - severityRank (Severity row)); countDown (Folded row) foldCeiling;
              countDown (secondsOf (seenAt (Since row))) timeCeiling; Cluster row; ID row].

Inductive cursorError := ErrInvalidCursor | ErrCursorOrder.

Definition EncodeCursor (key order : string) : string :=
  if bool_decide (key = "") then "" else EncodeToString (order +s+ nul +s+ key).

Definition DecodeCursor (cursor order : string) : result cursorError string :=
  if bool_decide (cursor = "") then Ok ""
  else match DecodeString cursor with
  | None => Err ErrInvalidCursor
  | Some raw =>
      let '(minted, key, found) := str_cut raw nul in
      if negb found || bool_decide (minted = "") || bool_decide (key = "") then Err ErrInvalidCursor
      else if bool_decide (minted <> order) then Err ErrCursorOrder
      else Ok key
  end.

Definition Shown : Z := 50.

Definition PageSize (shown : Z) : Z := if (shown <=? 0)%Z then Shown else shown.

(** [key <= after] on Go strings. *)
Definition not_after (key after : string) : bool := (str_compare key after <=? 0)%Z.

(** The loop of [Page]: what is out so far, its last key, the rows to come. *)
Fixpoint pageLoop (out : list Issue) (last : string) (rows : list Issue) (after : string) (limit : Z)
    (order : string) : list Issue * string :=
  match rows with
  | [] => (out, "")
  | row :: rows =>
      let key := issueKey row order in
      if not_after key after then pageLoop out last rows after limit order
      else if (zlen out =? limit)%Z then (out, EncodeCursor last order)
      else pageLoop (out ++ [row]) key rows after limit order
  end.

Definition Page (rows : list Issue) (after : string) (limit : Z) (order : string) : list Issue * string :=
  pageLoop [] "" rows after (PageSize limit) order.

Record IssueTally := MkTally { High : Z; Medium : Z; Low : Z; Total : Z }.

Definition Tally (rows : list Issue) : IssueTally :=
  fold_left (fun out row =>
    if bool_decide (Severity row = SeverityHigh) then MkTally (High out + 1) (Medium out) (Low out) (Total out)
    else if bool_decide (Severity row = SeverityMedium) then MkTally (High out) (Medium out + 1) (Low out) (Total out)
    else if bool_decide (Severity row = SeverityLow) then MkTally (High out) (Medium out) (Low out + 1) (Total out)
    else out) rows (MkTally 0 0 0 (zlen rows)).

Record IssueQueue := MkQueue { Rows : list Issue; Dropped : Z; q_Tally : option IssueTally; Next : string; q_Error : string }.

(** [pagedQueue] of the request's [sort], [after] and [shown]. *)
Definition pagedQueue (queue : IssueQueue) (sort after : string) (shown : Z) : result cursorError IssueQueue :=
  let order := OrderOf sort in
  match DecodeCursor after order with
  | Err e => Err e
  | Ok after =>
      let ranked := Rank (Rows queue) order in
      let '(rows, next) := Page ranked after (PageSize shown) order in
      Ok (MkQueue rows (Dropped queue) (Some (Tally ranked)) next (q_Error queue))
  end.

(** A client that asks for the next page until there is none. *)
Fixpoint walk (fuel : nat) (queue : IssueQueue) (sort after : string) (shown : Z) : option (list (list Issue)) :=
  match fuel with
  | O => None
  | S fuel =>
      match pagedQueue queue sort after shown with
      | Err _ => None
      | Ok page =>
          if bool_decide (Next page = "") then Some [Rows page]
          else match walk fuel queue sort (Next page) shown with
               | Some pages => Some (Rows page :: pages) | None => None end
      end
  end.

(** ** Keys sort as the rows rank *)

(** The rows whose keys say everything their rank looks at: a cluster's name
    without NUL, a count and a time in whole seconds within the key's ceilings. *)
Definition row_ok (row : Issue) : Prop :=
  no_nul (Cluster row) /\ (0 <= Folded row <= foldCeiling)%Z /\
  (seenAt (Since row) = zeroTime \/
   exists s, (0 < s <= timeCeiling)%Z /\ seenAt (Since row) = fromUnix s).

Lemma sgn_str_compare s t : Z.sgn (str_compare s t) = str_compare s t.
Proof. unfold str_compare. by destruct (String.compare s t). Qed.

Lemma tcompare_sub x y : tcompare y x = Z.sgn (y - x).
Proof. unfold tcompare, Before, After, time. zcases; [rewrite Z.sgn_neg | rewrite Z.sgn_pos | replace (y - x)%Z with 0%Z]; done || lia. Qed.

Lemma sgn_tcompare t u : Z.sgn (tcompare t u) = tcompare t u.
Proof. unfold tcompare. by repeat case_match. Qed.

Lemma clamp_id v ceiling : (0 <= v <= ceiling)%Z -> clamp v ceiling = v.
Proof. intros H. unfold clamp. replace (v <? 0)%Z with false by lia. by replace (ceiling <? v)%Z with false by lia. Qed.

Lemma padded_order (w : nat) a b :
  (0 < w) -> (0 <= a < 10 ^ Z.of_nat w)%Z -> (0 <= b < 10 ^ Z.of_nat w)%Z ->
  str_compare (zero_padded (Z.of_nat w) a) (zero_padded (Z.of_nat w) b) = tcompare a b /\
  String.length (zero_padded (Z.of_nat w) a) = w.
Proof.
  intros Hw Ha Hb. rewrite !zero_padded_digits by done. split; [| apply digits_length].
  assert (Hlt : forall z, (0 <= z < 10 ^ Z.of_nat w)%Z -> (Z.to_N z < 10 ^ N.of_nat w)%N).
  { intros z Hz. apply N2Z.inj_lt. rewrite Z2N.id, N2Z.inj_pow, nat_N_Z by lia. apply Hz. }
  rewrite digits_order by auto. unfold tcompare, Before, After.
  destruct (N.ltb_spec (Z.to_N a) (Z.to_N b)), (N.ltb_spec (Z.to_N b) (Z.to_N a)); zcases; lia || done.
Qed.

Lemma countDown_order (w : nat) ceiling a b :
  strlen (Itoa ceiling) = Z.of_nat w -> (0 < w) -> (ceiling < 10 ^ Z.of_nat w)%Z ->
  (0 <= a <= ceiling)%Z -> (0 <= b <= ceiling)%Z ->
  str_compare (countDown a ceiling) (countDown b ceiling) = tcompare b a /\
  String.length (countDown a ceiling) = w.
Proof.
  intros Hl Hw Hc Ha Hb. unfold countDown. rewrite Hl, !clamp_id by done.
  destruct (padded_order w (ceiling - a) (ceiling - b)) as [-> ->]; [done | lia | lia |].
  split; [| done]. unfold tcompare, Before, After. zcases; lia || done.
Qed.

Lemma countUp_order (w : nat) ceiling a b :
  strlen (Itoa ceiling) = Z.of_nat w -> (0 < w) -> (ceiling < 10 ^ Z.of_nat w)%Z ->
  (0 <= a <= ceiling)%Z -> (0 <= b <= ceiling)%Z ->
  str_compare (countUp a ceiling) (countUp b ceiling) = tcompare a b /\
  String.length (countUp a ceiling) = w.
Proof.
  intros Hl Hw Hc Ha Hb. unfold countUp. rewrite Hl, !clamp_id by done. apply padded_order; [done | lia | lia].
Qed.

Lemma seconds_ok row : row_ok row -> (0 <= secondsOf (seenAt (Since row)) <= timeCeiling)%Z.
Proof.
  intros (_ & _ & [-> | (s & Hs & ->)]); [done |]. unfold secondsOf.
  replace (IsZero (fromUnix s)) with false; [rewrite Unix_fromUnix; cbn -[timeCeiling]; lia |].
  symmetry. apply Z.eqb_neq. unfold fromUnix, unixEpoch. times. lia.
Qed.

Lemma seconds_order a b :
  row_ok a -> row_ok b ->
  tcompare (secondsOf (seenAt (Since a))) (secondsOf (seenAt (Since b))) =
  tcompare (seenAt (Since a)) (seenAt (Since b)).
Proof.
  assert (Hz : forall s, (0 < s)%Z -> IsZero (fromUnix s) = false).
  { intros s Hs. apply Z.eqb_neq. unfold fromUnix, unixEpoch. times. lia. }
  intros (_ & _ & [-> | (s & Hs & ->)]) (_ & _ & [-> | (s' & Hs' & ->)]); unfold secondsOf;
    rewrite ?Hz, ?Unix_fromUnix by lia; [done | | |];
    unfold tcompare, fromUnix, unixEpoch; times; cbn; zcases; lia || done.
Qed.

Lemma tcompare_zero t u : (tcompare t u =? 0)%Z = (t =? u)%Z.
Proof. unfold tcompare, Before, After. zcases; lia || done. Qed.

(** One fixed-width part of a key, then a NUL. *)
Lemma compare_part s s' t t' :
  String.length s = String.length s' ->
  str_compare (s +s+ nul +s+ t) (s' +s+ nul +s+ t') =
  (if str_compare s s' =? 0 then str_compare t t' else str_compare s s')%Z.
Proof. intros Hl. rewrite compare_append by done. by rewrite (compare_append nul nul). Qed.

Lemma compare_tail a b :
  no_nul (Cluster a) -> no_nul (Cluster b) ->
  str_compare (Cluster a +s+ nul +s+ ID a) (Cluster b +s+ nul +s+ ID b) = sameMoment a b.
Proof.
  intros Ha Hb. rewrite compare_nul by done. unfold sameMoment.
  destruct (Z.eqb_spec (str_compare (Cluster a) (Cluster b)) 0) as [E | E].
  - apply str_compare_eq in E. rewrite bool_decide_false; [done |]. by intros Hn.
  - rewrite bool_decide_true; [done |]. intros Hn. by apply E, str_compare_eq.
Qed.

Lemma sgn_sameMoment a b : Z.sgn (sameMoment a b) = sameMoment a b.
Proof. unfold sameMoment. case_match; apply sgn_str_compare. Qed.

Lemma digit_part i j :
  (0 <= i <= 2)%Z -> (0 <= j <= 2)%Z ->
  str_compare (Itoa i) (Itoa j) = tcompare i j /\ String.length (Itoa i) = 1.
Proof.
  intros Hi Hj. assert (i = 0 \/ i = 1 \/ i = 2)%Z as [-> | [-> | ->]] by lia;
    (assert (j = 0 \/ j = 1 \/ j = 2)%Z as [-> | [-> | ->]] by lia; by vm_compute).
Qed.

Lemma rank_range name : (1 <= severityRank name <= 3)%Z.
Proof. unfold severityRank, severityFatal, severityDegraded, severityWarning. repeat case_match; lia. Qed.

Lemma key_order order a b :
  row_ok a -> row_ok b -> str_compare (issueKey a order) (issueKey b order) = Z.sgn (inOrder order a b).
Proof.
  intros Ha Hb. pose proof (seconds_ok _ Ha) as Hsa. pose proof (seconds_ok _ Hb) as Hsb.
  pose proof Ha as (Hca & Hfa & _). pose proof Hb as (Hcb & Hfb & _).
  assert (Hdown : forall x y, row_ok x -> row_ok y ->
    str_compare (countDown (secondsOf (seenAt (Since x))) timeCeiling) (countDown (secondsOf (seenAt (Since y))) timeCeiling)
      = tcompare (seenAt (Since y)) (seenAt (Since x)) /\
    String.length (countDown (secondsOf (seenAt (Since x))) timeCeiling) = 10).
  { intros x y Hx Hy. destruct (countDown_order 10 timeCeiling (secondsOf (seenAt (Since x))) (secondsOf (seenAt (Since y))))
      as [-> ->]; try done; try (by apply seconds_ok); try lia. split; [by apply seconds_order | done]. }
  destruct (Hdown a b Ha Hb) as [Hd Hda]. destruct (Hdown b a Hb Ha) as [_ Hdb].
  destruct (countUp_order 10 timeCeiling (secondsOf (seenAt (Since a))) (secondsOf (seenAt (Since b))))
    as [Hu Hua]; [done | lia | done | done | done |].
  destruct (countUp_order 10 timeCeiling (secondsOf (seenAt (Since b))) (secondsOf (seenAt (Since a))))
    as [_ Hub]; [done | lia | done | done | done |].
  rewrite seconds_order in Hu by done.
  unfold issueKey, inOrder. case_bool_decide; [| case_bool_decide]; cbn [Join String.concat].
  - rewrite compare_part, Hd, compare_tail, tcompare_zero by (congruence || done). unfold newestFirst.
    rewrite (Z.eqb_sym (seenAt (Since a))). destruct (_ =? _)%Z; cbn;
      [by rewrite sgn_sameMoment | by rewrite sgn_tcompare].
  - rewrite compare_part, Hu, compare_tail, tcompare_zero by (congruence || done). unfold oldestFirst.
    destruct (_ =? _)%Z; cbn; [by rewrite sgn_sameMoment | by rewrite sgn_tcompare].
  - destruct (digit_part (severityFatal - severityRank (Severity a)) (severityFatal - severityRank (Severity b)))
      as [Hs Hsl]; [pose proof (rank_range (Severity a)); unfold severityFatal; lia
                   | pose proof (rank_range (Severity b)); unfold severityFatal; lia |].
    destruct (digit_part (severityFatal - severityRank (Severity b)) (severityFatal - severityRank (Severity a)))
      as [_ Hsl']; [pose proof (rank_range (Severity b)); unfold severityFatal; lia
                   | pose proof (rank_range (Severity a)); unfold severityFatal; lia |].
    destruct (countDown_order 9 foldCeiling (Folded a) (Folded b)) as [Hf Hfl]; [done | lia | done | done | done |].
    destruct (countDown_order 9 foldCeiling (Folded b) (Folded a)) as [_ Hfl']; [done | lia | done | done | done |].
    rewrite !compare_part, Hs, Hf, Hd, compare_tail, !tcompare_zero by (congruence || done).
    unfold worstFirst. fold (sameMoment a b). rewrite (Z.eqb_sym (Folded a)), (Z.eqb_sym (seenAt (Since a))).
    generalize (rank_range (Severity a)) (rank_range (Severity b)).
    generalize (severityRank (Severity a)) (severityRank (Severity b)). intros ra rb _ _.
    destruct (Z.eqb_spec (severityFatal - ra) (severityFatal - rb)), (Z.eqb_spec ra rb); try lia; cbn.
    + destruct (Z.eqb_spec (Folded b) (Folded a)); cbn; [| by apply tcompare_sub].
      destruct (_ =? _)%Z; cbn; [by rewrite sgn_sameMoment | by rewrite sgn_tcompare].
    + rewrite <- tcompare_sub. unfold tcompare, Before, After, time. zcases; lia || done.
Qed.

(** ** Walking the pages *)

Lemma join_more x y l : Join nul (x :: y :: l) = (x +s+ nul +s+ Join nul (y :: l)).
Proof. done. Qed.

Lemma key_nonempty row order : issueKey row order <> "".
Proof.
  assert (H : forall s t, (s +s+ nul +s+ t) <> "").
  { intros s t Heq. apply (f_equal String.length) in Heq. rewrite !append_length in Heq. cbn in Heq. lia. }
  unfold issueKey. repeat case_match; rewrite join_more; apply H.
Qed.

Lemma cut_order order key :
  no_nul order -> str_cut (order +s+ nul +s+ key) nul = (order, key, true).
Proof.
  intros H. pose proof (str_cut_first NUL (String.list_ascii_of_string order) key) as Hc.
  rewrite String.string_of_list_ascii_of_string in Hc. apply Hc. exact H.
Qed.

Lemma OrderOf_cases sort : OrderOf sort = ByNewest \/ OrderOf sort = ByOldest \/ OrderOf sort = ByWorst.
Proof. unfold OrderOf. repeat case_bool_decide; subst; cbn; auto. Qed.

Lemma encode_nonempty s : s <> "" -> EncodeToString s <> "".
Proof. intros Hs E. pose proof (base64_roundtrip s) as H. rewrite E in H. vm_compute in H. congruence. Qed.

(** What a cursor gives back, under its own order and under another. *)
Lemma cursor_decodes key order order' :
  no_nul order -> order <> "" ->
  DecodeCursor (EncodeCursor key order) order' =
  if bool_decide (key = "" \/ order = order') then Ok key else Err ErrCursorOrder.
Proof.
  intros Hn Ho. unfold EncodeCursor. case_bool_decide as Ek; [subst; by rewrite bool_decide_true by auto |].
  unfold DecodeCursor. rewrite bool_decide_false.
  2: { apply encode_nonempty. intros E. apply (f_equal String.length) in E. rewrite !append_length in E. cbn in E. lia. }
  rewrite base64_roundtrip, cut_order by done. cbn [negb orb].
  rewrite (bool_decide_false (order = "")), (bool_decide_false (key = "")) by done. cbn [orb].
  destruct (decide (order = order')) as [E | E].
  - rewrite bool_decide_false by (by intros Hne). by rewrite bool_decide_true by auto.
  - rewrite bool_decide_true by done. rewrite bool_decide_false; [done |]. by intros [? | ?].
Qed.

Lemma comparator_ext {A} (c d : A -> A -> Z) : (forall x y, c x y = d x y) -> Comparator d -> Comparator c.
Proof. intros H [H1 H2]. split; intros *; rewrite !H; [apply H1 | apply H2]. Qed.

Definition by_moment : Issue -> Issue -> Z := cmp_then (cmp_on Cluster str_compare) (cmp_on ID str_compare).

Lemma sameMoment_eq a b : sameMoment a b = by_moment a b.
Proof.
  unfold sameMoment, by_moment, cmp_then, cmp_on.
  destruct (Z.eqb_spec (str_compare (Cluster a) (Cluster b)) 0) as [E | E].
  - apply str_compare_eq in E. rewrite bool_decide_false; [done |]. by intros Hn.
  - rewrite bool_decide_true; [done |]. intros Hn. by apply E, str_compare_eq.
Qed.

#[local] Instance latest_ok : Comparator (fun x y => tcompare y x).
Proof. split; intros; [apply (cmp_flip (Comparator := tcompare_ok)) | by eapply (cmp_trans (Comparator := tcompare_ok))]. Qed.

#[local] Instance inOrder_ok order : Comparator (inOrder order).
Proof.
  unfold inOrder. case_bool_decide; [| case_bool_decide].
  - apply (comparator_ext _ (cmp_then (cmp_on (fun r => seenAt (Since r)) (fun x y => tcompare y x)) by_moment));
      [| unfold by_moment; apply _].
    intros x y. unfold newestFirst, cmp_then, cmp_on. rewrite tcompare_zero, (Z.eqb_sym (seenAt (Since x))).
    destruct (_ =? _)%Z; cbn; [by rewrite sameMoment_eq | done].
  - apply (comparator_ext _ (cmp_then (cmp_on (fun r => seenAt (Since r)) tcompare) by_moment));
      [| unfold by_moment; apply _].
    intros x y. unfold oldestFirst, cmp_then, cmp_on. rewrite tcompare_zero.
    destruct (_ =? _)%Z; cbn; [by rewrite sameMoment_eq | done].
  - apply (comparator_ext _ (cmp_then (cmp_on (fun r => severityRank (Severity r)) cmp_desc)
      (cmp_then (cmp_on Folded cmp_desc)
        (cmp_then (cmp_on (fun r => seenAt (Since r)) (fun x y => tcompare y x)) by_moment))));
      [| unfold by_moment; apply _].
    intros x y. unfold worstFirst. fold (sameMoment x y). unfold cmp_then, cmp_on, cmp_desc.
    rewrite tcompare_zero, (Z.eqb_sym (seenAt (Since x))), sameMoment_eq.
    assert (Hsub : forall m n, (n - m =? 0)%Z = (m =? n)%Z) by (intros; zcases; lia || done).
    rewrite !Hsub. by repeat (destruct (_ =? _)%Z; cbn).
Qed.

(** The key of the last row of a list, or what there was before. *)
Definition last_key (before : string) (rows : list Issue) (order : string) : string :=
  fold_left (fun _ row => issueKey row order) rows before.

Lemma last_key_snoc before rows row order : last_key before (rows ++ [row]) order = issueKey row order.
Proof. unfold last_key. by rewrite fold_left_app. Qed.

Lemma pageLoop_skip out last rows rest after limit order :
  Forall (fun row => not_after (issueKey row order) after = true) rows ->
  pageLoop out last (rows ++ rest) after limit order = pageLoop out last rest after limit order.
Proof. induction 1 as [| row rows Hr _ IH]; [done |]. cbn. by rewrite Hr. Qed.

Lemma pageLoop_take out last rows after limit order :
  Forall (fun row => not_after (issueKey row order) after = false) rows -> (zlen out <= limit)%Z ->
  pageLoop out last rows after limit order =
  let n := Z.to_nat (limit - zlen out) in
  (out ++ take n rows,
   if (zlen rows <=? limit - zlen out)%Z then "" else EncodeCursor (last_key last (take n rows) order) order).
Proof.
  intros Hf. revert out last. induction Hf as [| row rows Hr _ IH]; intros out last Hl; cbn zeta.
  - cbn [pageLoop]. rewrite take_nil, app_nil_r, zlen_nil. by replace (0 <=? limit - zlen out)%Z with true by lia.
  - cbn [pageLoop]. rewrite Hr, zlen_cons. destruct (Z.eqb_spec (zlen out) limit) as [E | E].
    + pose proof (zlen_nonneg rows). replace (1 + zlen rows <=? limit - zlen out)%Z with false by lia.
      replace (Z.to_nat (limit - zlen out)) with 0 by lia. by rewrite take_0, app_nil_r.
    + rewrite IH by (rewrite zlen_app, zlen_cons, zlen_nil; lia). rewrite zlen_app, zlen_cons, zlen_nil, Z.add_0_r. cbn zeta.
      replace (Z.to_nat (limit - zlen out)) with (S (Z.to_nat (limit - (zlen out + 1)))) by lia.
      cbn [take]. rewrite <- app_assoc. f_equal. cbn [last_key fold_left].
      replace (zlen rows <=? limit - (zlen out + 1))%Z with (1 + zlen rows <=? limit - zlen out)%Z; [done |].
      zcases; lia || done.
Qed.

(** Strictly increasing keys. *)
Definition increasing (rows : list Issue) (order : string) : Prop :=
  StronglySorted (fun a b => (str_compare (issueKey a order) (issueKey b order) < 0)%Z) rows.

Lemma increasing_split rows rest order :
  increasing (rows ++ rest) order ->
  Forall (fun row => not_after (issueKey row order) (last_key "" rows order) = true) rows /\
  Forall (fun row => not_after (issueKey row order) (last_key "" rows order) = false) rest.
Proof.
  unfold increasing. destruct rows as [| row rows _] using rev_ind.
  - intros _. split; [constructor |]. apply list.Forall_forall. intros row _. cbn. unfold not_after.
    pose proof (key_nonempty row order). destruct (issueKey row order) as [| c s]; [done |]. done.
  - rewrite last_key_snoc. intros H. rewrite <- app_assoc in H. cbn in H.
    assert (Hbefore : Forall (fun r => (str_compare (issueKey r order) (issueKey row order) < 0)%Z) rows).
    { clear -H. induction rows as [| r rows IH]; [constructor |]. cbn in H.
      apply StronglySorted_inv in H as [H Hr]. constructor; [| by apply IH].
      apply Forall_app in Hr as [_ Hr]. by apply list.Forall_cons in Hr as [? _]. }
    assert (Hafter : Forall (fun r => (str_compare (issueKey row order) (issueKey r order) < 0)%Z) rest).
    { clear -H. induction rows as [| r rows IH]; cbn in H.
      - by apply StronglySorted_inv in H as [_ H].
      - apply IH. by apply StronglySorted_inv in H as [H _]. }
    unfold not_after. split.
    + apply Forall_app. split; [| repeat constructor; by rewrite str_compare_refl].
      eapply List.Forall_impl; [| exact Hbefore]. cbn. intros r Hr. lia.
    + eapply List.Forall_impl; [| exact Hafter]. cbn. intros r Hr.
      rewrite str_compare_flip. apply Z.leb_gt. lia.
Qed.

(** No two rows are about the same object of the same cluster. *)
Definition distinct (rows : list Issue) : Prop := NoDup (map (fun row => (Cluster row, ID row)) rows).

Lemma inOrder_zero order a b : inOrder order a b = 0%Z -> Cluster a = Cluster b /\ ID a = ID b.
Proof.
  assert (Hm : sameMoment a b = 0%Z -> Cluster a = Cluster b /\ ID a = ID b).
  { unfold sameMoment. case_bool_decide as E; rewrite str_compare_eq; [done |].
    intros ->. split; [| done]. by destruct (decide (Cluster a = Cluster b)). }
  assert (Ht : forall t u, tcompare t u = 0%Z -> (t =? u)%Z = true) by (intros t u E; by rewrite <- tcompare_zero, E).
  unfold inOrder. case_bool_decide; [| case_bool_decide].
  - unfold newestFirst. destruct (_ =? _)%Z eqn:E; cbn [negb]; [exact Hm |]. intros Hc%Ht. rewrite Z.eqb_sym in Hc. congruence.
  - unfold oldestFirst. destruct (_ =? _)%Z eqn:E; cbn [negb]; [exact Hm |]. intros Hc%Ht. congruence.
  - unfold worstFirst. fold (sameMoment a b).
    destruct (Z.eqb_spec (severityRank (Severity a)) (severityRank (Severity b))); cbn [negb]; [| lia].
    destruct (Z.eqb_spec (Folded a) (Folded b)); cbn [negb]; [| lia].
    destruct (_ =? _)%Z eqn:E; cbn [negb]; [exact Hm |]. intros Hc%Ht. rewrite Z.eqb_sym in Hc. congruence.
Qed.

Lemma ranked_increasing rows order :
  Forall row_ok rows -> distinct rows -> increasing (Rank rows order) order.
Proof.
  intros Hok Hd. assert (Hp : Rank rows order ≡ₚ rows) by apply sort_by_perm.
  assert (Hok' : Forall row_ok (Rank rows order)) by (by rewrite Hp).
  assert (Hd' : distinct (Rank rows order)) by (unfold distinct; by rewrite Hp).
  assert (Hs : StronglySorted (cmp_le (inOrder order)) (Rank rows order)) by (apply sort_by_sorted, _).
  clear Hp Hok Hd. unfold increasing. induction Hs as [| a l Hl IH Ha]; constructor.
  - apply list.Forall_cons in Hok' as [_ Hok']. apply IH; [done |]. by apply list.NoDup_cons in Hd' as [_ ?].
  - apply list.Forall_cons in Hok' as [Hoka Hok']. apply list.NoDup_cons in Hd' as [Hna _].
    rewrite list.Forall_forall in Ha, Hok' |- *. intros b Hb. rewrite key_order by auto.
    specialize (Ha b Hb). unfold cmp_le in Ha. destruct (decide (inOrder order a b = 0%Z)) as [E | E].
    + apply inOrder_zero in E as [E1 E2]. destruct Hna. rewrite E1, E2. apply map_elem. by exists b.
    + apply Z.sgn_neg_iff. lia.
Qed.

Lemma PageSize_pos shown : (0 < PageSize shown)%Z.
Proof. unfold PageSize, Shown. zcases; lia. Qed.

Lemma PageSize_again shown : PageSize (PageSize shown) = PageSize shown.
Proof. pose proof (PageSize_pos shown). unfold PageSize at 1. by replace (PageSize shown <=? 0)%Z with false by lia. Qed.

Lemma last_key_app a b order : last_key "" (a ++ b) order = last_key (last_key "" a order) b order.
Proof. unfold last_key. apply fold_left_app. Qed.

Lemma walk_from fuel queue sort shown done_ rest :
  let order := OrderOf sort in
  let rows := Rows queue in
  Rank rows order = done_ ++ rest -> increasing (Rank rows order) order -> length rest < fuel ->
  exists pages, walk fuel queue sort (EncodeCursor (last_key "" done_ order) order) shown = Some pages /\
    concat pages = rest /\ Forall (fun page => (zlen page <= PageSize shown)%Z) pages.
Proof.
  cbn zeta. set (order := OrderOf sort). set (rows := Rows queue). revert done_ rest. induction fuel as [| fuel IH]; intros d rest Hr Hinc Hlt; [lia |].
  assert (Hn : no_nul order /\ order <> "").
  { unfold order. destruct (OrderOf_cases sort) as [-> | [-> | ->]]; (split; [repeat constructor | done]); done. }
  destruct Hn as [Hn Ho]. cbn [walk]. unfold pagedQueue. fold order. fold rows.
  rewrite cursor_decodes, bool_decide_true by auto. unfold Page. rewrite PageSize_again.
  pose proof (PageSize_pos shown) as Hpos. rewrite Hr in Hinc. destruct (increasing_split _ _ _ Hinc) as [H1 H2].
  rewrite Hr, pageLoop_skip, pageLoop_take by (done || (rewrite zlen_nil; lia)). cbn zeta.
  rewrite zlen_nil, Z.sub_0_r, app_nil_l. set (n := Z.to_nat (PageSize shown)).
  assert (Hpage : (zlen (take n rest) <= PageSize shown)%Z).
  { unfold zlen. rewrite length_take. unfold n. lia. }
  destruct (Z.leb_spec (zlen rest) (PageSize shown)) as [Hle | Hgt].
  - rewrite bool_decide_true by done. exists [take n rest]. split; [done |]. split; [| by repeat constructor].
    cbn. rewrite app_nil_r, take_ge; [done |]. unfold zlen in Hle. unfold n. lia.
  - assert (Hne : take n rest <> []).
    { destruct rest as [| r rest']; [rewrite zlen_nil in Hgt; lia |]. unfold n.
      by replace (Z.to_nat (PageSize shown)) with (S (Z.to_nat (PageSize shown - 1))) by lia. }
    assert (Hkey : last_key "" (take n rest) order <> "").
    { destruct (take n rest) as [| x l _] using rev_ind; [done |]. rewrite last_key_snoc. apply key_nonempty. }
    rewrite bool_decide_false.
    2: { unfold EncodeCursor. rewrite bool_decide_false by done. apply encode_nonempty. intros E.
         apply (f_equal String.length) in E. rewrite !append_length in E. cbn in E. lia. }
    assert (Hk : last_key "" (take n rest) order = last_key "" (d ++ take n rest) order).
    { rewrite last_key_app. destruct (take n rest) as [| x l _] using rev_ind; [done |]. by rewrite !last_key_snoc. }
    rewrite Hk. cbn [Next Rows].
    destruct (IH (d ++ take n rest) (skipn n rest)) as (pages & -> & Hc & Hf).
    + rewrite Hr, <- app_assoc. f_equal. symmetry. apply firstn_skipn.
    + by rewrite Hr.
    + rewrite length_skipn. destruct rest; [rewrite zlen_nil in Hgt; lia |]. cbn in *. unfold n. lia.
    + exists (take n rest :: pages). split; [done |]. split; [| by constructor]. cbn. rewrite Hc. apply firstn_skipn.
Qed.

Lemma walk_all queue sort shown :
  Forall row_ok (Rows queue) -> distinct (Rows queue) ->
  exists pages, walk (S (length (Rows queue))) queue sort "" shown = Some pages /\
    concat pages = Rank (Rows queue) (OrderOf sort) /\
    Forall (fun page => (zlen page <= PageSize shown)%Z) pages.
Proof.
  intros Hok Hd. apply (walk_from _ queue sort shown [] (Rank (Rows queue) (OrderOf sort))).
  - done.
  - by apply ranked_increasing.
  - unfold Rank. rewrite sort_by_length. lia.
Qed.

Lemma tally_counts rows t :
  let out := fold_left (fun out row =>
    if bool_decide (Severity row = SeverityHigh) then MkTally (High out + 1) (Medium out) (Low out) (Total out)
    else if bool_decide (Severity row = SeverityMedium) then MkTally (High out) (Medium out + 1) (Low out) (Total out)
    else if bool_decide (Severity row = SeverityLow) then MkTally (High out) (Medium out) (Low out + 1) (Total out)
    else out) rows t in
  High out = (High t + counted (fun r => bool_decide (Severity r = SeverityHigh)) rows)%Z /\
  Medium out = (Medium t + counted (fun r => bool_decide (Severity r = SeverityMedium)) rows)%Z /\
  Low out = (Low t + counted (fun r => bool_decide (Severity r = SeverityLow)) rows)%Z /\
  Total out = Total t.
Proof.
  cbn zeta. revert t. induction rows as [| row rows IH]; intros t; cbn [fold_left].
  - unfold counted, zlen. cbn. lia.
  - rewrite !counted_cons. destruct (IH (if bool_decide (Severity row = SeverityHigh)
      then MkTally (High t + 1) (Medium t) (Low t) (Total t)
      else if bool_decide (Severity row = SeverityMedium) then MkTally (High t) (Medium t + 1) (Low t) (Total t)
      else if bool_decide (Severity row = SeverityLow) then MkTally (High t) (Medium t) (Low t + 1) (Total t)
      else t)) as (-> & -> & -> & ->). clear IH.
    unfold SeverityHigh, SeverityMedium, SeverityLow. unfold one.
    repeat case_bool_decide; subst; cbn; try congruence; lia.
Qed.

Definition beyond (key order : string) (rows : list Issue) : list Issue :=
  List.filter (fun row => negb (not_after (issueKey row order) key)) rows.

Lemma pageLoop_beyond out last rows key limit order :
  pageLoop out last rows key limit order = pageLoop out last (beyond key order rows) key limit order.
Proof.
  unfold beyond. revert out last. induction rows as [| row rows IH]; intros out last; [done |]. cbn.
  destruct (not_after (issueKey row order) key) eqn:E; cbn; [done |]. rewrite E. by destruct (zlen out =? limit)%Z.
Qed.

Lemma Page_spec rows key limit order :
  Page rows key limit order =
  let after := beyond key order rows in
  let shown := ztake (PageSize limit) after in
  (shown, if (zlen after <=? PageSize limit)%Z then "" else EncodeCursor (last_key "" shown order) order).
Proof.
  unfold Page. rewrite pageLoop_beyond, pageLoop_take; cbn zeta; rewrite ?zlen_nil, ?Z.sub_0_r; [done | |].
  - apply list.Forall_forall. intros row [_ Hr]%filter_elem. by destruct (not_after _ _).
  - pose proof (PageSize_pos limit). lia.
Qed.

Lemma beyond_nothing order rows : beyond "" order rows = rows.
Proof.
  unfold beyond. induction rows as [| row rows IH]; [done |]. cbn [List.filter].
  assert (not_after (issueKey row order) "" = false) as ->; [| cbn; by rewrite IH].
  unfold not_after. pose proof (key_nonempty row order) as Hk. destruct (issueKey row order); done.
Qed.

(** What a marker is made of: the order it was minted under, which holds no NUL,
    a NUL, and the key it stands after, neither empty. *)
Definition marker (cursor minted key : string) : Prop :=
  DecodeString cursor = Some (minted +s+ nul +s+ key) /\ no_nul minted /\ minted <> "" /\ key <> "".

Lemma cut_before s before after : str_cut s nul = (before, after, true) -> no_nul before.
Proof.
  unfold no_nul. revert before. induction s as [| c s IH]; intros before; cbn [str_cut]; [done |].
  destruct (strip_prefix nul (String c s)) as [rest |] eqn:E; [intros [= <- <-]; constructor |].
  destruct (str_cut s nul) as [[b a] f] eqn:Ec. intros [= <- <- ->]. cbn. apply list.Forall_cons. split; [| by apply IH].
  intros ->. unfold nul, strip_prefix in E. cbn in E. done.
Qed.

Lemma marker_decodes cursor minted key order :
  marker cursor minted key ->
  DecodeCursor cursor order = if bool_decide (minted = order) then Ok key else Err ErrCursorOrder.
Proof.
  intros (Hd & Hn & Hm & Hk). unfold DecodeCursor. rewrite bool_decide_false.
  - rewrite Hd, cut_order by done. cbn [negb orb].
    rewrite (bool_decide_false (minted = "")), (bool_decide_false (key = "")) by done. cbn [orb].
    destruct (decide (minted = order)) as [E | E]; [by rewrite (bool_decide_true (minted = order)), bool_decide_false by auto |].
    by rewrite (bool_decide_false (minted = order)), bool_decide_true by done.
  - intros ->. vm_compute in Hd. destruct minted; [done |]. by injection Hd.
Qed.

Lemma malformed_decodes cursor order :
  cursor <> "" -> (forall minted key, ~ marker cursor minted key) -> DecodeCursor cursor order = Err ErrInvalidCursor.
Proof.
  intros Hc Hno. unfold DecodeCursor. rewrite bool_decide_false by done.
  destruct (DecodeString cursor) as [raw |] eqn:Hd; [| done].
  destruct (str_cut raw nul) as [[minted key] found] eqn:Ec. destruct found; [| done]. cbn [negb orb].
  destruct (decide (minted = "")) as [-> | Hm]; [done |]. destruct (decide (key = "")) as [-> | Hk].
  - rewrite (bool_decide_true ("" = "")) by done. by rewrite orb_true_r.
  - destruct (Hno minted key). split; [by rewrite <- (str_cut_found _ _ _ _ Ec) |]. by split; [eapply cut_before |].
Qed.

(** The first page of the rows left, with a marker if it is not all of them. *)
Definition page_among (queue : IssueQueue) (order : string) (shown : Z) (left : list Issue) : IssueQueue :=
  let page := ztake (PageSize shown) left in
  MkQueue page (Dropped queue) (Some (Tally (Rank (Rows queue) order)))
    (if (zlen left <=? PageSize shown)%Z then "" else EncodeCursor (last_key "" page order) order)
    (q_Error queue).

(** C39: the answer for any text given as a page marker.  Without one the page is
    the first of all the rows in rank order.  A marker minted under another sort
    order is refused as such, and under its own order it gives at most a page of
    the rows that rank beyond its key, in rank order, with a marker for what is
    left if anything is; the tally is of all rows, whatever the page.  Every other
    text is refused as invalid: one that is no base64, has no NUL, or names no
    order or no key.  What [EncodeCursor] makes of a key is a marker. *)
Theorem page_of_cursor queue sort shown cursor :
  let order := OrderOf sort in
  let ranked := Rank (Rows queue) order in
  (cursor = "" -> pagedQueue queue sort cursor shown = Ok (page_among queue order shown ranked)) /\
  (forall minted key, marker cursor minted key ->
    pagedQueue queue sort cursor shown =
    if bool_decide (minted = order) then Ok (page_among queue order shown (beyond key order ranked)) else Err ErrCursorOrder) /\
  (cursor <> "" -> (forall minted key, ~ marker cursor minted key) ->
    pagedQueue queue sort cursor shown = Err ErrInvalidCursor) /\
  (forall key minted, key <> "" -> minted ∈ [ByWorst; ByNewest; ByOldest] -> marker (EncodeCursor key minted) minted key).
Proof.
  intros order ranked.
  assert (Hpage : forall key, DecodeCursor cursor order = Ok key ->
    pagedQueue queue sort cursor shown = Ok (page_among queue order shown (beyond key order ranked))).
  { intros key Hd. unfold pagedQueue. fold order. rewrite Hd, Page_spec, PageSize_again. done. }
  split; [| split; [| split]].
  - intros ->. rewrite (Hpage ""), beyond_nothing; done.
  - intros minted key Hm. pose proof (marker_decodes _ _ _ order Hm) as Hd. case_bool_decide; [by apply Hpage |].
    unfold pagedQueue. fold order. by rewrite Hd.
  - intros Hc Hno. unfold pagedQueue. by rewrite malformed_decodes.
  - intros key minted Hk Ho. unfold marker, EncodeCursor. rewrite bool_decide_false, base64_roundtrip by done.
    repeat (apply list.elem_of_cons in Ho as [-> | Ho]); [.. | by apply elem_of_nil in Ho];
      (split; [done |]; split; [repeat constructor; done | done]).
Qed.

(** C22: a client that follows the markers from the first page to the last sees
    every row exactly once, in rank order, in pages no longer than it asked for,
    and it is done after at most one request more than there are rows. *)
Theorem pages_cover queue sort shown :
  Forall row_ok (Rows queue) -> distinct (Rows queue) ->
  exists pages, walk (S (length (Rows queue))) queue sort "" shown = Some pages /\
    concat pages ≡ₚ Rows queue /\
    StronglySorted (cmp_le (inOrder (OrderOf sort))) (concat pages) /\
    Forall (fun page => (zlen page <= PageSize shown)%Z) pages.
Proof.
  intros Hok Hd. destruct (walk_all queue sort shown Hok Hd) as (pages & Hw & Hc & Hf).
  exists pages. rewrite Hc. split; [done |]. split; [apply sort_by_perm |]. split; [apply sort_by_sorted, _ | done].
Qed.

End times.

(** Times of a toy format, a row, and a diagnosis of three rows. *)
Definition plain_times : RFC3339 := {|
  ParseTime s := if bool_decide (s = "t1") then Some (fromUnix 10) else if bool_decide (s = "t2") then Some (fromUnix 20) else None;
  FormatTime t := if (t =? fromUnix 10)%Z then "t1" else "t2";
|}.

Definition plain_row (id severity_ since_ : string) : Issue :=
  MkIssue id "" severity_ "" "" "" "" "" "" false (MkObjectRef "" "" "" "" id) "" since_ 0 [].

Definition three_rows : IssueQueue :=
  MkQueue [plain_row "a" SeverityLow "t1"; plain_row "b" SeverityHigh "t2"; plain_row "c" SeverityHigh "t1"] 0 None "" "".

Lemma page_of_cursor_witness :
  ("k" : string) <> "" /\
  @pagedQueue plain_times three_rows "oldest" (EncodeCursor "k" ByNewest) 2 = Err ErrCursorOrder.
Proof.
  split; [done |]. destruct (@page_of_cursor plain_times three_rows "oldest" 2 (EncodeCursor "k" ByNewest)) as (_ & H & _ & Hm).
  rewrite (H ByNewest "k"); [by rewrite bool_decide_false by done |]. apply (Hm "k" ByNewest); [discriminate | right; left].
Defined.

Lemma pages_cover_witness :
  Forall (@row_ok plain_times) (Rows three_rows) /\
  @walk plain_times 2 three_rows "worst" "" 1 = None /\
  exists pages, @walk plain_times 4 three_rows "worst" "" 1 = Some pages /\ concat pages ≡ₚ Rows three_rows.
Proof.
  assert (Hok : Forall (@row_ok plain_times) (Rows three_rows)).
  { repeat (apply list.Forall_cons; split); [.. | constructor];
      (split; [constructor |]; split; [done |]; right);
      [exists 10%Z | exists 20%Z | exists 10%Z]; done. }
  split; [done |]. split; [by vm_compute |].
  destruct (@pages_cover plain_times three_rows "worst" 1) as (pages & Hw & Hp & _);
    [exact Hok | | exists pages; split; [exact Hw | exact Hp]].
  repeat (apply list.NoDup_cons; split; [set_solver |]). apply NoDup_nil_2.
Defined.

End Issues.
