(* ===== verification/Symptoms.v ===== *)
(** internal/issues: what is wrong with one object, read out of its fields
    (pods.go, workloads.go, autoscalers.go, and the symptoms of cluster.go and
    gitops.go), what changed it last (change.go), and the snapshot of the
    cluster these reads look owners up in (source.go).  The accessors of
    apimachinery's objects that [Unstructured] does not have are the class
    [Meta]. *)

From S2P Require Import Prelude Api Codec Text Unstr Faults Issues.

(** [GetOwnerReferences] gives, of each reference, the uid and whether its
    [Controller] is set and true. *)
Class Meta (U : Type) := {
  GetOwnerReferences : U -> list (string * bool);
  GetDeletionTimestamp : U -> option time;
  GetCreationTimestamp : U -> time;
  GetAnnotation : U -> string -> string;
  GetGeneration : U -> Z;
  GetFinalizers : U -> list string;
}.

Module Symptoms.
Import Api Text Unstr Faults Issues.

(** ** Durations *)

(** [d.Round(m)] for a positive [m]: to the nearest multiple, halves away from
    zero. *)
Definition Round (d m : duration) : duration :=
  let r := Z.rem d m in
  if (d <? 0)%Z then
    let r := (- r)%Z in
    if (r + r <? m)%Z then (d + r)%Z
    else let d1 := wrap64 (d - m + r) in if (d1 <? d)%Z then d1 else minDuration
  else if (r + r <? m)%Z then (d - r)%Z
  else let d1 := wrap64 (d + m - r) in if (d <? d1)%Z then d1 else maxDuration.

(** [d.Abs()]. *)
Definition Abs (d : duration) : duration :=
  if (0 <=? d)%Z then d else if (d =? minDuration)%Z then maxDuration else (- d)%Z.

Definition durationLabel (elapsed : duration) : string :=
  let elapsed := if (elapsed <? 0)%Z then 0%Z else elapsed in
  let seconds := (elapsed ÷ Second)%Z in
  if (seconds <? 60)%Z then Itoa seconds +s+ "s"
  else let minutes := (seconds ÷ 60)%Z in
  if (minutes <? 60)%Z then Itoa minutes +s+ "m"
  else let hours := (minutes ÷ 60)%Z in
  if (hours <? 24)%Z then Itoa hours +s+ "h"
  else Itoa (hours ÷ 24) +s+ "d".

(** ** Limits *)

Record Limits := MkLimits {
  l_Budget : duration;
  l_StallBudget : duration;
  l_StallGrace : duration;
  l_ReadyGrace : duration;
  l_Rows : Z;
  l_Children : Z;
  l_Candidates : Z;
  l_Fallback : Z;
  l_Readers : Z;
  l_StallReader : Z;
}.

Definition MaxRows : Z := 500.
Definition defaultBudget : duration := (20 * Second)%Z.
Definition defaultStallBudget : duration := (5 * Second)%Z.
Definition defaultStallGrace : duration := (5 * Minute)%Z.
Definition defaultStuckGrace : duration := (5 * Minute)%Z.
Definition defaultReadyGrace : duration := (2 * Minute)%Z.
Definition defaultRows : Z := MaxRows.
Definition defaultChildren : Z := 50.
Definition defaultCandidates : Z := 20.
Definition defaultFallback : Z := 25.
Definition defaultReaders : Z := 12.
Definition defaultStallReaders : Z := 8.

Definition or_default (asked default : Z) : Z := if (asked <=? 0)%Z then default else asked.

Definition orDefaults (l : Limits) : Limits :=
  MkLimits (or_default (l_Budget l) defaultBudget) (or_default (l_StallBudget l) defaultStallBudget)
    (or_default (l_StallGrace l) defaultStallGrace) (or_default (l_ReadyGrace l) defaultReadyGrace)
    (or_default (l_Rows l) defaultRows) (or_default (l_Children l) defaultChildren)
    (or_default (l_Candidates l) defaultCandidates) (or_default (l_Fallback l) defaultFallback)
    (or_default (l_Readers l) defaultReaders) (or_default (l_StallReader l) defaultStallReaders).

(** ** Runes *)

Definition in_range (lo hi : N) (c : Ascii.ascii) : bool :=
  (lo <=? Ascii.N_of_ascii c)%N && (Ascii.N_of_ascii c <=? hi)%N.

Definition continues (s : string) : bool := match s with String c _ => in_range 128 191 c | EmptyString => false end.

(** How many bytes the rune at the start of a string takes, if they encode one. *)
Definition rune_width (s : string) : option nat :=
  match s with
  | EmptyString => None
  | String a s1 =>
      if in_range 0 127 a then Some 1
      else match s1 with
      | EmptyString => None
      | String b s2 =>
          if in_range 194 223 a then if in_range 128 191 b then Some 2 else None
          else if (in_range 224 224 a && in_range 160 191 b) || (in_range 237 237 a && in_range 128 159 b)
               || ((in_range 225 236 a || in_range 238 239 a) && in_range 128 191 b)
          then if continues s2 then Some 3 else None
          else if (in_range 240 240 a && in_range 144 191 b) || (in_range 244 244 a && in_range 128 143 b)
               || (in_range 241 243 a && in_range 128 191 b)
          then match s2 with
               | String c s3 => if in_range 128 191 c && continues s3 then Some 4 else None
               | EmptyString => None
               end
          else None
      end
  end.

Definition replacement : string := of_codes [239; 191; 189]%N.

(** [[]rune(s)], each rune as its encoding; a byte that encodes none is U+FFFD. *)
Fixpoint runes_from (fuel : nat) (s : string) : list string :=
  match fuel, s with
  | S fuel, String _ rest =>
      match rune_width s with
      | Some n => String.substring 0 n s :: runes_from fuel (String.substring n (String.length s - n) s)
      | None => replacement :: runes_from fuel rest
      end
  | _, _ => []
  end.

Definition runes (s : string) : list string := runes_from (String.length s) s.

(** [strings.LastIndexAny(s, "@:")] and the text after it. *)
Fixpoint after_last (s best : string) : string :=
  match s with
  | EmptyString => best
  | String c rest =>
      after_last rest (if bool_decide (c = Ascii.ascii_of_N 64) || bool_decide (c = Ascii.ascii_of_N 58) then rest else best)
  end.

Definition shortSHA : Z := 7.

Definition shortened (revision : string) : string :=
  let trimmed := after_last revision revision in
  let rs := runes trimmed in
  if (shortSHA * 2 <? zlen rs)%Z then String.concat "" (ztake shortSHA rs) else trimmed.

Example shortened_sha : shortened "main@sha1:0123456789abcdef0" = "0123456".
Proof. by vm_compute. Qed.

Section symptoms.
Context {Tm : RFC3339} {U : Type} `{!Unstructured U} `{!Meta U}.

(** ** Kinds and groups *)

Definition kindPod : string := "Pod".
Definition kindDeployment : string := "Deployment".
Definition kindReplicaSet : string := "ReplicaSet".
Definition kindStatefulSet : string := "StatefulSet".
Definition kindDaemonSet : string := "DaemonSet".
Definition kindJob : string := "Job".
Definition kindReplicationController : string := "ReplicationController".
Definition kindCronJob : string := "CronJob".

Definition appsGroup : string := "apps".
Definition batchGroup : string := "batch".
Definition autoscalingGroup : string := "autoscaling".
Definition argoGroup : string := "argoproj.io".
Definition fluxSuffix : string := ".toolkit.fluxcd.io".

Definition isFluxGroup (group : string) : bool :=
  (strlen fluxSuffix <? strlen group)%Z && has_suffix group fluxSuffix.

(** ** Objects and the snapshot *)

Record object := MkObject { obj : U; desc : ResourceDescriptor }.

Definition ref (item : object) : ObjectRef :=
  MkObjectRef (rd_Group (desc item)) (rd_Version (desc item)) (rd_Resource (desc item))
    (GetNamespace (obj item)) (GetName (obj item)).

Definition uid (item : object) : string := GetUID (obj item).

Record snapshot := MkSnapshot {
  byUID : gmap string object;
  byKind : gmap string (list object);
  byOwner : gmap string (list object);
  failures : Listerr.Collector;
}.

Definition newSnapshot : snapshot := MkSnapshot ∅ ∅ ∅ Listerr.New.

Definition of_ (snap : snapshot) (group kind : string) : list object :=
  default [] (byKind snap !! (group +s+ "/" +s+ kind)).

(** The first reference that controls decides. *)
Fixpoint controller_in (byUID : gmap string object) (refs : list (string * bool)) : option object :=
  match refs with
  | [] => None
  | (u, controls) :: refs => if negb controls then controller_in byUID refs else byUID !! u
  end.

Definition controllerOf (snap : snapshot) (item : object) : option object :=
  controller_in (byUID snap) (GetOwnerReferences (obj item)).

Definition maxOwnerDepth : nat := 4.

Fixpoint owner_loop (n : nat) (snap : snapshot) (current : object) : object :=
  match n with
  | O => current
  | S n => match controllerOf snap current with None => current | Some next => owner_loop n snap next end
  end.

Definition owner (snap : snapshot) (item : object) : object := owner_loop maxOwnerDepth snap item.

Fixpoint controller_uid (refs : list (string * bool)) : string :=
  match refs with
  | [] => ""
  | (u, controls) :: refs => if negb controls then controller_uid refs else u
  end.

Definition controllerUID (u : U) : string := controller_uid (GetOwnerReferences u).

Definition children (snap : snapshot) (uid : string) : list object := default [] (byOwner snap !! uid).

Definition hold_one (d : ResourceDescriptor) (snap : snapshot) (item : U) : snapshot :=
  let entry := MkObject item d in
  let key := rd_Group d +s+ "/" +s+ rd_Kind d in
  let held := controllerUID item in
  MkSnapshot (<[uid entry := entry]> (byUID snap))
    (<[key := default [] (byKind snap !! key) ++ [entry]]> (byKind snap))
    (if bool_decide (held = "") then byOwner snap
     else <[held := default [] (byOwner snap !! held) ++ [entry]]> (byOwner snap))
    (failures snap).

Definition hold (snap : snapshot) (d : ResourceDescriptor) (found : list U) : snapshot :=
  fold_left (hold_one d) found snap.

(** ** Conditions *)

Definition conditionTrue : string := "True".
Definition conditionFalse : string := "False".

Definition conditionOf (u : U) (name : string) : option amap :=
  conditionOfType name (USlice u ["status"; "conditions"]).

Definition seen_or (fallback : time) (text : string) : time :=
  match ParseTime text with Some at_ => at_ | None => fallback end.

Definition conditionSince (u : U) (name : string) : time :=
  match conditionOf u name with
  | None => GetCreationTimestamp u
  | Some entry => seen_or (GetCreationTimestamp u) (At entry "lastTransitionTime")
  end.

Definition conditionIsTrue (u : U) (name : string) : bool :=
  match conditionOf u name with
  | None => false
  | Some entry => bool_decide (At entry "status" = conditionTrue)
  end.

Definition or_text (text fallback : string) : string := if bool_decide (text = "") then fallback else text.

Definition reasonOr (entry : amap) (fallback : string) : string := or_text (At entry "reason") fallback.

Definition messageOrText (message fallback : string) : string := or_text message fallback.

(** The separator of [explained] is an em dash between spaces. *)
Definition emDash : string := of_codes [32; 226; 128; 148; 32]%N.

Definition explained (message fallback : string) : string :=
  let cause := Cause message in
  if bool_decide (cause = "") then messageOrText message fallback
  else if bool_decide (message = "") then cause
  else cause +s+ emDash +s+ message.

Definition messageOr (entry : amap) (fallback : string) : string := explained (At entry "message") fallback.

(** ** What changed last *)

Definition revisionAnnotation : string := "deployment.kubernetes.io/revision".

Record change := MkChange { what : string; at_ : time }.

Definition no_change : change := MkChange "" zeroTime.

(** The maps among the entries of a list; [raw.(map[string]any)] of the others fails. *)
Definition entries (l : list any) : list amap := omap (fun raw => asMap (Some raw)) l.

Definition newestCondition (u : U) : time :=
  fold_left (fun newest entry =>
    match ParseTime (At entry "lastTransitionTime") with
    | None => newest
    | Some at_ => if After at_ newest then at_ else newest
    end) (entries (USlice u ["status"; "conditions"])) zeroTime.

Definition transitionOf (u : U) : time :=
  let newest := newestCondition u in if IsZero newest then GetCreationTimestamp u else newest.

Definition generationChange (u : U) : change :=
  let generation := GetGeneration u in
  if (generation =? 0)%Z then no_change else MkChange ("generation " +s+ Itoa generation) (transitionOf u).

Definition revisionChange (u : U) (revision : string) : change :=
  if bool_decide (revision = "") then generationChange u
  else MkChange ("revision " +s+ shortened revision) (transitionOf u).

Definition revisionText (u : U) : string :=
  let revision := GetAnnotation u revisionAnnotation in
  if bool_decide (revision = "") then "rolled out" else "revision " +s+ revision.

Definition replicaSetChange (snap : snapshot) (item : object) : change :=
  let revision := GetAnnotation (obj item) revisionAnnotation in
  let at_ := GetCreationTimestamp (obj item) in
  if negb (bool_decide (revision = "")) then MkChange ("revision " +s+ revision) at_
  else match controllerOf snap item with
  | None => MkChange "replica set created" at_
  | Some own => MkChange (revisionText (obj own)) at_
  end.

Definition newestReplicaSet (snap : snapshot) (own : object) : option object :=
  fold_left (fun best candidate =>
    if bool_decide (rd_Kind (desc candidate) <> kindReplicaSet) then best
    else match best with
    | None => Some candidate
    | Some b => if After (GetCreationTimestamp (obj candidate)) (GetCreationTimestamp (obj b))
                then Some candidate else best
    end) (children snap (uid own)) None.

Definition deploymentChange (snap : snapshot) (item : object) : change :=
  match newestReplicaSet snap item with
  | None => generationChange (obj item)
  | Some newest => replicaSetChange snap newest
  end.

Definition changeOf (snap : snapshot) (item : object) : change :=
  let kind := rd_Kind (desc item) in
  if bool_decide (kind = kindReplicaSet) then replicaSetChange snap item
  else if bool_decide (kind = kindDeployment) then deploymentChange snap item
  else if bool_decide (kind = kindStatefulSet) then revisionChange (obj item) (UString (obj item) ["status"; "updateRevision"])
  else if bool_decide (kind = kindDaemonSet) then generationChange (obj item)
  else if bool_decide (kind = kindJob) then MkChange "job created" (GetCreationTimestamp (obj item))
  else no_change.

Definition rolloutOf (snap : snapshot) (item : object) : change :=
  match controllerOf snap item with None => no_change | Some own => changeOf snap own end.

(** ** Pods *)

Record symptom := MkSymptom { s_severity : Z; s_title : string; s_detail : string; s_action : string }.

Definition phaseFailed : string := "Failed".
Definition phaseSucceeded : string := "Succeeded".
Definition titleCrashLoop : string := "CrashLoopBackOff".

Definition containerStatusFields : list string :=
  ["initContainerStatuses"; "containerStatuses"; "ephemeralContainerStatuses"].

Definition imageReasons : list string :=
  ["ImagePullBackOff"; "ErrImagePull"; "InvalidImageName"; "RegistryUnavailable"; "ImageInspectError"].

Definition configReasons : list string :=
  ["CreateContainerConfigError"; "CreateContainerError"; "RunContainerError"; "StartError"].

Definition containerLine (name message reason : string) : string :=
  "container " +s+ name +s+ ": " +s+ (if bool_decide (message <> "") then message else reason).

Definition crashDetail (name : string) (entry : amap) : string :=
  let detail := "container " +s+ name +s+ " keeps exiting" in
  match asMap (aget entry "lastState") with
  | None => detail
  | Some last =>
      match asMap (aget last "terminated") with
      | None => detail
      | Some terminated =>
          let detail := match asInt (aget terminated "exitCode") with
            | Some code => detail +s+ " with exit code " +s+ Itoa code | None => detail end in
          let reason := At terminated "reason" in
          let detail := if bool_decide (reason <> "") && bool_decide (reason <> "Error")
            then detail +s+ " (" +s+ reason +s+ ")" else detail in
          match asInt (aget entry "restartCount") with
          | Some restarts => if (0 <? restarts)%Z then detail +s+ ", restarted " +s+ Itoa restarts +s+ " times" else detail
          | None => detail
          end
      end
  end.

Definition crashSymptom (name : string) (entry : amap) : symptom :=
  MkSymptom severityFatal titleCrashLoop (crashDetail name entry) "read the container's logs".

Definition crashing (terminated entry : amap) : bool :=
  match asInt (aget terminated "exitCode") with
  | None => false
  | Some code =>
      if (code =? 0)%Z then false
      else match asInt (aget entry "restartCount") with None => false | Some restarts => (0 <? restarts)%Z end
  end.

Definition terminatedSymptom (name : string) (terminated entry : amap) : option symptom :=
  let reason := At terminated "reason" in
  if bool_decide (reason = "OOMKilled") then
    Some (MkSymptom severityFatal reason ("container " +s+ name +s+ " was killed for exceeding its memory limit")
            "raise the memory limit, or make it hold less")
  else if negb (crashing terminated entry) then None
  else Some (crashSymptom name entry).

Definition waitingSymptom (name : string) (waiting entry : amap) : option symptom :=
  let reason := At waiting "reason" in
  let message := At waiting "message" in
  if bool_decide (reason = titleCrashLoop) then Some (crashSymptom name entry)
  else if contains imageReasons reason then
    Some (MkSymptom severityFatal reason (containerLine name message reason) "check the image name, tag and pull secret")
  else if contains configReasons reason then
    Some (MkSymptom severityFatal reason (containerLine name message reason)
            "check the referenced ConfigMap, Secret and command")
  else None.

Definition containerSymptomOf (entry : amap) : option symptom :=
  let name := At entry "name" in
  match asMap (aget entry "state") with
  | None => None
  | Some state =>
      match asMap (aget state "waiting") with
      | Some waiting => waitingSymptom name waiting entry
      | None =>
          match asMap (aget state "terminated") with
          | Some terminated => terminatedSymptom name terminated entry
          | None => None
          end
      end
  end.

(** The statuses of all containers, in the order the fields are read. *)
Definition containerStatuses (pod : U) : list amap :=
  flat_map (fun field => entries (USlice pod ["status"; field])) containerStatusFields.

Definition worstContainerSymptom (pod : U) : option symptom :=
  fold_left (fun best entry =>
    match containerSymptomOf entry with
    | None => best
    | Some found =>
        match best with
        | None => Some found
        | Some b => if (s_severity b <? s_severity found)%Z then Some found else best
        end
    end) (containerStatuses pod) None.

Definition failedPodSymptom (pod : U) : symptom :=
  MkSymptom severityFatal (or_text (UString pod ["status"; "reason"]) "PodFailed")
    (or_text (UString pod ["status"; "message"]) "the pod reached the Failed phase")
    "delete it, or fix what its controller creates".

Fixpoint unschedulable_in (conditions : list amap) : option symptom :=
  match conditions with
  | [] => None
  | entry :: rest =>
      if bool_decide (At entry "type" <> "PodScheduled") || bool_decide (At entry "status" = "True")
      then unschedulable_in rest
      else Some (MkSymptom severityFatal "Unschedulable" (or_text (At entry "message") "no node accepted the pod")
                   "free capacity, relax the affinity or tolerate the taint")
  end.

Definition unschedulableSymptom (pod : U) : option symptom :=
  unschedulable_in (entries (USlice pod ["status"; "conditions"])).

Definition podSymptom (pod : U) : option symptom :=
  match GetDeletionTimestamp pod with
  | Some _ => None
  | None =>
      let phase := UString pod ["status"; "phase"] in
      if bool_decide (phase = phaseSucceeded) then None
      else match worstContainerSymptom pod with
      | Some worstFault => Some worstFault
      | None => if bool_decide (phase = phaseFailed) then Some (failedPodSymptom pod) else unschedulableSymptom pod
      end
  end.

Definition lastExit (pod : U) : time :=
  fold_left (fun newest entry =>
    match asMap (aget entry "lastState") with
    | None => newest
    | Some last =>
        match asMap (aget last "terminated") with
        | None => newest
        | Some terminated =>
            match ParseTime (At terminated "finishedAt") with
            | Some at_ => if After at_ newest then at_ else newest
            | None => newest
            end
        end
    end) (containerStatuses pod) zeroTime.

Definition podBoundAt (pod : U) : time := seen_or (GetCreationTimestamp pod) (UString pod ["status"; "startTime"]).

Definition podSince (pod : U) : time :=
  let broke := lastExit pod in
  let moved := newestCondition pod in
  let broke := if After moved broke then moved else broke in
  if negb (IsZero broke) then broke else podBoundAt pod.

(** ** Workloads *)

Definition titleShortOfReplicas : string := "NotEnoughReplicas".

Definition replicaCounts (u : U) (kind : string) : Z * Z :=
  if bool_decide (kind = kindDaemonSet)
  then (UInt u ["status"; "numberReady"], UInt u ["status"; "desiredNumberScheduled"])
  else (UInt u ["status"; "readyReplicas"], UInt u ["spec"; "replicas"]).

Definition WorkloadUnhealthy (u : U) (kind : string) : bool :=
  if contains [kindDeployment; kindStatefulSet; kindReplicaSet; kindReplicationController] kind
  then (UInt u ["status"; "readyReplicas"] <? UInt u ["spec"; "replicas"])%Z
  else if bool_decide (kind = kindDaemonSet)
  then (UInt u ["status"; "numberReady"] <? UInt u ["status"; "desiredNumberScheduled"])%Z
  else if bool_decide (kind = kindJob) then conditionIsTrue u "Failed"
  else false.

Definition shortOfReplicas (u : U) (kind : string) (now : time) (limits : Limits) : option symptom :=
  let '(ready, want) := replicaCounts u kind in
  if (want <=? ready)%Z then None
  else if (tsub now (transitionOf u) <? l_ReadyGrace limits)%Z then None
  else Some (MkSymptom (if (ready =? 0)%Z then severityFatal else severityDegraded) titleShortOfReplicas
    (Itoa ready +s+ " of " +s+ Itoa want +s+ " replicas ready for longer than " +s+ durationLabel (l_ReadyGrace limits))
    "look at the pods it owns").

Definition admissionTitle (reason message : string) : string :=
  if str_contains message "exceeded quota" then "BlockedByQuota"
  else if str_contains message "admission webhook" then "BlockedByWebhook"
  else if str_contains message "violates PodSecurity" then "BlockedByPodSecurity"
  else or_text reason "ReplicaFailure".

(** The condition [name] when its status is [status]. *)
Definition condition_at (u : U) (name status : string) : option amap :=
  entry ← conditionOf u name; if bool_decide (At entry "status" = status) then Some entry else None.

Definition replicaFailure (u : U) : option symptom :=
  entry ← condition_at u "ReplicaFailure" conditionTrue;
  let message := or_text (At entry "message") "the controller could not create its pods" in
  Some (MkSymptom severityFatal (admissionTitle (At entry "reason") message) message
          "fix what the message names, then let it retry").

Definition jobSymptom (u : U) : option symptom :=
  entry ← condition_at u "Failed" conditionTrue;
  Some (MkSymptom severityFatal "JobFailed" (or_text (At entry "message") "the job gave up after its retries")
          "read the failed pod's logs, then delete the job to retry").

Definition progressStalled (u : U) : option symptom :=
  entry ← condition_at u "Progressing" conditionFalse;
  Some (MkSymptom (if (UInt u ["status"; "availableReplicas"] =? 0)%Z then severityFatal else severityDegraded)
    (reasonOr entry "RolloutStalled") (or_text (At entry "message") "the rollout stopped making progress")
    "look at the newest replica set's pods").

(** The first of two answers there is. *)
Definition or_else {A} (m k : option A) : option A := match m with Some a => Some a | None => k end.

Definition workloadSymptom (u : U) (kind : string) (now : time) (limits : Limits) : option symptom :=
  match GetDeletionTimestamp u with
  | Some _ => None
  | None =>
      or_else (replicaFailure u)
        (if bool_decide (kind = kindJob) then jobSymptom u
         else or_else (progressStalled u) (shortOfReplicas u kind now limits))
  end.

(** ** Autoscalers *)

Definition metricsUnreadable (u : U) : option symptom :=
  entry ← condition_at u "ScalingActive" conditionFalse;
  if bool_decide (At entry "reason" = "ScalingDisabled") then None
  else Some (MkSymptom severityDegraded (reasonOr entry "NoMetrics")
    (messageOr entry "the autoscaler cannot read the metric it scales on")
    "check metrics-server or the custom metrics adapter").

Definition scalingDisabled (u : U) : option symptom :=
  entry ← condition_at u "AbleToScale" conditionFalse;
  Some (MkSymptom severityDegraded (reasonOr entry "CannotScale")
    (messageOr entry "the autoscaler is not able to change the replica count")
    "check that the scale target exists and is scalable").

Definition replicasPinned (u : U) : option symptom :=
  let low := UInt u ["spec"; "minReplicas"] in
  let high := UInt u ["spec"; "maxReplicas"] in
  if (low =? 0)%Z || negb (low =? high)%Z then None
  else Some (MkSymptom severityWarning "Pinned"
    ("minReplicas and maxReplicas are both " +s+ Itoa low +s+ ", so it cannot scale")
    "widen the range, or drop the autoscaler").

Definition atMaximum (u : U) : option symptom :=
  let high := UInt u ["spec"; "maxReplicas"] in
  let current := UInt u ["status"; "currentReplicas"] in
  if (high =? 0)%Z || (current <? high)%Z then None
  else if negb (conditionIsTrue u "ScalingLimited") then None
  else Some (MkSymptom severityWarning "AtMaximum"
    ("running at maxReplicas " +s+ Itoa high +s+ " and still asking for more")
    "raise maxReplicas, or find out why each replica is loaded").

Definition autoscalerSymptom (u : U) : option symptom :=
  or_else (metricsUnreadable u) (or_else (scalingDisabled u) (or_else (replicasPinned u) (atMaximum u))).

(** ** Nodes, claims, certificates and what does not go away *)

Definition nodePressures : list (string * string) := [
  ("MemoryPressure", "the node is short of memory");
  ("DiskPressure", "the node is short of disk");
  ("PIDPressure", "the node is short of process ids");
  ("NetworkUnavailable", "the node's network is not configured")].

Definition nodeNotReady (node : U) : option symptom :=
  entry ← conditionOf node "Ready";
  let status := At entry "status" in
  if bool_decide (status = conditionTrue) then None
  else if bool_decide (status <> conditionFalse)
  then Some (MkSymptom severityDegraded (reasonOr entry "NodeNotReady")
         (messageOr entry "the kubelet has stopped reporting at all") "check the kubelet on this node")
  else Some (MkSymptom severityFatal (reasonOr entry "NodeNotReady")
         (messageOr entry "the kubelet is not reporting the node as ready") "check the kubelet on this node").

(** [pressures] is [nodePressures] in the order the iteration takes. *)
Fixpoint nodeUnderPressure (pressures : list (string * string)) (node : U) : option symptom :=
  match pressures with
  | [] => None
  | (name, meaning) :: pressures =>
      match condition_at node name conditionTrue with
      | None => nodeUnderPressure pressures node
      | Some entry => Some (MkSymptom severityDegraded name (messageOr entry meaning)
                              "free what the node is short of, or move work off it")
      end
  end.

Definition nodeCordoned (node : U) : option symptom :=
  if negb (UBool node ["spec"; "unschedulable"]) then None
  else Some (MkSymptom severityWarning "Cordoned" "the node takes no new pods until it is uncordoned"
               "uncordon it when whatever it was cordoned for is done").

Definition nodeSymptom (pressures : list (string * string)) (node : U) : option symptom :=
  or_else (nodeNotReady node) (or_else (nodeUnderPressure pressures node) (nodeCordoned node)).

Definition claimSymptom (claim : U) : option symptom :=
  match GetDeletionTimestamp claim with
  | Some _ => None
  | None =>
      let phase := UString claim ["status"; "phase"] in
      if bool_decide (phase = "Pending") then
        Some (MkSymptom severityFatal "ClaimPending"
          "the volume has not been provisioned, so every pod that wants it stays Pending"
          "check the StorageClass and its provisioner")
      else if bool_decide (phase = "Lost") then
        Some (MkSymptom severityFatal "ClaimLost" "the volume behind this claim is gone"
          "restore the volume, or recreate the claim and its data")
      else None
  end.

Definition expiryWarning : duration := (21 * 24 * Hour)%Z.

Definition expirySymptom (u : U) (now : time) : option symptom :=
  at_ ← ParseTime (UString u ["status"; "notAfter"]);
  let left := tsub at_ now in
  if (expiryWarning <? left)%Z then None
  else if (left <=? 0)%Z then
    Some (MkSymptom severityFatal "Expired"
      ("the certificate expired " +s+ durationLabel (Round (Abs left) Hour) +s+ " ago")
      "renew it, and find out why the issuer did not")
  else Some (MkSymptom severityDegraded "ExpiringSoon"
      ("the certificate is valid for another " +s+ durationLabel (Round left Hour))
      "check the issuer is renewing it").

Definition defaultGraceSeconds : Z := 30.
Definition graceOf (u : U) (kind : string) : duration :=
  if bool_decide (kind <> kindPod) then defaultStuckGrace
  else
    let seconds := UInt u ["spec"; "terminationGracePeriodSeconds"] in
    let seconds := if (seconds <=? 0)%Z then defaultGraceSeconds else seconds in
    wrap64 (wrap64 (seconds * Second) + defaultStuckGrace).

Definition finalizersOf (u : U) : string := match GetFinalizers u with [] => "" | held :: _ => held end.

Definition stuckDetail (u : U) (deleted now : time) : string :=
  let detail := "asked to go " +s+ durationLabel (Round (tsub now deleted) Minute) +s+ " ago and still here" in
  let held := finalizersOf u in
  if bool_decide (held = "") then detail else detail +s+ ", held by " +s+ held.

Definition terminatingSymptom (u : U) (kind : string) (now : time) : option symptom :=
  at_ ← GetDeletionTimestamp u;
  if (tsub now at_ <? graceOf u kind)%Z then None
  else Some (MkSymptom severityWarning "StuckTerminating" (stuckDetail u at_ now)
    "find what still holds it: a finalizer, or a container that will not stop").

(** ** Flux and Argo CD *)

Definition fluxSymptom (u : U) : option symptom :=
  match condition_at u "Stalled" conditionTrue with
  | Some stalled =>
      Some (MkSymptom severityFatal (reasonOr stalled "Stalled") (messageOr stalled "flux stopped retrying this object")
              "fix what the message names, then reconcile it")
  | None =>
      ready ← conditionOf u "Ready";
      if bool_decide (At ready "status" = conditionTrue) then None
      else Some (MkSymptom (if bool_decide (At ready "status" = conditionFalse) then severityFatal else severityDegraded)
             (reasonOr ready "NotReady") (messageOr ready "the object has not become ready")
             "reconcile it, then read what comes back")
  end.

Fixpoint first_revision (u : U) (paths : list (list string)) : string :=
  match paths with
  | [] => ""
  | path :: paths =>
      let found := UString u path in if bool_decide (found <> "") then shortened found else first_revision u paths
  end.

Definition fluxRevision (u : U) : string :=
  first_revision u [["status"; "lastAttemptedRevision"]; ["status"; "lastAppliedRevision"]; ["status"; "artifact"; "revision"]].

Definition argoSymptom (u : U) : option symptom :=
  let phase := UString u ["status"; "operationState"; "phase"] in
  let health := UString u ["status"; "health"; "status"] in
  if bool_decide (phase = "Failed") || bool_decide (phase = "Error") then
    Some (MkSymptom severityFatal "SyncFailed"
      (explained (UString u ["status"; "operationState"; "message"]) "the last sync did not finish")
      "fix the manifest, then sync again")
  else if bool_decide (health = "Degraded") || bool_decide (health = "Missing") then
    Some (MkSymptom severityFatal health
      (messageOrText (UString u ["status"; "health"; "message"]) ("argo reports the application as " +s+ health))
      "open the application and look at the resource it marks unhealthy")
  else if bool_decide (UString u ["status"; "sync"; "status"] = "OutOfSync") then
    Some (MkSymptom severityWarning "OutOfSync" "the cluster does not match the revision argo tracks"
      "sync it, or find out what changed it in the cluster")
  else None.

Definition argoChangedAt (u : U) : time :=
  seen_or (transitionOf u) (UString u ["status"; "operationState"; "finishedAt"]).

(** ** Stalled pods *)

Definition anyContainerRunning (pod : U) : bool :=
  existsb (fun entry =>
    match asMap (aget entry "state") with
    | None => false
    | Some state => bool_decide (is_Some (aget state "running"))
    end) (containerStatuses pod).

Definition stalledPod (pod : U) (alreadyReported : bool) (now : time) (limits : Limits) : bool :=
  if alreadyReported || bool_decide (is_Some (GetDeletionTimestamp pod)) then false
  else if bool_decide (UString pod ["spec"; "nodeName"] = "") then false
  else
    let phase := UString pod ["status"; "phase"] in
    if bool_decide (phase = phaseSucceeded) || bool_decide (phase = phaseFailed) then false
    else if anyContainerRunning pod then false
    else (l_StallGrace limits <=? tsub now (podBoundAt pod))%Z.

Definition stallDetail (pod : U) (now : time) : string :=
  "bound to " +s+ UString pod ["spec"; "nodeName"] +s+ " " +s+
  durationLabel (Round (tsub now (podBoundAt pod)) Minute) +s+ " ago, no container running and no events at all".

End symptoms.
End Symptoms.
