(* ===== verification/Diagnosis.v ===== *)
(** internal/issues/source.go, issues.go and fold.go: a diagnosis of a cluster.
    The kinds worth reading are listed, each object is asked for its symptoms,
    and the findings are folded into one row per owner, ranked and cut to size.
    The lister, the events and the orders in which maps are iterated and answers
    arrive are the record [World]; the reads it names run at once, each writing
    its own slot, so only the order of their entries in the account of failures
    depends on when they finish. *)

From S2P Require Import Prelude Api Codec Text Unstr Faults Issues Symptoms.

Module Diagnosis.
Import Api Text Unstr Faults Issues Symptoms.

(** What a call to the cluster comes back with. *)
Inductive answer (A : Type) := Answered (a : A) | Failed (message : string) | Panicked.
Arguments Answered {A} a.
Arguments Failed {A} message.
Arguments Panicked {A}.

Record Event := MkEvent { e_Type : string; e_Reason : string; e_Message : string }.

(** [list[:n]]: panics below zero, and here always stays within the length. *)
Definition slice_to {A} (n : Z) (l : list A) : option (list A) := if (n <? 0)%Z then None else Some (ztake n l).

(** [if len(list) > n { list = list[:n] }] *)
Definition cap_at {A} (n : Z) (l : list A) : option (list A) :=
  if (n <? zlen l)%Z then slice_to n l else Some l.

(** [string(b)] of a byte: the UTF-8 encoding of that code point. *)
Definition byte_string (n : N) : string :=
  if (n <? 128)%N then of_codes [n] else of_codes [192 + n / 64; 128 + n mod 64]%N.

Definition lowerFirst (text : string) : string :=
  match text with
  | EmptyString => text
  | String c rest =>
      let n := Ascii.N_of_ascii c in
      let lowered := if (65 <=? n)%N && (n <=? 90)%N then (n + 32)%N else n in
      byte_string lowered +s+ rest
  end.

Definition coreResources : list (string * string) := [
  ("", "pods"); ("", "nodes"); ("", "namespaces"); ("", "persistentvolumeclaims");
  ("apiregistration.k8s.io", "apiservices"); ("apiextensions.k8s.io", "customresourcedefinitions");
  ("", "services"); ("", "endpoints"); ("", "replicationcontrollers");
  (appsGroup, "deployments"); (appsGroup, "replicasets"); (appsGroup, "statefulsets"); (appsGroup, "daemonsets");
  (batchGroup, "jobs"); (batchGroup, "cronjobs"); (autoscalingGroup, "horizontalpodautoscalers");
  (argoGroup, "applications")].

Definition fluxResources : list string :=
  ["kustomizations"; "helmreleases"; "gitrepositories"; "helmrepositories"; "ocirepositories"; "buckets"; "helmcharts"].

Definition fluxKind (d : ResourceDescriptor) : bool :=
  if negb (isFluxGroup (rd_Group d)) then false else contains fluxResources (rd_Resource d).

Definition collected (d : ResourceDescriptor) : bool :=
  if contains coreResources (rd_Group d, rd_Resource d) then true else fluxKind d.

Definition keyOf (d : ResourceDescriptor) : string :=
  rd_Group d +s+ "/" +s+ rd_Version d +s+ "/" +s+ rd_Resource d.

Definition wanted (descs : list ResourceDescriptor) : list ResourceDescriptor := List.filter collected descs.

(** The kinds already watched that are not read anyway, each once. *)
Fixpoint not_seen (seen : list string) (descs : list ResourceDescriptor) : list ResourceDescriptor :=
  match descs with
  | [] => []
  | d :: descs => if contains seen (keyOf d) then not_seen seen descs else d :: not_seen (keyOf d :: seen) descs
  end.

Definition alsoCached (cached already : list ResourceDescriptor) (limits : Limits) : option (list ResourceDescriptor) :=
  cap_at (l_Fallback limits) (sort_by (cmp_on keyOf str_compare) (not_seen (map keyOf already) cached)).

Section diagnosis.
Context {Tm : RFC3339} {U : Type} `{!Unstructured U} `{!Meta U}.
#[local] Abbreviation object := (@object U).
#[local] Abbreviation snapshot := (@snapshot U).

Record World := MkWorld {
  Descs : list ResourceDescriptor;
  Cached : list ResourceDescriptor;
  Lease : ResourceDescriptor -> answer (list U);
  GroupResource : ResourceDescriptor -> string;
  Events : string -> string -> answer (list Event);
  read_order : list ResourceDescriptor -> list ResourceDescriptor;
  asked_order : list object -> list object;
  gitops_order : list string;
  condition_order : list string;
  expiry_order : list string;
  pressure_order : list (string * string);
  now : time;
}.

(** What a read leaves in the account of failures. *)
Definition account {A} (c : Listerr.Collector) (resource : string) (a : answer A) : Listerr.Collector :=
  match a with
  | Answered _ => Listerr.Record_ c resource None
  | Failed message => Listerr.Record_ c resource (Some message)
  | Panicked => Listerr.RecordPanic c resource true
  end.

Definition answered {A} (zero : A) (a : answer A) : A := match a with Answered a => a | _ => zero end.

(** The batches in the order of the types, and the account. *)
Definition read (w : World) (types : list ResourceDescriptor) (c : Listerr.Collector) :
    list (ResourceDescriptor * list U) * Listerr.Collector :=
  (map (fun d => (d, answered [] (Lease w d))) types,
   fold_left (fun c d => account c (GroupResource w d) (Lease w d)) (read_order w types) c).

Definition collect (w : World) (limits : Limits) : option snapshot :=
  let types := wanted (Descs w) in
  more ← alsoCached (Cached w) types limits;
  let '(batches, c) := read w (types ++ more) (failures (@newSnapshot U)) in
  let snap := fold_left (fun snap '(d, items) => hold snap d items) batches newSnapshot in
  Some (MkSnapshot (byUID snap) (byKind snap) (byOwner snap) c).

Record finding := MkFinding {
  detector : string;
  severity : Z;
  title : string;
  detail : string;
  action : string;
  f_change : string;
  changedAt : time;
  uncertain : bool;
  kind : string;
  subject : object;
  since : time;
}.

(** A finding about [item] from a symptom. *)
Definition found_in (detector_ : string) (s : symptom) (moved : change) (kind_ : string) (item : object) (since_ : time) :
    finding :=
  MkFinding detector_ (s_severity s) (s_title s) (s_detail s) (s_action s) (what moved) (at_ moved) false kind_ item since_.

(** ** The detectors *)

Definition podFindings (snap : snapshot) : list finding :=
  omap (fun item =>
    s ← podSymptom (obj item);
    Some (found_in "pod-startup" s (rolloutOf snap item) kindPod item (podSince (obj item)))) (of_ snap "" kindPod).

Definition workloadKinds : list (string * string) :=
  [(appsGroup, kindDeployment); (appsGroup, kindReplicaSet); (appsGroup, kindStatefulSet); (appsGroup, kindDaemonSet);
   (batchGroup, kindJob); ("", kindReplicationController)].

Definition workloadFinding (snap : snapshot) (limits : Limits) (now : time) (item : object) : option finding :=
  s ← workloadSymptom (obj item) (rd_Kind (desc item)) now limits;
  Some (found_in "workload-progress" s (changeOf snap item) (rd_Kind (desc item)) item (transitionOf (obj item))).

Definition workloadFindings (snap : snapshot) (limits : Limits) (now : time) : list finding :=
  flat_map (fun '(group, kind) => omap (workloadFinding snap limits now) (of_ snap group kind)) workloadKinds.

Definition applicationsKind : string := "Application".

Definition fluxFinding (item : object) : option finding :=
  let u := obj item in
  if UBool u ["spec"; "suspend"] then None
  else s ← fluxSymptom u;
       Some (found_in "gitops-sync" s (MkChange (fluxRevision u) (transitionOf u)) (rd_Kind (desc item)) item
               (conditionSince u "Ready")).

Definition argoFinding (item : object) : option finding :=
  let u := obj item in
  s ← argoSymptom u;
  Some (found_in "gitops-sync" s (MkChange (shortened (UString u ["status"; "sync"; "revision"])) (argoChangedAt u))
          (rd_Kind (desc item)) item (argoChangedAt u)).

Definition gitopsFinding (item : object) : option finding :=
  if isFluxGroup (rd_Group (desc item)) then fluxFinding item
  else if bool_decide (rd_Group (desc item) = argoGroup) && bool_decide (rd_Kind (desc item) = applicationsKind)
  then argoFinding item else None.

(** All objects, kind by kind in the order [byKind] is iterated. *)
Definition everything (kinds : list string) (snap : snapshot) : list object :=
  flat_map (fun key => default [] (byKind snap !! key)) kinds.

Definition gitopsFindings (kinds : list string) (snap : snapshot) : list finding :=
  omap gitopsFinding (everything kinds snap).

Definition autoscalerKind : string := "HorizontalPodAutoscaler".

Definition autoscalerFindings (snap : snapshot) : list finding :=
  omap (fun item =>
    s ← autoscalerSymptom (obj item);
    Some (found_in "hpa" s no_change (rd_Kind (desc item)) item (conditionSince (obj item) "ScalingActive")))
    (of_ snap autoscalingGroup autoscalerKind).

Definition healthyWhenTrue : list string := ["Ready"; "Available"; "Healthy"; "Synced"].
Definition brokenWhenTrue : list string := ["Stalled"; "Degraded"; "Failed"].

Definition ownedKinds : list (string * string) := [
  ("", kindPod); ("", kindReplicationController); (appsGroup, kindDeployment); (appsGroup, kindReplicaSet);
  (appsGroup, kindStatefulSet); (appsGroup, kindDaemonSet); (batchGroup, kindJob); (batchGroup, kindCronJob);
  (autoscalingGroup, autoscalerKind); (argoGroup, applicationsKind)].

Fixpoint broken_in (u : U) (names : list string) : option amap :=
  match names with
  | [] => None
  | name :: names =>
      match conditionOf u name with
      | None => broken_in u names
      | Some entry => if bool_decide (At entry "status" <> conditionTrue) then broken_in u names else Some entry
      end
  end.

Fixpoint bad_in (u : U) (names : list string) : option amap :=
  match names with
  | [] => broken_in u brokenWhenTrue
  | name :: names =>
      match conditionOf u name with
      | None => bad_in u names
      | Some entry => if bool_decide (At entry "status" = conditionTrue) then None else Some entry
      end
  end.

Definition badCondition (u : U) : option amap := bad_in u healthyWhenTrue.

Definition conditionFinding (item : object) : option finding :=
  if contains ownedKinds (rd_Group (desc item), rd_Kind (desc item)) || isFluxGroup (rd_Group (desc item)) then None
  else if bool_decide (is_Some (GetDeletionTimestamp (obj item))) then None
  else
    entry ← badCondition (obj item);
    let name := At entry "type" in
    Some (MkFinding "condition" severityDegraded (reasonOr entry (name +s+ "=" +s+ At entry "status"))
      (messageOr entry (rd_Kind (desc item) +s+ " reports " +s+ name +s+ "=" +s+ At entry "status"))
      "open the object and read its conditions" "" zeroTime (bool_decide (At entry "status" = "Unknown"))
      (rd_Kind (desc item)) item (conditionSince (obj item) name)).

Definition conditionFindings (kinds : list string) (snap : snapshot) : list finding :=
  omap conditionFinding (everything kinds snap).

Definition kindNode : string := "Node".
Definition kindNamespace : string := "Namespace".
Definition kindClaim : string := "PersistentVolumeClaim".
Definition kindCRD : string := "CustomResourceDefinition".
Definition kindService : string := "Service".
Definition kindEndpoints : string := "Endpoints".
Definition apiExtensionsGroup : string := "apiextensions.k8s.io".

Definition nodeFindings (pressures : list (string * string)) (snap : snapshot) : list finding :=
  omap (fun item =>
    s ← nodeSymptom pressures (obj item);
    Some (found_in "node" s no_change kindNode item (conditionSince (obj item) "Ready"))) (of_ snap "" kindNode).

Definition claimFindings (snap : snapshot) : list finding :=
  omap (fun item =>
    s ← claimSymptom (obj item);
    Some (found_in "storage" s no_change kindClaim item (GetCreationTimestamp (obj item)))) (of_ snap "" kindClaim).

Definition terminatingFindings (snap : snapshot) (now : time) : list finding :=
  flat_map (fun kind =>
    omap (fun item =>
      s ← terminatingSymptom (obj item) kind now;
      at_ ← GetDeletionTimestamp (obj item);
      Some (found_in "terminating" s no_change kind item at_)) (of_ snap "" kind)) [kindPod; kindNamespace].

Definition definitionFindings (snap : snapshot) : list finding :=
  omap (fun item =>
    entry ← conditionOf (obj item) "Established";
    if bool_decide (At entry "status" = conditionTrue) then None
    else Some (found_in "extension" (MkSymptom severityFatal (reasonOr entry "NotEstablished")
        (messageOr entry "the apiserver is not serving this kind, so nothing can create one")
        "check the CRD's schema and its conversion webhook") no_change kindCRD item
        (conditionSince (obj item) "Established"))) (of_ snap apiExtensionsGroup kindCRD).

Definition selectsPods (service : U) : bool :=
  match UMap service ["spec"; "selector"] with Some selector => (0 <? zlen selector)%Z | None => false end.

Definition serviceKey (u : U) : string := GetNamespace u +s+ "/" +s+ GetName u.

Definition readyAddresses (u : U) : Z :=
  fold_left (fun total entry =>
    match asSlice (aget entry "addresses") with Some listed => (total + zlen listed)%Z | None => total end)
    (entries (USlice u ["subsets"])) 0%Z.

Definition endpointNames (snap : snapshot) : list string :=
  omap (fun item => if (readyAddresses (obj item) =? 0)%Z then None else Some (serviceKey (obj item)))
    (of_ snap "" kindEndpoints).

Definition routingFindings (snap : snapshot) : list finding :=
  omap (fun item =>
    if negb (selectsPods (obj item)) || contains (endpointNames snap) (serviceKey (obj item)) then None
    else Some (found_in "routing" (MkSymptom severityFatal "NoEndpoints"
        "the Service selects pods and none of them is ready, so it answers nothing"
        "look at the pods its selector matches and why none is ready") no_change kindService item
        (GetCreationTimestamp (obj item)))) (of_ snap "" kindService).

Definition expiryFindings (kinds : list string) (snap : snapshot) (now : time) : list finding :=
  omap (fun item =>
    s ← expirySymptom (obj item) now;
    Some (found_in "expiry" s no_change (rd_Kind (desc item)) item (GetCreationTimestamp (obj item))))
    (everything kinds snap).

Definition clusterFindings (w : World) (snap : snapshot) : list finding :=
  nodeFindings (pressure_order w) snap ++ claimFindings snap ++ terminatingFindings snap (now w) ++
  definitionFindings snap ++ routingFindings snap ++ expiryFindings (expiry_order w) snap (now w).

(** ** Pods that stall after they are bound *)

Definition whereOf (item : object) : string := GetNamespace (obj item) +s+ "/" +s+ GetName (obj item).

Definition bound_first (left right : object) : Z :=
  if negb (podBoundAt (obj left) =? podBoundAt (obj right))%Z
  then tcompare (podBoundAt (obj left)) (podBoundAt (obj right)) else str_compare (whereOf left) (whereOf right).

Definition stallCandidatesOf (snap : snapshot) (reported : list string) (now : time) (limits : Limits) :
    option (list object) :=
  cap_at (l_Candidates limits)
    (sort_by bound_first
       (List.filter (fun item => stalledPod (obj item) (contains reported (uid item)) now limits) (of_ snap "" kindPod))).

(** The first warning with a reason; the events are newest first. *)
Fixpoint newestWarning (found : list Event) : option Event :=
  match found with
  | [] => None
  | one :: found =>
      if bool_decide (e_Type one <> "Warning") || bool_decide (e_Reason one = "") then newestWarning found else Some one
  end.

Definition ask (w : World) (item : object) : answer (list Event) := Events w (GetNamespace (obj item)) (uid item).

Definition whatHappened (w : World) (candidates : list object) : gset string * gmap string Event :=
  fold_left (fun '(quiet, complained) item =>
    match ask w item with
    | Answered [] => ({[uid item]} ∪ quiet, complained)
    | Answered found =>
        match newestWarning found with
        | Some worst => (quiet, <[uid item := worst]> complained)
        | None => (quiet, complained)
        end
    | _ => (quiet, complained)
    end) candidates (∅, ∅).

Definition stallFinding (w : World) (snap : snapshot) (happened : gset string * gmap string Event) (item : object) :
    option finding :=
  let '(quiet, complained) := happened in
  let moved := rolloutOf snap item in
  match complained !! uid item with
  | Some said =>
      Some (found_in "post-bind-stall" (MkSymptom severityFatal (e_Reason said) (e_Message said)
        "fix what the kubelet is complaining about, then let it retry") moved kindPod item (podBoundAt (obj item)))
  | None =>
      if bool_decide (uid item ∈ quiet) then
        Some (MkFinding "post-bind-stall" severityWarning "SilentAfterBinding" (stallDetail (obj item) (now w))
          ("check the kubelet on " +s+ UString (obj item) ["spec"; "nodeName"]) (what moved) (at_ moved) true kindPod item
          (podBoundAt (obj item)))
      else None
  end.

(** The findings and the account after the events were asked for. *)
Definition stallFindings (w : World) (snap : snapshot) (reported : list string) (limits : Limits) :
    option (list finding * Listerr.Collector) :=
  candidates ← stallCandidatesOf snap reported (now w) limits;
  Some (omap (stallFinding w snap (whatHappened w candidates)) candidates,
        fold_left (fun c item => account c "events" (ask w item)) (asked_order w candidates) (failures snap)).

(** ** Folding *)

Definition severityName (level : Z) : string :=
  if (level =? severityFatal)%Z then SeverityHigh
  else if (level =? severityDegraded)%Z then SeverityMedium
  else SeverityLow.

Definition explained_by (group : list finding) : Z :=
  fold_left (fun explained item =>
    if bool_decide (kind item = kindPod) && (explained <? severity item)%Z then severity item else explained) group 0%Z.

Definition prune (group : list finding) : list finding :=
  let explained := explained_by group in
  if (explained =? 0)%Z then group
  else List.filter (fun item =>
         negb (bool_decide (title item = titleShortOfReplicas) && (severity item <=? explained)%Z)) group.

Definition leads (item lead : finding) : bool :=
  if negb (severity item =? severity lead)%Z then (severity lead <? severity item)%Z
  else if negb (since item =? since lead)%Z then After (since item) (since lead)
  else (str_compare (whereOf (subject item)) (whereOf (subject lead)) <? 0)%Z.

(** [leadOf], [worst] and [oldest] of a non-empty group: indexing an empty one
    panics. *)
Definition leadOf (first : finding) (rest : list finding) : finding :=
  fold_left (fun lead item => if leads item lead then item else lead) rest first.

Definition worst (first : finding) (rest : list finding) : Z :=
  fold_left (fun level item => if (level <? severity item)%Z then severity item else level) rest (severity first).

Definition oldest (first : finding) (rest : list finding) : time :=
  fold_left (fun at_ item =>
    if IsZero at_ || (negb (IsZero (since item)) && Before (since item) at_) then since item else at_)
    rest (since first).

Definition whereOfRef (r : ObjectRef) : string := or_Namespace r +s+ "/" +s+ or_Name r.

Definition childOrder (left right : IssueChild) : Z :=
  if negb (seenAt (ch_Since left) =? seenAt (ch_Since right))%Z
  then tcompare (seenAt (ch_Since right)) (seenAt (ch_Since left))
  else str_compare (whereOfRef (ch_Object left)) (whereOfRef (ch_Object right)).

Definition childrenOf (own : object) (group : list finding) : list IssueChild :=
  sort_by childOrder
    (map (fun item => MkChild (ref (subject item)) (kind item) (severityName (severity item)) (detail item)
                        (stamp (since item)))
       (List.filter (fun item => bool_decide (uid (subject item) <> uid own)) group)).

Definition plural (children : list IssueChild) : string :=
  match children with
  | [] => ""
  | first :: rest =>
      if existsb (fun child => bool_decide (ch_Kind child <> ch_Kind first)) rest then "objects"
      else if bool_decide (ch_Kind first = "") then "objects"
      else lowerFirst (ch_Kind first) +s+ "s"
  end.

(** The separator of [detailOf] is a middle dot between spaces. *)
Definition middleDot : string := of_codes [32; 194; 183; 32]%N.

Definition detailOf (lead : finding) (children : list IssueChild) : string :=
  if (zlen children <? 2)%Z then detail lead
  else detail lead +s+ middleDot +s+ Itoa (zlen children) +s+ " " +s+ plural children +s+ " affected".

(** [None] where the code panics. *)
Definition rowOf (own : object) (group : list finding) (limits : Limits) : option Issue :=
  match group with
  | [] => None
  | first :: rest =>
      let lead := leadOf first rest in
      let children := childrenOf own group in
      shown ← cap_at (l_Children limits) children;
      Some (MkIssue (uid own) "" (severityName (worst first rest)) (detector lead) (title lead)
        (detailOf lead children) (action lead) (f_change lead) (stamp (changedAt lead)) (uncertain lead) (ref own)
        (rd_Kind (desc own)) (stamp (oldest first rest)) (zlen children) shown)
  end.

(** The grouping loop of [fold]: the groups and owners by key, and the keys in
    the order they were first seen. *)
Definition group_one (snap : snapshot)
    (st : gmap string (list finding) * gmap string object * list string) (item : finding) :
    gmap string (list finding) * gmap string object * list string :=
  let '(groups, owners, order) := st in
  let own := owner snap (subject item) in
  let key := uid own in
  let '(owners, order) :=
    match groups !! key with Some _ => (owners, order) | None => (<[key := own]> owners, order ++ [key]) end in
  (<[key := default [] (groups !! key) ++ [item]]> groups, owners, order).

Definition fold_groups (snap : snapshot) (found : list finding) :
    gmap string (list finding) * gmap string object * list string :=
  fold_left (group_one snap) found (∅, ∅, []).

Definition capRows (rows : list Issue) (limits : Limits) : option IssueQueue :=
  if (zlen rows <=? l_Rows limits)%Z then Some (MkQueue rows 0 None "" "")
  else rows' ← slice_to (l_Rows limits) rows; Some (MkQueue rows' (zlen rows - l_Rows limits) None "" "").

(** The rows before they are ranked; [None] where the code panics. *)
Definition fold_rows (snap : snapshot) (found : list finding) (limits : Limits) : option (list Issue) :=
  let '(groups, owners, order) := fold_groups snap found in
  mapM (fun key => own ← owners !! key; rowOf own (prune (default [] (groups !! key))) limits) order.

Definition fold (snap : snapshot) (found : list finding) (limits : Limits) : option IssueQueue :=
  rows ← fold_rows snap found limits; capRows (Rank rows ByWorst) limits.

(** What the detectors find, and the account of failures. *)
Definition findings (w : World) (snap : snapshot) (limits : Limits) : option (list finding * Listerr.Collector) :=
  let pods := podFindings snap in
  let reported := map (fun item => uid (subject item)) pods in
  stalled ← stallFindings w snap reported limits;
  Some (pods ++ workloadFindings snap limits (now w) ++ gitopsFindings (gitops_order w) snap ++ autoscalerFindings snap ++
        conditionFindings (condition_order w) snap ++ clusterFindings w snap ++ stalled.1, stalled.2).

Definition Build (w : World) (limits : Limits) : option IssueQueue :=
  let limits := orDefaults limits in
  snap ← collect w limits;
  found ← findings w snap limits;
  queue ← fold snap found.1 limits;
  Some (MkQueue (Rows queue) (Dropped queue) (q_Tally queue) (Next queue) (Listerr.Message found.2)).

(** ** Groups *)

Definition group_key (snap : snapshot) (item : finding) : string := uid (owner snap (subject item)).

Definition group_of (snap : snapshot) (key : string) (found : list finding) : list finding :=
  List.filter (fun item => bool_decide (group_key snap item = key)) found.

Lemma group_of_snoc snap key found item :
  group_of snap key (found ++ [item]) =
  group_of snap key found ++ (if bool_decide (group_key snap item = key) then [item] else []).
Proof. unfold group_of. rewrite List.filter_app. cbn. by case_bool_decide. Qed.

Lemma group_of_elem snap key found item : item ∈ group_of snap key found <-> item ∈ found /\ group_key snap item = key.
Proof. unfold group_of. by rewrite filter_elem, bool_decide_eq_true. Qed.

(** What the grouping loop has after some findings. *)
Definition grouped (snap : snapshot) (found : list finding)
    (st : gmap string (list finding) * gmap string object * list string) : Prop :=
  let '(groups, owners, order) := st in
  NoDup order /\ (forall key, key ∈ order <-> exists item, item ∈ found /\ group_key snap item = key) /\
  (forall key, groups !! key = if bool_decide (key ∈ order) then Some (group_of snap key found) else None) /\
  (forall key, key ∈ order -> exists own, owners !! key = Some own /\ uid own = key).

Lemma fold_groups_ok snap found : grouped snap found (fold_groups snap found).
Proof.
  unfold fold_groups. induction found as [| item found IH] using rev_ind.
  - split; [apply NoDup_nil_2 |]. split; [| split]; cbn.
    + intros key. split; [by intros ?%elem_of_nil | by intros (i & ?%elem_of_nil & _)].
    + intros key. rewrite bool_decide_false by apply not_elem_of_nil. apply lookup_empty.
    + by intros key ?%elem_of_nil.
  - rewrite fold_left_app. cbn [fold_left]. destruct (fold_left _ _ _) as [[groups owners] order].
    destruct IH as (Hnd & Hin & Hg & Ho). cbn [group_one]. change (uid (owner snap (subject item))) with (group_key snap item).
    set (key := group_key snap item). pose proof (Hg key) as Hk.
    assert (Hin' : forall k, k ∈ order \/ k = key <-> exists i, i ∈ found ++ [item] /\ group_key snap i = k).
    { intros k. rewrite Hin. split.
      - intros [(i & Hi & E) | ->]; [exists i | exists item]; (split; [set_solver | done]).
      - intros (i & [Hi | ->%list_elem_of_singleton]%elem_of_app & E); [left; by exists i | by right]. }
    case_bool_decide as Hko; rewrite Hk.
    + split; [done |]. split; [| split; [| done]].
      * intros k. rewrite <- Hin'. split; [by left | intros [? | ->]; done].
      * intros k. rewrite group_of_snoc. destruct (decide (key = k)) as [<- | E].
        -- by rewrite lookup_insert_eq, !bool_decide_true by done.
        -- rewrite lookup_insert_ne by done. rewrite Hg, (bool_decide_false (group_key snap item = k)) by done.
           by rewrite app_nil_r.
    + assert (Hnone : group_of snap key found = []).
      { destruct (group_of snap key found) as [| i l] eqn:E; [done |]. destruct Hko. apply Hin.
        exists i. apply group_of_elem. rewrite E. by left. }
      split; [apply list.NoDup_app; split; [done |]; split; [| apply NoDup_singleton] |].
      { intros k Hk' ->%list_elem_of_singleton. done. }
      split; [intros k; rewrite <- Hin', elem_of_app, list_elem_of_singleton; done |]. split.
      * intros k. rewrite group_of_snoc. destruct (decide (key = k)) as [<- | E].
        -- rewrite lookup_insert_eq, Hnone, !bool_decide_true; [done | done | set_solver].
        -- rewrite lookup_insert_ne by done. rewrite Hg, (bool_decide_false (group_key snap item = k)) by done.
           rewrite app_nil_r, (bool_decide_ext (k ∈ order ++ [key]) (k ∈ order)); [done | set_solver].
      * intros k Hk'. destruct (decide (key = k)) as [<- | E].
        -- rewrite lookup_insert_eq. by eexists.
        -- rewrite lookup_insert_ne by done. apply Ho. set_solver.
Qed.

(** ** What is worst in a group *)

Fixpoint max_severity (group : list finding) : Z :=
  match group with [] => 0 | item :: group => Z.max (severity item) (max_severity group) end.

Lemma max_severity_ge group item : item ∈ group -> (severity item <= max_severity group)%Z.
Proof. induction 1 as [i l | i j l _ IH]; cbn; [lia |]. lia. Qed.

Lemma max_severity_in group :
  group <> [] -> Forall (fun item => (0 < severity item)%Z) group ->
  exists item, item ∈ group /\ severity item = max_severity group.
Proof.
  intros Hne H. induction H as [| i l Hi _ IH]; [done |]. cbn. destruct l as [| j l].
  - exists i. split; [by left |]. cbn. lia.
  - destruct IH as (k & Hk & Ek); [done |]. destruct (Z.le_ge_cases (severity i) (max_severity (j :: l))).
    + exists k. split; [by right |]. lia.
    + exists i. split; [by left |]. lia.
Qed.

Lemma worst_max first rest :
  (0 <= severity first)%Z -> worst first rest = max_severity (first :: rest).
Proof.
  intros H. unfold worst. cbn [max_severity]. revert H. generalize (severity first). induction rest as [| i rest IH]; intros m Hm; cbn [fold_left].
  - cbn. lia.
  - rewrite IH; cbn; zcases; lia.
Qed.

Lemma explained_by_max group :
  explained_by group = max_severity (List.filter (fun item => bool_decide (kind item = kindPod)) group).
Proof.
  unfold explained_by. assert (H : forall m, (0 <= m)%Z ->
    fold_left (fun explained item =>
      if bool_decide (kind item = kindPod) && (explained <? severity item)%Z then severity item else explained) group m =
    Z.max m (max_severity (List.filter (fun item => bool_decide (kind item = kindPod)) group))).
  { induction group as [| i l IH]; intros m Hm; cbn; [lia |].
    case_bool_decide; cbn; [| by apply IH]. rewrite IH by (zcases; lia). zcases; lia. }
  rewrite H by done. apply Z.max_r. clear H. induction group as [| i l IH]; cbn; [done |]. case_bool_decide; cbn; lia.
Qed.

(** What the folding asks of the findings: severities there are names for, and
    no finding about a pod that bears the title of a short workload. *)
Definition severity_ok (item : finding) : Prop := (severityWarning <= severity item <= severityFatal)%Z.
Definition title_ok (item : finding) : Prop := kind item = kindPod -> title item <> titleShortOfReplicas.

Lemma prune_sub group item : item ∈ prune group -> item ∈ group.
Proof. unfold prune. destruct (_ =? _)%Z; [done |]. by intros [? _]%filter_elem. Qed.

(** A finding that its workload is short of replicas, of which a pod's finding in
    the group is at least as severe. *)
Definition explainedAway (group : list finding) (item : finding) : Prop :=
  title item = titleShortOfReplicas /\ Exists (fun pod => kind pod = kindPod /\ (severity item <= severity pod)%Z) group.

#[local] Instance explainedAway_dec group item : Decision (explainedAway group item).
Proof. unfold explainedAway. apply _. Defined.

(** Pruning leaves what is not explained away. *)
Lemma prune_elem group item :
  Forall severity_ok group -> item ∈ prune group <-> item ∈ group /\ ~ explainedAway group item.
Proof.
  intros Hs. rewrite list.Forall_forall in Hs. unfold severity_ok, severityWarning in Hs.
  assert (Hpod : forall n, (0 < n)%Z -> (n <= explained_by group)%Z <-> exists pod, pod ∈ group /\ kind pod = kindPod /\ (n <= severity pod)%Z).
  { intros n Hn. rewrite explained_by_max. split.
    - intros Hle. destruct (max_severity_in (List.filter (fun item => bool_decide (kind item = kindPod)) group)) as (pod & Hp & E).
      + intros E. rewrite E in Hle. cbn in Hle. lia.
      + apply list.Forall_forall. intros i [Hi _]%filter_elem. specialize (Hs i Hi). lia.
      + apply filter_elem in Hp as [Hp Hk%bool_decide_eq_true]. exists pod. split; [done |]. split; [done | lia].
    - intros (pod & Hp & Hk & Hle). etransitivity; [exact Hle |]. apply max_severity_ge, filter_elem.
      by rewrite bool_decide_eq_true. }
  assert (Hex : item ∈ group -> explainedAway group item <-> title item = titleShortOfReplicas /\ (severity item <= explained_by group)%Z).
  { intros Hi. unfold explainedAway. rewrite Hpod, list.Exists_exists; [done |]. specialize (Hs item Hi). lia. }
  unfold prune. destruct (Z.eqb_spec (explained_by group) 0) as [E | E].
  - split; [| by intros [? _]]. intros Hi. split; [done |]. rewrite Hex by done. intros [_ Hle]. specialize (Hs item Hi). lia.
  - rewrite filter_elem. split.
    + intros [Hi Hn]. split; [done |]. rewrite Hex by done. intros [Ht Hle]. rewrite bool_decide_true in Hn by done.
      apply Z.leb_le in Hle. by rewrite Hle in Hn.
    + intros [Hi Hn]. split; [done |]. rewrite Hex in Hn by done. case_bool_decide as Ht; [| done]. cbn.
      destruct (Z.leb_spec (severity item) (explained_by group)); [by destruct Hn | done].
Qed.

(** Pruning hides no severity and leaves something to show. *)
Lemma prune_keeps group :
  Forall severity_ok group -> Forall title_ok group -> group <> [] ->
  prune group <> [] /\ max_severity (prune group) = max_severity group.
Proof.
  intros Hs Ht Hne. assert (Hpos : Forall (fun item => (0 < severity item)%Z) group).
  { eapply List.Forall_impl; [| exact Hs]. unfold severity_ok, severityWarning. cbn. lia. }
  destruct (Z.eqb_spec (explained_by group) 0) as [E | E]; [unfold prune; rewrite E; by cbn |].
  assert (Hkeep : forall item, item ∈ group -> title item <> titleShortOfReplicas \/ (explained_by group < severity item)%Z ->
    item ∈ prune group).
  { intros item Hi Hor. unfold prune. rewrite (proj2 (Z.eqb_neq _ _) E). apply filter_elem. split; [done |].
    destruct Hor as [? | ?]; [by rewrite bool_decide_false by done |].
    replace (severity item <=? explained_by group)%Z with false by lia. by rewrite andb_false_r. }
  assert (Hpod : exists pod, pod ∈ prune group /\ severity pod = explained_by group).
  { rewrite explained_by_max in E |- *. set (pods := List.filter _ group) in *.
    destruct (max_severity_in pods) as (pod & Hp & Epod).
    - intros Hn. by rewrite Hn in E.
    - apply list.Forall_forall. intros i [Hi _]%filter_elem. rewrite list.Forall_forall in Hpos. by apply Hpos.
    - exists pod. split; [| done]. apply filter_elem in Hp as [Hp Hk%bool_decide_eq_true].
      apply Hkeep; [done | left]. rewrite list.Forall_forall in Ht. by apply Ht. }
  destruct Hpod as (pod & Hp & Epod).
  split; [by intros Hn; rewrite Hn in Hp; apply elem_of_nil in Hp |].
  destruct (max_severity_in group Hne Hpos) as (m & Hm & Em). apply Z.le_antisymm.
  - destruct (max_severity_in (prune group)) as (x & Hx & Ex).
    + intros Hn. rewrite Hn in Hp. by apply elem_of_nil in Hp.
    + apply list.Forall_forall. intros i Hi%prune_sub. rewrite list.Forall_forall in Hpos. by apply Hpos.
    + rewrite <- Ex. by apply max_severity_ge, prune_sub.
  - destruct (Z.le_gt_cases (severity m) (explained_by group)).
    + rewrite <- Em. etransitivity; [exact H |]. rewrite <- Epod. by apply max_severity_ge.
    + rewrite <- Em. apply max_severity_ge, Hkeep; [done | by right].
Qed.

Lemma severityRank_Name level :
  (severityWarning <= level <= severityFatal)%Z -> severityRank (severityName level) = level.
Proof.
  unfold severityWarning, severityFatal. intros H. assert (level = 1 \/ level = 2 \/ level = 3)%Z as [-> | [-> | ->]] by lia; done.
Qed.

(** ** What the folding reports *)

Lemma cap_at_ok {A} n (l : list A) : (0 <= n)%Z -> cap_at n l = Some (ztake n l).
Proof.
  intros Hn. unfold cap_at, slice_to. replace (n <? 0)%Z with false by lia.
  destruct (Z.ltb_spec n (zlen l)); [done |]. by rewrite ztake_ge.
Qed.

Lemma cap_at_sub {A} n (l k : list A) a : cap_at n l = Some k -> a ∈ k -> a ∈ l.
Proof.
  unfold cap_at, slice_to. intros H Ha. repeat case_match; simplify_eq; [| done].
  rewrite <- (take_drop (Z.to_nat n) l). apply elem_of_app. by left.
Qed.

Lemma capRows_ok rows limits :
  (0 <= l_Rows limits)%Z ->
  capRows rows limits =
  Some (MkQueue (ztake (l_Rows limits) rows) (Z.max 0 (zlen rows - l_Rows limits)) None "" "").
Proof.
  intros Hn. unfold capRows, slice_to. replace (l_Rows limits <? 0)%Z with false by lia.
  destruct (Z.leb_spec (zlen rows) (l_Rows limits)); cbn.
  - by rewrite ztake_ge, Z.max_l by lia.
  - by rewrite Z.max_r by lia.
Qed.

Lemma capRows_sub rows limits q row : capRows rows limits = Some q -> row ∈ Rows q -> row ∈ rows.
Proof.
  unfold capRows. intros H Hr. destruct (_ <=? _)%Z; [by simplify_eq |].
  unfold slice_to in H. destruct (_ <? _)%Z; [done |]. cbn in H. simplify_eq. cbn in Hr. unfold ztake in Hr.
  rewrite <- (take_drop (Z.to_nat (l_Rows limits)) rows). apply elem_of_app. by left.
Qed.

Lemma rowOf_ok own group limits :
  group <> [] -> Forall severity_ok group -> (0 <= l_Children limits)%Z ->
  exists row, rowOf own group limits = Some row /\ ID row = uid own /\ severityRank (Severity row) = max_severity group.
Proof.
  intros Hne Hs Hc. destruct group as [| first rest]; [done |]. cbn [rowOf]. rewrite cap_at_ok by done. cbn.
  eexists. split; [done |]. split; [done |]. cbn [Severity]. pose proof (List.Forall_inv Hs) as Hf.
  unfold severity_ok, severityWarning in Hf. rewrite worst_max by lia. apply severityRank_Name.
  destruct (max_severity_in (first :: rest)) as (m & Hm & Em); [done | |].
  - eapply List.Forall_impl; [| exact Hs]. unfold severity_ok, severityWarning. cbn. lia.
  - change (Z.max (severity first) (max_severity rest)) with (max_severity (first :: rest)). rewrite <- Em.
    rewrite list.Forall_forall in Hs. by apply Hs.
Qed.

Lemma group_of_all snap key found (P : finding -> Prop) : Forall P found -> Forall P (group_of snap key found).
Proof. intros HP. rewrite list.Forall_forall in HP |- *. intros i [Hi _]%group_of_elem. by apply HP. Qed.

(** One row for every owner, unless all that is found about one is explained away. *)
Lemma fold_rows_ok snap found limits :
  Forall severity_ok found -> (0 <= l_Children limits)%Z ->
  match fold_rows snap found limits with
  | None => exists item, item ∈ found /\ prune (group_of snap (group_key snap item) found) = []
  | Some rows => exists order, NoDup order /\
      (forall key, key ∈ order <-> exists item, item ∈ found /\ group_key snap item = key) /\
      Forall2 (fun key row => ID row = key /\ prune (group_of snap key found) <> [] /\
                 severityRank (Severity row) = max_severity (prune (group_of snap key found))) order rows
  end.
Proof.
  intros Hs Hc. unfold fold_rows. pose proof (fold_groups_ok snap found) as Hok.
  destruct (fold_groups snap found) as [[groups owners] order]. destruct Hok as (Hnd & Hin & Hg & Ho).
  lazymatch goal with |- context [mapM ?g order] => set (f := g) end.
  assert (Hrow : forall key, key ∈ order ->
    (f key = None /\ prune (group_of snap key found) = []) \/
    exists row, f key = Some row /\ ID row = key /\ prune (group_of snap key found) <> [] /\
      severityRank (Severity row) = max_severity (prune (group_of snap key found))).
  { intros key Hk. destruct (Ho key Hk) as (own & Eo & Eu). unfold f. rewrite Eo, Hg, bool_decide_true by done. cbn.
    destruct (decide (prune (group_of snap key found) = [])) as [E | E]; [left; by rewrite E | right].
    destruct (rowOf_ok own (prune (group_of snap key found)) limits) as (row & -> & Hid & Hsev); [done | | done |].
    - apply list.Forall_forall. intros i Hi%prune_sub.
      by apply (proj1 (list.Forall_forall _ _) (group_of_all snap key found _ Hs)).
    - exists row. by rewrite Hsev, Hid. }
  destruct (mapM f order) as [rows |] eqn:E.
  - exists order. split; [done |]. split; [done |]. apply mapM_Some in E.
    clear -E Hrow. induction E as [| key row order rows Ek _ IH]; constructor.
    + destruct (Hrow key) as [[Ek' _] | (row' & Ek' & ?)]; [by left | congruence |]. by simplify_eq.
    + apply IH. intros k Hk. apply Hrow. by right.
  - apply mapM_None, list.Exists_exists in E as (key & Hk & Ek).
    destruct (Hrow key Hk) as [[_ Hp] | (row & Ek' & _)]; [| congruence].
    apply Hin in Hk as (item & Hi & <-). by exists item.
Qed.

#[local] Instance worstFirst_ok : Comparator worstFirst.
Proof. apply (inOrder_ok ByWorst). Qed.

Lemma worst_rank a b : cmp_le worstFirst a b -> (severityRank (Severity b) <= severityRank (Severity a))%Z.
Proof.
  unfold cmp_le, worstFirst. destruct (Z.eqb_spec (severityRank (Severity a)) (severityRank (Severity b))); cbn; lia.
Qed.

(** What folding makes of any findings: rows as severe as what is not explained
    away, or nothing when all of some owner's is. *)
Lemma fold_rows_worst snap found limits :
  Forall severity_ok found -> (0 <= l_Rows limits)%Z -> (0 <= l_Children limits)%Z ->
  match fold snap found limits with
  | None => exists item, item ∈ found /\ prune (group_of snap (group_key snap item) found) = []
  | Some q =>
      (zlen (Rows q) <= l_Rows limits)%Z /\ NoDup (map ID (Rows q)) /\ StronglySorted (cmp_le worstFirst) (Rows q) /\
      (forall item, item ∈ found -> prune (group_of snap (group_key snap item) found) <> []) /\
      (forall row, row ∈ Rows q -> (exists item, item ∈ found /\ group_key snap item = ID row) /\
         severityRank (Severity row) = max_severity (prune (group_of snap (ID row) found))) /\
      (forall item, item ∈ found -> (exists row, row ∈ Rows q /\ ID row = group_key snap item) \/
         ((0 < Dropped q)%Z /\ forall row, row ∈ Rows q ->
            (max_severity (prune (group_of snap (group_key snap item) found)) <= severityRank (Severity row))%Z))
  end.
Proof.
  intros Hs Hr Hc. pose proof (fold_rows_ok snap found limits Hs Hc) as Hf.
  unfold fold. destruct (fold_rows snap found limits) as [rows |]; [| done]. destruct Hf as (order & Hnd & Hin & H2).
  cbn. rewrite capRows_ok by done. cbn [Rows Dropped].
  set (ranked := Rank rows ByWorst). assert (Hp : ranked ≡ₚ rows) by apply sort_by_perm.
  assert (Hsort : StronglySorted (cmp_le worstFirst) ranked) by apply (sort_by_sorted worstFirst).
  assert (Hids : map ID rows = order).
  { clear -H2. induction H2 as [| key row order rows [E _] _ IH]; [done |]. cbn. by rewrite E, IH. }
  assert (Hsplit : ranked = ztake (l_Rows limits) ranked ++ zdrop (l_Rows limits) ranked).
  { symmetry. apply take_drop. }
  assert (Hrow : forall row, row ∈ ranked ->
    severityRank (Severity row) = max_severity (prune (group_of snap (ID row) found)) /\ ID row ∈ order).
  { intros row Hrow. rewrite Hp in Hrow. apply list_elem_of_lookup in Hrow as (i & Hi).
    destruct (Forall2_lookup_r _ _ _ _ _ H2 Hi) as (key & Hk & E & _ & Hsev). rewrite E. split; [done |].
    by apply list_elem_of_lookup_2 in Hk. }
  assert (Hcut : forall a b, a ∈ ztake (l_Rows limits) ranked -> b ∈ zdrop (l_Rows limits) ranked -> cmp_le worstFirst a b).
  { intros a b Ha Hb. rewrite Hsplit in Hsort. by eapply StronglySorted_app_1_elem_of. }
  split; [rewrite zlen_ztake by done; lia |]. split; [| split; [| split; [| split]]].
  - assert (Hn : NoDup (map ID ranked)) by (by rewrite Hp, Hids). rewrite Hsplit, map_app in Hn.
    by apply list.NoDup_app in Hn as [? _].
  - rewrite Hsplit in Hsort. by eapply StronglySorted_app_1_l.
  - intros item Hi. assert (Hk : group_key snap item ∈ order) by (apply Hin; by exists item).
    apply list_elem_of_lookup in Hk as (i & Hk). by destruct (Forall2_lookup_l _ _ _ _ _ H2 Hk) as (row & _ & _ & ? & _).
  - intros row Hrow'. destruct (Hrow row) as [? Hk]; [rewrite Hsplit; apply elem_of_app; by left |].
    split; [by apply Hin | done].
  - intros item Hi. assert (Hk : group_key snap item ∈ order) by (apply Hin; by exists item).
    rewrite <- Hids, <- Hp in Hk. apply map_elem in Hk as (row & Eid & Hmem). rewrite Hsplit in Hmem.
    apply elem_of_app in Hmem as [Hmem | Hmem]; [left; by exists row | right]. split.
    + destruct (Z.leb_spec (zlen ranked) (l_Rows limits)) as [Hle | Hgt]; [| lia]. exfalso.
      rewrite zdrop_none in Hmem by done. by apply elem_of_nil in Hmem.
    + intros row' Hrow'. etransitivity; [| by apply worst_rank, (Hcut row' row)].
      destruct (Hrow row) as [-> _]; [rewrite Hsplit; apply elem_of_app; by right |]. by rewrite Eid.
Qed.

Lemma group_nonempty snap item found : item ∈ found -> group_of snap (group_key snap item) found <> [].
Proof.
  intros Hi E. assert (H : item ∈ group_of snap (group_key snap item) found) by (by apply group_of_elem).
  rewrite E in H. by apply elem_of_nil in H.
Qed.

(** Folding loses nothing. *)
Lemma fold_covers snap found limits :
  Forall severity_ok found -> Forall title_ok found -> (0 <= l_Rows limits)%Z -> (0 <= l_Children limits)%Z ->
  exists q, fold snap found limits = Some q /\
    (forall row, row ∈ Rows q -> severityRank (Severity row) = max_severity (group_of snap (ID row) found)) /\
    (forall item, item ∈ found -> (exists row, row ∈ Rows q /\ ID row = group_key snap item) \/
       ((0 < Dropped q)%Z /\ forall row, row ∈ Rows q -> (severity item <= severityRank (Severity row))%Z)).
Proof.
  intros Hs Ht Hr Hc. pose proof (fold_rows_worst snap found limits Hs Hr Hc) as H.
  assert (Hkeep : forall item, item ∈ found -> prune (group_of snap (group_key snap item) found) <> [] /\
    max_severity (prune (group_of snap (group_key snap item) found)) = max_severity (group_of snap (group_key snap item) found)).
  { intros item Hi. apply prune_keeps; [by apply group_of_all.. | by apply group_nonempty]. }
  destruct (fold snap found limits) as [q |].
  - destruct H as (_ & _ & _ & _ & Hrows & Hcover). exists q. split; [done |]. split.
    + intros row Hrow. destruct (Hrows row Hrow) as [(item & Hi & E) ->]. rewrite <- E. by apply Hkeep.
    + intros item Hi. destruct (Hcover item Hi) as [? | [Hd Hall]]; [by left | right]. split; [done |]. intros row Hrow.
      etransitivity; [| by apply Hall]. destruct (Hkeep item Hi) as [_ ->]. by apply max_severity_ge, group_of_elem.
  - destruct H as (item & Hi & E). by destruct (Hkeep item Hi).
Qed.

(** ** What the detectors find *)

Definition symptom_ok (s : symptom) : Prop := (severityWarning <= s_severity s <= severityFatal)%Z.

Ltac symptoms := intros; repeat (case_match || simplify_option_eq); done.

Lemma container_fatal entry s : containerSymptomOf entry = Some s -> s_severity s = severityFatal.
Proof. unfold containerSymptomOf, waitingSymptom, terminatedSymptom, crashSymptom. symptoms. Qed.

Lemma worst_container_fatal pod s : worstContainerSymptom pod = Some s -> s_severity s = severityFatal.
Proof.
  unfold worstContainerSymptom. assert (H : forall best, (forall b, best = Some b -> s_severity b = severityFatal) ->
    fold_left (fun best entry =>
      match containerSymptomOf entry with
      | None => best
      | Some found => match best with
          | None => Some found
          | Some b => if (s_severity b <? s_severity found)%Z then Some found else best end
      end) (containerStatuses pod) best = Some s -> s_severity s = severityFatal).
  { induction (containerStatuses pod) as [| entry l IH]; intros best Hb; cbn; [apply Hb |]. apply IH.
    destruct (containerSymptomOf entry) as [found |] eqn:E; [apply container_fatal in E | done].
    destruct best as [b |]; [destruct (_ <? _)%Z |]; intros ? [= <-]; auto. }
  by apply H.
Qed.

Lemma unschedulable_fatal conditions s : unschedulable_in conditions = Some s -> s_severity s = severityFatal.
Proof. induction conditions as [| entry l IH]; cbn; [done |]. destruct (_ || _); [done |]. by intros [= <-]. Qed.

(** Whatever is wrong with a pod itself is of the worst severity. *)
Lemma pod_fatal pod s : podSymptom pod = Some s -> s_severity s = severityFatal.
Proof.
  unfold podSymptom, unschedulableSymptom. intros H. repeat case_match; simplify_eq; eauto using worst_container_fatal, unschedulable_fatal.
Qed.

Lemma workload_symptom_ok u kind_ now_ limits s : workloadSymptom u kind_ now_ limits = Some s -> symptom_ok s.
Proof.
  unfold workloadSymptom, replicaFailure, jobSymptom, progressStalled, shortOfReplicas, or_else, symptom_ok.
  destruct (replicaCounts u kind_). symptoms.
Qed.

Lemma autoscaler_symptom_ok u s : autoscalerSymptom u = Some s -> symptom_ok s.
Proof.
  unfold autoscalerSymptom, metricsUnreadable, scalingDisabled, replicasPinned, atMaximum, or_else, symptom_ok. symptoms.
Qed.

Lemma under_pressure_ok pressures u s : nodeUnderPressure pressures u = Some s -> symptom_ok s.
Proof.
  induction pressures as [| [name meaning] l IH]; cbn; [done |]. destruct (condition_at u name conditionTrue); [| done].
  by intros [= <-].
Qed.

Lemma node_symptom_ok pressures u s : nodeSymptom pressures u = Some s -> symptom_ok s.
Proof.
  unfold nodeSymptom, nodeNotReady, nodeCordoned, or_else. destruct (nodeUnderPressure pressures u) as [p |] eqn:E.
  - apply under_pressure_ok in E. unfold symptom_ok in *. symptoms.
  - unfold symptom_ok. symptoms.
Qed.

Lemma other_symptoms_ok u kind_ now_ s :
  claimSymptom u = Some s \/ expirySymptom u now_ = Some s \/ terminatingSymptom u kind_ now_ = Some s \/
  fluxSymptom u = Some s \/ argoSymptom u = Some s -> symptom_ok s.
Proof.
  unfold claimSymptom, expirySymptom, terminatingSymptom, fluxSymptom, argoSymptom, symptom_ok.
  intros H. repeat destruct H as [H | H]; revert H; symptoms.
Qed.

(** ** What a finding is: about an object of the snapshot, of a severity there
    is a name for *)

Definition held_at (snap : snapshot) (key : string) : list object := default [] (byKind snap !! key).

Definition finding_ok (snap : snapshot) (item : finding) : Prop :=
  severity_ok item /\ exists key, subject item ∈ held_at snap key.

Definition held_in (snap : snapshot) (l : list object) : Prop := forall a, a ∈ l -> exists key, a ∈ held_at snap key.

Lemma of_held snap group kind_ : held_in snap (of_ snap group kind_).
Proof. intros a Ha. by eexists. Qed.

Lemma everything_held snap kinds : held_in snap (everything kinds snap).
Proof. intros a Ha. apply flat_map_elem in Ha as (key & _ & Ha). by exists key. Qed.

#[local] Hint Resolve of_held everything_held : core.

Lemma omap_ok snap (f : object -> option finding) (l : list object) :
  held_in snap l -> (forall a item, f a = Some item -> severity_ok item /\ subject item = a) ->
  Forall (finding_ok snap) (omap f l).
Proof.
  intros Hl H. apply list.Forall_forall. intros item (a & Ha & Hf)%list_elem_of_omap.
  destruct (H a item Hf) as [? E]. split; [done |]. rewrite E. by apply Hl.
Qed.

Lemma flat_map_ok {A} snap (f : A -> list finding) (l : list A) :
  (forall a, Forall (finding_ok snap) (f a)) -> Forall (finding_ok snap) (flat_map f l).
Proof. intros H. induction l as [| a l IH]; cbn; [constructor |]. by apply Forall_app. Qed.

(** Splits a property of [n + 1] appended lists. *)
Ltac pieces n := lazymatch n with 0 => idtac | S ?n => apply List.Forall_app; split; [| pieces n] end.

Ltac detector :=
  apply omap_ok; [by auto |]; intros ?a ?item ?H; repeat (simplify_option_eq || case_match);
  (split; [cbv [severity_ok found_in severity] | done]).

Lemma stall_held snap reported now_ limits candidates :
  stallCandidatesOf snap reported now_ limits = Some candidates -> held_in snap candidates.
Proof.
  intros H a Ha. eapply cap_at_sub in Ha; [| exact H]. rewrite sort_by_elem, filter_elem in Ha.
  destruct Ha as [Ha _]. by eexists.
Qed.

Lemma detected w snap limits found : findings w snap limits = Some found -> Forall (finding_ok snap) found.1.
Proof.
  unfold findings, stallFindings. intros H.
  destruct (stallCandidatesOf snap _ (now w) limits) as [candidates |] eqn:Hc; [| done]. injection H as <-. cbn [fst].
  apply stall_held in Hc. pieces 6.
  - unfold podFindings. detector. by erewrite pod_fatal.
  - apply flat_map_ok. intros [group kind_]. unfold workloadFinding. detector. by eapply workload_symptom_ok.
  - unfold gitopsFindings, gitopsFinding, fluxFinding, argoFinding. detector; eapply other_symptoms_ok; eauto.
  - unfold autoscalerFindings. detector. by eapply autoscaler_symptom_ok.
  - unfold conditionFindings, conditionFinding. detector; done.
  - unfold clusterFindings. pieces 5.
    + unfold nodeFindings. detector. by eapply node_symptom_ok.
    + unfold claimFindings. detector. eapply other_symptoms_ok; eauto.
    + apply flat_map_ok. intros kind_. detector. eapply other_symptoms_ok; eauto.
    + unfold definitionFindings. detector; done.
    + unfold routingFindings. detector; done.
    + unfold expiryFindings. detector. eapply other_symptoms_ok; eauto.
  - unfold stallFinding. destruct (whatHappened w candidates). detector; done.
  Unshelve. all: first [exact "" | exact zeroTime].
Qed.

Lemma findings_ok w snap limits found : findings w snap limits = Some found -> Forall severity_ok found.1.
Proof. intros H%detected. eapply List.Forall_impl; [| exact H]. by intros item [? _]. Qed.

(** ** From what is leased to what is reported *)

Lemma or_default_pos asked default : (0 < default)%Z -> (0 < or_default asked default)%Z.
Proof. unfold or_default. zcases; lia. Qed.

Definition kind_key (d : ResourceDescriptor) : string := rd_Group d +s+ "/" +s+ rd_Kind d.

Lemma hold_one_held d snap u :
  held_at (hold_one d snap u) (kind_key d) = held_at snap (kind_key d) ++ [MkObject u d].
Proof. unfold held_at, hold_one. cbn [byKind]. fold (kind_key d). by rewrite lookup_insert_eq. Qed.

Lemma hold_one_keeps d snap u key item : item ∈ held_at snap key -> item ∈ held_at (hold_one d snap u) key.
Proof.
  intros H. destruct (decide (key = kind_key d)) as [-> | E].
  - rewrite hold_one_held. apply elem_of_app. by left.
  - unfold held_at, hold_one. cbn [byKind]. by rewrite lookup_insert_ne.
Qed.

Lemma hold_keeps d snap us key item : item ∈ held_at snap key -> item ∈ held_at (hold snap d us) key.
Proof.
  unfold hold. revert snap. induction us as [| u us IH]; intros snap H; cbn; [done |]. by apply IH, hold_one_keeps.
Qed.

Lemma hold_holds d snap us u : u ∈ us -> MkObject u d ∈ held_at (hold snap d us) (kind_key d).
Proof.
  unfold hold. intros H. revert snap. induction H as [u us | u v us _ IH]; intros snap; cbn; [| apply IH].
  apply (hold_keeps d). rewrite hold_one_held. apply elem_of_app. right. by left.
Qed.

Lemma batches_hold batches snap d us u :
  (d, us) ∈ batches -> u ∈ us ->
  MkObject u d ∈ held_at (fold_left (fun snap '(d, items) => hold snap d items) batches snap) (kind_key d).
Proof.
  intros H Hu. assert (Hkeep : forall l key item snap, item ∈ held_at snap key ->
    item ∈ held_at (fold_left (fun snap '(d, items) => hold snap d items) l snap) key).
  { induction l as [| [d' us'] l IH]; intros key item snap' Hi; cbn; [done |]. by apply IH, hold_keeps. }
  apply list_elem_of_split in H as (before & after & ->). rewrite fold_left_app. cbn. by apply Hkeep, hold_holds.
Qed.

(** Everything that is read of a kind worth reading is in the snapshot. *)
Lemma collect_holds w limits d us u :
  (0 <= l_Fallback limits)%Z -> d ∈ Descs w -> collected d = true -> Lease w d = Answered us -> u ∈ us ->
  exists snap, collect w limits = Some snap /\ MkObject u d ∈ of_ snap (rd_Group d) (rd_Kind d).
Proof.
  intros Hf Hd Hc Hl Hu. unfold collect, alsoCached. rewrite cap_at_ok by done. cbn.
  eexists. split; [done |]. unfold of_. cbn [byKind]. apply (batches_hold _ _ d us); [| done].
  apply map_elem. exists d. rewrite Hl. split; [done |]. apply elem_of_app. left. unfold wanted. by apply filter_elem.
Qed.

Lemma findings_some w snap limits :
  (0 <= l_Candidates limits)%Z -> exists found, findings w snap limits = Some found /\
    forall item, item ∈ podFindings snap -> item ∈ found.1.
Proof.
  intros Hc. unfold findings, stallFindings, stallCandidatesOf. rewrite cap_at_ok by done. eexists. split; [done |].
  intros item Hi. cbn [fst]. apply elem_of_app. by left.
Qed.

Lemma rank_fatal name : severityRank name = severityFatal -> name = SeverityHigh.
Proof. unfold severityRank. by repeat case_bool_decide. Qed.

(** The findings of this world, whatever the limits. *)
Definition titles_ok (w : World) (limits : Limits) : Prop :=
  forall snap found, collect w (orDefaults limits) = Some snap -> findings w snap (orDefaults limits) = Some found ->
  Forall title_ok found.1.

(** C13: a diagnosis loses nothing but what it explains away.  A finding that a
    workload is short of replicas is explained away by a pod's finding about the
    same owner that is at least as severe.  When for every owner something is
    left, the diagnosis gives one row per owner, worst first and as many as fit;
    a row is exactly as severe as the worst finding about its owner's objects
    that is not explained away, and as severe as any of them if no pod's own
    finding bears the title of a short workload; and a finding whose owner has
    no row was cut for the limit, below rows all at least as severe.  When all
    that is found about some owner is explained away the diagnosis panics, which
    only a pod's finding that bears that title can bring about. *)
Theorem build_reports w limits snap found :
  collect w (orDefaults limits) = Some snap -> findings w snap (orDefaults limits) = Some found ->
  let group item := group_of snap (group_key snap item) found.1 in
  match Build w limits with
  | Some q =>
      (zlen (Rows q) <= l_Rows (orDefaults limits))%Z /\ NoDup (map ID (Rows q)) /\
      StronglySorted (cmp_le worstFirst) (Rows q) /\
      (forall item, item ∈ found.1 -> exists other, other ∈ group item /\ ~ explainedAway (group item) other) /\
      (forall row, row ∈ Rows q -> exists item, item ∈ found.1 /\ group_key snap item = ID row /\
         ~ explainedAway (group item) item /\ severity item = severityRank (Severity row) /\
         (forall other, other ∈ group item -> ~ explainedAway (group item) other -> (severity other <= severity item)%Z) /\
         (Forall title_ok (group item) -> forall other, other ∈ group item -> (severity other <= severity item)%Z)) /\
      (forall item, item ∈ found.1 -> (exists row, row ∈ Rows q /\ ID row = group_key snap item) \/
         ((0 < Dropped q)%Z /\ forall row, row ∈ Rows q ->
            ~ explainedAway (group item) item \/ Forall title_ok (group item) -> (severity item <= severityRank (Severity row))%Z))
  | None => exists item, item ∈ found.1 /\ Forall (explainedAway (group item)) (group item) /\ ~ Forall title_ok (group item)
  end.
Proof.
  intros Hs Hf group. pose proof (findings_ok _ _ _ _ Hf) as Hsev.
  pose proof (fold_rows_worst snap found.1 (orDefaults limits) Hsev) as H.
  assert (Hg : forall item, Forall severity_ok (group item)) by (intros; by apply group_of_all).
  assert (Hself : forall item, item ∈ found.1 -> item ∈ group item) by (intros; by apply group_of_elem).
  assert (Hkeep : forall item, item ∈ found.1 -> Forall title_ok (group item) ->
    prune (group item) <> [] /\ max_severity (prune (group item)) = max_severity (group item)).
  { intros item Hi Ht. apply prune_keeps; [done | done | by apply group_nonempty]. }
  assert (Hpos : forall item, Forall (fun x => (0 < severity x)%Z) (prune (group item))).
  { intros item. apply list.Forall_forall. intros x Hx%prune_sub. specialize (Hg item). rewrite list.Forall_forall in Hg.
    specialize (Hg x Hx). unfold severity_ok, severityWarning in Hg. lia. }
  unfold Build. rewrite Hs. cbn. rewrite Hf. cbn.
  destruct (fold snap found.1 (orDefaults limits)) as [q |]; cbn [mbind option_bind fmap option_fmap option_map Rows Dropped].
  - destruct H as (H1 & H2 & H3 & H4 & H5 & H6); [by apply Z.lt_le_incl, or_default_pos.. |].
    split; [done |]. split; [done |]. split; [done |]. split; [| split].
    + intros item Hi. specialize (H4 item Hi). fold (group item) in H4. destruct (prune (group item)) as [| other l] eqn:E; [done |].
      exists other. apply prune_elem; [done |]. rewrite E. by left.
    + intros row Hrow. destruct (H5 row Hrow) as [(some & Hi & Ekey) Hrank].
      destruct (max_severity_in (prune (group some))) as (item & Hin & Emax); [by apply H4 | done |].
      pose proof Hin as Hin'. apply prune_elem in Hin' as [Hmem Hno]; [| done].
      apply group_of_elem in Hmem as [Hfound Hkey].
      assert (Egroup : group item = group some) by (unfold group; by rewrite Hkey).
      exists item. rewrite Egroup. split; [done |]. split; [congruence |]. split; [done |]. rewrite <- Ekey in Hrank.
      fold (group some) in Hrank. split; [congruence |]. split.
      * intros other Ho Hno'. rewrite Emax. apply max_severity_ge, prune_elem; done.
      * intros Ht other Ho. rewrite Emax. destruct (Hkeep some Hi Ht) as [_ ->]. by apply max_severity_ge.
    + intros item Hi. destruct (H6 item Hi) as [? | [Hd Hall]]; [by left | right]. split; [done |]. intros row Hrow Hor.
      etransitivity; [| by apply Hall]. fold (group item). destruct Hor as [Hno | Ht].
      * apply max_severity_ge, prune_elem; [done |]. by split; [apply Hself |].
      * destruct (Hkeep item Hi Ht) as [_ ->]. by apply max_severity_ge, Hself.
  - destruct H as (item & Hi & E); [by apply Z.lt_le_incl, or_default_pos.. |]. fold (group item) in E. exists item. split; [done |].
    split; [| intros Ht; by destruct (Hkeep item Hi Ht)].
    apply list.Forall_forall. intros other Ho. apply dec_stable. intros Hno.
    assert (Hp : other ∈ prune (group item)) by (by apply prune_elem). rewrite E in Hp. by apply elem_of_nil in Hp.
Qed.

(** A pod in trouble is reported.  Whatever limits are asked for and in
    whatever order maps are iterated and reads finish, the diagnosis of a
    cluster that gives out a pod with a symptom has a row of high severity for
    the pod's owner, or as many rows of high severity as it may have. *)
Theorem build_reports_pods w limits d us pod s :
  d ∈ Descs w -> rd_Group d = "" -> rd_Resource d = "pods" -> rd_Kind d = kindPod ->
  Lease w d = Answered us -> pod ∈ us -> podSymptom pod = Some s -> titles_ok w limits ->
  exists snap q, collect w (orDefaults limits) = Some snap /\ Build w limits = Some q /\
    ((exists row, row ∈ Rows q /\ ID row = uid (owner snap (MkObject pod d)) /\ Severity row = SeverityHigh) \/
     (Dropped q > 0)%Z /\ Forall (fun row => Severity row = SeverityHigh) (Rows q)).
Proof.
  intros Hd Hg Hres Hk Hl Hu Hs Ht. assert (Hc : collected d = true) by (unfold collected; by rewrite Hg, Hres).
  set (ls := orDefaults limits) in *.
  destruct (collect_holds w ls d us pod) as (snap & Hsnap & Hin); [by apply Z.lt_le_incl, or_default_pos | done.. |].
  destruct (findings_some w snap ls) as (found & Hfound & Hpods); [by apply Z.lt_le_incl, or_default_pos |].
  set (item := found_in "pod-startup" s (rolloutOf snap (MkObject pod d)) kindPod (MkObject pod d) (podSince pod)).
  assert (Hitem : item ∈ found.1).
  { apply Hpods. apply list_elem_of_omap. exists (MkObject pod d). cbn. rewrite Hs. split; [| done].
    by rewrite Hg, Hk in Hin. }
  destruct (fold_covers snap found.1 ls) as (q & Hq & Hrows & Hcover).
  { by eapply findings_ok. }
  { by eapply Ht. }
  { by apply Z.lt_le_incl, or_default_pos. }
  { by apply Z.lt_le_incl, or_default_pos. }
  exists snap. eexists. split; [done |]. unfold Build. fold ls. rewrite Hsnap. cbn. rewrite Hfound. cbn. rewrite Hq. cbn.
  split; [done |]. cbn [Rows Dropped]. pose proof (pod_fatal pod s Hs) as Hfatal.
  assert (Hhigh : forall row, row ∈ Rows q -> (severityFatal <= severityRank (Severity row))%Z -> Severity row = SeverityHigh).
  { intros row _ Hge. apply rank_fatal. pose proof (rank_range (Severity row)) as [_ ?]. unfold severityFatal in *. lia. }
  destruct (Hcover item Hitem) as [(row & Hrow & Eid) | [Hdrop Hall]]; [left | right].
  - exists row. split; [done |]. split; [done |]. apply Hhigh; [done |]. rewrite (Hrows row Hrow).
    rewrite <- Hfatal. apply (max_severity_ge _ item). by apply group_of_elem.
  - split; [lia |]. apply list.Forall_forall. intros row Hrow. apply Hhigh; [done |]. rewrite <- Hfatal. by apply Hall.
Qed.

(** ** Nothing is made up *)

Definition leased (w : World) (item : object) : Prop := exists us, Lease w (desc item) = Answered us /\ obj item ∈ us.

Definition snapshot_ok (w : World) (snap : snapshot) : Prop :=
  (forall key item, item ∈ held_at snap key -> leased w item) /\
  (forall key item, byUID snap !! key = Some item -> leased w item).

Lemma hold_one_ok w d us snap u :
  Lease w d = Answered us -> u ∈ us -> snapshot_ok w snap -> snapshot_ok w (hold_one d snap u).
Proof.
  intros Hl Hu [Hk Hi]. assert (Hn : leased w (MkObject u d)) by by exists us.
  split; intros key item.
  - destruct (decide (key = kind_key d)) as [-> | E].
    + rewrite hold_one_held, elem_of_app, list_elem_of_singleton. intros [? | ->]; [by eapply Hk | done].
    + unfold held_at, hold_one. cbn [byKind]. rewrite lookup_insert_ne by done. apply Hk.
  - unfold hold_one. cbn [byUID]. rewrite lookup_insert_Some. intros [[_ <-] | [_ ?]]; [done | by eapply Hi].
Qed.

Lemma hold_ok w d us us' snap :
  Lease w d = Answered us -> us' ⊆ us -> snapshot_ok w snap -> snapshot_ok w (hold snap d us').
Proof.
  intros Hl. unfold hold. revert snap. induction us' as [| u us' IH]; intros snap Hsub Hs; cbn; [done |].
  apply IH; [set_solver | eapply hold_one_ok; [done | set_solver | done]].
Qed.

Lemma collect_ok w limits snap : collect w limits = Some snap -> snapshot_ok w snap.
Proof.
  unfold collect, read. destruct (alsoCached _ _ _) as [more |]; [| done]. intros H. injection H as <-.
  set (types := _ ++ more). clearbody types. set (s0 := newSnapshot).
  assert (H0 : snapshot_ok w s0).
  { split; intros key item; [intros H; by apply elem_of_nil in H | cbn; by rewrite lookup_empty]. }
  assert (Hb : snapshot_ok w (fold_left (fun snap '(d, items) => hold snap d items)
    (map (fun d => (d, answered [] (Lease w d))) types) s0)); [| by destruct Hb].
  clearbody s0. revert s0 H0. induction types as [| d types IH]; intros s0 H0; cbn; [done |]. apply IH.
  destruct (Lease w d) as [us | |] eqn:E; cbn; [by eapply hold_ok | done..].
Qed.

Lemma owner_leased w snap item : snapshot_ok w snap -> leased w item -> leased w (owner snap item).
Proof.
  intros [_ Hi]. unfold owner. generalize maxOwnerDepth. intros n. revert item.
  induction n as [| n IH]; intros item Hl; cbn; [done |].
  destruct (controllerOf snap item) as [next |] eqn:E; [| done]. apply IH. revert E. unfold controllerOf.
  induction (GetOwnerReferences (obj item)) as [| [u controls] refs IHr]; cbn; [done |].
  destruct controls; [apply Hi | apply IHr].
Qed.

Lemma fold_ids snap found limits q row :
  fold snap found limits = Some q -> row ∈ Rows q -> exists item, item ∈ found /\ group_key snap item = ID row.
Proof.
  unfold fold, fold_rows. intros Hf Hrow. pose proof (fold_groups_ok snap found) as Hok.
  destruct (fold_groups snap found) as [[groups owners] order]. destruct Hok as (_ & Hin & _ & Ho).
  destruct (mapM _ order) as [rows |] eqn:Em; [| done]. cbn in Hf. apply mapM_Some in Em.
  assert (Hr : row ∈ rows).
  { rewrite <- (sort_by_elem (inOrder ByWorst)). by eapply capRows_sub. }
  apply list_elem_of_lookup in Hr as (i & Hi). destruct (Forall2_lookup_r _ _ _ _ _ Em Hi) as (key & Hk & Er).
  apply list_elem_of_lookup_2 in Hk. destruct (Ho key Hk) as (own & Eo & Eu). rewrite Eo in Er. cbn in Er.
  unfold rowOf in Er. case_match; [done |]. simplify_option_eq. cbn. by apply Hin.
Qed.

(** C40: a diagnosis makes nothing up: every finding is of a severity there is a
    name for and about an object some read came back with, and every row bears
    the identity of such an object. *)
Theorem diagnosis_typed w limits snap found :
  collect w (orDefaults limits) = Some snap -> findings w snap (orDefaults limits) = Some found ->
  Forall (fun item => (severityWarning <= severity item <= severityFatal)%Z /\ leased w (subject item)) found.1 /\
  forall q row, Build w limits = Some q -> row ∈ Rows q -> exists item, leased w item /\ uid item = ID row.
Proof.
  intros Hs Hf. pose proof (collect_ok _ _ _ Hs) as Hok. pose proof (detected _ _ _ _ Hf) as Hd. split.
  - eapply List.Forall_impl; [| exact Hd]. intros item [? [key Hk]]. split; [done |]. by eapply (proj1 Hok).
  - intros q row. unfold Build. rewrite Hs. cbn. rewrite Hf. cbn.
    destruct (fold snap found.1 (orDefaults limits)) as [q' |] eqn:Eq; [| done]. cbn. intros [= <-] Hrow. cbn in Hrow.
    destruct (fold_ids _ _ _ _ _ Eq Hrow) as (item & Hi & Eid). exists (owner snap (subject item)). split; [| done].
    rewrite list.Forall_forall in Hd. destruct (Hd item Hi) as [_ [key Hk]]. apply owner_leased; [done |].
    by eapply (proj1 Hok).
Qed.

Definition titles_okb (w : World) (limits : Limits) : bool :=
  match collect w (orDefaults limits) with
  | None => true
  | Some snap =>
      match findings w snap (orDefaults limits) with
      | None => true
      | Some found => forallb (fun item => negb (bool_decide (kind item = kindPod /\ title item = titleShortOfReplicas))) found.1
      end
  end.

Lemma titles_okb_ok w limits : titles_okb w limits = true -> titles_ok w limits.
Proof.
  unfold titles_okb. intros H snap found Hs Hf. rewrite Hs, Hf in H. apply list.Forall_forall. intros item Hi Hk Ht.
  rewrite forallb_elem in H. specialize (H item Hi). by rewrite bool_decide_true in H.
Qed.

End diagnosis.

(** ** A cluster of documents *)

Definition doc_time (u : Doc) (field : string) : option time :=
  match asInt (aget (default [] (asMap (aget (Unstr.Object u) "metadata"))) field) with
  | Some n => Some n
  | None => None
  end.

#[local] Instance doc_meta : Meta Doc := {
  GetOwnerReferences u := match doc_as "" asString u ["metadata"; "owner"] with Nested v true _ => [(v, true)] | _ => [] end;
  GetDeletionTimestamp u := doc_time u "deletionTimestamp";
  GetCreationTimestamp u := default zeroTime (doc_time u "creationTimestamp");
  GetAnnotation u key := "";
  GetGeneration u := 0%Z;
  GetFinalizers u := [];
}.
#[local] Existing Instance plain_times.

Definition pods : ResourceDescriptor := MkResourceDescriptor "" "v1" "pods" kindPod true "".

(** A pod that ended in the phase Failed, for a reason it gives itself. *)
Definition failed_pod (reason : string) : Doc :=
  MkDoc [("metadata", AMap [("name", AString "p"); ("namespace", AString "n"); ("uid", AString "u1")]);
         ("status", AMap [("phase", AString "Failed"); ("reason", AString reason)])].

(** A pod being deleted since a second, with a grace period in seconds. *)
Definition leaving_pod (seconds : Z) : Doc :=
  MkDoc [("metadata", AMap [("uid", AString "u2"); ("deletionTimestamp", AInt 0)]);
         ("spec", AMap [("terminationGracePeriodSeconds", AInt seconds)])].

Definition cluster_of (pod : Doc) : @World Doc :=
  MkWorld [pods] [] (fun _ => Answered [pod]) (fun _ => "pods") (fun _ _ => Answered []) (fun l => l) (fun l => l)
    ["/Pod"] ["/Pod"] ["/Pod"] nodePressures Second.

Definition no_limits : Limits := MkLimits 0 0 0 0 0 0 0 0 0 0.

Lemma build_reports_pods_witness :
  podSymptom (failed_pod "Evicted") = Some (failedPodSymptom (failed_pod "Evicted")) /\
  exists snap q, collect (cluster_of (failed_pod "Evicted")) (orDefaults no_limits) = Some snap /\
    Build (cluster_of (failed_pod "Evicted")) no_limits = Some q /\
    ((exists row, row ∈ Rows q /\ ID row = uid (owner snap (MkObject (failed_pod "Evicted") pods)) /\ Severity row = SeverityHigh) \/
     (Dropped q > 0)%Z /\ Forall (fun row => Severity row = SeverityHigh) (Rows q)).
Proof.
  split; [by vm_compute |].
  apply (build_reports_pods _ _ pods [failed_pod "Evicted"] _ (failedPodSymptom (failed_pod "Evicted")));
    [by left | done.. | by left | by vm_compute | apply titles_okb_ok; by vm_compute].
Defined.

Lemma build_reports_witness :
  let w := cluster_of (failed_pod "Evicted") in
  exists q, Build w no_limits = Some q /\ zlen (Rows q) = 1%Z /\ StronglySorted (cmp_le worstFirst) (Rows q) /\ NoDup (map ID (Rows q)).
Proof.
  cbn zeta. assert (Hb : option_map (fun q => zlen (Rows q)) (Build (cluster_of (failed_pod "Evicted")) no_limits) = Some 1%Z)
    by (vm_compute; reflexivity).
  destruct (collect (cluster_of (failed_pod "Evicted")) (orDefaults no_limits)) as [snap |] eqn:Hs;
    [| by vm_compute in Hs].
  destruct (findings_some (cluster_of (failed_pod "Evicted")) snap (orDefaults no_limits)) as (found & Hf & _); [done |].
  pose proof (build_reports (cluster_of (failed_pod "Evicted")) no_limits snap found Hs Hf) as H.
  destruct (Build (cluster_of (failed_pod "Evicted")) no_limits) as [q |] eqn:Hq; [| discriminate].
  cbn in Hb. injection Hb as Hn. destruct H as (_ & Hnd & Hsorted & _).
  exists q. split; [exact eq_refl |]. split; [exact Hn |]. split; [exact Hsorted | exact Hnd].
Defined.

Lemma diagnosis_typed_witness :
  let w := cluster_of (failed_pod "Evicted") in
  exists snap found, collect w (orDefaults no_limits) = Some snap /\
    findings w snap (orDefaults no_limits) = Some found /\ zlen found.1 = 1%Z /\
    Forall (fun item => (severityWarning <= severity item <= severityFatal)%Z /\ leased w (subject item)) found.1.
Proof.
  cbn zeta. assert (Hn : match collect (cluster_of (failed_pod "Evicted")) (orDefaults no_limits) with
    | Some snap => match findings (cluster_of (failed_pod "Evicted")) snap (orDefaults no_limits) with
        | Some found => zlen found.1 | None => 0%Z end
    | None => 0%Z end = 1%Z) by (vm_compute; reflexivity).
  destruct (collect (cluster_of (failed_pod "Evicted")) (orDefaults no_limits)) as [snap |] eqn:Hs; [| congruence].
  destruct (findings (cluster_of (failed_pod "Evicted")) snap (orDefaults no_limits)) as [found |] eqn:Hf; [| congruence].
  exists snap, found. split; [done |]. split; [exact Hf |]. split; [exact Hn |].
  exact (proj1 (diagnosis_typed _ no_limits snap found Hs Hf)).
Defined.

(** A failed pod whose reason reads like the title of a short workload explains
    itself away: nothing of its group is left and indexing it panics. *)
Theorem build_panics_on_reason : Build (cluster_of (failed_pod titleShortOfReplicas)) no_limits = None.
Proof. by vm_compute. Qed.

(** A grace period of more seconds than a duration has nanoseconds for wraps
    around: the pod is reported as stuck a second after it was asked to go. *)
Theorem long_grace_wraps :
  exists s, terminatingSymptom (leaving_pod 9223372037) kindPod Second = Some s /\
    terminatingSymptom (leaving_pod 9223371000) kindPod Second = None.
Proof. eexists. split; [by vm_compute | by vm_compute]. Qed.

End Diagnosis.
