(* ===== verification/Atomic.v ===== *)
(** internal/atomicfile/atomicfile.go and internal/filetx/filetx.go: replacing a
    file so that a crash leaves the old content or the new, and reading one
    within a limit.  The file system is names for files, and contents: a file's
    content survives a crash once it was synced, a change of names once the
    directory was; until then a crash may show any earlier namespace. *)

From S2P Require Import Prelude Text.

Module Atomic.
Import Text.

(** ** The file system *)

(** [past]: the namespaces since the directory was last synced. *)
Record fs := MkFs {
  names : gmap string nat;
  past : list (gmap string nat);
  bodies : gmap nat string;
  flushed : gset nat;
}.

Definition view (f : fs) (path : string) : option string := i ← names f !! path; bodies f !! i.

(** The namespace changes. *)
Definition renamed (f : fs) (ns : gmap string nat) : fs := MkFs ns (names f :: past f) (bodies f) (flushed f).

(** [os.CreateTemp] makes a file under a name that is free; the patterns the
    callers use never give the name of the path itself. *)
Definition created (f : fs) (temp : string) (i : nat) : fs :=
  MkFs (<[temp := i]> (names f)) (names f :: past f) (<[i := ""]> (bodies f)) (flushed f ∖ {[i]}).

(** [file.Write] of the first [n] bytes. *)
Definition wrote (f : fs) (i : nat) (body : string) (n : nat) : fs :=
  MkFs (names f) (past f) (<[i := String.substring 0 n body]> (bodies f)) (flushed f ∖ {[i]}).

(** [file.Sync] and the [Sync] of a directory. *)
Definition synced (f : fs) (i : nat) : fs := MkFs (names f) (past f) (bodies f) ({[i]} ∪ flushed f).
Definition settled (f : fs) : fs := MkFs (names f) [] (bodies f) (flushed f).

(** What a file may hold after a crash, under one of the namespaces. *)
Definition left_by (f : fs) (ns : gmap string nat) (path : string) (c : option string) : Prop :=
  match ns !! path with
  | None => c = None
  | Some i => if bool_decide (i ∈ flushed f) then c = bodies f !! i else is_Some c
  end.

Definition may (f : fs) (path : string) (c : option string) : Prop :=
  exists ns, ns ∈ names f :: past f /\ left_by f ns path c.

(** A crash: each name as some namespace since the last sync had it, each file
    as it was synced, or anything. *)
Definition crashed (f f' : fs) : Prop :=
  (forall path, exists ns, ns ∈ names f :: past f /\ names f' !! path = ns !! path) /\
  (forall i, i ∈ flushed f -> bodies f' !! i = bodies f !! i) /\
  past f' = [] /\ dom (bodies f') = dom (bodies f) /\ flushed f' = dom (bodies f').

(** ** Saving *)

Inductive error :=
| MakeDirFailed | CreateFailed | WriteFailed | ErrShortWrite | SyncFailed | CloseFailed | ChmodFailed
| RenameFailed | SyncDirFailed.

(** Where [Save], [replace] and [fill] are; [stray] is a file that was not removed. *)
Inductive stage :=
| Begin
| Create
| Write (i : nat) (temp : string)
| Sync (i : nat) (temp : string)
| Close (i : nat) (temp : string) (err : option error)
| Chmod (i : nat) (temp : string)
| Rename (i : nat) (temp : string)
| Remove (i : nat) (temp : string) (err : error)
| SyncDir
| Finished (err : option error) (stray : option string).

(** What the operating system answers: success, the name [CreateTemp] chose, the
    bytes [Write] took. *)
Record outcome := MkOutcome { ok : bool; chosen : string; count : nat }.

Section save.
Variable windows : bool.
Variables path body : string.

(** One call of [Save]. *)
Definition advance (st : stage) (o : outcome) (f : fs) : stage * fs :=
  match st with
  | Begin => (if ok o then Create else Finished (Some MakeDirFailed) None, f)
  | Create =>
      if ok o && bool_decide (names f !! chosen o = None) && negb (bool_decide (chosen o = path)) then
        let i := fresh (dom (bodies f)) in (Write i (chosen o), created f (chosen o) i)
      else (Finished (Some CreateFailed) None, f)
  | Write i temp =>
      let n := Nat.min (count o) (String.length body) in
      let f := wrote f i body n in
      if negb (ok o) then (Close i temp (Some WriteFailed), f)
      else if bool_decide (n <> String.length body) then (Close i temp (Some ErrShortWrite), f)
      else (Sync i temp, f)
  | Sync i temp => if ok o then (Close i temp None, synced f i) else (Close i temp (Some SyncFailed), f)
  | Close i temp (Some err) => (Remove i temp err, f)
  | Close i temp None => (if ok o then Chmod i temp else Remove i temp CloseFailed, f)
  | Chmod i temp => (if ok o then Rename i temp else Remove i temp ChmodFailed, f)
  | Rename i temp =>
      if ok o then (SyncDir, renamed f (<[path := i]> (delete temp (names f))))
      else (Remove i temp RenameFailed, f)
  | Remove i temp err =>
      if ok o then (Finished (Some err) None, renamed f (delete temp (names f)))
      else (Finished (Some err) (Some temp), f)
  | SyncDir =>
      if windows then (Finished None None, f)
      else if ok o then (Finished None None, settled f) else (Finished (Some SyncDirFailed) None, f)
  | Finished err stray => (Finished err stray, f)
  end.

(** [Save], with what each call of the operating system answers. *)
Fixpoint run (os : list outcome) (st : stage) (f : fs) : stage * fs :=
  match os with
  | [] => (st, f)
  | o :: os => let '(st, f) := advance st o f in run os st f
  end.

Definition Save (os : list outcome) (f : fs) : stage * fs := run os Begin f.

(** The calls that are left. *)
Definition remaining (st : stage) : nat :=
  match st with
  | Begin => 8 | Create => 7 | Write _ _ => 6 | Sync _ _ => 5 | Close _ _ _ => 4 | Chmod _ _ => 3 | Rename _ _ => 2
  | Remove _ _ _ | SyncDir => 1
  | Finished _ _ => 0
  end.

Lemma advance_remaining st o f : remaining (advance st o f).1 <= remaining st - 1.
Proof. destruct st; cbn; repeat case_match; cbn; lia. Qed.

Lemma run_finished os st f : remaining st <= length os -> exists err stray, (run os st f).1 = Finished err stray.
Proof.
  revert st f. induction os as [| o os IH]; intros st f H; cbn in *.
  - destruct st; cbn in H; try lia. by do 2 eexists.
  - pose proof (advance_remaining st o f) as Ha. destruct (advance st o f) as [st' f']. apply IH. cbn in Ha. lia.
Qed.

(** ** What a save leaves behind *)

(** Names only refer to files there are. *)
Definition fs_ok (f : fs) : Prop :=
  forall ns p i, ns ∈ names f :: past f -> ns !! p = Some i -> i ∈ dom (bodies f).

(** The files there were are as they were; an earlier namespace is one there was
    or that one with a new file besides. *)
Record kept (f0 f : fs) : Prop := {
  k_bodies : forall j, j ∈ dom (bodies f0) -> bodies f !! j = bodies f0 !! j /\ (j ∈ flushed f <-> j ∈ flushed f0);
  k_dom : dom (bodies f0) ⊆ dom (bodies f);
  k_past : forall ns, ns ∈ past f -> (ns ∈ names f0 :: past f0) \/
    exists temp i, temp <> path /\ i ∈ dom (bodies f) /\ ns = <[temp := i]> (names f0);
}.

(** A new file under a name of its own. *)
Definition beside (f0 f : fs) (i : nat) (temp : string) : Prop :=
  temp <> path /\ names f0 !! temp = None /\ (i ∉ dom (bodies f0)) /\ (i ∈ dom (bodies f)) /\
  names f = <[temp := i]> (names f0).

Definition whole (f : fs) (i : nat) : Prop := bodies f !! i = Some body /\ i ∈ flushed f.

(** The new file in place of the old. *)
Definition replaced (f0 f : fs) : Prop :=
  exists i, i ∈ dom (bodies f) /\ whole f i /\ names f = <[path := i]> (names f0).

Definition stage_ok (f0 : fs) (st : stage) (f : fs) : Prop :=
  kept f0 f /\
  match st with
  | Begin | Create => names f = names f0
  | Write i temp => beside f0 f i temp
  | Close i temp (Some err) | Remove i temp err => beside f0 f i temp /\ err <> SyncDirFailed
  | Sync i temp => beside f0 f i temp /\ bodies f !! i = Some body
  | Close i temp None | Chmod i temp | Rename i temp => beside f0 f i temp /\ whole f i
  | SyncDir => replaced f0 f
  | Finished None _ => replaced f0 f /\ (windows = false -> past f = [])
  | Finished (Some SyncDirFailed) _ => replaced f0 f
  | Finished (Some _) None => names f = names f0
  | Finished (Some _) (Some temp) => exists i, beside f0 f i temp
  end.

Lemma kept_refl f : kept f f.
Proof. split; [done | done |]. intros ns H. left. by right. Qed.

Lemma kept_same_past f0 f f' :
  past f' = past f -> dom (bodies f) ⊆ dom (bodies f') ->
  (forall j, j ∈ dom (bodies f0) -> bodies f' !! j = bodies f !! j /\ (j ∈ flushed f' <-> j ∈ flushed f)) ->
  kept f0 f -> kept f0 f'.
Proof.
  intros Hp Hd Hb [K1 K2 K3]. split.
  - intros j Hj. destruct (Hb j Hj) as [-> ->]. by apply K1.
  - set_solver.
  - rewrite Hp. intros ns [? | (temp & i & ? & ? & ?)]%K3; [by left | right]. exists temp, i. set_solver.
Qed.

(** A change of names from where the save began, or from a new file beside. *)
Lemma kept_renamed f0 f ns :
  names f = names f0 \/ (exists i temp, beside f0 f i temp) -> kept f0 f -> kept f0 (renamed f ns).
Proof.
  intros Hn [K1 K2 K3]. split; [done | done |]. cbn. intros ns' [-> | H]%list.elem_of_cons; [| by apply K3].
  destruct Hn as [-> | (i & temp & ? & ? & ? & ? & ->)]; [left; by left | right; by exists temp, i].
Qed.

Lemma substring_all s : String.substring 0 (String.length s) s = s.
Proof. induction s as [| c s IH]; [done |]. cbn. by rewrite IH. Qed.

Lemma create_ok f0 f temp :
  fs_ok f0 -> kept f0 f -> names f = names f0 -> names f !! temp = None -> temp <> path ->
  let i := fresh (dom (bodies f)) in kept f0 (created f temp i) /\ beside f0 (created f temp i) i temp.
Proof.
  intros Hf Hk Hn Ht Hp i. assert (Hi : i ∉ dom (bodies f)) by apply is_fresh.
  assert (Hi0 : i ∉ dom (bodies f0)) by (intros H; apply Hi; by apply (k_dom _ _ Hk)).
  split; [| repeat split; [done | by rewrite <- Hn | done | cbn; set_solver | cbn; by rewrite Hn]].
  destruct Hk as [K1 K2 K3]. split.
  - intros j Hj. destruct (K1 j Hj) as [<- <-]. assert (i <> j) by congruence. cbn. rewrite lookup_insert_ne by done.
    split; [done | set_solver].
  - cbn. set_solver.
  - cbn. rewrite Hn. intros ns [-> | [? | (t & k & ? & ? & ?)]%K3]%list.elem_of_cons; [left; by left | by left |].
    right. exists t, k. set_solver.
Qed.

Lemma wrote_ok f0 f i temp n :
  kept f0 f -> beside f0 f i temp -> kept f0 (wrote f i body n) /\ beside f0 (wrote f i body n) i temp.
Proof.
  intros Hk (H1 & H2 & H3 & H4 & H5). split.
  - apply (kept_same_past _ f); [done | cbn; set_solver | | done]. intros j Hj. assert (i <> j) by congruence. cbn.
    rewrite lookup_insert_ne by done. split; [done | set_solver].
  - repeat split; [done.. | cbn; set_solver | done].
Qed.

Lemma synced_ok f0 f i temp :
  kept f0 f -> beside f0 f i temp -> kept f0 (synced f i) /\ beside f0 (synced f i) i temp.
Proof.
  intros Hk (H1 & H2 & H3 & H4 & H5). split; [| done].
  apply (kept_same_past _ f); [done | done | | done]. intros j Hj. cbn. split; [done | set_solver].
Qed.

Lemma removed_ok f0 f i temp :
  kept f0 f -> beside f0 f i temp ->
  kept f0 (renamed f (delete temp (names f))) /\ delete temp (names f) = names f0.
Proof.
  intros Hk Hb. split; [apply kept_renamed; [right; by exists i, temp | done] |].
  destruct Hb as (_ & Ht & _ & _ & ->). by rewrite delete_insert_id.
Qed.

Lemma replaced_ok f0 f i temp :
  kept f0 f -> beside f0 f i temp -> whole f i ->
  let f' := renamed f (<[path := i]> (delete temp (names f))) in kept f0 f' /\ replaced f0 f'.
Proof.
  intros Hk Hb Hw f'. split; [apply kept_renamed; [right; by exists i, temp | done] |].
  destruct (removed_ok _ _ _ _ Hk Hb) as [_ Hd]. destruct Hb as (_ & _ & _ & Hi & _).
  exists i. cbn. by rewrite Hd.
Qed.

Lemma advance_ok f0 st o f :
  fs_ok f0 -> stage_ok f0 st f -> stage_ok f0 (advance st o f).1 (advance st o f).2.
Proof.
  intros Hf [Hk H]. destruct st as [| | i temp | i temp | i temp [err |] | i temp | i temp | i temp err | | err stray]; cbn.
  - by destruct (ok o).
  - destruct (ok o && _ && _) eqn:E; [| done]. breflect. cbn. by apply create_ok.
  - destruct (wrote_ok f0 f i temp (Nat.min (count o) (String.length body)) Hk H) as [Hk' Hb].
    destruct (ok o); cbn; [| done]. case_bool_decide as E; cbn; [done |].
    split; [done |]. split; [done |]. cbn. rewrite lookup_insert_eq.
    by rewrite E, substring_all.
  - destruct H as [Hb Hw]. destruct (ok o); cbn; [| done]. destruct (synced_ok f0 f i temp Hk Hb) as [? ?].
    split; [done |]. split; [done |]. split; [done | cbn; set_solver].
  - done.
  - destruct H. by destruct (ok o).
  - destruct H. by destruct (ok o).
  - destruct H as [Hb Hw]. destruct (ok o); cbn; [| done]. by apply (replaced_ok _ _ i temp).
  - destruct H as [Hb He]. destruct (ok o); cbn.
    + destruct (removed_ok f0 f i temp Hk Hb) as [? ?]. by destruct err.
    + split; [done |]. destruct err; [by exists i .. | done].
  - destruct windows eqn:Ew; cbn; [split; [done |]; split; [done | by rewrite Ew] |].
    destruct (ok o); cbn; [| done]. split; [| done].
    destruct Hk as [K1 K2 K3]. split; [done | done |]. by intros ns ?%elem_of_nil.
  - done.
Qed.

Lemma run_ok f0 os st f : fs_ok f0 -> stage_ok f0 st f -> stage_ok f0 (run os st f).1 (run os st f).2.
Proof.
  intros Hf. revert st f. induction os as [| o os IH]; intros st f H; cbn; [done |].
  pose proof (advance_ok f0 st o f Hf H) as Ha. destruct (advance st o f). by apply IH.
Qed.

Lemma crash_may f g p : fs_ok f -> crashed f g -> may f p (view g p).
Proof.
  intros Hf (Hn & Hb & _ & Hd & _). destruct (Hn p) as (ns & Hns & E). exists ns. split; [done |].
  unfold left_by, view. rewrite E. destruct (ns !! p) as [i |] eqn:Ei; cbn; [| done].
  case_bool_decide as Hfl; [by apply Hb |]. apply elem_of_dom. rewrite Hd. by eapply Hf.
Qed.

Lemma kept_left f0 f ns c : fs_ok f0 -> kept f0 f -> ns ∈ names f0 :: past f0 -> left_by f ns path c -> left_by f0 ns path c.
Proof.
  intros Hf Hk Hns. unfold left_by. destruct (ns !! path) as [i |] eqn:Ei; [| done].
  destruct (k_bodies _ _ Hk i) as [-> Hfl]; [by eapply Hf |]. by rewrite (bool_decide_ext _ _ Hfl).
Qed.

Lemma kept_may f0 f c : fs_ok f0 -> kept f0 f -> (exists ns, ns ∈ past f /\ left_by f ns path c) -> may f0 path c.
Proof.
  intros Hf Hk (ns & Hns & Hl). destruct (k_past _ _ Hk ns Hns) as [H | (temp & i & Ht & _ & ->)].
  - exists ns. split; [done |]. by eapply kept_left.
  - exists (names f0). split; [by left |]. eapply kept_left; [done.. | by left |]. unfold left_by in *.
    by rewrite lookup_insert_ne in Hl.
Qed.

(** The names when the save is not past its renaming. *)
Lemma shape f0 st f :
  stage_ok f0 st f -> names f = names f0 \/ (exists i temp, beside f0 f i temp) \/ replaced f0 f.
Proof.
  intros [_ H]. destruct st as [| | i temp | i temp | i temp [err |] | i temp | i temp | i temp err | | [err |] stray];
    naive_solver || (try destruct err; destruct stray; naive_solver).
Qed.

(** Before the renaming the path may not hold anything new. *)
Definition early (f0 f : fs) : Prop := names f = names f0 \/ exists i temp, beside f0 f i temp.

Lemma early_may f0 f c : fs_ok f0 -> kept f0 f -> early f0 f -> may f path c -> may f0 path c.
Proof.
  intros Hf Hk He (ns & Hns & Hl). apply list.elem_of_cons in Hns as [-> | Hns]; [| eapply kept_may; naive_solver].
  exists (names f0). split; [by left |]. eapply kept_left; [done.. | by left |]. destruct He as [<- | (i & temp & Hb)]; [done |].
  destruct Hb as (Ht & _ & _ & _ & Hn). unfold left_by in *. by rewrite Hn, lookup_insert_ne in Hl.
Qed.

Lemma stage_may f0 st f c : fs_ok f0 -> stage_ok f0 st f -> may f path c -> may f0 path c \/ c = Some body.
Proof.
  intros Hf H Hm. destruct (shape _ _ _ H) as [Hn | [Hb | (i & Hi & [Hbody Hfl] & Hn)]]; destruct H as [Hk _].
  - left. eapply early_may; [done.. | by left | done].
  - left. eapply early_may; [done.. | by right | done].
  - destruct Hm as (ns & Hns & Hl). apply list.elem_of_cons in Hns as [-> | Hns]; [right | left; eapply kept_may; naive_solver].
    unfold left_by in Hl. by rewrite Hn, lookup_insert_eq, bool_decide_true, Hbody in Hl.
Qed.

Lemma view_kept f0 f p :
  fs_ok f0 -> kept f0 f -> names f !! p = names f0 !! p -> view f p = view f0 p.
Proof.
  intros Hf Hk Hn. unfold view. rewrite Hn. destruct (names f0 !! p) as [i |] eqn:E; [| done]. cbn.
  apply (k_bodies _ _ Hk). eapply Hf; [by left | done].
Qed.

Lemma stage_fs_ok f0 st f : fs_ok f0 -> stage_ok f0 st f -> fs_ok f.
Proof.
  intros Hf H ns p j Hns Hj. assert (Hold : forall ns, ns ∈ names f0 :: past f0 -> ns !! p = Some j -> j ∈ dom (bodies f)).
  { intros ns' Hns' Hj'. apply (k_dom _ _ (proj1 H)). by eapply Hf. }
  assert (Hnew : forall q i, i ∈ dom (bodies f) -> ns = <[q := i]> (names f0) -> j ∈ dom (bodies f)).
  { intros q i Hi ->. apply lookup_insert_Some in Hj as [[_ <-] | [_ Hj]]; [done |]. eapply Hold; [by left | done]. }
  apply list.elem_of_cons in Hns as [-> | Hns].
  - destruct (shape _ _ _ H) as [Hn | [(i & temp & Hb) | (i & Hi & _ & Hn)]].
    + rewrite Hn in Hj. eapply Hold; [by left | done].
    + destruct Hb as (_ & _ & _ & Hi & Hn). by eapply Hnew.
    + by eapply Hnew.
  - destruct (k_past _ _ (proj1 H) ns Hns) as [? | (t & i & _ & Hi & E)]; [by eapply Hold | by eapply Hnew].
Qed.

(** What a save that was interrupted or came back shows of the path. *)
Definition shows (f0 : fs) (st : stage) (f : fs) : Prop :=
  match st with
  | SyncDir | Finished None _ | Finished (Some SyncDirFailed) _ => view f path = Some body
  | _ => view f path = view f0 path
  end.

Lemma replaced_view f0 f : replaced f0 f -> view f path = Some body.
Proof. intros (i & _ & [Hb _] & Hn). unfold view. by rewrite Hn, lookup_insert_eq. Qed.

Lemma stage_shows f0 st f : fs_ok f0 -> stage_ok f0 st f -> shows f0 st f.
Proof.
  intros Hf [Hk H].
  assert (Hsame : names f = names f0 -> view f path = view f0 path) by (intros E; apply view_kept; by rewrite ?E).
  assert (Hbeside : forall i temp, beside f0 f i temp -> view f path = view f0 path).
  { intros i temp (Ht & _ & _ & _ & Hn). apply view_kept; [done.. |]. by rewrite Hn, lookup_insert_ne. }
  pose proof (replaced_view f0 f) as Hrep.
  destruct st as [| | i temp | i temp | i temp [err |] | i temp | i temp | i temp err | | [err |] stray]; cbn;
    naive_solver || (destruct err, stray; naive_solver).
Qed.

(** The stages before the renaming. *)
Definition before_renaming (st : stage) : bool :=
  match st with SyncDir | Finished None _ | Finished (Some SyncDirFailed) _ => false | _ => true end.

Lemma stage_early f0 st f : stage_ok f0 st f -> before_renaming st = true -> early f0 f.
Proof.
  intros [_ H] Hb. unfold early. destruct st as [| | i temp | i temp | i temp [err |] | i temp | i temp | i temp err | | [err |] stray];
    try naive_solver. destruct err, stray; naive_solver.
Qed.

Lemma stage_late f0 st f : stage_ok f0 st f -> before_renaming st = false -> replaced f0 f.
Proof. intros [_ H] Hb. destruct st as [| | | | | | | | | [[] |] stray]; naive_solver. Qed.

Lemma stage_others f0 st f p :
  fs_ok f0 -> stage_ok f0 st f -> p <> path -> is_Some (names f0 !! p) -> view f p = view f0 p.
Proof.
  intros Hf H Hp [j Hj]. apply view_kept; [done | by destruct H |].
  destruct (shape _ _ _ H) as [-> | [(i & temp & _ & Ht & _ & _ & ->) | (i & _ & _ & ->)]]; [done | |].
  - rewrite lookup_insert_ne; [done |]. congruence.
  - by rewrite lookup_insert_ne.
Qed.

Lemma shows_early f0 st f : shows f0 st f -> before_renaming st = true -> view f path = view f0 path.
Proof. destruct st as [| | | | | | | | | [[] |] stray]; naive_solver. Qed.

(** Only the renaming itself leaves the stages before it. *)
Lemma advance_late f0 st o f :
  stage_ok f0 st f -> before_renaming st = true -> before_renaming (advance st o f).1 = false ->
  (advance st o f).1 = SyncDir.
Proof.
  intros [_ H] Hb Ha. destruct st as [| | i temp | i temp | i temp [err |] | i temp | i temp | i temp err | | [err |] stray];
    cbn in *; repeat case_match; cbn in *; try naive_solver; destruct err; naive_solver.
Qed.

(** C16: saving a file is atomic.  However the calls of the operating system turn
    out and wherever the machine stops, after a crash the path holds what it
    could have held before or the whole new content; a save that came back
    without an error shows the new content and, where directories are synced,
    survives any crash; one that came back with an error shows the old content,
    unless the error is that of syncing the directory; other files are as they
    were, no temporary file is left unless removing it failed, and eight calls
    are enough to come back. *)
Theorem save_atomic os f st f' :
  fs_ok f -> Save os f = (st, f') ->
  fs_ok f' /\
  (forall g, crashed f' g -> may f path (view g path) \/ view g path = Some body) /\
  shows f st f' /\
  (forall stray g, st = Finished None stray -> windows = false -> crashed f' g -> view g path = Some body) /\
  (forall p, p <> path -> is_Some (names f !! p) -> view f' p = view f p) /\
  (forall err, st = Finished err None -> dom (names f') ⊆ {[path]} ∪ dom (names f)) /\
  (8 <= length os -> exists err stray, st = Finished err stray).
Proof.
  intros Hf E. assert (H : stage_ok f st f').
  { unfold Save in E. pose proof (run_ok f os Begin f Hf) as H. rewrite E in H. apply H. split; [apply kept_refl | done]. }
  assert (Hf' : fs_ok f') by by eapply stage_fs_ok.
  split; [done |]. split; [intros g Hg; by eapply stage_may; [.. | by apply crash_may] |].
  split; [by apply stage_shows |]. split; [| split; [| split]].
  - intros stray g -> Hw Hg. destruct H as (_ & (i & _ & [Hb Hfl] & Hn) & Hp).
    destruct (crash_may _ _ path Hf' Hg) as (ns & Hns & Hl). rewrite (Hp Hw) in Hns.
    apply list_elem_of_singleton in Hns as ->. unfold left_by in Hl. by rewrite Hn, lookup_insert_eq, bool_decide_true, Hb in Hl.
  - intros p Hp Hs. by eapply stage_others.
  - intros err ->. destruct err as [err |]; destruct H as [_ H].
    + assert (Hor : names f' = names f \/ replaced f f') by (destruct err; auto).
      destruct Hor as [-> | (i & _ & _ & ->)]; set_solver.
    + destruct H as [(i & _ & _ & ->) _]. set_solver.
  - intros Hlen. destruct (run_finished os Begin f) as (err & stray & Er); [done |]. exists err, stray.
    unfold Save in E. by rewrite E in Er.
Qed.

End save.

(** ** Concrete saves *)

Definition fine : outcome := MkOutcome true "s-1.json" 3.

Definition disk : fs := MkFs {["s.json" := 0]} [] {[0 := "old"]} {[0]}.

Lemma disk_ok : fs_ok disk.
Proof.
  intros ns p i [-> | H]%list.elem_of_cons Hi; [| by apply elem_of_nil in H].
  cbn in Hi. apply lookup_singleton_Some in Hi as [_ <-]. cbn. set_solver.
Qed.

Lemma save_atomic_witness :
  let os := [fine; fine; fine; fine; fine; fine; fine; fine] in
  Save false "s.json" "new" os disk =
    (Finished None None, snd (Save false "s.json" "new" os disk)) /\
  view (snd (Save false "s.json" "new" os disk)) "s.json" = Some "new" /\
  forall n g, crashed (snd (Save false "s.json" "new" (take n os) disk)) g ->
    may disk "s.json" (view g "s.json") \/ view g "s.json" = Some "new".
Proof.
  cbn zeta. split; [by vm_compute |]. split; [by vm_compute |]. intros n g.
  destruct (Save false "s.json" "new" (take n _) disk) as [st f'] eqn:E.
  exact (proj1 (proj2 (save_atomic false "s.json" "new" _ disk st f' disk_ok E)) g).
Defined.

(** An error of syncing the directory comes back with the file already replaced. *)
Theorem error_after_replacing :
  let os := [fine; fine; fine; fine; fine; fine; fine; MkOutcome false "" 0] in
  let '(st, f) := Save false "s.json" "new" os disk in
  st = Finished (Some SyncDirFailed) None /\ view f "s.json" = Some "new".
Proof. by vm_compute. Qed.

End Atomic.

(** * filetx *)

Module FileTx.
Import Text.

Definition MaxInt64 : Z := 2 ^ 63 - 1.

Inductive error := InvalidLimit | NotFound | Unreadable | TooLarge.

(** What the file is when it is looked at and when it is read, which may differ. *)
Record file := MkFile {
  Stat : result error (bool * Z);
  Open : bool;
  ReadAll : result error string;
  CloseOk : bool;
}.

(** [io.LimitReader]. *)
Definition LimitReader (body : string) (n : Z) : string := String.substring 0 (Z.to_nat n) body.

Definition read (f : file) (limit : Z) : result error string :=
  match ReadAll f with
  | Err e => Err e
  | Ok all =>
      let body := if (limit <? MaxInt64)%Z then LimitReader all (limit + 1) else all in
      if negb (CloseOk f) then Err Unreadable
      else if (limit <? strlen body)%Z then Err TooLarge
      else Ok body
  end.

Definition Read (f : file) (limit : Z) : result error string :=
  if (limit <? 1)%Z then Err InvalidLimit
  else match Stat f with
  | Err e => Err e
  | Ok (regular, size) =>
      if regular && (limit <? size)%Z then Err TooLarge
      else if negb (Open f) then Err Unreadable
      else read f limit
  end.

Lemma substring_prefix n s :
  String.substring 0 n s = if (Z.of_nat n <? strlen s)%Z then String.substring 0 n s else s.
Proof.
  unfold strlen. destruct (Z.ltb_spec (Z.of_nat n) (Z.of_nat (String.length s))) as [H | H]; [done |].
  revert n H. induction s as [| c s IH]; intros [| n] H; cbn in *; [done | done | lia |]. rewrite IH by lia. done.
Qed.

Lemma substring_size n s : (Z.of_nat n < strlen s)%Z -> strlen (String.substring 0 n s) = Z.of_nat n.
Proof.
  unfold strlen. revert n. induction s as [| c s IH]; intros [| n] H; cbn in *; try lia.
  specialize (IH n). lia.
Qed.

Lemma read_spec f limit all :
  (1 <= limit)%Z -> ReadAll f = Ok all -> CloseOk f = true -> (strlen all <= MaxInt64)%Z ->
  read f limit = if (strlen all <=? limit)%Z then Ok all else Err TooLarge.
Proof.
  intros Hl Hr Hc Hm. unfold read. rewrite Hr, Hc. cbn [negb].
  destruct (Z.ltb_spec limit MaxInt64) as [Hlt | Hge].
  - unfold LimitReader. rewrite substring_prefix. rewrite Z2Nat.id by lia.
    destruct (Z.ltb_spec (limit + 1) (strlen all)) as [H | H].
    + rewrite substring_size, Z2Nat.id by lia. replace (limit <? limit + 1)%Z with true by lia.
      by replace (strlen all <=? limit)%Z with false by lia.
    + zcases; lia || done.
  - zcases; lia || done.
Qed.

End FileTx.
