(* ===== verification/Stores.v ===== *)
(** internal/settings, internal/protect and internal/kubeconfig: small documents
    kept in a file that several processes read and change.  A change takes the
    lock beside the file, reads the document, changes it and saves it; reads
    take no lock.  The processes and the machine stopping at any point are
    steps, and what they promise is a register of documents. *)

From S2P Require Import Prelude Text Atomic.

(** [json.MarshalIndent] of the state a store writes, and [json.Unmarshal] with
    what the store's [read] makes of it.  [valid]: the documents that read back
    as they are; what is written always reads back as some document, another one
    where texts are no UTF-8 or where [read] names the entries anew. *)
Class Document (V : Type) := {
  encode : V -> string;
  decode : string -> option V;
  empty_doc : V;
  valid : V -> Prop;
}.

Definition end_of_line : string := of_codes [10]%N.

Class DocumentOk (V : Type) `{Document V} : Prop := {
  decode_encode : forall v : V, valid v -> decode (encode v +s+ end_of_line) = Some v;
  decode_total : forall v : V, is_Some (decode (encode v +s+ end_of_line));
}.

Module Stores.
Import Text Atomic.

Definition maxFileBytes : Z := 1048576.

Section stores.
Context {V : Type} `{Document V}.
Variable windows : bool.
Variable path : string.

Definition body_of (v : V) : string := encode v +s+ end_of_line.

(** What a document reads back as once it is written. *)
Definition readback (v : V) : V := default v (decode (body_of v)).

(** [read]: no file is an empty document. *)
Definition readDoc (content : option string) : option V :=
  match content with
  | None => Some empty_doc
  | Some body => if (maxFileBytes <? strlen body)%Z then None else decode body
  end.

(** [refresh]: what cannot be read leaves what was known. *)
Definition refresh (known : V) (content : option string) : V :=
  match readDoc content with Some found => found | None => known end.

(** The action inside [Exclusive] up to the save: the document to write. *)
Definition load (u : V -> option V) (content : option string) : option V :=
  next ← readDoc content;
  next ← u next;
  if (maxFileBytes <? strlen (encode next) + 1)%Z then None else Some next.

(** ** Processes *)

(** Where a call of a store is: a change [u] ([Merge], [Set], [Add], [Remove])
    or a read ([All], [On], [Paths], [Verdict]) that knows a document already. *)
Inductive thread :=
| Waiting (u : V -> option V)
| Locked (u : V -> option V)
| Saving (v : V) (st : stage)
| Unlocking (ok : bool)
| Returned (ok : bool)
| Asking (known : V)
| Told (v : V)
| Died.

Record system := MkSystem { disk : fs; lock : option nat; threads : list thread }.

Definition become (c : system) (i : nat) (th : thread) : system := MkSystem (disk c) (lock c) (<[i := th]> (threads c)).

(** One call of the save, and what [Exclusive] does when it is over. *)
Definition saved (v : V) (st : stage) (o : outcome) (f : fs) : thread * fs :=
  let '(st, f) := advance windows path (body_of v) st o f in
  (match st with Finished err _ => Unlocking (bool_decide (err = None)) | _ => Saving v st end, f).

Inductive step : system -> system -> Prop :=
| step_call c u : step c (MkSystem (disk c) (lock c) (threads c ++ [Waiting u]))
| step_ask c known : step c (MkSystem (disk c) (lock c) (threads c ++ [Asking known]))
| step_lock c i u :
    threads c !! i = Some (Waiting u) -> lock c = None ->
    step c (MkSystem (disk c) (Some i) (<[i := Locked u]> (threads c)))
| step_no_lock c i u : threads c !! i = Some (Waiting u) -> step c (become c i (Returned false))
| step_load c i u v :
    threads c !! i = Some (Locked u) -> load u (view (disk c) path) = Some v -> step c (become c i (Saving v Begin))
| step_refused c i u :
    threads c !! i = Some (Locked u) -> load u (view (disk c) path) = None -> step c (become c i (Unlocking false))
| step_save c i v st o th f :
    threads c !! i = Some (Saving v st) -> saved v st o (disk c) = (th, f) ->
    step c (MkSystem f (lock c) (<[i := th]> (threads c)))
| step_unlock c i ok_ :
    threads c !! i = Some (Unlocking ok_) -> step c (MkSystem (disk c) None (<[i := Returned ok_]> (threads c)))
| step_not_unlocked c i ok_ :
    threads c !! i = Some (Unlocking ok_) -> step c (MkSystem (disk c) (lock c) (<[i := Returned false]> (threads c)))
| step_told c i known :
    threads c !! i = Some (Asking known) -> step c (become c i (Told (refresh known (view (disk c) path))))
| step_killed c i th :
    threads c !! i = Some th ->
    step c (MkSystem (disk c) (if bool_decide (lock c = Some i) then None else lock c) (<[i := Died]> (threads c)))
| step_crash c f :
    crashed (disk c) f -> step c (MkSystem f None (map (fun _ => Died) (threads c))).

(** ** What the stores promise *)

(** A register, the documents a crash may bring back, and the calls: a change is
    applied at once or not at all, between its call and its answer, and leaves
    what its document reads back as; it is settled when a crash cannot undo it
    any more. *)
Inductive call :=
| Pending (u : V -> option V)
| Applied (settled_ : bool)
| Answered (ok : bool)
| Inquiring
| Learned (v : V)
| Gone.

Record register := MkRegister { reg : V; recent : list V; calls : list call }.

Definition turn (a : register) (i : nat) (x : call) : register := MkRegister (reg a) (recent a) (<[i := x]> (calls a)).

Inductive promise : register -> register -> Prop :=
| promise_call a u : promise a (MkRegister (reg a) (recent a) (calls a ++ [Pending u]))
| promise_ask a : promise a (MkRegister (reg a) (recent a) (calls a ++ [Inquiring]))
| promise_apply a i u v :
    calls a !! i = Some (Pending u) -> u (reg a) = Some v ->
    promise a (MkRegister (readback v) (reg a :: recent a) (<[i := Applied false]> (calls a)))
| promise_settle a i :
    calls a !! i = Some (Applied false) -> promise a (MkRegister (reg a) [] (<[i := Applied true]> (calls a)))
| promise_refuse a i u : calls a !! i = Some (Pending u) -> promise a (turn a i (Answered false))
| promise_fail a i b : calls a !! i = Some (Applied b) -> promise a (turn a i (Answered false))
| promise_done a i b :
    calls a !! i = Some (Applied b) -> (windows = false -> b = true) -> promise a (turn a i (Answered true))
| promise_learn a i : calls a !! i = Some Inquiring -> promise a (turn a i (Learned (reg a)))
| promise_gone a i x : calls a !! i = Some x -> promise a (turn a i Gone)
| promise_crash a v :
    v ∈ reg a :: recent a -> promise a (MkRegister v [] (map (fun _ => Gone) (calls a))).

(** ** The relation between the two *)

Context `{!DocumentOk V}.

Definition holds (th : thread) : bool :=
  match th with Locked _ | Saving _ _ | Unlocking _ => true | _ => false end.

(** A content that reads as the register's document or one a crash may bring back. *)
Definition good (a : register) (content : option string) : Prop :=
  exists w, w ∈ reg a :: recent a /\ readDoc content = Some w.

Definition saving_ok (a : register) (f : fs) (v : V) (st : stage) (x : call) : Prop :=
  (strlen (body_of v) <= maxFileBytes)%Z /\
  (exists f0, fs_ok f0 /\ stage_ok windows path (body_of v) f0 st f /\
     forall content, may f0 path content -> good a content) /\
  match st with
  | SyncDir => x = Applied false /\ reg a = readback v
  | Finished _ _ => False
  | _ => exists u, x = Pending u /\ u (reg a) = Some v
  end.

Definition matches (a : register) (f : fs) (th : thread) (x : call) : Prop :=
  match th with
  | Waiting u | Locked u => x = Pending u
  | Saving v st => saving_ok a f v st x
  | Unlocking true => exists b, x = Applied b /\ (windows = false -> b = true)
  | Unlocking false => (exists u, x = Pending u) \/ exists b, x = Applied b
  | Returned ok => x = Answered ok
  | Asking _ => x = Inquiring
  | Told v => x = Learned v
  | Died => x = Gone
  end.

Record related (c : system) (a : register) : Prop := {
  r_fs : fs_ok (disk c);
  r_reg : readDoc (view (disk c) path) = Some (reg a);
  r_may : forall content, may (disk c) path content -> good a content;
  r_length : length (threads c) = length (calls a);
  r_calls : forall i th, threads c !! i = Some th -> exists x, calls a !! i = Some x /\ matches a (disk c) th x;
  r_lock : forall i th, threads c !! i = Some th -> holds th = true -> lock c = Some i;
}.

Lemma matches_idle a f a' f' th x : holds th = false \/ (exists u, th = Locked u) -> matches a f th x -> matches a' f' th x.
Proof. intros [Hh | [u ->]]; [by destruct th | done]. Qed.

Lemma strlen_body v : strlen (body_of v) = (strlen (encode v) + 1)%Z.
Proof. unfold body_of, strlen. rewrite append_length. cbn. lia. Qed.

Lemma read_body v : (strlen (body_of v) <= maxFileBytes)%Z -> readDoc (Some (body_of v)) = Some (readback v).
Proof using All.
  intros Hs. unfold readDoc, readback. replace (maxFileBytes <? strlen (body_of v))%Z with false by lia.
  destruct (decode_total v) as [w Hw]. unfold body_of. by rewrite Hw.
Qed.

Lemma readback_valid v : valid v -> readback v = v.
Proof using All. intros Hv. unfold readback, body_of. by rewrite decode_encode. Qed.

(** A call moves on: its thread and its abstract call change, and perhaps the
    disk and the register, if no other thread holds the lock. *)
Lemma related_turn c a i th x' th' f l r rs :
  related c a -> threads c !! i = Some th ->
  fs_ok f -> readDoc (view f path) = Some r ->
  let a' := MkRegister r rs (<[i := x']> (calls a)) in
  (forall content, may f path content -> good a' content) ->
  matches a' f th' x' ->
  (holds th' = true -> l = Some i) ->
  (forall j t, j <> i -> threads c !! j = Some t -> holds t = true -> l = lock c) ->
  ((f = disk c /\ r = reg a /\ rs = recent a) \/ holds th = true) ->
  related (MkSystem f l (<[i := th']> (threads c))) a'.
Proof.
  intros [R1 R2 R4 R5 R6 R8] Hi Hf Hr a' Hmay Hm Hl Hothers Hwho.
  assert (Hlt : i < length (calls a)) by (rewrite <- R5; by eapply lookup_lt_Some).
  split; cbn; [done.. | by rewrite !length_insert | |].
  - intros j t Hj. destruct (decide (i = j)) as [<- | E].
    + rewrite list_lookup_insert_eq in Hj by (by eapply lookup_lt_Some). simplify_eq. exists x'.
      rewrite list_lookup_insert_eq by done. by split.
    + rewrite list_lookup_insert_ne in Hj by done. rewrite list_lookup_insert_ne by done.
      destruct (R6 j t Hj) as (x & Hx & Hmx). exists x. split; [done |].
      destruct Hwho as [(-> & -> & ->) | Hh]; [done |]. apply (matches_idle a (disk c)); [left | done].
      destruct (holds t) eqn:Ht; [| done]. pose proof (R8 i th Hi Hh). pose proof (R8 j t Hj Ht). congruence.
  - intros j t Hj Ht. destruct (decide (i = j)) as [<- | E].
    + rewrite list_lookup_insert_eq in Hj by (by eapply lookup_lt_Some). simplify_eq. by apply Hl.
    + rewrite list_lookup_insert_ne in Hj by done. rewrite (Hothers j t); [by eapply R8 | done..].
Qed.

(** A thread that leaves disk and register alone. *)
Lemma related_keep c a i th x' th' l :
  related c a -> threads c !! i = Some th -> matches a (disk c) th' x' ->
  (holds th' = true -> l = Some i) ->
  (forall j t, j <> i -> threads c !! j = Some t -> holds t = true -> l = lock c) ->
  related (MkSystem (disk c) l (<[i := th']> (threads c))) (turn a i x').
Proof. intros R. intros. pose proof R as R'. destruct R'. eapply related_turn; eauto. Qed.

(** Only one thread holds the lock. *)
Lemma sole c a i th j t :
  related c a -> threads c !! i = Some th -> holds th = true -> threads c !! j = Some t -> holds t = true -> j = i.
Proof. intros R Hi Hh Hj Ht. pose proof (r_lock _ _ R i th Hi Hh). pose proof (r_lock _ _ R j t Hj Ht). congruence. Qed.

Lemma related_spawn c a th x :
  related c a -> matches a (disk c) th x -> holds th = false ->
  related (MkSystem (disk c) (lock c) (threads c ++ [th])) (MkRegister (reg a) (recent a) (calls a ++ [x])).
Proof.
  intros [R1 R2 R4 R5 R6 R8] Hm Hh. split; cbn; [done.. | by rewrite !length_app, R5 | |].
  - intros i t [Hi | [Hle Hi]]%lookup_app_Some.
    + destruct (R6 i t Hi) as (y & Hy & Hmy). exists y. split; [by apply lookup_app_l_Some | done].
    + apply list_lookup_singleton_Some in Hi as [Hz ->]. exists x. split; [| done].
      rewrite lookup_app_r by lia. by replace (i - length (calls a)) with 0 by lia.
  - intros i t [Hi | [_ Hi]]%lookup_app_Some Ht; [by eapply R8 |].
    apply list_lookup_singleton_Some in Hi as [_ <-]. congruence.
Qed.

Lemma load_spec u content r v :
  readDoc content = Some r -> load u content = Some v -> u r = Some v /\ (strlen (body_of v) <= maxFileBytes)%Z.
Proof.
  unfold load. intros -> Hl. cbn in Hl. destruct (u r) as [w |]; [| done]. cbn in Hl. rewrite strlen_body.
  destruct (Z.ltb_spec maxFileBytes (strlen (encode w) + 1)); [done |]. by simplify_eq.
Qed.

(** ** Saving *)

Lemma good_more a r c i x : good a c -> good (MkRegister r (reg a :: recent a) (<[i := x]> (calls a))) c.
Proof. intros (w & Hw & ?). exists w. split; [cbn; by right | done]. Qed.

(** One call of a save, seen from the register. *)
Lemma saved_sim c a i v st o th' f :
  related c a -> threads c !! i = Some (Saving v st) -> saved v st o (disk c) = (th', f) ->
  exists a', rtc promise a a' /\ related (MkSystem f (lock c) (<[i := th']> (threads c))) a'.
Proof using All.
  intros R Hi Hs. destruct (r_calls _ _ R _ _ Hi) as (x & Hx & Hfit & (f0 & Hf0 & Hst & Hgood) & Hcall).
  unfold saved in Hs. pose proof (advance_ok windows path (body_of v) f0 st o (disk c) Hf0 Hst) as Hst'.
  destruct (advance windows path (body_of v) st o (disk c)) as [st' f'] eqn:Ea. cbn in Hst'. injection Hs as Hth <-.
  pose proof (stage_fs_ok _ _ _ _ _ _ Hf0 Hst') as Hf'.
  pose proof (stage_shows _ _ _ _ _ _ Hf0 Hst) as Hshow. pose proof (stage_shows _ _ _ _ _ _ Hf0 Hst') as Hshow'.
  pose proof (read_body v Hfit) as Hread.
  assert (Hlock : lock c = Some i) by (by eapply (r_lock _ _ R)).
  assert (Hsame : forall j t, j <> i -> threads c !! j = Some t -> holds t = true -> lock c = lock c) by done.
  destruct (before_renaming st) eqn:Hb; [destruct (before_renaming st') eqn:Hb' |].
  - (* the document is as it was *)
    assert (Hc : exists u, x = Pending u /\ u (reg a) = Some v) by (by destruct st).
    assert (Hview : view f' path = view (disk c) path).
    { by rewrite (shows_early _ _ _ _ _ Hshow' Hb'), (shows_early _ _ _ _ _ Hshow Hb). }
    exists (turn a i x). split; [unfold turn; rewrite list_insert_id by done; by destruct a |].
    eapply related_turn; [done | done | done | by rewrite Hview; apply R | | | by intros | done | by right].
    + intros content Hm. apply Hgood. eapply early_may; [done | by destruct Hst' | by eapply stage_early | done].
    + subst th'. destruct Hc as (u & -> & Hu). destruct st' as [| | | | | | | | | [err |] stray]; try done;
        try (split; [done |]; split; [by exists f0 | by exists u]).
      cbn. left. by exists u.
  - (* the renaming applies the change *)
    pose proof (advance_late windows path (body_of v) f0 st o (disk c) Hst Hb) as Hl. rewrite Ea in Hl. cbn in Hl.
    rewrite (Hl Hb') in *. assert (Hc : exists u, x = Pending u /\ u (reg a) = Some v) by (by destruct st).
    destruct Hc as (u & -> & Hu). cbn in Hshow'.
    exists (MkRegister (readback v) (reg a :: recent a) (<[i := Applied false]> (calls a))).
    split; [apply rtc_once; by apply promise_apply with u |]. subst th'.
    assert (Hall : forall content, may f0 path content -> good (MkRegister (readback v) (reg a :: recent a) (<[i := Applied false]> (calls a))) content).
    { intros content Hm. by apply good_more, Hgood. }
    eapply related_turn; [done | done | done | by rewrite Hshow' | | | by intros | done | by right].
    + intros content Hm. destruct (stage_may _ _ _ _ _ _ _ Hf0 Hst' Hm) as [? | ->]; [by apply Hall |].
      exists (readback v). split; [by left | done].
    + split; [done |]. split; [by exists f0 | done].
  - (* after it, the directory is synced *)
    assert (Est : st = SyncDir) by (destruct st as [| | | | | | | | | [[] |]]; naive_solver). subst st.
    destruct Hcall as [-> Hreg]. rewrite <- Hreg in Hread. cbn in Hshow.
    cbn in Ea. destruct windows eqn:Ew; [| destruct (ok o)]; injection Ea as <- <-; cbn in Hth; subst th'.
    + exists (turn a i (Applied false)). split; [unfold turn; rewrite list_insert_id by done; by destruct a |].
      eapply related_keep; [done | done | exists false; split; [done | by rewrite Ew] | by intros | done].
    + exists (MkRegister (reg a) [] (<[i := Applied true]> (calls a))). split; [apply rtc_once; by apply promise_settle |].
      eapply related_turn; [done | done | done | exact (eq_trans (f_equal readDoc Hshow) Hread) | | by exists true | by intros | done | by right].
      intros content Hm. destruct Hst' as (_ & (k & _ & [Hbody Hfl] & Hn) & Hp). destruct Hm as (ns & Hns & Hleft).
      rewrite (Hp eq_refl) in Hns. apply list_elem_of_singleton in Hns as ->. unfold left_by in Hleft.
      rewrite Hn, lookup_insert_eq, bool_decide_true, Hbody in Hleft by done. subst content.
      exists (reg a). split; [by left | done].
    + exists (turn a i (Applied false)). split; [unfold turn; rewrite list_insert_id by done; by destruct a |].
      eapply related_keep; [done | done | right; by exists false | by intros | done].
Qed.

(** ** Every step keeps the promise *)

Lemma crash_sim c a f : related c a -> crashed (disk c) f ->
  exists a', rtc promise a a' /\ related (MkSystem f None (map (fun _ => Died) (threads c))) a'.
Proof.
  intros R Hc. destruct (r_may _ _ R (view f path)) as (w & Hw & Hr); [by apply crash_may; [apply R |] |].
  exists (MkRegister w [] (map (fun _ => Gone) (calls a))). split; [by apply rtc_once, promise_crash |].
  destruct R as [R1 R2 R4 R5 R6 R8]. destruct Hc as (Hn & Hb & Hp & Hd & Hfl).
  assert (Hfs : fs_ok f).
  { intros ns p j Hns Hj. rewrite Hp in Hns. apply list_elem_of_singleton in Hns as ->.
    destruct (Hn p) as (ns' & Hns' & E). rewrite Hd. eapply R1; [done |]. by rewrite <- E. }
  split; cbn; [done.. | | by rewrite !length_map | |].
  - intros content (ns & Hns & Hl). rewrite Hp in Hns. apply list_elem_of_singleton in Hns as ->.
    exists w. split; [by left |]. rewrite <- Hr. f_equal. unfold left_by, view in *.
    destruct (names f !! path) as [j |] eqn:Ej; [| done]. cbn. rewrite bool_decide_true in Hl; [done |].
    rewrite Hfl. eapply Hfs; [by left | done].
  - intros i th Hi. apply list_lookup_fmap_Some in Hi as (t & -> & Ht). exists Gone. split; [| done].
    destruct (R6 i t Ht) as (x & Hx & _). apply list_lookup_fmap_Some. by exists x.
  - intros i th Hi Hh. apply list_lookup_fmap_Some in Hi as (t & -> & _). done.
Qed.

Lemma step_sim c c' a : related c a -> step c c' -> exists a', rtc promise a a' /\ related c' a'.
Proof using All.
  intros R Hs. pose proof (fun i th => r_calls _ _ R i th) as Hcalls.
  destruct Hs as [c u | c known | c i u Hi Hl | c i u Hi | c i u v Hi Hload | c i u Hi Hload | c i v st o th f Hi Hs
    | c i ok_ Hi | c i ok_ Hi | c i known Hi | c i th Hi | c f Hf].
  - exists (MkRegister (reg a) (recent a) (calls a ++ [Pending u])). split; [by apply rtc_once, promise_call |].
    by apply related_spawn.
  - exists (MkRegister (reg a) (recent a) (calls a ++ [Inquiring])). split; [by apply rtc_once, promise_ask |].
    by apply related_spawn.
  - destruct (Hcalls _ _ Hi) as (x & Hx & ->). exists (turn a i (Pending u)).
    split; [unfold turn; rewrite list_insert_id by done; by destruct a |].
    eapply related_keep; [done | done | done | done |].
    intros j t _ Hj Ht. pose proof (r_lock _ _ R j t Hj Ht). congruence.
  - destruct (Hcalls _ _ Hi) as (x & Hx & ->). exists (turn a i (Answered false)).
    split; [by apply rtc_once, promise_refuse with u |]. by eapply related_keep.
  - destruct (Hcalls _ _ Hi) as (x & Hx & ->). exists (turn a i (Pending u)).
    split; [unfold turn; rewrite list_insert_id by done; by destruct a |].
    destruct (load_spec u _ _ v (r_reg _ _ R) Hload) as [Hu Hfit].
    eapply related_keep; [done | done | | by intros; eapply (r_lock _ _ R) | done].
    split; [done |]. split; [| by exists u].
    exists (disk c). split; [apply R |]. split; [split; [apply kept_refl | done] | apply R].
  - destruct (Hcalls _ _ Hi) as (x & Hx & ->). exists (turn a i (Pending u)).
    split; [unfold turn; rewrite list_insert_id by done; by destruct a |].
    eapply related_keep; [done | done | left; by exists u | by intros; eapply (r_lock _ _ R) | done].
  - by eapply saved_sim.
  - destruct (Hcalls _ _ Hi) as (x & Hx & Hm).
    assert (Hothers : forall j t, j <> i -> threads c !! j = Some t -> holds t = true -> None = lock c).
    { intros j t Hj Ht Hh. destruct Hj. by eapply (sole c a i (Unlocking ok_)). }
    exists (turn a i (Answered ok_)). split; [| by eapply related_keep].
    destruct ok_; cbn in Hm; [destruct Hm as (b & -> & Hb); by apply rtc_once, promise_done with b |].
    destruct Hm as [(u & ->) | (b & ->)]; apply rtc_once; [by apply promise_refuse with u | by apply promise_fail with b].
  - destruct (Hcalls _ _ Hi) as (x & Hx & Hm).
    exists (turn a i (Answered false)). split; [| by eapply related_keep].
    assert (Hor : (exists u, x = Pending u) \/ exists b, x = Applied b) by (destruct ok_; naive_solver).
    destruct Hor as [(u & ->) | (b & ->)]; apply rtc_once; [by apply promise_refuse with u | by apply promise_fail with b].
  - destruct (Hcalls _ _ Hi) as (x & Hx & ->). exists (turn a i (Learned (reg a))).
    split; [by apply rtc_once, promise_learn |]. unfold refresh, become. rewrite (r_reg _ _ R).
    by eapply related_keep.
  - destruct (Hcalls _ _ Hi) as (x & Hx & _). exists (turn a i Gone).
    split; [by apply rtc_once, promise_gone with x |]. eapply related_keep; [done | done | done | done |].
    intros j t Hj Ht Hh. rewrite bool_decide_false; [done |]. pose proof (r_lock _ _ R j t Ht Hh). congruence.
  - by apply crash_sim.
Qed.

Lemma view_may f : fs_ok f -> may f path (view f path).
Proof.
  intros Hf. exists (names f). split; [by left |]. unfold left_by, view.
  destruct (names f !! path) as [j |] eqn:Ej; cbn; [| done]. case_bool_decide; [done |].
  apply elem_of_dom. eapply Hf; [by left | done].
Qed.

(** C14: the stores are a register.  Whatever changes processes ask of one file,
    killed at any point and through any crash of the machine, there is a run of
    the promise that called and answered the same: a change is applied as a
    whole, to the document as it then is, between its call and its answer or
    never, and leaves what its document reads back as, which for a document that
    reads back as itself ([valid]) is the document; a change answered as done is
    one no crash undoes (on Windows, where no directory is synced, one that was
    applied), a read learns the document of that moment, and the file always
    reads as the register's document. *)
Theorem stores_keep_promise f v c :
  fs_ok f -> (forall content, may f path content -> readDoc content = Some v) ->
  rtc step (MkSystem f None []) c ->
  (exists a, rtc promise (MkRegister v [] []) a /\
    readDoc (view (disk c) path) = Some (reg a) /\
    (forall content, may (disk c) path content -> exists w, w ∈ reg a :: recent a /\ readDoc content = Some w) /\
    length (calls a) = length (threads c) /\
    (forall i u, threads c !! i = Some (Waiting u) -> calls a !! i = Some (Pending u)) /\
    (forall i b, threads c !! i = Some (Returned b) -> calls a !! i = Some (Answered b)) /\
    (forall i w, threads c !! i = Some (Told w) -> calls a !! i = Some (Learned w))) /\
  (forall w, valid w -> readback w = w).
Proof using All.
  intros Hf Hmay Hrun. split; [| by apply readback_valid].
  assert (R0 : related (MkSystem f None []) (MkRegister v [] [])).
  { split; cbn; [done | by apply Hmay, view_may | | done | done | done].
    intros content Hc. exists v. split; [by left |]. by rewrite Hmay. }
  destruct (simulation_rtc step promise related _ _ _ (fun c c' a => step_sim c c' a) R0 Hrun) as (a & Ha & R).
  exists a. split; [done |]. split; [apply R |]. split; [apply R |]. split; [symmetry; apply R |].
  assert (Hm : forall i th, threads c !! i = Some th -> exists x, calls a !! i = Some x /\ matches a (disk c) th x) by apply R.
  split; [| split]; intros i y Hi; destruct (Hm i _ Hi) as (x & Hx & Hy); cbn in Hy; by subst.
Qed.

End stores.

(** ** The stores *)

(** encoding/json of the documents, and the texts it keeps as they are. *)
Class JSON (S : Type) := {
  Marshal : S -> string;
  Unmarshal : string -> option S;
  plain : string -> Prop;
}.

(** What is marshalled unmarshals, and as it was where [kept] says its texts are
    plain. *)
Class JSONOk (S : Type) `{JSON S} (kept : S -> Prop) : Prop := {
  unmarshal_kept : forall v, kept v -> Unmarshal (Marshal v +s+ end_of_line) = Some v;
  unmarshal_total : forall v, is_Some (Unmarshal (Marshal v +s+ end_of_line) : option S);
}.

(** A change that keeps documents that read back as themselves so. *)
Definition admissible {V : Type} `{Document V} (u : V -> option V) : Prop :=
  forall v v', valid v -> u v = Some v' -> valid v'.

Section settings.
Context `{JSON (gmap string string)}.

#[export] Instance settings_document : Document (gmap string string) := {
  encode := Marshal;
  decode := Unmarshal;
  empty_doc := ∅;
  valid := map_Forall (fun k v => plain k /\ plain v);
}.

#[export] Instance settings_ok `{!JSONOk (gmap string string) (map_Forall (fun k v => plain k /\ plain v))} :
  DocumentOk (gmap string string).
Proof. split; [exact unmarshal_kept | exact unmarshal_total]. Qed.

Definition enabled : string := "on".
Definition disabled : string := "off".

(** [maps.Copy(next, values)]. *)
Definition Merge (values next : gmap string string) : option (gmap string string) := Some (values ∪ next).

Definition On (values : gmap string string) (key : string) : bool := bool_decide (values !! key = Some enabled).
Definition Off (values : gmap string string) (key : string) : bool := bool_decide (values !! key = Some disabled).

Lemma Merge_admissible values : valid values -> admissible (Merge values).
Proof. intros Hv next v' Hn [= <-]. by apply map_Forall_union_2. Qed.

Lemma On_merged values next key :
  On (values ∪ next) key = match values !! key with Some v => bool_decide (v = enabled) | None => On next key end.
Proof.
  unfold On. rewrite lookup_union. destruct (values !! key) as [v |], (next !! key) as [w |]; cbn;
    apply bool_decide_ext; naive_solver.
Qed.
End settings.

Section kubeconfig.
Context `{JSON (list string)}.

#[export] Instance kubeconfig_document : Document (list string) := {
  encode := Marshal;
  decode := Unmarshal;
  empty_doc := [];
  valid := fun paths => NoDup paths /\ Forall plain paths;
}.

#[export] Instance kubeconfig_ok `{!JSONOk (list string) (fun paths => NoDup paths /\ Forall plain paths)} :
  DocumentOk (list string).
Proof. split; [exact unmarshal_kept | exact unmarshal_total]. Qed.

Definition Add (path : string) (paths : list string) : option (list string) :=
  if contains paths path then None else Some (paths ++ [path]).

Definition Remove (path : string) (paths : list string) : option (list string) :=
  let next := List.filter (fun kept => negb (bool_decide (kept = path))) paths in
  if (zlen next =? zlen paths)%Z then None else Some next.

Lemma Add_admissible path : plain path -> admissible (Add path).
Proof.
  intros Hp paths v' [Hn Hf] Ha. unfold Add in Ha. destruct (contains paths path) eqn:E; [done |]. simplify_eq.
  split; [| by apply Forall_app; split; [| repeat constructor]].
  apply list.NoDup_app. split; [done |]. split; [| apply NoDup_singleton].
  intros q Hq ->%list_elem_of_singleton. apply contains_spec in Hq. congruence.
Qed.

Lemma filter_part {A} (f : A -> bool) l : sublist (List.filter f l) l.
Proof. induction l as [| x l IH]; cbn; [constructor |]. by destruct (f x); constructor. Qed.

Lemma Remove_admissible path : admissible (Remove path).
Proof.
  intros paths v' [Hn Hf] Hr. unfold Remove in Hr. destruct (_ =? _)%Z; [done |]. simplify_eq.
  assert (Hs := filter_part (fun kept => negb (bool_decide (kept = path))) paths).
  split; [by eapply sublist_NoDup |]. rewrite list.Forall_forall in Hf |- *. intros q [Hq _]%filter_elem. by apply Hf.
Qed.

Lemma Remove_gone path paths next : Remove path paths = Some next -> path ∈ paths /\ path ∉ next.
Proof.
  unfold Remove. destruct (Z.eqb_spec (zlen (List.filter (fun kept => negb (bool_decide (kept = path))) paths)) (zlen paths))
    as [E | E]; [done |]. intros [= <-]. split.
  - destruct (decide (path ∈ paths)) as [? | Hn]; [done |]. destruct E. f_equal.
    induction paths as [| q paths IH]; [done |]. cbn. rewrite bool_decide_false by set_solver. cbn. f_equal. apply IH. set_solver.
  - intros [_ Hq]%filter_elem. by rewrite bool_decide_true in Hq.
Qed.
End kubeconfig.

End Stores.

(** * Which clusters are protected *)

(** [net/url] and [strings.ToLower]; [Loopback] is [net.ParseIP] of an address
    that is one and [IsLoopback]. *)
Record url := MkUrl { Scheme : string; Host : string; Hostname : string; Port : string; Path : string }.

Class URL := {
  ParseURL : string -> option url;
  ToLower : string -> string;
  Loopback : string -> bool;
}.

Module ClusterID.
Section clusterid.
Context `{URL}.

Definition defaultPort (scheme : string) : string :=
  if bool_decide (scheme = "https") then "443" else if bool_decide (scheme = "http") then "80" else "".

Definition authority (scheme : string) (parsed : url) : string :=
  let host := ToLower (Hostname parsed) in
  let host := if str_contains host ":" then "[" +s+ host +s+ "]" else host in
  let port := Port parsed in
  if bool_decide (port = "") then host
  else if bool_decide (port = defaultPort scheme) then host
  else host +s+ ":" +s+ port.

(** [strings.TrimRight(path, "/")]. *)
Fixpoint prefix (path : string) : string :=
  match path with
  | EmptyString => ""
  | String c rest =>
      let rest := prefix rest in
      if bool_decide (rest = "") && bool_decide (c = Ascii.ascii_of_N 47) then "" else String c rest
  end.

Definition Normalize (server : string) : string :=
  let trimmed := TrimSpace server in
  if bool_decide (trimmed = "") then ""
  else match ParseURL trimmed with
  | None => trimmed
  | Some parsed =>
      if bool_decide (Host parsed = "") then trimmed
      else let scheme := ToLower (Scheme parsed) in
           scheme +s+ "://" +s+ authority scheme parsed +s+ prefix (Path parsed)
  end.
End clusterid.
End ClusterID.

Module Protect.
Import Text Stores ClusterID.

Section protect.
Context `{URL} `{JSON (gmap string bool)}.

(** [adopt]: a cluster saved under several spellings is protected if one says so. *)
Definition adopt_one (into : gmap string bool) (saved : string * bool) : gmap string bool :=
  let key := Normalize saved.1 in
  if bool_decide (key = "") then into
  else if default false (into !! key) then into
  else <[key := saved.2]> into.

Definition adopt (saved : gmap string bool) : gmap string bool := fold_left adopt_one (map_to_list saved) ∅.

(** A key that reads back as itself. *)
Definition stable_key (key : string) : Prop := key <> "" /\ Normalize key = key /\ plain key.

#[export] Instance protect_document : Document (gmap string bool) := {
  encode := Marshal;
  decode := fun body => saved ← Unmarshal body; Some (adopt saved);
  empty_doc := ∅;
  valid := map_Forall (fun key _ => stable_key key);
}.

Definition set_cluster (key : string) (protected : bool) (next : gmap string bool) : option (gmap string bool) :=
  Some (<[key := protected]> next).

(** [Set] on a store kept in memory; [None] is its error. *)
Definition Set_ (clusters : gmap string bool) (server : string) (protected : bool) : option (gmap string bool) :=
  let key := Normalize server in if bool_decide (key = "") then None else set_cluster key protected clusters.

Definition Local (server : string) : bool :=
  match ParseURL server with
  | None => false
  | Some parsed => bool_decide (Hostname parsed = "localhost") || Loopback (Hostname parsed)
  end.

Inductive verdict := ProtectionUnknown | ProtectionProtected | ProtectionOpen.

Definition Verdict (clusters : gmap string bool) (server : string) : verdict :=
  let key := Normalize server in
  if bool_decide (key = "") then ProtectionUnknown
  else match clusters !! key with
  | Some true => ProtectionProtected
  | Some false => ProtectionOpen
  | None => if Local key then ProtectionOpen else ProtectionUnknown
  end.

Lemma adopt_fold l into :
  Forall (fun p => stable_key p.1) l -> NoDup l.*1 -> (forall key, key ∈ l.*1 -> into !! key = None) ->
  fold_left adopt_one l into = list_to_map l ∪ into.
Proof.
  intros Hs. revert into. induction Hs as [| [key b] l (Hne & Hn & _) _ IH]; intros into Hnd Hnone; cbn.
  - by rewrite (left_id_L ∅ (∪)).
  - cbn in Hne, Hn, Hnd. apply list.NoDup_cons in Hnd as [Hk Hnd].
    unfold adopt_one at 2. cbn. rewrite Hn, bool_decide_false, Hnone by (done || by left). cbn.
    rewrite IH; [| done |].
    + rewrite <- insert_union_l, <- insert_union_r; [done |]. by apply not_elem_of_list_to_map.
    + intros q Hq. rewrite lookup_insert_ne by (intros ->; done). apply Hnone. by right.
Qed.

Lemma adopt_stable saved : valid saved -> adopt saved = saved.
Proof.
  intros Hv. unfold adopt. rewrite adopt_fold, list_to_map_to_list; [apply (right_id_L ∅ (∪)) | | apply NoDup_fst_map_to_list |].
  - apply list.Forall_forall. intros [key b] Hp%elem_of_map_to_list. exact (Hv key b Hp).
  - intros key _. apply lookup_empty.
Qed.

#[export] Instance protect_ok `{!JSONOk (gmap string bool) (map_Forall (fun k _ => plain k))} :
  DocumentOk (gmap string bool).
Proof.
  split.
  - intros v Hv. unfold decode, encode, protect_document.
    rewrite unmarshal_kept; [cbn; f_equal; by apply adopt_stable |].
    intros k b Hk. by destruct (Hv k b Hk) as (_ & _ & ?).
  - intros v. unfold decode, encode, protect_document. destruct (unmarshal_total v) as [w ->]. by eexists.
Qed.

Lemma set_admissible key protected : stable_key key -> admissible (set_cluster key protected).
Proof. intros Hk next v' Hn [= <-]. by apply map_Forall_insert_2. Qed.

(** What was set is what a later verdict says, read back from the file too. *)
Lemma verdict_set clusters server protected next :
  stable_key (Normalize server) -> valid clusters -> Set_ clusters server protected = Some next ->
  Verdict (adopt next) server = if protected then ProtectionProtected else ProtectionOpen.
Proof.
  intros Hk Hv Hs. assert (Hn : valid next).
  { unfold Set_ in Hs. case_bool_decide; [done |]. by eapply set_admissible. }
  rewrite adopt_stable by done. unfold Set_, Verdict in *. case_bool_decide; [done |]. injection Hs as <-.
  rewrite lookup_insert_eq. by destruct protected.
Qed.

End protect.

(** What [url.Parse] makes of two addresses. *)
#[local] Instance two_addresses : URL := {
  ParseURL s :=
    if bool_decide (s = "https://h/a%20") then Some (MkUrl "https" "h" "h" "" "/a ")
    else if bool_decide (s = "https://h/a") then Some (MkUrl "https" "h" "h" "" "/a")
    else None;
  ToLower s := s;
  Loopback _ := false;
}.

(** A server whose path is escaped is saved under its decoded path, which is
    normalized again when the file is read: the protection is not found. *)
Theorem protection_forgotten :
  let saved := default ∅ (Set_ ∅ "https://h/a%20" true) in
  Verdict saved "https://h/a%20" = ProtectionProtected /\
  Verdict (adopt saved) "https://h/a%20" = ProtectionUnknown.
Proof. by vm_compute. Qed.

End Protect.

(** * A run of a store *)

Module OneChange.
Import Text Atomic Stores.

#[local] Instance text_document : Document string := {
  encode s := s;
  decode s := Some (String.substring 0 (String.length s - 1) s);
  empty_doc := "";
  valid _ := True;
}.

#[local] Instance text_document_ok : DocumentOk string.
Proof.
  assert (H : forall v : string, decode (encode v +s+ end_of_line) = Some v); [| split; [by intros | intros v; by rewrite H]].
  intros v. change (Some (String.substring 0 (String.length (v +s+ end_of_line) - 1) (v +s+ end_of_line)) = Some v).
  f_equal. rewrite append_length. replace (String.length v + _ - 1) with (String.length v) by (cbn; lia).
  induction v as [| c v IH]; [done |]. rewrite append_cons. exact (f_equal (String c) IH).
Qed.

Definition mark (v : string) : option string := Some (v +s+ "!").

Definition start : @system string :=
  MkSystem (MkFs {["s.json" := 0]} [] {[0 := "a" +s+ end_of_line]} {[0]}) None [].

(** What the disk holds after the first [n] calls of the save. *)
Definition after (n : nat) : stage * fs := run false "s.json" (body_of "a!") (replicate n fine) Begin (disk start).

Definition midway (n : nat) : @system string := MkSystem (after n).2 (Some 0) [Saving "a!" (after n).1].

Lemma start_ok : fs_ok (disk start).
Proof.
  intros ns p i [-> | Hn]%list.elem_of_cons Hi; [| by apply elem_of_nil in Hn].
  cbn in Hi. apply lookup_singleton_Some in Hi as [_ <-]. cbn. set_solver.
Qed.

Lemma start_reads content : may (disk start) "s.json" content -> readDoc content = Some "a".
Proof.
  intros (ns & [-> | Hn]%list.elem_of_cons & Hl); [| by apply elem_of_nil in Hn].
  unfold left_by in Hl. cbn in Hl. rewrite lookup_singleton_eq, bool_decide_true in Hl by set_solver.
  rewrite lookup_singleton_eq in Hl. by subst.
Qed.

Lemma saves n : n < 7 -> step false "s.json" (midway n) (midway (S n)).
Proof.
  intros Hn. apply (step_save _ _ (midway n) 0 "a!" (after n).1 fine (Saving "a!" (after (S n)).1) (after (S n)).2); [done |].
  do 7 (destruct n as [| n]; [by vm_compute |]). lia.
Qed.

Definition done_ : @system string := MkSystem (after 8).2 None [Returned true].

Lemma one_change : rtc (step false "s.json") start done_.
Proof.
  eapply rtc_l; [by apply step_call with (u := mark) |].
  eapply rtc_l; [by apply (step_lock _ _ _ 0 mark) |].
  eapply rtc_l; [by apply (step_load _ _ _ 0 mark "a!") |].
  transitivity (midway 7).
  { eapply rtc_l; [apply (saves 0); lia |]. do 6 (eapply rtc_l; [apply saves; lia |]). constructor. }
  eapply rtc_l; [apply (step_save _ _ (midway 7) 0 "a!" (after 7).1 fine (Unlocking true) (after 8).2); [done | by vm_compute] |].
  apply rtc_once. exact (step_unlock false "s.json" (MkSystem (after 8).2 (Some 0) [Unlocking true]) 0 true eq_refl).
Qed.

Lemma stores_keep_promise_witness :
  rtc (step false "s.json") start done_ /\
  exists a, rtc (promise false) (MkRegister "a" [] []) a /\
    readDoc (view (disk done_) "s.json") = Some (reg a) /\ calls a !! 0 = Some (Answered true).
Proof.
  split; [exact one_change |].
  destruct (stores_keep_promise false "s.json" (disk start) "a" done_ start_ok start_reads one_change)
    as [(a & Ha & Hr & _ & _ & _ & Hret & _) _].
  exists a. split; [exact Ha |]. split; [exact Hr |]. by apply Hret.
Defined.

End OneChange.
