(* ===== verification/Guard.v ===== *)
(** internal/server/guard.go and the admission of internal/server/auth.go:
    which requests are let in to the router, on a loopback listener and when
    serving a cluster.  A request is what net/http read of it; url.Parse and
    net.ParseIP are the class [Net] of [Config]. *)

From Stdlib Require Import Ascii.
From S2P Require Import Prelude Unstr Identity Session Revocations Config Authenticator Faults.

Module Guard.
Import Identity Config.

Definition desktopScheme : string := "wails".
Definition desktopHost : string := "wails.localhost".
Definition AuthHeader : string := "X-Spinoza-Token".
Definition AuthParam : string := "token".
Definition authCookie : string := "spinoza_token".

Definition pathLogin : string := "/auth/login".
Definition pathCallback : string := "/auth/callback".
Definition pathLogout : string := "/auth/logout".
Definition pathBackchannel : string := "/auth/backchannel-logout".
Definition pathSession : string := "/api/auth/me".
Definition pathIndex : string := "/index.html".
Definition needsSigningIn : string := "spinoza needs you to sign in".
Definition noSuchOrigin : string := "spinoza answers pages served from its own address only".

Definition MethodGet : string := "GET".
Definition MethodHead : string := "HEAD".
Definition MethodPost : string := "POST".
Definition MethodPut : string := "PUT".
Definition MethodPatch : string := "PATCH".
Definition MethodDelete : string := "DELETE".

(** ** Requests *)

Definition hex_value (c : ascii) : option N :=
  let n := N_of_ascii c in
  if (48 <=? n)%N && (n <=? 57)%N then Some (n - 48)%N
  else if (97 <=? n)%N && (n <=? 102)%N then Some (n - 87)%N
  else if (65 <=? n)%N && (n <=? 70)%N then Some (n - 55)%N
  else None.

Definition percent : ascii := ascii_of_N 37.

(** [url.PathUnescape]. *)
Fixpoint PathUnescape (s : string) : option string :=
  match s with
  | EmptyString => Some ""
  | String c rest =>
      if bool_decide (c = percent) then
        match rest with
        | String h (String l more) =>
            high ← hex_value h; low ← hex_value l; tail ← PathUnescape more;
            Some (String (ascii_of_N (16 * high + low)) tail)
        | _ => None
        end
      else String c <$> PathUnescape rest
  end.

(** A request: the method, [URL.EscapedPath()], [Host] and the parts the
    authenticator reads.  A path that does not unescape is refused by net/http. *)
Record web := MkWeb {
  Method : string;
  EscapedPath : string;
  Host : string;
  parts : Authenticator.request;
}.

(** [r.URL.Path] *)
Definition Path (r : web) : string := default "" (PathUnescape (EscapedPath r)).
Definition header (r : web) (name : string) : string := Authenticator.Header (parts r) name.

(** [strings.EqualFold(s, text)] of an ASCII [text]: [ſ] folds to [s] and the
    Kelvin sign to [k]. *)
Definition EqualFold (s text : string) : bool := bool_decide (Faults.eat_all text s = Some "").

(** ** What a request is *)

Definition publicAsset (r : web) : bool :=
  if bool_decide (Method r <> MethodGet) && bool_decide (Method r <> MethodHead) then false
  else if bool_decide (Path r = "/favicon.svg") then true
  else if bool_decide (Path r = "/assets/") then false
  else has_prefix (Path r) "/assets/".

Definition upgrading (r : web) : bool :=
  if bool_decide (Method r <> MethodGet) then false
  else if negb (EqualFold (header r "Upgrade") "websocket") then false
  else contains ["/ws"; "/api/exec"; "/api/nodeshell"; "/api/shell"] (Path r).

Definition mutating (method : string) : bool :=
  contains [MethodPost; MethodPut; MethodPatch; MethodDelete] method.

Definition digestByte (c : ascii) : bool :=
  let n := N_of_ascii c in
  let alpha := ((97 <=? n)%N && (n <=? 122)%N) || ((65 <=? n)%N && (n <=? 90)%N) in
  let digit := (48 <=? n)%N && (n <=? 57)%N in
  alpha || digit || bool_decide (c = "_"%char) || bool_decide (c = "-"%char).

Definition fingerprintedAsset (path : string) : bool :=
  if negb (has_prefix path "/assets/") then false
  else
    let bytes := String.list_ascii_of_string path in
    let name := match Authenticator.last_index "/"%char bytes 0 None with
                | Some at_ => skipn (at_ + 1) bytes | None => bytes end in
    match Authenticator.last_index "."%char name 0 None with
    | None => false
    | Some dot =>
        match Authenticator.last_index "-"%char (take dot name) 0 None with
        | None => false
        | Some dash =>
            let digest := skipn (dash + 1) (take dot name) in
            if bool_decide (length digest < 8) then false else forallb digestByte digest
        end
    end.

(** ** The run's token *)

Definition presentedToken (r : web) : string * bool :=
  let h := header r AuthHeader in
  if bool_decide (h <> "") then (h, false)
  else
    let query := Authenticator.Query (parts r) AuthParam in
    if bool_decide (query <> "") then (query, true)
    else match Authenticator.Cookie (parts r) authCookie with
    | None => ("", false)
    | Some value => (value, false)
    end.

Definition tokenMatches (want presented : string) : bool :=
  if bool_decide (want = "") then false else bool_decide (want = presented).

(** ** Where it comes from *)

Definition topLevelNavigation (r : web) : bool :=
  if negb (contains [MethodGet; MethodHead] (Method r)) then false
  else if bool_decide (header r "Sec-Fetch-Mode" <> "navigate") then false
  else bool_decide (header r "Sec-Fetch-Dest" = "document").

Definition hostOf (authority : string) : string :=
  match Authenticator.SplitHost authority with Some host => host | None => authority end.

Definition desktopAuthority (authority : string) : bool :=
  let host := hostOf authority in
  if bool_decide (host = desktopScheme) then true else bool_decide (host = desktopHost).

Fixpoint drop_brackets (l : list ascii) : list ascii :=
  match l with
  | c :: rest => if bool_decide (c = "["%char) || bool_decide (c = "]"%char) then drop_brackets rest else l
  | [] => []
  end.

(** [strings.Trim(host, "[]")] *)
Definition trim_brackets (host : string) : string :=
  String.string_of_list_ascii (rev (drop_brackets (rev (drop_brackets (String.list_ascii_of_string host))))).

Section net.
Context `{!Net}.

Definition loopbackAuthority (authority : string) : bool :=
  if bool_decide (authority = "") then false
  else
    let host := hostOf authority in
    if bool_decide (host = "localhost") then true
    else if bool_decide (host = desktopHost) then true
    else match ParseIP_loopback (trim_brackets host) with
    | None => false
    | Some loopback => loopback
    end.

Definition allowedOrigin (origin authority : string) : bool :=
  if bool_decide (origin = "") then true
  else match url_Parse origin with
  | None => false
  | Some parsed =>
      if bool_decide (url_Scheme parsed = desktopScheme) then desktopAuthority (url_Host parsed)
      else if bool_decide (url_Scheme parsed <> "http") && bool_decide (url_Scheme parsed <> "https") then false
      else if desktopAuthority (url_Host parsed) then true
      else bool_decide (url_Host parsed = authority)
  end.

Definition isLocal (r : web) : bool :=
  if negb (loopbackAuthority (Host r)) then false
  else
    let origin := header r "Origin" in
    if bool_decide (origin = "null") then bool_decide (header r "Sec-Fetch-Site" = "same-origin")
    else if bool_decide (origin = "") then
      if topLevelNavigation r then true
      else bool_decide (header r "Sec-Fetch-Site" <> "cross-site")
    else allowedOrigin origin (Host r).

Definition originOfURL (raw : string) : string :=
  if bool_decide (raw = "") then ""
  else match url_Parse raw with
  | None => ""
  | Some parsed =>
      if bool_decide (url_Scheme parsed = "") || bool_decide (url_Host parsed = "") then ""
      else url_Scheme parsed +s+ "://" +s+ url_Host parsed
  end.

(** ** The server's part in it *)

Record gate := MkGate {
  token : string;
  authn : option Authenticator.Authenticator;
  publicOrigin : string;
  served : bool;
}.

(** [UseClusterAuth] *)
Definition UseClusterAuth (s : gate) (a : option Authenticator.Authenticator) (publicURL : string) : gate :=
  MkGate (token s) a (originOfURL publicURL) true.

Definition ownAddress (s : gate) (r : web) : bool :=
  let origin := header r "Origin" in
  if bool_decide (origin = "null") then bool_decide (header r "Sec-Fetch-Site" = "same-origin")
  else if bool_decide (origin = "") then
    if topLevelNavigation r then true
    else bool_decide (header r "Sec-Fetch-Site" <> "cross-site")
  else
    let wanted := publicOrigin s in
    if bool_decide (wanted = "") then allowedOrigin origin (Host r)
    else EqualFold (originOfURL origin) wanted.

Definition publicWhenServing (r : web) : bool :=
  if publicAsset r then true
  else if bool_decide (Method r = MethodPost) then
    if bool_decide (Path r = pathBackchannel) then true else bool_decide (Path r = pathLogout)
  else if bool_decide (Method r <> MethodGet) && bool_decide (Method r <> MethodHead) then false
  else contains ["/"; pathIndex; "/healthz"; "/readyz"; pathSession; pathLogin; pathCallback; pathLogout] (Path r).

(** A refusal: an answer, or the close frame of a socket of an earlier run. *)
Inductive refusal :=
| Answer (status : Z) (message : string)
| CloseStaleToken.

Definition tokenCookie (presented : string) : Session.cookie := Session.MkCookie authCookie presented false 0.

Definition authorize (s : gate) (r : web) : bool * list Session.cookie :=
  let '(presented, fromQuery) := presentedToken r in
  if negb (tokenMatches (token s) presented) then (false, [])
  else (true, if fromQuery then [tokenCookie presented] else []).

Definition localOnly : string := "spinoza answers local requests only".
Definition needsToken : string := "spinoza needs the token it printed at startup".

Definition admitLocal (s : gate) (r : web) : list Session.cookie * result refusal Context_ :=
  if negb (isLocal r) then ([], Err (Answer 403 localOnly))
  else if publicAsset r then ([], Ok None)
  else
    let '(ok, cookies) := authorize s r in
    if negb ok then
      if upgrading r then (cookies, Err CloseStaleToken) else (cookies, Err (Answer 401 needsToken))
    else (cookies, Ok None).

Context `{!Session.JSON Session.sessionClaims}.

Definition identify (s : gate) (rv : Revocations.revocations) (r : web) (now : time) :
    Revocations.revocations * option Identity * list Session.cookie :=
  match authn s with
  | None => (rv, Some (MkIdentity "" [] RoleAdmin ""), [])
  | Some a =>
      let '(rv, who, renewed) := Authenticator.Identify a rv (parts r) now in
      (rv, who, match renewed with Some c => [c] | None => [] end)
  end.

(** The context of an admitted request carries the identity, when it is known. *)
Definition admitServed (s : gate) (rv : Revocations.revocations) (r : web) (now : time) :
    Revocations.revocations * list Session.cookie * result refusal Context_ :=
  if negb (ownAddress s r) then (rv, [], Err (Answer 403 noSuchOrigin))
  else
    let '(rv, who, cookies) := identify s rv r now in
    if publicWhenServing r then (rv, cookies, Ok who)
    else match who with
    | None => (rv, cookies, Err (Answer 401 needsSigningIn))
    | Some _ => (rv, cookies, Ok who)
    end.

Definition admit_ (s : gate) (rv : Revocations.revocations) (r : web) (now : time) :
    Revocations.revocations * list Session.cookie * result refusal Context_ :=
  if served s then admitServed s rv r now
  else let '(cookies, out) := admitLocal s r in (rv, cookies, out).
(** ** Pages of another site *)

(** Whatever it holds, a page of another site gets no request in: its origin is
    neither the host asked for nor the desktop's, nor the public one. *)
Lemma foreign_page_refused s rv r now parsed :
  let origin := header r "Origin" in
  origin <> "" -> origin <> "null" -> url_Parse origin = Some parsed ->
  url_Scheme parsed <> desktopScheme -> desktopAuthority (url_Host parsed) = false -> url_Host parsed <> Host r ->
  (served s = true -> publicOrigin s = "" \/ EqualFold (originOfURL origin) (publicOrigin s) = false) ->
  exists message, admit_ s rv r now = (rv, [], Err (Answer 403 message)).
Proof.
  cbn zeta. intros He Hn Hp Hs Hd Hh Hown.
  assert (Hforeign : allowedOrigin (header r "Origin") (Host r) = false).
  { unfold allowedOrigin. rewrite (bool_decide_false _ He), Hp, (bool_decide_false _ Hs), Hd, (bool_decide_false _ Hh).
    by destruct (_ && _). }
  unfold admit_. destruct (served s).
  - unfold admitServed, ownAddress. rewrite (bool_decide_false _ Hn), (bool_decide_false _ He).
    exists noSuchOrigin. destruct (Hown eq_refl) as [-> | Hf]; [by rewrite bool_decide_true, Hforeign by done |].
    case_bool_decide; by rewrite ?Hforeign, ?Hf.
  - unfold admitLocal, isLocal. rewrite (bool_decide_false _ Hn), (bool_decide_false _ He), Hforeign.
    exists localOnly. by destruct (loopbackAuthority (Host r)).
Qed.

(** A name that is not this machine's is refused on a loopback listener, so
    that a name pointed at it cannot reach it. *)
Lemma rebound_host_refused s rv r now :
  served s = false -> loopbackAuthority (Host r) = false ->
  admit_ s rv r now = (rv, [], Err (Answer 403 localOnly)).
Proof. intros Hs Hl. unfold admit_, admitLocal, isLocal. by rewrite Hs, Hl. Qed.

End net.

(** ** After the handler *)

(** The recorder around the response: its status and whether it was written to. *)
Record recorder := MkRecorder { status : Z; wrote : bool }.

Definition newRecorder : recorder := MkRecorder 200 false.
Definition WriteHeader (rec : recorder) (code : Z) : recorder := MkRecorder code true.
Definition Write (rec : recorder) : recorder := MkRecorder (status rec) true.

(** [finish]: what the response became when the handler panicked or returned,
    and whether the request is logged as an action. *)
Definition finish (rec : recorder) (panicked : bool) (r : web) : recorder * bool :=
  let rec := if panicked && negb (wrote rec) then Write (WriteHeader rec 500) else rec in
  (rec, mutating (Method r)).

(** [guard]: only a fingerprinted asset anyone may read is cached. *)
Definition cacheControl (r : web) : string :=
  if fingerprintedAsset (Path r) && publicAsset r then "public, max-age=31536000, immutable" else "no-store".

Lemma finish_panicked rec r : wrote rec = false -> status (fst (finish rec true r)) = 500%Z.
Proof. intros Hw. unfold finish. by rewrite Hw. Qed.

Example fingerprinted : fingerprintedAsset "/assets/index-B1c_d2-E.js" = false /\
  fingerprintedAsset "/assets/index-B1c_d2xE.js" = true.
Proof. by vm_compute. Qed.

Example presses : EqualFold "WebSocket" "websocket" = true /\ EqualFold "websockets" "websocket" = false.
Proof. by vm_compute. Qed.

End Guard.
