(* ===== verification/Routes.v ===== *)
(** internal/server/routes.go, policy.go and the rest of guard.go: the table
    of endpoints, what each asks of its caller, the router over them and the
    whole way of a request from the listener to a handler.  The handlers are
    names; the clusters that are open are an argument. *)

From Stdlib Require Import Ascii.
From S2P Require Import Prelude Api Text Identity Session Revocations Config Authenticator Guard.

Module Routes.
Import Identity Config Guard.

(** A handler by the name of its method, or one behind [withRef]. *)
Inductive handlerFunc := Plain (name : string) | WithRef (name : string).

Record endpoint := MkEndpoint {
  method : string;
  path : string;
  handler : handlerFunc;
  offline : bool;
  writes : bool;
}.

Definition routes : list endpoint := [
  MkEndpoint MethodGet "/healthz" (Plain "handleHealth") true false;
  MkEndpoint MethodGet "/readyz" (Plain "handleReady") true false;
  MkEndpoint MethodGet "/metrics" (Plain "handleSelfMetrics") true false;
  MkEndpoint MethodGet "/api/version" (Plain "handleVersion") true false;
  MkEndpoint MethodGet "/api/update" (Plain "handleUpdate") true false;
  MkEndpoint MethodPost "/api/update" (Plain "handleInstallUpdate") true false;
  MkEndpoint MethodGet "/api/contexts" (Plain "listContexts") true false;
  MkEndpoint MethodPost "/api/protection" (Plain "setProtection") true false;
  MkEndpoint MethodPost "/api/kubeconfigs" (Plain "addKubeconfig") true false;
  MkEndpoint MethodDelete "/api/kubeconfigs" (Plain "removeKubeconfig") true false;
  MkEndpoint MethodGet "/api/kubeconfigs/picker" (Plain "filePickerSupport") true false;
  MkEndpoint MethodPost "/api/kubeconfigs/picker" (Plain "pickFile") true false;
  MkEndpoint MethodGet "/api/resources/counts" (Plain "handleCounts") false false;
  MkEndpoint MethodGet "/api/resources/fleet" (Plain "fleetInventory") false false;
  MkEndpoint MethodGet "/api/images/fleet" (Plain "fleetImages") false false;
  MkEndpoint MethodGet "/api/search/fleet" (Plain "fleetSearch") false false;
  MkEndpoint MethodGet "/api/gitops/fleet" (Plain "fleetGitops") false false;
  MkEndpoint MethodGet "/api/search" (Plain "handleSearch") false false;
  MkEndpoint MethodGet "/api/namespaces" (Plain "handleNamespaces") false false;
  MkEndpoint MethodGet "/api/resources" (Plain "listResources") false false;
  MkEndpoint MethodPost "/api/resources" (Plain "refreshResources") false false;
  MkEndpoint MethodGet "/api/overview/fleet" (Plain "fleetOverview") false false;
  MkEndpoint MethodGet "/api/overview" (Plain "handleOverview") false false;
  MkEndpoint MethodGet "/api/capabilities" (Plain "handleCapabilities") true false;
  MkEndpoint MethodGet "/api/issues" (Plain "handleIssues") false false;
  MkEndpoint MethodGet "/api/issues/fleet" (Plain "fleetIssues") true false;
  MkEndpoint MethodGet "/api/helm/access" (Plain "helmAccess") false false;
  MkEndpoint MethodGet "/api/helm/history" (Plain "handleHelmHistory") false false;
  MkEndpoint MethodGet "/api/helm/release" (Plain "handleHelmRelease") false false;
  MkEndpoint MethodGet "/api/helm/versions" (Plain "handleHelmVersions") false false;
  MkEndpoint MethodGet "/api/helm/charts" (Plain "handleHelmCharts") false false;
  MkEndpoint MethodGet "/api/helm/values" (Plain "handleHelmChartValues") false false;
  MkEndpoint MethodPost "/api/helm/action" (Plain "handleHelmAction") false true;
  MkEndpoint MethodPost "/api/helm/upgrade" (Plain "handleHelmUpgrade") false true;
  MkEndpoint MethodPost "/api/helm/install" (Plain "handleHelmInstall") false true;
  MkEndpoint MethodGet "/api/helm/fleet" (Plain "fleetHelm") false false;
  MkEndpoint MethodGet "/api/helm" (Plain "handleHelm") false false;
  MkEndpoint MethodGet "/api/checks/findings" (Plain "handleCheckPage") false false;
  MkEndpoint MethodGet "/api/checks/findings/fleet" (Plain "fleetCheckPage") false false;
  MkEndpoint MethodPost "/api/checks/baseline" (Plain "takeBaseline") false false;
  MkEndpoint MethodDelete "/api/checks/baseline" (Plain "clearBaseline") false false;
  MkEndpoint MethodGet "/api/checks/baseline/file" (Plain "saveBaselineFile") false false;
  MkEndpoint MethodPut "/api/checks/baseline/file" (Plain "loadBaselineFile") false false;
  MkEndpoint MethodPost "/api/checks/rules/faults" (Plain "checkRules") false false;
  MkEndpoint MethodGet "/api/checks/export" (Plain "exportChecks") false false;
  MkEndpoint MethodGet "/api/checks/frameworks" (Plain "handleFrameworks") false false;
  MkEndpoint MethodGet "/api/checks/runs" (Plain "handleAuditRuns") false false;
  MkEndpoint MethodGet "/api/checks/mutes" (Plain "readMutes") false false;
  MkEndpoint MethodPost "/api/checks/mutes" (Plain "muteFinding") false false;
  MkEndpoint MethodDelete "/api/checks/mutes" (Plain "unmuteFinding") false false;
  MkEndpoint MethodGet "/api/checks/fleet" (Plain "fleetChecks") false false;
  MkEndpoint MethodGet "/api/checks" (Plain "handleChecks") false false;
  MkEndpoint MethodGet "/api/gitops/graph" (Plain "handleGraph") false false;
  MkEndpoint MethodGet "/api/topology" (Plain "handleTopology") false false;
  MkEndpoint MethodGet "/api/waste" (Plain "handleWaste") false false;
  MkEndpoint MethodGet "/api/rollout/diff" (WithRef "rolloutDiff") false false;
  MkEndpoint MethodGet "/api/rollout" (WithRef "rolloutRevisions") false false;
  MkEndpoint MethodGet "/api/gitops/app" (WithRef "gitopsApp") false false;
  MkEndpoint MethodGet "/api/gitops/app/graph" (WithRef "gitopsAppGraph") false false;
  MkEndpoint MethodGet "/api/flux" (Plain "handleFlux") false false;
  MkEndpoint MethodGet "/api/flux/overview" (Plain "handleFluxOverview") false false;
  MkEndpoint MethodGet "/api/argocd" (Plain "handleArgo") false false;
  MkEndpoint MethodPost "/api/flux/action" (WithRef "fluxAction") false true;
  MkEndpoint MethodPost "/api/argocd/action" (WithRef "argoAction") false true;
  MkEndpoint MethodPost "/api/action" (Plain "handleAction") false true;
  MkEndpoint MethodGet "/api/traffic" (Plain "handleTraffic") false false;
  MkEndpoint MethodGet "/api/metrics/history" (Plain "handleMetricHistory") false false;
  MkEndpoint MethodGet "/api/metrics" (Plain "handleMetrics") false false;
  MkEndpoint MethodGet "/api/compare" (WithRef "compare") false false;
  MkEndpoint MethodGet "/api/compare/kind" (Plain "compareKind") false false;
  MkEndpoint MethodGet "/api/rbac/who" (Plain "handleRBACWho") false false;
  MkEndpoint MethodGet "/api/rbac" (Plain "handleRBAC") false false;
  MkEndpoint MethodGet "/api/access" (WithRef "objectAccess") false false;
  MkEndpoint MethodPost "/api/access" (Plain "bulkAccess") false false;
  MkEndpoint MethodGet "/api/object" (WithRef "getObject") false false;
  MkEndpoint MethodPut "/api/object" (WithRef "applyObject") false true;
  MkEndpoint MethodDelete "/api/object" (WithRef "deleteObject") false true;
  MkEndpoint MethodGet "/api/events" (Plain "handleEvents") false false;
  MkEndpoint MethodGet "/api/schema" (Plain "handleSchema") false false;
  MkEndpoint MethodGet "/api/portforward" (Plain "listForwards") false false;
  MkEndpoint MethodPost "/api/portforward" (Plain "startForward") false false;
  MkEndpoint MethodDelete "/api/portforward" (Plain "stopForward") false false;
  MkEndpoint MethodGet "/api/exec/support" (Plain "handleExecSupport") false false;
  MkEndpoint MethodGet "/api/debug/support" (Plain "handleDebugSupport") false false;
  MkEndpoint MethodGet "/api/support" (Plain "handleSupport") true false;
  MkEndpoint MethodPost "/api/debug" (Plain "handleDebug") false true;
  MkEndpoint MethodGet "/api/exec" (Plain "handleExec") false false;
  MkEndpoint MethodGet "/api/nodeshell/support" (Plain "handleNodeShellSupport") false false;
  MkEndpoint MethodGet "/api/nodeshell" (Plain "handleNodeShell") false true;
  MkEndpoint MethodGet "/api/clusters" (Plain "listClusters") true false;
  MkEndpoint MethodPost "/api/clusters" (Plain "openCluster") true false;
  MkEndpoint MethodDelete "/api/clusters" (Plain "closeCluster") true false;
  MkEndpoint MethodPost "/api/clusters/active" (Plain "activateCluster") true false;
  MkEndpoint MethodPost "/api/clusters/color" (Plain "recolorCluster") true false;
  MkEndpoint MethodPost "/api/clusters/name" (Plain "renameCluster") true false;
  MkEndpoint MethodPost "/api/clusters/reopen" (Plain "reopenCluster") true false;
  MkEndpoint MethodPost "/api/clusters/timeline" (Plain "recordCluster") true false;
  MkEndpoint MethodGet "/api/history/export" (Plain "exportHistory") true false;
  MkEndpoint MethodGet "/api/history" (Plain "readHistory") true false;
  MkEndpoint MethodDelete "/api/history" (Plain "clearHistory") true false;
  MkEndpoint MethodGet "/api/view" (Plain "readView") true false;
  MkEndpoint MethodPost "/api/view/browser" (Plain "toBrowser") true false;
  MkEndpoint MethodPost "/api/view/desktop" (Plain "toDesktop") true false;
  MkEndpoint MethodGet "/api/memory" (Plain "handleMemory") true false;
  MkEndpoint MethodGet "/api/views" (Plain "listSavedViews") true false;
  MkEndpoint MethodPut "/api/views" (Plain "saveView") true false;
  MkEndpoint MethodDelete "/api/views" (Plain "forgetView") true false;
  MkEndpoint MethodGet "/api/transcripts/text" (Plain "readTranscript") true false;
  MkEndpoint MethodGet "/api/transcripts" (Plain "listTranscripts") true false;
  MkEndpoint MethodGet "/api/settings" (Plain "readSettings") true false;
  MkEndpoint MethodPut "/api/settings" (Plain "writeSettings") true false;
  MkEndpoint MethodGet "/api/shell" (Plain "handleLocalShell") true false;
  MkEndpoint MethodGet "/ws" (Plain "handleWS") false false].

Definition sessionRoute : endpoint := MkEndpoint MethodGet pathSession (Plain "handleSession") true false.

Definition signInRoutes : list endpoint := [
  MkEndpoint MethodGet pathLogin (Plain "handleLogin") true false;
  MkEndpoint MethodGet pathCallback (Plain "handleCallback") true false;
  MkEndpoint MethodPost pathLogout (Plain "handleLogout") true false;
  MkEndpoint MethodPost pathBackchannel (Plain "handleBackchannelLogout") true false].

Definition allRoutes (inCluster : bool) : list endpoint :=
  let all := routes ++ [sessionRoute] in
  if negb inCluster then all else all ++ signInRoutes.

(** ** policy.go *)

Definition routeKey (method path : string) : string := method +s+ " " +s+ path.
Definition keyOf (e : endpoint) : string := routeKey (method e) (path e).

Definition actionPath : string := "/api/action".

Definition neededRole : gmap string string := list_to_map [
  (routeKey MethodPost "/api/protection", RoleAdmin);
  (routeKey MethodPost "/api/helm/action", RoleEditor);
  (routeKey MethodPost "/api/helm/upgrade", RoleEditor);
  (routeKey MethodPost "/api/helm/install", RoleEditor);
  (routeKey MethodPost "/api/checks/baseline", RoleEditor);
  (routeKey MethodDelete "/api/checks/baseline", RoleEditor);
  (routeKey MethodPut "/api/checks/baseline/file", RoleEditor);
  (routeKey MethodPost "/api/checks/mutes", RoleEditor);
  (routeKey MethodDelete "/api/checks/mutes", RoleEditor);
  (routeKey MethodPost "/api/flux/action", RoleEditor);
  (routeKey MethodPost "/api/argocd/action", RoleEditor);
  (routeKey MethodPost actionPath, RoleEditor);
  (routeKey MethodPut "/api/object", RoleEditor);
  (routeKey MethodDelete "/api/object", RoleEditor);
  (routeKey MethodPost "/api/debug", RoleAdmin);
  (routeKey MethodGet "/api/exec", RoleAdmin);
  (routeKey MethodGet "/api/rbac", RoleAdmin);
  (routeKey MethodGet "/api/rbac/who", RoleAdmin);
  (routeKey MethodGet "/api/nodeshell", RoleAdmin);
  (routeKey MethodGet "/metrics", RoleAdmin);
  (routeKey MethodGet "/api/transcripts", RoleAdmin);
  (routeKey MethodGet "/api/transcripts/text", RoleAdmin);
  (routeKey MethodGet "/api/history/export", RoleAdmin);
  (routeKey MethodGet "/api/support", RoleAdmin);
  (routeKey MethodPost "/api/clusters/timeline", RoleAdmin);
  (routeKey MethodDelete "/api/history", RoleAdmin);
  (routeKey MethodPost "/api/resources", RoleAdmin)].

Definition onlyWhenLocal : gset string := list_to_set [
  routeKey MethodGet "/api/update";
  routeKey MethodPost "/api/update";
  routeKey MethodPost "/api/kubeconfigs";
  routeKey MethodDelete "/api/kubeconfigs";
  routeKey MethodGet "/api/kubeconfigs/picker";
  routeKey MethodPost "/api/kubeconfigs/picker";
  routeKey MethodPost "/api/clusters";
  routeKey MethodDelete "/api/clusters";
  routeKey MethodPost "/api/clusters/active";
  routeKey MethodPost "/api/clusters/color";
  routeKey MethodPost "/api/clusters/name";
  routeKey MethodPost "/api/clusters/reopen";
  routeKey MethodPost "/api/view/browser";
  routeKey MethodPost "/api/view/desktop";
  routeKey MethodGet "/api/shell";
  routeKey MethodPost "/api/portforward";
  routeKey MethodDelete "/api/portforward"].

Definition needsWholeCluster : gset string := list_to_set [
  routeKey MethodGet "/api/resources/counts";
  routeKey MethodGet "/api/overview";
  routeKey MethodGet "/api/issues";
  routeKey MethodGet "/api/checks";
  routeKey MethodGet "/api/checks/findings";
  routeKey MethodGet "/api/checks/findings/fleet";
  routeKey MethodGet "/api/checks/export";
  routeKey MethodGet "/api/checks/frameworks";
  routeKey MethodGet "/api/checks/runs";
  routeKey MethodGet "/api/waste";
  routeKey MethodGet "/api/checks/mutes";
  routeKey MethodPost "/api/checks/mutes";
  routeKey MethodDelete "/api/checks/mutes";
  routeKey MethodGet "/api/gitops/graph";
  routeKey MethodGet "/api/gitops/app";
  routeKey MethodGet "/api/gitops/app/graph";
  routeKey MethodGet "/api/topology";
  routeKey MethodGet "/api/flux";
  routeKey MethodGet "/api/flux/overview";
  routeKey MethodGet "/api/argocd";
  routeKey MethodGet "/api/traffic";
  routeKey MethodGet "/api/metrics";
  routeKey MethodGet "/api/compare";
  routeKey MethodGet "/api/compare/kind";
  routeKey MethodGet "/api/resources/fleet";
  routeKey MethodGet "/api/images/fleet";
  routeKey MethodGet "/api/search/fleet";
  routeKey MethodGet "/api/gitops/fleet";
  routeKey MethodGet "/api/overview/fleet";
  routeKey MethodGet "/api/issues/fleet";
  routeKey MethodGet "/api/checks/fleet";
  routeKey MethodGet "/api/helm/fleet";
  routeKey MethodPost "/api/checks/baseline";
  routeKey MethodDelete "/api/checks/baseline";
  routeKey MethodGet "/api/checks/baseline/file";
  routeKey MethodPut "/api/checks/baseline/file";
  routeKey MethodPost "/api/clusters/timeline";
  routeKey MethodGet "/api/history";
  routeKey MethodGet "/api/history/export";
  routeKey MethodDelete "/api/history"].

Definition needsWholeFleet : gset string := list_to_set [
  routeKey MethodGet "/api/resources/fleet";
  routeKey MethodGet "/api/images/fleet";
  routeKey MethodGet "/api/search/fleet";
  routeKey MethodGet "/api/gitops/fleet";
  routeKey MethodGet "/api/overview/fleet";
  routeKey MethodGet "/api/issues/fleet";
  routeKey MethodGet "/api/checks/fleet";
  routeKey MethodGet "/api/checks/findings/fleet";
  routeKey MethodGet "/api/helm/fleet"].

Definition readsEverything : string :=
  "this view reads the whole cluster, and your account reads named namespaces only".
Definition clusterWouldNotSay : string :=
  "this view reads the whole cluster, and the cluster would not say whether your account may".
Definition notInClusterMode : string :=
  "spinoza is serving a cluster, so that only works when you run it yourself".
Definition noCluster : string := "spinoza has no cluster; pick a context that answers".
Definition refNeeded : string := "version, resource and name are required".

Definition roleFor (e : endpoint) : string := default "" (neededRole !! keyOf e).
Definition onlyHere (e : endpoint) : bool := bool_decide (keyOf e ∈ onlyWhenLocal).
Definition wholeCluster (e : endpoint) : bool := bool_decide (keyOf e ∈ needsWholeCluster).
Definition wholeFleet (e : endpoint) : bool := bool_decide (keyOf e ∈ needsWholeFleet).

(** [actions.Action] *)
Definition Action := string.

Definition Scale : Action := "scale".
Definition Restart : Action := "restart".
Definition Cordon : Action := "cordon".
Definition Uncordon : Action := "uncordon".
Definition Drain : Action := "drain".
Definition Suspend : Action := "suspend".
Definition Resume : Action := "resume".
Definition Trigger : Action := "trigger".
Definition Undo : Action := "undo".

Definition touchesNodes (action : Action) : bool :=
  bool_decide (action = Cordon) || bool_decide (action = Uncordon) || bool_decide (action = Drain).

Definition actionRole (action : Action) : string :=
  if touchesNodes action then RoleAdmin else default "" (neededRole !! routeKey MethodPost actionPath).

(** ** The clusters behind the handlers *)

Record OpenCluster := MkOpenCluster { o_ID : string; o_Context : string; o_Label : string }.

(** [Manager] gives the backend of an open cluster, of which the router asks
    what namespaces the caller reads. *)
Record Cluster := MkCluster {
  Manager : string -> option (Context_ -> Api.Scope);
  Opened : list OpenCluster;
  ID : string;
}.

Definition nameOf (one : OpenCluster) : string :=
  if bool_decide (o_Label one <> "") then o_Label one else o_Context one.

Definition clusterParam : string := "cluster".

Definition managerFor (cl : Cluster) (r : web) : option (Context_ -> Api.Scope) :=
  let id := Authenticator.Query (parts r) clusterParam in
  Manager cl (if bool_decide (id = "") then ID cl else id).

(** Whether a scope answers a question about the whole cluster; if not, the
    refusal. *)
Definition scopeRefusal (seen : Api.Scope) : option (Z * string) :=
  if Api.Everywhere seen then None
  else if (zlen (Api.Namespaces seen) =? 0)%Z && (0 <? zlen (Api.Undecided seen))%Z then
    Some (503%Z, clusterWouldNotSay)
  else Some (403%Z, readsEverything).

Definition wholeClusterRefusal (cl : Cluster) (r : web) (ctx : Context_) : option (Z * string) :=
  match managerFor cl r with None => None | Some scope => scopeRefusal (scope ctx) end.

Fixpoint fleetRefusal (manager : string -> option (Context_ -> Api.Scope)) (ctx : Context_)
    (opened : list OpenCluster) : option (Z * string) :=
  match opened with
  | [] => None
  | one :: rest =>
      match manager (o_ID one) with
      | None => Some (503%Z, nameOf one +s+ " is not available")
      | Some scope =>
          match scopeRefusal (scope ctx) with
          | None => fleetRefusal manager ctx rest
          | Some (status, why) => Some (status, nameOf one +s+ ": " +s+ why)
          end
      end
  end.

Definition wholeFleetRefusal (cl : Cluster) (ctx : Context_) : option (Z * string) :=
  fleetRefusal (Manager cl) ctx (Opened cl).

(** ** What becomes of a request *)

Inductive outcome :=
| Ran (e : endpoint) (ctx : Context_)
| Refused (status : Z) (message : string)
| Closed (code : Z)
| Moved (to : string)
| Profiled (ctx : Context_)
| Assets (ctx : Context_)
| Malformed.

Definition holdsRole (ctx : Context_) (need : string) : bool :=
  let '(who, ok) := IdentityFrom ctx in
  if negb ok then false else Allows (Role who) need.

Definition heldRole (ctx : Context_) : string :=
  let '(who, ok) := IdentityFrom ctx in
  if negb ok || bool_decide (Role who = "") then "unknown" else Role who.

Definition refuseRole (ctx : Context_) (need : string) : outcome :=
  Refused 403 ("your role here is " +s+ heldRole ctx +s+ "; this needs " +s+ need).

(** The handler, or [withRef]'s refusal of a reference that names no object. *)
Definition run (e : endpoint) (r : web) (ctx : Context_) : outcome :=
  let given key := Authenticator.Query (parts r) key in
  match handler e with
  | Plain _ => Ran e ctx
  | WithRef _ =>
      if bool_decide (given "version" = "") || bool_decide (given "resource" = "") ||
         bool_decide (given "name" = "") then Refused 400 refNeeded
      else Ran e ctx
  end.

Definition reachable (cl : Cluster) (e : endpoint) (r : web) (ctx : Context_) : outcome :=
  if offline e then run e r ctx
  else match managerFor cl r with
  | None => Refused 503 noCluster
  | Some _ => run e r ctx
  end.

Definition permitted (inCluster : bool) (cl : Cluster) (e : endpoint) (r : web) (ctx : Context_) : outcome :=
  let inner := reachable cl e r ctx in
  let need := roleFor e in
  if bool_decide (need = "") && negb (onlyHere e) && negb (wholeCluster e) then inner
  else if negb inCluster then inner
  else if onlyHere e then Refused 403 notInClusterMode
  else if negb (bool_decide (need = "")) && negb (holdsRole ctx need) then refuseRole ctx need
  else if wholeCluster e then
    match (if wholeFleet e then wholeFleetRefusal cl ctx else wholeClusterRefusal cl r ctx) with
    | Some (status, why) => Refused status why
    | None => inner
    end
  else inner.

Definition forAdmins (inCluster : bool) (ctx : Context_) : outcome :=
  if inCluster && negb (holdsRole ctx RoleAdmin) then refuseRole ctx RoleAdmin else Profiled ctx.

(** ** http.ServeMux *)

Definition slash : ascii := ascii_of_N 47.

(** The segments of a path, after its first byte; a trailing slash leaves an
    empty last one. *)
Definition segments (p : string) : list string :=
  match p with EmptyString => [""] | String _ rest => str_split slash rest end.

(** A segment is unescaped to compare it, or compared as it is. *)
Definition literal (segment : string) : string := default segment (PathUnescape segment).

Definition joined (l : list string) : string := String slash (String.concat (String slash "") l).

(** [path.Clean] of a rooted path, by its segments: [kept] holds the ones kept,
    the last first. *)
Fixpoint clean_segments (kept l : list string) : list string :=
  match l with
  | [] => rev kept
  | s :: rest =>
      if bool_decide (s = "") || bool_decide (s = ".") then clean_segments kept rest
      else if bool_decide (s = "..") then clean_segments (tail kept) rest
      else clean_segments (s :: kept) rest
  end.

(** [cleanPath]: rooted, cleaned, with the trailing slash it had. *)
Definition cleanPath (p : string) : string :=
  let p := match p with
           | EmptyString => String slash ""
           | String c _ => if bool_decide (c = slash) then p else String slash p
           end in
  let np := joined (clean_segments [] (segments p)) in
  if has_suffix p (String slash "") && negb (bool_decide (np = String slash "")) then np +s+ String slash "" else np.

(** The patterns: an endpoint's method and path, a known path with any method,
    the profiler's subtree and the rest. *)
Inductive pattern := Endpoint (e : endpoint) | KnownPath | Profiler | Root.

Definition matches (e : endpoint) (m p : string) : bool :=
  bool_decide (method e = m) && bool_decide (map literal (segments p) = segments (path e)).

Definition profilerPath (p : string) : bool :=
  match map literal (segments p) with
  | a :: b :: _ :: _ => bool_decide (a = "debug") && bool_decide (b = "pprof")
  | _ => false
  end.

(** Patterns of the request's method, GET patterns for HEAD, then the others. *)
Definition with_method (all : list endpoint) (profiler : bool) (m p : string) : option pattern :=
  match List.find (fun e => matches e m p) all with
  | Some e => Some (Endpoint e)
  | None => if profiler && bool_decide (m = MethodGet) && profilerPath p then Some Profiler else None
  end.

Definition match_pattern (all : list endpoint) (profiler : bool) (m p : string) : pattern :=
  let any := if existsb (fun e => matches e (method e) p) all then KnownPath else Root in
  match with_method all profiler m p with
  | Some found => found
  | None =>
      if bool_decide (m = MethodHead) then
        match with_method all profiler MethodGet p with Some found => found | None => any end
      else any
  end.

(** A path without the trailing slash of the profiler's subtree is redirected. *)
Definition slashless (profiler : bool) (m p : string) (found : pattern) : bool :=
  profiler && (bool_decide (m = MethodGet) || bool_decide (m = MethodHead)) &&
  bool_decide (map literal (segments p) = ["debug"; "pprof"]) &&
  match found with Root => true | _ => false end.

Definition MethodConnect : string := "CONNECT".

Definition dispatch (inCluster : bool) (cl : Cluster) (found : pattern) (r : web) (ctx : Context_) : outcome :=
  match found with
  | Endpoint e => permitted inCluster cl e r ctx
  | KnownPath => Refused 405 "method not allowed"
  | Profiler => forAdmins inCluster ctx
  | Root => Assets ctx
  end.

Definition ServeHTTP (all : list endpoint) (profiler inCluster : bool) (cl : Cluster) (r : web) (ctx : Context_) :
    outcome :=
  let raw := EscapedPath r in
  if bool_decide (raw = "*") then Malformed
  else if bool_decide (Method r = MethodConnect) then
    if bool_decide (raw = "") then Refused 404 "404 page not found"
    else dispatch inCluster cl (match_pattern all profiler (Method r) raw) r ctx
  else
    let p := cleanPath raw in
    let found := match_pattern all profiler (Method r) p in
    if slashless profiler (Method r) p found then Moved "/debug/pprof/"
    else if negb (bool_decide (p = raw)) then Moved p
    else dispatch inCluster cl found r ctx.

Section net.
Context `{!Net} `{!Session.JSON Session.sessionClaims}.

(** [Handler]: the guard before the router.  The endpoints were listed when the
    handler was built. *)
Definition Handler (all : list endpoint) (profiler : bool) (s : gate) (cl : Cluster)
    (rv : Revocations.revocations) (r : web) (now : time) :
    Revocations.revocations * list Session.cookie * outcome :=
  match PathUnescape (EscapedPath r) with
  | None => (rv, [], Malformed)
  | Some _ =>
      let '(rv, cookies, admitted) := admit_ s rv r now in
      (rv, cookies,
       match admitted with
       | Err (Answer status message) => Refused status message
       | Err CloseStaleToken => Closed 4401
       | Ok ctx => ServeHTTP all profiler (served s) cl r ctx
       end)
  end.

End net.

(** ** Paths and their segments *)

Lemma concat_cons c a rest sep : String.concat sep (String c a :: rest) = String c (String.concat sep (a :: rest)).
Proof. by destruct rest. Qed.

Lemma concat_empty sep a rest : String.concat sep ("" :: a :: rest) = (sep +s+ String.concat sep (a :: rest)).
Proof. done. Qed.

Lemma str_split_nonempty c s : exists a rest, str_split c s = a :: rest.
Proof.
  induction s as [| d s (a & rest & E)]; [by eexists _, _ |]. cbn. rewrite E. case_match; by eexists _, _.
Qed.

Lemma str_split_other c d s a rest :
  d <> c -> str_split c s = a :: rest -> str_split c (String d s) = String d a :: rest.
Proof. intros Hd E. cbn. rewrite E. by destruct (Ascii.eqb_spec d c). Qed.

Lemma concat_split s : String.concat (String slash "") (str_split slash s) = s.
Proof.
  induction s as [| c s IH]; [done |]. destruct (str_split_nonempty slash s) as (a & rest & E).
  destruct (decide (c = slash)) as [-> | Hc].
  - change (str_split slash (String slash s)) with
      (match str_split slash s with part :: k => "" :: part :: k | [] => [] end).
    rewrite E in *. by rewrite concat_empty, IH.
  - by rewrite (str_split_other _ _ _ _ _ Hc E), concat_cons, <- E, IH.
Qed.

Lemma hex_value_slash c v : hex_value c = Some v -> c <> slash.
Proof. by intros H ->. Qed.

Lemma unescape_other c s : c <> percent -> PathUnescape (String c s) = String c <$> PathUnescape s.
Proof. intros Hc. cbn [PathUnescape]. by rewrite bool_decide_false. Qed.

Lemma unescape_hex h l s :
  PathUnescape (String percent (String h (String l s))) =
  high ← hex_value h; low ← hex_value l; tail ← PathUnescape s; Some (String (ascii_of_N (16 * high + low)) tail).
Proof. done. Qed.

(** A byte read into the first segment. *)
Lemma unescape_head x a rest ch t :
  (forall ta, PathUnescape a = Some ta -> PathUnescape x = Some (String ch ta)) ->
  Forall (fun x => is_Some (PathUnescape x)) (a :: rest) ->
  String.concat (String slash "") (map literal (a :: rest)) = t ->
  Forall (fun x => is_Some (PathUnescape x)) (x :: rest) /\
  String.concat (String slash "") (map literal (x :: rest)) = String ch t.
Proof.
  intros Hx Hall <-. apply list.Forall_cons in Hall as [[ta Ha] Hrest]. pose proof (Hx ta Ha) as Hxa.
  split; [apply list.Forall_cons; split; [by eexists | done] |]. cbn [map].
  assert (literal x = String ch ta) as -> by (unfold literal; by rewrite Hxa).
  assert (literal a = ta) as -> by (unfold literal; by rewrite Ha). by rewrite concat_cons.
Qed.

(** The segments of an escaped path unescape to the pieces of the path. *)
Lemma unescape_split n s t :
  String.length s <= n -> PathUnescape s = Some t ->
  Forall (fun x => is_Some (PathUnescape x)) (str_split slash s) /\
  String.concat (String slash "") (map literal (str_split slash s)) = t.
Proof.
  revert s t. induction n as [| n IH]; intros s t Hn Hs; (destruct s as [| c s];
    [injection Hs as <-; split; [apply list.Forall_cons; split; [by eexists | done] | done] | cbn in Hn; try lia]).
  destruct (decide (c = percent)) as [-> | Hc].
  - destruct s as [| h [| l s]]; [done | done |]. rewrite unescape_hex in Hs.
    destruct (hex_value h) as [hv |] eqn:Eh; [| done]. destruct (hex_value l) as [lv |] eqn:El; [| done].
    cbn in Hs. destruct (PathUnescape s) as [t' |] eqn:Es; [| done]. injection Hs as <-.
    destruct (IH s t' ltac:(cbn in Hn; lia) Es) as [Hall Ht]. destruct (str_split_nonempty slash s) as (a & rest & E).
    pose proof (hex_value_slash _ _ Eh) as Hh. pose proof (hex_value_slash _ _ El) as Hl.
    rewrite (str_split_other slash percent _ (String h (String l a)) rest); [| done |
      apply str_split_other; [done |]; by apply str_split_other].
    rewrite E in *. eapply unescape_head; [| done | done].
    intros ta Ha. by rewrite unescape_hex, Eh, El, Ha.
  - rewrite unescape_other in Hs by done. destruct (PathUnescape s) as [t' |] eqn:Es; [| done]. injection Hs as <-.
    destruct (IH s t' ltac:(lia) Es) as [Hall Ht]. destruct (str_split_nonempty slash s) as (a & rest & E).
    destruct (decide (c = slash)) as [-> | Hsl].
    + change (str_split slash (String slash s)) with
        (match str_split slash s with part :: k => "" :: part :: k | [] => [] end).
      rewrite E in *. split; [by constructor; [by eexists |] |].
      cbn [map] in *. change (literal "") with "". by rewrite concat_empty, Ht.
    + rewrite (str_split_other _ _ _ _ _ Hsl E). rewrite E in *. eapply unescape_head; [| done | done].
      intros ta Ha. by rewrite unescape_other, Ha.
Qed.

Lemma matches_path e m p t :
  matches e m p = true -> PathUnescape p = Some t -> has_prefix p "/" = true -> has_prefix (path e) "/" = true ->
  method e = m /\ t = path e.
Proof.
  unfold matches, has_prefix. intros H Hp Hs He. apply andb_true_iff in H as [Hm H]. breflect.
  assert (Hcut : forall q, (match strip_prefix "/" q with Some _ => true | None => false end) = true ->
    exists q', q = String slash q').
  { intros q. destruct (strip_prefix "/" q) as [q' |] eqn:E; [| done]. apply strip_prefix_spec in E. by exists q'. }
  destruct (Hcut p Hs) as [p' ->]. destruct (Hcut _ He) as [q Eq]. rewrite Eq in *. split; [done |].
  rewrite unescape_other in Hp by done. destruct (PathUnescape p') as [t' |] eqn:Et; [| done]. injection Hp as <-.
  destruct (unescape_split _ p' t' (le_n _) Et) as [_ Ht]. cbn [segments] in H. by rewrite H, concat_split in Ht; subst.
Qed.


(** ** What the router finds *)

Lemma with_method_found all prof m p e :
  with_method all prof m p = Some (Endpoint e) -> e ∈ all /\ matches e m p = true.
Proof.
  unfold with_method. destruct (List.find _ all) as [e' |] eqn:E; [| by case_match].
  intros [= ->]. apply List.find_some in E as [? ?]. by rewrite list_elem_of_In.
Qed.

Lemma match_pattern_found all prof m p e :
  match_pattern all prof m p = Endpoint e ->
  e ∈ all /\ exists m', matches e m' p = true /\ (m' = m \/ (m = MethodHead /\ m' = MethodGet)).
Proof.
  unfold match_pattern. destruct (with_method all prof m p) as [found |] eqn:E.
  - intros ->. apply with_method_found in E as [? ?]. eauto.
  - assert (Hany : (if existsb (fun e => matches e (method e) p) all then KnownPath else Root) <> Endpoint e)
      by by case_match.
    case_bool_decide; [| done]. destruct (with_method all prof MethodGet p) as [found |] eqn:E'; [| done].
    intros ->. apply with_method_found in E' as [? ?]. eauto 10.
Qed.

(** What [permitted] asked of the caller whose request ran. *)
Definition wholly (cl : Cluster) (e : endpoint) (r : web) (ctx : Context_) : Prop :=
  if wholeFleet e then
    forall one, one ∈ Opened cl -> exists scope, Manager cl (o_ID one) = Some scope /\ Api.Everywhere (scope ctx) = true
  else forall scope, managerFor cl r = Some scope -> Api.Everywhere (scope ctx) = true.

Definition referenced (e : endpoint) (r : web) : Prop :=
  match handler e with
  | Plain _ => True
  | WithRef _ => forall key, key ∈ ["version"; "resource"; "name"] -> Authenticator.Query (parts r) key <> ""
  end.

Lemma scopeRefusal_none seen : scopeRefusal seen = None <-> Api.Everywhere seen = true.
Proof. unfold scopeRefusal. repeat case_match; naive_solver. Qed.

Lemma fleetRefusal_none manager ctx opened :
  fleetRefusal manager ctx opened = None <->
  forall one, one ∈ opened -> exists scope, manager (o_ID one) = Some scope /\ Api.Everywhere (scope ctx) = true.
Proof.
  induction opened as [| one rest IH]; cbn [fleetRefusal]; [set_solver |].
  assert (Hcons : forall P : OpenCluster -> Prop, (forall o, o ∈ one :: rest -> P o) <-> P one /\ forall o, o ∈ rest -> P o)
    by set_solver.
  rewrite Hcons, <- IH. destruct (manager (o_ID one)) as [scope |]; [| naive_solver].
  pose proof (scopeRefusal_none (scope ctx)). destruct (scopeRefusal (scope ctx)) as [[status why] |]; naive_solver.
Qed.

Lemma whole_refusal_none cl e r ctx :
  (if wholeFleet e then wholeFleetRefusal cl ctx else wholeClusterRefusal cl r ctx) = None <-> wholly cl e r ctx.
Proof.
  unfold wholly, wholeFleetRefusal, wholeClusterRefusal. destruct (wholeFleet e); [apply fleetRefusal_none |].
  destruct (managerFor cl r) as [scope |]; [rewrite scopeRefusal_none |]; naive_solver.
Qed.

Lemma run_ran e r ctx : run e r ctx = Ran e ctx <-> referenced e r.
Proof.
  unfold run, referenced. destruct (handler e); [done |].
  split.
  - intros H key Hkey E. set_unfold in Hkey. destruct Hkey as [-> | [-> | [-> | []]]];
      repeat case_bool_decide; cbn in H; congruence.
  - intros H. by rewrite !bool_decide_false by (apply H; set_solver).
Qed.

Lemma run_only e r ctx e' ctx' : run e r ctx = Ran e' ctx' -> e' = e /\ ctx' = ctx.
Proof. unfold run. by repeat case_match; intros [=]. Qed.

Lemma reachable_ran cl e r ctx :
  reachable cl e r ctx = Ran e ctx <-> (offline e = false -> is_Some (managerFor cl r)) /\ referenced e r.
Proof.
  unfold reachable. destruct (offline e); [rewrite run_ran; naive_solver |].
  destruct (managerFor cl r); [rewrite run_ran; naive_solver |]. split; [done |]. intros [H _]. by destruct H.
Qed.

Lemma reachable_only cl e r ctx e' ctx' : reachable cl e r ctx = Ran e' ctx' -> e' = e /\ ctx' = ctx.
Proof. unfold reachable. repeat case_match; try apply run_only; by intros [=]. Qed.

Lemma holdsRole_some ctx need : need <> "" -> holdsRole ctx need = true <->
  exists who, ctx = Some who /\ Allows (Role who) need = true.
Proof. intros Hneed. destruct ctx as [who |]; cbn; naive_solver. Qed.

(** What [permitted] asks before the rest of the way, when serving a cluster. *)
Definition entitled (cl : Cluster) (e : endpoint) (r : web) (ctx : Context_) : Prop :=
  onlyHere e = false /\
  (roleFor e <> "" -> exists who, ctx = Some who /\ Allows (Role who) (roleFor e) = true) /\
  (wholeCluster e = true -> wholly cl e r ctx).

Lemma permitted_inner inC cl e r ctx e' ctx' :
  permitted inC cl e r ctx = Ran e' ctx' <->
  reachable cl e r ctx = Ran e' ctx' /\ (inC = true -> entitled cl e r ctx).
Proof.
  unfold permitted, entitled. cbn zeta.
  pose proof (holdsRole_some ctx (roleFor e)) as Hrole. pose proof (whole_refusal_none cl e r ctx) as Hwhole.
  revert Hrole Hwhole. unfold refuseRole.
  generalize (roleFor e) as need, (onlyHere e) as only, (wholeCluster e) as whole, (wholly cl e r ctx) as W.
  generalize (if wholeFleet e then wholeFleetRefusal cl ctx else wholeClusterRefusal cl r ctx) as why.
  generalize (reachable cl e r ctx) as inner.
  intros inner why need only whole W Hrole Hwhole.
  destruct inC; [| by destruct (bool_decide _ && _ && _); cbn; naive_solver].
  destruct only; cbn [negb]; [rewrite andb_false_r; cbn; naive_solver |].
  rewrite andb_true_r. case_bool_decide as Ee; cbn [negb andb].
  - destruct whole; cbn; [destruct why as [[status text] |]; naive_solver | naive_solver].
  - specialize (Hrole Ee). destruct (holdsRole ctx need) eqn:Eh; cbn [negb];
      [destruct whole; [destruct why as [[status text] |] |] |]; naive_solver.
Qed.

Lemma permitted_ran inC cl e r ctx e' ctx' :
  permitted inC cl e r ctx = Ran e' ctx' <->
  e' = e /\ ctx' = ctx /\ (offline e = false -> is_Some (managerFor cl r)) /\ referenced e r /\
  (inC = true -> entitled cl e r ctx).
Proof.
  rewrite permitted_inner. split.
  - intros [H He]. pose proof (reachable_only _ _ _ _ _ _ H) as [-> ->]. apply reachable_ran in H. tauto.
  - intros (-> & -> & Hm & Hr & He). by rewrite reachable_ran.
Qed.

(** ** The table *)

Lemma table_forall b (f : endpoint -> bool) e : forallb f (allRoutes true) = true -> e ∈ allRoutes b -> f e = true.
Proof.
  rewrite forallb_elem. intros H He. apply H. destruct b; [exact He |]. apply elem_of_app. left. exact He.
Qed.

#[local] Opaque allRoutes neededRole onlyWhenLocal needsWholeCluster needsWholeFleet.

(** A request for a path, with nothing else to it. *)
Definition bare (m p : string) : web :=
  MkWeb m p "" (Authenticator.MkRequest (fun _ => "") (fun _ => None) (fun _ => "") "").

Definition methods : list string := [MethodGet; MethodHead; MethodPost; MethodPut; MethodPatch; MethodDelete].

(** What may run for a caller nobody knows, when serving a cluster. *)
Definition openToAll : list string :=
  [routeKey MethodGet "/healthz"; routeKey MethodGet "/readyz"; routeKey MethodGet pathSession;
   routeKey MethodGet pathLogin; routeKey MethodGet pathCallback; routeKey MethodPost pathLogout;
   routeKey MethodPost pathBackchannel].

Definition asks_for (r : web) (e : endpoint) : Prop :=
  Path r = path e /\ (Method r = method e \/ (Method r = MethodHead /\ method e = MethodGet)).

Lemma public_same r r' : Method r = Method r' -> Path r = Path r' ->
  publicAsset r = publicAsset r' /\ publicWhenServing r = publicWhenServing r'.
Proof.
  intros Hm Hp. assert (publicAsset r = publicAsset r') as E by (unfold publicAsset; by rewrite Hm, Hp).
  split; [done |]. unfold publicWhenServing. by rewrite E, Hm, Hp.
Qed.

#[export] Instance handlerFunc_eq_dec : EqDecision handlerFunc.
Proof. solve_decision. Defined.
#[export] Instance endpoint_eq_dec : EqDecision endpoint.
Proof. solve_decision. Defined.
#[export] Instance pattern_eq_dec : EqDecision pattern.
Proof. solve_decision. Defined.

Definition plain_entry (e : endpoint) : bool :=
  bool_decide (PathUnescape (path e) = Some (path e)) && has_prefix (path e) "/" &&
  bool_decide (cleanPath (path e) = path e) && bool_decide (map literal (segments (path e)) = segments (path e)) &&
  bool_decide (method e ∈ methods) && negb (bool_decide (path e = "*")) && negb (profilerPath (path e)) &&
  negb (bool_decide (map literal (segments (path e)) = ["debug"; "pprof"])).

(** Every endpoint is found under its own method and path. *)
Definition routed (all : list endpoint) (profiler : bool) (e : endpoint) : bool :=
  bool_decide (match_pattern all profiler (method e) (path e) = Endpoint e) &&
  negb (slashless profiler (method e) (path e) (Endpoint e)).

Lemma table_routed b profiler : forallb (routed (allRoutes b) profiler) (allRoutes b) = true.
Proof. destruct b, profiler; by vm_compute. Qed.

Lemma table_plain : forallb plain_entry (allRoutes true) = true.
Proof. by vm_compute. Qed.

Lemma table_public :
  forallb (fun e => forallb (fun m =>
    negb (publicAsset (bare m (path e))) &&
    implb ((bool_decide (m = method e) || (bool_decide (m = MethodHead) && bool_decide (method e = MethodGet))) &&
           publicWhenServing (bare m (path e))) (contains openToAll (keyOf e))) methods) (allRoutes true) = true.
Proof. by vm_compute. Qed.

Lemma entry_plain b e : e ∈ allRoutes b ->
  PathUnescape (path e) = Some (path e) /\ has_prefix (path e) "/" = true /\ method e <> MethodConnect.
Proof.
  intros He. pose proof (table_forall b _ e table_plain He) as Hpl. unfold plain_entry in Hpl.
  rewrite !andb_true_iff in Hpl. destruct Hpl as (((((((Hu & Hpre) & _) & _) & Hmeth) & _) & _) & _).
  apply bool_decide_eq_true in Hu, Hmeth. split; [exact Hu |]. split; [exact Hpre |].
  intros E. rewrite E in Hmeth. unfold methods in Hmeth. set_unfold in Hmeth. naive_solver.
Qed.

Lemma asked_method b r e : e ∈ allRoutes b -> asks_for r e -> Method r ∈ methods.
Proof.
  intros He [_ Hm]. pose proof (table_forall b _ e table_plain He) as H. unfold plain_entry in H.
  rewrite !andb_true_iff in H. destruct H as (((((((_ & _) & _) & _) & H) & _) & _) & _). breflect.
  destruct Hm as [-> | [-> _]]; [done | set_solver].
Qed.

Lemma asked_public b r e :
  e ∈ allRoutes b -> asks_for r e ->
  publicAsset r = false /\ (publicWhenServing r = true -> keyOf e ∈ openToAll).
Proof.
  intros He Ha. pose proof (asked_method b r e He Ha) as Hm. destruct Ha as [Hp Hask].
  pose proof (table_forall b _ e table_public He) as H. rewrite forallb_elem in H. specialize (H _ Hm).
  destruct (entry_plain b e He) as [Hu _].
  destruct (public_same r (bare (Method r) (path e))) as [-> ->];
    [done | rewrite Hp; unfold Path; cbn; by rewrite Hu |].
  apply andb_true_iff in H as [H1 H2]. split; [by apply negb_true_iff |]. intros Hpub.
  rewrite Hpub, andb_true_r in H2. apply contains_spec.
  destruct (_ || _) eqn:E in H2; [done |]. apply orb_false_iff in E as [E1 E2]. exfalso.
  apply bool_decide_eq_false in E1. destruct Hask as [Hk | [Hk Hg]]; [done |].
  by rewrite (bool_decide_true _ Hk), (bool_decide_true _ Hg) in E2.
Qed.

Lemma cleanPath_rooted p : has_prefix (cleanPath p) "/" = true.
Proof.
  assert (forall s, has_prefix (String slash s) "/" = true) as Hs by done.
  unfold cleanPath, joined. case_match; rewrite ?Text.append_cons; apply Hs.
Qed.

(** A handler ran for its own path and method, of the admitted caller. *)
Lemma dispatch_ran inC cl found r ctx e ctx' :
  dispatch inC cl found r ctx = Ran e ctx' ->
  found = Endpoint e /\ permitted inC cl e r ctx = Ran e ctx' /\ ctx' = ctx.
Proof.
  destruct found as [e0 | | |]; unfold dispatch, forAdmins; intros H; [| discriminate H | | discriminate H].
  - pose proof H as Hp. apply permitted_ran in H as (-> & -> & _). split; [reflexivity | split; [exact Hp | reflexivity]].
  - exfalso. destruct (inC && _); discriminate H.
Qed.

Lemma ServeHTTP_found b profiler inC cl r ctx e ctx' :
  ServeHTTP (allRoutes b) profiler inC cl r ctx = Ran e ctx' ->
  match_pattern (allRoutes b) profiler (Method r) (EscapedPath r) = Endpoint e /\
  (Method r = MethodConnect \/ has_prefix (EscapedPath r) "/" = true) /\
  permitted inC cl e r ctx = Ran e ctx' /\ ctx' = ctx.
Proof.
  unfold ServeHTTP. cbn zeta. case_bool_decide; [discriminate |]. case_bool_decide as Hc.
  - case_bool_decide; [discriminate |]. intros Hd. apply dispatch_ran in Hd as (Hm & Hp & Hctx).
    split; [exact Hm |]. split; [left; exact Hc |]. split; [exact Hp | exact Hctx].
  - destruct (slashless _ _ _ _); [discriminate |].
    destruct (decide (cleanPath (EscapedPath r) = EscapedPath r)) as [E | E];
      [rewrite bool_decide_true by exact E | rewrite bool_decide_false by exact E; discriminate].
    cbn [negb]. intros Hd. apply dispatch_ran in Hd as (Hm & Hp & Hctx). rewrite E in Hm.
    split; [exact Hm |]. split; [right; rewrite <- E; apply cleanPath_rooted |]. split; [exact Hp | exact Hctx].
Qed.

Lemma ServeHTTP_ran b profiler inC cl r ctx e ctx' :
  is_Some (PathUnescape (EscapedPath r)) ->
  ServeHTTP (allRoutes b) profiler inC cl r ctx = Ran e ctx' ->
  e ∈ allRoutes b /\ asks_for r e /\ permitted inC cl e r ctx = Ran e ctx' /\ ctx' = ctx.
Proof.
  intros [t Ht] H. apply ServeHTTP_found in H as (Hm & Hroot & Hp).
  apply match_pattern_found in Hm as (He & m' & Hm & Hm').
  destruct (entry_plain b e He) as (_ & Hpre & Hnot).
  assert (method e = m') as <- by (apply andb_true_iff in Hm as [Hm _]; apply bool_decide_eq_true in Hm; exact Hm).
  destruct Hroot as [Hc | Hroot].
  { exfalso. destruct Hm' as [E | [E _]]; [apply Hnot; congruence | rewrite Hc in E; discriminate E]. }
  destruct (matches_path _ _ _ _ Hm Ht Hroot Hpre) as [_ Et].
  split; [exact He |]. split; [| exact Hp]. split; [unfold Path; rewrite Ht; exact Et |].
  destruct Hm' as [E | E]; [left; congruence | right; exact E].
Qed.

Lemma ServeHTTP_entry b profiler inC cl r ctx e :
  e ∈ allRoutes b -> EscapedPath r = path e -> Method r = method e ->
  ServeHTTP (allRoutes b) profiler inC cl r ctx = permitted inC cl e r ctx.
Proof.
  intros He Hp Hm. pose proof (table_forall b _ e table_plain He) as Hpl. unfold plain_entry in Hpl.
  rewrite !andb_true_iff in Hpl. destruct Hpl as (((((((_ & _) & Hclean) & _) & _) & Hstar) & _) & _).
  apply negb_true_iff, bool_decide_eq_false in Hstar. apply bool_decide_eq_true in Hclean.
  destruct (entry_plain b e He) as (_ & _ & Hnot).
  pose proof (table_routed b profiler) as Hr. rewrite forallb_elem in Hr. specialize (Hr e He).
  apply andb_true_iff in Hr as [Hr Hs]. apply bool_decide_eq_true in Hr. apply negb_true_iff in Hs.
  unfold ServeHTTP. cbn zeta. rewrite Hp, Hm, Hclean, Hr.
  rewrite (bool_decide_false (path e = "*")) by exact Hstar.
  rewrite (bool_decide_false (method e = MethodConnect)) by exact Hnot.
  rewrite Hs, (bool_decide_true (path e = path e)) by reflexivity. reflexivity.
Qed.

Section guarded.
Context {NET : Net} {SC : Session.JSON Session.sessionClaims}.

(** C2: no handler runs for a caller it was not meant for.  Serving a cluster,
    a handler that ran belongs to the path and method that were asked for, the
    request came from the server's own address, the endpoint is not one for
    local use, the caller is who the authenticator says, holds the role the
    policy asks and reads all of the cluster, or of every open cluster, where
    the answer is about all of it; a caller nobody knows reaches seven
    endpoints only.  On a loopback listener the request was local and carried
    the token of this run, which is never empty. *)
Theorem handlers_guarded b profiler s cl rv r now rv' cookies e ctx :
  Handler (allRoutes b) profiler s cl rv r now = (rv', cookies, Ran e ctx) ->
  e ∈ allRoutes b /\ asks_for r e /\ referenced e r /\
  (offline e = false -> is_Some (managerFor cl r)) /\
  if served s then
    ownAddress s r = true /\ identify s rv r now = (rv', ctx, cookies) /\ entitled cl e r ctx /\
    (ctx = None -> keyOf e ∈ openToAll)
  else isLocal r = true /\ token s <> "" /\ fst (presentedToken r) = token s /\ ctx = None /\ rv' = rv.
Proof.
  unfold Handler. intros H. destruct (PathUnescape (EscapedPath r)) as [t |] eqn:Et; [| discriminate H].
  destruct (admit_ s rv r now) as [[rv1 ck] out] eqn:Ea. destruct out as [ctx0 | [status text |]]; [| discriminate H | discriminate H].
  assert (rv1 = rv' /\ ck = cookies /\ ServeHTTP (allRoutes b) profiler (served s) cl r ctx0 = Ran e ctx)
    as (-> & -> & Hs) by (injection H as H1 H2 H3; split; [exact H1 | split; [exact H2 | exact H3]]).
  apply ServeHTTP_ran in Hs as (He & Hask & Hp & ->); [| by eexists].
  apply permitted_ran in Hp as (_ & _ & Hman & Href & Hent).
  destruct (asked_public b r e He Hask) as [Hpa Hpub].
  split; [exact He |]. split; [exact Hask |]. split; [exact Href |]. split; [exact Hman |].
  unfold admit_ in Ea. destruct (served s) eqn:Es.
  - unfold admitServed in Ea. destruct (ownAddress s r); cbn [negb] in Ea; [| discriminate Ea].
    destruct (identify s rv r now) as [[rv2 who] ck2] eqn:Ei.
    destruct (publicWhenServing r) eqn:Epub.
    + injection Ea as -> -> ->. split; [reflexivity |]. split; [reflexivity |].
      split; [apply Hent; reflexivity |]. intros _. apply Hpub. reflexivity.
    + destruct who as [who |]; [| discriminate Ea]. injection Ea as -> -> <-. split; [reflexivity |].
      split; [reflexivity |]. split; [apply Hent; reflexivity | discriminate].
  - destruct (admitLocal s r) as [ck2 out] eqn:El. injection Ea as -> -> ->.
    unfold admitLocal in El. destruct (isLocal r); cbn [negb] in El; [| discriminate El]. rewrite Hpa in El.
    unfold authorize in El. destruct (presentedToken r) as [presented fromQuery].
    unfold tokenMatches in El. case_bool_decide as E1; cbn [negb] in El; [destruct (upgrading r); discriminate El |].
    case_bool_decide as E2; cbn [negb] in El; [| destruct (upgrading r); discriminate El].
    injection El as _ <-. split; [reflexivity |]. split; [exact E1 |]. split; [symmetry; exact E2 |].
    split; reflexivity.
Qed.

(** C18: whoever is entitled gets through: serving a cluster, a request from the
    server's own address of a caller the authenticator knows, for an endpoint
    not for local use whose role the caller holds, reaches the handler when the
    cluster it needs is open. *)
Theorem entitled_reach b profiler s cl rv r now rv' cookies who e :
  served s = true -> e ∈ allRoutes b -> EscapedPath r = path e -> Method r = method e ->
  ownAddress s r = true -> identify s rv r now = (rv', Some who, cookies) -> entitled cl e r (Some who) ->
  (offline e = false -> is_Some (managerFor cl r)) -> referenced e r ->
  Handler (allRoutes b) profiler s cl rv r now = (rv', cookies, Ran e (Some who)).
Proof.
  intros Hs He Hp Hm Hown Hid Hent Hman Href. unfold Handler.
  destruct (entry_plain b e He) as [Hu _]. rewrite Hp, Hu. unfold admit_, admitServed. rewrite Hs, Hown, Hid.
  assert (Hrun : ServeHTTP (allRoutes b) profiler true cl r (Some who) = Ran e (Some who)).
  { rewrite (ServeHTTP_entry b profiler true cl r (Some who) e He Hp Hm). apply permitted_ran.
    split; [reflexivity |]. split; [reflexivity |]. split; [exact Hman |]. split; [exact Href |]. intros _. exact Hent. }
  cbn [negb]. destruct (publicWhenServing r); rewrite Hrun; reflexivity.
Qed.

End guarded.

(** Changes any role may make when serving a cluster: each is the caller's own
    or reads only. *)
Definition changesForAll : list string :=
  [routeKey MethodPost "/api/checks/rules/faults"; routeKey MethodPost "/api/access"; routeKey MethodPut "/api/views";
   routeKey MethodDelete "/api/views"; routeKey MethodPut "/api/settings"; routeKey MethodPost pathLogout;
   routeKey MethodPost pathBackchannel].

Definition open_change (e : endpoint) : bool :=
  mutating (method e) && negb (onlyHere e) && Allows RoleViewer (roleFor e).

Lemma table_policy :
  NoDup (map keyOf (allRoutes true)) /\
  dom neededRole ∪ onlyWhenLocal ∪ needsWholeCluster ∪ needsWholeFleet ⊆ list_to_set (map keyOf routes) /\
  map_Forall (fun _ role => KnownRole role = true) neededRole /\
  needsWholeFleet ⊆ needsWholeCluster /\
  forallb (fun e => implb (writes e) (negb (Allows RoleViewer (roleFor e)))) (allRoutes true) = true /\
  map keyOf (List.filter open_change (allRoutes true)) = changesForAll.
Proof.
  split; [| split; [| split; [| split; [| split]]]];
    [refine (bool_decide_unpack _ _); vm_compute; exact I .. | by vm_compute | by vm_compute].
Qed.

(** C19: the policy fits the table of endpoints.  No method and path is
    registered twice, every line of the policy names an endpoint, the roles it
    asks are roles there are, what is about every cluster is about the whole
    cluster, an endpoint marked as writing is closed to viewers, and the
    changing requests open to every role are exactly the seven listed. *)
Theorem policy_sound b :
  NoDup (map keyOf (allRoutes b)) /\
  (forall key, key ∈ dom neededRole ∪ onlyWhenLocal ∪ needsWholeCluster ∪ needsWholeFleet -> key ∈ map keyOf routes) /\
  (forall key role, neededRole !! key = Some role -> KnownRole role = true) /\
  (forall e, wholeFleet e = true -> wholeCluster e = true) /\
  (forall e, e ∈ allRoutes b -> writes e = true -> Allows RoleViewer (roleFor e) = false) /\
  map keyOf (List.filter open_change (allRoutes true)) = changesForAll.
Proof.
  destruct table_policy as (H1 & H2 & H3 & H4 & H5 & H6).
  assert (Hsub : exists k, allRoutes true = allRoutes b ++ k).
  { destruct b; [exists []; symmetry; apply app_nil_r | exists signInRoutes; reflexivity]. }
  split; [| split; [| split; [| split; [| split]]]].
  - destruct Hsub as [k Hk]. rewrite Hk, map_app in H1. apply list.NoDup_app in H1. apply H1.
  - intros key Hkey. specialize (H2 key Hkey). apply elem_of_list_to_set in H2. exact H2.
  - intros key role Hr. exact (H3 key role Hr).
  - unfold wholeFleet, wholeCluster. intros e Hf. apply bool_decide_eq_true in Hf. apply bool_decide_eq_true, H4, Hf.
  - intros e He Hw. pose proof (table_forall b _ e H5 He) as Hi. cbn beta in Hi. rewrite Hw in Hi.
    apply negb_true_iff. exact Hi.
  - exact H6.
Qed.

(** ** Witnesses *)

#[local] Existing Instance Session.exampleJSON.

#[export] Instance exampleNet : Net := {
  url_Parse raw :=
    if bool_decide (raw = "https://spinoza.example") then Some (MkURL "https" "spinoza.example" "spinoza.example" false)
    else None;
  ParseIP_loopback host := if bool_decide (host = "127.0.0.1") then Some true else None;
}.

Definition exampleSecret : string := "0123456789abcdef0123456789abcdef".

(** A gate behind a proxy; the group [dev] edits. *)
Definition exampleProxy : Authenticator.Authenticator :=
  let cfg := withDefaults (MkConfig ModeProxy "" false "" 0 0 "" [] ["dev"] []
    (MkProxyConfig "" "" "" exampleSecret "" 0) (MkOIDCConfig "" "" "" "" "" [] "" [] "" "" "" "" false false true)) in
  Authenticator.MkAuthenticator cfg Session.exampleSessions (Authenticator.newRoleMap cfg) None.

Definition exampleGate : gate := UseClusterAuth (MkGate "" None "" false) (Some exampleProxy) "https://spinoza.example".

Definition exampleHeaders : string -> string := fun name =>
  if bool_decide (name = DefaultUserHeader) then "ana"
  else if bool_decide (name = DefaultGroupsHeader) then "dev"
  else if bool_decide (name = DefaultProxyAuthHeader) then exampleSecret
  else if bool_decide (name = "Origin") then "https://spinoza.example" else "".

Definition exampleDelete : web :=
  MkWeb MethodDelete "/api/object" "spinoza.example" (Authenticator.MkRequest exampleHeaders (fun _ => None)
    (fun key => if bool_decide (key = clusterParam) then "" else "v1") "10.0.0.7:4000").

Definition exampleCluster : Cluster :=
  MkCluster (fun id => if bool_decide (id = "c1") then Some (fun _ => Api.MkScope false ["team"] []) else None)
    [MkOpenCluster "c1" "prod" ""] "c1".

Definition deleteEndpoint : endpoint := MkEndpoint MethodDelete "/api/object" (WithRef "deleteObject") false true.
Definition exampleAna : Identity := MkIdentity "ana" ["dev"] RoleEditor "ana".
Definition exampleRevoked : Revocations.revocations := Revocations.newRevocations Hour.

Lemma example_entitled : entitled exampleCluster deleteEndpoint exampleDelete (Some exampleAna).
Proof.
  split; [by vm_compute |]. split; [| by vm_compute]. intros _. exists exampleAna. by vm_compute.
Qed.

Lemma entitled_reach_witness :
  Handler (allRoutes true) false exampleGate exampleCluster exampleRevoked exampleDelete 0 =
    (exampleRevoked, [], Ran deleteEndpoint (Some exampleAna)).
Proof.
  apply entitled_reach; [by vm_compute | | by vm_compute | by vm_compute | by vm_compute | by vm_compute |
    apply example_entitled | intros _; vm_compute; by eexists |].
  - refine (bool_decide_unpack _ _). vm_compute. exact I.
  - intros key Hkey. set_unfold in Hkey. destruct Hkey as [-> | [-> | [-> | []]]]; by vm_compute.
Defined.

Lemma handlers_guarded_witness :
  Allows (Role exampleAna) (roleFor deleteEndpoint) = true /\ roleFor deleteEndpoint = RoleEditor /\
  entitled exampleCluster deleteEndpoint exampleDelete (Some exampleAna).
Proof.
  split; [by vm_compute |]. split; [by vm_compute |].
  assert (Hrun : Handler (allRoutes true) false exampleGate exampleCluster exampleRevoked exampleDelete 0 =
    (exampleRevoked, [], Ran deleteEndpoint (Some exampleAna))) by (vm_compute; reflexivity).
  destruct (handlers_guarded _ _ _ _ _ _ _ _ _ _ _ Hrun) as (_ & _ & _ & _ & H). apply H.
Defined.

(** The same request of a viewer, of a page of another site and without the
    proxy's secret. *)
Definition changed (name value : string) : web :=
  MkWeb MethodDelete "/api/object" "spinoza.example"
    (Authenticator.MkRequest (fun h => if bool_decide (h = name) then value else exampleHeaders h) (fun _ => None)
      (fun key => if bool_decide (key = clusterParam) then "" else "v1") "10.0.0.7:4000").

Example refused_requests :
  map (fun r => (Handler (allRoutes true) false exampleGate exampleCluster exampleRevoked r 0).2)
    [changed DefaultGroupsHeader ""; changed "Origin" "https://evil.example"; changed DefaultProxyAuthHeader "guess";
     MkWeb MethodGet "/assets/%2e%2e/api/object" "spinoza.example" (parts exampleDelete);
     MkWeb MethodGet "/assets/../api/object" "spinoza.example" (parts exampleDelete)] =
  [Refused 403 "your role here is viewer; this needs editor"; Refused 403 noSuchOrigin; Refused 401 needsSigningIn;
   Assets (Some exampleAna); Moved "/api/object"].
Proof. by vm_compute. Qed.

End Routes.
