(* ===== verification/Program.v ===== *)
(** Programs that call what they were given: the calls of a client and what it
    does with the answers, as a tree of questions.  A [Server] answers them from
    a state of its own; [wp] is what holds of every run whatever is answered. *)

From S2P Require Import Prelude.

Section program.
Context {call : Type} {answer : call -> Type}.

Inductive prog (A : Type) : Type :=
| Return (a : A)
| Ask (c : call) (k : answer c -> prog A).
Arguments Return {A} a.
Arguments Ask {A} c k.

Fixpoint bindp {A B} (p : prog A) (f : A -> prog B) : prog B :=
  match p with
  | Return a => f a
  | Ask c k => Ask c (fun x => bindp (k x) f)
  end.

Definition ask (c : call) : prog (answer c) := Ask c Return.

(** Who answers: client-go's API server, the audit store. *)
Class Server (W : Type) := serve : forall c, W -> W * answer c.

Fixpoint exec {W} `{!Server W} {A} (p : prog A) (w : W) : W * list call * A :=
  match p with
  | Return a => (w, [], a)
  | Ask c k =>
      let '(w, x) := serve c w in
      let '(w, calls, a) := exec (k x) w in (w, c :: calls, a)
  end.

(** After the calls [t], whatever is answered, [Q] holds of the calls made and
    of the result. *)
Fixpoint wp {A} (p : prog A) (t : list call) (Q : list call -> A -> Prop) : Prop :=
  match p with
  | Return a => Q t a
  | Ask c k => forall x, wp (k x) (t ++ [c]) Q
  end.

Lemma wp_exec {W} `{!Server W} {A} (p : prog A) t Q w w' calls a :
  wp p t Q -> exec p w = (w', calls, a) -> Q (t ++ calls) a.
Proof.
  revert t w calls. induction p as [b | c k IH]; intros t w calls H; cbn.
  - intros [= <- <- <-]. by rewrite app_nil_r.
  - destruct (serve c w) as [w1 x]. destruct (exec (k x) w1) as [[w2 cs] b] eqn:E. intros [= <- <- <-].
    rewrite (app_assoc t [c] cs : t ++ c :: cs = _). by eapply IH.
Qed.

Lemma exec_bind {W} `{!Server W} {A B} (p : prog A) (f : A -> prog B) w :
  exec (bindp p f) w =
  let '(w1, calls, a) := exec p w in let '(w2, more, b) := exec (f a) w1 in (w2, calls ++ more, b).
Proof.
  revert w. induction p as [a | c k IH]; intros w; cbn.
  - by destruct (exec (f a) w) as [[w2 more] b].
  - destruct (serve c w) as [w1 x]. rewrite IH. destruct (exec (k x) w1) as [[w2 calls] a].
    by destruct (exec (f a) w2) as [[w3 more] b].
Qed.

Lemma wp_bind {A B} (p : prog A) (f : A -> prog B) t Q :
  wp p t (fun t a => wp (f a) t Q) -> wp (bindp p f) t Q.
Proof. revert t. induction p as [a | c k IH]; intros t H; cbn in *; [exact H |]. intros x. apply IH, H. Qed.

Lemma wp_mono {A} (p : prog A) t (Q R : list call -> A -> Prop) :
  (forall t a, Q t a -> R t a) -> wp p t Q -> wp p t R.
Proof. intros HQ. revert t. induction p as [a | c k IH]; intros t H; cbn in *; [by apply HQ |]. intros x. by apply IH. Qed.

(** A predicate of the calls that none of a program's calls breaks. *)
Fixpoint only {A} (P : call -> Prop) (p : prog A) : Prop :=
  match p with
  | Return _ => True
  | Ask c k => P c /\ forall x, only P (k x)
  end.

Lemma only_wp {A} (P : call -> Prop) (p : prog A) t (Q : list call -> A -> Prop) :
  Forall P t -> only P p -> wp p t Q -> wp p t (fun t a => Forall P t /\ Q t a).
Proof.
  revert t. induction p as [a | c k IH]; intros t Ht Hp H; cbn in *; [done |].
  intros x. destruct Hp as [Hc Hk]. apply IH; [| done | done]. apply list.Forall_app. by split; [| constructor].
Qed.

Lemma only_mono {A} (P Q : call -> Prop) (p : prog A) : (forall c, P c -> Q c) -> only P p -> only Q p.
Proof. intros HPQ. induction p as [a | c k IH]; cbn; [done |]. intros [Hc Hk]. split; [by apply HPQ |]. intros x. by apply IH. Qed.

(** What a program may call is what its runs call. *)
Lemma only_run {A} (P : call -> Prop) (p : prog A) t :
  Forall P t -> only P p -> wp p t (fun t _ => Forall P t).
Proof.
  revert t. induction p as [a | c k IH]; intros t Ht Hp; cbn in *; [done |]. intros x. destruct Hp as [Hc Hk]. apply IH; [| done].
  apply list.Forall_app. by split; [| constructor].
Qed.

Lemma only_bind {A B} P (p : prog A) (f : A -> prog B) :
  only P p -> (forall a, only P (f a)) -> only P (bindp p f).
Proof. intros Hp Hf. induction p as [a | c k IH]; cbn in *; [done |]. destruct Hp as [Hc Hk]. split; [done |]. intros x. by apply IH. Qed.

Lemma only_and {A} (P Q : call -> Prop) (p : prog A) : only P p -> only Q p -> only (fun c => P c /\ Q c) p.
Proof. induction p as [a | c k IH]; cbn; [done |]. intros [HP Hk] [HQ Hk']. split; [done |]. intros x. by apply IH. Qed.

(** *** What was asked, with what was answered *)

Definition event := {c : call & answer c}.

Fixpoint log {W} `{!Server W} {A} (p : prog A) (w : W) : list event :=
  match p with
  | Return _ => []
  | Ask c k => let '(w, x) := serve c w in existT c x :: log (k x) w
  end.

Lemma log_calls {W} `{!Server W} {A} (p : prog A) w : map (@projT1 _ _) (log p w) = (exec p w).1.2.
Proof.
  revert w. induction p as [a | c k IH]; intros w; cbn; [done |]. destruct (serve c w) as [w1 x]. cbn. rewrite IH.
  by destruct (exec (k x) w1) as [[w2 calls] a].
Qed.

(** Each call has [P] of what was asked and answered before it. *)
Fixpoint follows {A} (P : list event -> call -> Prop) (t : list event) (p : prog A) : Prop :=
  match p with
  | Return _ => True
  | Ask c k => P t c /\ forall x, follows P (t ++ [existT c x]) (k x)
  end.

Lemma follows_log {W} `{!Server W} {A} P (p : prog A) t w pre c x post :
  follows P t p -> log p w = pre ++ existT c x :: post -> P (t ++ pre) c.
Proof.
  revert t w pre. induction p as [a | d k IH]; intros t w pre Hp; cbn; [by destruct pre |]. destruct Hp as [Hd Hk].
  destruct (serve d w) as [w1 y]. destruct pre as [| e pre].
  - intros [= Hc _ _]. subst d. by rewrite app_nil_r.
  - cbn. intros [= <- Hl]. rewrite (app_assoc t [existT d y] pre : t ++ existT d y :: pre = _). by eapply IH.
Qed.

Lemma follows_only {A} (P : list event -> call -> Prop) t (p : prog A) : only (fun c => forall t, P t c) p -> follows P t p.
Proof. revert t. induction p as [a | c k IH]; intros t; cbn; [done |]. intros [Hc Hk]. split; [apply Hc |]. intros x. by apply IH. Qed.

Lemma follows_bind {A B} P t (p : prog A) (f : A -> prog B) :
  follows P t p -> (forall t a, follows P t (f a)) -> follows P t (bindp p f).
Proof.
  intros Hp Hf. revert t Hp. induction p as [a | c k IH]; intros t Hp; cbn in *; [apply Hf |]. destruct Hp as [Hc Hk]. split; [done |].
  intros x. by apply IH.
Qed.

(** The calls of a run extend the ones before it. *)
Lemma wp_true {A} (p : prog A) t : wp p t (fun _ _ => True).
Proof. revert t. induction p as [a | c k IH]; intros t; cbn; [done |]. intros x. apply IH. Qed.

End program.

Arguments prog {call} answer A.
Arguments Return {call answer A} a.
Arguments Ask {call answer A} c k.
Arguments Server {call} answer W.

(** The results of a fallible program: an error ends it. *)
Definition bindr {call} {answer : call -> Type} {E A B} (p : prog answer (result E A))
    (f : A -> prog answer (result E B)) : prog answer (result E B) :=
  bindp p (fun r => match r with Ok a => f a | Err e => Return (Err e) end).

Notation "x <-- p ;; q" := (bindp p (fun x => q))
  (at level 60, p at next level, right associativity) : go_scope.
Notation "x <-? p ;; q" := (bindr p (fun x => q))
  (at level 60, p at next level, right associativity) : go_scope.
