(* ===== verification/Respond.v ===== *)
(** internal/server/respond.go: the status an error is answered with.  An error
    is its text and what [errors.Is], [errors.As] and the predicates of
    apimachinery find in its chain. *)

From S2P Require Import Prelude.

Module Respond.

(** The errors of the program the statuses tell apart. *)
Inductive sentinel :=
| ErrInternal | MaxBytesError | ErrNoSuchCheck | ErrInvalidUID | ErrNoUID | ErrNoResourceVersion | ErrNotAnApplier
| ErrNotOpen | ErrNoSchema | ErrNoRelease | ErrFluxManaged | ErrReplaced | ErrOutOfScope | ErrNamespaceNeeded
| ErrKindUnreadable | ErrDenied | ErrUnanswered | ErrRefused | ErrNoSource | ErrPromUnavailable | ErrUnreachable
| ErrNotSynced | DeadlineExceeded | Canceled | NetError | ErrUnsupported.

(** The reasons of an API server's status the predicates of apimachinery name. *)
Inductive kubeReason :=
| NotFound | Conflict | Unauthorized | Forbidden | Invalid | BadRequest | ServiceUnavailable | Timeout | ServerTimeout
| InternalError | TooManyRequests | OtherReason.

#[export] Instance sentinel_eq_dec : EqDecision sentinel.
Proof. solve_decision. Defined.
#[export] Instance kubeReason_eq_dec : EqDecision kubeReason.
Proof. solve_decision. Defined.

Record error := MkError { e_text : string; e_is : list sentinel; e_kube : option kubeReason }.

Definition New (text : string) : error := MkError text [] None.
(** [fmt.Errorf("%w: ...", s)] *)
Definition Wrapped (s : sentinel) (text : string) : error := MkError text [s] None.

Definition Is (e : error) (s : sentinel) : bool := contains (e_is e) s.
Definition IsKube (e : error) (k : kubeReason) : bool := bool_decide (e_kube e = Some k).

Definition cannotReachCluster (e : error) : bool :=
  if Is e ErrPromUnavailable then true else if Is e ErrUnreachable then true else Is e ErrNotSynced.

Definition unreachable (e : error) : bool :=
  if IsKube e ServiceUnavailable || IsKube e Timeout || IsKube e ServerTimeout then true
  else if IsKube e InternalError || IsKube e TooManyRequests then true
  else Is e NetError.

Definition oversized (e : error) : bool := Is e MaxBytesError.

Definition askedForSomethingWrong (e : error) : bool :=
  existsb (Is e) [ErrNoSuchCheck; ErrInvalidUID; ErrNoUID; ErrNoResourceVersion; ErrNotAnApplier].

Definition applicationStatusFor (e : error) : option Z :=
  if Is e ErrInternal then Some 500%Z
  else if oversized e then Some 413%Z
  else if askedForSomethingWrong e then Some 400%Z
  else if Is e ErrNotOpen then Some 404%Z
  else if Is e ErrNoSchema then Some 404%Z
  else if Is e ErrNoRelease then Some 404%Z
  else if Is e ErrFluxManaged then Some 409%Z
  else if Is e ErrReplaced then Some 409%Z
  else if Is e ErrOutOfScope then Some 403%Z
  else if Is e ErrNamespaceNeeded then Some 403%Z
  else if Is e ErrKindUnreadable then Some 403%Z
  else if Is e ErrDenied then Some 403%Z
  else if Is e ErrUnanswered then Some 503%Z
  else None.

Definition kubeStatusFor (e : error) : Z :=
  if IsKube e NotFound then 404
  else if IsKube e Conflict then 409
  else if IsKube e Unauthorized then 401
  else if IsKube e Forbidden then 403
  else if IsKube e Invalid || IsKube e BadRequest then 422
  else if unreachable e then 503
  else 400.

Definition connectionStatusFor (e : error) : Z :=
  if Is e ErrRefused then 409
  else if Is e ErrNoSource then 409
  else if cannotReachCluster e then 503
  else if Is e DeadlineExceeded then 504
  else if Is e Canceled then 503
  else kubeStatusFor e.

Definition statusFor (e : error) : Z :=
  match applicationStatusFor e with Some status => status | None => connectionStatusFor e end.

(** An error is never answered as a success, and only what is the cluster's or
    the server's fault is answered as one. *)
Lemma statusFor_refuses e : (400 <= statusFor e < 600)%Z.
Proof.
  unfold statusFor, applicationStatusFor, connectionStatusFor, kubeStatusFor. repeat case_match; simplify_eq; lia.
Qed.

Lemma statusFor_internal e : Is e ErrInternal = true -> statusFor e = 500%Z.
Proof. intros H. unfold statusFor, applicationStatusFor. by rewrite H. Qed.

End Respond.
