(* ===== verification/Kube.v ===== *)
(** What the actions use of a cluster: the calls of client-go's clients and of
    the audit store, and the accessors of apimachinery on objects and on maps.
    The API server is whoever answers ([Program.Server]); the accessors are
    classes, with documents as instances. *)

From S2P Require Import Prelude Api Unstr Program Respond.

(** The metadata accessors of [unstructured.Unstructured]: owner references as
    kind and name, and the creation time, none when zero; and the map an object
    is. *)
Class Described (U : Type) := {
  FromObject : amap -> U;
  ObjectOf : U -> amap;
  GetAPIVersion : U -> string;
  GetResourceVersion : U -> string;
  OwnersOf : U -> list (string * string);
  AnnotationsOf : U -> gmap string string;
  CreatedOf : U -> option time;
}.

(** The helpers of apimachinery on a [map[string]any]. *)
Class Fields := {
  NestedStringMap : amap -> list string -> nested (gmap string string);
  NestedSliceIn : amap -> list string -> nested (list any);
  RemoveNestedField : amap -> list string -> amap;
  SetNestedStringMap : amap -> gmap string string -> list string -> option amap;
}.

Module Kube.
Import Api.

(** A corev1.Pod, as far as a drain reads it: the kind of the controller that
    owns it and the names of its volumes with whether they are emptyDirs. *)
Record Pod := MkPod {
  p_Namespace : string;
  p_Name : string;
  p_Deleting : bool;
  p_Phase : string;
  p_Mirror : bool;
  p_Controller : option string;
  p_Volumes : list (string * bool);
}.

Record PodOutcome := MkPodOutcome {
  po_Namespace : string;
  po_Name : string;
  po_Outcome : string;
  po_Reason : string;
}.

#[export] Instance Pod_eq_dec : EqDecision Pod.
Proof. solve_decision. Defined.
#[export] Instance PodOutcome_eq_dec : EqDecision PodOutcome.
Proof. solve_decision. Defined.

(** The pods of a drain with what is planned for each. *)
Record podPlan := MkPlan { pl_pod : Pod; pl_outcome : PodOutcome }.

(** What the audit store is given. *)
Record entry := MkEntry {
  en_Cluster : string;
  en_At : time;
  en_Verb : string;
  en_Actor : string;
  en_Ref : ObjectRef;
  en_Kind : string;
  en_Detail : string;
  en_Outcome : string;
  en_Message : string;
}.

Inductive call :=
| GetObject (ref : ObjectRef)
| ListObjects (ref : ObjectRef)
| ListPods (node : string)
| Patch (ref : ObjectRef) (subresource : string) (body : amap)
| CreateJob (namespace : string) (job : amap)
| Update (ref : ObjectRef) (object : amap)
| Delete (ref : ObjectRef) (uid : string)
| EvictPods (plans : list podPlan)
| Record_ (e : entry).

Section kube.
Context {U : Type}.

(** [EvictPods] answers what [evictAll] returns and whether its time ran out;
    [Drain] says what that may be. *)
Definition answer (c : call) : Type :=
  match c with
  | GetObject _ => result Respond.error U
  | ListObjects _ => result Respond.error (list U)
  | ListPods _ => result Respond.error (list Pod)
  | Patch _ _ _ => result Respond.error U
  | CreateJob _ _ => result Respond.error U
  | Update _ _ => result Respond.error U
  | Delete _ _ => option Respond.error
  | EvictPods _ => list PodOutcome * bool
  | Record_ _ => option Respond.error
  end.
End kube.

(** The calls that change the cluster. *)
Definition writes (c : call) : bool :=
  match c with
  | Patch _ _ _ | CreateJob _ _ | Update _ _ | Delete _ _ | EvictPods _ => true
  | GetObject _ | ListObjects _ | ListPods _ | Record_ _ => false
  end.

Definition records (c : call) : bool := match c with Record_ _ => true | _ => false end.

End Kube.

Arguments Kube.answer U c : clear implicits.

(** ** Documents *)

Fixpoint string_pairs (m : amap) : option (list (string * string)) :=
  match m with
  | [] => Some []
  | (k, AString s) :: m => (fun l => (k, s) :: l) <$> string_pairs m
  | _ => None
  end.

Definition map_field {A} (zero : A) (cast : any -> option A) (m : amap) (fields : list string) : nested A :=
  let n := doc_field (AMap m) fields in
  if negb (found n) || failed n then Nested zero false (failed n)
  else match cast (value n) with Some a => Nested a true false | None => Nested zero false true end.

Fixpoint aset (m : amap) (key : string) (v : any) : amap :=
  match m with
  | [] => [(key, v)]
  | (k, w) :: m => if bool_decide (k = key) then (k, v) :: m else (k, w) :: aset m key v
  end.

Definition adelete (m : amap) (key : string) : amap := List.filter (fun '(k, _) => negb (bool_decide (k = key))) m.

Fixpoint remove_field (m : amap) (fields : list string) : amap :=
  match fields with
  | [] => m
  | [f] => adelete m f
  | f :: rest => match aget m f with Some (AMap inner) => aset m f (AMap (remove_field inner rest)) | _ => m end
  end.

Fixpoint set_field (m : amap) (fields : list string) (v : any) : option amap :=
  match fields with
  | [] => None
  | [f] => Some (aset m f v)
  | f :: rest =>
      match aget m f with
      | None => aset m f ∘ AMap <$> set_field [] rest v
      | Some (AMap inner) => aset m f ∘ AMap <$> set_field inner rest v
      | Some _ => None
      end
  end.

#[export] Instance doc_fields : Fields := {
  NestedStringMap := map_field ∅ (fun v => match v with AMap m => list_to_map <$> string_pairs m | _ => None end);
  NestedSliceIn := map_field [] (fun v => match v with ASlice l => Some l | _ => None end);
  RemoveNestedField := remove_field;
  SetNestedStringMap m labels fields :=
    set_field m fields (AMap (map (fun '(k, s) => (k, AString s)) (map_to_list labels)));
}.

Definition owner_of (v : any) : option (string * string) :=
  match v with AMap m => Some (Unstr.At m "kind", Unstr.At m "name") | _ => None end.

#[export] Instance doc_described : Described Doc := {
  FromObject := MkDoc;
  ObjectOf := Object;
  GetAPIVersion u := Unstr.UString u ["apiVersion"];
  GetResourceVersion u := Unstr.UString u ["metadata"; "resourceVersion"];
  OwnersOf u := omap owner_of (Unstr.held [] (doc_as [] asSlice u ["metadata"; "ownerReferences"]));
  AnnotationsOf u :=
    match string_pairs (Unstr.held [] (doc_as [] asMap u ["metadata"; "annotations"])) with
    | Some l => list_to_map l | None => ∅ end;
  CreatedOf u := None;
}.
