(* ===== verification/Rollout.v ===== *)
(** internal/rollout: the revisions a workload keeps, the template of one, and
    how two differ. *)

From stdpp Require Import gmultiset.
From S2P Require Import Prelude Api Text Unstr Program Respond Kube Issues.

(** [strconv.ParseInt(s, 10, bits)]. *)
Module Parse.

Definition digit_of (c : Ascii.ascii) : option Z :=
  let n := Z.of_N (Ascii.N_of_ascii c) in if (48 <=? n)%Z && (n <=? 57)%Z then Some (n - 48)%Z else None.

Fixpoint digits_of (s : string) (acc : Z) : option Z :=
  match s with
  | EmptyString => Some acc
  | String c rest => d ← digit_of c; digits_of rest (10 * acc + d)%Z
  end.

Inductive parseError := InvalidSyntax | OutOfRange.

Definition ParseInt (s : string) (bits : Z) : result parseError Z :=
  let '(negative, digits) :=
    match s with
    | String c rest =>
        if bool_decide (c = Ascii.ascii_of_N 45) then (true, rest)
        else if bool_decide (c = Ascii.ascii_of_N 43) then (false, rest) else (false, s)
    | EmptyString => (false, s)
    end in
  if bool_decide (digits = "") then Err InvalidSyntax
  else match digits_of digits 0 with
  | None => Err InvalidSyntax
  | Some n =>
      let n := if negative then (- n)%Z else n in
      if (- 2 ^ (bits - 1) <=? n)%Z && (n <? 2 ^ (bits - 1))%Z then Ok n else Err OutOfRange
  end.

Lemma ParseInt_range s bits n : ParseInt s bits = Ok n -> (- 2 ^ (bits - 1) <= n < 2 ^ (bits - 1))%Z.
Proof.
  unfold ParseInt. destruct (match s with EmptyString => _ | _ => _ end) as [negative digits].
  case_bool_decide; [done |]. destruct (digits_of digits 0); [| done].
  destruct (_ && _) eqn:E; [| done]. intros [= <-]. apply andb_true_iff in E as [E1 E2]. breflect. lia.
Qed.

Example parse_min : ParseInt "-9223372036854775808" 64 = Ok (- 2 ^ 63)%Z /\ ParseInt "9223372036854775808" 64 = Err OutOfRange.
Proof. by vm_compute. Qed.

End Parse.

Module Rollout.
Import Api Text Unstr Kube.

Definition appsGroup : string := "apps".
Definition replicaSets : string := "replicasets".
Definition controllerRevisions : string := "controllerrevisions".
Definition deploymentKind : string := "Deployment".
Definition statefulSetKind : string := "StatefulSet".
Definition daemonSetKind : string := "DaemonSet".
Definition revisionAnnotation : string := "deployment.kubernetes.io/revision".
Definition causeAnnotation : string := "kubernetes.io/change-cause".
Definition templateHashLabel : string := "pod-template-hash".
Definition revisionHashLabel : string := "controller-revision-hash".
Definition specField : string := "spec".
Definition templateField : string := "template".

Record Revision := MkRevision {
  Number : Z;
  Name : string;
  Current : bool;
  CreatedAt : string;
  Cause : string;
  Images : list string;
  Replicas : Z;
  ReadyCount : Z;
}.

Record entry := MkEntry { revision : Revision; template : option amap }.

Section fields.
Context {Fl : Fields}.

(** A template without the labels the controllers add. *)
Definition withoutHashes (template : amap) : amap :=
  let n := NestedStringMap template ["metadata"; "labels"] in
  if negb (found n) || failed n then template
  else
    let labels := delete revisionHashLabel (delete templateHashLabel (value n)) in
    if bool_decide (size labels = 0) then RemoveNestedField template ["metadata"; "labels"]
    else match SetNestedStringMap template labels ["metadata"; "labels"] with
    | Some template => template
    | None => RemoveNestedField template ["metadata"; "labels"]
    end.

Definition imagesOf (template : option amap) : list string :=
  let n := NestedSliceIn (default [] template) [specField; "containers"] in
  if negb (found n) || failed n then []
  else omap (fun raw =>
    match asMap (Some raw) with
    | None => None
    | Some container =>
        let image := At container "image" in if bool_decide (image = "") then None else Some image
    end) (value n).

Context {U : Type} `{!Unstructured U, !Described U} {Tm : RFC3339}.

Definition templateOf (item : U) (fields : list string) : option amap := withoutHashes <$> UMap item fields.

Definition createdAt (item : U) : string :=
  match CreatedOf item with None => "" | Some stamp => FormatTime stamp end.

Definition ownedBy (item : U) (name kind : string) : bool :=
  existsb (fun '(k, n) => bool_decide (k = kind) && bool_decide (n = name)) (OwnersOf item).

Definition annotatedRevision (item : U) : option Z :=
  let raw := default "" (AnnotationsOf item !! revisionAnnotation) in
  if bool_decide (raw = "") then None
  else match Parse.ParseInt raw 64 with Ok number => Some number | Err _ => None end.

Definition entryOf (item : U) (number : Z) (template : option amap) : entry :=
  MkEntry (MkRevision number (GetName item) false (createdAt item) (default "" (AnnotationsOf item !! causeAnnotation))
             (imagesOf template) 0 0) template.

Definition withCounts (e : entry) (replicas ready : Z) : entry :=
  let r := revision e in
  MkEntry (MkRevision (Number r) (Name r) (Current r) (CreatedAt r) (Cause r) (Images r) replicas ready) (template e).

Definition byNumber : entry -> entry -> Z :=
  cmp_then (cmp_on (fun e => Number (revision e)) cmp_desc) (cmp_on (fun e => Name (revision e)) str_compare).

Definition current (at_first : bool) (e : entry) : entry :=
  let r := revision e in
  MkEntry (MkRevision (Number r) (Name r) at_first (CreatedAt r) (Cause r) (Images r) (Replicas r) (ReadyCount r)) (template e).

Definition onlyOneCurrent (found : list entry) : list entry :=
  match found with [] => [] | first :: rest => current true first :: map (current false) rest end.

Definition ordered (found : list entry) : list entry := onlyOneCurrent (sort_by byNumber found).

Definition replicaSetEntry (ref : ObjectRef) (set : U) : option entry :=
  if negb (ownedBy set (or_Name ref) deploymentKind) then None
  else match annotatedRevision set with
  | None => None
  | Some number =>
      Some (withCounts (entryOf set number (templateOf set [specField; templateField]))
              (UInt set [specField; "replicas"]) (UInt set ["status"; "readyReplicas"]))
  end.

Definition controllerRevisionEntry (ref : ObjectRef) (kind : string) (rev : U) : option entry :=
  if negb (ownedBy rev (or_Name ref) kind) then None
  else
    let number := UInt rev ["revision"] in
    if (number =? 0)%Z then None
    else Some (withCounts (entryOf rev number (templateOf rev ["data"; specField; templateField]))
                 (UInt rev ["data"; specField; "replicas"]) 0).

Definition beside (ref : ObjectRef) (resource : string) : ObjectRef :=
  MkObjectRef appsGroup (or_Version ref) resource (or_Namespace ref) "".

Definition kindOf (ref : ObjectRef) : string :=
  if bool_decide (or_Group ref <> appsGroup) then ""
  else if bool_decide (or_Resource ref = "deployments") then deploymentKind
  else if bool_decide (or_Resource ref = "statefulsets") then statefulSetKind
  else if bool_decide (or_Resource ref = "daemonsets") then daemonSetKind
  else "".

Definition describe (ref : ObjectRef) : string :=
  if bool_decide (or_Group ref = "") then or_Resource ref else or_Group ref +s+ "/" +s+ or_Resource ref.

Definition program := prog (answer U).

(** The history, or the reason there is none. *)
Definition listed (ref : ObjectRef) (resource : string) (keep : U -> option entry) :
    program (result Respond.error (list entry + string)) :=
  _ <-? ask (GetObject ref);;
  items <-? ask (ListObjects (beside ref resource));;
  Return (Ok (inl (ordered (omap keep items)))).

Definition history (ref : ObjectRef) : program (result Respond.error (list entry + string)) :=
  let kind := kindOf ref in
  if bool_decide (kind = deploymentKind) then listed ref replicaSets (replicaSetEntry ref)
  else if bool_decide (kind = statefulSetKind) || bool_decide (kind = daemonSetKind) then
    listed ref controllerRevisions (controllerRevisionEntry ref kind)
  else Return (Ok (inr (describe ref +s+ " keep no rollout revisions"))).

Fixpoint pick (found : list entry) (ref : ObjectRef) (number : Z) : result Respond.error amap :=
  match found with
  | [] => Err (Respond.New (or_Name ref +s+ " has no revision " +s+ Itoa number))
  | one :: rest =>
      if negb (Number (revision one) =? number)%Z then pick rest ref number
      else match template one with
      | None => Err (Respond.New ("revision " +s+ Itoa number +s+ " of " +s+ or_Name ref +s+ " holds no pod template"))
      | Some template => Ok template
      end
  end.

(** [List]: the revisions, or why there are none. *)
Definition Revisions (ref : ObjectRef) : program (result Respond.error (list Revision + string)) :=
  found <-? history ref;;
  Return (Ok match found with inl found => inl (map revision found) | inr reason => inr reason end).

Definition Template (ref : ObjectRef) (number : Z) : program (result Respond.error amap) :=
  found <-? history ref;;
  Return match found with inl found => pick found ref number | inr reason => Err (Respond.New reason) end.
End fields.

(** ** Diff *)

Definition newline : Ascii.ascii := Ascii.ascii_of_N 10.

(** The count of a line, zero when the map holds none. *)
Definition count_at (counted : gmap string Z) (line : string) : Z := default 0%Z (counted !! line).

Definition differingLines (left_ right_ : string) : Z :=
  let counted := foldl (fun m line => <[line := (count_at m line + 1)%Z]> m) ∅ (str_split newline left_) in
  let '(counted, total) :=
    foldl (fun '(m, total) line =>
      if (0 <? count_at m line)%Z then (<[line := (count_at m line - 1)%Z]> m, total) else (m, (total + 1)%Z))
      (counted, 0%Z) (str_split newline right_) in
  (total + map_fold (fun _ count sum => sum + count) 0 counted)%Z.

Record RevisionDiff := MkDiff { Lines : Z; Same : bool; Left : string; Right : string }.

(** [Diff], of the two templates as [rendered] writes them. *)
Definition Diff (left_ right_ : string) : RevisionDiff :=
  MkDiff (differingLines left_ right_) (bool_decide (left_ = right_)) left_ right_.

(** The lines of a text as a multiset. *)
Definition lines (s : string) : gmultiset string := list_to_set_disj (str_split newline s).

Definition counts (m : gmap string Z) (X : gmultiset string) : Prop :=
  forall line, count_at m line = Z.of_nat (multiplicity line X).

Lemma counts_insert m X Y line n :
  counts m X -> n = Z.of_nat (multiplicity line Y) ->
  (forall l, l <> line -> multiplicity l Y = multiplicity l X) -> counts (<[line := n]> m) Y.
Proof.
  intros Hm -> HY l. unfold count_at. destruct (decide (l = line)) as [-> | Hne].
  - by rewrite lookup_insert_eq.
  - rewrite lookup_insert_ne by done. rewrite HY by done. apply Hm.
Qed.

Lemma multiplicity_one (x : string) : multiplicity x {[+ x +]} = 1.
Proof. rewrite multiplicity_singleton. by case_decide. Qed.

Lemma multiplicity_other (x y : string) : y <> x -> multiplicity y {[+ x +]} = 0.
Proof. intros Hne. rewrite multiplicity_singleton. by case_decide. Qed.

Lemma counts_sum m X : counts m X -> map_fold (fun _ count sum => sum + count)%Z 0%Z m = Z.of_nat (size X).
Proof.
  revert X. apply (map_fold_weak_ind (fun sum m => forall X, counts m X -> sum = Z.of_nat (size X))); clear m.
  - intros X HX. assert (X = ∅) as ->; [| done]. apply gmultiset_eq. intros x. rewrite multiplicity_empty.
    specialize (HX x). unfold count_at in HX. rewrite lookup_empty in HX. cbn in HX. lia.
  - intros i v m sum Hi IH X HX. set (Y := X ∖ (multiplicity i X *: {[+ i +]})).
    assert (HYx : forall x, multiplicity x Y = if decide (x = i) then 0 else multiplicity x X).
    { intros x. unfold Y. rewrite multiplicity_difference, multiplicity_scalar_mul. case_decide as E.
      - subst. rewrite multiplicity_one. lia.
      - rewrite multiplicity_other by done. lia. }
    assert (X = Y ⊎ (multiplicity i X *: {[+ i +]})) as HX'.
    { apply gmultiset_eq. intros x. rewrite multiplicity_disj_union, HYx, multiplicity_scalar_mul. case_decide as E.
      - subst. rewrite multiplicity_one. lia.
      - rewrite multiplicity_other by done. lia. }
    rewrite (IH Y).
    + rewrite HX' at 1; rewrite gmultiset_size_disj_union, gmultiset_size_scalar_mul, gmultiset_size_singleton.
      specialize (HX i). unfold count_at in HX. rewrite lookup_insert_eq in HX. cbn in HX. lia.
    + intros x. rewrite HYx. specialize (HX x). unfold count_at in *. case_decide as E.
      * subst. by rewrite Hi.
      * by rewrite lookup_insert_ne in HX.
Qed.

Lemma counted_left m X l :
  counts m X ->
  counts (foldl (fun m line => <[line := (count_at m line + 1)%Z]> m) m l) (X ⊎ list_to_set_disj l).
Proof.
  revert m X. induction l as [| x l IH]; intros m X HX; cbn [foldl list_to_set_disj].
  - intros y. rewrite multiplicity_disj_union, multiplicity_empty, HX. lia.
  - rewrite assoc by apply _. apply IH. apply (counts_insert _ X); [done | |].
    + rewrite HX, multiplicity_disj_union, multiplicity_one. lia.
    + intros y Hy. rewrite multiplicity_disj_union, multiplicity_other by done. lia.
Qed.

Lemma counted_right m X l total :
  counts m X ->
  exists m',
    foldl (fun '(m, total) line =>
      if (0 <? count_at m line)%Z then (<[line := (count_at m line - 1)%Z]> m, total) else (m, (total + 1)%Z))
      (m, total) l = (m', (total + Z.of_nat (size (list_to_set_disj l ∖ X)))%Z) /\
    counts m' (X ∖ list_to_set_disj l).
Proof.
  revert m X total. induction l as [| x l IH]; intros m X total HX; cbn [foldl list_to_set_disj].
  - exists m. split.
    { f_equal. assert ((∅ : gmultiset string) ∖ X = ∅) as ->.
      { apply gmultiset_eq. intros y. by rewrite multiplicity_difference, multiplicity_empty. }
      rewrite gmultiset_size_empty. lia. }
    intros y. rewrite multiplicity_difference, multiplicity_empty, HX. lia.
  - rewrite HX. destruct (Z.ltb_spec 0 (Z.of_nat (multiplicity x X))) as [Hx | Hx].
    + destruct (IH (<[x := (Z.of_nat (multiplicity x X) - 1)%Z]> m) (X ∖ {[+ x +]}) total) as (m' & Hf & Hc).
      { apply (counts_insert _ X); [done | |].
        - rewrite multiplicity_difference, multiplicity_one. lia.
        - intros y Hy. rewrite multiplicity_difference, multiplicity_other by done. lia. }
      exists m'. rewrite Hf. split.
      * do 4 f_equal. apply gmultiset_eq. intros y.
        rewrite !multiplicity_difference, multiplicity_disj_union. destruct (decide (y = x)) as [-> | Hne].
        -- rewrite multiplicity_one. lia.
        -- rewrite multiplicity_other by done. lia.
      * intros y. rewrite Hc, !multiplicity_difference, multiplicity_disj_union. lia.
    + destruct (IH m X (total + 1)%Z HX) as (m' & Hf & Hc). exists m'. rewrite Hf. split.
      * f_equal. assert (({[+ x +]} ⊎ list_to_set_disj l) ∖ X = {[+ x +]} ⊎ (list_to_set_disj l ∖ X)) as ->.
        { apply gmultiset_eq. intros y. rewrite multiplicity_difference, !multiplicity_disj_union, multiplicity_difference.
          destruct (decide (y = x)) as [-> | Hne]; [rewrite multiplicity_one | rewrite multiplicity_other by done]; lia. }
        rewrite gmultiset_size_disj_union, gmultiset_size_singleton. lia.
      * intros y. rewrite Hc, !multiplicity_difference, multiplicity_disj_union.
        destruct (decide (y = x)) as [-> | Hne]; [rewrite multiplicity_one | rewrite multiplicity_other by done]; lia.
Qed.

Lemma size_differences (X Y : gmultiset string) : size (X ∖ Y) + size (Y ∖ X) = 0 <-> X = Y.
Proof.
  split.
  - intros H. apply gmultiset_eq. intros x.
    assert (X ∖ Y = ∅) as EX by (apply gmultiset_size_empty_iff; lia).
    assert (Y ∖ X = ∅) as EY by (apply gmultiset_size_empty_iff; lia).
    apply (f_equal (multiplicity x)) in EX, EY. rewrite multiplicity_difference, multiplicity_empty in EX, EY. lia.
  - intros ->. assert (Y ∖ Y = ∅) as ->; [| done].
    apply gmultiset_eq. intros x. rewrite multiplicity_difference, multiplicity_empty. lia.
Qed.

(** The number of differing lines is that of the two texts as multisets of
    lines, what the left has and the right has not and the other way round: it
    is zero exactly when they have the same lines, in whatever order. *)
Theorem differingLines_symmetric_difference left_ right_ :
  Lines (Diff left_ right_) =
    Z.of_nat (size (lines left_ ∖ lines right_) + size (lines right_ ∖ lines left_)) /\
  (Lines (Diff left_ right_) = 0%Z <-> lines left_ = lines right_).
Proof.
  rewrite <- size_differences. enough (Lines (Diff left_ right_) =
    Z.of_nat (size (lines left_ ∖ lines right_) + size (lines right_ ∖ lines left_))) by lia.
  cbn [Lines Diff]. unfold differingLines, lines.
  pose proof (counted_left ∅ ∅ (str_split newline left_) ltac:(intros y; by rewrite multiplicity_empty)) as HL.
  rewrite left_id in HL by apply _. cbn zeta.
  destruct (counted_right _ _ (str_split newline right_) 0 HL) as (m' & -> & Hm').
  rewrite (counts_sum _ _ Hm'). lia.
Qed.

End Rollout.
