(* ===== verification/Drain.v ===== *)
(** internal/actions/node.go: what a drain plans for each pod of a node, and the
    goroutines that evict them, eight at a time, until the drain's time is up. *)

From S2P Require Import Prelude Api Text Config Access Program Respond Kube.

Module Drain.
Import Text Kube.

Definition OutcomeEvict : string := "evict".
Definition OutcomeEvicted : string := "evicted".
Definition OutcomeBlocked : string := "blocked".
Definition OutcomeSkipped : string := "skipped".
Definition OutcomeFailed : string := "failed".

Definition evictConcurrency : Z := 8.
Definition evictBudget : duration := (30 * Second)%Z.

(** ** The plan *)

Section plan.
Context {Qt : Quoting}.

Fixpoint emptyDirVolume (volumes : list (string * bool)) : string :=
  match volumes with
  | [] => ""
  | (name, emptyDir) :: rest => if emptyDir : bool then name else emptyDirVolume rest
  end.

Definition classify (pod : Pod) (force : bool) : string * string :=
  if p_Deleting pod then (OutcomeSkipped, "already terminating")
  else if bool_decide (p_Phase pod = "Succeeded") || bool_decide (p_Phase pod = "Failed") then
    (OutcomeSkipped, "already " +s+ Config.ToLower (p_Phase pod))
  else if p_Mirror pod then (OutcomeSkipped, "static pod, the kubelet owns it")
  else if bool_decide (p_Controller pod = Some "DaemonSet") then
    (OutcomeSkipped, "daemonset pod, it would be recreated here")
  else if force then (OutcomeEvict, "")
  else if bool_decide (p_Controller pod = None) then
    (OutcomeBlocked, "no controller owns it, nothing would recreate it")
  else
    let volume := emptyDirVolume (p_Volumes pod) in
    if bool_decide (volume <> "") then
      (OutcomeBlocked, "emptyDir volume " +s+ Quote volume +s+ " would lose its data")
    else (OutcomeEvict, "").

Definition planned (force : bool) (pod : Pod) : podPlan :=
  let '(outcome, reason) := classify pod force in
  MkPlan pod (MkPodOutcome (p_Namespace pod) (p_Name pod) outcome reason).

Definition planFor (node : string) (force : bool) {U} : prog (answer U) (result Respond.error (list podPlan)) :=
  list <-? ask (ListPods node);;
  Return (Ok (map (planned force) list)).
End plan.

Definition outcomesOf (plans : list podPlan) : list PodOutcome := map pl_outcome plans.

Definition tally (outcomes : list PodOutcome) (outcome : string) : Z :=
  counted (fun entry => bool_decide (po_Outcome entry = outcome)) outcomes.

Definition countOf (plans : list podPlan) (outcome : string) : Z :=
  counted (fun plan => bool_decide (po_Outcome (pl_outcome plan) = outcome)) plans.

Definition podWord (count : Z) : string := if (count =? 1)%Z then "pod" else "pods".

Definition appendCount (parts : list string) (count : Z) (label : string) : list string :=
  if (count =? 0)%Z then parts else parts ++ [Itoa count +s+ " " +s+ label].

Definition planMessage (plans : list podPlan) : string :=
  let outcomes := outcomesOf plans in
  let evict := tally outcomes OutcomeEvict in
  let parts := [Itoa evict +s+ " " +s+ podWord evict +s+ " to evict"] in
  let parts := appendCount parts (tally outcomes OutcomeSkipped) "left in place" in
  let parts := appendCount parts (tally outcomes OutcomeBlocked) "blocked" in
  Join ", " parts +s+ ".".

Definition drainMessage (outcomes : list PodOutcome) (expired : bool) : string :=
  let evicted := tally outcomes OutcomeEvicted in
  let parts := ["Cordoned. Eviction requested for " +s+ Itoa evicted +s+ " " +s+ podWord evicted] in
  let parts := appendCount parts (tally outcomes OutcomeSkipped) "left in place" in
  let parts := appendCount parts (tally outcomes OutcomeBlocked) "still blocked" in
  let parts := appendCount parts (tally outcomes OutcomeFailed) "failed" in
  let message := Join ", " parts +s+ "." in
  if expired then message +s+ " The drain ran out of time, so run it again to finish." else message.

(** ** The evictions

    A goroutine per pod to evict waits for one of eight slots or the end of the
    time, calls EvictV1 with the slot held, and sleeps between the calls a
    PodDisruptionBudget refuses.  A call made when the time is already up is
    not answered by the budget: the client refuses it. *)

Inductive position := Waiting | Trying (late : bool) | Sleeping | Finished.

(** What EvictV1 answers, a panic included. *)
Inductive reply := Evicted | Gone | Busy | Refused (text : string) | Panics.

#[export] Instance position_eq_dec : EqDecision position.
Proof. solve_decision. Defined.
#[export] Instance reply_eq_dec : EqDecision reply.
Proof. solve_decision. Defined.

Record state := MkState {
  threads : list position;
  outcomes : list PodOutcome;
  expired : bool;
  calls : list (nat * reply);
}.

Definition evictable (plan : podPlan) : bool := bool_decide (po_Outcome (pl_outcome plan) = OutcomeEvict).

(** [evictAll] once every goroutine is started. *)
Definition started (plans : list podPlan) : state :=
  MkState (map (fun plan => if evictable plan then Waiting else Finished) plans) (outcomesOf plans) false [].

Definition holds (p : position) : bool := match p with Trying _ | Sleeping => true | Waiting | Finished => false end.

Definition holding (s : state) : Z := counted holds (threads s).

Definition at_ (i : nat) (p : position) (s : state) : state :=
  MkState (<[i := p]> (threads s)) (outcomes s) (expired s) (calls s).

Definition concluded (i : nat) (outcome reason : string) (s : state) : state :=
  MkState (<[i := Finished]> (threads s))
    (alter (fun o => MkPodOutcome (po_Namespace o) (po_Name o) outcome reason) i (outcomes s)) (expired s) (calls s).

Definition called (i : nat) (r : reply) (s : state) : state :=
  MkState (threads s) (outcomes s) (expired s) (calls s ++ [(i, r)]).

Definition ranOut : string := "the drain ran out of time before this pod was evicted".

Definition answered (i : nat) (r : reply) (s : state) : state :=
  match r with
  | Evicted => concluded i OutcomeEvicted "" s
  | Gone => concluded i OutcomeSkipped "already gone" s
  | Busy => at_ i Sleeping s
  | Refused text => concluded i OutcomeFailed (if expired s then ranOut else text) s
  | Panics => concluded i OutcomeFailed "spinoza could not finish the eviction" s
  end.

Inductive event :=
| Expire
| Acquire (i : nat)
| GiveUp (i : nat)
| Answer (i : nat) (r : reply)
| Wake (i : nat)
| Cut (i : nat).

Definition step (s : state) (e : event) : option state :=
  match e with
  | Expire => if expired s then None else Some (MkState (threads s) (outcomes s) true (calls s))
  | Acquire i =>
      if bool_decide (threads s !! i = Some Waiting) && (holding s <? evictConcurrency)%Z
      then Some (at_ i (Trying (expired s)) s) else None
  | GiveUp i =>
      if bool_decide (threads s !! i = Some Waiting) && expired s then Some (concluded i OutcomeFailed ranOut s) else None
  | Answer i r =>
      match threads s !! i with
      | Some (Trying late) => if late && bool_decide (r = Busy) then None else Some (answered i r (called i r s))
      | _ => None
      end
  | Wake i => if bool_decide (threads s !! i = Some Sleeping) then Some (at_ i (Trying (expired s)) s) else None
  | Cut i =>
      if bool_decide (threads s !! i = Some Sleeping) && expired s
      then Some (concluded i OutcomeBlocked "a PodDisruptionBudget still forbids the eviction, and the drain ran out of time" s)
      else None
  end.

(** A run: the states that follow a list of events. *)
Fixpoint runs (s : state) (l : list event) : option state :=
  match l with [] => Some s | e :: l => s ← step s e; runs s l end.

(** [group.Wait] returns. *)
Definition settled (s : state) : bool := forallb (fun p => bool_decide (p = Finished)) (threads s).

Definition successes (i : nat) (s : state) : Z := counted (fun c => bool_decide (c = (i, Evicted))) (calls s).

(** ** What the goroutines keep *)

Definition conclusions : list string := [OutcomeEvicted; OutcomeBlocked; OutcomeSkipped; OutcomeFailed].

Definition same_pod (o o' : PodOutcome) : Prop := po_Namespace o = po_Namespace o' /\ po_Name o = po_Name o'.

(** One pod: its plan, where its goroutine is, its outcome and its successful calls. *)
Definition kept (plan : podPlan) (p : position) (o : PodOutcome) (n : Z) : Prop :=
  same_pod o (pl_outcome plan) /\
  if evictable plan then
    if bool_decide (p = Finished)
    then po_Outcome o ∈ conclusions /\ n = one (bool_decide (po_Outcome o = OutcomeEvicted))
    else o = pl_outcome plan /\ n = 0%Z
  else p = Finished /\ o = pl_outcome plan /\ n = 0%Z.

Record invariant (plans : list podPlan) (s : state) : Prop := {
  inv_holding : (holding s <= evictConcurrency)%Z;
  inv_threads : length (threads s) = length plans;
  inv_outcomes : length (outcomes s) = length plans;
  inv_calls : Forall (fun c => exists plan, plans !! c.1 = Some plan /\ evictable plan = true) (calls s);
  inv_kept : forall i plan p o, plans !! i = Some plan -> threads s !! i = Some p -> outcomes s !! i = Some o ->
    kept plan p o (successes i s);
}.

Lemma map_lookup {A B} (f : A -> B) l i x : l !! i = Some x -> map f l !! i = Some (f x).
Proof. intros H. change (map f l) with (f <$> l). by rewrite list_lookup_fmap, H. Qed.

Lemma started_invariant plans : invariant plans (started plans).
Proof.
  assert (holding (started plans) = 0%Z) as H0.
  { apply counted_none, Forall_fmap, Forall_true. intros plan. cbn. by destruct (evictable plan). }
  split; [by rewrite H0 | cbn; by rewrite length_map | cbn; unfold outcomesOf; by rewrite length_map | constructor |].
  intros i plan p o Hi Hp Ho. cbn [threads outcomes started] in Hp, Ho. unfold outcomesOf in Ho.
  rewrite (map_lookup _ _ _ _ Hi) in Hp. rewrite (map_lookup _ _ _ _ Hi) in Ho. injection Hp as <-. injection Ho as <-.
  split; [by split |]. by destruct (evictable plan).
Qed.

Lemma successes_called i j r s : successes i (called j r s) = (successes i s + one (bool_decide ((j, r) = (i, Evicted))))%Z.
Proof. unfold successes, called. cbn [calls]. by rewrite counted_snoc. Qed.

(** A position moves, nothing else. *)
Lemma at_invariant plans i p q s :
  invariant plans s -> threads s !! i = Some p -> p <> Finished -> q <> Finished ->
  (holding s - one (holds p) + one (holds q) <= evictConcurrency)%Z -> invariant plans (at_ i q s).
Proof.
  intros [Hh Ht Ho Hc Hk] Hp Hpf Hqf Hle. split.
  - unfold holding, at_. cbn [threads]. by rewrite (counted_insert _ _ _ _ _ Hp).
  - cbn. by rewrite length_insert.
  - done.
  - done.
  - intros j plan p' o Hj Hp' Ho'. cbn [threads outcomes at_] in Hp', Ho'. change (successes j (at_ i q s)) with (successes j s).
    destruct (decide (i = j)) as [-> | Hne]; [| rewrite list_lookup_insert_ne in Hp' by done; eauto].
    rewrite list_lookup_insert_eq in Hp' by (by eapply lookup_lt_Some). injection Hp' as <-.
    destruct (Hk _ _ _ _ Hj Hp Ho') as [Hs H]. split; [done |].
    rewrite bool_decide_eq_false_2 in H by done. rewrite (bool_decide_eq_false_2 (q = Finished)) by done.
    destruct (evictable plan); [done |]. by destruct H.
Qed.

Lemma concluded_invariant plans i p outcome reason n s s' :
  invariant plans s -> threads s !! i = Some p -> p <> Finished -> outcome ∈ conclusions ->
  threads s' = threads s -> outcomes s' = outcomes s ->
  Forall (fun c => exists plan, plans !! c.1 = Some plan /\ evictable plan = true) (calls s') ->
  (forall j, successes j s' = successes j s + if bool_decide (i = j) then n else 0)%Z ->
  n = one (bool_decide (outcome = OutcomeEvicted)) ->
  invariant plans (concluded i outcome reason s').
Proof.
  intros [Hh Ht Ho Hc Hk] Hp Hpf Hout Et Eo Hc' Hn ->. split.
  - unfold holding, concluded in *. cbn [threads]. rewrite Et, (counted_insert _ _ _ _ _ Hp). unfold one in *. cbn [holds].
    destruct (holds p); lia.
  - cbn. by rewrite length_insert, Et.
  - cbn. by rewrite length_alter, Eo.
  - done.
  - intros j plan p' o Hj Hp' Ho'. cbn [threads outcomes concluded] in Hp', Ho'. rewrite Et in Hp'. rewrite Eo in Ho'.
    change (successes j (concluded i outcome reason s')) with (successes j s'). rewrite Hn.
    destruct (decide (i = j)) as [<- | Hne]; [rewrite bool_decide_eq_true_2 by done |
      rewrite bool_decide_eq_false_2 by done; rewrite list_lookup_insert_ne in Hp' by done;
      rewrite list_lookup_alter_ne in Ho' by done; rewrite Z.add_0_r; eauto].
    rewrite list_lookup_insert_eq in Hp' by (by eapply lookup_lt_Some). injection Hp' as <-.
    rewrite list_lookup_alter_eq in Ho'. apply fmap_Some in Ho' as (o0 & Ho0 & ->).
    destruct (Hk _ _ _ _ Hj Hp Ho0) as [[Hs1 Hs2] H]. split; [by split |].
    rewrite bool_decide_eq_false_2 in H by done.
    destruct (evictable plan); [| by destruct H]. destruct H as [-> ->]. by cbn [po_Outcome].
Qed.

Lemma evict_called plans i late s :
  invariant plans s -> threads s !! i = Some (Trying late) -> exists plan, plans !! i = Some plan /\ evictable plan = true.
Proof.
  intros [Hh Ht Ho Hc Hk] Hi. pose proof (lookup_lt_Some _ _ _ Hi) as Hlt. rewrite Ht in Hlt.
  destruct (lookup_lt_is_Some_2 plans i Hlt) as [plan Hplan]. rewrite <- Ho in Hlt.
  destruct (lookup_lt_is_Some_2 (outcomes s) i Hlt) as [o Hout]. exists plan. split; [done |].
  destruct (Hk _ _ _ _ Hplan Hi Hout) as [_ H]. destruct (evictable plan); [done |]. by destruct H.
Qed.

Lemma one_holds p : (0 <= one (holds p) <= 1)%Z.
Proof. unfold one. destruct (holds p); lia. Qed.

Lemma called_invariant plans i late r s :
  invariant plans s -> threads s !! i = Some (Trying late) -> invariant plans (answered i r (called i r s)).
Proof.
  intros Hinv Hi. destruct (evict_called _ _ _ _ Hinv Hi) as (plan & Hplan & Hev).
  assert (Forall (fun c => exists plan, plans !! c.1 = Some plan /\ evictable plan = true) (calls (called i r s))) as Hcalls.
  { cbn. apply list.Forall_app. split; [apply Hinv |]. constructor; [eauto | constructor]. }
  assert (forall j, successes j (called i r s) =
    successes j s + if bool_decide (i = j) then one (bool_decide (r = Evicted)) else 0)%Z as Hn.
  { intros j. rewrite successes_called. f_equal. repeat case_bool_decide; cbn; congruence. }
  destruct r; cbn [answered]; try (eapply concluded_invariant; [exact Hinv | exact Hi | discriminate | | reflexivity |
    reflexivity | exact Hcalls | exact Hn | reflexivity]; unfold conclusions; set_solver).
  assert (invariant plans (at_ i Sleeping s)) as [Hh Ht Ho Hc Hk].
  { apply (at_invariant _ _ (Trying late)); try done. apply inv_holding in Hinv. cbn. lia. }
  split; try done. intros j plan' p o Hj Hp Ho'. change (successes j (at_ i Sleeping (called i Busy s))) with
    (successes j (called i Busy s)). rewrite Hn, (bool_decide_eq_false_2 (Busy = Evicted)) by discriminate.
  assert (successes j s + (if bool_decide (i = j) then one false else 0) = successes j s)%Z as ->
    by (destruct (bool_decide (i = j)); apply Z.add_0_r). by apply (Hk j).
Qed.

Lemma step_invariant plans s e s' : invariant plans s -> step s e = Some s' -> invariant plans s'.
Proof.
  intros Hinv. pose proof (inv_holding _ _ Hinv) as Hh. destruct e as [| i | i | i r | i | i]; cbn [step].
  - destruct (expired s); [done |]. intros [= <-]. destruct Hinv as [? ? ? ? Hk]. by split.
  - destruct (_ && _) eqn:E; [| done]. intros [= <-]. breflect.
    eapply at_invariant; [done | eassumption | done | done |]. cbn. lia.
  - destruct (_ && _) eqn:E; [| done]. intros [= <-]. breflect. eapply (concluded_invariant _ _ _ _ _ 0 s);
      [done | eassumption | done | unfold conclusions; set_solver | done | done | apply Hinv | | done].
    intros j. case_bool_decide; lia.
  - destruct (threads s !! i) as [[| late | |] |] eqn:Hi; try done. destruct (_ && _); [done |]. intros [= <-].
    by eapply called_invariant.
  - case_bool_decide; [| done]. intros [= <-]. eapply at_invariant; [done | eassumption | done | done |]. cbn. lia.
  - destruct (_ && _) eqn:E; [| done]. intros [= <-]. breflect. eapply (concluded_invariant _ _ _ _ _ 0 s);
      [done | eassumption | done | unfold conclusions; set_solver | done | done | apply Hinv | | done].
    intros j. case_bool_decide; lia.
Qed.

Lemma runs_invariant plans l s s' : invariant plans s -> runs s l = Some s' -> invariant plans s'.
Proof.
  revert s. induction l as [| e l IH]; intros s Hs; cbn; [by intros [= <-] |].
  destruct (step s e) as [s1 |] eqn:E; [| done]. cbn. apply IH. by eapply step_invariant.
Qed.

(** ** The end of a drain *)

Definition weight (p : position) : nat :=
  match p with Waiting => 4 | Trying false => 3 | Sleeping => 2 | Trying true => 1 | Finished => 0 end.

Definition remaining (s : state) : nat := sum_list_with weight (threads s).

Lemma sum_insert (l : list position) i p q :
  l !! i = Some p -> sum_list_with weight (<[i := q]> l) + weight p = sum_list_with weight l + weight q.
Proof.
  revert i. induction l as [| x l IH]; intros [| i] H; try done; cbn in H.
  - injection H as ->. cbn. lia.
  - change (<[S i := q]> (x :: l)) with (x :: <[i := q]> l). cbn. specialize (IH _ H). lia.
Qed.

Lemma step_expired s e s' :
  expired s = true -> step s e = Some s' ->
  expired s' = true /\ S (remaining s') <= remaining s.
Proof.
  intros He. unfold remaining.
  assert (forall i p q, threads s !! i = Some p -> weight q < weight p ->
    S (sum_list_with weight (<[i := q]> (threads s))) <= sum_list_with weight (threads s)) as Hw.
  { intros i p q Hi Hq. pose proof (sum_insert _ _ _ q Hi). lia. }
  destruct e as [| i | i | i r | i | i]; cbn [step]; rewrite ?He, ?andb_true_r; try done.
  - destruct (_ && _) eqn:E; [| done]. intros [= <-]. breflect. split; [done |]. eapply Hw; [eassumption |]. cbn. lia.
  - case_bool_decide; [| done]. intros [= <-]. split; [done |]. eapply Hw; [eassumption |]. cbn. lia.
  - destruct (threads s !! i) as [[| late | |] |] eqn:Hi; try done. destruct (late && _) eqn:Hl; [done |]. intros [= <-].
    split; [by destruct r |]. destruct r; cbn [answered concluded called at_ threads];
      (eapply Hw; [eassumption |]); destruct late; cbn; try lia. by rewrite bool_decide_eq_true_2 in Hl.
  - case_bool_decide; [| done]. intros [= <-]. split; [done |]. eapply Hw; [eassumption |]. cbn. lia.
  - case_bool_decide; [| done]. intros [= <-]. split; [done |]. eapply Hw; [eassumption |]. cbn. lia.
Qed.

Lemma runs_expired s l s' :
  expired s = true -> runs s l = Some s' -> length l + remaining s' <= remaining s /\ expired s' = true.
Proof.
  revert s. induction l as [| e l IH]; intros s He; cbn; [intros [= <-]; split; [lia | done] |].
  destruct (step s e) as [s1 |] eqn:E; [| done]. cbn. destruct (step_expired _ _ _ He E) as [He1 Hw].
  intros H. destruct (IH _ He1 H) as [Hl ?]. split; [lia | done].
Qed.

Lemma settled_spec s : settled s = true <-> forall i p, threads s !! i = Some p -> p = Finished.
Proof.
  unfold settled. rewrite forallb_elem. split.
  - intros H i p Hi. apply list_elem_of_lookup_2, H in Hi. by apply bool_decide_eq_true in Hi.
  - intros H p Hp. apply list_elem_of_lookup_1 in Hp as [i Hi]. apply bool_decide_eq_true. by eapply H.
Qed.

(** While a goroutine is left, one of them can go on: whoever waits for a slot
    can give up once the time is up. *)
Lemma expired_progress s : expired s = true -> settled s = false -> exists e s', step s e = Some s'.
Proof.
  intros He Hs. destruct (existsb (fun p => negb (bool_decide (p = Finished))) (threads s)) eqn:E.
  - apply existsb_elem in E as (p & Hp & Hn). apply list_elem_of_lookup_1 in Hp as [i Hi]. destruct p as [| late | |]; [| | | done].
    + exists (GiveUp i). eexists. cbn [step]. by rewrite bool_decide_eq_true_2, He by done.
    + exists (Answer i Gone). eexists. cbn [step]. by rewrite Hi, andb_false_r.
    + exists (Cut i). eexists. cbn [step]. by rewrite bool_decide_eq_true_2, He by done.
  - assert (settled s = true); [| congruence]. apply settled_spec. intros i p Hi.
    destruct (decide (p = Finished)) as [| Hne]; [done |]. exfalso.
    assert (existsb (fun p => negb (bool_decide (p = Finished))) (threads s) = true); [| congruence].
    apply existsb_elem. exists p. split; [by eapply list_elem_of_lookup_2 |]. by rewrite bool_decide_eq_false_2.
Qed.

Lemma weight_le l : sum_list_with weight l <= 4 * length l.
Proof. induction l as [| p l IH]; cbn; [lia |]. assert (weight p <= 4) by (destruct p as [| [] | |]; cbn; lia). lia. Qed.

Section drain.
Context {Qt : Quoting}.

(** What a pod is, when the plan is to evict it. *)
Lemma classify_evict pod force reason :
  classify pod force = (OutcomeEvict, reason) ->
  p_Deleting pod = false /\ (p_Phase pod ∉ ["Succeeded"; "Failed"]) /\ p_Mirror pod = false /\
  p_Controller pod <> Some "DaemonSet" /\
  (force = false -> p_Controller pod <> None /\ emptyDirVolume (p_Volumes pod) = "").
Proof.
  unfold classify. destruct (p_Deleting pod); [done |]. destruct (_ || _) eqn:Ep; [done |]. destruct (p_Mirror pod); [done |].
  apply orb_false_iff in Ep as [E1 E2]. breflect. destruct (bool_decide (p_Controller pod = _)) eqn:Ec; [done |]. breflect.
  intros H. repeat split; try done; [set_solver | |].
  - intros E. by rewrite E in *; destruct force.
  - destruct force; [done |]. case_bool_decide; [done |]. by destruct (decide (emptyDirVolume (p_Volumes pod) = "")) as [| Hv];
      [| rewrite bool_decide_eq_true_2 in H by done].
Qed.

Lemma planned_evictable force pod :
  evictable (planned force pod) = true -> exists reason, classify pod force = (OutcomeEvict, reason).
Proof.
  unfold evictable, planned. destruct (classify pod force) as [outcome reason]. intros H. apply bool_decide_eq_true in H.
  cbn in H. subst. eauto.
Qed.

Lemma planned_outcome force pod : po_Outcome (pl_outcome (planned force pod)) = (classify pod force).1.
Proof. unfold planned. by destruct (classify pod force). Qed.

Lemma planned_evictable_eq force pod : evictable (planned force pod) = bool_decide ((classify pod force).1 = OutcomeEvict).
Proof. unfold evictable. by rewrite planned_outcome. Qed.

Lemma planned_same force pod : same_pod (pl_outcome (planned force pod)) (MkPodOutcome (p_Namespace pod) (p_Name pod) "" "").
Proof. unfold planned. by destruct (classify pod force). Qed.

(** A plan reports no eviction. *)
Lemma classify_not_evicted pod force : (classify pod force).1 <> OutcomeEvicted.
Proof. unfold classify. by repeat case_match. Qed.

Lemma kept_planned force pod p o n :
  kept (planned force pod) p o n ->
  po_Namespace o = p_Namespace pod /\ po_Name o = p_Name pod /\
  (po_Outcome o = OutcomeEvicted <-> n = 1%Z) /\ (n <= 1)%Z /\
  ((classify pod force).1 <> OutcomeEvict -> o = pl_outcome (planned force pod)) /\
  (p = Finished -> (classify pod force).1 = OutcomeEvict -> po_Outcome o ∈ conclusions).
Proof.
  intros [[-> ->] H]. destruct (planned_same force pod) as [-> ->]. split; [done |]. split; [done |].
  pose proof (classify_not_evicted pod force) as Hne. rewrite <- planned_outcome in *. unfold evictable in H.
  case_bool_decide as He; [| destruct H as (-> & -> & ->); by repeat split].
  destruct (decide (p = Finished)) as [-> | Hp]; [rewrite bool_decide_eq_true_2 in H by done |
    rewrite bool_decide_eq_false_2 in H by done; destruct H as [-> ->]; by repeat split].
  destruct H as [Hc ->]. split; [| by case_bool_decide].
  case_bool_decide; by split.
Qed.

(** C23: however the goroutines of a drain, the API server and the end of the
    time interleave: no more than eight evictions are under way; a pod is asked
    to be evicted only when it is not already going, finished, static or of a
    daemonset, and, short of force, only when a controller would recreate it
    and it keeps no emptyDir; every other pod keeps the outcome of the plan;
    each outcome stays the one of its own pod; a pod is reported evicted if and
    only if exactly one eviction of it succeeded; and once all have returned,
    each evicted pod has a final outcome. *)
Theorem drain_safe force pods l s :
  runs (started (map (planned force) pods)) l = Some s ->
  (holding s <= evictConcurrency)%Z /\
  (forall i r, (i, r) ∈ calls s -> exists pod, pods !! i = Some pod /\
    p_Deleting pod = false /\ (p_Phase pod ∉ ["Succeeded"; "Failed"]) /\ p_Mirror pod = false /\
    p_Controller pod <> Some "DaemonSet" /\
    (force = false -> p_Controller pod <> None /\ emptyDirVolume (p_Volumes pod) = "")) /\
  (forall i pod o, pods !! i = Some pod -> outcomes s !! i = Some o ->
    po_Namespace o = p_Namespace pod /\ po_Name o = p_Name pod /\
    (po_Outcome o = OutcomeEvicted <-> successes i s = 1%Z) /\
    (successes i s <= 1)%Z /\
    ((classify pod force).1 <> OutcomeEvict -> o = pl_outcome (planned force pod)) /\
    (settled s = true -> (classify pod force).1 = OutcomeEvict -> po_Outcome o ∈ conclusions)).
Proof.
  intros H. apply (runs_invariant (map (planned force) pods)) in H as Hinv; [| apply started_invariant].
  split; [apply Hinv | split].
  - intros i r Hc. pose proof (inv_calls _ _ Hinv) as Hall. eapply list.Forall_forall in Hall as (plan & Hp & He); [| exact Hc].
    cbn [fst] in Hp. change (map (planned force) pods) with (planned force <$> pods) in Hp.
    apply list_lookup_fmap_Some in Hp as (pod & Hpod & Heq). subst plan. exists pod. split; [done |].
    apply planned_evictable in He as [reason He]. by eapply classify_evict.
  - intros i pod o Hpod Ho.
    assert (i < length (threads s)) as Hlt.
    { rewrite (inv_threads _ _ Hinv), <- (inv_outcomes _ _ Hinv). by eapply lookup_lt_Some. }
    apply lookup_lt_is_Some_2 in Hlt as [p Hp].
    pose proof (inv_kept _ _ Hinv i _ p o (map_lookup _ _ _ _ Hpod) Hp Ho) as Hk.
    apply kept_planned in Hk as (? & ? & ? & ? & ? & Hf). repeat (split; [done |]).
    intros Hs. apply Hf. by eapply settled_spec in Hs.
Qed.

(** C37: a drain ends: once its time is up, or its caller is gone, no schedule
    takes more than four steps for each pod; one that is stuck has let every
    goroutine return, and every state reached short of that can be left. *)
Theorem drain_ends force pods before s :
  runs (started (map (planned force) pods)) before = Some s -> expired s = true ->
  (forall l s', runs s l = Some s' -> length l <= 4 * length pods) /\
  (forall l s', runs s l = Some s' -> (forall e, step s' e = None) -> settled s' = true) /\
  (exists l s', runs s l = Some s' /\ settled s' = true).
Proof.
  intros H He. apply (runs_invariant (map (planned force) pods)) in H as Hinv; [| apply started_invariant].
  assert (forall l s', runs s l = Some s' -> (forall e, step s' e = None) -> settled s' = true) as Hstuck.
  { intros l s' Hl Hnone. destruct (runs_expired _ _ _ He Hl) as [_ He']. destruct (settled s') eqn:E; [done |].
    destruct (expired_progress _ He' E) as (e & s2 & Hs). by rewrite Hnone in Hs. }
  split; [| split; [done |]].
  - intros l s' Hl. destruct (runs_expired _ _ _ He Hl) as [Hle _]. pose proof (weight_le (threads s)) as Hw.
    rewrite (inv_threads _ _ Hinv), length_map in Hw. unfold remaining in Hle at 2. lia.
  - clear - He. remember (remaining s) as n eqn:En. revert s He En. induction n as [n IH] using lt_wf_ind. intros s He ->.
    destruct (settled s) eqn:E; [by exists [], s |]. destruct (expired_progress _ He E) as (e & s1 & Hs).
    destruct (step_expired _ _ _ He Hs) as [He1 Hw].
    destruct (IH _ ltac:(exact Hw) s1 He1 eq_refl) as (l & s' & Hl & Hset). exists (e :: l), s'. cbn. by rewrite Hs.
Qed.
End drain.

Definition example_pods : list Pod :=
  [MkPod "shop" "web" false "Running" false (Some "ReplicaSet") [("config", false)];
   MkPod "kube-system" "proxy" false "Running" false (Some "DaemonSet") [];
   MkPod "shop" "cart" false "Running" false (Some "ReplicaSet") []].

(** The budget holds the cart until the time is up. *)
Definition example_events : list event :=
  [Acquire 0; Acquire 2; Answer 2 Busy; Answer 0 Evicted; Wake 2; Answer 2 Busy; Expire; Cut 2].

Lemma drain_safe_witness :
  exists s, runs (started (map (planned (Qt := Access.exampleQuoting) false) example_pods)) example_events = Some s /\
    holding s = 0%Z /\ settled s = true /\
    (forall o, outcomes s !! 0 = Some o -> successes 0 s = 1%Z <-> po_Outcome o = OutcomeEvicted).
Proof.
  eexists. split; [vm_compute; reflexivity |]. split; [by vm_compute |]. split; [by vm_compute |].
  intros o Ho. symmetry. eapply (drain_safe (Qt := Access.exampleQuoting) false example_pods example_events); [by vm_compute | | exact Ho].
  reflexivity.
Defined.

Lemma drain_ends_witness :
  exists s, runs (started (map (planned (Qt := Access.exampleQuoting) false) example_pods)) (take 7 example_events) = Some s /\
    exists l s', runs s l = Some s' /\ settled s' = true.
Proof.
  eexists. split; [vm_compute; reflexivity |].
  apply (drain_ends (Qt := Access.exampleQuoting) false example_pods (take 7 example_events)); by vm_compute.
Defined.

End Drain.
