(* ===== verification/Actions.v ===== *)
(** internal/actions: the changes a user asks of an object, as programs over the
    calls of [Kube]: scale, restart, cordon, drain, suspend, trigger and undo. *)

From S2P Require Import Prelude Api Text Unstr Access Issues Routes Program Respond Kube Rollout Drain.

Module Actions.
Import Api Text Unstr Kube.

Definition appsGroup : string := "apps".
Definition batchGroup : string := "batch".
Definition specField : string := "spec".
Definition restartAnnotation : string := "kubectl.kubernetes.io/restartedAt".
Definition instantiateAnnotation : string := "cronjob.kubernetes.io/instantiate".

Definition scalable : list (string * string) :=
  [(appsGroup, "deployments"); (appsGroup, "statefulsets"); (appsGroup, "replicasets"); ("", "replicationcontrollers")].
Definition restartable : list (string * string) :=
  [(appsGroup, "deployments"); (appsGroup, "statefulsets"); (appsGroup, "daemonsets")].
Definition revertible : list (string * string) :=
  [(appsGroup, "deployments"); (appsGroup, "statefulsets"); (appsGroup, "daemonsets")].
Definition cronJobs : string * string := (batchGroup, "cronjobs").

Record Request := MkRequest {
  Ref : ObjectRef;
  Action : string;
  Replicas : Z;
  Revision : Z;
  Force : bool;
  DryRun : bool;
}.

Record ActionResult := MkActionResult {
  ar_Action : string;
  ar_DryRun : bool;
  ar_Message : string;
  ar_Pods : list PodOutcome;
}.

Definition Supported (ref : ObjectRef) (action : string) : bool :=
  let key := (or_Group ref, or_Resource ref) in
  if bool_decide (action = Routes.Scale) then contains scalable key
  else if bool_decide (action = Routes.Restart) then contains restartable key
  else if bool_decide (action = Routes.Cordon) || bool_decide (action = Routes.Uncordon) ||
          bool_decide (action = Routes.Drain) then bool_decide (key = ("", "nodes"))
  else if bool_decide (action = Routes.Suspend) || bool_decide (action = Routes.Resume) ||
          bool_decide (action = Routes.Trigger) then bool_decide (key = cronJobs)
  else if bool_decide (action = Routes.Undo) then contains revertible key
  else false.

Definition Every : list string :=
  [Routes.Scale; Routes.Restart; Routes.Cordon; Routes.Uncordon; Routes.Drain; Routes.Suspend; Routes.Resume;
   Routes.Trigger; Routes.Undo].

Definition known (action : string) : bool := contains Every action.

Definition describe (ref : ObjectRef) : string :=
  if bool_decide (or_Group ref = "") then or_Resource ref else or_Group ref +s+ "/" +s+ or_Resource ref.

Definition plural (replicas : Z) : string := if (replicas =? 1)%Z then "replica" else "replicas".

Section actions.
Context {U : Type} `{!Unstructured U, !Described U} {Fl : Fields} {Tm : RFC3339} {Qt : Quoting}.

Definition program A := prog (answer U) (result Respond.error A).

Definition fails {A} (e : Respond.error) : program A := Return (Err e).

(** A merge patch of the object named. *)
Definition patched (ref : ObjectRef) (subresource : string) (body : amap) : program U := ask (Patch ref subresource body).

Definition scale (req : Request) : program ActionResult :=
  if (Replicas req <? 0)%Z then fails (Respond.New "replicas must be zero or more")
  else
    _ <-? patched (Ref req) "scale" [(specField, AMap [("replicas", AInt (Replicas req))])];;
    Return (Ok (MkActionResult Routes.Scale false
      ("Scaled " +s+ or_Name (Ref req) +s+ " to " +s+ Itoa (Replicas req) +s+ " " +s+ plural (Replicas req) +s+ ".") [])).

Definition restart (req : Request) (now : time) : program ActionResult :=
  let stamp := FormatTime now in
  _ <-? patched (Ref req) "" [(specField, AMap [("template", AMap [("metadata", AMap [("annotations",
      AMap [(restartAnnotation, AString stamp)])])])])];;
  Return (Ok (MkActionResult Routes.Restart false ("Rollout restart requested at " +s+ stamp +s+ ".") [])).

Definition patchSchedulable (ref : ObjectRef) (schedulable : bool) : program U :=
  patched ref "" [(specField, AMap [("unschedulable", ABool (negb schedulable))])].

Definition setSchedulable (ref : ObjectRef) (schedulable : bool) : program ActionResult :=
  _ <-? patchSchedulable ref schedulable;;
  Return (Ok (if schedulable
    then MkActionResult Routes.Uncordon false (or_Name ref +s+ " accepts new pods.") []
    else MkActionResult Routes.Cordon false (or_Name ref +s+ " no longer accepts new pods. Running pods stay.") [])).

Definition drain (req : Request) : program ActionResult :=
  plans <-? Drain.planFor (or_Name (Ref req)) (Force req);;
  if DryRun req then
    Return (Ok (MkActionResult Routes.Drain true (Drain.planMessage plans) (Drain.outcomesOf plans)))
  else
    let blocked := Drain.countOf plans Drain.OutcomeBlocked in
    if (0 <? blocked)%Z then
      fails (Respond.New (Itoa blocked +s+ " " +s+ Drain.podWord blocked +s+
        " cannot be evicted safely; review them and drain with force to proceed"))
    else
      _ <-? patchSchedulable (Ref req) false;;
      evicted <-- ask (EvictPods plans);;
      Return (Ok (MkActionResult Routes.Drain false (Drain.drainMessage evicted.1 evicted.2) evicted.1)).

Definition setSuspended (ref : ObjectRef) (suspended : bool) : program ActionResult :=
  _ <-? patched ref "" [(specField, AMap [("suspend", ABool suspended)])];;
  Return (Ok (if suspended
    then MkActionResult Routes.Suspend false ("Suspended " +s+ or_Name ref +s+ ". Runs already going are left alone.") []
    else MkActionResult Routes.Resume false ("Resumed " +s+ or_Name ref +s+ ".") [])).

Definition jobFrom (cron : U) : result Respond.error amap :=
  match UMap cron [specField; "jobTemplate"; specField] with
  | None => Err (Respond.New "the cron job carries no job template")
  | Some spec =>
      let annotations := default [] (UMap cron [specField; "jobTemplate"; "metadata"; "annotations"]) in
      let annotations := aset annotations instantiateAnnotation (AString "manual") in
      let meta :=
        [("generateName", AString (GetName cron +s+ "-"));
         ("namespace", AString (GetNamespace cron));
         ("annotations", AMap annotations);
         ("ownerReferences", ASlice [AMap [("apiVersion", AString (batchGroup +s+ "/v1")); ("kind", AString "CronJob");
            ("name", AString (GetName cron)); ("uid", AString (GetUID cron))]])] in
      let meta :=
        match UMap cron [specField; "jobTemplate"; "metadata"; "labels"] with
        | Some labels => aset meta "labels" (AMap labels) | None => meta end in
      Ok [("apiVersion", AString (batchGroup +s+ "/v1")); ("kind", AString "Job"); ("metadata", AMap meta);
          (specField, AMap spec)]
  end.

Definition trigger (ref : ObjectRef) : program ActionResult :=
  cron <-? ask (GetObject ref);;
  match jobFrom cron with
  | Err e => fails e
  | Ok job =>
      made <-? ask (CreateJob (or_Namespace ref) job);;
      Return (Ok (MkActionResult Routes.Trigger false ("Started job " +s+ GetName made +s+ ".") []))
  end.

Definition undo (req : Request) : program ActionResult :=
  if (Revision req =? 0)%Z then fails (Respond.New "undo needs a revision to go back to")
  else
    template <-? Rollout.Template (Ref req) (Revision req);;
    if DryRun req then
      Return (Ok (MkActionResult Routes.Undo true
        (or_Name (Ref req) +s+ " would go back to the pod template of revision " +s+ Itoa (Revision req) +s+ ".") []))
    else
      _ <-? patched (Ref req) "" [(specField, AMap [("template", AMap template)])];;
      Return (Ok (MkActionResult Routes.Undo false
        ("Rolled " +s+ or_Name (Ref req) +s+ " back to revision " +s+ Itoa (Revision req) +s+ ".") [])).

Definition unknown (action : string) : Respond.error := Respond.New ("unknown action " +s+ Quote action).

Definition Do (req : Request) (now : time) : program ActionResult :=
  if bool_decide (or_Name (Ref req) = "") then fails (Respond.New "name is required")
  else if negb (known (Action req)) then fails (unknown (Action req))
  else if negb (Supported (Ref req) (Action req)) then
    fails (Respond.Wrapped Respond.ErrUnsupported
      ("action is not supported for this resource: " +s+ Action req +s+ " on " +s+ describe (Ref req)))
  else if bool_decide (Action req = Routes.Scale) then scale req
  else if bool_decide (Action req = Routes.Restart) then restart req now
  else if bool_decide (Action req = Routes.Cordon) then setSchedulable (Ref req) false
  else if bool_decide (Action req = Routes.Uncordon) then setSchedulable (Ref req) true
  else if bool_decide (Action req = Routes.Drain) then drain req
  else if bool_decide (Action req = Routes.Suspend) then setSuspended (Ref req) true
  else if bool_decide (Action req = Routes.Resume) then setSuspended (Ref req) false
  else if bool_decide (Action req = Routes.Trigger) then trigger (Ref req)
  else if bool_decide (Action req = Routes.Undo) then undo req
  else fails (unknown (Action req)).

(** ** What an action may call *)

(** A call an action makes: it reads, or it changes only what the request
    names, and only where the action is supported. *)
Definition within (req : Request) (c : call) : Prop :=
  match c with
  | GetObject _ | ListObjects _ => True
  | ListPods node => node = or_Name (Ref req)
  | Patch ref _ _ => ref = Ref req /\ Supported (Ref req) (Action req) = true
  | CreateJob namespace _ =>
      Action req = Routes.Trigger /\ namespace = or_Namespace (Ref req) /\ Supported (Ref req) (Action req) = true
  | EvictPods plans =>
      Action req = Routes.Drain /\ DryRun req = false /\ Drain.countOf plans Drain.OutcomeBlocked = 0%Z /\
      exists pods, plans = map (Drain.planned (Force req)) pods
  | Update _ _ | Delete _ _ | Record_ _ => False
  end.

Lemma only_bindr {A B} P (p : program A) (f : A -> program B) :
  only P p -> (forall a, only P (f a)) -> only P (bindr p f).
Proof. intros Hp Hf. apply only_bind; [done |]. by intros [a | e]. Qed.

Lemma only_history P ref : (forall r, P (GetObject r)) -> (forall r, P (ListObjects r)) -> only P (Rollout.history (U := U) ref).
Proof.
  intros Hg Hl. unfold Rollout.history, Rollout.listed.
  repeat case_match; try done; (apply only_bindr; [split; [apply Hg | done] | intros _]);
    (apply only_bindr; [split; [apply Hl | done] | done]).
Qed.

Lemma only_template P ref number :
  (forall r, P (GetObject r)) -> (forall r, P (ListObjects r)) -> only P (Rollout.Template (U := U) ref number).
Proof. intros Hg Hl. apply only_bindr; [by apply only_history | done]. Qed.

(** Sequences of calls: one call, then the rest. *)
Ltac onlys := repeat first [apply only_bindr; [| intros ?] | apply only_bind; [| intros ?]].

Lemma action_within req now : only (within req) (Do req now).
Proof.
  unfold Do. destruct (bool_decide (or_Name _ = "")); [done |]. destruct (known _); [| done]. cbn [negb].
  destruct (Supported (Ref req) (Action req)) eqn:Hs; [| done]. cbn [negb].
  case_bool_decide. { unfold scale. case_match; [done |]. onlys; [| done]. by repeat split. }
  case_bool_decide. { unfold restart. onlys; [| done]. by repeat split. }
  case_bool_decide. { unfold setSchedulable, patchSchedulable. onlys; [| done]. by repeat split. }
  case_bool_decide. { unfold setSchedulable, patchSchedulable. onlys; [| done]. by repeat split. }
  case_bool_decide as Ed. { unfold drain, Drain.planFor, patchSchedulable, bindr, ask. cbn. split; [done |]. intros [pods | e]; [| done].
    cbn. destruct (DryRun req) eqn:Edry; [done |]. destruct (Z.ltb_spec 0 (Drain.countOf (map (Drain.planned (Force req)) pods) Drain.OutcomeBlocked)) as [| Hle];
      [done |]. cbn. split; [done |]. intros [u | e]; [| done]. cbn. split; [| done]. split; [done |]. split; [done |]. split; [| eauto].
    pose proof (counted_nonneg (fun plan => bool_decide (po_Outcome (pl_outcome plan) = Drain.OutcomeBlocked))
      (map (Drain.planned (Force req)) pods)). unfold Drain.countOf in *. lia. }
  case_bool_decide. { unfold setSuspended. onlys; [| done]. by repeat split. }
  case_bool_decide. { unfold setSuspended. onlys; [| done]. by repeat split. }
  case_bool_decide. { unfold trigger. onlys; [by repeat split |]. case_match; [| done]. onlys; [| done]. by repeat split. }
  case_bool_decide; [| done].
  unfold undo. case_match; [done |]. apply only_bindr; [by apply only_template | intros template].
  case_match; [done |]. onlys; [| done]. by repeat split.
Qed.

(** A drain or an undo that is only tried changes nothing. *)
Lemma Do_dry_run req now :
  DryRun req = true -> Action req = Routes.Drain \/ Action req = Routes.Undo -> only (fun c => writes c = false) (Do req now).
Proof.
  intros Hd Ha. unfold Do. destruct (bool_decide (or_Name _ = "")); [done |]. destruct (known _); [| done]. cbn [negb].
  destruct (Supported _ _); [| done]. cbn [negb]. destruct Ha as [-> | ->];
    (repeat rewrite bool_decide_eq_false_2 by discriminate); rewrite bool_decide_eq_true_2 by done.
  - unfold drain, Drain.planFor, bindr, ask. cbn. split; [done |]. intros [pods | e]; [| done]. cbn. by rewrite Hd.
  - unfold undo. case_match; [done |]. apply only_bindr; [by apply only_template | intros template]. by rewrite Hd.
Qed.

(** What an action makes of what it was answered: the pods evicted are those
    the named node was said to run, as planned, and the job created is the one
    the named cron job was said to make. *)
Definition drawn (req : Request) (t : list (event (answer := answer U))) (c : call) : Prop :=
  match c with
  | EvictPods plans =>
      exists pods, existT (ListPods (or_Name (Ref req))) (Ok pods) ∈ t /\ plans = map (Drain.planned (Force req)) pods
  | CreateJob _ job => exists cron, existT (GetObject (Ref req)) (Ok cron) ∈ t /\ jobFrom cron = Ok job
  | _ => True
  end.

(** A call that is made whatever was answered. *)
Definition plainly (c : call) : Prop := match c with EvictPods _ | CreateJob _ _ => False | _ => True end.

Lemma plainly_drawn {A} req t (p : prog (answer U) A) : only plainly p -> follows (drawn req) t p.
Proof. intros Hp. apply follows_only. eapply only_mono; [| exact Hp]. by intros []. Qed.

Lemma action_drawn req now t : follows (drawn req) t (Do req now).
Proof.
  unfold Do. destruct (bool_decide (or_Name _ = "")); [done |]. destruct (known _); [| done]. cbn [negb].
  destruct (Supported (Ref req) (Action req)); [| done]. cbn [negb].
  case_bool_decide. { apply plainly_drawn. unfold scale. case_match; [done |]. by onlys. }
  case_bool_decide. { apply plainly_drawn. unfold restart. by onlys. }
  case_bool_decide. { apply plainly_drawn. unfold setSchedulable, patchSchedulable. by onlys. }
  case_bool_decide. { apply plainly_drawn. unfold setSchedulable, patchSchedulable. by onlys. }
  case_bool_decide. { unfold drain, Drain.planFor, patchSchedulable, bindr, ask. cbn. split; [done |]. intros [pods | e]; [| done].
    cbn. destruct (DryRun req); [done |]. case_match; [done |]. cbn. split; [done |]. intros [u | e]; [| done]. cbn. split; [| done].
    exists pods. split; [set_solver | done]. }
  case_bool_decide. { apply plainly_drawn. unfold setSuspended. by onlys. }
  case_bool_decide. { apply plainly_drawn. unfold setSuspended. by onlys. }
  case_bool_decide. { unfold trigger, bindr, ask. cbn. split; [done |]. intros [cron | e]; [| done]. cbn. destruct (jobFrom cron) as [job | e] eqn:Ej; [| done].
    cbn. split; [| by intros []]. exists cron. split; [set_solver | done]. }
  case_bool_decide; [| done]. apply plainly_drawn.
  unfold undo. case_match; [done |]. apply only_bindr; [by apply only_template | intros template]. case_match; [done |]. by onlys.
Qed.
End actions.

End Actions.
