(* ===== verification/Flux.v ===== *)
(** internal/flux/actions.go: reconciling and pausing what Flux owns, with the
    source an object comes from. *)

From S2P Require Import Prelude Api Text Unstr Access Program Respond Kube.

(** [time.RFC3339Nano]. *)
Class Stamps := FormatNano : time -> string.

Module Flux.
Import Api Unstr Kube.

Definition specField : string := "spec".
Definition groupSuffix : string := ".toolkit.fluxcd.io".
Definition reconcileAnnotation : string := "reconcile.fluxcd.io/requestedAt".

Definition Reconcile : string := "reconcile".
Definition ReconcileSource : string := "reconcile-with-source".
Definition Suspend : string := "suspend".
Definition Resume : string := "resume".

Record FluxActionResult := MkFluxActionResult { fr_Action : string; fr_RequestedAt : string }.

Definition IsFluxGroup (group : string) : bool := has_suffix group groupSuffix.

Section flux.
Context {U : Type} `{!Unstructured U} {St : Stamps} {Qt : Quoting}.

Definition program A := prog (answer U) (result Respond.error A).

Definition suspendPatch (value : bool) : amap := [(specField, AMap [("suspend", ABool value)])].

Definition patchFor (action requestedAt : string) : result Respond.error amap :=
  if bool_decide (action = Reconcile) || bool_decide (action = ReconcileSource) then
    Ok [("metadata", AMap [("annotations", AMap [(reconcileAnnotation, AString requestedAt)])])]
  else if bool_decide (action = Suspend) then Ok (suspendPatch true)
  else if bool_decide (action = Resume) then Ok (suspendPatch false)
  else Err (Respond.New ("unknown action " +s+ Quote action)).

Fixpoint sourceAt (obj : U) (paths : list (list string)) : string * string * string :=
  match paths with
  | [] => ("", "", "")
  | path :: rest =>
      let kind := UString obj (path ++ ["kind"]) in
      let name := UString obj (path ++ ["name"]) in
      if bool_decide (kind <> "") && bool_decide (name <> "")
      then (kind, name, UString obj (path ++ ["namespace"])) else sourceAt obj rest
  end.

Definition SourceRef (obj : U) : string * string * string :=
  sourceAt obj [[specField; "chartRef"]; [specField; "sourceRef"]; [specField; "chart"; specField; "sourceRef"]].

(** The descriptors in the order the map is walked. *)
Fixpoint descriptorOf (descs : list ResourceDescriptor) (kind : string) : option ResourceDescriptor :=
  match descs with
  | [] => None
  | desc :: rest =>
      if negb (IsFluxGroup (rd_Group desc)) then descriptorOf rest kind
      else if bool_decide (rd_Kind desc <> kind) then descriptorOf rest kind
      else Some desc
  end.

Definition reconcileSource (descs : list ResourceDescriptor) (ref : ObjectRef) (requestedAt : string) : program U :=
  obj <-? ask (GetObject ref);;
  let '(kind, name, namespace) := SourceRef obj in
  if bool_decide (kind = "") || bool_decide (name = "") then
    Return (Err (Respond.Wrapped Respond.ErrNoSource
      ("this object names no source to reconcile first: " +s+ or_Name ref)))
  else
    let namespace := if bool_decide (namespace = "") then or_Namespace ref else namespace in
    match descriptorOf descs kind with
    | None =>
        Return (Err (Respond.Wrapped Respond.ErrNoSource
          ("this object names no source to reconcile first: this cluster serves no " +s+ kind)))
    | Some desc =>
        let source := MkObjectRef (rd_Group desc) (rd_Version desc) (rd_Resource desc) namespace name in
        match patchFor Reconcile requestedAt with
        | Err e => Return (Err e)
        | Ok patch => ask (Patch source "" patch)
        end
    end.

Definition Do (descs : list ResourceDescriptor) (ref : ObjectRef) (action : string) (now : time) : program FluxActionResult :=
  if negb (IsFluxGroup (or_Group ref)) then
    Return (Err (Respond.New (Quote (or_Group ref) +s+ " is not a flux resource group")))
  else
    let requestedAt := if bool_decide (action = Reconcile) || bool_decide (action = ReconcileSource) then FormatNano now else "" in
    let rest : program FluxActionResult :=
      match patchFor action requestedAt with
      | Err e => Return (Err e)
      | Ok patch =>
          _ <-? ask (Patch ref "" patch);;
          Return (Ok (MkFluxActionResult action requestedAt))
      end in
    if bool_decide (action = ReconcileSource) then _ <-? reconcileSource descs ref requestedAt;; rest else rest.

(** The objects an action may patch: the one named, and, to reconcile it with
    its source, an object of the flux groups. *)
Definition within (ref : ObjectRef) (action : string) (c : call) : Prop :=
  match c with
  | GetObject r => r = ref
  | Patch r sub body =>
      sub = "" /\ action ∈ [Reconcile; ReconcileSource; Suspend; Resume] /\
      IsFluxGroup (or_Group r) = true /\ (r = ref \/ action = ReconcileSource)
  | _ => False
  end.

Lemma descriptorOf_flux descs kind desc :
  descriptorOf descs kind = Some desc -> desc ∈ descs /\ IsFluxGroup (rd_Group desc) = true /\ rd_Kind desc = kind.
Proof.
  induction descs as [| d descs IH]; cbn; [done |]. destruct (IsFluxGroup (rd_Group d)) eqn:E; cbn.
  - case_bool_decide as Ek; [intros H; destruct (IH H) as (? & ?); split; [by right | done] |].
    intros [= <-]. repeat split; [left | done |]. by destruct (decide (rd_Kind d = kind)).
  - intros H. destruct (IH H) as (? & ?). split; [by right | done].
Qed.

Lemma patchFor_known action stamp patch :
  patchFor action stamp = Ok patch -> action ∈ [Reconcile; ReconcileSource; Suspend; Resume].
Proof.
  unfold patchFor. destruct (_ || _) eqn:E; [intros _ | repeat case_bool_decide; intros; try done; subst; set_solver].
  apply orb_true_iff in E as [E | E]; apply bool_decide_eq_true in E; set_solver.
Qed.

Lemma flux_within descs ref action now : only (within ref action) (Do descs ref action now).
Proof.
  unfold Do. destruct (IsFluxGroup (or_Group ref)) eqn:Hg; [| done]. cbn [negb].
  generalize (if bool_decide (action = Reconcile) || bool_decide (action = ReconcileSource) then FormatNano now else "") as stamp.
  intros stamp.
  assert (only (within ref action) (match patchFor action stamp with
    | Err e => Return (Err e)
    | Ok patch => _ <-? ask (Patch ref "" patch);; Return (Ok (MkFluxActionResult action stamp)) end :
    program FluxActionResult)) as Hrest.
  { destruct (patchFor action stamp) as [patch | e] eqn:Hp; [| done]. apply patchFor_known in Hp. cbn. split; [| by intros []].
    repeat split; [done | done | by left]. }
  case_bool_decide as Ea; [| done]. apply only_bind; [| by intros [u | e]].
  unfold reconcileSource. apply only_bind; [by split |]. intros [obj | e]; [| done].
  destruct (SourceRef obj) as [[kind name] namespace]. destruct (_ || _); [done |].
  destruct (descriptorOf descs kind) as [desc |] eqn:Hd; [| done]. apply descriptorOf_flux in Hd as (_ & Hf & _).
  cbn. split; [| done]. subst action. repeat split; [set_solver | done | by right].
Qed.
End flux.

End Flux.
