(* ===== verification/Argocd.v ===== *)
(** internal/argocd/actions.go: syncing, pausing, terminating and rolling back an
    application of Argo CD. *)

From S2P Require Import Prelude Api Text Unstr Access Program Respond Kube.

Module Argocd.
Import Api Text Unstr Kube.

Definition Group : string := "argoproj.io".
Definition applications : string := "applications".
Definition refreshAnnotation : string := "argocd.argoproj.io/refresh".
Definition normalRefresh : string := "normal".
Definition hardRefresh : string := "hard".
Definition fieldManager : string := "spinoza".
Definition runningPhase : string := "Running".
Definition terminatingPhase : string := "Terminating".

Definition Sync : string := "sync".
Definition Refresh : string := "refresh".
Definition HardRefresh : string := "hard-refresh".
Definition Terminate : string := "terminate".
Definition Suspend : string := "suspend".
Definition Resume : string := "resume".
Definition Rollback : string := "rollback".

Definition refuse {A} (reason : string) : result Respond.error A := Err (Respond.Wrapped Respond.ErrRefused reason).

Record Resource := MkResource { rs_Group : string; rs_Kind : string; rs_Name : string; rs_Namespace : string }.

Record Request := MkRequest {
  Action : string;
  Prune : bool;
  DryRun : bool;
  Force : bool;
  Replace : bool;
  ServerSide : bool;
  ApplyOnly : bool;
  Revision : Z;
  Resources : list Resource;
}.

Definition IsArgoGroup (group : string) : bool := bool_decide (group = Group).

Definition refreshPatch (depth : string) : amap :=
  [("metadata", AMap [("annotations", AMap [(refreshAnnotation, AString depth)])])].

Definition operationOf (sync : amap) : amap :=
  [("operation", AMap
    [("initiatedBy", AMap [("username", AString fieldManager)]);
     ("info", ASlice [AMap [("name", AString "Reason"); ("value", AString "requested from spinoza")]]);
     ("sync", AMap sync)])].

Definition optionsOf (req : Request) : list any :=
  (if Replace req then [AString "Replace=true"] else []) ++
  (if ServerSide req then [AString "ServerSideApply=true"] else []).

Definition strategyOf (req : Request) : option amap :=
  if ApplyOnly req then Some [("apply", AMap [("force", ABool (Force req))])]
  else if Force req then Some [("hook", AMap [("force", ABool true)])]
  else None.

Definition resourcesOf (resources : list Resource) : list any :=
  map (fun one =>
    let entry := [("kind", AString (rs_Kind one)); ("name", AString (rs_Name one))] in
    let entry := if bool_decide (rs_Group one <> "") then aset entry "group" (AString (rs_Group one)) else entry in
    let entry := if bool_decide (rs_Namespace one <> "") then aset entry "namespace" (AString (rs_Namespace one)) else entry in
    AMap entry) resources.

Definition syncOf (req : Request) : amap :=
  let sync := [] in
  let sync := if Prune req then aset sync "prune" (ABool true) else sync in
  let sync := if DryRun req then aset sync "dryRun" (ABool true) else sync in
  let options := optionsOf req in
  let sync := if (0 <? zlen options)%Z then aset sync "syncOptions" (ASlice options) else sync in
  let sync := match strategyOf req with Some strategy => aset sync "syncStrategy" (AMap strategy) | None => sync end in
  if (0 <? zlen (Resources req))%Z then aset sync "resources" (ASlice (resourcesOf (Resources req))) else sync.

Definition alreadyThere (name : string) (on : bool) : result Respond.error amap :=
  if on then refuse (name +s+ " already syncs itself") else refuse (name +s+ " does not sync itself").

Definition notRunning (name phase : string) : result Respond.error amap :=
  if bool_decide (phase = "") then refuse (name +s+ " has no operation to terminate")
  else refuse (name +s+ " has no operation running; the last one is " +s+ phase).

Definition carry (sync entry : amap) (fields : list string) : amap :=
  foldl (fun sync field => match aget entry field with None => sync | Some value => aset sync field value end) sync fields.

Section argo.
Context {U : Type} `{!Unstructured U} {Qt : Quoting}.

Definition program A := prog (answer U) (result Respond.error A).

Definition AutoSyncing (app : U) : bool :=
  match UMap app ["spec"; "syncPolicy"; "automated"] with
  | None => false
  | Some automated => match aget automated "enabled" with Some (ABool enabled) => enabled | _ => true end
  end.

Definition automatedPatch (ref : ObjectRef) (on : bool) : program amap :=
  app <-? ask (GetObject ref);;
  Return (if bool_decide (AutoSyncing app = on) then alreadyThere (or_Name ref) on
    else Ok [("spec", AMap [("syncPolicy", AMap [("automated", AMap [("enabled", ABool on)])])])]).

Definition phaseOf (app : U) : string := UString app ["status"; "operationState"; "phase"].

Definition terminatePatch (ref : ObjectRef) : program amap :=
  app <-? ask (GetObject ref);;
  Return (if bool_decide (phaseOf app <> runningPhase) then notRunning (or_Name ref) (phaseOf app)
    else Ok [("status", AMap [("operationState", AMap [("phase", AString terminatingPhase)])])]).

Fixpoint entryWith (history : list any) (wanted : Z) : option amap :=
  match history with
  | [] => None
  | raw :: rest =>
      match asMap (Some raw) with
      | None => entryWith rest wanted
      | Some entry =>
          match asInt (aget entry "id") with
          | Some id => if bool_decide (id <> wanted) then entryWith rest wanted else Some entry
          | None => entryWith rest wanted
          end
      end
  end.

Definition historyEntry (app : U) (wanted : Z) : option amap := entryWith (USlice app ["status"; "history"]) wanted.

Definition rollbackPatch (ref : ObjectRef) (req : Request) : program amap :=
  app <-? ask (GetObject ref);;
  Return (if AutoSyncing app then refuse (or_Name ref +s+ " syncs itself; suspend auto-sync before rolling back")
    else match historyEntry app (Revision req) with
    | None => refuse (or_Name ref +s+ " has no deployment " +s+ Itoa (Revision req) +s+ " in its history")
    | Some entry => Ok (operationOf (carry (syncOf req) entry ["revision"; "revisions"; "source"; "sources"]))
    end).

Definition patchFor (ref : ObjectRef) (req : Request) : program amap :=
  if bool_decide (Action req = Sync) then Return (Ok (operationOf (syncOf req)))
  else if bool_decide (Action req = Refresh) then Return (Ok (refreshPatch normalRefresh))
  else if bool_decide (Action req = HardRefresh) then Return (Ok (refreshPatch hardRefresh))
  else if bool_decide (Action req = Suspend) then automatedPatch ref false
  else if bool_decide (Action req = Resume) then automatedPatch ref true
  else if bool_decide (Action req = Terminate) then terminatePatch ref
  else if bool_decide (Action req = Rollback) then rollbackPatch ref req
  else Return (Err (Respond.New ("unknown action " +s+ Quote (Action req)))).

(** The result of an action is its name. *)
Definition automationLanded (patched : U) (action : string) : result Respond.error string :=
  if negb (eqb (AutoSyncing patched) (bool_decide (action = Resume))) then
    refuse "this argo cd ignored automated.enabled, so auto-sync is unchanged; pausing it needs argo cd 2.14 or newer"
  else Ok action.

Definition terminationLanded (patched : U) (action : string) : result Respond.error string :=
  if bool_decide (phaseOf patched = runningPhase) then
    refuse "this argo cd kept the operation running, so the application crd takes no status patch; terminate it from the argo cd api instead"
  else Ok action.

Definition landed (patched : U) (action : string) : result Respond.error string :=
  if bool_decide (action = Suspend) || bool_decide (action = Resume) then automationLanded patched action
  else if bool_decide (action = Terminate) then terminationLanded patched action
  else Ok action.

Definition Do (ref : ObjectRef) (req : Request) : program string :=
  if negb (IsArgoGroup (or_Group ref)) then
    Return (Err (Respond.New (Quote (or_Group ref) +s+ " is not an argo cd resource group")))
  else if bool_decide (or_Resource ref <> applications) then
    Return (Err (Respond.New ("only applications can be operated on, not " +s+ Quote (or_Resource ref))))
  else
    patch <-? patchFor ref req;;
    patched <-? ask (Patch ref "" patch);;
    Return (landed patched (Action req)).

(** ** What the actions promise *)

(** The calls of an action: reads and one patch of the application named. *)
Definition within (ref : ObjectRef) (c : call) : Prop :=
  match c with
  | GetObject r => r = ref
  | Patch r sub _ => r = ref /\ sub = "" /\ or_Group r = Group /\ or_Resource r = applications
  | _ => False
  end.

Lemma patchFor_reads ref req P : P (GetObject ref) -> only P (patchFor ref req).
Proof. intros H. unfold patchFor. repeat case_bool_decide; try done; (split; [done |]); by intros []. Qed.

Lemma argo_within ref req : only (within ref) (Do ref req).
Proof.
  unfold Do, IsArgoGroup. case_bool_decide as Hg; [| done]. cbn [negb]. case_bool_decide as Hr; [done |].
  apply only_bind; [by apply patchFor_reads |]. intros [patch | e]; [| done]. cbn. split; [| by intros []].
  repeat split; [done |]. by destruct (decide (or_Resource ref = applications)).
Qed.

(** What an action must have seen of the application to patch it, and the patch. *)
Definition warranted (req : Request) (app : result Respond.error U) (body : amap) : Prop :=
  if bool_decide (Action req = Sync) then body = operationOf (syncOf req)
  else if bool_decide (Action req = Refresh) then body = refreshPatch normalRefresh
  else if bool_decide (Action req = HardRefresh) then body = refreshPatch hardRefresh
  else exists a, app = Ok a /\
    if bool_decide (Action req = Suspend) then AutoSyncing a = true
    else if bool_decide (Action req = Resume) then AutoSyncing a = false
    else if bool_decide (Action req = Terminate) then phaseOf a = runningPhase
    else Action req = Rollback /\ AutoSyncing a = false /\ exists entry,
      historyEntry a (Revision req) = Some entry /\
      body = operationOf (carry (syncOf req) entry ["revision"; "revisions"; "source"; "sources"]).

(** What a success says of the application the patch left. *)
Definition settled (action : string) (patched : U) : Prop :=
  (action = Suspend -> AutoSyncing patched = false) /\ (action = Resume -> AutoSyncing patched = true) /\
  (action = Terminate -> phaseOf patched <> runningPhase).

Lemma landed_settled patched action done_ : landed patched action = Ok done_ -> settled action patched.
Proof.
  unfold landed, settled, automationLanded, terminationLanded. intros H. repeat split; intros ->; revert H.
  - change (bool_decide (Suspend = Suspend) || bool_decide (Suspend = Resume)) with true.
    change (bool_decide (Suspend = Resume)) with false. destruct (AutoSyncing patched); cbn; [discriminate | done].
  - change (bool_decide (Resume = Suspend) || bool_decide (Resume = Resume)) with true.
    change (bool_decide (Resume = Resume)) with true. destruct (AutoSyncing patched); cbn; [done | discriminate].
  - change (bool_decide (Terminate = Suspend) || bool_decide (Terminate = Resume)) with false.
    change (bool_decide (Terminate = Terminate)) with true. cbv iota. case_bool_decide as Hp; [discriminate | intros _; exact Hp].
Qed.

(** A patch found without a read. *)
Lemma patchFor_exec {W} {Sv : Server (answer U) W} ref req w w' calls body :
  exec (patchFor ref req) w = (w', calls, Ok body) ->
  warranted req (serve (GetObject ref) w).2 body /\ (calls = [] \/ calls = [GetObject ref]).
Proof.
  unfold patchFor, warranted. case_bool_decide; [intros [= <- <- <-]; by auto |].
  case_bool_decide; [intros [= <- <- <-]; by auto |]. case_bool_decide; [intros [= <- <- <-]; by auto |].
  repeat case_bool_decide; try (intros [=]; done); cbn; destruct (serve (GetObject ref) w) as [w1 [a | e]]; cbn; try discriminate.
  - case_bool_decide as Ea; [discriminate |]. intros [= <- <- <-]. split; [| by right]. exists a. split; [done |].
    by destruct (AutoSyncing a).
  - case_bool_decide as Ea; [discriminate |]. intros [= <- <- <-]. split; [| by right]. exists a. split; [done |].
    by destruct (AutoSyncing a).
  - case_bool_decide as Ea; [unfold notRunning; case_bool_decide; discriminate |]. intros [= <- <- <-]. split; [| by right].
    exists a. split; [done |]. by destruct (decide (phaseOf a = runningPhase)).
  - destruct (AutoSyncing a) eqn:Ea; [discriminate |]. destruct (historyEntry a (Revision req)) as [entry |] eqn:Eh; [| discriminate].
    intros [= <- <- <-]. split; [| by right]. exists a. split_and!; eauto.
Qed.

(** An Argo CD action that patches an application patches the one it names,
    once, after at most one read of it; auto-sync is paused only where it is on
    and resumed only where it is off, an operation is terminated only while it
    runs, a rollback needs auto-sync off and asks for just the deployment the
    application's history holds under the wanted number; and success means the
    application the cluster answered with is what was asked for. *)
Theorem argo_acts_when_it_may {W} {Sv : Server (answer U) W} ref req w w' calls r :
  exec (Do ref req) w = (w', calls, r) -> existsb writes calls = true ->
  or_Group ref = Group /\ or_Resource ref = applications /\
  exists w1 reads body,
    calls = reads ++ [Patch ref "" body] /\ (reads = [] \/ reads = [GetObject ref]) /\
    warranted req (serve (GetObject ref) w).2 body /\
    (forall action, r = Ok action ->
       exists patched, (serve (Patch ref "" body) w1).2 = Ok patched /\ settled (Action req) patched).
Proof.
  unfold Do, IsArgoGroup. case_bool_decide as Hg; cbn [negb]; [| by intros [= <- <- <-]].
  case_bool_decide as Hr; [by intros [= <- <- <-] |]. intros H Hw.
  split; [done |]. split; [by destruct (decide (or_Resource ref = applications)) |].
  unfold bindr in H. rewrite exec_bind in H. destruct (exec (patchFor ref req) w) as [[w1 reads] [body | e]] eqn:Ep.
  - apply patchFor_exec in Ep as [Hwar Hreads]. cbn in H.
    destruct (serve (Patch ref "" body) w1) as [w2 [patched | e]] eqn:Es; injection H as <- <- <-;
      exists w1, reads, body; rewrite Es; repeat split; try done.
    intros action Hl. exists patched. split; [done |]. by eapply landed_settled.
  - cbn in H. injection H as <- <- <-. rewrite app_nil_r in Hw.
    pose proof (wp_exec _ [] _ _ _ _ _ (only_run (fun c => writes c = false) _ [] (list.Forall_nil_2 _) (patchFor_reads ref req _ eq_refl)) Ep) as Hq.
    apply existsb_elem in Hw as (c & Hc & Hwc). eapply list.Forall_forall in Hq; [| exact Hc]. cbn in Hq. congruence.
Qed.
End argo.

(** An application that syncs itself until it is patched. *)
Definition exampleApp (enabled : bool) : Doc :=
  MkDoc [("spec", AMap [("syncPolicy", AMap [("automated", AMap [("enabled", ABool enabled)])])])].

#[export] Instance exampleCluster : Server (answer Doc) bool := fun c w =>
  match c return bool * answer Doc c with
  | GetObject _ => (w, Ok (exampleApp w))
  | Patch _ _ _ => (false, Ok (exampleApp false))
  | CreateJob _ _ | Update _ _ => (w, Ok (exampleApp w))
  | ListObjects _ => (w, Ok [])
  | ListPods _ => (w, Ok [])
  | Delete _ _ => (w, None)
  | EvictPods _ => (w, ([], false))
  | Record_ _ => (w, None)
  end.

Definition exampleRef : ObjectRef := MkObjectRef Group "v1alpha1" applications "argocd" "shop".

Definition exampleSuspend : Request := MkRequest Suspend false false false false false false 0 [].

Lemma argo_acts_when_it_may_witness :
  exec (Do (Qt := Access.exampleQuoting) (U := Doc) exampleRef exampleSuspend) true =
    (false, [GetObject exampleRef; Patch exampleRef ""
       [("spec", AMap [("syncPolicy", AMap [("automated", AMap [("enabled", ABool false)])])])]], Ok Suspend) /\
  exists a, (serve (GetObject exampleRef) true).2 = Ok a /\ AutoSyncing a = true.
Proof.
  assert (exec (Do (Qt := Access.exampleQuoting) (U := Doc) exampleRef exampleSuspend) true =
    (false, [GetObject exampleRef; Patch exampleRef ""
       [("spec", AMap [("syncPolicy", AMap [("automated", AMap [("enabled", ABool false)])])])]], Ok Suspend)) as He
    by (vm_compute; reflexivity).
  split; [exact He |].
  destruct (argo_acts_when_it_may (Qt := Access.exampleQuoting) (U := Doc) (W := bool) exampleRef exampleSuspend true _ _ _ He eq_refl)
    as (_ & _ & w1 & reads & body & _ & _ & Hwar & _).
  exact Hwar.
Defined.

End Argocd.
