(* ===== verification/Inspect.v ===== *)
(** internal/inspect: one object in detail, applying an edited document,
    deleting, and the events of an object. *)

From Stdlib Require Import Ascii.
From S2P Require Import Prelude Api Text Unstr Codec Access Issues Program Respond Kube Flux Argocd.

(** What apimachinery gives of an object's metadata beyond [Described]: nil
    maps are told from empty ones, owners come with their UIDs. *)
Class Editable (U : Type) := {
  GetLabels : U -> option (gmap string string);
  GetAnnotations : U -> option (gmap string string);
  SetAnnotations : U -> option (gmap string string) -> U;
  DropManagedFields : U -> U;
  GetFinalizers : U -> list string;
  Deleting : U -> bool;
  GetOwnerReferences : U -> list (string * string * string);
  GroupOf : U -> string;
}.

(** sigs.k8s.io/yaml *)
Class YAML := {
  UnmarshalYAML : string -> result string amap;
  MarshalYAML : amap -> result string string;
}.

(** [unicode/utf8] and [encoding/base64]. *)
Module Bytes.

Definition within (lo hi : N) (c : ascii) : bool := ((lo <=? N_of_ascii c) && (N_of_ascii c <=? hi))%N.
Definition tail (c : ascii) : bool := within 0x80 0xbf c.

(** [utf8.ValidString] *)
Fixpoint ValidString (s : string) : bool :=
  match s with
  | EmptyString => true
  | String a s1 =>
      if within 0 0x7f a then ValidString s1
      else match s1 with
      | EmptyString => false
      | String b s2 =>
          if within 0xc2 0xdf a then tail b && ValidString s2
          else match s2 with
          | EmptyString => false
          | String c s3 =>
              if within 0xe0 0xe0 a then within 0xa0 0xbf b && tail c && ValidString s3
              else if within 0xed 0xed a then within 0x80 0x9f b && tail c && ValidString s3
              else if within 0xe1 0xef a then tail b && tail c && ValidString s3
              else match s3 with
              | EmptyString => false
              | String d s4 =>
                  if within 0xf0 0xf0 a then within 0x90 0xbf b && tail c && tail d && ValidString s4
                  else if within 0xf1 0xf3 a then tail b && tail c && tail d && ValidString s4
                  else if within 0xf4 0xf4 a then within 0x80 0x8f b && tail c && tail d && ValidString s4
                  else false
              end
          end
      end
  end.

(** The standard alphabet in the characters of the URL one; a character only
    the latter has is not one. *)
Definition url_char (c : ascii) : ascii :=
  let n := N_of_ascii c in
  if (n =? 43)%N then ascii_of_N 45 else if (n =? 47)%N then ascii_of_N 95
  else if (n =? 45)%N || (n =? 95)%N then ascii_of_N 0 else c.

Definition unpadded (l : list ascii) : list ascii :=
  let equals := ascii_of_N 61 in
  match rev l with
  | x :: y :: rest =>
      if bool_decide (x = equals) then if bool_decide (y = equals) then rev rest else rev (y :: rest) else l
  | _ => l
  end.

(** [base64.StdEncoding.DecodeString] *)
Definition DecodeStd (s : string) : option string :=
  let l := List.filter (fun c => negb (Codec.newline c)) (String.list_ascii_of_string s) in
  if negb (zlen l mod 4 =? 0)%Z then None
  else Codec.DecodeString (String.string_of_list_ascii (map url_char (unpadded l))).

Example decode_padded :
  DecodeStd "aGVsbG8=" = Some "hello" /\ DecodeStd "aGVsbG8" = None /\ DecodeStd "-A==" = None /\
  DecodeStd "+A==" = Some (String (ascii_of_N 0xf8) "").
Proof. by vm_compute. Qed.

End Bytes.

(** The conversion [int64(f)] of a float64 given by its bits: toward zero, and
    the least integer for what an int64 cannot hold. *)
Definition Int64OfFloat (bits : Z) : Z :=
  let e := (Z.land (Z.shiftr bits 52) 0x7ff)%Z in
  let m := Z.land bits (2 ^ 52 - 1) in
  let mantissa := if (e =? 0)%Z then m else (2 ^ 52 + m)%Z in
  let size := if (1075 <=? e)%Z then Z.shiftl mantissa (Z.min (e - 1075) 64) else Z.shiftr mantissa (1075 - Z.max e 1) in
  let n := if Z.testbit bits 63 then (- size)%Z else size in
  if (e =? 0x7ff)%Z || (n <? - 2 ^ 63)%Z || (2 ^ 63 <=? n)%Z then (- 2 ^ 63)%Z else n.

Module Inspect.
Import Api Text Unstr Kube.

Definition lastAppliedAnnotation : string := "kubectl.kubernetes.io/last-applied-configuration".
Definition argoApplication : string := "Application".
Definition argoApplications : string := "applications".
Definition argoTrackingAnnotation : string := "argocd.argoproj.io/tracking-id".

(** The kinds that apply objects, by group: the order a map is walked in is
    not said. *)
Definition fluxAppliers : list (string * string) :=
  [("kustomize.toolkit.fluxcd.io", "Kustomization"); ("helm.toolkit.fluxcd.io", "HelmRelease")].

Record OwnerRef := MkOwnerRef { ow_Kind : string; ow_Name : string; ow_UID : string }.
Record Condition := MkCondition { co_Type : string; co_Status : string; co_Reason : string; co_Message : string; co_Updated : string }.
Record DataEntry := MkDataEntry { de_Key : string; de_Value : string; de_Bytes : Z; de_Binary : bool }.
Record ObjectPort := MkObjectPort { op_Name : string; op_Port : Z; op_Protocol : string }.
Record GitopsOwner := MkGitopsOwner { go_Controller : string; go_Kind : string; go_Ref : ObjectRef }.
Record ObjectEvent := MkObjectEvent {
  oe_Type : string;
  oe_Reason : string;
  oe_Message : string;
  oe_Object : string;
  oe_Source : string;
  oe_Count : Z;
  oe_FirstSeen : string;
  oe_LastSeen : string;
}.

Record ObjectDetail := MkObjectDetail {
  od_APIVersion : string;
  od_Kind : string;
  od_Name : string;
  od_Namespace : string;
  od_UID : string;
  od_CreatedAt : string;
  od_Labels : option (gmap string string);
  od_Annotations : option (gmap string string);
  od_Owners : list OwnerRef;
  od_Conditions : list Condition;
  od_Containers : list string;
  od_Suspended : option bool;
  od_Terminating : bool;
  od_Finalizers : list string;
  od_ManagedBy : option GitopsOwner;
  od_Source : string;
  od_Replicas : option Z;
  od_Schedulable : option bool;
  od_HandledAt : string;
  od_Ports : list ObjectPort;
  od_Event : option ObjectEvent;
  od_Data : list DataEntry;
  od_YAML : string;
}.

(** A map without its nil entry is no map: the labels a nil map holds. *)
Definition of_map (m : option (gmap string string)) (key : string) : string := default "" (m ≫= lookup key).

Definition stringField (m : amap) (key : string) : string := At m key.

(** ** Data *)

Definition entryOf (key encoded : string) : DataEntry :=
  match Bytes.DecodeStd encoded with
  | None => MkDataEntry key encoded (strlen encoded) true
  | Some decoded =>
      if negb (Bytes.ValidString decoded) then MkDataEntry key encoded (strlen decoded) true
      else MkDataEntry key decoded (strlen decoded) false
  end.

Definition sorted (out : list DataEntry) : list DataEntry := sort_by (cmp_on de_Key str_compare) out.

(** ** Ports *)

Definition maxPort : Z := 65535.

Definition boundedPort (value : Z) : Z := if (value <? 1)%Z then 0 else if (maxPort <? value)%Z then 0 else value.

Definition intField (m : amap) (key : string) : Z :=
  match aget m key with
  | Some (AInt value) => boundedPort value
  | Some (AFloat bits) => boundedPort (Int64OfFloat bits)
  | _ => 0
  end.

Definition readPort (numberKey : string) (entry : any) : option ObjectPort :=
  match asMap (Some entry) with
  | None => None
  | Some mapped =>
      let protocol := stringField mapped "protocol" in
      if bool_decide (protocol <> "") && bool_decide (protocol <> "TCP") then None
      else
        let number := intField mapped numberKey in
        if (number =? 0)%Z then None else Some (MkObjectPort (stringField mapped "name") number protocol)
  end.

Definition readPorts (holder : option any) (field numberKey : string) : list ObjectPort :=
  match asMap holder with
  | None => []
  | Some parent =>
      match asSlice (aget parent field) with
      | None => []
      | Some entries => omap (readPort numberKey) entries
      end
  end.

Section inspect.
Context {U : Type} `{!Unstructured U, !Described U, !Editable U} {Tm : RFC3339} {Qt : Quoting} {Ym : YAML}.

Definition plainEntries (item : U) : list DataEntry :=
  let n := NestedMap item ["data"] in
  if negb (found n) || failed n then []
  else omap (fun '(key, raw) =>
    match asString (Some raw) with Some text => Some (MkDataEntry key text (strlen text) false) | None => None end) (value n).

Definition encodedEntries (item : U) (field : string) : list DataEntry :=
  let n := NestedMap item [field] in
  if negb (found n) || failed n then []
  else omap (fun '(key, raw) =>
    match asString (Some raw) with Some encoded => Some (entryOf key encoded) | None => None end) (value n).

Definition dataOf (item : U) : list DataEntry :=
  if bool_decide (GetKind item = "Secret") then sorted (encodedEntries item "data")
  else if bool_decide (GetKind item = "ConfigMap") then sorted (plainEntries item ++ encodedEntries item "binaryData")
  else [].

(** ** The facts of an event *)

Fixpoint firstOf (item : U) (paths : list (list string)) : string :=
  match paths with
  | [] => ""
  | path :: rest => if bool_decide (UString item path <> "") then UString item path else firstOf item rest
  end.

Fixpoint objectIn (item : U) (fields : list string) : string :=
  match fields with
  | [] => ""
  | field :: rest =>
      let kind := UString item [field; "kind"] in
      let name := UString item [field; "name"] in
      let namespace := UString item [field; "namespace"] in
      if bool_decide (kind = "") && bool_decide (name = "") then objectIn item rest
      else if bool_decide (namespace = "") then kind +s+ "/" +s+ name
      else kind +s+ " " +s+ namespace +s+ "/" +s+ name
  end.

Definition eventObjectOf (item : U) : string := objectIn item ["involvedObject"; "regarding"].

Definition eventSourceOf (item : U) : string :=
  let component := firstOf item [["source"; "component"]; ["reportingComponent"]] in
  let host := firstOf item [["source"; "host"]; ["reportingInstance"]] in
  if bool_decide (host = "") then component
  else if bool_decide (component = "") then host
  else component +s+ " on " +s+ host.

Fixpoint positive (item : U) (paths : list (list string)) : Z :=
  match paths with
  | [] => 0
  | path :: rest => if (0 <? UInt item path)%Z then UInt item path else positive item rest
  end.

Definition eventCountOf (item : U) : Z := positive item [["count"]; ["deprecatedCount"]; ["series"; "count"]].

Definition eventFactsOf (item : U) : option ObjectEvent :=
  if bool_decide (GetKind item <> "Event") then None
  else Some (MkObjectEvent (UString item ["type"]) (UString item ["reason"]) (firstOf item [["message"]; ["note"]])
    (eventObjectOf item) (eventSourceOf item) (eventCountOf item) (firstOf item [["firstTimestamp"]; ["eventTime"]])
    (firstOf item [["lastTimestamp"]; ["series"; "lastObservedTime"]; ["deprecatedLastTimestamp"]; ["eventTime"]])).

(** ** Metadata, conditions and owners *)

Definition sanitize (u : U) : U :=
  let clean := DropManagedFields u in
  match GetAnnotations clean with
  | None => clean
  | Some annotations =>
      let annotations := delete lastAppliedAnnotation annotations in
      if bool_decide (annotations = ∅) then SetAnnotations clean None else SetAnnotations clean (Some annotations)
  end.

Definition creationOf (u : U) : string := match CreatedOf u with None => "" | Some at_ => FormatTime at_ end.

Definition ownersOf (u : U) : list OwnerRef :=
  map (fun '(kind, name, uid) => MkOwnerRef kind name uid) (GetOwnerReferences u).

Definition transitionOf (m : amap) : string :=
  let v := stringField m "lastTransitionTime" in
  if bool_decide (v <> "") then v else stringField m "lastUpdateTime".

Definition conditionOf (raw : any) : option Condition :=
  match asMap (Some raw) with
  | None => None
  | Some entry =>
      Some (MkCondition (stringField entry "type") (stringField entry "status") (stringField entry "reason")
              (stringField entry "message") (transitionOf entry))
  end.

Definition conditionsOf (u : U) : list Condition := omap conditionOf (USlice u ["status"; "conditions"]).

Definition sourceLabelOf (item : U) : string :=
  if negb (Flux.IsFluxGroup (GroupOf item)) then ""
  else
    let '(kind, name, _) := Flux.SourceRef item in
    if bool_decide (kind = "") || bool_decide (name = "") then "" else kind +s+ "/" +s+ name.

Definition argoOwner (item : U) : option GitopsOwner :=
  let tracked := of_map (GetAnnotations item) argoTrackingAnnotation in
  if bool_decide (tracked = "") then None
  else
    let '(name, _, found) := str_cut tracked ":" in
    if negb found || bool_decide (name = "") then None
    else Some (MkGitopsOwner "argocd" argoApplication (MkObjectRef Argocd.Group "" argoApplications "" name)).

Fixpoint managedBy (appliers : list (string * string)) (item : U) : option GitopsOwner :=
  match appliers with
  | [] => argoOwner item
  | (group, kind) :: rest =>
      let name := of_map (GetLabels item) (group +s+ "/name") in
      let namespace := of_map (GetLabels item) (group +s+ "/namespace") in
      if bool_decide (name = "") || bool_decide (namespace = "") then managedBy rest item
      else Some (MkGitopsOwner "flux" kind (MkObjectRef group "" "" namespace name))
  end.

Definition suspendedOf (u : U) : option bool :=
  if Argocd.IsArgoGroup (GroupOf u) && bool_decide (GetKind u = argoApplication) then Some (negb (Argocd.AutoSyncing u))
  else
    let n := NestedBool u ["spec"; "suspend"] in
    if negb (found n) || failed n then None else Some (value n).

Definition replicasOf (u : U) : option Z :=
  let n := NestedInt64 u ["spec"; "replicas"] in if negb (found n) || failed n then None else Some (value n).

Definition schedulableOf (u : U) : option bool :=
  if bool_decide (GetKind u <> "Node") then None
  else
    let n := NestedBool u ["spec"; "unschedulable"] in
    if failed n then None else Some (negb (value n)).

Definition podPorts (u : U) : list ObjectPort :=
  flat_map (fun container =>
    match asMap (Some container) with Some m => readPorts (Some (AMap m)) "ports" "containerPort" | None => [] end)
    (USlice u ["spec"; "containers"]).

Definition servicePorts (u : U) : list ObjectPort := readPorts (aget (ObjectOf u) "spec") "ports" "port".

Definition portsOf (u : U) : list ObjectPort :=
  if bool_decide (GetKind u = "Pod") then podPorts u
  else if bool_decide (GetKind u = "Service") then servicePorts u
  else [].

Definition namesFrom (u : U) (field : string) : list string :=
  omap (fun c =>
    match asMap (Some c) with
    | None => None
    | Some m => let name := stringField m "name" in if bool_decide (name = "") then None else Some name
    end) (USlice u ["spec"; field]).

Definition containerNames (obj : U) : list string :=
  if bool_decide (GetKind obj <> "Pod") then []
  else namesFrom obj "initContainers" ++ namesFrom obj "containers" ++ namesFrom obj "ephemeralContainers".

Definition detailOf (appliers : list (string * string)) (source : U) : result Respond.error ObjectDetail :=
  let clean := sanitize source in
  match MarshalYAML (ObjectOf clean) with
  | Err text => Err (Respond.Wrapped Respond.ErrInternal ("spinoza could not do that: could not render the object as yaml: " +s+ text))
  | Ok raw =>
      Ok {| od_APIVersion := GetAPIVersion clean;
            od_Kind := GetKind clean;
            od_Name := GetName clean;
            od_Namespace := GetNamespace clean;
            od_UID := GetUID clean;
            od_CreatedAt := creationOf clean;
            od_Labels := GetLabels clean;
            od_Annotations := GetAnnotations clean;
            od_Owners := ownersOf clean;
            od_Conditions := conditionsOf clean;
            od_Containers := containerNames clean;
            od_Suspended := suspendedOf clean;
            od_Terminating := Deleting source;
            od_Finalizers := GetFinalizers source;
            od_ManagedBy := managedBy appliers source;
            od_Source := sourceLabelOf source;
            od_Replicas := replicasOf clean;
            od_Schedulable := schedulableOf clean;
            od_HandledAt := UString clean ["status"; "lastHandledReconcileAt"];
            od_Ports := portsOf clean;
            od_Event := eventFactsOf clean;
            od_Data := dataOf clean;
            od_YAML := raw |}
  end.

(** ** Reading, applying and deleting *)

Definition program A := prog (answer U) (result Respond.error A).

Definition Get (appliers : list (string * string)) (ref : ObjectRef) : program ObjectDetail :=
  u <-? ask (GetObject ref);;
  Return (detailOf appliers u).

Definition apiVersionOf (ref : ObjectRef) : string :=
  if bool_decide (or_Group ref = "") then or_Version ref else or_Group ref +s+ "/" +s+ or_Version ref.

Definition mismatch (what got want : string) : option Respond.error :=
  if bool_decide (got <> want)
  then Some (Respond.New ("document " +s+ what +s+ " " +s+ Quote got +s+ " does not match " +s+ Quote want)) else None.

Definition matchesRef (doc : U) (ref : ObjectRef) (kind : string) : option Respond.error :=
  match mismatch "name" (GetName doc) (or_Name ref) with
  | Some e => Some e
  | None =>
  match mismatch "namespace" (GetNamespace doc) (or_Namespace ref) with
  | Some e => Some e
  | None =>
  match mismatch "apiVersion" (GetAPIVersion doc) (apiVersionOf ref) with
  | Some e => Some e
  | None => if bool_decide (kind = "") then None else mismatch "kind" (GetKind doc) kind
  end end end.

Definition noResourceVersion : string :=
  "this document names no resourceVersion, so applying it would overwrite whatever is on the server now; Revert to load the current object, then make the change again".
Definition noUID : string :=
  "a delete names the uid of the object you inspected, so a replacement that reuses the name is left alone".
Definition replaced : string := "this object was replaced since you inspected it; inspect it again before deleting".

Definition Apply (appliers : list (string * string)) (ref : ObjectRef) (kind doc : string) : program ObjectDetail :=
  match UnmarshalYAML doc with
  | Err text => Return (Err (Respond.New ("parse yaml: " +s+ text)))
  | Ok obj =>
      let desired := FromObject obj in
      match matchesRef desired ref kind with
      | Some e => Return (Err e)
      | None =>
          if bool_decide (GetResourceVersion desired = "") then
            Return (Err (Respond.Wrapped Respond.ErrNoResourceVersion noResourceVersion))
          else
            updated <-? ask (Update ref obj);;
            Return (detailOf appliers updated)
      end
  end.

Definition Delete (ref : ObjectRef) (uid : string) : program () :=
  if bool_decide (uid = "") then Return (Err (Respond.Wrapped Respond.ErrNoUID noUID))
  else
    failed <-- ask (Kube.Delete ref uid);;
    Return match failed with
    | None => Ok tt
    | Some err =>
        if Respond.IsKube err Respond.Conflict then
          Err (Respond.Wrapped Respond.ErrReplaced (replaced +s+ ": " +s+ or_Name ref))
        else Err err
    end.

(** ** What they promise *)

(** The calls of an apply: one update of the object named, with a document that
    names it and the version it was read at. *)
Definition applies (ref : ObjectRef) (kind : string) (c : call) : Prop :=
  match c with
  | Update r obj =>
      r = ref /\ GetName (FromObject obj) = or_Name ref /\ GetNamespace (FromObject obj) = or_Namespace ref /\
      GetAPIVersion (FromObject obj) = apiVersionOf ref /\ (kind <> "" -> GetKind (FromObject obj) = kind) /\
      GetResourceVersion (FromObject obj) <> ""
  | _ => False
  end.

Lemma mismatch_none what got want : mismatch what got want = None -> got = want.
Proof. unfold mismatch. case_bool_decide as E; [done |]. intros _. by destruct (decide (got = want)). Qed.

Lemma Apply_applies appliers ref kind doc : only (applies ref kind) (Apply appliers ref kind doc).
Proof.
  unfold Apply. destruct (UnmarshalYAML doc) as [obj | text]; [| done]. cbn zeta.
  destruct (matchesRef (FromObject obj) ref kind) eqn:Em; [done |]. case_bool_decide as Er; [done |].
  split; [| by intros []]. unfold matchesRef in Em.
  destruct (mismatch "name" _ _) eqn:E1; [done |]. destruct (mismatch "namespace" _ _) eqn:E2; [done |].
  destruct (mismatch "apiVersion" _ _) eqn:E3; [done |]. apply mismatch_none in E1, E2, E3.
  repeat split; [done | done | done | | done]. intros Hk. rewrite bool_decide_eq_false_2 in Em by done. by eapply mismatch_none.
Qed.

Lemma Delete_deletes ref uid : only (fun c => c = Kube.Delete ref uid /\ uid <> "") (Delete ref uid).
Proof. unfold Delete. case_bool_decide; [done |]. split; [done |]. done. Qed.
End inspect.

Lemma boundedPort_range value : (0 <= boundedPort value <= maxPort)%Z.
Proof. unfold boundedPort, maxPort. zcases; lia. Qed.

Lemma readPort_range key entry port : readPort key entry = Some port -> (1 <= op_Port port <= maxPort)%Z.
Proof.
  unfold readPort, intField. destruct (asMap _); [| done]. destruct (_ && _); [done |].
  destruct (aget _ _) as [[| | v | bits | | |] |]; try done;
    match goal with |- context [boundedPort ?v] => pose proof (boundedPort_range v); destruct (Z.eqb_spec (boundedPort v) 0) end;
    try done; intros [= <-]; cbn; lia.
Qed.

(** The ports an object lists are TCP ports: a forward can be opened on each. *)
Lemma readPorts_range holder field key : Forall (fun port => (1 <= op_Port port <= maxPort)%Z) (readPorts holder field key).
Proof.
  unfold readPorts. destruct (asMap holder) as [parent |]; [| done]. destruct (asSlice _) as [entries |]; [| done].
  apply List.Forall_forall. intros port Hport. apply list_elem_of_In, list_elem_of_omap in Hport as (entry & _ & H).
  by eapply readPort_range.
Qed.

End Inspect.

#[export] Instance doc_editable : Editable Doc := {
  GetLabels u :=
    n ← asMap (aget (Object u) "metadata"); l ← asMap (aget n "labels"); list_to_map <$> string_pairs l;
  GetAnnotations u :=
    n ← asMap (aget (Object u) "metadata"); l ← asMap (aget n "annotations"); list_to_map <$> string_pairs l;
  SetAnnotations u annotations :=
    match annotations with
    | None => MkDoc (remove_field (Object u) ["metadata"; "annotations"])
    | Some m => MkDoc (default (Object u) (SetNestedStringMap (Object u) m ["metadata"; "annotations"]))
    end;
  DropManagedFields u := MkDoc (remove_field (Object u) ["metadata"; "managedFields"]);
  GetFinalizers u := [];
  Deleting u :=
    match asMap (aget (Object u) "metadata") ≫= fun n => aget n "deletionTimestamp" with Some _ => true | None => false end;
  GetOwnerReferences u := [];
  GroupOf u := let '(group, _, found) := str_cut (GetAPIVersion u) "/" in if found then group else "";
}.
