(* ===== verification/Handlers.v ===== *)
(** internal/server/objects.go, gitops.go, the confirmation of contexts.go and
    the record of history.go: the handlers that change a cluster, from the
    query of the request to the answer, as programs over [Kube]'s calls. *)

From Stdlib Require Import Ascii.
From S2P Require Import Prelude Api Text Unstr Identity Session Authenticator Access Issues Guard Routes Program Respond Kube.
From S2P Require Import Rollout Drain Actions Flux Argocd Inspect.

Module Handlers.
Import Api Text Identity Guard Kube.

Definition queryTrue : string := "true".
Definition unguarded : string := "".

(** The part of the server these handlers read: whether it serves a cluster,
    which clusters are protected, the cluster open by default, whether there is
    an audit store, what discovery knows of each kind, and the order the map of
    flux appliers is walked in. *)
Record server := MkServer {
  inCluster : bool;
  Protected : string -> bool;
  defaultCluster : string;
  past : bool;
  descriptors : list ResourceDescriptor;
  kindFor : ObjectRef -> string;
  appliers : list (string * string);
}.

(** What is written: a payload, no content, or a failure. *)
Inductive response (A : Type) := Sent (a : A) | NoContent | Failure (status : Z) (message : string).
Arguments Sent {A} a.
Arguments NoContent {A}.
Arguments Failure {A} status message.

Definition given (r : web) (key : string) : string := Authenticator.Query (parts r) key.

Definition refFrom (r : web) : ObjectRef :=
  MkObjectRef (given r "group") (given r "version") (given r "resource") (given r "namespace") (given r "name").

Definition clusterKey (s : server) (r : web) : string :=
  let id := given r Routes.clusterParam in if bool_decide (id = "") then defaultCluster s else id.

Definition unconfirmed (s : server) (r : web) (name : string) : bool :=
  if negb (Protected s (clusterKey s r)) then false else bool_decide (given r "confirm" <> name).

(** ** The record *)

Definition maxAuditTextBytes : nat := 4096.
Definition auditSuffix : string := "...".

Fixpoint cutBack (value : string) (end_ : nat) : nat :=
  match end_ with
  | O => 0
  | S before => if negb (Bytes.ValidString (String.substring 0 end_ value)) then cutBack value before else end_
  end.

Definition auditText (value : string) : string :=
  if (String.length value <=? maxAuditTextBytes)%nat then value
  else String.substring 0 (cutBack value (maxAuditTextBytes - String.length auditSuffix)) value +s+ auditSuffix.

Definition actorOf (ctx : Context_) : string :=
  let '(identity, known) := IdentityFrom ctx in
  if negb known then "local"
  else if bool_decide (User identity = "") then "anonymous"
  else User identity.

Definition HistoryDone : string := "done".
Definition HistoryRefused : string := "refused".
Definition HistoryFailed : string := "failed".

Definition outcomeOf (err : option Respond.error) : string :=
  match err with
  | None => HistoryDone
  | Some err => if (Respond.statusFor err <? 500)%Z then HistoryRefused else HistoryFailed
  end.

Definition messageOf (err : option Respond.error) : string :=
  match err with None => "" | Some err => Respond.e_text err end.

Record change := MkChange {
  ch_verb : string;
  ch_ref : ObjectRef;
  ch_kind : string;
  ch_detail : string;
  ch_dryRun : bool;
  ch_err : option Respond.error;
}.

Definition error_of {A} (r : result Respond.error A) : option Respond.error := match r with Ok _ => None | Err e => Some e end.

(** ** Actions *)

Definition replicaWord (replicas : Z) : string := if (replicas =? 1)%Z then " replica" else " replicas".

Definition actionDetail (req : Actions.Request) : string :=
  if bool_decide (Actions.Action req <> Routes.Scale) then ""
  else "to " +s+ Itoa (Actions.Replicas req) +s+ replicaWord (Actions.Replicas req).

Definition guarded (req : Actions.Request) : bool :=
  if Actions.DryRun req then false
  else contains [Routes.Scale; Routes.Restart; Routes.Cordon; Routes.Uncordon; Routes.Drain; Routes.Suspend; Routes.Resume;
                 Routes.Trigger; Routes.Undo] (Actions.Action req).

Fixpoint unfinished (message : string) (pods : list PodOutcome) : option Respond.error :=
  match pods with
  | [] => None
  | pod :: rest =>
      if bool_decide (po_Outcome pod <> Drain.OutcomeBlocked) && bool_decide (po_Outcome pod <> Drain.OutcomeFailed) then
        unfinished message rest
      else if bool_decide (message <> "") then
        Some (Respond.Wrapped Respond.ErrInternal ("spinoza could not do that: " +s+ message))
      else Some (Respond.Wrapped Respond.ErrInternal "spinoza could not do that: the action did not finish")
  end.

Definition incompleteAction (result : Actions.ActionResult) : option Respond.error :=
  unfinished (Actions.ar_Message result) (Actions.ar_Pods result).

Definition patchesTheCluster (action : string) : bool :=
  contains [Flux.Reconcile; Flux.ReconcileSource; Flux.Suspend; Flux.Resume] action.

Definition changesTheCluster (action : string) : bool :=
  contains [Argocd.Sync; Argocd.Rollback; Argocd.Suspend; Argocd.Resume] action.

Definition argoDetail (req : Argocd.Request) : string :=
  if bool_decide (Argocd.Action req = Argocd.Rollback) then "to revision " +s+ Itoa (Argocd.Revision req)
  else if (0 <? zlen (Argocd.Resources req))%Z then Itoa (zlen (Argocd.Resources req)) +s+ " selected resources"
  else if Argocd.Prune req then "with prune"
  else "".

(** The options of an Argo action, as its body decodes. *)
Record argoActionBody := MkArgoActionBody {
  b_Prune : bool;
  b_DryRun : bool;
  b_Force : bool;
  b_Replace : bool;
  b_ServerSide : bool;
  b_ApplyOnly : bool;
  b_Revision : Z;
  b_Resources : list Argocd.Resource;
}.

Definition argoRequest (action : string) (dto : argoActionBody) : Argocd.Request :=
  Argocd.MkRequest action (b_Prune dto) (b_DryRun dto) (b_Force dto) (b_Replace dto) (b_ServerSide dto) (b_ApplyOnly dto)
    (b_Revision dto) (b_Resources dto).

Section handlers.
Context {U : Type} `{!Unstructured U, !Described U, !Editable U} {Fl : Fields} {Tm : RFC3339} {Qt : Quoting} {Ym : YAML} {St : Stamps}.

Definition parseFailure (s : string) (e : Parse.parseError) : string :=
  "strconv.ParseInt: parsing " +s+ Quote s +s+ ": " +s+
  match e with Parse.InvalidSyntax => "invalid syntax" | Parse.OutOfRange => "value out of range" end.

Definition actionRequest (r : web) : result string Actions.Request :=
  let ref := refFrom r in
  if bool_decide (or_Version ref = "") || bool_decide (or_Resource ref = "") || bool_decide (or_Name ref = "") then
    Err "version, resource and name are required"
  else
    let action := given r "action" in
    let force := bool_decide (given r "force" = queryTrue) in
    let dryRun := bool_decide (given r "dryRun" = queryTrue) in
    if bool_decide (action = Routes.Undo) then
      match Parse.ParseInt (given r "revision") 64 with
      | Err e => Err ("revision must be the number of a revision to go back to: " +s+ parseFailure (given r "revision") e)
      | Ok revision => Ok (Actions.MkRequest ref action 0 revision force dryRun)
      end
    else
      let replicas := given r "replicas" in
      if bool_decide (action <> Routes.Scale) then Ok (Actions.MkRequest ref action 0 0 force dryRun)
      else if bool_decide (replicas = "") then Err "replicas is required to scale"
      else match Parse.ParseInt replicas 32 with
      | Err e => Err ("replicas must be a number: " +s+ parseFailure replicas e)
      | Ok count => Ok (Actions.MkRequest ref action count 0 force dryRun)
      end.

Definition record (s : server) (r : web) (ctx : Context_) (now : time) (made : change) : prog (answer U) () :=
  if ch_dryRun made then Return tt
  else if negb (past s) then Return tt
  else
    _ <-- ask (Record_ (MkEntry (clusterKey s r) now (ch_verb made) (actorOf ctx) (ch_ref made) (ch_kind made)
        (auditText (ch_detail made)) (outcomeOf (ch_err made)) (auditText (messageOf (ch_err made)))));;
    Return tt.

Definition refuseUnconfirmed {A} (name : string) : prog (answer U) (response A) :=
  Return (Failure 412 ("this cluster is protected; type " +s+ Quote name +s+ " to confirm")).

(** [writing]: the writer of the cluster, unless a name is to be confirmed. *)
Definition writing {A} (s : server) (r : web) (confirm : string) (rest : prog (answer U) (response A)) : prog (answer U) (response A) :=
  if bool_decide (confirm <> unguarded) && unconfirmed s r confirm then refuseUnconfirmed confirm else rest.

Definition writeAPIError {A} (e : Respond.error) : response A := Failure (Respond.statusFor e) (Respond.e_text e).

Definition sent {A} (r : result Respond.error A) : response A := match r with Ok a => Sent a | Err e => writeAPIError e end.

Definition handleAction (s : server) (r : web) (ctx : Context_) (now : time) : prog (answer U) (response Actions.ActionResult) :=
  match actionRequest r with
  | Err text => Return (Failure 400 text)
  | Ok req =>
      let need := Routes.actionRole (Actions.Action req) in
      if inCluster s && negb (Routes.holdsRole ctx need) then
        Return (Failure 403 ("your role here is " +s+ Routes.heldRole ctx +s+ "; this needs " +s+ need))
      else
        let confirm := if guarded req then or_Name (Actions.Ref req) else unguarded in
        writing s r confirm (
          result <-- Actions.Do req now;;
          let err := match result with Err e => Some e | Ok done_ => incompleteAction done_ end in
          _ <-- record s r ctx now (MkChange (Actions.Action req) (Actions.Ref req) "" (actionDetail req) (Actions.DryRun req) err);;
          Return (sent result))
  end.

Definition fluxAction (s : server) (r : web) (ctx : Context_) (now : time) : prog (answer U) (response Flux.FluxActionResult) :=
  let ref := refFrom r in
  let action := given r "action" in
  let confirm := if patchesTheCluster action then or_Name ref else unguarded in
  writing s r confirm (
    result <-- Flux.Do (descriptors s) ref action now;;
    _ <-- record s r ctx now (MkChange action ref "" "" false (error_of result));;
    Return (sent result)).

(** The body: unreadable, not JSON, or the options; none at all are the zero ones. *)
Definition argoAction (s : server) (r : web) (ctx : Context_) (now : time)
    (body : result Respond.error (result string argoActionBody)) : prog (answer U) (response string) :=
  let ref := refFrom r in
  match body with
  | Err e => Return (writeAPIError e)
  | Ok (Err text) => Return (Failure 400 ("the action options must be json: " +s+ text))
  | Ok (Ok dto) =>
      let req := argoRequest (given r "action") dto in
      let confirm := if changesTheCluster (Argocd.Action req) then or_Name ref else unguarded in
      writing s r confirm (
        result <-- Argocd.Do ref req;;
        _ <-- record s r ctx now (MkChange (Argocd.Action req) ref "" (argoDetail req) (b_DryRun dto) (error_of result));;
        Return (sent result))
  end.

Definition applyObject (s : server) (r : web) (ctx : Context_) (now : time) (body : result Respond.error string)
    : prog (answer U) (response Inspect.ObjectDetail) :=
  let ref := refFrom r in
  writing s r (or_Name ref) (
    match body with
    | Err e => Return (writeAPIError e)
    | Ok doc =>
        result <-- Inspect.Apply (appliers s) ref (kindFor s ref) doc;;
        let kind := match result with Ok detail => Inspect.od_Kind detail | Err _ => "" end in
        _ <-- record s r ctx now (MkChange "apply" ref kind "" false (error_of result));;
        Return (sent result)
    end).

Definition deleteObject (s : server) (r : web) (ctx : Context_) (now : time) : prog (answer U) (response ()) :=
  let ref := refFrom r in
  writing s r (or_Name ref) (
    result <-- Inspect.Delete ref (given r "uid");;
    _ <-- record s r ctx now (MkChange "delete" ref "" "" false (error_of result));;
    Return match result with Ok _ => NoContent | Err e => writeAPIError e end).

(** ** Every change is confirmed and recorded *)

Definition quiet (c : call) : Prop := records c = false.

(** What [record] gives the audit store of a change. *)
Definition recorded (s : server) (r : web) (ctx : Context_) (now : time) (made : change) : entry :=
  MkEntry (clusterKey s r) now (ch_verb made) (actorOf ctx) (ch_ref made) (ch_kind made) (auditText (ch_detail made))
    (outcomeOf (ch_err made)) (auditText (messageOf (ch_err made))).

(** A change is made, recorded if it is [kept], and then answered. *)
Lemma recorded_wp {A B} s r ctx now P (p : prog (answer U) A) (made : A -> change) (f : A -> response B) (kept : bool)
    (Q : list call -> response B -> Prop) :
  (forall a, past s && negb (ch_dryRun (made a)) = kept) -> only P p ->
  (forall calls a, Forall P calls -> Q (calls ++ if kept then [Record_ (recorded s r ctx now (made a))] else []) (f a)) ->
  wp (a <-- p;; _ <-- record s r ctx now (made a);; Return (f a)) [] Q.
Proof.
  intros Hkept Hp HQ. apply wp_bind. eapply wp_mono; [| apply (only_run P p []); [constructor | exact Hp]].
  intros calls a Hc. specialize (HQ calls a Hc). specialize (Hkept a). unfold record.
  destruct (ch_dryRun (made a)), (past s), kept; try done; cbn in *; by rewrite ?app_nil_r in HQ.
Qed.

(** The confirmation the caller typed. *)
Definition confirmed (s : server) (r : web) (name : string) : Prop :=
  Protected s (clusterKey s r) = true -> given r "confirm" = name.

Lemma writing_wp {A} s r name (rest : prog (answer U) (response A)) (Q : list call -> response A -> Prop) :
  ((name <> "" -> confirmed s r name) -> wp rest [] Q) -> (forall text, Q [] (Failure 412 text)) -> wp (writing s r name rest) [] Q.
Proof.
  intros Hrest Hno. unfold writing, unguarded. destruct (bool_decide (name <> "")) eqn:Hname; breflect; cbn [andb]; [| by apply Hrest].
  destruct (unconfirmed s r name) eqn:E; [apply Hno |]. apply Hrest. intros _ Hp. unfold unconfirmed in E. rewrite Hp in E.
  cbn in E. apply bool_decide_eq_false in E. by destruct (decide (given r "confirm" = name)).
Qed.

Definition accepted {A} (answer : response A) : bool := match answer with Failure _ _ => false | _ => true end.

(** What a run of a handler that is asked for a change comes to.  It keeps to
    the calls [P]; if the change is one to be [asked] about, none is made that
    the caller did not confirm.  A change that is to be [kept] is recorded last
    and once, however it ended, under its own verb, object, cluster and actor,
    as done only if it is answered so, unless it was refused before anything
    was asked of the cluster; any other is not recorded. *)
Definition accounted {A} (s : server) (r : web) (ctx : Context_) (now : time) (verb : string) (P : call -> Prop) (asked kept : bool)
    (calls : list call) (answer : response A) : Prop :=
  (asked = true -> existsb writes calls = true -> confirmed s r (or_Name (refFrom r))) /\
  (kept = false -> Forall P calls /\ Forall quiet calls) /\
  (kept = true -> calls = [] /\ accepted answer = false \/
     exists before e, calls = before ++ [Record_ e] /\ Forall P before /\ Forall quiet before /\
       en_Cluster e = clusterKey s r /\ en_At e = now /\ en_Actor e = actorOf ctx /\ en_Verb e = verb /\ en_Ref e = refFrom r /\
       (en_Outcome e = HistoryDone -> accepted answer = true)).

(** The calls a program makes are not records. *)
Definition unrecording (P : call -> Prop) : Prop := forall e, P (Record_ e) -> False.

Lemma unrecording_quiet P calls : unrecording P -> Forall P calls -> Forall quiet calls.
Proof. intros HP. apply List.Forall_impl. intros [] Hc; try done. by apply HP in Hc. Qed.

(** A request refused before anything is asked of the cluster. *)
Lemma refused_accounted {A} s r ctx now verb P asked kept status text :
  accounted s r ctx now verb P asked kept [] (Failure (A := A) status text).
Proof. repeat split; try done. intros _. by left. Qed.

Lemma writing_accounted {A B} s r ctx now P (p : prog (answer U) A) (made : A -> change) (f : A -> response B) verb confirm asked kept :
  or_Name (refFrom r) <> "" -> unrecording P -> only P p ->
  (asked = true -> confirm = or_Name (refFrom r) \/ only (fun c => writes c = false) p) ->
  (forall a, past s && negb (ch_dryRun (made a)) = kept) ->
  (forall a, ch_verb (made a) = verb /\ ch_ref (made a) = refFrom r /\ (ch_err (made a) = None -> accepted (f a) = true)) ->
  wp (writing s r confirm (a <-- p;; _ <-- record s r ctx now (made a);; Return (f a))) []
    (accounted s r ctx now verb P asked kept).
Proof.
  intros Hname HP Hp Hask Hkept Hmade. apply writing_wp; [| intros text; apply refused_accounted]. intros Hconf.
  assert (only (fun c => P c /\ (asked = true -> writes c = true -> confirmed s r (or_Name (refFrom r)))) p) as Hboth.
  { apply only_and; [done |]. destruct asked; [| eapply only_mono; [| exact Hp]; done]. destruct (Hask eq_refl) as [-> | Hno].
    - eapply only_mono; [| exact Hp]. intros c _ _ _. by apply Hconf.
    - eapply only_mono; [| exact Hno]. intros c Hc _ Hw. congruence. }
  apply (recorded_wp _ _ _ _ _ p made f kept _ Hkept Hboth). intros calls a Hc. apply list.Forall_and in Hc as [HPc Hw].
  apply unrecording_quiet in HPc as Hq; [| done]. destruct (Hmade a) as (Hv & Hr & He). split; [| split].
  - intros Hask'. rewrite existsb_app. intros [Hx | Hx]%orb_prop; [| by destruct kept]. apply existsb_elem in Hx as (c & Hin & Hwc).
    eapply list.Forall_forall in Hw; [| exact Hin]. by apply Hw.
  - intros ->. by rewrite app_nil_r.
  - intros ->. right. exists calls, (recorded s r ctx now (made a)). repeat split; try done. cbn. unfold outcomeOf.
    destruct (ch_err (made a)) as [err |]; [| by auto]. by case_match.
Qed.

Lemma actionRequest_ok r req :
  actionRequest r = Ok req ->
  or_Name (refFrom r) <> "" /\ Actions.Ref req = refFrom r /\ Actions.Action req = given r "action" /\
  Actions.Force req = bool_decide (given r "force" = queryTrue) /\ Actions.DryRun req = bool_decide (given r "dryRun" = queryTrue).
Proof.
  unfold actionRequest. destruct (_ || _ || _) eqn:E; [done |]. apply orb_false_iff in E as [_ Hn]. breflect.
  assert (or_Name (refFrom r) <> "") as Hname by (by intros Hx; rewrite Hx in Hn).
  case_bool_decide as Ha; [by destruct (Parse.ParseInt _ _); [intros [= <-] |] |].
  case_bool_decide; [by intros [= <-] |]. case_bool_decide; [done |]. by destruct (Parse.ParseInt _ _); [intros [= <-] |].
Qed.

Lemma known_guarded req : Actions.DryRun req = false -> Actions.known (Actions.Action req) = true -> guarded req = true.
Proof. intros Hd Hk. unfold guarded. by rewrite Hd. Qed.

Lemma Do_unknown req now : Actions.known (Actions.Action req) = false -> only (fun _ => False) (Actions.Do (U := U) req now).
Proof. intros H. unfold Actions.Do. case_bool_decide; [done |]. by rewrite H. Qed.

Lemma flux_unknown descs ref action now :
  patchesTheCluster action = false -> only (fun c => writes c = false) (Flux.Do (U := U) descs ref action now).
Proof.
  intros Ha. eapply only_mono; [| apply Flux.flux_within]. intros [] Hc; try done.
  destruct Hc as (_ & Hin & _). exfalso. apply contains_spec in Hin. unfold patchesTheCluster in Ha. congruence.
Qed.

Lemma sent_accepted {A} (a : result Respond.error A) : error_of a = None -> accepted (sent a) = true.
Proof. by destruct a. Qed.

(** What is recorded of an action. *)
Definition actionChange (req : Actions.Request) (result : result Respond.error Actions.ActionResult) : change :=
  MkChange (Actions.Action req) (Actions.Ref req) "" (actionDetail req) (Actions.DryRun req)
    match result with Err e => Some e | Ok done_ => incompleteAction done_ end.

(** A request for an action, as it is read: what it names, and whether it is
    only tried; and that the caller holds the role it needs. *)
Definition read_as (s : server) (r : web) (ctx : Context_) (req : Actions.Request) : Prop :=
  Actions.Ref req = refFrom r /\ Actions.Action req = given r "action" /\
  Actions.Force req = bool_decide (given r "force" = queryTrue) /\ Actions.DryRun req = bool_decide (given r "dryRun" = queryTrue) /\
  (inCluster s = true -> Routes.holdsRole ctx (Routes.actionRole (given r "action")) = true).

Lemma handleAction_accounted s r ctx now :
  wp (handleAction s r ctx now) [] (fun calls answer =>
    calls = [] /\ accepted answer = false \/
    exists req, actionRequest r = Ok req /\ read_as s r ctx req /\
      accounted s r ctx now (given r "action") (Actions.within req) (negb (Actions.DryRun req)) (past s && negb (Actions.DryRun req)) calls answer).
Proof.
  unfold handleAction. destruct (actionRequest r) as [req | text] eqn:E; [| by left].
  apply actionRequest_ok in E as (Hname & Href & Hact & Hforce & Hd).
  destruct (inCluster s && negb (Routes.holdsRole ctx (Routes.actionRole (Actions.Action req)))) eqn:Erole; [by left |].
  eapply wp_mono.
  { intros calls a H. right. exists req. split; [done |]. split; [| exact H]. repeat split; try done. intros Hin. rewrite Hin, Hact in Erole. by apply negb_false_iff in Erole. }
  apply (writing_accounted s r ctx now (Actions.within req) (Actions.Do req now) (actionChange req) sent);
    [done | by intros e | apply Actions.action_within | | done | intros a; rewrite <- Hact, <- Href; repeat split; by destruct a].
  intros Hdry%negb_true_iff. destruct (Actions.known (Actions.Action req)) eqn:Ek.
  - left. rewrite known_guarded by done. by rewrite Href.
  - right. eapply only_mono; [| by apply Do_unknown]. done.
Qed.

(** A drain or an undo that is only tried changes nothing. *)
Lemma handleAction_tried s r ctx now :
  given r "dryRun" = queryTrue -> given r "action" = Routes.Drain \/ given r "action" = Routes.Undo ->
  only (fun c => writes c = false) (handleAction s r ctx now).
Proof.
  intros Hdry Ha. unfold handleAction. destruct (actionRequest r) as [req | text] eqn:E; [| done].
  apply actionRequest_ok in E as (_ & _ & Hact & _ & Hd). rewrite Hdry, bool_decide_eq_true_2 in Hd by done. rewrite <- Hact in Ha.
  case_match; [done |]. unfold writing. case_match; [done |].
  apply only_bind; [by apply Actions.Do_dry_run | intros a]. unfold record. by rewrite Hd.
Qed.

(** What it evicts and creates is drawn from what it was answered. *)
Lemma handleAction_drawn s r ctx now req : actionRequest r = Ok req -> follows (Actions.drawn req) [] (handleAction s r ctx now).
Proof.
  intros E. unfold handleAction. rewrite E. case_match; [done |]. unfold writing. case_match; [done |].
  apply follows_bind; [apply Actions.action_drawn |]. intros t a. apply Actions.plainly_drawn. unfold record. by repeat case_match.
Qed.

Lemma fluxAction_accounted s r ctx now :
  given r "name" <> "" ->
  wp (fluxAction s r ctx now) [] (accounted s r ctx now (given r "action") (Flux.within (refFrom r) (given r "action")) true (past s)).
Proof.
  intros Hname. apply (writing_accounted s r ctx now _ (Flux.Do (descriptors s) (refFrom r) (given r "action") now)
    (fun result => MkChange (given r "action") (refFrom r) "" "" false (error_of result)) sent);
    [done | by intros e | apply Flux.flux_within | | intros a; apply andb_true_r | by intros []].
  intros _. destruct (patchesTheCluster (given r "action")) eqn:E; [by left | right; by apply flux_unknown].
Qed.

(** Whether a body asks that an Argo CD action only be tried. *)
Definition triedOnly (body : result Respond.error (result string argoActionBody)) : bool :=
  match body with Ok (Ok dto) => b_DryRun dto | _ => false end.

Lemma argoAction_accounted s r ctx now body :
  given r "name" <> "" ->
  wp (argoAction s r ctx now body) [] (accounted s r ctx now (given r "action") (Argocd.within (refFrom r))
    (changesTheCluster (given r "action")) (past s && negb (triedOnly body))).
Proof.
  intros Hname. destruct body as [[dto | text] | e]; [| apply refused_accounted | apply refused_accounted].
  apply (writing_accounted s r ctx now _ (Argocd.Do (refFrom r) (argoRequest (given r "action") dto))
    (fun result => MkChange (given r "action") (refFrom r) "" (argoDetail (argoRequest (given r "action") dto)) (b_DryRun dto)
       (error_of result)) sent); [done | by intros e | apply Argocd.argo_within | | done | by intros []].
  intros Hact. left. cbn [Argocd.Action argoRequest]. by rewrite Hact.
Qed.

Lemma applyObject_accounted s r ctx now body :
  given r "name" <> "" ->
  wp (applyObject s r ctx now body) []
    (accounted s r ctx now "apply" (Inspect.applies (refFrom r) (kindFor s (refFrom r))) true (past s)).
Proof.
  intros Hname. destruct body as [doc | e]; [| apply writing_wp; intros; apply refused_accounted].
  apply (writing_accounted s r ctx now _ (Inspect.Apply (appliers s) (refFrom r) (kindFor s (refFrom r)) doc)
    (fun result => MkChange "apply" (refFrom r) match result with Ok detail => Inspect.od_Kind detail | Err _ => "" end "" false
       (error_of result)) sent);
    [done | by intros e | apply Inspect.Apply_applies | by left | intros a; apply andb_true_r | by intros []].
Qed.

Lemma deleteObject_accounted s r ctx now :
  given r "name" <> "" ->
  wp (deleteObject s r ctx now) [] (accounted s r ctx now "delete"
    (fun c => c = Kube.Delete (refFrom r) (given r "uid") /\ given r "uid" <> "") true (past s)).
Proof.
  intros Hname. apply (writing_accounted s r ctx now _ (Inspect.Delete (refFrom r) (given r "uid"))
    (fun result => MkChange "delete" (refFrom r) "" "" false (error_of result))
    (fun result => match result with Ok _ => NoContent | Err e => writeAPIError e end));
    [done | by intros e [H _] | apply Inspect.Delete_deletes | by left | intros a; apply andb_true_r | by intros []].
Qed.

(** C3: whatever a cluster and its clients answer a request that names an
    object.  An action, dry run or not, is refused with nothing asked of the
    cluster, or it was read from the request, the caller holds the role it
    needs in a cluster, and it changes nothing but what its reference names: a
    drain evicts, as planned, exactly the pods that were listed of the named
    node and none when one cannot be evicted safely, and a trigger creates the
    job of the named cron job.  Unless it is a dry run, a change on a protected
    cluster was confirmed by the name, and where there is an audit store the
    attempt is recorded once and last, however it ended, with who asked for
    what of which object of which cluster, as done only if it is answered so.
    A dry run is not recorded, and of a drain or an undo it changes nothing (of
    the other actions it changes what it names, unconfirmed: see
    [dry_run_is_carried_out]).  A Flux action, an apply and a delete are
    confirmed and recorded likewise.  So is an Argo CD action, except that a
    refresh or a terminate asks for no confirmation and a dry run is not
    recorded. *)
Theorem changes_accounted {W} {Sv : Server (answer U) W} s r ctx now w :
  given r "name" <> "" ->
  (forall w' calls a, exec (handleAction s r ctx now) w = (w', calls, a) ->
     calls = [] /\ accepted a = false \/
     exists req, actionRequest r = Ok req /\ read_as s r ctx req /\
       accounted s r ctx now (given r "action") (Actions.within req) (negb (Actions.DryRun req)) (past s && negb (Actions.DryRun req)) calls a /\
       (forall pre c x post, log (handleAction s r ctx now) w = pre ++ existT c x :: post -> Actions.drawn req pre c) /\
       (Actions.DryRun req = true -> given r "action" = Routes.Drain \/ given r "action" = Routes.Undo -> existsb writes calls = false)) /\
  (forall w' calls a, exec (fluxAction s r ctx now) w = (w', calls, a) ->
     accounted s r ctx now (given r "action") (Flux.within (refFrom r) (given r "action")) true (past s) calls a) /\
  (forall body w' calls a, exec (argoAction s r ctx now body) w = (w', calls, a) ->
     accounted s r ctx now (given r "action") (Argocd.within (refFrom r)) (changesTheCluster (given r "action"))
       (past s && negb (triedOnly body)) calls a) /\
  (forall body w' calls a, exec (applyObject s r ctx now body) w = (w', calls, a) ->
     accounted s r ctx now "apply" (Inspect.applies (refFrom r) (kindFor s (refFrom r))) true (past s) calls a) /\
  (forall w' calls a, exec (deleteObject s r ctx now) w = (w', calls, a) ->
     accounted s r ctx now "delete" (fun c => c = Kube.Delete (refFrom r) (given r "uid") /\ given r "uid" <> "") true (past s) calls a).
Proof.
  intros Hname. split; [| split; [| split; [| split]]].
  - intros w' calls a He. destruct (wp_exec _ [] _ _ _ _ _ (handleAction_accounted s r ctx now) He) as [Hno | (req & Hreq & Hread & Hacc)]; [by left |].
    right. exists req. split; [done | split; [done | split; [done | split]]].
    + intros pre c x post. apply (follows_log _ _ []). by apply handleAction_drawn.
    + intros Hdry Ha. assert (given r "dryRun" = queryTrue) as Hd by (destruct Hread as (_ & _ & _ & Hd & _); rewrite Hd in Hdry; by breflect).
      pose proof (wp_exec _ [] _ _ _ _ _ (only_run _ _ [] (list.Forall_nil_2 _) (handleAction_tried s r ctx now Hd Ha)) He) as Hall.
      apply not_true_iff_false. intros (c & Hin & Hw)%existsb_elem. eapply list.Forall_forall in Hall; [| exact Hin]. cbn in Hall. congruence.
  - intros w' calls a He. exact (wp_exec _ [] _ _ _ _ _ (fluxAction_accounted s r ctx now Hname) He).
  - intros body w' calls a He. exact (wp_exec _ [] _ _ _ _ _ (argoAction_accounted s r ctx now body Hname) He).
  - intros body w' calls a He. exact (wp_exec _ [] _ _ _ _ _ (applyObject_accounted s r ctx now body Hname) He).
  - intros w' calls a He. exact (wp_exec _ [] _ _ _ _ _ (deleteObject_accounted s r ctx now Hname) He).
Qed.
End handlers.

(** ** A server that grants everything *)

#[export] Instance granting : Server (answer Doc) nat := fun c w =>
  (S w, match c return answer Doc c with
        | GetObject _ | Patch _ _ _ | CreateJob _ _ | Update _ _ => Ok (MkDoc [])
        | ListObjects _ => Ok []
        | ListPods _ => Ok []
        | Kube.Delete _ _ => None
        | EvictPods plans => (Drain.outcomesOf plans, false)
        | Record_ _ => None
        end).

Definition plain_yaml : YAML := {| UnmarshalYAML s := Err s; MarshalYAML m := Ok "{}" |}.
Definition plain_stamps : Stamps := fun t => "t".

(** A scale of a deployment to nothing on a protected cluster. *)
Definition exampleServer : server := MkServer true (fun _ => true) "c1" true [] (fun _ => "Deployment") Inspect.fluxAppliers.

Definition exampleScale (confirm dryRun : string) : web :=
  MkWeb "POST" "/api/action" "spinoza.example" (Authenticator.MkRequest (fun _ => "") (fun _ => None)
    (fun key =>
       default "" (list_to_map (M := gmap string string)
         [("action", "scale"); ("replicas", "0"); ("group", "apps"); ("version", "v1"); ("resource", "deployments");
          ("namespace", "default"); ("name", "web"); ("confirm", confirm); ("dryRun", dryRun)] !! key)) "10.0.0.7:4000").

Definition exampleEditor : Context_ := Some (MkIdentity "ana" [] RoleEditor "s1").

Definition exampleRun (confirm dryRun : string) : nat * list call * response Actions.ActionResult :=
  exec (handleAction (Tm := Issues.plain_times) (Qt := Access.exampleQuoting) (U := Doc) exampleServer (exampleScale confirm dryRun)
    exampleEditor 0%Z) 0.

Definition webRef : ObjectRef := MkObjectRef "apps" "v1" "deployments" "default" "web".

Lemma changes_accounted_witness :
  existsb writes (exampleRun "web" "").1.2 = true /\
  given (exampleScale "web" "") "confirm" = "web" /\
  exists before e, (exampleRun "web" "").1.2 = before ++ [Record_ e] /\ en_Actor e = "ana" /\ en_Ref e = webRef.
Proof.
  assert (existsb writes (exampleRun "web" "").1.2 = true) as Hw by (vm_compute; reflexivity). split; [exact Hw |].
  destruct (changes_accounted (Tm := Issues.plain_times) (Qt := Access.exampleQuoting) (Ym := plain_yaml) (St := plain_stamps)
    (U := Doc) (W := nat) exampleServer (exampleScale "web" "") exampleEditor 0%Z 0 ltac:(vm_compute; discriminate))
    as (H & _).
  destruct (H _ _ _ eq_refl) as [[Hno _] | (req & Hreq & _ & (Hc & _ & Hk) & _)]; [vm_compute in Hno; discriminate |].
  vm_compute in Hreq. injection Hreq as <-. split; [exact (Hc eq_refl Hw eq_refl) |].
  destruct (Hk eq_refl) as [[Hno _] | (before & e & Hcalls & _ & _ & _ & _ & Hactor & _ & Href & _)]; [vm_compute in Hno; discriminate |].
  exists before, e. repeat split; [exact Hcalls | rewrite Hactor; reflexivity |]. rewrite Href. vm_compute. reflexivity.
Defined.

(** A dry run of an action other than a drain or an undo is carried out: the
    deployment is scaled with no name typed, and nothing is recorded. *)
Theorem dry_run_is_carried_out :
  (exampleRun "" "true").1.2 = [Patch webRef "scale" [("spec", AMap [("replicas", AInt 0)])]] /\
  accepted (exampleRun "" "true").2 = true /\
  accepted (exampleRun "" "").2 = false /\ (exampleRun "" "").1.2 = [].
Proof. vm_compute. repeat split. Qed.

End Handlers.
