(* ===== verification/Corpus.v ===== *)
(** internal/checks, what an audit reads: subject.go, corpus.go, origin.go and
    consumers.go.  The objects a lister gives become the corpus the rules look
    things up in and the subjects they judge. *)

From S2P Require Import Prelude Api Text Unstr Faults Kube Inspect.

(** The owner references of an object as apiVersion, kind and name, and its
    [generateName]. *)
Class Owned (U : Type) := {
  GetOwners : U -> list (string * string * string);
  GetGenerateName : U -> string;
}.

Module Corpus.
Import Api Text Unstr.

(** ** Origins *)

Definition originPackaged : string := "packaged".
Definition originSystem : string := "system".
Definition helmReleaseAnnotation : string := "meta.helm.sh/release-name".
Definition helmManagedLabel : string := "app.kubernetes.io/managed-by".
Definition helmManagerName : string := "Helm".
Definition fluxKustomizeLabel : string := "kustomize.toolkit.fluxcd.io/name".
Definition fluxHelmLabel : string := "helm.toolkit.fluxcd.io/name".
Definition argoInstanceLabel : string := "argocd.argoproj.io/instance".

Definition systemNamespaces : list string := ["kube-system"; "kube-public"; "kube-node-lease"].

Definition originRank (origin : string) : string :=
  if bool_decide (origin = originPackaged) then "1" else if bool_decide (origin = originSystem) then "2" else "0".

(** ** Kinds *)

Record target := MkTarget { t_group : string; t_resource : string }.

#[export] Instance target_eq_dec : EqDecision target.
Proof. solve_decision. Defined.

Definition targets : list target :=
  [MkTarget "" "pods"; MkTarget "apps" "deployments"; MkTarget "apps" "statefulsets"; MkTarget "apps" "daemonsets";
   MkTarget "apps" "replicasets"; MkTarget "" "replicationcontrollers"; MkTarget "batch" "jobs"; MkTarget "batch" "cronjobs"].

Definition factTargets : list target :=
  [MkTarget "" "nodes"; MkTarget "" "namespaces"; MkTarget "" "resourcequotas"; MkTarget "" "limitranges"].

Definition contextTargets : list target :=
  [MkTarget "" "services"; MkTarget "" "serviceaccounts"; MkTarget "" "configmaps"; MkTarget "" "persistentvolumeclaims";
   MkTarget "networking.k8s.io" "ingresses"; MkTarget "networking.k8s.io" "ingressclasses";
   MkTarget "networking.k8s.io" "networkpolicies"; MkTarget "policy" "poddisruptionbudgets";
   MkTarget "autoscaling" "horizontalpodautoscalers"; MkTarget "storage.k8s.io" "storageclasses";
   MkTarget "scheduling.k8s.io" "priorityclasses"; MkTarget "node.k8s.io" "runtimeclasses";
   MkTarget "rbac.authorization.k8s.io" "roles"; MkTarget "rbac.authorization.k8s.io" "rolebindings";
   MkTarget "rbac.authorization.k8s.io" "clusterroles"; MkTarget "rbac.authorization.k8s.io" "clusterrolebindings"].

Definition secretsResource : string := "secrets".
Definition configMapsResource : string := "configmaps".
Definition nameOnlyTargets : list target := [MkTarget "" secretsResource].

Definition mentionTargets : list target :=
  [MkTarget "" "persistentvolumes"; MkTarget "" "podtemplates";
   MkTarget "admissionregistration.k8s.io" "mutatingwebhookconfigurations";
   MkTarget "admissionregistration.k8s.io" "validatingwebhookconfigurations"; MkTarget "apiregistration.k8s.io" "apiservices"].

Definition targetsFor (wholeCluster : bool) : list target :=
  targets ++ factTargets ++ if negb wholeCluster then [] else contextTargets ++ nameOnlyTargets.

Definition allTargets : list target := targetsFor true.

Definition targetOf (desc : ResourceDescriptor) : target := MkTarget (rd_Group desc) (rd_Resource desc).

Definition isNameOnly (desc : ResourceDescriptor) : bool := contains nameOnlyTargets (targetOf desc).
Definition isSubjectKind (desc : ResourceDescriptor) : bool := contains targets (targetOf desc).
Definition mentionOnly (desc : ResourceDescriptor) : bool := contains mentionTargets (targetOf desc).

Definition customResources : string := "Custom Resources".

Definition borrowed (desc : ResourceDescriptor) : bool :=
  if bool_decide (rd_Category desc = customResources) then true else mentionOnly desc.

(** The descriptors are in the order their map is walked. *)
Definition matching (descs : list ResourceDescriptor) (want : target) : option ResourceDescriptor :=
  List.find (fun desc => bool_decide (targetOf desc = want)) descs.

Fixpoint neededOf (descs : list ResourceDescriptor) (wanted : list target) : list ResourceDescriptor * list string :=
  match wanted with
  | [] => ([], [])
  | want :: rest =>
      let '(found, absent) := neededOf descs rest in
      match matching descs want with
      | None => (found, t_resource want :: absent)
      | Some desc => (desc :: found, absent)
      end
  end.

Definition needed (descs : list ResourceDescriptor) (wholeCluster : bool) : list ResourceDescriptor * list string :=
  neededOf descs (targetsFor wholeCluster).

Definition mentionKinds (descs : list ResourceDescriptor) : list ResourceDescriptor := omap (matching descs) mentionTargets.

Definition descKey (desc : ResourceDescriptor) : string :=
  rd_Group desc +s+ "/" +s+ rd_Version desc +s+ "/" +s+ rd_Resource desc.

Definition byDescKey : ResourceDescriptor -> ResourceDescriptor -> Z := cmp_on descKey str_compare.

Definition customKinds (descs : list ResourceDescriptor) : list ResourceDescriptor :=
  sort_by byDescKey (List.filter (fun desc => bool_decide (rd_Category desc = customResources)) descs).

Definition everyDiscovered (descs : list ResourceDescriptor) : list ResourceDescriptor := sort_by byDescKey descs.

Definition extraWarmKinds : Z := 25.

Fixpoint unseen (seen : list string) (cached : list ResourceDescriptor) : list ResourceDescriptor :=
  match cached with
  | [] => []
  | desc :: rest =>
      if contains seen (descKey desc) then unseen seen rest else desc :: unseen (descKey desc :: seen) rest
  end.

Definition alsoWarm (cached already : list ResourceDescriptor) : list ResourceDescriptor :=
  ztake extraWarmKinds (sort_by byDescKey (unseen (map descKey already) cached)).

Definition undiscovered (absent : list string) : string :=
  if bool_decide (absent = []) then "" else "not discovered yet, so nothing of these types was audited: " +s+ Join ", " absent.

Definition groupOf (apiVersion : string) : string :=
  let '(group, _, found) := str_cut apiVersion "/" in if negb found then "" else group.

Definition kindKey (group kind : string) : string := group +s+ "/" +s+ kind.

(** ** Names and who reads them *)

Record Named := MkNamed { n_Ref : ObjectRef; n_Owned : bool; n_Manager : string }.

Definition fluxLabels : list string := ["helm.toolkit.fluxcd.io/name"; "kustomize.toolkit.fluxcd.io/name"].

Definition ManagerOf (labels : option (gmap string string)) : string :=
  if existsb (fun key => bool_decide (Inspect.of_map labels key <> "")) fluxLabels then "Flux"
  else Inspect.of_map labels helmManagedLabel.

Record consumer := MkConsumer {
  c_who : string;
  c_resource : string;
  c_namespace : string;
  c_name : string;
  c_prefix : string;
  c_suffix : string;
}.

Definition knownConsumers : list consumer :=
  [MkConsumer "the Kubernetes controller manager" configMapsResource "" "kube-root-ca.crt" "" "";
   MkConsumer "Helm, which keeps release history here" secretsResource "" "" "sh.helm.release.v1." "";
   MkConsumer "k3s, which serves the apiserver with it" secretsResource "kube-system" "k3s-serving" "" "";
   MkConsumer "k3s, which authenticates a node with it" secretsResource "kube-system" "" "" ".node-password.k3s";
   MkConsumer "k3s, which reads the cluster DNS address and domain from it" configMapsResource "kube-system" "cluster-dns" "" ""].

Definition consumer_covers (c : consumer) (resource : string) (ref : ObjectRef) : bool :=
  if bool_decide (c_resource c <> resource) then false
  else if bool_decide (c_namespace c <> "") && bool_decide (c_namespace c <> or_Namespace ref) then false
  else if bool_decide (c_name c <> "") then bool_decide (c_name c = or_Name ref)
  else if bool_decide (c_prefix c <> "") then has_prefix (or_Name ref) (c_prefix c)
  else bool_decide (c_suffix c <> "") && has_suffix (or_Name ref) (c_suffix c).

Definition consumedBy (resource : string) (held : Named) : string :=
  if n_Owned held then "something in this cluster owns it, so it is not loose"
  else match List.find (fun one => consumer_covers one resource (n_Ref held)) knownConsumers with
  | Some one => "it is read by " +s+ c_who one
  | None =>
      if bool_decide (n_Manager held <> "") then "it is managed by " +s+ n_Manager held +s+ ", which will put it back" else ""
  end.

(** ** Subjects *)

Definition ownerDepth : nat := 4.
Definition specField : string := "spec".
Definition metadataField : string := "metadata".
Definition daemonSetKind : string := "DaemonSet".
Definition cronKind : string := "CronJob".

Record Container := MkContainer { ct_Name : string; ct_Init : bool; ct_Spec : amap }.
Record Placed := MkPlaced { pd_Name : string; pd_Node : string }.

(** Every string a document holds, keys left out. *)
Fixpoint gatherStrings (value : any) (into : gset string) : gset string :=
  match value with
  | AString s => {[ s ]} ∪ into
  | ASlice l => (fix gather l into := match l with [] => into | v :: l => gather l (gatherStrings v into) end) l into
  | AMap m => (fix gather m into := match m with [] => into | (_, v) :: m => gather m (gatherStrings v into) end) m into
  | _ => into
  end.

Definition templatePath (kind : string) : list string :=
  if bool_decide (kind = "Pod") then [specField]
  else if bool_decide (kind = cronKind) then [specField; "jobTemplate"; specField; "template"; specField]
  else [specField; "template"; specField].

Definition listedContainers (spec : amap) (field : string) (init : bool) : list Container :=
  match asSlice (aget spec field) with
  | None => []
  | Some raw =>
      omap (fun entry => match asMap (Some entry) with Some item => Some (MkContainer (At item "name") init item) | None => None end) raw
  end.

Definition containersOf (spec : amap) : list Container :=
  sort_by (cmp_on ct_Name str_compare) (listedContainers spec "initContainers" true ++ listedContainers spec "containers" false).

Section corpus.
Context {U : Type} {Un : Unstructured U} {De : Described U} {Ed : Editable U} {Ow : Owned U}.

Definition managerOf (obj : U) : string :=
  let labels := GetLabels obj in
  let helm := Inspect.of_map labels fluxHelmLabel in
  let kustomize := Inspect.of_map labels fluxKustomizeLabel in
  let release := Inspect.of_map (GetAnnotations obj) helmReleaseAnnotation in
  let argo := Inspect.of_map labels argoInstanceLabel in
  if bool_decide (helm <> "") then "Flux: " +s+ helm
  else if bool_decide (kustomize <> "") then "Flux: " +s+ kustomize
  else if bool_decide (release <> "") then "Helm: " +s+ release
  else if bool_decide (argo <> "") then "Argo: " +s+ argo
  else if bool_decide (Inspect.of_map labels helmManagedLabel = helmManagerName) then helmManagerName
  else "".

(** The origin of an object and who manages it. *)
Definition originOf (obj : U) : string * string :=
  let named := managerOf obj in
  if bool_decide (named <> "") then (originPackaged, named)
  else if contains systemNamespaces (GetNamespace obj) then (originSystem, "")
  else ("", "").

Definition namedOf (ref : ObjectRef) (obj : U) : Named :=
  MkNamed ref (0 <? zlen (GetOwners obj))%Z (ManagerOf (GetLabels obj)).

Record Subject := MkSubject {
  s_Ref : ObjectRef;
  s_Kind : string;
  s_Object : option U;
  s_Pod : amap;
  s_Containers : list Container;
  s_Replicas : Z;
  s_Pods : list Placed;
  s_Origin : string;
  s_ManagedBy : string;
}.

Record held := MkHeld { h_desc : ResourceDescriptor; h_obj : U }.

Definition refOf (item : held) : ObjectRef :=
  MkObjectRef (rd_Group (h_desc item)) (rd_Version (h_desc item)) (rd_Resource (h_desc item))
    (GetNamespace (h_obj item)) (GetName (h_obj item)).

Definition specAt (obj : U) (fields : list string) : amap := default [] (UMap obj fields).

Definition countedOrOne (obj : U) (fields : list string) : Z :=
  let n := NestedInt64 obj fields in if negb (found n) || failed n then 1%Z else value n.

Definition replicasOf (obj : U) (kind : string) : Z :=
  if contains ["Deployment"; "StatefulSet"; "ReplicaSet"; "ReplicationController"] kind then countedOrOne obj [specField; "replicas"]
  else if bool_decide (kind = daemonSetKind) then UInt obj ["status"; "desiredNumberScheduled"]
  else if bool_decide (kind = "Job") then countedOrOne obj [specField; "parallelism"]
  else 1%Z.

Definition objectKey (obj : U) : string :=
  kindKey (GroupOf obj) (GetKind obj) +s+ "/" +s+ GetNamespace obj +s+ "/" +s+ GetName obj.

Definition index (items : list held) : gmap string held :=
  foldl (fun m item => <[objectKey (h_obj item) := item]> m) ∅ items.

Definition kindsOf (items : list held) : list string :=
  map (fun item => kindKey (GroupOf (h_obj item)) (GetKind (h_obj item))) items.

Definition owned (obj : U) (kinds : list string) : bool :=
  existsb (fun '(apiVersion, kind, _) => contains kinds (kindKey (groupOf apiVersion) kind)) (GetOwners obj).

Fixpoint firstOwner (namespace : string) (owners : list (string * string * string)) (byKey : gmap string held) : option held :=
  match owners with
  | [] => None
  | (apiVersion, kind, name) :: rest =>
      match byKey !! (kindKey (groupOf apiVersion) kind +s+ "/" +s+ namespace +s+ "/" +s+ name) with
      | Some found => Some found
      | None => firstOwner namespace rest byKey
      end
  end.

Definition ownerOf (item : held) (byKey : gmap string held) : option held :=
  firstOwner (GetNamespace (h_obj item)) (GetOwners (h_obj item)) byKey.

(** [ownerDepth] steps up. *)
Fixpoint topOwnerFrom (depth : nat) (current : held) (byKey : gmap string held) : held :=
  match depth with
  | O => current
  | S depth => match ownerOf current byKey with None => current | Some next => topOwnerFrom depth next byKey end
  end.

Definition topOwner (item : held) (byKey : gmap string held) : held := topOwnerFrom ownerDepth item byKey.

Definition placedByOwner (items : list held) (byKey : gmap string held) : gmap string (list Placed) :=
  let out := foldl (fun (out : gmap string (list Placed)) item =>
    if bool_decide (GetKind (h_obj item) <> "Pod") then out
    else
      let key := objectKey (h_obj (topOwner item byKey)) in
      <[key := default [] (out !! key) ++ [MkPlaced (GetName (h_obj item)) (UString (h_obj item) [specField; "nodeName"])]]> out)
    ∅ items in
  sort_by (cmp_on pd_Name str_compare) <$> out.

Definition subjectKey (subject : Subject) : string :=
  originRank (s_Origin subject) +s+ nul +s+ or_Namespace (s_Ref subject) +s+ "/" +s+ s_Kind subject +s+ "/" +s+ or_Name (s_Ref subject).

Definition subjectOf (item : held) (placed : list Placed) : Subject :=
  let obj := h_obj item in
  let kind := GetKind obj in
  let spec := specAt obj (templatePath kind) in
  let '(origin, managedBy) := originOf obj in
  MkSubject (refOf item) kind (Some obj) spec (containersOf spec) (replicasOf obj kind) placed origin managedBy.

Definition subjectFromHeld (item : held) : Subject :=
  let '(origin, managedBy) := originOf (h_obj item) in
  MkSubject (refOf item) (GetKind (h_obj item)) (Some (h_obj item)) [] [] 1 [] origin managedBy.

Definition subjectsOf (items : list held) : list Subject :=
  let byKey := index items in
  let kinds := kindsOf items in
  let placed := placedByOwner items byKey in
  sort_by (cmp_on subjectKey str_compare)
    (omap (fun item =>
       if negb (isSubjectKind (h_desc item)) || owned (h_obj item) kinds then None
       else Some (subjectOf item (default [] (placed !! objectKey (h_obj item))))) items).

(** ** The corpus *)

Record corpus := MkCorpus {
  co_items : list held;
  co_names : list Named;
  co_absent : list target;
  co_asked : list target;
  co_unread : list target;
  co_mentioned : gmap string Z;
}.

Definition bump (m : gmap string Z) (name : string) (by_ : Z) : gmap string Z := <[name := (default 0 (m !! name) + by_)%Z]> m.

Definition mentionedIn (objs : list U) : gmap string Z :=
  foldl (fun out obj =>
    set_fold (fun name out => bump out name 1) out (gatherStrings (AMap (ObjectOf obj)) ∅ ∖ {[ GetName obj ]})) ∅ objs.

Definition mentionedStrings (items : list held) : gmap string Z := mentionedIn (map h_obj items).
Definition countMentions (objs : list U) : gmap string Z := mentionedIn objs.

Definition newCorpus (items : list held) (names : list Named) (absent : list string) (asked unread : list target)
    (mentions : gmap string Z) : corpus :=
  MkCorpus items names
    (List.filter (fun want => negb (contains asked want) || contains absent (t_resource want)) allTargets ++ unread)
    asked unread
    (map_fold (fun name seen m => bump m name seen) (mentionedStrings items) mentions).

Definition refused (c : corpus) : string :=
  if bool_decide (co_unread c = []) then "" else Join ", " (sort_by str_compare (map t_resource (co_unread c))).

Definition mentionedElsewhere (c : corpus) (name : string) : bool := (0 <? default 0 (co_mentioned c !! name))%Z.

Definition of_ (c : corpus) (group resource : string) : list U :=
  map h_obj (List.filter (fun item => bool_decide (targetOf (h_desc item) = MkTarget group resource)) (co_items c)).

Definition has (c : corpus) (group resource : string) : bool := negb (contains (co_absent c) (MkTarget group resource)).

Definition read (c : corpus) (group resource : string) : bool :=
  match of_ c group resource with
  | _ :: _ => true
  | [] => contains (co_asked c) (MkTarget group resource) && has c group resource
  end.

Definition subjectsOfKind (c : corpus) (kind : string) : list Subject :=
  omap (fun item => if bool_decide (GetKind (h_obj item) <> kind) then None else Some (subjectFromHeld item)) (co_items c).

(** The names read of a resource whose objects were not. *)
Definition namesOf (c : corpus) (group resource : string) : list Named :=
  List.filter (fun n => bool_decide (or_Group (n_Ref n) = group) && bool_decide (or_Resource (n_Ref n) = resource)) (co_names c).

Definition named (c : corpus) (group resource namespace name : string) : bool :=
  match namesOf c group resource with
  | _ :: _ as names =>
    existsb (fun n => bool_decide ((or_Namespace (n_Ref n) +s+ "/" +s+ or_Name (n_Ref n)) = (namespace +s+ "/" +s+ name))) names
  | [] => existsb (fun obj => bool_decide (GetName obj = name) && bool_decide (GetNamespace obj = namespace)) (of_ c group resource)
  end.

(** The names by their kind, namespace and name; the last of one counts. *)
Definition namesByKey (c : corpus) : gmap (string * string * string) Named :=
  foldl (fun m n => <[(or_Group (n_Ref n), or_Resource (n_Ref n), or_Namespace (n_Ref n) +s+ "/" +s+ or_Name (n_Ref n)) := n]> m) ∅
    (co_names c).

(** All there is of a resource, in whatever group. *)
Definition every (c : corpus) (resource : string) : list Named :=
  sort_by (cmp_on (fun n => or_Namespace (n_Ref n) +s+ "/" +s+ or_Name (n_Ref n)) str_compare)
    (List.filter (fun n => bool_decide (or_Resource (n_Ref n) = resource)) (map snd (map_to_list (namesByKey c))) ++
     map (fun item =>
       namedOf (MkObjectRef (rd_Group (h_desc item)) "v1" (rd_Resource (h_desc item)) (GetNamespace (h_obj item)) (GetName (h_obj item)))
         (h_obj item)) (List.filter (fun item => bool_decide (rd_Resource (h_desc item) = resource)) (co_items c))).

Definition inNamespace (c : corpus) (group resource namespace : string) : list U :=
  List.filter (fun obj => bool_decide (GetNamespace obj = namespace)) (of_ c group resource).

Definition namespace_ (c : corpus) (name : string) : option U :=
  List.find (fun obj => bool_decide (GetName obj = name)) (of_ c "" "namespaces").

Definition missingResources (needs : list target) (c : corpus) : list string :=
  omap (fun want => if has c (t_group want) (t_resource want) then None else Some (t_resource want)) needs.

Definition skippedBecause (missing : list string) : string :=
  "not audited: this cluster did not report " +s+ Join " or " missing.

(** ** Reading a cluster *)

Record Lister := MkLister {
  List_ : ResourceDescriptor -> result string (list U);
  Scan : ResourceDescriptor -> result string (list U);
  ListNames : ResourceDescriptor -> result string (list Named);
  Cached : list ResourceDescriptor;
}.

(** [schema.GroupResource.String] *)
Definition groupResource (desc : ResourceDescriptor) : string :=
  if bool_decide (rd_Group desc = "") then rd_Resource desc else rd_Resource desc +s+ "." +s+ rd_Group desc.

Definition err_of {A} (r : result string A) : option string := match r with Ok _ => None | Err e => Some e end.

(** The kinds only scanned for the names they mention; the scans run side by
    side, and their sums do not depend on the order. *)
Definition scanMentions (lister : Lister) (descs : list ResourceDescriptor) : gmap string Z * list target :=
  foldl (fun '(counts, refused) desc =>
    match Scan lister desc with
    | Err _ => (counts, refused ++ [targetOf desc])
    | Ok items => (map_fold (fun name seen m => bump m name seen) counts (countMentions items), refused)
    end) (∅, []) (List.filter borrowed descs).

Record gathered := MkGathered {
  g_items : list held;
  g_names : list Named;
  g_unread : list target;
  g_failures : Listerr.Collector;
}.

Definition gatherOne (lister : Lister) (g : gathered) (desc : ResourceDescriptor) : gathered :=
  let recorded err := Listerr.Record_ (g_failures g) (groupResource desc) err in
  if borrowed desc then MkGathered (g_items g) (g_names g) (g_unread g) (recorded (err_of (Scan lister desc)))
  else if isNameOnly desc then
    match ListNames lister desc with
    | Err e => MkGathered (g_items g) (g_names g) (g_unread g ++ [targetOf desc]) (recorded (Some e))
    | Ok found => MkGathered (g_items g) (g_names g ++ found) (g_unread g) (recorded None)
    end
  else
    match List_ lister desc with
    | Err e => MkGathered (g_items g) (g_names g) (g_unread g ++ [targetOf desc]) (recorded (Some e))
    | Ok items => MkGathered (g_items g ++ map (MkHeld desc) items) (g_names g) (g_unread g) (recorded None)
    end.

Definition gather (lister : Lister) (descs : list ResourceDescriptor) :
    list held * list Named * list target * gmap string Z * string :=
  let '(counts, refused) := scanMentions lister descs in
  let g := foldl (gatherOne lister) (MkGathered [] [] refused Listerr.New) descs in
  (g_items g, g_names g, g_unread g, counts, Listerr.Message (g_failures g)).
End corpus.

Arguments Subject U : clear implicits.
Arguments held U : clear implicits.
Arguments corpus U : clear implicits.
Arguments Lister U : clear implicits.

End Corpus.

Definition ownerReference (v : any) : option (string * string * string) :=
  match v with AMap m => Some (Unstr.At m "apiVersion", Unstr.At m "kind", Unstr.At m "name") | _ => None end.

#[export] Instance doc_owned : Owned Doc := {
  GetOwners u := omap ownerReference (Unstr.held [] (doc_as [] asSlice u ["metadata"; "ownerReferences"]));
  GetGenerateName u := Unstr.held "" (doc_as "" asString u ["metadata"; "generateName"]);
}.
