(* ===== verification/Pss.v ===== *)
(** internal/checks/pss.go: what the Pod Security policies of upstream decide of
    a subject, and deprecated.go's reading of a version.  The module
    k8s.io/pod-security-admission and the conversion of apimachinery are third
    party code: the class [PodSecurity]. *)

From S2P Require Import Prelude Api Text Unstr Kube Inspect Rollout Corpus.

(** A level and a version of the policies: [psapi.LevelVersion]. *)
Record LevelVersion (V : Type) := MkLevelVersion { lv_Level : string; lv_Version : V }.
Arguments MkLevelVersion {V}.
Arguments lv_Level {V}.
Arguments lv_Version {V}.

(** [psapi.Policy] *)
Record Policy (V : Type) := MkPolicy { po_Enforce : LevelVersion V; po_Audit : LevelVersion V; po_Warn : LevelVersion V }.
Arguments MkPolicy {V}.
Arguments po_Enforce {V}.

(** [policy.CheckResult] *)
Record CheckResult := MkCheckResult { pr_Allowed : bool; pr_ForbiddenReason : string; pr_ForbiddenDetail : string }.

Class PodSecurity := {
  Version : Type;
  LatestVersion : Version;
  MajorMinorVersion : Z -> Z -> Version;
  Older : Version -> Version -> bool;
  Latest : Version -> bool;
  VersionString : Version -> string;
  PodMeta : Type;
  PodSpec : Type;
  ToSpec : amap -> result string PodSpec;
  ToMeta : amap -> result string PodMeta;
  PolicyCheck : Type;
  CheckID : PolicyCheck -> string;
  CheckLevel : PolicyCheck -> string;
  MinimumVersion : PolicyCheck -> Version;
  Evaluator : Type;
  NewEvaluator : list PolicyCheck -> result string Evaluator;
  EvaluatePod : Evaluator -> LevelVersion Version -> PodMeta -> PodSpec -> list CheckResult;
  DefaultChecks : list PolicyCheck;
  (** Whether all allow it, and the reason they give together. *)
  AggregateCheckResults : list CheckResult -> bool * string;
  (** What labels ask for, given the defaults, and the errors in reading them. *)
  PolicyToEvaluate : option (gmap string string) -> Policy Version -> Policy Version * list string;
}.

Module Pss.
Import Api Text Unstr Corpus.

Definition LevelPrivileged : string := "privileged".
Definition LevelRestricted : string := "restricted".

Definition pssBaseline : string := "PSS baseline".
Definition pssRestricted : string := "PSS restricted".
Definition upstreamUnloaded : string := "not audited: the upstream Pod Security policy could not be loaded: ".

(** [strings.TrimPrefix], [strings.TrimSuffix] *)
Definition TrimPrefix (s prefix : string) : string := default s (strip_prefix prefix s).
Definition TrimSuffix (s suffix : string) : string :=
  if has_suffix s suffix then String.substring 0 (String.length s - String.length suffix) s else s.

(** [strconv.Atoi] *)
Definition Atoi (s : string) : result Parse.parseError Z := Parse.ParseInt s 64.

Definition dot : Ascii.ascii := Ascii.ascii_of_N 46.

Definition minorOf (version : string) : Z :=
  match str_split dot (TrimPrefix version "v") with
  | _ :: second :: _ => match Atoi (TrimSuffix second "+") with Ok minor => minor | Err _ => 0%Z end
  | _ => 0%Z
  end.

Example minor_of : minorOf "v1.29.3" = 29%Z /\ minorOf "1.27+" = 27%Z /\ minorOf "v1" = 0%Z /\ minorOf "1.x" = 0%Z.
Proof. by vm_compute. Qed.

Definition templateMetaPath (kind : string) : list string :=
  if bool_decide (kind = "Pod") then [metadataField]
  else if bool_decide (kind = cronKind) then [specField; "jobTemplate"; specField; "template"; metadataField]
  else [specField; "template"; metadataField].

Definition pssLabelOf (level : string) : string := if bool_decide (level = LevelRestricted) then pssRestricted else pssBaseline.

Definition upstreamDetail (result : CheckResult) : string :=
  if bool_decide (pr_ForbiddenDetail result = "") then pr_ForbiddenReason result
  else pr_ForbiddenReason result +s+ " (" +s+ pr_ForbiddenDetail result +s+ ")".

Section pss.
Context {U : Type} {Un : Unstructured U} {De : Described U} {Ed : Editable U} {Ow : Owned U} {Ps : PodSecurity}.

(** The document of a subject; one of a finding over the whole cluster has none. *)
Definition specOf (subject : Subject U) (fields : list string) : amap :=
  match s_Object subject with Some obj => specAt obj fields | None => [] end.

Definition templateMetaOf (subject : Subject U) : amap := specOf subject (templateMetaPath (s_Kind subject)).

Record upstreamControl := MkUpstreamControl { uc_id : string; uc_level : string; uc_from : Version; uc_alone : Evaluator }.
Record upstreamPolicy := MkUpstreamPolicy { up_controls : gmap string upstreamControl; up_whole : Evaluator }.

(** The loop of [upstreamFrom]. *)
Fixpoint controlsOf (checks : list PolicyCheck) (controls : gmap string upstreamControl) : result string (gmap string upstreamControl) :=
  match checks with
  | [] => Ok controls
  | one :: rest =>
      match NewEvaluator [one] with
      | Err err => Err err
      | Ok alone => controlsOf rest (<[CheckID one := MkUpstreamControl (CheckID one) (CheckLevel one) (MinimumVersion one) alone]> controls)
      end
  end.

Definition upstreamFrom (checks : list PolicyCheck) : result string upstreamPolicy :=
  match NewEvaluator checks with
  | Err err => Err err
  | Ok whole => match controlsOf checks ∅ with Err err => Err err | Ok controls => Ok (MkUpstreamPolicy controls whole) end
  end.

Definition upstream : result string upstreamPolicy := upstreamFrom DefaultChecks.

Definition upstreamVersionOf (serverVersion : string) : Version :=
  let minor := minorOf serverVersion in
  if (minor =? 0)%Z then LatestVersion else MajorMinorVersion 1 minor.

(** [err] is the failure of [policy]. *)
Record upstreamScan := MkUpstreamScan { us_version : Version; us_policy : result string upstreamPolicy }.

Definition newUpstreamScan (serverVersion : string) : upstreamScan := MkUpstreamScan (upstreamVersionOf serverVersion) upstream.

Definition decodePod (subject : Subject U) : result string (PodMeta * PodSpec) :=
  match ToSpec (s_Pod subject) with
  | Err err => Err err
  | Ok spec => match ToMeta (templateMetaOf subject) with Err err => Err err | Ok meta => Ok (meta, spec) end
  end.

Definition standsDown (u : upstreamScan) (id : string) : string :=
  match us_policy u with
  | Err err => upstreamUnloaded +s+ err
  | Ok loaded =>
      match up_controls loaded !! id with
      | None => "not audited: upstream has no control named " +s+ id
      | Some control =>
          if Older (us_version u) (uc_from control) then
            "not audited: upstream applies this from " +s+ VersionString (uc_from control) +s+
            " and this cluster reports " +s+ VersionString (us_version u)
          else ""
      end
  end.

Definition verdict (u : upstreamScan) (id : string) (subject : Subject U) : option CheckResult :=
  if bool_decide (standsDown u id <> "") then None
  else
    match us_policy u, decodePod subject with
    | Ok loaded, Ok (meta, spec) =>
        match up_controls loaded !! id with
        | None => None
        | Some control =>
            match EvaluatePod (uc_alone control) (MkLevelVersion (uc_level control) (us_version u)) meta spec with
            | [only] => Some only
            | _ => None
            end
        end
    | _, _ => None
    end.

Definition enforcedOn (labels : option (gmap string string)) : LevelVersion Version * bool :=
  let open_ := MkLevelVersion LevelPrivileged LatestVersion in
  let '(read, errs) := PolicyToEvaluate labels (MkPolicy open_ open_ open_) in
  (po_Enforce read, bool_decide (errs = [])).

Definition rejects (u : upstreamScan) (enforced : LevelVersion Version) (subject : Subject U) : string :=
  match us_policy u, decodePod subject with
  | Ok loaded, Ok (meta, spec) =>
      let '(allowed, reason) := AggregateCheckResults (EvaluatePod (up_whole loaded) enforced meta spec) in
      if allowed : bool then "" else reason
  | _, _ => ""
  end.

Definition enforcedWording (enforced : LevelVersion Version) (readable : bool) : string :=
  lv_Level enforced +s+
  (if Latest (lv_Version enforced) then "" else " as of " +s+ VersionString (lv_Version enforced)) +s+
  (if readable then "" else ", which is what upstream falls back to for a label it cannot read,").

Definition rejectedByEnforcedLevel (held : corpus U) (u : upstreamScan) (subject : Subject U) : string :=
  match namespace_ held (or_Namespace (s_Ref subject)) with
  | None => ""
  | Some space =>
      let '(enforced, readable) := enforcedOn (GetLabels space) in
      if bool_decide (lv_Level enforced = LevelPrivileged) then ""
      else
        let broken := rejects u enforced subject in
        if bool_decide (broken = "") then ""
        else "the namespace enforces " +s+ enforcedWording enforced readable +s+ " and this breaks " +s+ broken
  end.
End pss.

Arguments upstreamScan {Ps}.

End Pss.
