(* ===== verification/Checks.v ===== *)
(** internal/checks, the engine of the audit: checks.go, blast.go, filter.go,
    mute.go, baseline.go and namespaces.go.  A check is its description and a
    finder; the rules themselves, the policies of upstream and the expressions
    of a user's rules are what the finders and [Judge] stand for. *)

From S2P Require Import Prelude Api Text Codec Unstr Issues Guard Kube Inspect Corpus Pss.

Module Checks.
Import Api Text Codec Unstr Corpus.

Definition severityHigh : string := "high".
Definition severityMedium : string := "medium".
Definition severityLow : string := "low".

Definition noUsage : string := "metrics-server did not answer, so usage is unknown".
Definition notEveryKind : string :=
  "not audited: this decides what nothing references, which is only true once every kind has been read".
Definition findingsShown : Z := 200.

(** ** The weight of a finding: blast.go *)

Definition weightLow : Z := 0.
Definition weightMedium : Z := 1.
Definition weightHigh : Z := 2.
Definition spreadReplicas : Z := 2.

Definition baseWeight (severity : string) : Z :=
  if bool_decide (severity = severityHigh) then weightHigh
  else if bool_decide (severity = severityMedium) then weightMedium else weightLow.

Definition severityAt (weight : Z) : string :=
  if (weightHigh <=? weight)%Z then severityHigh
  else if (weight =? weightMedium)%Z then severityMedium else severityLow.

Definition highestWeight (severity : string) : Z :=
  let weight := (baseWeight severity + 1)%Z in if (weightHigh <? weight)%Z then weightHigh else weight.

Definition rankOf (severity : string) : string := Itoa (weightHigh - baseWeight severity).

(** ** Data *)

(** [api.Mute] *)
Record Mute := MkMute { m_Check : string; m_Namespace : string; m_Ref : string; m_Reason : string; m_At : string }.

(** [api.ResourceUsage], the part that is read. *)
Record ResourceUsage := MkResourceUsage { ru_CPUMilli : Z; ru_MemoryMi : Z }.

(** The part of a user's rule the engine reads; the expression is [Judge]'s. *)
Record UserRule := MkUserRule { ur_ID : string; ur_Match : string; ur_Expr : string; ur_Silences : string; ur_Reason : string }.

Record Baseline := MkBaseline {
  b_TakenAt : string;
  b_Cluster : string;
  b_Checks : list string;
  b_Counts : gmap string Z;
  b_Scanned : Z;
  b_Keys : gmap string string;
}.

Record Filter := MkFilter {
  Silencers : list UserRule;
  Mutes : list Mute;
  Base : option Baseline;
  Disabled : list string;
  SkipNamespaces : list string;
  Namespace : string;
  MinSeverity : string;
  WholeCluster : bool;
  EveryKind : bool;
  OnlyNew : bool;
  ShowMuted : bool;
}.

Record CheckObject := MkCheckObject {
  ck_Group : string;
  ck_Version : string;
  ck_Resource : string;
  ck_Namespace : string;
  ck_Name : string;
  ck_Kind : string;
  ck_Origin : string;
  ck_ManagedBy : string;
}.

Record CheckFinding := MkCheckFinding {
  cf_Ref : Z;
  cf_Container : string;
  cf_Detail : string;
  cf_Patch : string;
  cf_Severity : string;
  cf_New : bool;
  cf_Muted : bool;
  cf_MutedBy : string;
  cf_Reason : string;
  cf_Unmatched : bool;
}.

Record CheckGroup := MkCheckGroup {
  cg_ID : string;
  cg_Title : string;
  cg_Category : string;
  cg_Severity : string;
  cg_Frameworks : list string;
  cg_Wrong : string;
  cg_Remedy : string;
  cg_Skipped : string;
  cg_Total : Z;
  cg_Muted : Z;
  cg_NewCount : Z;
  cg_Fixed : Z;
  cg_Gone : list string;
  cg_Baselined : bool;
  cg_Was : Z;
  cg_Ran : bool;
  cg_Measured : bool;
  cg_Truncated : bool;
  cg_Next : string;
  cg_Sources : list string;
  cg_Taken : string;
  cg_Findings : list CheckFinding;
}.

Record NamespaceCount := MkNamespaceCount { nc_Namespace : string; nc_Total : Z; nc_High : Z; nc_Medium : Z; nc_Low : Z }.

Record CheckReport := MkCheckReport {
  cr_Groups : list CheckGroup;
  cr_Objects : list CheckObject;
  cr_Namespaces : list NamespaceCount;
  cr_Baseline : string;
  cr_BaselineFrom : string;
  cr_WasScanned : Z;
  cr_Scanned : Z;
  cr_Error : string;
}.

Record CheckPage := MkCheckPage { cp_Findings : list CheckFinding; cp_Objects : list CheckObject; cp_Next : string }.

(** ** Mutes and fingerprints: mute.go *)

Definition RefKey (ref : ObjectRef) : string :=
  Join "/" [or_Group ref; or_Version ref; or_Resource ref; or_Namespace ref; or_Name ref].

Definition ScopeObject : string := "object".
Definition ScopeNamespace : string := "namespace".
Definition ScopeCheck : string := "check".
Definition ScopeConvention : string := "convention".
Definition ScopeRule : string := "rule".

Definition scopeOf (mute : Mute) : string :=
  if bool_decide (m_Ref mute <> "") then ScopeObject
  else if bool_decide (m_Namespace mute <> "") then ScopeNamespace else ScopeCheck.

Definition SameMute (one other : Mute) : bool :=
  bool_decide (m_Check one = m_Check other) && bool_decide (m_Namespace one = m_Namespace other) &&
  bool_decide (m_Ref one = m_Ref other).

Definition refLabel (ref : ObjectRef) : string :=
  if bool_decide (or_Namespace ref = "") then or_Name ref else or_Namespace ref +s+ "/" +s+ or_Name ref.

Definition fingerprintBytes : nat := 8.

Definition fingerprintOf (key : string) : string :=
  EncodeToString (of_bytes (take fingerprintBytes (sha256 (bytes_of key)))).

(** ** Filters: filter.go *)

Definition severityOrder : list string := [severityLow; severityMedium; severityHigh].

Definition knownSeverity (name : string) : string := if contains severityOrder name then name else "".

Definition asked (raw : string) : bool := bool_decide (raw = "1") || Guard.EqualFold raw "true".
Definition narrowed (raw : string) : bool := bool_decide (raw = "0") || Guard.EqualFold raw "false".

Definition splitList (raw : string) : list string :=
  omap (fun part => let trimmed := TrimSpace part in if bool_decide (trimmed = "") then None else Some trimmed)
    (str_split (Ascii.ascii_of_N 44) raw).

Definition ParseFilter (query : string -> string) : Filter :=
  {| Silencers := []; Mutes := []; Base := None;
     Disabled := splitList (query "disabled");
     SkipNamespaces := splitList (query "skipNamespaces");
     Namespace := TrimSpace (query "namespace");
     MinSeverity := knownSeverity (query "minSeverity");
     WholeCluster := negb (narrowed (query "wholeCluster"));
     EveryKind := asked (query "everyKind");
     OnlyNew := asked (query "onlyNew");
     ShowMuted := asked (query "showMuted") |}.

Definition couldReach (f : Filter) (severity : string) : bool :=
  if bool_decide (MinSeverity f = "") then true else (baseWeight (MinSeverity f) <=? highestWeight severity)%Z.

Definition severeEnough (f : Filter) (severity : string) : bool :=
  if bool_decide (MinSeverity f = "") then true
  else (slices_index severityOrder (MinSeverity f) <=? slices_index severityOrder severity)%Z.

Definition narrows (f : Filter) : bool :=
  if bool_decide (MinSeverity f <> "") then true
  else bool_decide (Namespace f <> "") || (0 <? zlen (SkipNamespaces f))%Z || OnlyNew f || negb (WholeCluster f).

(** ** Baselines: baseline.go *)

Definition covers (b : option Baseline) (id : string) : bool :=
  match b with None => false | Some b => contains (b_Checks b) id end.

Definition has_key (b : option Baseline) (key : string) : bool :=
  match b with None => false | Some b => bool_decide (is_Some (b_Keys b !! key)) end.

Definition count_of (b : option Baseline) (id : string) : Z :=
  match b with None => 0%Z | Some b => default 0%Z (b_Counts b !! id) end.

Definition counted_ (b : option Baseline) (id : string) : option Z :=
  if negb (covers b id) then None else Some (count_of b id).

Definition gone (b : option Baseline) (id : string) (here : list string) : list string :=
  if negb (covers b id) then []
  else match b with
  | None => []
  | Some b =>
      sort_by str_compare (omap (fun '(key, label) =>
        if negb (has_prefix key (id +s+ nul)) then None
        else if contains here key then None else Some label) (map_to_list (b_Keys b)))
  end.

Definition fixed_ (b : option Baseline) (id : string) (now : Z) : Z :=
  if negb (covers b id) then 0%Z
  else if (count_of b id <=? now)%Z then 0%Z else (count_of b id - now)%Z.

Definition takenFrom (f : Filter) : string := match Base f with None => "" | Some b => b_Cluster b end.
Definition takenAt (f : Filter) : string := match Base f with None => "" | Some b => b_TakenAt b end.
Definition scannedBefore (f : Filter) : Z := match Base f with None => 0%Z | Some b => b_Scanned b end.
Definition foreign (f : Filter) : bool := bool_decide (takenFrom f <> "").

Definition fixedSince (f : Filter) (id : string) (found : Z) : Z :=
  if narrows f || foreign f then 0%Z else fixed_ (Base f) id found.

Definition goneSince (f : Filter) (id : string) (here : list string) : list string :=
  if narrows f || foreign f then [] else gone (Base f) id here.

Definition countedBefore (f : Filter) (id : string) : option Z :=
  if narrows f then None else match Base f with None => None | Some _ => counted_ (Base f) id end.

(** ** Cursors *)

Definition encodeCursor (key : string) : string := if bool_decide (key = "") then "" else EncodeToString key.
Definition decodeCursor (cursor : string) : string :=
  if bool_decide (cursor = "") then "" else default "" (DecodeString cursor).

Definition pageSize (shown : Z) : Z := if (shown <=? 0)%Z then findingsShown else shown.

Definition joined (parts : list string) : string := Join "; " (List.filter (fun part => negb (bool_decide (part = ""))) parts).

Section checks.
Context {U : Type} {Un : Unstructured U} {De : Described U} {Ed : Editable U} {Ow : Owned U} {Tm : RFC3339} {Ps : PodSecurity}.

(** ** Scans and findings *)

(** What a cluster says of itself: deprecated.go. *)
Record Facts := MkFacts { fa_ServerVersion : string; fa_ServedVersions : list string; fa_Warnings : list string }.

Record scan := MkScan {
  sc_subjects : list (Subject U);
  sc_usage : gmap string ResourceUsage;
  sc_held : corpus U;
  sc_facts : Facts;
  sc_upstream : Pss.upstreamScan;
  sc_everyKind : bool;
  sc_custom : bool;
}.

Definition hasUsage (sc : scan) : bool := (0 <? Z.of_nat (size (sc_usage sc)))%Z.

Record found := MkFound {
  f_subject : Subject U;
  f_container : string;
  f_detail : string;
  f_patch : string;
  f_convention : string;
  f_severity : string;
  f_unmatched : bool;
}.

Definition finder := scan -> list found.

Record check := MkCheck {
  c_id : string;
  c_upstream : string;
  c_presented : option (Subject U -> bool);
  c_enforced : bool;
  c_title : string;
  c_category : string;
  c_severity : string;
  c_frameworks : list string;
  c_wrong : string;
  c_wrongEvery : string;
  c_remedy : string;
  c_needsUsage : bool;
  c_needsEvery : bool;
  c_needs : list target;
  c_imported : option (list string * time);
  c_find : finder;
}.

(** A rule's detail and patch; no detail, no finding. *)
Definition ruled (subject : Subject U) (container : string) (judged : string * string) : option found :=
  let '(detail, patch) := judged in
  if bool_decide (detail = "") then None else Some (MkFound subject container detail patch "" "" false).

Definition overContainers (rule : Subject U -> Container -> string * string) : finder := fun sc =>
  flat_map (fun subject =>
    omap (fun container => ruled subject (ct_Name container) (rule subject container)) (s_Containers subject)) (sc_subjects sc).

Definition overSubjects (rule : Subject U -> string * string) : finder := fun sc =>
  omap (fun subject => ruled subject "" (rule subject)) (sc_subjects sc).

Definition overFacts (rule : Subject U -> corpus U -> string * string) : finder := fun sc =>
  omap (fun subject => ruled subject "" (rule subject (sc_held sc))) (sc_subjects sc).

Definition overUsage (rule : Subject U -> gmap string ResourceUsage -> string * string) : finder := fun sc =>
  omap (fun subject => ruled subject "" (rule subject (sc_usage sc))) (sc_subjects sc).

Definition overCorpus (rule : scan -> list found) : finder := rule.

(** ** Severity *)

Definition blastWeight (base : Z) (subject : Subject U) : Z :=
  let weight :=
    if bool_decide (s_Origin subject = originSystem) then (base - 2)%Z
    else if bool_decide (s_Origin subject = originPackaged) then (base - 1)%Z else base in
  let weight := if (spreadReplicas <=? s_Replicas subject)%Z then (weight + 1)%Z else weight in
  if (weight <? weightLow)%Z then weightLow else if (weightHigh <? weight)%Z then weightHigh else weight.

Definition severityFor (base : string) (subject : Subject U) : string := severityAt (blastWeight (baseWeight base) subject).

Definition findingKey (item : found) : string :=
  rankOf (f_severity item) +s+ nul +s+ subjectKey (f_subject item) +s+ nul +s+ f_container item.

Definition with_severity (item : found) (severity : string) : found :=
  MkFound (f_subject item) (f_container item) (f_detail item) (f_patch item) (f_convention item) severity (f_unmatched item).

Definition ranked (c : check) (all : list found) : list found :=
  sort_by (cmp_on findingKey str_compare)
    (map (fun item => with_severity item (severityFor (c_severity c) (f_subject item))) all).

(** ** Objects and namespaces of a report *)

Record objects := MkObjects { ob_index : gmap string Z; ob_list : list CheckObject }.

Definition newObjects : objects := MkObjects ∅ [].

Definition objectOf (subject : Subject U) : CheckObject :=
  let r := s_Ref subject in
  MkCheckObject (or_Group r) (or_Version r) (or_Resource r) (or_Namespace r) (or_Name r) (s_Kind subject) (s_Origin subject)
    (s_ManagedBy subject).

Definition objectsKey (subject : Subject U) : string :=
  s_Kind subject +s+ "/" +s+ or_Namespace (s_Ref subject) +s+ "/" +s+ or_Name (s_Ref subject).

Definition ref (o : objects) (subject : Subject U) : objects * Z :=
  let key := objectsKey subject in
  match ob_index o !! key with
  | Some at_ => (o, at_)
  | None =>
      let at_ := zlen (ob_list o) in
      (MkObjects (<[key := at_]> (ob_index o)) (ob_list o ++ [objectOf subject]), at_)
  end.

Definition tallied (entry : NamespaceCount) (severity : string) : NamespaceCount :=
  let '(high, medium, low) :=
    if bool_decide (severity = severityHigh) then (1, 0, 0)%Z
    else if bool_decide (severity = severityMedium) then (0, 1, 0)%Z else (0, 0, 1)%Z in
  MkNamespaceCount (nc_Namespace entry) (nc_Total entry + 1) (nc_High entry + high) (nc_Medium entry + medium) (nc_Low entry + low).

(** [namespaces.count], on the counts in the order they were first met. *)
Fixpoint count (counts : list NamespaceCount) (space severity : string) : list NamespaceCount :=
  match counts with
  | [] => [tallied (MkNamespaceCount space 0 0 0 0) severity]
  | entry :: rest =>
      if bool_decide (nc_Namespace entry = space) then tallied entry severity :: rest else entry :: count rest space severity
  end.

Definition add (counts : list NamespaceCount) (items : list found) : list NamespaceCount :=
  foldl (fun counts item =>
    let space := or_Namespace (s_Ref (f_subject item)) in
    if bool_decide (space = "") then counts else count counts space (f_severity item)) counts items.

Definition WorstNamespaceFirst : NamespaceCount -> NamespaceCount -> Z :=
  cmp_then (cmp_on nc_High cmp_desc) (cmp_then (cmp_on nc_Total cmp_desc) (cmp_on nc_Namespace str_compare)).

(** ** Which findings are kept, muted and new *)

Definition generatedName (subject : Subject U) : string :=
  match s_Object subject with None => "" | Some obj => GetGenerateName obj end.

Definition identityOf (id : string) (item : found) : string :=
  let r := s_Ref (f_subject item) in
  let generated := generatedName (f_subject item) in
  let r := if bool_decide (generated <> "")
           then MkObjectRef (or_Group r) (or_Version r) (or_Resource r) (or_Namespace r) generated else r in
  Join nul [id; RefKey r; f_container item].

Definition keyOf (id : string) (item : found) : string := id +s+ nul +s+ fingerprintOf (identityOf id item).

Definition labelOf (item : found) : string :=
  Join " " ([s_Kind (f_subject item); refLabel (s_Ref (f_subject item))] ++
    if bool_decide (f_container item <> "") then ["container " +s+ f_container item] else []).

Definition silences (mute : Mute) (id : string) (item : found) : bool :=
  if bool_decide (m_Check mute <> id) then false
  else if bool_decide (m_Ref mute <> "") then bool_decide (m_Ref mute = RefKey (s_Ref (f_subject item)))
  else if bool_decide (m_Namespace mute <> "") then bool_decide (m_Namespace mute = or_Namespace (s_Ref (f_subject item)))
  else true.

Definition mutes (f : Filter) (id : string) (item : found) : option Mute := List.find (fun one => silences one id item) (Mutes f).

Definition matches (r : UserRule) (subject : Subject U) : bool :=
  if bool_decide (ur_Match r = "") || bool_decide (ur_Match r = "*") then true else bool_decide (ur_Match r = s_Kind subject).

(** What the expression of a silencer says of a subject, or why it cannot. *)
Class Judge := holds : UserRule -> Subject U -> corpus U -> result string bool.
Context {Jd : Judge}.

Fixpoint silencedBy (rules : list UserRule) (id : string) (item : found) (held : corpus U) : option Mute :=
  match rules with
  | [] => None
  | one :: rest =>
      if bool_decide (ur_Silences one <> id) then silencedBy rest id item held
      else if negb (matches one (f_subject item)) then silencedBy rest id item held
      else match holds one (f_subject item) held with
      | Ok true => Some (MkMute id "" "" (ur_Reason one) "")
      | _ => silencedBy rest id item held
      end
  end.

Definition silenced (f : Filter) (id : string) (item : found) (held : corpus U) : option Mute :=
  silencedBy (Silencers f) id item held.

Definition keeps (f : Filter) (item : found) : bool :=
  if contains (SkipNamespaces f) (or_Namespace (s_Ref (f_subject item))) then false
  else if negb (severeEnough f (f_severity item)) then false
  else if bool_decide (Namespace f = "") then true
  else bool_decide (Namespace f = or_Namespace (s_Ref (f_subject item))).

Definition wants (f : Filter) (entry : check) : bool :=
  if contains (Disabled f) (c_id entry) then false else couldReach f (c_severity entry).

Definition chosen (f : Filter) (all : list check) : list check := List.filter (wants f) all.

Record marked := MkMarked { k_found : found; k_muted : bool; k_by : Mute; k_fresh : bool; k_byRule : bool }.

Record tally := MkTally { t_found : Z; t_total : Z; t_muted : Z; t_fresh : Z; t_here : list string }.

Definition noMute : Mute := MkMute "" "" "" "" "".

(** Who mutes a finding and whether a rule does: a mute, a silencer, or the
    convention the finder names. *)
Definition muting (c : check) (sc : scan) (keep : Filter) (item : found) : option (Mute * bool) :=
  match mutes keep (c_id c) item with
  | Some by_ => Some (by_, false)
  | None =>
      match silenced keep (c_id c) item (sc_held sc) with
      | Some by_ => Some (by_, true)
      | None => if bool_decide (f_convention item <> "") then Some (MkMute (c_id c) "" "" (f_convention item) "", false) else None
      end
  end.

Definition comparable (c : check) : bool := negb (c_needsUsage c).

Definition fresh (c : check) (keep : Filter) (item : found) : bool :=
  comparable c && negb (foreign keep) && covers (Base keep) (c_id c) && negb (has_key (Base keep) (keyOf (c_id c) item)).

(** The loop of [matching], a finding at a time. *)
Definition matchOne (c : check) (sc : scan) (keep : Filter) (st : list marked * tally) (item : found) : list marked * tally :=
  let '(out, n) := st in
  if negb (keeps keep item) then st
  else
    let by_ := muting c sc keep item in
    let muted := bool_decide (is_Some by_) in
    let n := MkTally (t_found n + 1) (t_total n) (t_muted n + one muted) (t_fresh n)
               (t_here n ++ [keyOf (c_id c) item]) in
    if muted && negb (ShowMuted keep) then (out, n)
    else
      let new := fresh c keep item in
      let n := MkTally (t_found n) (t_total n) (t_muted n) (t_fresh n + one new) (t_here n) in
      if OnlyNew keep && negb new then (out, n)
      else
        let '(by_, rule) := default (noMute, false) by_ in
        (out ++ [MkMarked item muted by_ new rule], n).

(** [findings], the verdict of upstream included: pss.go. *)
Definition bySubject (all : list found) (key : string) : list found :=
  List.filter (fun item => bool_decide (subjectKey (f_subject item) = key)) all.

Definition presentedBy (c : check) (subject : Subject U) : bool :=
  match c_presented c with None => false | Some presented => presented subject end.

Definition decidedUpstream (c : check) (sc : scan) : list found :=
  let all := c_find c sc in
  flat_map (fun subject =>
    let own := bySubject all (subjectKey subject) in
    match Pss.verdict (sc_upstream sc) (c_upstream c) subject with
    | None => own
    | Some result =>
        if pr_Allowed result then []
        else if (0 <? zlen own)%Z || presentedBy c subject then own
        else [MkFound subject "" (Pss.upstreamDetail result) "" "" "" false]
    end) (sc_subjects sc).

Definition findings (c : check) (sc : scan) : list found :=
  if bool_decide (c_upstream c = "") then c_find c sc else decidedUpstream c sc.

Definition matching (c : check) (sc : scan) (keep : Filter) : list marked * tally :=
  let '(out, n) := foldl (matchOne c sc keep) ([], MkTally 0 0 0 0 []) (ranked c (findings c sc)) in
  (out, MkTally (t_found n) (zlen out) (t_muted n) (t_fresh n) (t_here n)).

Definition mutedBy (item : marked) : string :=
  if negb (k_muted item) then ""
  else if k_byRule item then ScopeRule
  else if bool_decide (f_convention (k_found item) <> "") then ScopeConvention
  else scopeOf (k_by item).

Definition findingOf (at_ : Z) (item : marked) : CheckFinding :=
  let f := k_found item in
  MkCheckFinding at_ (f_container f) (f_detail f) (f_patch f) (f_severity f) (k_fresh item) (k_muted item) (mutedBy item)
    (m_Reason (k_by item)) (f_unmatched f).

(** The loop of [page]: what is out so far and its last key, the items to come. *)
Fixpoint pageLoop (objs : objects) (out : list CheckFinding) (last : string) (all : list marked) (after : string) (limit : Z)
    : objects * list CheckFinding * string :=
  match all with
  | [] => (objs, out, "")
  | item :: rest =>
      let key := findingKey (k_found item) in
      if (str_compare key after <=? 0)%Z then pageLoop objs out last rest after limit
      else if (zlen out =? limit)%Z then (objs, out, encodeCursor last)
      else
        let '(objs, at_) := ref objs (f_subject (k_found item)) in
        pageLoop objs (out ++ [findingOf at_ item]) key rest after limit
  end.

Definition page (all : list marked) (objs : objects) (after : string) (limit : Z) : objects * list CheckFinding * string :=
  pageLoop objs [] "" all after limit.

(** ** The report *)

Definition standsDown (c : check) (sc : scan) : string :=
  if c_needsUsage c && negb (hasUsage sc) then noUsage
  else if c_needsEvery c && negb (sc_custom sc) then notEveryKind
  else if c_needsEvery c && bool_decide (refused (sc_held sc) <> "") then
    "not audited: the cluster would not let this read " +s+ refused (sc_held sc) +s+
    ", and what nothing references cannot be decided from part of it"
  else
    let missing := missingResources (c_needs c) (sc_held sc) in
    if (0 <? zlen missing)%Z then skippedBecause missing
    else
      let down := if bool_decide (c_upstream c <> "") then Pss.standsDown (sc_upstream sc) (c_upstream c) else "" in
      if bool_decide (down <> "") then down
      else match Pss.us_policy (sc_upstream sc) with
      | Err err => if c_enforced c then Pss.upstreamUnloaded +s+ err else ""
      | Ok _ => ""
      end.

Definition frameworksFor (c : check) (sc : scan) : list string :=
  if bool_decide (c_upstream c = "") then c_frameworks c
  else if bool_decide (Pss.standsDown (sc_upstream sc) (c_upstream c) <> "") then c_frameworks c
  else
    let level :=
      match Pss.us_policy (sc_upstream sc) with
      | Err _ => ""
      | Ok loaded => match Pss.up_controls loaded !! c_upstream c with None => "" | Some control => Pss.uc_level control end
      end in
    Pss.pssLabelOf level :: c_frameworks c.

(** The group of a check that stands down, then of one that does not. *)
Definition emptyGroup (c : check) (sc : scan) (down : string) : CheckGroup :=
  let '(sources, taken) := match c_imported c with None => ([], "") | Some (sources, at_) => (sources, FormatTime at_) end in
  {| cg_ID := c_id c; cg_Title := c_title c; cg_Category := c_category c; cg_Severity := c_severity c;
     cg_Frameworks := frameworksFor c sc;
     cg_Wrong := if sc_everyKind sc && bool_decide (c_wrongEvery c <> "") then c_wrongEvery c else c_wrong c;
     cg_Remedy := c_remedy c; cg_Skipped := down;
     cg_Total := 0; cg_Muted := 0; cg_NewCount := 0; cg_Fixed := 0; cg_Gone := []; cg_Baselined := false; cg_Was := 0;
     cg_Ran := false; cg_Measured := false; cg_Truncated := false; cg_Next := ""; cg_Sources := sources; cg_Taken := taken;
     cg_Findings := [] |}.

Record reporting := MkReporting { re_objs : objects; re_spread : list NamespaceCount; re_groups : list CheckGroup }.

Definition group (c : check) (sc : scan) (keep : Filter) (shown : Z) (re : reporting) : reporting :=
  let out := emptyGroup c sc (standsDown c sc) in
  if bool_decide (standsDown c sc <> "") then MkReporting (re_objs re) (re_spread re) (re_groups re ++ [out])
  else
    let '(all, n) := matching c sc keep in
    let '(objs, findings, next) := page all (re_objs re) "" shown in
    let was := if comparable c then countedBefore keep (c_id c) else None in
    let out :=
      {| cg_ID := cg_ID out; cg_Title := cg_Title out; cg_Category := cg_Category out; cg_Severity := cg_Severity out;
         cg_Frameworks := cg_Frameworks out; cg_Wrong := cg_Wrong out; cg_Remedy := cg_Remedy out; cg_Skipped := "";
         cg_Total := t_total n; cg_Muted := t_muted n; cg_NewCount := t_fresh n;
         cg_Fixed := if comparable c then fixedSince keep (c_id c) (t_found n) else 0%Z;
         cg_Gone := if comparable c then goneSince keep (c_id c) (t_here n) else [];
         cg_Baselined := comparable c && covers (Base keep) (c_id c);
         cg_Was := default 0%Z was; cg_Ran := bool_decide (is_Some was);
         cg_Measured := negb (comparable c); cg_Truncated := bool_decide (next <> ""); cg_Next := next;
         cg_Sources := cg_Sources out; cg_Taken := cg_Taken out; cg_Findings := findings |} in
    MkReporting objs (add (re_spread re) (map k_found all)) (re_groups re ++ [out]).

(** [Run] over the checks that are registered and a scan with what went wrong
    in reading it; [stopped] is when the context ends, by the number of checks done. *)
Fixpoint audited (checks : list check) (sc : scan) (keep : Filter) (shown : Z) (stopped : option nat) (re : reporting)
    : option reporting :=
  match checks with
  | [] => Some re
  | entry :: rest =>
      if bool_decide (stopped = Some 0) then None
      else audited rest sc keep shown (pred <$> stopped) (group entry sc keep shown re)
  end.

Definition Run (registered : list check) (sc : scan) (errors : list string) (keep : Filter) (shown : Z) (stopped : option nat)
    : CheckReport :=
  match audited (chosen keep registered) sc keep (pageSize shown) stopped (MkReporting newObjects [] []) with
  | None => MkCheckReport [] [] [] "" "" 0 0 "the audit was stopped before it finished"
  | Some re =>
      MkCheckReport (re_groups re) (ob_list (re_objs re)) (sort_by WorstNamespaceFirst (re_spread re))
        (takenAt keep) (takenFrom keep) (scannedBefore keep) (zlen (sc_subjects sc)) (joined errors)
  end.

Definition wantsCorpus (registered : list check) (keep : Filter) : bool := existsb c_needsEvery (chosen keep registered).

(** What a cluster is read for, and the read: the descriptors that are known,
    the facts of the lister and the usage of pods. *)
Definition surveyed (registered : list check) (lister : Lister U) (descs : list ResourceDescriptor) (keep : Filter) :
    list ResourceDescriptor * list string * bool :=
  if EveryKind keep then (everyDiscovered descs, [], true)
  else
    let '(wanted, absent) := needed descs (WholeCluster keep) in
    if WholeCluster keep then
      let corpus := wantsCorpus registered keep in
      let wanted := if corpus then wanted ++ customKinds descs ++ mentionKinds descs else wanted in
      (wanted ++ alsoWarm (Cached lister) wanted, absent, corpus)
    else (wanted, absent, false).

Definition survey (registered : list check) (lister : Lister U) (facts : Facts) (descs : list ResourceDescriptor)
    (usage : gmap string ResourceUsage) (keep : Filter) : scan * string * list string :=
  let '(wanted, absent, custom) := surveyed registered lister descs keep in
  let '(items, names, unread, mentions, failure) := gather lister wanted in
  (MkScan (subjectsOf items) usage (newCorpus items names absent (targetsFor (WholeCluster keep)) unread mentions) facts
     (Pss.newUpstreamScan (fa_ServerVersion facts)) (EveryKind keep) custom, failure, absent).

(** [Page]: the last check of the name. *)
Definition Page (registered : list check) (sc : scan) (id after : string) (keep : Filter) (shown : Z) : option CheckPage :=
  match List.find (fun entry => bool_decide (c_id entry = id)) (rev registered) with
  | None => None
  | Some wanted =>
      if bool_decide (id = "") then None
      else if bool_decide (standsDown wanted sc <> "") then Some (MkCheckPage [] [] "")
      else
        let '(objs, found, next) := page (matching wanted sc keep).1 newObjects (decodeCursor after) (pageSize shown) in
        Some (MkCheckPage found (ob_list objs) next)
  end.

(** [Fingerprint] over the scan of the wide filter. *)
Definition fingerprintOne (sc : scan) (b : Baseline) (entry : check) : Baseline :=
  if bool_decide (standsDown entry sc <> "") || negb (comparable entry) then b
  else
    let found := findings entry sc in
    MkBaseline (b_TakenAt b) (b_Cluster b) (b_Checks b ++ [c_id entry]) (<[c_id entry := zlen found]> (b_Counts b)) (b_Scanned b)
      (foldl (fun keys item => <[keyOf (c_id entry) item := labelOf item]> keys) (b_Keys b) found).

Definition Fingerprint (registered : list check) (sc : scan) : Baseline :=
  foldl (fingerprintOne sc) (MkBaseline "" "" [] ∅ (zlen (sc_subjects sc)) ∅) registered.

(** ** What is kept, muted and shown *)

Definition muted (c : check) (sc : scan) (keep : Filter) (item : found) : bool := bool_decide (is_Some (muting c sc keep item)).

(** The findings that are told of, hidden ones left out. *)
Definition open_ (c : check) (sc : scan) (keep : Filter) (item : found) : bool :=
  keeps keep item && negb (muted c sc keep item && negb (ShowMuted keep)).

Definition visible (c : check) (sc : scan) (keep : Filter) (item : found) : bool :=
  open_ c sc keep item && negb (OnlyNew keep && negb (fresh c keep item)).

Definition mark (c : check) (sc : scan) (keep : Filter) (item : found) : marked :=
  let '(by_, rule) := default (noMute, false) (muting c sc keep item) in
  MkMarked item (muted c sc keep item) by_ (fresh c keep item) rule.

Lemma mark_found c sc keep item : k_found (mark c sc keep item) = item.
Proof. unfold mark. by destruct (default _ _). Qed.

Lemma matchOne_fold c sc keep all out n :
  foldl (matchOne c sc keep) (out, n) all =
  (out ++ map (mark c sc keep) (List.filter (visible c sc keep) all),
   MkTally (t_found n + counted (keeps keep) all) (t_total n)
     (t_muted n + counted (fun item => keeps keep item && muted c sc keep item) all)
     (t_fresh n + counted (fun item => open_ c sc keep item && fresh c keep item) all)
     (t_here n ++ map (keyOf (c_id c)) (List.filter (keeps keep) all))).
Proof.
  revert out n. induction all as [| item all IH]; intros out n; cbn [foldl].
  - cbn. rewrite !app_nil_r, !Z.add_0_r. by destruct n.
  - unfold matchOne at 2. rewrite !counted_cons. cbn [List.filter].
    unfold visible, open_ in *. fold (muted c sc keep item). unfold mark in *.
    destruct (keeps keep item) eqn:Ek; cbn [negb andb]; [| rewrite IH; f_equal; f_equal; cbn; lia].
    destruct (muted c sc keep item && negb (ShowMuted keep)) eqn:Em; cbn [negb andb].
    + rewrite IH. cbn [t_found t_total t_muted t_fresh t_here map]. rewrite <- app_assoc. cbn [app].
      f_equal. f_equal; cbn [one]; lia.
    + destruct (OnlyNew keep && negb (fresh c keep item)) eqn:Eo; cbn [negb andb].
      * rewrite IH. cbn [t_found t_total t_muted t_fresh t_here map]. rewrite <- app_assoc. cbn [app].
        f_equal. f_equal; cbn [one]; lia.
      * destruct (default _ (muting c sc keep item)) as [by_ rule] eqn:Emt.
        rewrite IH. cbn [t_found t_total t_muted t_fresh t_here map]. rewrite Emt, <- !app_assoc. cbn [app].
        f_equal. f_equal; cbn [one]; lia.
Qed.

Lemma matching_spec c sc keep :
  let all := ranked c (findings c sc) in
  matching c sc keep =
  (map (mark c sc keep) (List.filter (visible c sc keep) all),
   MkTally (counted (keeps keep) all) (counted (visible c sc keep) all)
     (counted (fun item => keeps keep item && muted c sc keep item) all)
     (counted (fun item => open_ c sc keep item && fresh c keep item) all)
     (map (keyOf (c_id c)) (List.filter (keeps keep) all))).
Proof.
  cbn zeta. unfold matching. rewrite matchOne_fold. cbn [app t_found t_total t_muted t_fresh t_here].
  unfold zlen. rewrite length_map. by rewrite !Z.add_0_l.
Qed.

(** ** The severity a check can reach *)

Lemma baseWeight_range severity : (0 <= baseWeight severity <= 2)%Z.
Proof. unfold baseWeight, weightHigh, weightMedium, weightLow. repeat case_bool_decide; lia. Qed.

Lemma severityAt_index weight : (0 <= weight <= 2)%Z -> slices_index severityOrder (severityAt weight) = weight.
Proof.
  intros H. assert (weight = 0 \/ weight = 1 \/ weight = 2)%Z as [-> | [-> | ->]] by lia; reflexivity.
Qed.

Lemma known_index severity : severity ∈ severityOrder -> slices_index severityOrder severity = baseWeight severity.
Proof. unfold severityOrder. intros H. repeat (apply list.elem_of_cons in H as [-> | H]); [done.. | by apply elem_of_nil in H]. Qed.

Lemma unknown_weight severity : severity ∉ severityOrder -> baseWeight severity = 0%Z.
Proof. intros H. unfold baseWeight. repeat case_bool_decide; subst; [set_solver | set_solver | done]. Qed.

(** No filter leaves out a check one of whose findings would be severe enough. *)
Lemma couldReach_sound keep base subject :
  severeEnough keep (severityFor base subject) = true -> couldReach keep base = true.
Proof.
  unfold severeEnough, couldReach, severityFor. case_bool_decide as E0; [done |]. intros H. apply Z.leb_le in H. apply Z.leb_le.
  assert (0 <= blastWeight (baseWeight base) subject <= highestWeight base)%Z as Hw.
  { pose proof (baseWeight_range base). unfold blastWeight, highestWeight, spreadReplicas, weightLow, weightHigh in *.
    destruct (2 <=? s_Replicas subject)%Z; repeat case_bool_decide; zcases; lia. }
  assert (highestWeight base <= 2)%Z as H2 by (unfold highestWeight, weightHigh; zcases; lia).
  rewrite severityAt_index in H by lia. destruct (decide (MinSeverity keep ∈ severityOrder)) as [Hk | Hk].
  - rewrite known_index in H by done. lia.
  - rewrite (unknown_weight _ Hk). lia.
Qed.

Lemma ranked_elem c item all :
  item ∈ ranked c all -> exists one, one ∈ all /\ item = with_severity one (severityFor (c_severity c) (f_subject one)).
Proof. unfold ranked. rewrite sort_by_elem, map_elem. intros (one & -> & H). eauto. Qed.

(** ** Pages *)

(** The key of the object a finding points at. *)
Definition keyOfObject (x : CheckObject) : string := ck_Kind x +s+ "/" +s+ ck_Namespace x +s+ "/" +s+ ck_Name x.

(** A finding of a report with these objects shows a marked finding: it has its
    contents and points at an object of its kind, namespace and name. *)
Definition shows (objs : list CheckObject) (cf : CheckFinding) (item : marked) : Prop :=
  cf = findingOf (cf_Ref cf) item /\
  exists x, objs !! Z.to_nat (cf_Ref cf) = Some x /\ keyOfObject x = objectsKey (f_subject (k_found item)).

Definition indexed (o : objects) : Prop :=
  forall key at_, ob_index o !! key = Some at_ -> exists x, ob_list o !! Z.to_nat at_ = Some x /\ keyOfObject x = key.

Lemma shows_extend objs more cf item : shows objs cf item -> shows (objs ++ more) cf item.
Proof.
  intros (Hc & x & Hx & Hk). split; [done |]. exists x. split; [| done]. rewrite lookup_app_l; [done |]. by eapply lookup_lt_Some.
Qed.

Lemma ref_spec o subject o' at_ :
  indexed o -> ref o subject = (o', at_) ->
  indexed o' /\ (exists more, ob_list o' = ob_list o ++ more) /\
  exists x, ob_list o' !! Z.to_nat at_ = Some x /\ keyOfObject x = objectsKey subject.
Proof.
  intros Ho. unfold ref. destruct (ob_index o !! objectsKey subject) as [found_ |] eqn:E.
  - intros [= <- <-]. split; [done |]. split; [exists []; by rewrite app_nil_r |]. by apply Ho.
  - intros [= <- <-]. cbn [ob_list].
    assert ((ob_list o ++ [objectOf subject]) !! Z.to_nat (zlen (ob_list o)) = Some (objectOf subject)) as Hlast.
    { unfold zlen. rewrite Nat2Z.id, lookup_app_r, Nat.sub_diag by lia. done. }
    split; [| split; [by eexists | by exists (objectOf subject)]].
    intros key at_ Hk. cbn [ob_index] in Hk. cbn [ob_list]. apply lookup_insert_Some in Hk as [[<- <-] | [_ Hk]].
    + by exists (objectOf subject).
    + destruct (Ho _ _ Hk) as (x & Hx & Hkey). exists x. split; [| done]. rewrite lookup_app_l; [done |].
      by eapply lookup_lt_Some.
Qed.

(** What lies beyond a key. *)
Definition beyond (after : string) (all : list marked) : list marked :=
  List.filter (fun item => negb (str_compare (findingKey (k_found item)) after <=? 0)%Z) all.

Definition lastKey (before : string) (items : list marked) : string :=
  foldl (fun _ item => findingKey (k_found item)) before items.

Lemma lastKey_snoc before items item : lastKey before (items ++ [item]) = findingKey (k_found item).
Proof. unfold lastKey. by rewrite foldl_app. Qed.

Lemma lastKey_nil before items : items <> [] -> lastKey before items = lastKey "" items.
Proof. destruct items as [| x l _] using rev_ind; [done |]. by rewrite !lastKey_snoc. Qed.

Lemma pageLoop_spec objs out last all after limit :
  indexed objs -> (zlen out <= limit)%Z ->
  let n := Z.to_nat (limit - zlen out) in
  let B := beyond after all in
  exists objs' cfs,
    pageLoop objs out last all after limit =
      (objs', out ++ cfs, if (zlen B <=? limit - zlen out)%Z then "" else encodeCursor (lastKey last (take n B))) /\
    indexed objs' /\ (exists more, ob_list objs' = ob_list objs ++ more) /\ Forall2 (shows (ob_list objs')) cfs (take n B).
Proof.
  revert objs out last. induction all as [| item all IH]; intros objs out last Ho Hl; cbn zeta.
  - exists objs, []. cbn [pageLoop beyond List.filter]. rewrite zlen_nil, app_nil_r, take_nil.
    replace (0 <=? limit - zlen out)%Z with true by lia. split; [done |]. split; [done |]. split; [exists []; by rewrite app_nil_r | done].
  - cbn [pageLoop]. unfold beyond. cbn [List.filter]. fold (beyond after all).
    destruct (str_compare (findingKey (k_found item)) after <=? 0)%Z eqn:E; cbn [negb]; [by apply IH |]. rewrite zlen_cons.
    pose proof (zlen_nonneg (beyond after all)) as Hz.
    destruct (Z.eqb_spec (zlen out) limit) as [El | El].
    + exists objs, []. replace (1 + zlen (beyond after all) <=? limit - zlen out)%Z with false by lia.
      replace (Z.to_nat (limit - zlen out)) with 0 by lia. rewrite app_nil_r. cbn [take]. split; [done |]. split; [done |].
      split; [exists []; by rewrite app_nil_r | done].
    + destruct (ref objs (f_subject (k_found item))) as [objs1 at_] eqn:Er.
      destruct (ref_spec _ _ _ _ Ho Er) as (Ho1 & [more1 Hm1] & Hx).
      destruct (IH objs1 (out ++ [findingOf at_ item]) (findingKey (k_found item)) Ho1) as (objs2 & cfs & Hp & Ho2 & [more2 Hm2] & Hf).
      { rewrite zlen_app, zlen_cons, zlen_nil. lia. }
      rewrite zlen_app, zlen_cons, zlen_nil, Z.add_0_r in Hp, Hf.
      exists objs2, (findingOf at_ item :: cfs). rewrite Hp, <- app_assoc. cbn [app].
      replace (Z.to_nat (limit - zlen out)) with (S (Z.to_nat (limit - (zlen out + 1)))) by lia. cbn [take].
      split; [| split; [done | split]].
      * f_equal. replace (zlen (beyond after all) <=? limit - (zlen out + 1))%Z with (1 + zlen (beyond after all) <=? limit - zlen out)%Z
          by (zcases; lia || done). by destruct (_ <=? _)%Z.
      * exists (more1 ++ more2). by rewrite Hm2, Hm1, app_assoc.
      * constructor; [| done]. rewrite Hm2. apply shows_extend. split; [done |]. done.
Qed.

Definition markKey (m : marked) : string := findingKey (k_found m).

(** Marked findings in the order of their keys. *)
Definition ordered (all : list marked) : Prop :=
  StronglySorted (fun a b => (str_compare (markKey a) (markKey b) <= 0)%Z) all.

Lemma findingKey_nonempty item : findingKey item <> "".
Proof.
  intros E. apply (f_equal String.length) in E. unfold findingKey in E. rewrite !append_length in E. cbn in E. lia.
Qed.

Lemma ordered_app all rest :
  ordered (all ++ rest) ->
  ordered all /\ ordered rest /\ (forall a b, a ∈ all -> b ∈ rest -> (str_compare (markKey a) (markKey b) <= 0)%Z).
Proof.
  unfold ordered. induction all as [| x all IH]; cbn [app]; intros H; [split; [constructor | split; [done | intros a b Ha; by apply elem_of_nil in Ha]] |].
  apply StronglySorted_inv in H as [Hs Hx]. destruct (IH Hs) as (H1 & H2 & H3). rewrite list.Forall_app in Hx. destruct Hx as [Hx Hr].
  split; [by constructor |]. split; [done |]. intros a b Ha Hb. apply list.elem_of_cons in Ha as [-> | Ha]; [| by apply H3].
  eapply list.Forall_forall in Hr; [exact Hr | done].
Qed.

Lemma beyond_elem k all m : m ∈ beyond k all <-> m ∈ all /\ (0 < str_compare (markKey m) k)%Z.
Proof. unfold beyond. rewrite filter_elem, negb_true_iff, Z.leb_gt. done. Qed.

Lemma beyond_none k all : (forall m, m ∈ all -> (str_compare (markKey m) k <= 0)%Z) -> beyond k all = [].
Proof.
  intros H. destruct (beyond k all) as [| m l] eqn:E; [done |]. exfalso.
  assert (m ∈ beyond k all) as [Hm Hk]%beyond_elem by (rewrite E; left). specialize (H m Hm). lia.
Qed.

Lemma beyond_all k all : (forall m, m ∈ all -> (0 < str_compare (markKey m) k)%Z) -> beyond k all = all.
Proof.
  unfold beyond. induction all as [| m all IH]; intros H; [done |]. cbn. pose proof (H m ltac:(left)) as Hm.
  unfold markKey in Hm. replace (str_compare (findingKey (k_found m)) k <=? 0)%Z with false by lia. cbn.
  f_equal. apply IH. intros x Hx. apply H. by right.
Qed.

Lemma beyond_sublist k all : sublist (beyond k all) all.
Proof.
  unfold beyond. induction all as [| m all IH]; cbn; [constructor |]. by destruct (negb _); constructor.
Qed.

Lemma ordered_beyond k all : ordered all -> ordered (beyond k all).
Proof.
  unfold ordered, beyond. induction 1 as [| m all _ IH Hm]; [constructor |]. cbn [List.filter]. destruct (negb _); [| done].
  constructor; [done |]. rewrite List.Forall_forall in Hm |- *. intros x [Hx _]%List.filter_In. by apply Hm.
Qed.

(** What lies beyond a larger key lies beyond a smaller one. *)
Lemma beyond_beyond k k' all : (0 < str_compare k' k)%Z -> beyond k' (beyond k all) = beyond k' all.
Proof.
  intros Hk. unfold beyond. induction all as [| m all IH]; [done |]. cbn [List.filter].
  destruct (str_compare (findingKey (k_found m)) k <=? 0)%Z eqn:E; cbn [negb].
  - rewrite IH. apply Z.leb_le in E. pose proof (str_compare_flip k' k) as Hf.
    assert (str_compare (findingKey (k_found m)) k' <= 0)%Z as Hm by (eapply (cmp_trans (cmp := str_compare)); [exact E | lia]).
    apply Z.leb_le in Hm. by rewrite Hm.
  - cbn [List.filter]. by rewrite IH.
Qed.

(** A finding whose key is that of the last one of a page. *)
Definition skippedBy (page : list marked) (m : marked) : Prop := page <> [] /\ lastKey "" page = markKey m.

(** After a page come the findings beyond its last key: all but those that
    share it, which are none when the keys differ. *)
Lemma after_page page tail :
  ordered (page ++ tail) -> page <> [] ->
  beyond (lastKey "" page) (page ++ tail) = beyond (lastKey "" page) tail /\
  (forall m, m ∈ tail -> m ∈ beyond (lastKey "" page) tail \/ skippedBy page m) /\
  (NoDup (map markKey (page ++ tail)) -> beyond (lastKey "" page) tail = tail).
Proof.
  intros Ho Hne. destruct page as [| z page _] using rev_ind; [done |]. clear Hne. rewrite lastKey_snoc. fold (markKey z).
  pose proof (ordered_app _ _ Ho) as (Hp & _ & Hle). apply ordered_app in Hp as (_ & _ & Hp).
  assert (forall m, m ∈ tail -> markKey m = markKey z \/ (0 < str_compare (markKey m) (markKey z))%Z) as Htail.
  { intros m Hm. specialize (Hle z m ltac:(set_solver) Hm). rewrite str_compare_flip in Hle.
    destruct (Z.eq_dec (str_compare (markKey m) (markKey z)) 0%Z) as [E | E]; [left; by apply str_compare_eq | right; lia]. }
  split; [| split].
  - unfold beyond at 1. rewrite List.filter_app. fold (beyond (markKey z) (page ++ [z])). rewrite beyond_none; [done |].
    intros m [Hm | ->%list_elem_of_singleton]%elem_of_app; [by apply Hp; [| left] |].
    pose proof (cmp_refl str_compare (markKey z)). lia.
  - intros m Hm. destruct (Htail m Hm) as [E | E]; [right | left; by apply beyond_elem].
    split; [by destruct page | by rewrite lastKey_snoc].
  - intros Hnd. apply beyond_all. intros m Hm. destruct (Htail m Hm) as [E | E]; [| done]. exfalso.
    rewrite map_app in Hnd. apply list.NoDup_app in Hnd as (_ & Hd & _). apply (Hd (markKey z)).
    + apply map_elem. exists z. split; [done | set_solver].
    + rewrite <- E. apply map_elem. eauto.
Qed.

Lemma cursor_roundtrip key : decodeCursor (encodeCursor key) = key.
Proof.
  unfold encodeCursor, decodeCursor. destruct (decide (key = "")) as [-> | Hk]; [done |].
  rewrite (bool_decide_eq_false_2 (key = "")) by done. rewrite bool_decide_eq_false_2 by (by apply Issues.encode_nonempty).
  by rewrite base64_roundtrip.
Qed.

Lemma encodeCursor_nonempty key : key <> "" -> encodeCursor key <> "".
Proof. intros Hk. unfold encodeCursor. rewrite bool_decide_eq_false_2 by done. by apply Issues.encode_nonempty. Qed.

Lemma beyond_start all : beyond "" all = all.
Proof.
  unfold beyond. induction all as [| x all IH]; [done |]. cbn. destruct (findingKey (k_found x)) eqn:E; [by apply findingKey_nonempty in E |].
  cbn. f_equal. exact IH.
Qed.

Lemma pageSize_pos shown : (0 < pageSize shown)%Z.
Proof. unfold pageSize, findingsShown. destruct (Z.leb_spec shown 0); lia. Qed.

Lemma newObjects_indexed : indexed newObjects.
Proof. intros key at_ H. cbn in H. by rewrite lookup_empty in H. Qed.

(** The pages a client reads by following cursors, until there is none. *)
Fixpoint walk (fuel : nat) (registered : list check) (sc : scan) (id : string) (keep : Filter) (shown : Z) (cursor : string)
    : option (list CheckPage) :=
  if bool_decide (cursor = "") then Some []
  else match fuel with
  | O => None
  | S fuel =>
      p ← Page registered sc id cursor keep shown;
      rest ← walk fuel registered sc id keep shown (cp_Next p);
      Some (p :: rest)
  end.

Lemma walk_more fuel fuel' registered sc id keep shown cursor pages :
  walk fuel registered sc id keep shown cursor = Some pages -> fuel <= fuel' ->
  walk fuel' registered sc id keep shown cursor = Some pages.
Proof.
  revert fuel' cursor pages. induction fuel as [| fuel IH]; intros fuel' cursor pages; cbn [walk].
  - case_bool_decide as E; [| done]. intros H _. destruct fuel'; cbn [walk]; by rewrite bool_decide_eq_true_2.
  - intros H Hle. destruct fuel' as [| fuel']; [lia |]. cbn [walk]. case_bool_decide; [done |].
    destruct (Page registered sc id cursor keep shown) as [p |]; [| done]. cbn in *.
    destruct (walk fuel registered sc id keep shown (cp_Next p)) as [rest |] eqn:E; [| done].
    by rewrite (IH fuel' _ _ E ltac:(lia)).
Qed.

Definition toldBy (shown : Z) (p : CheckPage) (l : list marked) : Prop :=
  Forall2 (shows (cp_Objects p)) (cp_Findings p) l /\ (zlen l <= pageSize shown)%Z.

(** What pages that start after a key show: each finding beyond it at most once,
    in order, and all but those skipped at the end of a page. *)
Definition pagesShow (all shown : list marked) (pages : list (list marked)) : Prop :=
  sublist shown all /\
  (forall m, m ∈ all -> m ∈ shown \/ exists page, page ∈ pages /\ skippedBy page m) /\
  (NoDup (map markKey all) -> shown = all).

(** A page and what the pages after it show. *)
Lemma pagesShow_more page tail items :
  ordered (page ++ tail) -> page <> [] ->
  pagesShow (beyond (lastKey "" page) tail) (concat items) items ->
  pagesShow (page ++ tail) (page ++ concat items) (page :: items).
Proof.
  intros Ho Hne (H1 & H2 & H3). destruct (after_page page tail Ho Hne) as (_ & Hsk & Hnd). split; [| split].
  - apply sublist_app; [done |]. etransitivity; [exact H1 | apply beyond_sublist].
  - intros m [Hm | Hm]%elem_of_app; [left; apply elem_of_app; by left |].
    destruct (Hsk m Hm) as [Hb | Hs]; [| right; exists page; split; [left | done]].
    destruct (H2 m Hb) as [Hc | (p & Hp & Hs)]; [left; apply elem_of_app; by right | right; exists p; split; [by right | done]].
  - intros Hn. f_equal. rewrite H3; [by apply Hnd |]. rewrite Hnd by done. rewrite map_app in Hn. by apply list.NoDup_app in Hn as (_ & _ & ?).
Qed.

Lemma pagesShow_end all : pagesShow all (concat [all]) [all].
Proof. cbn. rewrite app_nil_r. split; [done |]. split; [by left | done]. Qed.

Lemma take_nonempty {A} n (l : list A) : 0 < n -> l <> [] -> take n l <> [].
Proof. destruct n, l; [lia | lia | done | done]. Qed.

Lemma walk_beyond registered sc id keep shown entry all fuel k :
  List.find (fun c => bool_decide (c_id c = id)) (rev registered) = Some entry -> id <> "" -> standsDown entry sc = "" ->
  (matching entry sc keep).1 = all -> ordered all -> k <> "" -> length (beyond k all) < fuel ->
  exists pages items, walk fuel registered sc id keep shown (encodeCursor k) = Some pages /\
    Forall2 (toldBy shown) pages items /\ pagesShow (beyond k all) (concat items) items.
Proof.
  intros Hfind Hid Hdown Hall Hord. revert k. induction fuel as [| fuel IH]; intros k Hk Hlen; [lia |].
  pose proof (pageSize_pos shown) as Hpos. cbn [walk]. rewrite bool_decide_eq_false_2 by (by apply encodeCursor_nonempty).
  unfold Page. rewrite Hfind, bool_decide_eq_false_2, Hdown by done. rewrite bool_decide_eq_false_2 by (intros E; by apply E).
  rewrite cursor_roundtrip, Hall. unfold page.
  destruct (pageLoop_spec newObjects [] "" all k (pageSize shown) newObjects_indexed) as (objs & cfs & Hp & _ & _ & Hf); [rewrite zlen_nil; lia |].
  rewrite zlen_nil, Z.sub_0_r in Hp, Hf. rewrite Hp. cbn [mbind option_bind cp_Next]. set (rest := beyond k all) in *.
  set (p := take (Z.to_nat (pageSize shown)) rest) in *.
  assert (toldBy shown (MkCheckPage cfs (ob_list objs) "") p) as [Hshow Hsize].
  { split; [done |]. unfold p, zlen. rewrite length_take. lia. }
  destruct (Z.leb_spec (zlen rest) (pageSize shown)) as [Hle | Hgt].
  - assert (p = rest) as Hpr by (apply take_ge; unfold zlen in Hle; lia).
    exists [MkCheckPage cfs (ob_list objs) ""], [rest].
    split; [destruct fuel; done |]. split; [rewrite <- Hpr; by repeat constructor | apply pagesShow_end].
  - assert (rest <> []) as Hrest by (intros E; rewrite E, zlen_nil in Hgt; lia).
    assert (p <> []) as Hne by (apply take_nonempty; [lia | done]).
    assert (p ++ drop (Z.to_nat (pageSize shown)) rest = rest) as Hsplit by apply take_drop.
    set (tail := drop (Z.to_nat (pageSize shown)) rest) in *.
    assert (ordered (p ++ tail)) as Hop.
    { rewrite Hsplit. by apply ordered_beyond. }
    destruct (after_page p tail Hop Hne) as (Hafter & _).
    assert (beyond (lastKey "" p) all = beyond (lastKey "" p) tail) as Hbey.
    { rewrite <- Hafter, Hsplit. symmetry. apply beyond_beyond. destruct p as [| z l _] eqn:Ep using rev_ind; [done |].
      rewrite lastKey_snoc. assert (z ∈ rest) as Hz by (rewrite <- Hsplit; set_solver). by apply beyond_elem in Hz as [_ Hz]. }
    destruct (IH (lastKey "" p)) as (pages & items & Hw & Ht & Hs).
    { destruct p as [| z l _] using rev_ind; [done |]. rewrite lastKey_snoc. apply findingKey_nonempty. }
    { rewrite Hbey. pose proof (sublist_length _ _ (beyond_sublist (lastKey "" p) tail)) as Hl.
      rewrite <- Hsplit, length_app in Hlen. destruct p; [done |]. cbn in Hlen. lia. }
    rewrite Hw. cbn [mbind option_bind]. exists (MkCheckPage cfs (ob_list objs) (encodeCursor (lastKey "" p)) :: pages), (p :: items).
    split; [done |]. split; [constructor; done |]. rewrite <- Hsplit. cbn [concat]. apply pagesShow_more; [done | done | by rewrite <- Hbey].
Qed.

(** ** What a report tells *)

(** The marked findings of a check that are to be shown, in their order. *)
Definition told (c : check) (sc : scan) (keep : Filter) : list marked :=
  map (mark c sc keep) (List.filter (visible c sc keep) (ranked c (findings c sc))).

(** A check's group: it says why it was skipped, or has the counts of all the
    check's findings and shows the first page of them, with a cursor to the rest. *)
Definition tells (sc : scan) (keep : Filter) (limit : Z) (objs : list CheckObject) (c : check) (g : CheckGroup) : Prop :=
  cg_ID g = c_id c /\ cg_Skipped g = standsDown c sc /\
  if bool_decide (standsDown c sc <> "") then cg_Findings g = [] /\ cg_Total g = 0%Z
  else
    let all := ranked c (findings c sc) in
    cg_Total g = zlen (told c sc keep) /\
    cg_Muted g = counted (fun item => keeps keep item && muted c sc keep item) all /\
    cg_NewCount g = counted (fun item => open_ c sc keep item && fresh c keep item) all /\
    Forall2 (shows objs) (cg_Findings g) (take (Z.to_nat limit) (told c sc keep)) /\
    cg_Next g = (if (zlen (told c sc keep) <=? limit)%Z then "" else encodeCursor (lastKey "" (take (Z.to_nat limit) (told c sc keep)))).

Lemma matching_told c sc keep : (matching c sc keep).1 = told c sc keep.
Proof. by rewrite matching_spec. Qed.

Lemma tells_extend sc keep limit objs more c g : tells sc keep limit objs c g -> tells sc keep limit (objs ++ more) c g.
Proof.
  intros (Hid & Hsk & Hg). split; [done |]. split; [done |]. case_bool_decide; [done |].
  destruct Hg as (? & ? & ? & Hf & ?). repeat (split; [done |]). split; [| done].
  eapply Forall2_impl; [| exact Hf]. intros cf item. apply shows_extend.
Qed.

Lemma emptyGroup_skipped c sc down :
  cg_ID (emptyGroup c sc down) = c_id c /\ cg_Skipped (emptyGroup c sc down) = down /\
  cg_Findings (emptyGroup c sc down) = [] /\ cg_Total (emptyGroup c sc down) = 0%Z.
Proof. unfold emptyGroup. by destruct (c_imported c) as [[? ?] |]. Qed.

Lemma group_spec c sc keep limit re :
  indexed (re_objs re) -> (0 <= limit)%Z ->
  exists g, re_groups (group c sc keep limit re) = re_groups re ++ [g] /\
    tells sc keep limit (ob_list (re_objs (group c sc keep limit re))) c g /\
    indexed (re_objs (group c sc keep limit re)) /\
    exists more, ob_list (re_objs (group c sc keep limit re)) = ob_list (re_objs re) ++ more.
Proof.
  intros Ho Hl. unfold group, tells. pose proof (emptyGroup_skipped c sc (standsDown c sc)) as (Hid & Hsk & Hfi & Hto).
  destruct (bool_decide (standsDown c sc <> "")) eqn:E.
  - exists (emptyGroup c sc (standsDown c sc)). split; [done |]. split; [done |]. split; [done |]. exists []. by rewrite app_nil_r.
  - apply bool_decide_eq_false in E. assert (standsDown c sc = "") as -> by (destruct (decide (standsDown c sc = "")); tauto).
    destruct (matching c sc keep) as [all n] eqn:Em.
    assert (all = told c sc keep) as -> by (by rewrite <- matching_told, Em).
    destruct (pageLoop_spec (re_objs re) [] "" (told c sc keep) "" limit Ho) as (objs & cfs & Hp & Ho' & Hmore & Hf); [by rewrite zlen_nil |].
    rewrite beyond_start, zlen_nil, Z.sub_0_r in Hp, Hf. unfold page. rewrite Hp. cbn [app].
    eexists. split; [reflexivity |]. cbn [re_objs re_groups]. split; [| by split]. cbn [cg_ID cg_Skipped cg_Total cg_Muted cg_NewCount cg_Findings cg_Next].
    rewrite matching_spec in Em. injection Em as <-. cbn [t_total t_muted t_fresh].
    pose proof (emptyGroup_skipped c sc "") as (Hid' & _). repeat (split; [done |]). split.
    { unfold told, counted, zlen. by rewrite length_map. }
    repeat (split; [done |]). done.
Qed.

Lemma audited_spec checks sc keep limit re :
  indexed (re_objs re) -> (0 <= limit)%Z ->
  exists re' gs, audited checks sc keep limit None re = Some re' /\ re_groups re' = re_groups re ++ gs /\
    Forall2 (tells sc keep limit (ob_list (re_objs re'))) checks gs /\
    exists more, ob_list (re_objs re') = ob_list (re_objs re) ++ more.
Proof.
  revert re. induction checks as [| c checks IH]; intros re Ho Hl.
  - exists re, []. cbn. rewrite !app_nil_r. split; [done |]. split; [done |]. split; [constructor |]. exists []. by rewrite app_nil_r.
  - cbn [audited]. rewrite bool_decide_eq_false_2 by done. cbn [fmap option_fmap option_map].
    destruct (group_spec c sc keep limit re Ho Hl) as (g & Hg & Ht & Ho1 & [more1 Hm1]).
    destruct (IH _ Ho1 Hl) as (re' & gs & Ha & Hgs & Hf & [more2 Hm2]). exists re', (g :: gs). split; [exact Ha |].
    split; [rewrite Hgs, Hg, <- app_assoc; done |]. split.
    + constructor; [| done]. rewrite Hm2. by apply tells_extend.
    + exists (more1 ++ more2). by rewrite Hm2, Hm1, app_assoc.
Qed.

Lemma told_ordered c sc keep : ordered (told c sc keep).
Proof.
  unfold told, ordered.
  pose proof (sort_by_sorted (cmp_on findingKey str_compare)
    (map (fun item => with_severity item (severityFor (c_severity c) (f_subject item))) (findings c sc))) as Hs.
  fold (ranked c (findings c sc)) in Hs. induction (ranked c (findings c sc)) as [| x l IH]; [constructor |].
  apply StronglySorted_inv in Hs as [Hs Hle].
  cbn [List.filter]. destruct (visible c sc keep x); [| by apply IH]. cbn [map]. constructor; [by apply IH |].
  apply List.Forall_forall. intros y Hy. apply list_elem_of_In, map_elem in Hy as (z & -> & Hz). apply filter_elem in Hz as [Hz _].
  unfold markKey. rewrite !mark_found. eapply list.Forall_forall in Hle; [| exact Hz]. exact Hle.
Qed.

(** A check that was not chosen has nothing to tell. *)
Lemma unchosen_told c sc keep : couldReach keep (c_severity c) = false -> told c sc keep = [].
Proof.
  intros Hno. unfold told. destruct (List.filter _ _) as [| x l] eqn:E; [done |]. exfalso.
  assert (x ∈ List.filter (visible c sc keep) (ranked c (findings c sc))) as Hx by (rewrite E; left).
  apply filter_elem in Hx as [Hx Hv]. apply ranked_elem in Hx as (one & _ & ->).
  unfold visible, open_, keeps in Hv. breflect. destruct (contains (SkipNamespaces keep) _); [done |].
  destruct (severeEnough keep _) eqn:Es; [| done]. cbn [f_severity with_severity] in Es. apply couldReach_sound in Es. congruence.
Qed.

Lemma find_unique (registered : list check) entry :
  NoDup (map c_id registered) -> entry ∈ registered ->
  List.find (fun c => bool_decide (c_id c = c_id entry)) (rev registered) = Some entry.
Proof.
  intros Hnd Hin. assert (NoDup (map c_id (rev registered))) as Hnd' by (rewrite map_rev; by rewrite <- Permutation_rev).
  assert (entry ∈ rev registered) as Hin' by (rewrite <- Permutation_rev; exact Hin).
  clear Hnd Hin. induction (rev registered) as [| c l IH]; [by apply elem_of_nil in Hin' |]. cbn [map] in Hnd'.
  apply list.NoDup_cons in Hnd' as [Hc Hnd']. cbn [List.find]. case_bool_decide as E.
  - apply list.elem_of_cons in Hin' as [-> | Hin']; [done |]. exfalso. apply Hc. rewrite E. apply map_elem. eauto.
  - apply IH; [done |]. apply list.elem_of_cons in Hin' as [-> | Hin']; done.
Qed.


(** ** What a baseline remembers *)

Definition contributes (sc : scan) (entry : check) : bool := bool_decide (standsDown entry sc = "") && comparable entry.

Lemma fingerprintOne_skip sc b entry : contributes sc entry = false -> fingerprintOne sc b entry = b.
Proof.
  unfold contributes, fingerprintOne. intros H. destruct (decide (standsDown entry sc = "")) as [E | E].
  - rewrite bool_decide_eq_true_2 in H by done. cbn in H. rewrite H. by rewrite orb_true_r.
  - by rewrite (bool_decide_eq_true_2 (_ <> "")) by done.
Qed.

Lemma fingerprintOne_add sc b entry : contributes sc entry = true ->
  fingerprintOne sc b entry =
  MkBaseline (b_TakenAt b) (b_Cluster b) (b_Checks b ++ [c_id entry]) (<[c_id entry := zlen (findings entry sc)]> (b_Counts b))
    (b_Scanned b) (foldl (fun keys item => <[keyOf (c_id entry) item := labelOf item]> keys) (b_Keys b) (findings entry sc)).
Proof.
  unfold contributes, fingerprintOne. intros H. breflect. rewrite H0. cbn [negb orb].
  by rewrite bool_decide_eq_false_2 by (intros E; by apply E).
Qed.

Lemma keys_insert id (items : list found) m key :
  (forall label, foldl (fun (keys : gmap string string) item => <[keyOf id item := labelOf item]> keys) m items !! key = Some label ->
     m !! key = Some label \/ exists item, item ∈ items /\ keyOf id item = key /\ labelOf item = label) /\
  (is_Some (m !! key) \/ (exists item, item ∈ items /\ keyOf id item = key) ->
     is_Some (foldl (fun (keys : gmap string string) item => <[keyOf id item := labelOf item]> keys) m items !! key)).
Proof.
  revert m. induction items as [| item items IH]; intros m; cbn [foldl].
  - split; [by left |]. intros [? | (item & Hin & _)]; [done | by apply elem_of_nil in Hin].
  - destruct (IH (<[keyOf id item := labelOf item]> m)) as [IH1 IH2]. split.
    + intros label Hl. destruct (IH1 label Hl) as [Hm | (x & Hx & ? & ?)].
      * apply lookup_insert_Some in Hm as [[<- <-] | [_ Hm]]; [| by left]. right. exists item. split; [left | done].
      * right. exists x. split; [by right | done].
    + intros Hk. apply IH2. destruct (decide (keyOf id item = key)) as [<- | Hne]; [left; by rewrite lookup_insert_eq |].
      rewrite lookup_insert_ne by done. destruct Hk as [? | (x & Hx & Hk)]; [by left |]. right.
      apply list.elem_of_cons in Hx as [-> | Hx]; [done |]. by exists x.
Qed.

(** Everything a baseline holds is of a check and a finding, and the other way round. *)
Lemma Fingerprint_spec registered sc :
  let b := Fingerprint registered sc in
  b_Cluster b = "" /\ b_Checks b = map c_id (List.filter (contributes sc) registered) /\
  (forall key label, b_Keys b !! key = Some label -> exists entry item, entry ∈ registered /\ contributes sc entry = true /\
     item ∈ findings entry sc /\ keyOf (c_id entry) item = key /\ labelOf item = label) /\
  (forall entry item, entry ∈ registered -> contributes sc entry = true -> item ∈ findings entry sc ->
     is_Some (b_Keys b !! keyOf (c_id entry) item)) /\
  (NoDup (map c_id registered) -> forall entry, entry ∈ registered -> contributes sc entry = true ->
     b_Counts b !! c_id entry = Some (zlen (findings entry sc))).
Proof.
  cbn zeta. unfold Fingerprint. induction registered as [| e registered IH] using rev_ind.
  - cbn. split; [done |]. split; [done |]. split; [intros key label Hk; by rewrite lookup_empty in Hk |].
    split; [intros entry item Hin; by apply elem_of_nil in Hin | intros _ entry Hin; by apply elem_of_nil in Hin].
  - rewrite foldl_app. cbn [foldl]. set (b := foldl _ _ registered) in *. destruct IH as (Hcl & Hch & Hk1 & Hk2 & Hco).
    rewrite List.filter_app, map_app. cbn [List.filter].
    destruct (contributes sc e) eqn:Ee.
    + rewrite fingerprintOne_add by done. cbn [b_Cluster b_Checks b_Keys b_Counts]. split; [done |]. split; [by rewrite Hch |].
      split; [| split].
      * intros key label Hl. destruct (keys_insert (c_id e) (findings e sc) (b_Keys b) key) as [Hi _].
        destruct (Hi label Hl) as [Hm | (item & ? & ? & ?)].
        -- destruct (Hk1 _ _ Hm) as (entry & item & Hin & Hrest). exists entry, item. split; [set_solver | done].
        -- exists e, item. split; [set_solver | done].
      * intros entry item Hin Hc Hf. apply (keys_insert (c_id e) (findings e sc) (b_Keys b)).
        apply elem_of_app in Hin as [Hin | ->%list_elem_of_singleton]; [left; by apply Hk2 | right; eauto].
      * intros Hnd entry Hin Hc. rewrite map_app in Hnd. apply list.NoDup_app in Hnd as (Hnd & Hd & _).
        apply elem_of_app in Hin as [Hin | ->%list_elem_of_singleton]; [| by rewrite lookup_insert_eq].
        rewrite lookup_insert_ne; [by apply Hco |]. intros E. apply (Hd (c_id entry)); [apply map_elem; eauto |]. rewrite <- E. cbn. left.
    + rewrite fingerprintOne_skip by done. cbn [map]. rewrite app_nil_r. split; [done |]. split; [done |]. split; [| split].
      * intros key label Hl. destruct (Hk1 _ _ Hl) as (entry & item & Hin & Hrest). exists entry, item. split; [set_solver | done].
      * intros entry item Hin Hc Hf. apply elem_of_app in Hin as [Hin | ->%list_elem_of_singleton]; [by apply Hk2 | congruence].
      * intros Hnd entry Hin Hc. rewrite map_app in Hnd. apply list.NoDup_app in Hnd as (Hnd & _ & _).
        apply elem_of_app in Hin as [Hin | ->%list_elem_of_singleton]; [by apply Hco | congruence].
Qed.

Lemma keyOf_severity id item severity : keyOf id (with_severity item severity) = keyOf id item.
Proof. done. Qed.

Lemma ranked_keys c all : map (keyOf (c_id c)) (ranked c all) ≡ₚ map (keyOf (c_id c)) all.
Proof.
  unfold ranked. rewrite sort_by_perm, map_map. done.
Qed.

Lemma key_prefix id id' x :
  no_nul id -> no_nul id' -> has_prefix (id' +s+ nul +s+ x) (id +s+ nul) = true -> id' = id.
Proof.
  intros H H' Hp. unfold has_prefix in Hp. destruct (strip_prefix _ _) as [r |] eqn:E; [| done].
  apply strip_prefix_spec in E. rewrite append_assoc in E.
  pose proof (Issues.cut_order id' x H') as C'. rewrite E, (Issues.cut_order id r H) in C'. congruence.
Qed.

Lemma has_prefix_app s t : has_prefix (s +s+ t) s = true.
Proof. unfold has_prefix. destruct (strip_prefix s (s +s+ t)) as [r |] eqn:E; [done |]. exfalso.
  assert (strip_prefix s (s +s+ t) = Some t) by (by apply strip_prefix_spec). congruence.
Qed.

Lemma unnarrowed_keeps keep item : narrows keep = false -> keeps keep item = true.
Proof.
  unfold narrows. case_bool_decide as E; [done |]. intros H. breflect. unfold keeps, severeEnough.
  assert (SkipNamespaces keep = []) as -> by (apply zlen_nil_inv; pose proof (zlen_nonneg (SkipNamespaces keep)); lia).
  assert (MinSeverity keep = "") as -> by (by destruct (decide (MinSeverity keep = ""))).
  assert (Namespace keep = "") as -> by (by destruct (decide (Namespace keep = ""))). done.
Qed.

Lemma filter_all {A} (f : A -> bool) l : (forall x, f x = true) -> List.filter f l = l.
Proof. intros Hf. induction l as [| x l IH]; [done |]. cbn. by rewrite Hf, IH. Qed.

Lemma ranked_length c all : zlen (ranked c all) = zlen all.
Proof. unfold zlen, ranked. by rewrite sort_by_length, length_map. Qed.

(** Whose key starts with the check's name is the check's. *)
Lemma baseline_entry registered (e entry : check) item :
  NoDup (map c_id registered) -> Forall (fun c => no_nul (c_id c)) registered -> e ∈ registered -> entry ∈ registered ->
  has_prefix (keyOf (c_id e) item) (c_id entry +s+ nul) = true -> e = entry.
Proof.
  intros Hnd Hnul He Hin Hp.
  assert (c_id e = c_id entry) as Heq.
  { eapply list.Forall_forall in Hnul as Hn1; [| exact He]. eapply list.Forall_forall in Hnul as Hn2; [| exact Hin].
    by eapply key_prefix. }
  apply list_elem_of_lookup_1 in He as [i Hi]. apply list_elem_of_lookup_1 in Hin as [j Hj].
  assert (i = j) as ->; [| congruence]. eapply (NoDup_lookup (map c_id registered) i j (c_id entry)); [exact Hnd | |].
  - change (map c_id registered) with (c_id <$> registered). rewrite list_lookup_fmap, Hi. cbn. congruence.
  - change (map c_id registered) with (c_id <$> registered). by rewrite list_lookup_fmap, Hj.
Qed.

(** An audit is compared with the baseline of an earlier one exactly: a
    finding is new when none of the same identity was there, fixed are as many
    as there are fewer, and gone are the findings of the baseline that are here
    no more, each by the label of one of its identity; so that the audit of what
    the baseline was taken of finds nothing new, fixed or gone. *)
Theorem baseline_exact registered before now entry keep :
  NoDup (map c_id registered) -> Forall (fun c => no_nul (c_id c)) registered -> entry ∈ registered ->
  contributes before entry = true -> Base keep = Some (Fingerprint registered before) -> narrows keep = false ->
  let id := c_id entry in
  let old := findings entry before in
  let here := map (keyOf id) (findings entry now) in
  let n := (matching entry now keep).2 in
  (forall item, fresh entry keep item = negb (contains (map (keyOf id) old) (keyOf id item))) /\
  t_fresh n = counted (fun item => open_ entry now keep item && negb (contains (map (keyOf id) old) (keyOf id item)))
                (ranked entry (findings entry now)) /\
  fixedSince keep id (t_found n) = Z.max 0 (zlen old - zlen (findings entry now)) /\
  (forall label, label ∈ goneSince keep id (t_here n) ->
     exists item, item ∈ old /\ labelOf item = label /\ keyOf id item ∉ here) /\
  (forall item, item ∈ old -> keyOf id item ∉ here ->
     exists same, same ∈ old /\ keyOf id same = keyOf id item /\ labelOf same ∈ goneSince keep id (t_here n)) /\
  (findings entry now = old -> t_fresh n = 0%Z /\ fixedSince keep id (t_found n) = 0%Z /\ goneSince keep id (t_here n) = []).
Proof.
  intros Hnd Hnul Hin Hcon Hbase Hwide. cbn zeta. rewrite matching_spec. cbn [t_fresh t_found t_here snd].
  destruct (Fingerprint_spec registered before) as (Hcl & Hch & Hk1 & Hk2 & Hco). set (b := Fingerprint registered before) in *.
  assert (foreign keep = false) as Hfor.
  { unfold foreign, takenFrom. rewrite Hbase, Hcl. apply bool_decide_eq_false_2; intros E; by apply E. }
  assert (covers (Base keep) (c_id entry) = true) as Hcov.
  { rewrite Hbase. cbn. apply contains_spec. rewrite Hch. apply map_elem. exists entry. split; [done |]. by apply filter_elem. }
  assert (forall item, is_Some (b_Keys b !! keyOf (c_id entry) item) <-> keyOf (c_id entry) item ∈ map (keyOf (c_id entry)) (findings entry before)) as Hkey.
  { intros item. split.
    - intros [label Hl]. destruct (Hk1 _ _ Hl) as (e & one & He & _ & Hone & Hsame & _).
      assert (e = entry) as ->; [| apply map_elem; exists one; by rewrite Hsame].
      eapply (baseline_entry registered); [done | done | done | done |]. rewrite Hsame. unfold keyOf. rewrite <- append_assoc.
      apply has_prefix_app.
    - intros Hm. apply map_elem in Hm as (one & -> & Hone). by apply Hk2. }
  assert (comparable entry = true) as Hcmp by (unfold contributes in Hcon; breflect; done).
  assert (forall item, fresh entry keep item = negb (contains (map (keyOf (c_id entry)) (findings entry before)) (keyOf (c_id entry) item))) as Hfresh.
  { intros item. unfold fresh. rewrite Hcmp, Hfor, Hcov. cbn [andb negb]. f_equal. unfold has_key. rewrite Hbase. unfold contains.
    apply bool_decide_ext. apply Hkey. }
  rewrite (filter_all (keeps keep)) by (intros; by apply unnarrowed_keeps).
  assert (counted (keeps keep) (ranked entry (findings entry now)) = zlen (findings entry now)) as Hn.
  { unfold counted. rewrite filter_all by (intros; by apply unnarrowed_keeps). apply ranked_length. }
  rewrite Hn.
  assert (fixedSince keep (c_id entry) (zlen (findings entry now)) = Z.max 0 (zlen (findings entry before) - zlen (findings entry now))) as Hfix.
  { unfold fixedSince. rewrite Hwide, Hfor. unfold fixed_. rewrite Hcov. cbn [orb negb]. unfold count_of. rewrite Hbase.
    fold b. rewrite (Hco Hnd entry Hin Hcon). cbn [default from_option id]. destruct (Z.leb_spec (zlen (findings entry before)) (zlen (findings entry now))); lia. }
  assert (forall label, label ∈ goneSince keep (c_id entry) (map (keyOf (c_id entry)) (ranked entry (findings entry now))) <->
    exists key, b_Keys b !! key = Some label /\ has_prefix key (c_id entry +s+ nul) = true /\ key ∉ map (keyOf (c_id entry)) (findings entry now)) as Hgone.
  { intros label. unfold goneSince. rewrite Hwide, Hfor. unfold gone. rewrite Hcov, Hbase. cbn [orb negb]. fold b.
    rewrite sort_by_elem, list_elem_of_omap. split.
    - intros ([key l] & Hkl & Ho). apply elem_of_map_to_list in Hkl. destruct (has_prefix key _) eqn:Ep; [| done]. cbn in Ho.
      destruct (contains _ key) eqn:Ec; [done |]. injection Ho as <-. exists key. split; [done |]. split; [done |].
      rewrite <- ranked_keys. intros Hx. by apply contains_spec in Hx; rewrite Hx in Ec.
    - intros (key & Hl & Hp & Hx). exists (key, label). split; [by apply elem_of_map_to_list |]. rewrite Hp. cbn.
      destruct (contains _ key) eqn:Ec; [| done]. apply contains_spec in Ec. rewrite ranked_keys in Ec. done. }
  split; [exact Hfresh |]. split; [| split; [exact Hfix | split; [| split]]].
  - unfold counted. f_equal. apply filter_ext. intros item. by rewrite Hfresh.
  - intros label Hl. apply Hgone in Hl as (key & Hk & Hp & Hx). destruct (Hk1 _ _ Hk) as (e & one & He & Hc & Hone & Hsame & Hlab).
    assert (e = entry) as ->.
    { eapply baseline_entry; eauto. by rewrite Hsame. }
    exists one. rewrite Hsame. done.
  - intros item Hitem Hx. destruct (proj2 (Hkey item) ltac:(apply map_elem; eauto)) as [label Hl].
    destruct (Hk1 _ _ Hl) as (e & one & He & Hc & Hone & Hsame & Hlab).
    assert (has_prefix (keyOf (c_id entry) item) (c_id entry +s+ nul) = true) as Hp.
    { unfold keyOf. rewrite <- append_assoc. apply has_prefix_app. }
    assert (e = entry) as -> by (eapply baseline_entry; eauto; by rewrite Hsame).
    exists one. split; [done |]. split; [done |]. rewrite Hlab. apply Hgone. eauto.
  - intros Heq. rewrite Hfix, Heq. split; [| split; [lia |]].
    + apply counted_none, list.Forall_forall. intros item Hitem. rewrite Hfresh.
      apply ranked_elem in Hitem as (one & Hone & ->). rewrite keyOf_severity.
      assert (contains (map (keyOf (c_id entry)) (findings entry before)) (keyOf (c_id entry) one) = true) as ->
        by (apply contains_spec, map_elem; eauto). by rewrite andb_false_r.
    + destruct (goneSince keep (c_id entry) (map (keyOf (c_id entry)) (ranked entry (findings entry before)))) as [| label l] eqn:Eg; [done |].
      exfalso. assert (label ∈ goneSince keep (c_id entry) (map (keyOf (c_id entry)) (ranked entry (findings entry now)))) as Hl
        by (rewrite Heq, Eg; left).
      apply Hgone in Hl as (key & Hk & Hp & Hx). destruct (Hk1 _ _ Hk) as (e & one & He & Hc & Hone & <- & Hlab).
      assert (e = entry) as -> by (eapply baseline_entry; eauto). apply Hx. rewrite Heq. apply map_elem. eauto.
Qed.
End checks.

(** ** Concrete runs *)

#[local] Existing Instance Issues.plain_times.

Definition examplePod (name image : string) : Doc :=
  MkDoc [("apiVersion", AString "v1"); ("kind", AString "Pod");
         ("metadata", AMap [("name", AString name); ("namespace", AString "shop")]);
         ("spec", AMap [("containers", ASlice [AMap [("name", AString "main"); ("image", AString image)]])])].

Definition examplePods : ResourceDescriptor := MkResourceDescriptor "" "v1" "pods" "Pod" true "Workloads".

Definition exampleItems (images : list string) : list (held Doc) :=
  map (fun image => MkHeld examplePods (examplePod image image)) images.

(** Pod security policies that decide nothing. *)
#[local] Instance examplePolicies : PodSecurity := {
  Version := Z;
  LatestVersion := 0%Z;
  MajorMinorVersion _ minor := minor;
  Older v w := (v <? w)%Z;
  Latest v := (v =? 0)%Z;
  VersionString v := "v1." +s+ Itoa v;
  PodMeta := amap;
  PodSpec := amap;
  ToSpec := Ok;
  ToMeta := Ok;
  PolicyCheck := string;
  CheckID id := id;
  CheckLevel _ := "baseline";
  MinimumVersion _ := 0%Z;
  Evaluator := list string;
  NewEvaluator := Ok;
  EvaluatePod _ _ _ _ := [];
  DefaultChecks := [];
  AggregateCheckResults _ := (true, "");
  PolicyToEvaluate _ policy := (policy, []);
}.

Definition exampleScan (images : list string) : scan (U := Doc) :=
  let items := exampleItems images in
  MkScan (subjectsOf items) ∅ (newCorpus items [] [] [] [] ∅) (MkFacts "" [] []) (Pss.newUpstreamScan "") false false.

(** A rule over containers: an image that names no digest. *)
Definition exampleRule (subject : Subject Doc) (container : Container) : string * string :=
  let image := At (ct_Spec container) "image" in (image +s+ " names no digest", "").

Definition exampleCheck : check (U := Doc) :=
  MkCheck "image-not-digest-pinned" "" None false "Image not pinned to a digest" "reliability" severityLow [] "" "" "" false false []
    None (overContainers exampleRule).

Definition exampleFilter (base : option Baseline) : Filter := MkFilter [] [] base [] [] "" "" true false false true.

#[local] Instance exampleJudge : Judge (U := Doc) := fun _ _ _ => Ok false.


Lemma baseline_exact_witness :
  let before := exampleScan ["a"; "b"] in
  let now := exampleScan ["b"; "c"] in
  let keep := exampleFilter (Some (Fingerprint [exampleCheck] before)) in
  let n := (matching exampleCheck now keep).2 in
  t_fresh n = 1%Z /\ goneSince keep (c_id exampleCheck) (t_here n) = ["Pod shop/a container main"] /\
  fixedSince keep (c_id exampleCheck) (t_found n) = 0%Z.
Proof.
  cbn zeta.
  pose proof (baseline_exact [exampleCheck] (exampleScan ["a"; "b"]) (exampleScan ["b"; "c"]) exampleCheck
    (exampleFilter (Some (Fingerprint [exampleCheck] (exampleScan ["a"; "b"]))))) as H. cbn zeta in H.
  destruct H as (_ & Hfresh & Hfixed & _ & _ & _).
  - apply NoDup_singleton.
  - apply list.Forall_cons. split; [| apply list.Forall_nil; exact I]. refine (bool_decide_unpack _ _). vm_compute. exact I.
  - left.
  - vm_compute. reflexivity.
  - reflexivity.
  - vm_compute. reflexivity.
  - split; [rewrite Hfresh; vm_compute; reflexivity |]. split; [vm_compute; reflexivity |].
    rewrite Hfixed. vm_compute. reflexivity.
Defined.

End Checks.
