(* ===== verification/Numbers.v ===== *)
(** The numbers the rules of an audit read: [int64] arithmetic, the shortest
    decimal of a float64 as [strconv.FormatFloat] prints it, octal, and the
    quantities of apimachinery, which are the class [Quantities]. *)

From S2P Require Import Prelude Text Unstr Inspect.

(** k8s.io/apimachinery/pkg/api/resource *)
Class Quantities := {
  Quantity : Type;
  ParseQuantity : string -> option Quantity;
  MilliValue : Quantity -> Z;
  Value : Quantity -> Z;
  QuantityString : Quantity -> string;
  QuantityCmp : Quantity -> Quantity -> Z;
}.

Module Numbers.
Import Text.

(** ** Octal: [strconv.FormatInt(n, 8)] *)

Fixpoint octal_digits (fuel : nat) (n : Z) (acc : string) : string :=
  match fuel with
  | O => acc
  | S fuel =>
      let acc := String (digit (Z.to_N (n mod 8))) acc in
      if (n / 8 =? 0)%Z then acc else octal_digits fuel (n / 8) acc
  end.

Definition FormatOctal (n : Z) : string :=
  if (n <? 0)%Z then "-" +s+ octal_digits 22 (- n) "" else octal_digits 22 n "".

Example octal : FormatOctal 420 = "644" /\ FormatOctal 0 = "0" /\ FormatOctal (- 8) = "-10" /\
  FormatOctal (- 2 ^ 63) = "-1000000000000000000000".
Proof. by vm_compute. Qed.

(** ** The shortest decimal *)

(** A finite float64 that is not zero is [mantissa * 2 ^ exponent]; what lies
    between [low] and [high], in half units of the last place, reads back as
    it, the ends too when the mantissa is even. *)
Record float := MkFloat { fl_mantissa : Z; fl_exponent : Z; fl_low : Z; fl_even : bool }.

Definition unpack (bits : Z) : float :=
  let e := Z.land (Z.shiftr bits 52) 0x7ff in
  let m := Z.land bits (2 ^ 52 - 1) in
  let mantissa := if (e =? 0)%Z then m else (2 ^ 52 + m)%Z in
  (* the gap below a power of two is half the one above *)
  let low := if (m =? 0)%Z && (1 <? e)%Z then (4 * mantissa - 1)%Z else (4 * mantissa - 2)%Z in
  MkFloat mantissa (Z.max e 1 - 1075) low (Z.even mantissa).

(** [a * 2 ^ (exponent - 2) <= n * 10 ^ p]: both sides brought to integers. *)
Definition scaled2 (a exponent p : Z) : Z :=
  (a * 2 ^ Z.max 0 (exponent - 2) * 10 ^ Z.max 0 (- p))%Z.
Definition scaled10 (n exponent p : Z) : Z :=
  (n * 10 ^ Z.max 0 p * 2 ^ Z.max 0 (2 - exponent))%Z.

(** The integer nearest to the value over [10 ^ p] whose decimal reads back. *)
Definition decimal_at (f : float) (p : Z) : option Z :=
  let v := scaled2 (4 * fl_mantissa f) (fl_exponent f) p in
  let low := scaled2 (fl_low f) (fl_exponent f) p in
  let high := scaled2 (4 * fl_mantissa f + 2) (fl_exponent f) p in
  let unit := scaled10 1 (fl_exponent f) p in
  let down := (v / unit)%Z in
  let up := (down + 1)%Z in
  let okDown := if fl_even f then (low <=? down * unit)%Z else (low <? down * unit)%Z in
  let okUp := if fl_even f then (up * unit <=? high)%Z else (up * unit <? high)%Z in
  if okDown && okUp then
    match ((2 * (v - down * unit)) ?= unit)%Z with
    | Lt => Some down
    | Gt => Some up
    | Eq => Some (if Z.even down then down else up)
    end
  else if okDown then Some down
  else if okUp then Some up
  else None.

(** From the coarsest power of ten down: 10^308 is past every float64, and at
    10^-1074 all are exact. *)
Fixpoint shortest (fuel : nat) (f : float) (p : Z) : Z * Z :=
  match fuel with
  | O => (0, 0)%Z
  | S fuel => match decimal_at f p with Some n => (n, p) | None => shortest fuel f (p - 1) end
  end.

Definition plain (n p : Z) : string :=
  if (0 <=? p)%Z then Itoa (n * 10 ^ p)
  else Itoa (n / 10 ^ (- p)) +s+ "." +s+ zero_padded (- p) (n mod 10 ^ (- p)).

(** [strconv.FormatFloat(f, 'f', -1, 64)] *)
Definition FormatFloat (bits : Z) : string :=
  let sign := Z.testbit bits 63 in
  let e := Z.land (Z.shiftr bits 52) 0x7ff in
  let m := Z.land bits (2 ^ 52 - 1) in
  if (e =? 0x7ff)%Z then if negb (m =? 0)%Z then "NaN" else if sign then "-Inf" else "+Inf"
  else
    let body := if (fl_mantissa (unpack bits) =? 0)%Z then "0" else let '(n, p) := shortest 1384 (unpack bits) 309 in plain n p in
    if sign then "-" +s+ body else body.

Example format_float :
  FormatFloat 0x3FE0000000000000 = "0.5" /\ FormatFloat 0x3FB999999999999A = "0.1" /\
  FormatFloat 0xC00C000000000000 = "-3.5" /\ FormatFloat 0x7FF0000000000000 = "+Inf" /\
  FormatFloat 0x4415AF1D78B58C40 = "100000000000000000000" /\ FormatFloat 0 = "0" /\
  FormatFloat 0x3FD5555555555555 = "0.3333333333333333" /\ FormatFloat 0x43E0000000000000 = "9223372036854776000".
Proof. by vm_compute. Qed.

(** ** Quantities in a document: efficiency.go *)

Definition requests : string := "requests".
Definition limits : string := "limits".
Definition cpuName : string := "cpu".
Definition memoryName : string := "memory".

Section numbers.
Context {Qu : Quantities}.

Definition parsed (raw : string) : option Quantity := ParseQuantity raw.

Definition quantityFrom (raw : option any) : option Quantity :=
  match raw with
  | Some (AString value) => parsed value
  | Some (AInt value) => parsed (Itoa value)
  | Some (AFloat value) => parsed (FormatFloat value)
  | _ => None
  end.

Definition quantityAt (spec : amap) (section name : string) : option Quantity :=
  match asMap (aget spec "resources") with
  | None => None
  | Some resources =>
      match asMap (aget resources section) with
      | None => None
      | Some part => quantityFrom (aget part name)
      end
  end.

Definition milliOf (value : Quantity) : Z := MilliValue value.
Definition plainOf (value : Quantity) : Z := Value value.
End numbers.

(** [numberAt] of security.go *)
Definition numberAt (spec : amap) (key : string) : option Z :=
  match aget spec key with
  | Some (AInt found) => Some found
  | Some (AFloat found) => Some (Int64OfFloat found)
  | _ => None
  end.

End Numbers.
