(* ===== verification/Patches.v ===== *)
(** internal/checks/patch.go, the patches the rules of an audit propose, and the
    fields of a specification security.go, lifecycle.go and hardening.go read. *)

From S2P Require Import Prelude Api Text Unstr Kube Inspect Corpus Pss Checks Numbers.

Module Patches.
Import Api Text Unstr Corpus Numbers.

(** ** Fields *)

Definition stringAt (entry : amap) (key : string) : string := match asString (aget entry key) with Some value => value | None => "" end.

Definition boolAt (spec : amap) (key : string) : option bool :=
  match aget spec key with Some (ABool found) => Some found | _ => None end.

(** [value, set := boolAt(spec, key); set && value] and [set && !value] *)
Definition on (spec : amap) (key : string) : bool := default false (boolAt spec key).
Definition off (spec : amap) (key : string) : bool := negb (default true (boolAt spec key)).

Definition mapAt (spec : amap) (key : string) : option amap := asMap (aget spec key).
Definition sliceAt (spec : amap) (key : string) : option (list any) := asSlice (aget spec key).

(** The entries of a list that are maps. *)
Definition mapsIn (listed : list any) : list amap := omap (fun entry => asMap (Some entry)) listed.
Definition mapsAt (spec : amap) (key : string) : list amap := mapsIn (default [] (sliceAt spec key)).

Definition stringsAt (entry : amap) (field : string) : list string :=
  omap (fun item => asString (Some item)) (default [] (sliceAt entry field)).

Definition listedItems (spec : amap) (field : string) : Z := zlen (default [] (sliceAt spec field)).

Definition securityContextOf (spec : amap) : amap := default [] (mapAt spec "securityContext").

(** [unstructured.NestedFieldNoCopy] down to [fields], where only maps are met. *)
Fixpoint fieldAt (m : amap) (fields : list string) : option any :=
  match fields with
  | [] => Some (AMap m)
  | [field] => aget m field
  | field :: rest => match mapAt m field with Some inner => fieldAt inner rest | None => None end
  end.

(** A [map[string]string] of the entries that are strings. *)
Definition stringMap (entries : amap) : gmap string string :=
  foldr (fun '(key, value) m => match value with AString text => <[key := text]> m | _ => delete key m end) ∅ entries.

(** ** YAML *)

Definition indent : string := "  ".
Fixpoint Repeat (n : nat) (s : string) : string := match n with O => "" | S n => s +s+ Repeat n s end.
Definition lineBreak : string := String (Ascii.ascii_of_N 10) "".

Definition yamlEscape (c : Ascii.ascii) : string :=
  match Ascii.N_of_ascii c with
  | 92%N => of_codes [92; 92]%N
  | 34%N => of_codes [92; 34]%N
  | 10%N => of_codes [92; 110]%N
  | 13%N => of_codes [92; 114]%N
  | 9%N => of_codes [92; 116]%N
  | _ => String c ""
  end.

Fixpoint escaped (value : string) : string := match value with EmptyString => "" | String c rest => yamlEscape c +s+ escaped rest end.

Definition quoted (value : string) : string := of_codes [34]%N +s+ escaped value +s+ of_codes [34]%N.

Fixpoint nested_keys (depth : nat) (path : list string) : list string :=
  match path with [] => [] | key :: rest => (Repeat depth indent +s+ key +s+ ":") :: nested_keys (S depth) rest end.

Definition nest (path lines : list string) : string :=
  Join lineBreak (nested_keys 0 path ++ map (fun line => Repeat (length path) indent +s+ line) lines) +s+ lineBreak.

Example nested : nest ["spec"; "template"] ["a: 1"] = Join lineBreak ["spec:"; "  template:"; "    a: 1"; ""].
Proof. done. Qed.

Definition containerListName (init : bool) : string := if init then "initContainers" else "containers".
Definition containerList (container : Container) : string := containerListName (ct_Init container).

Definition volumeMountPaths (container : Container) (volume : string) : list string :=
  omap (fun item =>
    if bool_decide (stringAt item "name" <> volume) then None
    else let path := stringAt item "mountPath" in if bool_decide (path = "") then None else Some path)
    (mapsAt (ct_Spec container) "volumeMounts").

Section patches.
Context {U : Type} {Un : Unstructured U} {De : Described U} {Ed : Editable U} {Ow : Owned U}.

Definition mountRemovals (subject : Subject U) (volume : string) (init : bool) : list string :=
  foldl (fun out container =>
    if negb (Bool.eqb (ct_Init container) init) then out
    else
      match volumeMountPaths container volume with
      | [] => out
      | paths =>
          (if bool_decide (out = []) then [containerListName init +s+ ":"] else out) ++
          [indent +s+ "- name: " +s+ ct_Name container; Repeat 2 indent +s+ "volumeMounts:"] ++
          flat_map (fun path =>
            [Repeat 3 indent +s+ "- mountPath: " +s+ quoted path; Repeat 4 indent +s+ "$patch: delete"]) paths
      end) [] (s_Containers subject).

Definition podPatch (subject : Subject U) (body : list string) : string := nest (templatePath (s_Kind subject)) body.

Definition specPatch (body : list string) : string := nest [specField] body.

Definition volumePatch (subject : Subject U) (volume : string) : string :=
  podPatch subject
    (mountRemovals subject volume false ++ mountRemovals subject volume true ++
     ["volumes:"; indent +s+ "- name: " +s+ volume; Repeat 2 indent +s+ "$patch: delete"]).

Definition containerPatch (subject : Subject U) (container : Container) (body : list string) : string :=
  nest (templatePath (s_Kind subject))
    ((containerList container +s+ ":") :: (indent +s+ "- name: " +s+ ct_Name container) ::
     map (fun line => Repeat 2 indent +s+ line) body).

(** [subject.Object.Object[specField]] and down. *)
Definition selectorPairs (subject : Subject U) : option amap :=
  match s_Object subject with
  | None => None
  | Some obj => spec ← mapAt (ObjectOf obj) specField; selector ← mapAt spec "selector"; mapAt selector "matchLabels"
  end.

Definition matchLabels (subject : Subject U) : list string :=
  match selectorPairs subject with
  | None => []
  | Some pairs =>
      omap (fun key => match asString (aget pairs key) with Some value => Some (key +s+ ": " +s+ value) | None => None end)
        (sort_by str_compare (map fst pairs))
  end.

Definition spreadPatch (subject : Subject U) : string :=
  let body :=
    ["topologySpreadConstraints:"; indent +s+ "- maxSkew: 1"; Repeat 2 indent +s+ "topologyKey: kubernetes.io/hostname";
     Repeat 2 indent +s+ "whenUnsatisfiable: DoNotSchedule"] in
  match matchLabels subject with
  | [] => podPatch subject body
  | labels =>
      podPatch subject
        (body ++ [Repeat 2 indent +s+ "labelSelector:"; Repeat 3 indent +s+ "matchLabels:"] ++
         map (fun pair => Repeat 4 indent +s+ pair) labels)
  end.
End patches.

(** No finding. *)
Definition none : string * string := ("", "").

Definition categorySecurity : string := "security".
Definition categoryReliability : string := "reliability".
Definition categoryEfficiency : string := "efficiency".
Definition nsaCisa : string := "NSA/CISA".
Definition cisBenchmark : string := "CIS Kubernetes Benchmark".
End Patches.
