(* ===== verification/Security.v ===== *)
(** internal/checks/security.go and hardening.go: the rules of an audit that
    look at what a pod may do to its node. *)

From S2P Require Import Prelude Api Text Unstr Kube Inspect Guard Corpus Pss Checks Numbers Patches.

Module Security.
Import Api Text Unstr Corpus Numbers Patches.

Definition hostNamespaceFields : list string := ["hostPID"; "hostIPC"; "hostNetwork"].

Definition runtimeSockets : list string :=
  ["/run/containerd/containerd.sock"; "/run/cri-dockerd.sock"; "/run/crio/crio.sock"; "/run/docker.sock";
   "/var/run/containerd/containerd.sock"; "/var/run/cri-dockerd.sock"; "/var/run/crio/crio.sock"; "/var/run/docker.sock"].

Definition allowedCapability : string := "NET_BIND_SERVICE".
Definition securityBlock : string := "securityContext:".
Definition unconfined : string := "Unconfined".
Definition runtimeDefault : string := "RuntimeDefault".
Definition seccompField : string := "seccompProfile".
Definition apparmorField : string := "appArmorProfile".
Definition apparmorPrefix : string := "container.apparmor.security.beta.kubernetes.io/".
Definition dropAll : string := "ALL".
Definition netRaw : string := "NET_RAW".
Definition sensitiveMount : string := "hostPath".
Definition windowsOptions : string := "windowsOptions".
Definition seLinuxField : string := "seLinuxOptions".
Definition procMountField : string := "procMount".
Definition procMountUnmask : string := "Unmasked".
Definition sysctlsField : string := "sysctls".
Definition hostProcessField : string := "hostProcess".
Definition defaultNamespace : string := "default".

Definition safeSysctls : list string :=
  ["kernel.shm_rmid_forced"; "net.ipv4.ip_local_port_range"; "net.ipv4.ip_local_reserved_ports";
   "net.ipv4.ip_unprivileged_port_start"; "net.ipv4.ping_group_range"; "net.ipv4.tcp_syncookies"].

Definition sensitiveHostPaths : list string :=
  ["/"; "/boot"; "/dev"; "/etc"; "/home"; "/proc"; "/root"; "/run"; "/sys"; "/var/lib/kubelet"; "/var/log"; "/var/run"].

Definition restrictedVolumeTypes : list string :=
  ["configMap"; "csi"; "downwardAPI"; "emptyDir"; "ephemeral"; "persistentVolumeClaim"; "projected"; "secret"].

Definition seLinuxNarrowing : list string := ["user"; "role"; "type"].

(** [named[0]] and the word for it *)
Definition plural (named : list string) (word : string) : string := if (zlen named =? 1)%Z then word else word +s+ "s".

Section security.
Context {U : Type} {Un : Unstructured U} {De : Described U} {Ed : Editable U} {Ow : Owned U}.
Implicit Types (subject : Subject U) (container : Container).

(** ** security.go *)

Definition privileged subject container : string * string :=
  if on (securityContextOf (ct_Spec container)) "privileged" then
    ("securityContext.privileged is true", containerPatch subject container [securityBlock; indent +s+ "privileged: false"])
  else none.

Definition escalation subject container : string * string :=
  let own := securityContextOf (ct_Spec container) in
  match boolAt own "allowPrivilegeEscalation" with
  | Some false => none
  | stated =>
      ((match stated with
        | Some _ => "securityContext.allowPrivilegeEscalation is true"
        | None => "securityContext.allowPrivilegeEscalation is unset, which defaults to true"
        end),
       containerPatch subject container
         ([securityBlock; indent +s+ "allowPrivilegeEscalation: false"] ++
          if on own "privileged" then [indent +s+ "privileged: false"] else []))
  end.

Definition hostNamespaces subject : string * string :=
  match List.filter (on (s_Pod subject)) hostNamespaceFields with
  | [] => none
  | shared =>
      ("shares the host namespaces: " +s+ Join ", " shared, podPatch subject (map (fun field => field +s+ ": false") shared))
  end.

(** The first volume of one of the runtimes' sockets. *)
Definition socketOf (volume : amap) : option (string * string) :=
  match mapAt volume "hostPath" with
  | None => None
  | Some hostPath =>
      match asString (aget hostPath "path") with
      | None => None
      | Some found => if contains runtimeSockets found then Some (stringAt volume "name", found) else None
      end
  end.

Definition mountedSocket subject : string * string :=
  match omap socketOf (mapsAt (s_Pod subject) "volumes") with
  | first :: _ => first
  | [] => ("", "")
  end.

Definition runtimeSocket subject : string * string :=
  let '(name, path) := mountedSocket subject in
  if bool_decide (path = "") then none
  else ("volume " +s+ name +s+ " mounts " +s+ path +s+ " from the node", volumePatch subject name).

Definition userIDOf (own inherited : amap) : option Z :=
  match numberAt own "runAsUser" with Some found => Some found | None => numberAt inherited "runAsUser" end.

Definition nonRoot (own inherited : amap) : option bool :=
  match boolAt own "runAsNonRoot" with Some found => Some found | None => boolAt inherited "runAsNonRoot" end.

Definition rootDetail subject container : string :=
  let own := securityContextOf (ct_Spec container) in
  let inherited := securityContextOf (s_Pod subject) in
  let user := userIDOf own inherited in
  let stated := nonRoot own inherited in
  if bool_decide (user = Some 0%Z) then "securityContext.runAsUser is 0"
  else if bool_decide (stated = Some true) then ""
  else if bool_decide (is_Some user) then ""
  else if bool_decide (is_Some stated) then "securityContext.runAsNonRoot is false, so the container may run as root"
  else "securityContext.runAsNonRoot is unset, so the container runs as whatever user the image names".

Definition rootUser subject container : string * string :=
  let detail := rootDetail subject container in
  if bool_decide (detail = "") then none
  else (detail, containerPatch subject container [securityBlock; indent +s+ "runAsNonRoot: true"]).

Definition writableRoot subject container : string * string :=
  match boolAt (securityContextOf (ct_Spec container)) "readOnlyRootFilesystem" with
  | Some true => none
  | stated =>
      ((match stated with
        | Some _ => "securityContext.readOnlyRootFilesystem is false"
        | None => "securityContext.readOnlyRootFilesystem is unset, so the root filesystem is writable"
        end),
       containerPatch subject container [securityBlock; indent +s+ "readOnlyRootFilesystem: true"])
  end.

Definition capabilitiesAt container (field : string) : list string :=
  match mapAt (securityContextOf (ct_Spec container)) "capabilities" with
  | None => []
  | Some capabilities => stringsAt capabilities field
  end.

Definition addedCapabilities container : list string :=
  sort_by str_compare (List.filter (fun name => negb (Guard.EqualFold name allowedCapability)) (capabilitiesAt container "add")).

Definition dangerousCapabilities subject container : string * string :=
  match addedCapabilities container with
  | [] => none
  | added =>
      ("securityContext.capabilities.add carries " +s+ Join ", " added,
       containerPatch subject container
         [securityBlock; indent +s+ "capabilities:"; Repeat 2 indent +s+ "add: []"; Repeat 2 indent +s+ "drop:";
          Repeat 3 indent +s+ "- ALL"])
  end.

(** ** hardening.go *)

Definition profileType (spec : amap) (field : string) : option string :=
  match mapAt spec field with None => None | Some profile => Some (stringAt profile "type") end.

Definition seccompBody : list string :=
  [securityBlock; indent +s+ seccompField +s+ ":"; Repeat 2 indent +s+ "type: " +s+ runtimeDefault].

Definition seccompUnset subject container : string * string :=
  if bool_decide (is_Some (profileType (securityContextOf (ct_Spec container)) seccompField)) then none
  else if bool_decide (is_Some (profileType (securityContextOf (s_Pod subject)) seccompField)) then none
  else ("no securityContext.seccompProfile on the container or the pod", containerPatch subject container seccompBody).

(** Where the profile is unconfined. *)
Definition unconfinedProfile subject container (field : string) : option string :=
  match profileType (securityContextOf (ct_Spec container)) field with
  | Some value => if bool_decide (value = unconfined) then Some "container" else None
  | None => if bool_decide (profileType (securityContextOf (s_Pod subject)) field = Some unconfined) then Some "pod" else None
  end.

Definition seccompUnconfined subject container : string * string :=
  match unconfinedProfile subject container seccompField with
  | None => none
  | Some where_ =>
      ("securityContext.seccompProfile.type is Unconfined on the " +s+ where_, containerPatch subject container seccompBody)
  end.

Definition apparmorAnnotation subject container : string :=
  match mapAt (Pss.templateMetaOf subject) "annotations" with
  | None => ""
  | Some annotations =>
      match asString (aget annotations (apparmorPrefix +s+ ct_Name container)) with
      | Some value =>
          if Guard.EqualFold value "unconfined" then "the " +s+ apparmorPrefix +s+ ct_Name container +s+ " annotation is unconfined"
          else ""
      | None => ""
      end
  end.

Definition apparmorUnconfined subject container : string * string :=
  let annotated := apparmorAnnotation subject container in
  if bool_decide (annotated <> "") then (annotated, "")
  else
    match unconfinedProfile subject container apparmorField with
    | None => none
    | Some where_ =>
        ("securityContext.appArmorProfile.type is Unconfined on the " +s+ where_,
         containerPatch subject container
           [securityBlock; indent +s+ apparmorField +s+ ":"; Repeat 2 indent +s+ "type: " +s+ runtimeDefault])
    end.

Definition narrowedFields (spec : amap) : list string :=
  match mapAt spec seLinuxField with
  | None => []
  | Some options => List.filter (fun field => negb (bool_decide (stringAt options field = ""))) seLinuxNarrowing
  end.

Definition seLinuxWidened subject container : string * string :=
  let own := narrowedFields (securityContextOf (ct_Spec container)) in
  match (if bool_decide (own = []) then narrowedFields (securityContextOf (s_Pod subject)) else own) with
  | [] => none
  | widened => ("seLinuxOptions sets " +s+ Join ", " widened, "")
  end.

Definition procMountUnmasked subject container : string * string :=
  if bool_decide (stringAt (securityContextOf (ct_Spec container)) procMountField <> procMountUnmask) then none
  else
    ("securityContext.procMount is Unmasked",
     containerPatch subject container [securityBlock; indent +s+ procMountField +s+ ": Default"]).

Definition listedSysctls subject : list string :=
  sort_by str_compare
    (List.filter (fun name => negb (bool_decide (name = "") || contains safeSysctls name))
       (map (fun item => stringAt item "name") (mapsAt (securityContextOf (s_Pod subject)) sysctlsField))).

Definition unsafeSysctls subject : string * string :=
  match listedSysctls subject with
  | [] => none
  | named => ("sets the unsafe " +s+ plural named "sysctl" +s+ " " +s+ Join ", " named, "")
  end.

Definition claimedHostPorts container : list string :=
  omap (fun item =>
    match numberAt item "hostPort" with
    | Some port => if (port =? 0)%Z then None else Some (Itoa port)
    | None => None
    end) (mapsAt (ct_Spec container) "ports").

Definition hostPorts (_ : Subject U) container : string * string :=
  match claimedHostPorts container with
  | [] => none
  | claimed => ("binds host " +s+ plural claimed "port" +s+ " " +s+ Join ", " claimed, "")
  end.

Definition hostPathOf (volume : amap) : string :=
  match mapAt volume sensitiveMount with None => "" | Some spec => stringAt spec "path" end.

Definition firstHostPath subject (wantSensitive : bool) : string * string :=
  match omap (fun volume =>
    let found := hostPathOf volume in
    if bool_decide (found = "") || contains runtimeSockets found then None
    else if negb (Bool.eqb (contains sensitiveHostPaths found) wantSensitive) then None
    else Some (stringAt volume "name", found)) (mapsAt (s_Pod subject) "volumes")
  with
  | first :: _ => first
  | [] => ("", "")
  end.

Definition hostPathMounted subject (wantSensitive : bool) : string * string :=
  let '(name, path) := firstHostPath subject wantSensitive in
  if bool_decide (name = "") then none
  else ("volume " +s+ name +s+ " mounts " +s+ path +s+ " from the node", volumePatch subject name).

Definition hostPathVolume subject : string * string := hostPathMounted subject false.
Definition sensitiveHostPath subject : string * string := hostPathMounted subject true.

Definition hostPathVolumeNames subject : list string :=
  omap (fun volume => if bool_decide (hostPathOf volume = "") then None else Some (stringAt volume "name"))
    (mapsAt (s_Pod subject) "volumes").

Definition writableMountOf container (volume : string) : string :=
  match List.filter (fun item => bool_decide (stringAt item "name" = volume) && negb (on item "readOnly"))
          (mapsAt (ct_Spec container) "volumeMounts") with
  | item :: _ => stringAt item "mountPath"
  | [] => ""
  end.

Definition writableHostMount subject container : string * string :=
  match List.filter (fun mounted => negb (bool_decide (mounted = "")))
          (map (writableMountOf container) (hostPathVolumeNames subject)) with
  | mounted :: _ => ("mounts the node's " +s+ mounted +s+ " writable", "")
  | [] => none
  end.

Definition outsideUserNamespace subject : bool := negb (off (s_Pod subject) "hostUsers").
Definition hasHostPathVolume subject : bool := (0 <? zlen (hostPathVolumeNames subject))%Z.

Definition droppedCapabilities container : list string := capabilitiesAt container "drop".

Definition capabilitiesNotDropped subject container : string * string :=
  if existsb (fun name => Guard.EqualFold name dropAll) (droppedCapabilities container) then none
  else
    ("securityContext.capabilities.drop does not include ALL",
     containerPatch subject container
       [securityBlock; indent +s+ "capabilities:"; Repeat 2 indent +s+ "drop:"; Repeat 3 indent +s+ "- " +s+ dropAll]).

Definition netRawKept subject container : string * string :=
  if existsb (fun name => Guard.EqualFold name dropAll || Guard.EqualFold name netRaw) (droppedCapabilities container) then none
  else
    ("NET_RAW is not in securityContext.capabilities.drop",
     containerPatch subject container
       [securityBlock; indent +s+ "capabilities:"; Repeat 2 indent +s+ "drop:"; Repeat 3 indent +s+ "- " +s+ netRaw]).

Definition disallowedVolumeTypes subject : list string :=
  sort_by str_compare
    (elements (list_to_set
      (List.filter (fun key => negb (bool_decide (key = "name") || contains restrictedVolumeTypes key))
         (flat_map (map fst) (mapsAt (s_Pod subject) "volumes"))) : gset string)).

Definition restrictedVolumes subject : string * string :=
  match disallowedVolumeTypes subject with
  | [] => none
  | named => ("uses the " +s+ plural named "volume type" +s+ " " +s+ Join ", " named, "")
  end.

Definition rootAt (own inherited : amap) (field : string) : bool :=
  bool_decide ((match numberAt own field with Some value => Some value | None => numberAt inherited field end) = Some 0%Z).

(** A float64 that is zero, of either sign. *)
Definition zeroFloat (bits : Z) : bool := (Z.land bits (2 ^ 63 - 1) =? 0)%Z.

Definition rootSupplemental (own inherited : amap) : bool :=
  match (match sliceAt own "supplementalGroups" with Some listed => Some listed | None => sliceAt inherited "supplementalGroups" end) with
  | None => false
  | Some listed => existsb (fun entry => match entry with AInt value => (value =? 0)%Z | AFloat value => zeroFloat value | _ => false end) listed
  end.

Definition rootGroup subject container : string * string :=
  let own := securityContextOf (ct_Spec container) in
  let inherited := securityContextOf (s_Pod subject) in
  match List.filter (rootAt own inherited) ["runAsGroup"; "fsGroup"] with
  | field :: _ => ("securityContext." +s+ field +s+ " is 0", "")
  | [] => if rootSupplemental own inherited then ("securityContext.supplementalGroups includes 0", "") else none
  end.

Definition hostProcessAt (spec : amap) : bool :=
  match mapAt spec windowsOptions with None => false | Some options => on options hostProcessField end.

Definition hostProcess subject container : string * string :=
  if negb (hostProcessAt (securityContextOf (ct_Spec container))) && negb (hostProcessAt (securityContextOf (s_Pod subject))) then none
  else
    ("windowsOptions.hostProcess is true",
     containerPatch subject container
       [securityBlock; indent +s+ windowsOptions +s+ ":"; Repeat 2 indent +s+ hostProcessField +s+ ": false"]).

Definition automountToken subject : string * string :=
  match boolAt (s_Pod subject) "automountServiceAccountToken" with
  | Some false => none
  | stated =>
      ((match stated with
        | Some _ => "automountServiceAccountToken is true"
        | None => "automountServiceAccountToken is unset, which mounts the token"
        end), podPatch subject ["automountServiceAccountToken: false"])
  end.

Definition defaultServiceAccount subject : string * string :=
  let name := stringAt (s_Pod subject) "serviceAccountName" in
  if bool_decide (name = "") then ("serviceAccountName is unset, so the pod uses the namespace's default account", "")
  else if bool_decide (name = defaultNamespace) then ("serviceAccountName is the namespace's default account", "")
  else none.
End security.
End Security.
