(* ===== verification/Lifecycle.v ===== *)
(** internal/checks/reliability.go, lifecycle.go and batch.go: the rules of an
    audit that look at how a workload starts, stops, restarts and rolls out. *)

From S2P Require Import Prelude Api Text Unstr Kube Inspect Rollout Corpus Pss Checks Numbers Patches.

Module Lifecycle.
Import Api Text Unstr Corpus Numbers Patches.

Definition jobKind : string := "Job".
Definition deploymentKind : string := "Deployment".
Definition statefulSetKind : string := "StatefulSet".
Definition secretField : string := "secret".
Definition alwaysPull : string := "Always".
Definition noSpread : list string := [daemonSetKind; cronKind; "Pod"].
Definition livenessProbe : string := "livenessProbe".
Definition readinessProbe : string := "readinessProbe".
Definition startupProbe : string := "startupProbe".
Definition ephemeralName : string := "ephemeral-storage".
Definition recreateShape : string := "Recreate".
Definition graceField : string := "terminationGracePeriodSeconds".
Definition revisionHistory : string := "revisionHistoryLimit".
Definition longGraceSeconds : Z := 600.
Definition keptRevisions : Z := 10.
Definition probeHandlers : list string := ["httpGet"; "tcpSocket"; "exec"; "grpc"].
Definition batchKinds : list string := ["Job"; cronKind].
Definition spreadableKinds : list string := [deploymentKind; statefulSetKind; "ReplicaSet"; "ReplicationController"].

Definition ttlField : string := "ttlSecondsAfterFinished".
Definition activeDeadline : string := "activeDeadlineSeconds".
Definition backoffField : string := "backoffLimit".
Definition startingDeadline : string := "startingDeadlineSeconds".
Definition concurrencyField : string := "concurrencyPolicy".
Definition successHistory : string := "successfulJobsHistoryLimit".
Definition failedHistory : string := "failedJobsHistoryLimit".
Definition allowConcurrent : string := "Allow".
Definition highBackoffLimit : Z := 10.
Definition keptJobsCeiling : Z := 10.
Definition defaultKeptJobs : Z := 3.
Definition defaultTTLSeconds : Z := 3600.

(** [strings.LastIndex] of a byte *)
Fixpoint last_index (at_ : Z) (c : Ascii.ascii) (s : string) (last : Z) : Z :=
  match s with
  | EmptyString => last
  | String d rest => last_index (at_ + 1) c rest (if bool_decide (d = c) then at_ else last)
  end.
Definition LastIndex (s : string) (c : Ascii.ascii) : Z := last_index 0 c s (-1).

Definition colonByte : Ascii.ascii := Ascii.ascii_of_N 58.
Definition slashByte : Ascii.ascii := Ascii.ascii_of_N 47.

Definition str_drop (n : Z) (s : string) : string := String.substring (Z.to_nat n) (String.length s - Z.to_nat n) s.

Definition tagOf (image : string) : string :=
  let colon := LastIndex image colonByte in
  if (colon <? 0)%Z then ""
  else if (colon <? LastIndex image slashByte)%Z then ""
  else str_drop (colon + 1) image.

Example tag_of :
  tagOf "nginx:1.27" = "1.27" /\ tagOf "nginx" = "" /\ tagOf "host:5000/nginx" = "" /\ tagOf "host:5000/nginx:a" = "a".
Proof. by vm_compute. Qed.

(** ** Values *)

Definition valueText (value : any) : string :=
  match value with
  | AString typed => "s" +s+ typed
  | AInt typed => "i" +s+ Itoa typed
  | AFloat typed => "i" +s+ Itoa (Int64OfFloat typed)
  | ABool typed => "b" +s+ (if typed then "true" else "false")
  | _ => ""
  end.

(** Floats of a document are numbers, of which the zeros are equal. *)
Definition sameFloat (a b : Z) : bool := (a =? b)%Z || ((Z.land a (2 ^ 63 - 1) =? 0)%Z && (Z.land b (2 ^ 63 - 1) =? 0)%Z).

(** [reflect.DeepEqual] *)
Fixpoint DeepEqual (left right : any) {struct left} : bool :=
  match left, right with
  | ANil, ANil => true
  | ABool a, ABool b => Bool.eqb a b
  | AInt a, AInt b => (a =? b)%Z
  | AFloat a, AFloat b => sameFloat a b
  | AString a, AString b => bool_decide (a = b)
  | ASlice a, ASlice b =>
      (fix same (a b : list any) : bool :=
         match a, b with
         | [], [] => true
         | x :: a, y :: b => DeepEqual x y && same a b
         | _, _ => false
         end) a b
  | AMap a, AMap b =>
      (zlen a =? zlen b)%Z &&
      (fix same (a : amap) : bool :=
         match a with
         | [] => true
         | (key, x) :: a => match aget b key with Some y => DeepEqual x y | None => false end && same a
         end) a
  | _, _ => false
  end.

Definition sameValue (left right : any) : bool :=
  let leftText := valueText left in
  let rightText := valueText right in
  if bool_decide (leftText <> "") || bool_decide (rightText <> "") then bool_decide (leftText = rightText)
  else DeepEqual left right.

(** [maps.EqualFunc(left, right, sameValue)] *)
Definition EqualFunc (left right : amap) : bool :=
  (zlen left =? zlen right)%Z &&
  forallb (fun '(key, x) => match aget right key with Some y => sameValue x y | None => false end) left.

Definition portText (value : option any) : string :=
  match value with
  | Some (AString typed) => typed
  | Some (AInt typed) => Itoa typed
  | Some (AFloat typed) => Itoa (Int64OfFloat typed)
  | _ => ""
  end.

Definition isBatch (kind : string) : bool := contains batchKinds kind.
Definition isSpreadable (kind : string) : bool := contains spreadableKinds kind.
Definition keepsPodsRunning (kind : string) : bool := isSpreadable kind || bool_decide (kind = daemonSetKind).
Definition isJobShaped (kind : string) : bool := bool_decide (kind = jobKind) || bool_decide (kind = cronKind).

(** The first of some texts that is not empty. *)
Definition firstText (texts : list string) : string :=
  match List.filter (fun text => negb (bool_decide (text = ""))) texts with text :: _ => text | [] => "" end.

Section lifecycle.
Context {U : Type} {Un : Unstructured U} {De : Described U} {Ed : Editable U} {Ow : Owned U} {Qu : Quantities}.
Implicit Types (subject : Subject U) (container : Container).

(** ** reliability.go *)

Definition longRunning subject container : bool :=
  if ct_Init container then false
  else if isJobShaped (s_Kind subject) then false
  else
    let policy := stringAt (s_Pod subject) "restartPolicy" in
    bool_decide (policy = "") || bool_decide (policy = "Always").

Definition present (spec : amap) (key : string) : bool := bool_decide (is_Some (aget spec key)).

Definition probesMissing subject container : string * string :=
  if negb (longRunning subject container) then none
  else if present (ct_Spec container) "livenessProbe" || present (ct_Spec container) "readinessProbe" then none
  else ("no livenessProbe and no readinessProbe", "").

Definition latestImage (_ : Subject U) container : string * string :=
  let image := stringAt (ct_Spec container) "image" in
  if bool_decide (image = "") then none
  else if str_contains image "@" then none
  else
    let tag := tagOf image in
    if bool_decide (tag = "") then (image +s+ " carries no tag, so :latest is pulled", "")
    else if bool_decide (tag = "latest") then (image +s+ " is tagged :latest", "")
    else none.

Definition singleReplica subject : string * string :=
  if bool_decide (s_Kind subject <> "Deployment") then none
  else if negb (s_Replicas subject =? 1)%Z then none
  else ("spec.replicas is 1", specPatch ["replicas: 2"]).

Definition sharedNode (pods : list Placed) : string :=
  match pods with
  | first :: (_ :: _) as rest =>
      let node := pd_Node first in
      if bool_decide (node = "") then ""
      else if forallb (fun pod => bool_decide (pd_Node pod = node)) rest then node else ""
  | _ => ""
  end.

Definition oneNode subject : string * string :=
  if contains noSpread (s_Kind subject) then none
  else
    let node := sharedNode (s_Pods subject) in
    if bool_decide (node = "") then none
    else ("all " +s+ Itoa (zlen (s_Pods subject)) +s+ " pods run on node " +s+ node, spreadPatch subject).

(** ** lifecycle.go *)

Definition probeAt container (name : string) : option amap := mapAt (ct_Spec container) name.

Definition handlerOf (probe : amap) : option (string * amap) :=
  match omap (fun field => pair field <$> mapAt probe field) probeHandlers with first :: _ => Some first | [] => None end.

Definition probesIdentical (_ : Subject U) container : string * string :=
  match probeAt container livenessProbe ≫= handlerOf, probeAt container readinessProbe ≫= handlerOf with
  | Some (liveName, liveBody), Some (readyName, readyBody) =>
      if bool_decide (liveName <> readyName) || negb (EqualFunc liveBody readyBody) then none
      else ("livenessProbe and readinessProbe both run the same " +s+ liveName, "")
  | _, _ => none
  end.

Definition probePort (probe : amap) : string :=
  match omap (mapAt probe) ["httpGet"; "tcpSocket"] with body :: _ => portText (aget body "port") | [] => "" end.

Definition declaredPorts container : list string :=
  flat_map (fun item =>
    List.filter (fun text => negb (bool_decide (text = ""))) [portText (aget item "containerPort"); stringAt item "name"])
    (mapsAt (ct_Spec container) "ports").

Definition undeclaredAt container (name : string) : string :=
  match probeAt container name with
  | None => ""
  | Some probe =>
      let wanted := probePort probe in
      if bool_decide (wanted = "") || contains (declaredPorts container) wanted then ""
      else name +s+ " probes port " +s+ wanted +s+ ", which the container does not declare"
  end.

Definition probePortUndeclared (_ : Subject U) container : string * string :=
  if bool_decide (declaredPorts container = []) then none
  else (firstText (map (undeclaredAt container) [livenessProbe; readinessProbe; startupProbe]), "").

Definition livenessWithoutGrace (_ : Subject U) container : string * string :=
  match probeAt container livenessProbe, probeAt container startupProbe with
  | Some probe, None =>
      if (0 <? default 0 (numberAt probe "initialDelaySeconds"))%Z then none
      else ("livenessProbe has no initialDelaySeconds and the container has no startupProbe", "")
  | _, _ => none
  end.

Definition noPreStop subject container : string * string :=
  if negb (longRunning subject container) then none
  else if (match mapAt (ct_Spec container) "lifecycle" with Some hooks => present hooks "preStop" | None => false end) then none
  else ("no lifecycle.preStop hook", "").

Definition graceOf subject : option Z := numberAt (s_Pod subject) graceField.

Definition graceZero subject : string * string :=
  match graceOf subject with
  | Some 0%Z => (graceField +s+ " is 0, so the container is killed rather than asked to stop", "")
  | _ => none
  end.

Definition graceTooLong subject : string * string :=
  match graceOf subject with
  | Some seconds =>
      if (seconds <=? longGraceSeconds)%Z then none
      else (graceField +s+ " is " +s+ Itoa seconds +s+ "s, so a drain waits that long for each pod", "")
  | None => none
  end.

Definition wrongRestartPolicy subject : string * string :=
  let policy := stringAt (s_Pod subject) "restartPolicy" in
  if isBatch (s_Kind subject) then
    if bool_decide (policy = "Never") || bool_decide (policy = "OnFailure") then none
    else
      ("restartPolicy is " +s+ (if bool_decide (policy = "") then "unset, which means Always" else policy) +s+
       ", which a " +s+ s_Kind subject +s+ " cannot use", "")
  else if negb (keepsPodsRunning (s_Kind subject)) || bool_decide (policy = "") || bool_decide (policy = alwaysPull) then none
  else ("restartPolicy is " +s+ policy +s+ ", so a stopped container is never replaced", "").

Definition ephemeralStorageUnset (_ : Subject U) container : string * string :=
  match quantityAt (ct_Spec container) requests ephemeralName, quantityAt (ct_Spec container) limits ephemeralName with
  | Some _, Some _ => none
  | None, None => ("no ephemeral-storage request or limit", "")
  | Some _, None => ("no ephemeral-storage limit", "")
  | None, Some _ => ("no ephemeral-storage request", "")
  end.

Definition memoryNotGuaranteed (_ : Subject U) container : string * string :=
  match quantityAt (ct_Spec container) requests memoryName, quantityAt (ct_Spec container) limits memoryName with
  | Some request, Some limit =>
      if (Value request =? Value limit)%Z then none
      else ("memory request " +s+ QuantityString request +s+ " is below the " +s+ QuantityString limit +s+ " limit", "")
  | _, _ => none
  end.

(** [missingIn] of efficiency.go *)
Definition missingIn container (section : string) : list string :=
  List.filter (fun name => bool_decide (quantityAt (ct_Spec container) section name = None)) [cpuName; memoryName].

Definition initUnbounded (_ : Subject U) container : string * string :=
  if negb (ct_Init container) then none
  else
    match missingIn container requests with
    | [] => none
    | missing => ("init container has no " +s+ Join " or " missing +s+ " request", "")
    end.

Definition replicasZero subject : string * string :=
  if negb (isSpreadable (s_Kind subject)) then none
  else
    match numberAt (Pss.specOf subject [specField]) "replicas" with
    | Some 0%Z => ("spec.replicas is 0, so nothing is running", "")
    | _ => none
    end.

Definition hasAntiAffinity subject : bool :=
  bool_decide (is_Some (mapAt (s_Pod subject) "affinity" ≫= fun affinity => mapAt affinity "podAntiAffinity")).

Definition noSpreadRule subject : string * string :=
  if negb (isSpreadable (s_Kind subject)) || (s_Replicas subject <? 2)%Z then none
  else if (0 <? listedItems (s_Pod subject) "topologySpreadConstraints")%Z then none
  else if hasAntiAffinity subject then none
  else
    (Itoa (s_Replicas subject) +s+ " replicas with no topologySpreadConstraints and no podAntiAffinity", spreadPatch subject).

Definition strategyOf subject : amap := default [] (mapAt (Pss.specOf subject [specField]) "strategy").

Definition recreateStrategy subject : string * string :=
  if bool_decide (s_Kind subject <> deploymentKind) then none
  else if bool_decide (stringAt (strategyOf subject) "type" <> recreateShape) then none
  else
    ("spec.strategy.type is Recreate, so every pod stops before the new ones start",
     specPatch ["strategy:"; indent +s+ "type: RollingUpdate"]).

Definition takesEverything (raw : any) (replicas : Z) : bool :=
  let text := portText (Some raw) in
  if bool_decide (text = "") then false
  else if has_suffix text "%" then bool_decide (text = "100%")
  else
    match Parse.ParseInt text 64 with
    | Err _ => false
    | Ok count => (0 <? replicas)%Z && (replicas <=? count)%Z
    end.

Definition maxUnavailableAll subject : string * string :=
  if bool_decide (s_Kind subject <> deploymentKind) then none
  else
    match mapAt (strategyOf subject) "rollingUpdate" with
    | None => none
    | Some rolling =>
        match aget rolling "maxUnavailable" with
        | None => none
        | Some raw =>
            if negb (takesEverything raw (s_Replicas subject)) then none
            else
              ("spec.strategy.rollingUpdate.maxUnavailable is " +s+ portText (Some raw) +s+ ", which covers every replica", "")
        end
    end.

Definition statefulSetNoService subject : string * string :=
  if bool_decide (s_Kind subject <> statefulSetKind) then none
  else if bool_decide (stringAt (Pss.specOf subject [specField]) "serviceName" <> "") then none
  else ("spec.serviceName is unset, so the pods get no stable DNS name", "").

Definition unboundedHistory subject : string * string :=
  if negb (keepsPodsRunning (s_Kind subject)) then none
  else
    match numberAt (Pss.specOf subject [specField]) revisionHistory with
    | Some kept =>
        if (kept <=? keptRevisions)%Z then none
        else ("spec." +s+ revisionHistory +s+ " keeps " +s+ Itoa kept +s+ " old revisions", specPatch [revisionHistory +s+ ": 3"])
    | None => none
    end.

(** The names seen, and those seen again, in the order they were. *)
Fixpoint repeatedNames (seen repeated names : list string) : list string :=
  match names with
  | [] => repeated
  | name :: rest =>
      if bool_decide (name = "") then repeatedNames seen repeated rest
      else
        repeatedNames (name :: seen)
          (if contains seen name && negb (contains repeated name) then repeated ++ [name] else repeated) rest
  end.

Definition duplicateEnvKeys (_ : Subject U) container : string * string :=
  match repeatedNames [] [] (map (fun item => stringAt item "name") (mapsAt (ct_Spec container) "env")) with
  | [] => none
  | repeated => (Join ", " repeated +s+ " is set more than once", "")
  end.

(** ** batch.go *)

Definition jobSpecOf subject : amap :=
  if bool_decide (s_Kind subject = cronKind) then Pss.specOf subject [specField; "jobTemplate"; specField]
  else Pss.specOf subject [specField].

Definition jobPatch subject (body : list string) : string :=
  if bool_decide (s_Kind subject = cronKind) then nest [specField; "jobTemplate"; specField] body else specPatch body.

Definition jobNoTTL subject : string * string :=
  if negb (isJobShaped (s_Kind subject)) then none
  else if bool_decide (is_Some (numberAt (jobSpecOf subject) ttlField)) then none
  else
    ("spec." +s+ ttlField +s+ " is unset, so the finished Job stays until it is deleted",
     jobPatch subject [ttlField +s+ ": " +s+ Itoa defaultTTLSeconds]).

Definition jobNoDeadline subject : string * string :=
  if negb (isJobShaped (s_Kind subject)) then none
  else if bool_decide (is_Some (numberAt (jobSpecOf subject) activeDeadline)) then none
  else ("spec." +s+ activeDeadline +s+ " is unset, so a hung run is never stopped", "").

Definition jobBackoffLimit subject : string * string :=
  if negb (isJobShaped (s_Kind subject)) then none
  else
    match numberAt (jobSpecOf subject) backoffField with
    | None => none
    | Some limit =>
        if (limit =? 0)%Z then ("spec." +s+ backoffField +s+ " is 0, so one transient failure fails the Job", "")
        else if (highBackoffLimit <? limit)%Z then
          ("spec." +s+ backoffField +s+ " is " +s+ Itoa limit +s+ ", so a permanent failure is retried that many times", "")
        else none
    end.

Definition cronNoStartingDeadline subject : string * string :=
  if bool_decide (s_Kind subject <> cronKind) then none
  else if bool_decide (is_Some (numberAt (Pss.specOf subject [specField]) startingDeadline)) then none
  else
    ("spec." +s+ startingDeadline +s+ " is unset, so missed schedules count towards the hundred that stop it",
     specPatch [startingDeadline +s+ ": 120"]).

Definition cronConcurrencyAllow subject : string * string :=
  if bool_decide (s_Kind subject <> cronKind) then none
  else
    let policy := stringAt (Pss.specOf subject [specField]) concurrencyField in
    if bool_decide (policy <> "") && bool_decide (policy <> allowConcurrent) then none
    else
      ("spec." +s+ concurrencyField +s+ " is " +s+ (if bool_decide (policy = "") then "unset, which allows overlap" else policy),
       specPatch [concurrencyField +s+ ": Forbid"]).

Fixpoint historyOf (spec : amap) (fields : list string) : string * string :=
  match fields with
  | [] => none
  | field :: rest =>
      let patch := specPatch [field +s+ ": " +s+ Itoa defaultKeptJobs] in
      match numberAt spec field with
      | None => ("spec." +s+ field +s+ " is unset", patch)
      | Some kept =>
          if (kept <=? keptJobsCeiling)%Z then historyOf spec rest
          else ("spec." +s+ field +s+ " keeps " +s+ Itoa kept +s+ " finished jobs", patch)
      end
  end.

Definition cronUnboundedHistory subject : string * string :=
  if bool_decide (s_Kind subject <> cronKind) then none
  else historyOf (Pss.specOf subject [specField]) [successHistory; failedHistory].
End lifecycle.
End Lifecycle.
