(* ===== verification/Supply.v ===== *)
(** internal/checks/supply.go and efficiency.go: the rules of an audit that look
    at where images come from, what a manifest gives away, and at requests,
    limits and usage. *)

From S2P Require Import Prelude Api Text Unstr Kube Inspect Faults Corpus Pss Checks Numbers Patches Lifecycle.

Module Supply.
Import Api Text Unstr Corpus Numbers Patches Lifecycle.

Definition digestMarker : string := "@sha256:".
Definition dockerHub : string := "docker.io".
Definition dockerHubIndex : string := "index.docker.io".
Definition latestTag : string := "latest".
Definition nameLabel : string := "app.kubernetes.io/name".
Definition defaultNamespace : string := "default".
Definition groupOtherBits : Z := 63. (* 0o077 *)
Definition credentialMinimum : Z := 4.

Definition credentialWords : list string :=
  ["PASSWORD"; "PASSWD"; "SECRET"; "TOKEN"; "APIKEY"; "API_KEY"; "PRIVATE_KEY"; "ACCESS_KEY"; "CREDENTIAL"].

Definition publicRegistries : list string :=
  [dockerHub; dockerHubIndex; "gcr.io"; "ghcr.io"; "public.ecr.aws"; "quay.io"; "registry.k8s.io"; "mcr.microsoft.com"].

Definition registryOf (image : string) : string :=
  let '(head, _, found) := str_cut image "/" in
  if negb found then dockerHub
  else if negb (str_contains head "." || str_contains head ":") && bool_decide (head <> "localhost") then dockerHub
  else head.

Example registry_of :
  registryOf "nginx" = "docker.io" /\ registryOf "library/nginx" = "docker.io" /\ registryOf "quay.io/a/b" = "quay.io" /\
  registryOf "localhost/a" = "localhost" /\ registryOf "r:5000/a" = "r:5000".
Proof. by vm_compute. Qed.

(** [strings.ToUpper] as far as the words of ASCII letters it contains go:
    the dotless i and the long s are the characters outside ASCII whose upper
    case is an ASCII letter. *)
Definition upper_byte (c : Ascii.ascii) : Ascii.ascii :=
  let n := Ascii.N_of_ascii c in
  if (97 <=? n)%N && (n <=? 122)%N then Ascii.ascii_of_N (n - 32) else c.

Fixpoint upper (s : string) : string :=
  match s with
  | EmptyString => ""
  | String c rest =>
      match rest with
      | String d more =>
          if bool_decide (Ascii.N_of_ascii c = 196%N) && bool_decide (Ascii.N_of_ascii d = 177%N) then String (Ascii.ascii_of_N 73) (upper more)
          else if bool_decide (Ascii.N_of_ascii c = 197%N) && bool_decide (Ascii.N_of_ascii d = 191%N) then String (Ascii.ascii_of_N 83) (upper more)
          else String (upper_byte c) (upper rest)
      | EmptyString => String (upper_byte c) ""
      end
  end.

Definition looksLikeCredential (name : string) : bool := existsb (str_contains (upper name)) credentialWords.

Section supply.
Context {U : Type} {Un : Unstructured U} {De : Described U} {Ed : Editable U} {Ow : Owned U} {Qu : Quantities}.
Implicit Types (subject : Subject U) (container : Container).

Definition imageOf container : string := stringAt (ct_Spec container) "image".

Definition imageNotPinned (_ : Subject U) container : string * string :=
  let image := imageOf container in
  if bool_decide (image = "") || str_contains image digestMarker then none else (image +s+ " names no digest", "").

Definition imageFromDockerHub (_ : Subject U) container : string * string :=
  let image := imageOf container in
  if bool_decide (image = "") then none
  else
    let registry := registryOf image in
    if bool_decide (registry <> dockerHub) && bool_decide (registry <> dockerHubIndex) then none
    else (image +s+ " comes from Docker Hub", "").

Definition pullPolicyNotAlways (_ : Subject U) container : string * string :=
  let image := imageOf container in
  if bool_decide (image = "") || str_contains image digestMarker then none
  else
    let tag := tagOf image in
    if bool_decide (tag = "") || bool_decide (tag = latestTag) then none
    else
      let policy := stringAt (ct_Spec container) "imagePullPolicy" in
      if bool_decide (policy = alwaysPull) then none
      else
        ("imagePullPolicy is " +s+ (if bool_decide (policy = "") then "unset, which caches" else policy) +s+
         " on the mutable tag " +s+ tag, "").

Definition firstPrivateRegistry subject : string :=
  match List.filter (fun registry => negb (contains publicRegistries registry))
          (omap (fun entry => let image := imageOf entry in if bool_decide (image = "") then None else Some (registryOf image))
             (s_Containers subject)) with
  | registry :: _ => registry
  | [] => ""
  end.

Definition privateRegistryNoSecret subject : string * string :=
  if (0 <? listedItems (s_Pod subject) "imagePullSecrets")%Z then none
  else
    let registry := firstPrivateRegistry subject in
    if bool_decide (registry = "") then none else ("pulls from " +s+ registry +s+ " with no imagePullSecrets", "").

Definition envEntries container : list amap := mapsAt (ct_Spec container) "env".

Definition secretInEnvLiteral (_ : Subject U) container : string * string :=
  match List.filter (fun entry =>
          looksLikeCredential (stringAt entry "name") && negb (strlen (stringAt entry "value") <? credentialMinimum)%Z)
          (envEntries container) with
  | entry :: _ => (stringAt entry "name" +s+ " is set to a literal value in the manifest", "")
  | [] => none
  end.

Definition envFromSecret (_ : Subject U) container : string * string :=
  match omap (fun item => mapAt item "secretRef") (mapsAt (ct_Spec container) "envFrom") with
  | ref :: _ => ("envFrom loads every key of the secret " +s+ stringAt ref "name", "")
  | [] => none
  end.

Definition readableMode (volume : amap) : option (string * Z) :=
  match mapAt volume "secret" with
  | None => None
  | Some secret =>
      match numberAt secret "defaultMode" with
      | Some mode => if (Z.land mode groupOtherBits =? 0)%Z then None else Some (stringAt volume "name", mode)
      | None => None
      end
  end.

Definition secretVolumeReadable subject : string * string :=
  match omap readableMode (mapsAt (s_Pod subject) "volumes") with
  | (name, mode) :: _ => ("volume " +s+ name +s+ " mounts a secret with defaultMode " +s+ "0" +s+ FormatOctal mode, "")
  | [] => none
  end.

Definition inDefaultNamespace subject : string * string :=
  if bool_decide (or_Namespace (s_Ref subject) <> defaultNamespace) then none else ("runs in the default namespace", "").

Definition labelsOf subject : option (gmap string string) := s_Object subject ≫= GetLabels.

Definition missingNameLabel subject : string * string :=
  if bool_decide (Inspect.of_map (labelsOf subject) nameLabel <> "") then none else ("no " +s+ nameLabel +s+ " label", "").

Definition templateLabels subject : amap :=
  let path := templatePath (s_Kind subject) in
  if (zlen path <? 2)%Z then []
  else default [] (mapAt (Pss.specOf subject (take (length path - 1) path ++ [metadataField])) "labels").

Definition selectorLabels subject : gmap string string :=
  match mapAt (Pss.specOf subject [specField]) "selector" with
  | None => ∅
  | Some selector => match mapAt selector "matchLabels" with None => ∅ | Some pairs => stringMap pairs end
  end.

Definition selectorMismatch subject : string * string :=
  if negb (keepsPodsRunning (s_Kind subject)) then none
  else
    let carried := templateLabels subject in
    match omap (fun '(key, value) => if bool_decide (stringAt carried key <> value) then Some key else None)
            (map_to_list (selectorLabels subject)) with
    | [] => none
    | missing => ("the pod template does not carry " +s+ Join ", " (sort_by str_compare missing), "")
    end.

Definition cpuLimitSet (_ : Subject U) container : string * string :=
  match quantityAt (ct_Spec container) limits cpuName with
  | None => none
  | Some limit => ("resources.limits.cpu is " +s+ QuantityString limit, "")
  end.
End supply.
End Supply.

(** ** efficiency.go *)

Module Efficiency.
Import Api Text Unstr Corpus Numbers Patches Lifecycle Checks.

Definition overprovisionRatio : Z := 4.
Definition bytesPerMi : Z := 1024 * 1024.

Section efficiency.
Context {U : Type} {Un : Unstructured U} {De : Described U} {Ed : Editable U} {Ow : Owned U} {Qu : Quantities}.
Implicit Types (subject : Subject U) (container : Container).

Definition requestsMissing (_ : Subject U) container : string * string :=
  match missingIn container requests with [] => none | missing => ("no " +s+ Join " or " missing +s+ " request", "") end.

Definition limitsMissing (_ : Subject U) container : string * string :=
  match missingIn container limits with [] => none | missing => ("no " +s+ Join " or " missing +s+ " limit", "") end.

(** Go's [/] rounds toward zero. *)
Definition ratioDetail container (name : string) (scale : Quantity -> Z) : string :=
  match quantityAt (ct_Spec container) requests name, quantityAt (ct_Spec container) limits name with
  | Some request, Some limit =>
      let asked := scale request in
      let allowed := scale limit in
      if (asked <=? 0)%Z then ""
      else
        let ratio := Z.quot allowed asked in
        if (ratio <? overprovisionRatio)%Z then ""
        else
          name +s+ " limit " +s+ QuantityString limit +s+ " is " +s+ Itoa ratio +s+ "x the " +s+ QuantityString request +s+ " request"
  | _, _ => ""
  end.

Definition limitsAboveRequests (_ : Subject U) container : string * string :=
  let cpu := ratioDetail container cpuName milliOf in
  if bool_decide (cpu <> "") then (cpu, "") else (ratioDetail container memoryName plainOf, "").

Definition overprovisioned (asked used : Z) : bool :=
  if (used <=? 0)%Z then false else (overprovisionRatio <=? Z.quot asked used)%Z.

Definition usageDetail (name : string) (asked used : Z) (unit : string) : string :=
  "pods request " +s+ Itoa asked +s+ unit +s+ " " +s+ name +s+ " and use " +s+ Itoa used +s+ unit.

Definition askedFor subject (name : string) (scale : Quantity -> Z) : Z :=
  foldl (fun total container =>
    if ct_Init container then total
    else match quantityAt (ct_Spec container) requests name with None => total | Some value => wrap64 (total + scale value) end)
    0%Z (s_Containers subject).

Definition meanUsage subject (usage : gmap string ResourceUsage) : option ResourceUsage :=
  let '(total, seen) :=
    foldl (fun '(total, seen) pod =>
      match usage !! (or_Namespace (s_Ref subject) +s+ "/" +s+ pd_Name pod) with
      | None => (total, seen)
      | Some found =>
          (MkResourceUsage (wrap64 (ru_CPUMilli total + ru_CPUMilli found)) (wrap64 (ru_MemoryMi total + ru_MemoryMi found)),
           (seen + 1)%Z)
      end) (MkResourceUsage 0 0, 0%Z) (s_Pods subject) in
  if (seen =? 0)%Z then None
  else Some (MkResourceUsage (Z.quot (ru_CPUMilli total) seen) (Z.quot (ru_MemoryMi total) seen)).

Definition requestsAboveUsage subject (usage : gmap string ResourceUsage) : string * string :=
  match meanUsage subject usage with
  | None => none
  | Some measured =>
      let cpu := askedFor subject cpuName milliOf in
      if overprovisioned cpu (ru_CPUMilli measured) then (usageDetail "cpu" cpu (ru_CPUMilli measured) "m", "")
      else
        let memory := Z.quot (askedFor subject memoryName plainOf) bytesPerMi in
        if overprovisioned memory (ru_MemoryMi measured) then (usageDetail memoryName memory (ru_MemoryMi measured) "Mi", "")
        else none
  end.
End efficiency.
End Efficiency.
