(* ===== verification/NodeFacts.v ===== *)
(** internal/checks/facts.go: the rules of an audit that look at nodes, limit
    ranges and quotas. *)

From S2P Require Import Prelude Api Text Unstr Issues Kube Inspect Corpus Pss Checks Numbers Patches.

Module NodeFacts.
Import Api Text Unstr Corpus Numbers Patches Checks.

Definition hostnameKey : string := "kubernetes.io/hostname".
Definition containerLimits : string := "Container".
Definition doNotSchedule : string := "DoNotSchedule".
Definition nearly : Z := 90.

Definition nodeTarget : target := MkTarget "" "nodes".
Definition namespaceTarget : target := MkTarget "" "namespaces".
Definition quotaTarget : target := MkTarget "" "resourcequotas".
Definition limitRangeTarget : target := MkTarget "" "limitranges".

Record taint := MkTaint { tt_key : string; tt_value : string; tt_effect : string }.

Definition tolerationCovers (entry : amap) (one : taint) : bool :=
  let effect := stringAt entry "effect" in
  let key := stringAt entry "key" in
  if bool_decide (effect <> "") && bool_decide (effect <> tt_effect one) then false
  else if bool_decide (stringAt entry "operator" = "Exists") then bool_decide (key = "") || bool_decide (key = tt_key one)
  else if bool_decide (key <> tt_key one) then false
  else bool_decide (stringAt entry "value" = tt_value one).

(** [labels[key]] *)
Definition label (labels : option (gmap string string)) (key : string) : string := Inspect.of_map labels key.

(** [labels] has every pair of [wanted], a label that is not there being empty. *)
Definition carries (labels : option (gmap string string)) (wanted : gmap string string) : bool :=
  forallb (fun '(key, value) => bool_decide (label labels key = value)) (map_to_list wanted).

Section facts.
Context {U : Type} {Un : Unstructured U} {De : Described U} {Ed : Editable U} {Ow : Owned U} {Qu : Quantities}
  {Tm : RFC3339} {Ps : PodSecurity}.
Implicit Types (subject : Subject U) (held : corpus U) (node : U).

Definition nodeLabels node : option (gmap string string) := GetLabels node.

Definition selectorOf subject : gmap string string := stringMap (default [] (mapAt (s_Pod subject) "nodeSelector")).

Definition nodesMatching subject held : list U :=
  List.filter (fun node => carries (nodeLabels node) (selectorOf subject)) (of_ held "" "nodes").

Definition nodeSelectorMatchesNothing subject held : string * string :=
  let wanted := selectorOf subject in
  if bool_decide (wanted = ∅) || bool_decide (of_ held "" "nodes" = []) then none
  else
    match nodesMatching subject held with
    | _ :: _ => none
    | [] =>
        ("no node carries " +s+
         Join ", " (sort_by str_compare (map (fun '(key, value) => key +s+ "=" +s+ value) (map_to_list wanted))), "")
    end.

Definition taintOf (raw : any) : option taint :=
  match asMap (Some raw) with
  | None => None
  | Some entry =>
      if bool_decide (stringAt entry "effect" = "PreferNoSchedule") then None
      else Some (MkTaint (stringAt entry "key") (stringAt entry "value") (stringAt entry "effect"))
  end.

Definition taintsOf node : list taint := omap taintOf (USlice node [specField; "taints"]).

Definition tolerates subject (one : taint) : bool :=
  existsb (fun entry => tolerationCovers entry one) (mapsAt (s_Pod subject) "tolerations").

(** The key of the first taint that repels the subject from each node, or none
    of them when a node accepts it. *)
Fixpoint repelling subject (nodes : list U) (blocking : string) : option string :=
  match nodes with
  | [] => Some blocking
  | node :: rest =>
      match List.filter (fun one => negb (tolerates subject one)) (taintsOf node) with
      | [] => None
      | one :: _ => repelling subject rest (tt_key one)
      end
  end.

Definition tolerationsMissTaints subject held : string * string :=
  match nodesMatching subject held with
  | [] => none
  | nodes =>
      match repelling subject nodes "" with
      | None => none
      | Some blocking => ("every node it could use is tainted " +s+ blocking +s+ ", which it does not tolerate", "")
      end
  end.

Definition allocatableOf node (name : string) : option Quantity :=
  match fieldAt (ObjectOf node) ["status"; "allocatable"; name] with
  | None => None
  | Some raw => quantityFrom (Some raw)
  end.

Definition largestNode held (name : string) (scale : Quantity -> Z) : Z :=
  foldl (fun biggest node =>
    match allocatableOf node name with
    | None => biggest
    | Some value => if (biggest <? scale value)%Z then scale value else biggest
    end) 0%Z (of_ held "" "nodes").

Definition exceeding subject held (name unit : string) (scale : Quantity -> Z) : string :=
  let biggest := largestNode held name scale in
  if (biggest =? 0)%Z then ""
  else
    match omap (fun container =>
      match quantityAt (ct_Spec container) requests name with
      | None => None
      | Some asked => if (scale asked <=? biggest)%Z then None else Some (container, asked)
      end) (s_Containers subject)
    with
    | [] => ""
    | (container, asked) :: _ =>
        "container " +s+ ct_Name container +s+ " requests " +s+ QuantityString asked +s+ " " +s+ name +s+
        " and the largest node has " +s+ Itoa biggest +s+ unit
    end.

Definition requestExceedsLargestNode subject held : string * string :=
  let cpu := exceeding subject held cpuName "m" milliOf in
  if bool_decide (cpu <> "") then (cpu, "") else (exceeding subject held memoryName " bytes" plainOf, "").

Definition spreadConstraints subject : list amap := mapsAt (s_Pod subject) "topologySpreadConstraints".

Definition domainsOf held (key : string) : Z :=
  Z.of_nat (size (list_to_set (omap (fun node => nodeLabels node ≫= fun labels => labels !! key) (of_ held "" "nodes")) : gset string)).

Definition shortOfDomains subject held (entry : amap) : option string :=
  if bool_decide (stringAt entry "whenUnsatisfiable" <> doNotSchedule) then None
  else
    let key := stringAt entry "topologyKey" in
    if bool_decide (key = "") then None
    else
      let skew := default 1%Z (numberAt entry "maxSkew") in
      let domains := domainsOf held key in
      if (domains =? 0)%Z || (s_Replicas subject <=? wrap64 (domains * skew))%Z then None
      else
        Some (Itoa (s_Replicas subject) +s+ " replicas spread over " +s+ key +s+ ", and the cluster has " +s+ Itoa domains +s+
              " of those").

Definition spreadNeedsMoreDomains subject held : string * string :=
  if (s_Replicas subject <? 2)%Z || bool_decide (of_ held "" "nodes" = []) then none
  else match omap (shortOfDomains subject held) (spreadConstraints subject) with first :: _ => (first, "") | [] => none end.

(** The first of the required rules, when it is a map. *)
Definition requiredAntiAffinity subject : option amap :=
  affinity ← mapAt (s_Pod subject) "affinity";
  anti ← mapAt affinity "podAntiAffinity";
  match sliceAt anti "requiredDuringSchedulingIgnoredDuringExecution" with
  | Some (first :: _) => asMap (Some first)
  | _ => None
  end.

Definition antiAffinityExceedsNodes subject held : string * string :=
  match requiredAntiAffinity subject with
  | None => none
  | Some rule =>
      if (s_Replicas subject <? 2)%Z then none
      else if bool_decide (stringAt rule "topologyKey" <> hostnameKey) then none
      else
        let nodes := zlen (nodesMatching subject held) in
        if (nodes =? 0)%Z || (s_Replicas subject <=? nodes)%Z then none
        else (Itoa (s_Replicas subject) +s+ " replicas, one node each, and " +s+ Itoa nodes +s+ " nodes to put them on", "")
  end.

Definition containerRanges held (namespace : string) : list amap :=
  flat_map (fun obj =>
    List.filter (fun entry => bool_decide (stringAt entry "type" = containerLimits)) (mapsIn (USlice obj [specField; "limits"])))
    (inNamespace held "" "limitranges" namespace).

Definition boundOf (entry : amap) (section name : string) : option Quantity :=
  match mapAt entry section with None => None | Some part => quantityFrom (aget part name) end.

Definition breaksBound (asked : Quantity) (entry : amap) (name : string) : string :=
  let above :=
    match boundOf entry "max" name with
    | Some ceiling =>
        if (0 <? QuantityCmp asked ceiling)%Z then
          "requests " +s+ QuantityString asked +s+ " " +s+ name +s+ ", above the LimitRange maximum " +s+ QuantityString ceiling
        else ""
    | None => ""
    end in
  match boundOf entry "min" name with
  | Some floor =>
      if (QuantityCmp asked floor <? 0)%Z then
        "requests " +s+ QuantityString asked +s+ " " +s+ name +s+ ", below the LimitRange minimum " +s+ QuantityString floor
      else above
  | None => above
  end.

Definition breaksRange (container : Container) (entry : amap) : string :=
  let broken name := match quantityAt (ct_Spec container) requests name with None => "" | Some asked => breaksBound asked entry name end in
  let cpu := broken cpuName in
  if bool_decide (cpu <> "") then cpu else broken memoryName.

Definition outsideLimitRange subject held : string * string :=
  match flat_map (fun entry =>
    omap (fun container =>
      let detail := breaksRange container entry in
      if bool_decide (detail = "") then None else Some ("container " +s+ ct_Name container +s+ " " +s+ detail))
      (s_Containers subject)) (containerRanges held (or_Namespace (s_Ref subject)))
  with
  | first :: _ => (first, "")
  | [] => none
  end.

(** The part of an entry that is spent, in per cent; the product of the code
    wraps around. *)
Definition percentOf (spent ceiling : Quantity) : Z := Z.quot (wrap64 (MilliValue spent * 100)) (MilliValue ceiling).

Definition fullestEntry (hard used : option any) : string * Z :=
  match asMap hard, asMap used with
  | Some hardMap, Some usedMap =>
      foldl (fun '(name, share) key =>
        match quantityFrom (aget hardMap key), quantityFrom (aget usedMap key) with
        | Some ceiling, Some spent =>
            if (Value ceiling =? 0)%Z then (name, share)
            else let percent := percentOf spent ceiling in if (share <? percent)%Z then (key, percent) else (name, share)
        | _, _ => (name, share)
        end) ("", 0%Z) (sort_by str_compare (map fst hardMap))
  | _, _ => ("", 0%Z)
  end.

Definition quotaNearlyExhausted subject held : string * string :=
  match omap (fun quota =>
    match fieldAt (ObjectOf quota) ["status"; "hard"], fieldAt (ObjectOf quota) ["status"; "used"] with
    | Some hard, Some used =>
        let '(name, share) := fullestEntry (Some hard) (Some used) in
        if (share <? nearly)%Z then None
        else Some (GetName quota +s+ " is " +s+ Itoa share +s+ "% spent on " +s+ name)
    | _, _ => None
    end) (inNamespace held "" "resourcequotas" (or_Namespace (s_Ref subject)))
  with
  | first :: _ => (first, "")
  | [] => none
  end.

Definition enforcedLevelRejects : finder (U := U) := fun sc =>
  omap (fun subject => ruled subject "" (Pss.rejectedByEnforcedLevel (sc_held sc) (sc_upstream sc) subject, "")) (sc_subjects sc).
End facts.
End NodeFacts.
