(* ===== verification/References.v ===== *)
(** internal/checks/refs.go: the rules of an audit that look for what a workload
    or a route names and the cluster does not have, and for what nothing names. *)

From S2P Require Import Prelude Api Text Unstr Issues Kube Inspect Corpus Pss Checks Numbers Patches Lifecycle Supply.

Module References.
Import Api Text Unstr Corpus Numbers Patches Checks Lifecycle Supply.

Definition networkGroup : string := "networking.k8s.io".
Definition serviceTarget : target := MkTarget "" "services".
Definition accountTarget : target := MkTarget "" "serviceaccounts".
Definition configMapTarget : target := MkTarget "" "configmaps".
Definition secretTarget : target := MkTarget "" secretsResource.
Definition claimTarget : target := MkTarget "" "persistentvolumeclaims".
Definition ingressTarget : target := MkTarget networkGroup "ingresses".
Definition classTarget : target := MkTarget networkGroup "ingressclasses".
Definition storageTarget : target := MkTarget "storage.k8s.io" "storageclasses".
Definition policyTarget : target := MkTarget networkGroup "networkpolicies".
Definition budgetTarget : target := MkTarget "policy" "poddisruptionbudgets".
Definition scalerTarget : target := MkTarget "autoscaling" "horizontalpodautoscalers".
Definition priorityTarget : target := MkTarget "scheduling.k8s.io" "priorityclasses".
Definition runtimeTarget : target := MkTarget "node.k8s.io" "runtimeclasses".

Record reference := MkReference { rf_kind : string; rf_name : string; rf_key : string; rf_optional : bool }.

Definition optionalAt (entry : amap) : bool := on entry "optional".
Definition volumeField (field : string) : string := if bool_decide (field = secretField) then "secret" else "configMap".
Definition volumeName (source : amap) (field : string) : string :=
  if bool_decide (field = secretField) then stringAt source "secretName" else stringAt source "name".

Definition volumeSourceReference (field : string) (volume : amap) : option reference :=
  match mapAt volume (volumeField field) with
  | None => None
  | Some source => Some (MkReference field (volumeName source field) "" (optionalAt source))
  end.

Definition isDigits (text : string) : bool :=
  forallb (fun c => (48 <=? Ascii.N_of_ascii c)%N && (Ascii.N_of_ascii c <=? 57)%N) (String.list_ascii_of_string text).

Definition fromClaimTemplate (key : string) (prefixes : list string) : bool :=
  existsb (fun prefix =>
    match strip_prefix prefix key with
    | None => false
    | Some ordinal => negb (bool_decide (ordinal = "")) && isDigits ordinal
    end) prefixes.

(** [selector] is not empty and [labels] has every pair of it. *)
Definition selectorPicks (selector labels : gmap string string) : bool :=
  negb (bool_decide (selector = ∅)) &&
  forallb (fun '(key, value) => bool_decide (default "" (labels !! key) = value)) (map_to_list selector).

Definition emptyObject (ref : ObjectRef) (kind : string) : amap :=
  [("apiVersion", AString "v1"); ("kind", AString kind);
   (metadataField, AMap [("name", AString (or_Name ref)); ("namespace", AString (or_Namespace ref))])].

Section references.
Context {U : Type} {Un : Unstructured U} {De : Described U} {Ed : Editable U} {Ow : Owned U} {Qu : Quantities}
  {Tm : RFC3339} {Ps : PodSecurity}.
Implicit Types (subject : Subject U) (held : corpus U) (container : Container) (sc : scan (U := U)).

(** ** What a workload names *)

Definition serviceAccountMissing subject held : string * string :=
  let name := stringAt (s_Pod subject) "serviceAccountName" in
  if bool_decide (name = "") || bool_decide (name = defaultNamespace) then none
  else if named held "" "serviceaccounts" (or_Namespace (s_Ref subject)) name then none
  else ("serviceAccountName is " +s+ name +s+ ", which this namespace does not have", "").

Definition envFromReferences container (field : string) : list reference :=
  omap (fun entry =>
    match mapAt entry (field +s+ "Ref") with
    | None => None
    | Some ref => Some (MkReference field (stringAt ref "name") "" (optionalAt ref))
    end) (mapsAt (ct_Spec container) "envFrom").

Definition envReferences container (field : string) : list reference :=
  omap (fun entry =>
    match mapAt entry "valueFrom" ≫= fun from => mapAt from (field +s+ "KeyRef") with
    | None => None
    | Some ref => Some (MkReference field (stringAt ref "name") (stringAt ref "key") (optionalAt ref))
    end) (envEntries container) ++ envFromReferences container field.

Definition volumeReferences subject (field : string) : list reference :=
  omap (volumeSourceReference field) (mapsAt (s_Pod subject) "volumes").

Definition referencedMaps subject (field : string) : list reference :=
  flat_map (fun container => envReferences container field) (s_Containers subject) ++ volumeReferences subject field.

Definition missingReference subject held (field resource label : string) : string * string :=
  match List.filter (fun ref =>
    negb (bool_decide (rf_name ref = "") || rf_optional ref || named held "" resource (or_Namespace (s_Ref subject)) (rf_name ref)))
    (referencedMaps subject field)
  with
  | ref :: _ => ("references the " +s+ label +s+ " " +s+ rf_name ref +s+ ", which this namespace does not have", "")
  | [] => none
  end.

Definition configMapMissing subject held : string * string := missingReference subject held "configMap" "configmaps" "ConfigMap".
Definition secretMissing subject held : string * string := missingReference subject held secretField secretsResource "Secret".

Definition mapKeys (obj : U) (field : string) : list string := map fst (default [] (mapAt (ObjectOf obj) field)).

Definition configMapKeys held (namespace name : string) : option (list string) :=
  match List.filter (fun obj => bool_decide (GetName obj = name)) (inNamespace held "" "configmaps" namespace) with
  | obj :: _ => Some (mapKeys obj "data" ++ mapKeys obj "binaryData")
  | [] => None
  end.

Definition configMapKeyMissing subject held : string * string :=
  match List.filter (fun ref =>
    if bool_decide (rf_name ref = "") || bool_decide (rf_key ref = "") || rf_optional ref then false
    else
      match configMapKeys held (or_Namespace (s_Ref subject)) (rf_name ref) with
      | None => false
      | Some data => negb (contains data (rf_key ref))
      end) (referencedMaps subject "configMap")
  with
  | ref :: _ => ("reads " +s+ rf_key ref +s+ " from the ConfigMap " +s+ rf_name ref +s+ ", which does not have it", "")
  | [] => none
  end.

(** The first of some names the namespace does not have. *)
Definition firstMissing subject held (resource : string) (names : list string) : option string :=
  head (List.filter (fun name =>
    negb (bool_decide (name = "") || named held "" resource (or_Namespace (s_Ref subject)) name)) names).

Definition pullSecretMissing subject held : string * string :=
  match firstMissing subject held "secrets" (map (fun entry => stringAt entry "name") (mapsAt (s_Pod subject) "imagePullSecrets")) with
  | Some name => ("imagePullSecrets names " +s+ name +s+ ", which this namespace does not have", "")
  | None => none
  end.

Definition claimNames subject : list string :=
  List.filter (fun name => negb (bool_decide (name = "")))
    (omap (fun volume => (fun claim => stringAt claim "claimName") <$> mapAt volume "persistentVolumeClaim")
       (mapsAt (s_Pod subject) "volumes")).

Definition claimMissing subject held : string * string :=
  match firstMissing subject held "persistentvolumeclaims" (claimNames subject) with
  | Some name => ("mounts the claim " +s+ name +s+ ", which this namespace does not have", "")
  | None => none
  end.

Definition priorityClassMissing subject held : string * string :=
  let name := stringAt (s_Pod subject) "priorityClassName" in
  if bool_decide (name = "") || has_prefix name "system-" then none
  else if named held "scheduling.k8s.io" "priorityclasses" "" name then none
  else ("priorityClassName is " +s+ name +s+ ", which the cluster does not have", "").

Definition runtimeClassMissing subject held : string * string :=
  let name := stringAt (s_Pod subject) "runtimeClassName" in
  if bool_decide (name = "") then none
  else if named held "node.k8s.io" "runtimeclasses" "" name then none
  else ("runtimeClassName is " +s+ name +s+ ", which the cluster does not have", "").

(** ** What selects a workload *)

Definition podLabels subject : gmap string string := stringMap (templateLabels subject).

Definition stringMapAt (obj : U) (fields : list string) : gmap string string :=
  stringMap (default [] (asMap (fieldAt (ObjectOf obj) fields))).

Definition servesWorkloads subject : bool := keepsPodsRunning (s_Kind subject).

Definition noServiceSelectsIt subject held : string * string :=
  if negb (servesWorkloads subject) then none
  else
    let labels := podLabels subject in
    if bool_decide (labels = ∅) then none
    else if existsb (fun service => selectorPicks (stringMapAt service [specField; "selector"]) labels)
              (inNamespace held "" "services" (or_Namespace (s_Ref subject))) then none
    else ("no Service in " +s+ or_Namespace (s_Ref subject) +s+ " selects these pods", "").

Definition noNetworkPolicy subject held : string * string :=
  if negb (servesWorkloads subject) || bool_decide (of_ held networkGroup "networkpolicies" = []) then none
  else
    let labels := podLabels subject in
    if bool_decide (labels = ∅) then none
    else if existsb (fun policy =>
              let selector := stringMapAt policy [specField; "podSelector"; "matchLabels"] in
              bool_decide (selector = ∅) || selectorPicks selector labels)
              (inNamespace held networkGroup "networkpolicies" (or_Namespace (s_Ref subject))) then none
    else ("no NetworkPolicy in " +s+ or_Namespace (s_Ref subject) +s+ " covers these pods", "").

Definition budgetsFor subject held : list U :=
  let labels := podLabels subject in
  if bool_decide (labels = ∅) then []
  else
    List.filter (fun budget => selectorPicks (stringMapAt budget [specField; "selector"; "matchLabels"]) labels)
      (inNamespace held "policy" "poddisruptionbudgets" (or_Namespace (s_Ref subject))).

Definition noDisruptionBudget subject held : string * string :=
  if negb (servesWorkloads subject) || (s_Replicas subject <? 2)%Z then none
  else
    match budgetsFor subject held with
    | _ :: _ => none
    | [] => (Itoa (s_Replicas subject) +s+ " replicas and no PodDisruptionBudget", "")
    end.

Definition blockingBudget subject (budget : U) : option string :=
  match numberAt (specAt budget [specField]) "minAvailable" with
  | None => None
  | Some floor =>
      if (floor <? s_Replicas subject)%Z then None
      else
        Some (GetName budget +s+ " keeps " +s+ Itoa floor +s+ " of " +s+ Itoa (s_Replicas subject) +s+
              " replicas available, so nothing may be evicted")
  end.

Definition budgetBlocksEviction subject held : string * string :=
  if negb (servesWorkloads subject) then none
  else match omap (blockingBudget subject) (budgetsFor subject held) with first :: _ => (first, "") | [] => none end.

Definition scalerFightsReplicas subject held : string * string :=
  if negb (isSpreadable (s_Kind subject)) then none
  else if bool_decide (numberAt (Pss.specOf subject [specField]) "replicas" = None) then none
  else
    match List.filter (fun scaler =>
      let targetRef := specAt scaler [specField; "scaleTargetRef"] in
      bool_decide (stringAt targetRef "kind" = s_Kind subject) && bool_decide (stringAt targetRef "name" = or_Name (s_Ref subject)))
      (inNamespace held "autoscaling" "horizontalpodautoscalers" (or_Namespace (s_Ref subject)))
    with
    | scaler :: _ => (GetName scaler +s+ " scales this workload and spec.replicas is set as well", "")
    | [] => none
    end.

(** ** What nothing names *)

(** The subject of a finding about an object that is only named. *)
Definition bareSubject (ref : ObjectRef) (kind : string) (object : option U) (origin managedBy : string) : Subject U :=
  MkSubject ref kind object [] [] 0 [] origin managedBy.

Definition looseFinding (resource label detail : string) (item : Named) : found :=
  MkFound (bareSubject (n_Ref item) label (Some (FromObject (emptyObject (n_Ref item) label))) "" "") "" detail ""
    (consumedBy resource item) "" false.

Definition orphansOf sc (resource label : string) : list found :=
  omap (fun item =>
    if mentionedElsewhere (sc_held sc) (or_Name (n_Ref item)) then None
    else Some (looseFinding resource label ("nothing in this cluster names this " +s+ label) item))
    (every (sc_held sc) resource).

Definition orphanedConfigMaps sc : list found := orphansOf sc configMapsResource "ConfigMap".
Definition orphanedSecrets sc : list found := orphansOf sc secretsResource "Secret".

Definition claimTemplatePrefixes subject : list string :=
  if bool_decide (s_Kind subject <> statefulSetKind) then []
  else
    omap (fun entry =>
      match mapAt entry metadataField with
      | None => None
      | Some meta =>
          let name := stringAt meta "name" in
          if bool_decide (name = "") then None
          else Some (or_Namespace (s_Ref subject) +s+ "/" +s+ name +s+ "-" +s+ or_Name (s_Ref subject) +s+ "-")
      end) (mapsIn (match s_Object subject with Some obj => USlice obj [specField; "volumeClaimTemplates"] | None => [] end)).

Definition unmountedClaims sc : list found :=
  let mounted : gset string :=
    list_to_set (flat_map (fun subject => map (fun name => or_Namespace (s_Ref subject) +s+ "/" +s+ name) (claimNames subject))
                   (sc_subjects sc)) in
  let generated := flat_map claimTemplatePrefixes (sc_subjects sc) in
  omap (fun item =>
    let key := or_Namespace (n_Ref item) +s+ "/" +s+ or_Name (n_Ref item) in
    if bool_decide (key ∈ mounted) || fromClaimTemplate key generated then None
    else Some (looseFinding "persistentvolumeclaims" "PersistentVolumeClaim" "no pod in this cluster mounts this claim" item))
    (every (sc_held sc) "persistentvolumeclaims").

(** ** Routes and classes *)

Definition corpusFinding (obj : U) (key : target) (kind detail : string) : found :=
  let '(origin, managedBy) := originOf obj in
  MkFound (bareSubject (MkObjectRef (t_group key) "v1" (t_resource key) (GetNamespace obj) (GetName obj)) kind (Some obj) origin managedBy)
    "" detail "" "" "" false.

Definition backendService (path : amap) : string :=
  match mapAt path "backend" ≫= fun backend => mapAt backend "service" with None => "" | Some service => stringAt service "name" end.

Definition ruleServices (rule : amap) : list string :=
  match mapAt rule "http" with
  | None => []
  | Some http => List.filter (fun name => negb (bool_decide (name = ""))) (map backendService (mapsAt http "paths"))
  end.

Definition ingressServices (obj : U) : list string :=
  List.filter (fun name => negb (bool_decide (name = "")))
    [stringAt (specAt obj [specField; "defaultBackend"; "service"]) "name"] ++
  flat_map ruleServices (mapsIn (USlice obj [specField; "rules"])).

Definition ingressBackendMissing sc : list found :=
  omap (fun obj =>
    match List.filter (fun name => negb (named (sc_held sc) "" "services" (GetNamespace obj) name)) (ingressServices obj) with
    | [] => None
    | name :: _ =>
        Some (corpusFinding obj ingressTarget "Ingress"
                ("routes to the Service " +s+ name +s+ ", which this namespace does not have"))
    end) (of_ (sc_held sc) networkGroup "ingresses").

(** The objects of [key] whose specification names in [field] a class of
    [group] and [resource] the cluster does not have. *)
Definition classMissing sc (key : target) (kind field group resource label : string) : list found :=
  omap (fun obj =>
    let name := stringAt (specAt obj [specField]) field in
    if bool_decide (name = "") || named (sc_held sc) group resource "" name then None
    else
      Some (corpusFinding obj key kind ("names the " +s+ label +s+ " " +s+ name +s+ ", which the cluster does not have")))
    (of_ (sc_held sc) (t_group key) (t_resource key)).

Definition ingressClassMissing sc : list found :=
  classMissing sc ingressTarget "Ingress" "ingressClassName" networkGroup "ingressclasses" "IngressClass".

Definition storageClassMissing sc : list found :=
  classMissing sc claimTarget "PersistentVolumeClaim" "storageClassName" "storage.k8s.io" "storageclasses" "StorageClass".
End references.
End References.
