(* ===== verification/ObjectRules.v ===== *)
(** internal/checks/rbac.go, objects.go and deprecated.go: the rules of an audit
    over roles and bindings, over services, routes, policies, budgets, claims
    and scalers, and over the cluster itself. *)

From S2P Require Import Prelude Api Text Unstr Issues Kube Inspect Corpus Pss Checks Numbers Patches Lifecycle Supply References.

(** client-go's scheme: the group and version of each type, its kind and the
    release that removes it, where it says. *)
Class Scheme := AllKnownTypes : list (string * string * option (Z * Z)).

Module RoleRules.
Import Api Text Unstr Corpus Numbers Patches Checks References.

Definition rbacGroup : string := "rbac.authorization.k8s.io".
Definition anything : string := "*".
Definition roleTarget : target := MkTarget rbacGroup "roles".
Definition clusterRoleTarget : target := MkTarget rbacGroup "clusterroles".
Definition bindingTarget : target := MkTarget rbacGroup "rolebindings".
Definition clusterBindTarget : target := MkTarget rbacGroup "clusterrolebindings".

(** A resource, its kind and its target. *)
Definition roleKinds : list (string * string * target) :=
  [("roles", "Role", roleTarget); ("clusterroles", "ClusterRole", clusterRoleTarget)].
Definition bindingKinds : list (string * string * target) :=
  [("rolebindings", "RoleBinding", bindingTarget); ("clusterrolebindings", "ClusterRoleBinding", clusterBindTarget)].

Definition openSubjects : list string :=
  ["system:anonymous"; "system:unauthenticated"; "system:authenticated"; "system:masters"].
Definition writeVerbs : list string := ["create"; "update"; "patch"; "delete"; "deletecollection"; anything].
Definition readVerbs : list string := ["get"; "list"; "watch"; anything].

Record rule := MkRule { ru_verbs : list string; ru_resources : list string; ru_groups : list string; ru_names : list string }.

Definition coversAny (held : list string) (wanted : string) : bool := contains held wanted || contains held anything.
Definition overlaps (held wanted : list string) : bool := existsb (contains wanted) held.

Definition listed (names : list string) : string :=
  if (zlen names =? 0)%Z then "nothing"
  else if (3 <? zlen names)%Z then Join ", " (take 3 names) +s+ " and more"
  else Join ", " names.

Definition namesVerb (one : rule) (wanted : list string) (prefix : string) : string :=
  match List.filter (contains (ru_verbs one)) wanted with verb :: _ => prefix +s+ verb | [] => "" end.

Definition namesResource (one : rule) (wanted verbs : list string) : string :=
  if negb (overlaps (ru_verbs one) verbs) then ""
  else match List.filter (contains (ru_resources one)) wanted with name :: _ => listed (ru_verbs one) +s+ " on " +s+ name | [] => "" end.

(** ** What each rule of a role is judged by *)

Definition wildcardVerbs (one : rule) : string :=
  if contains (ru_verbs one) anything then "grants every verb on " +s+ listed (ru_resources one) else "".
Definition wildcardResources (one : rule) : string :=
  if contains (ru_resources one) anything then "grants " +s+ listed (ru_verbs one) +s+ " on every resource" else "".
Definition wildcardGroups (one : rule) : string := if contains (ru_groups one) anything then "reaches every API group" else "".
Definition escalateOrBind (one : rule) : string := namesVerb one ["escalate"; "bind"] "may ".
Definition impersonate (one : rule) : string := namesVerb one ["impersonate"] "may ".
Definition readSecrets (one : rule) : string :=
  if (0 <? zlen (ru_names one))%Z || negb (coversAny (ru_resources one) "secrets") then ""
  else if negb (overlaps (ru_verbs one) readVerbs) then "" else "reads every Secret it can reach".
Definition podExec (one : rule) : string := namesResource one ["pods/exec"; "pods/attach"] writeVerbs.
Definition podPortforward (one : rule) : string := namesResource one ["pods/portforward"] writeVerbs.
Definition podLogs (one : rule) : string := namesResource one ["pods/log"] readVerbs.
Definition createPods (one : rule) : string :=
  if negb (coversAny (ru_resources one) "pods") || negb (overlaps (ru_verbs one) ["create"; anything]) then ""
  else "may create pods, and so run as any account in the namespace".
Definition writeBindings (one : rule) : string :=
  namesResource one ["rolebindings"; "clusterrolebindings"; "roles"; "clusterroles"] writeVerbs.
Definition writeWebhooks (one : rule) : string :=
  namesResource one ["validatingwebhookconfigurations"; "mutatingwebhookconfigurations"] writeVerbs.
Definition nodeProxy (one : rule) : string := namesResource one ["nodes/proxy"] readVerbs.

Section roles.
Context {U : Type} {Un : Unstructured U} {De : Described U} {Ed : Editable U} {Ow : Owned U} {Tm : RFC3339} {Ps : PodSecurity}.
Implicit Types (obj : U) (sc : scan (U := U)).

Definition rulesOf obj : list rule :=
  map (fun entry => MkRule (stringsAt entry "verbs") (stringsAt entry "resources") (stringsAt entry "apiGroups")
                      (stringsAt entry "resourceNames")) (mapsIn (USlice obj ["rules"])).

Definition firstRuleDetail obj (judge : rule -> string) : string := Lifecycle.firstText (map judge (rulesOf obj)).

(** The findings about the objects of a kind that are judged with words. *)
Definition judged sc (group resource kind : string) (key : target) (judge : U -> string) : list found :=
  omap (fun obj =>
    let detail := judge obj in if bool_decide (detail = "") then None else Some (corpusFinding obj key kind detail))
    (of_ (sc_held sc) group resource).

Definition overRoles (judge : rule -> string) sc : list found :=
  flat_map (fun '(resource, kind, key) => judged sc rbacGroup resource kind key (fun obj => firstRuleDetail obj judge)) roleKinds.

Definition roleRefName obj : string := stringAt (specAt obj ["roleRef"]) "name".

Definition bindingSubjects obj : list string :=
  List.filter (fun name => negb (bool_decide (name = ""))) (map (fun entry => stringAt entry "name") (mapsIn (USlice obj ["subjects"]))).

Definition clusterAdminDetail obj : string :=
  if bool_decide (roleRefName obj <> "cluster-admin") then ""
  else match bindingSubjects obj with [] => "" | named => "grants cluster-admin to " +s+ listed named end.

Definition clusterAdminBound sc : list found :=
  judged sc rbacGroup "clusterrolebindings" "ClusterRoleBinding" clusterBindTarget clusterAdminDetail.

Definition openBinding obj : string :=
  match List.filter (contains openSubjects) (bindingSubjects obj) with name :: _ => name | [] => "" end.

Definition openDetail obj : string :=
  let open_ := openBinding obj in
  if bool_decide (open_ = "") then "" else "binds " +s+ roleRefName obj +s+ " to " +s+ open_.

Definition boundToEveryone sc : list found :=
  flat_map (fun '(resource, kind, key) => judged sc rbacGroup resource kind key openDetail) bindingKinds.
End roles.
End RoleRules.

(** ** objects.go and deprecated.go *)

Module ObjectRules.
Import Api Text Unstr Corpus Numbers Patches Checks References RoleRules.

Definition openCIDR : string := "0.0.0.0/0".
Definition snippetMarker : string := "-snippet".
Definition deleteReclaim : string := "Delete".
Definition loadBalancer : string := "LoadBalancer".
Definition nodePort : string := "NodePort".
Definition unhealthyField : string := "unhealthyPodEvictionPolicy".

Record removal := MkRemoval { rm_groupVersion : string; rm_kinds : string; rm_minor : Z }.

Definition peerOpensEverything (entry : amap) : bool :=
  existsb (fun side =>
    existsb (fun peer => match mapAt peer "ipBlock" with Some block => bool_decide (stringAt block "cidr" = openCIDR) | None => false end)
      (mapsAt entry side)) ["from"; "to"].

Section objects_.
Context {U : Type} {Un : Unstructured U} {De : Described U} {Ed : Editable U} {Ow : Owned U} {Tm : RFC3339} {Ps : PodSecurity}
  {Sh : Scheme}.
Implicit Types (obj : U) (sc : scan (U := U)).

Definition overObjects (group resource kind : string) (key : target) (judge : U -> string) sc : list found :=
  judged sc group resource kind key judge.

Definition publishedByLoadBalancer obj : string :=
  if bool_decide (stringAt (specAt obj [specField]) "type" <> loadBalancer) then "" else "spec.type is LoadBalancer".

Definition publishedOnNodePort obj : string :=
  if bool_decide (stringAt (specAt obj [specField]) "type" <> nodePort) then ""
  else "spec.type is NodePort, so the port is open on every node".

Definition claimsExternalIPs obj : string :=
  match stringsAt (specAt obj [specField]) "externalIPs" with
  | [] => ""
  | ips => "spec.externalIPs claims " +s+ Join ", " ips
  end.

Definition ingressHosts obj : list string :=
  List.filter (fun host => negb (bool_decide (host = "")))
    (map (fun entry => stringAt entry "host") (mapsIn (USlice obj [specField; "rules"]))).

Definition servesPlaintext obj : string :=
  if (0 <? listedItems (specAt obj [specField]) "tls")%Z then ""
  else
    match ingressHosts obj with
    | [] => "no spec.tls, so the route is served over plain HTTP"
    | hosts => "no spec.tls for " +s+ listed hosts
    end.

Definition claimsWildcardHost obj : string :=
  match List.filter (fun host => has_prefix host "*.") (ingressHosts obj) with host :: _ => "answers for " +s+ host | [] => "" end.

(** One of the keys, whichever the map gives first. *)
Definition injectsSnippet obj : string :=
  match List.filter (fun key => has_suffix key snippetMarker) (map fst (map_to_list (default ∅ (GetAnnotations obj)))) with
  | key :: _ => "the " +s+ key +s+ " annotation configures the controller directly"
  | [] => ""
  end.

Definition allowsEverything obj : string :=
  let spec := specAt obj [specField] in
  match mapAt spec "podSelector" with
  | Some [] =>
      Lifecycle.firstText (map (fun field =>
        if existsb (fun entry => bool_decide (zlen entry = 0%Z)) (mapsIn (USlice obj [specField; field])) then
          "an empty podSelector with an empty " +s+ field +s+ " rule permits everything"
        else "") ["ingress"; "egress"])
  | _ => ""
  end.

Definition opensEveryAddress obj : string :=
  Lifecycle.firstText (map (fun field =>
    if existsb peerOpensEverything (mapsIn (USlice obj [specField; field])) then
      "an ipBlock of " +s+ openCIDR +s+ " on the " +s+ field +s+ " side"
    else "") ["ingress"; "egress"]).

Definition numbered obj (field : string) : option Z := numberAt (specAt obj [specField]) field.

Definition budgetSaysNothing obj : string :=
  if bool_decide (is_Some (numbered obj "minAvailable")) || bool_decide (is_Some (numbered obj "maxUnavailable")) then ""
  else "neither minAvailable nor maxUnavailable is set".

Definition budgetForbidsEviction obj : string :=
  if bool_decide (numbered obj "maxUnavailable" = Some 0%Z) then "maxUnavailable is 0, so nothing may ever be evicted" else "".

Definition budgetHeldByUnhealthy obj : string :=
  if bool_decide (stringAt (specAt obj [specField]) unhealthyField <> "") then ""
  else unhealthyField +s+ " is unset, so a pod that never becomes ready still holds the budget".

Definition claimNamesNoClass obj : string :=
  if bool_decide (stringAt (specAt obj [specField]) "storageClassName" <> "") then ""
  else "spec.storageClassName is unset, so it takes whichever class is default here".

Definition classDeletesData obj : string :=
  if bool_decide (asString (aget (ObjectOf obj) "reclaimPolicy") = Some deleteReclaim) then
    "reclaimPolicy is Delete, so the volume goes when the claim does"
  else "".

Definition scalerFloorOfOne obj : string :=
  if negb (bool_decide (numbered obj "minReplicas" = Some 1%Z)) then ""
  else if bool_decide (numbered obj "maxReplicas" = Some 1%Z) then ""
  else "minReplicas is 1, so it may take the workload down to a single pod".

Definition scalerHasNoMetrics obj : string :=
  if (0 <? listedItems (specAt obj [specField]) "metrics")%Z then ""
  else if bool_decide (is_Some (numbered obj "targetCPUUtilizationPercentage")) then ""
  else "spec.metrics is empty, so there is nothing to scale on".

(** ** deprecated.go *)

(** The kinds of each version that a release of major 1 removes, lists left out. *)
Definition collectRemovals : gmap (string * Z) (list string) :=
  foldl (fun grouped '(groupVersion, kind, removed) =>
    if has_suffix kind "List" then grouped
    else
      match removed with
      | Some (major, minor) =>
          if (major =? 1)%Z then <[(groupVersion, minor) := default [] (grouped !! (groupVersion, minor)) ++ [kind]]> grouped
          else grouped
      | None => grouped
      end) ∅ AllKnownTypes.

Definition sortedRemovals (grouped : gmap (string * Z) (list string)) : list removal :=
  sort_by (cmp_then (cmp_on rm_groupVersion str_compare) (cmp_on rm_minor cmp_asc))
    (map (fun '((groupVersion, minor), kinds) => MkRemoval groupVersion (Join ", " (sort_by str_compare kinds)) minor)
       (map_to_list grouped)).

Definition removals : list removal := sortedRemovals collectRemovals.

Definition clusterFinding (name detail : string) : found (U := U) :=
  MkFound (bareSubject (MkObjectRef "" "v1" "clusters" "" name) "Cluster" None "" "") "" detail "" "" "" false.

Definition servesARemovedAPI sc : list found :=
  let running := Pss.minorOf (fa_ServerVersion (sc_facts sc)) in
  if (running =? 0)%Z then []
  else
    omap (fun one =>
      if (rm_minor one <=? running)%Z || negb (contains (fa_ServedVersions (sc_facts sc)) (rm_groupVersion one)) then None
      else
        Some (clusterFinding ("serves " +s+ rm_groupVersion one)
                (rm_groupVersion one +s+ " carries " +s+ rm_kinds one +s+ " and is removed in 1." +s+ Itoa (rm_minor one) +s+
                 "; this cluster is 1." +s+ Itoa running))) removals.

Definition warningSubject (text : string) : string :=
  let '(head, _, found) := str_cut text " is deprecated" in if negb found then "the apiserver" else head.

Definition apiserverSaysDeprecated sc : list found :=
  map (fun text => clusterFinding (warningSubject text) text) (fa_Warnings (sc_facts sc)).
End objects_.
End ObjectRules.
