(* ===== verification/Registry.v ===== *)
(** internal/checks: the rules that ship with the program, each with its words,
    what it needs and its finder, in the order they are registered, and what
    holds of all of them. *)

From S2P Require Import Prelude Api Text Unstr Issues Kube Inspect Corpus Pss Checks Numbers Patches Security Lifecycle Supply.
From S2P Require Import NodeFacts References ObjectRules.

Module Registry.
Import Api Text Unstr Corpus Numbers Patches Checks Security Lifecycle Supply Efficiency NodeFacts References RoleRules ObjectRules.

Definition judgementSentence : string := " A judgement call: ".
Definition pssBaseline : string := Pss.pssBaseline.
Definition pssRestricted : string := Pss.pssRestricted.

Definition readsPart : string :=
  "Nothing among the kinds this read names it. It read every custom resource, " +s+
  "the workload, config and storage kinds, and the built-in kinds that hold references to them " +s+
  "— not every built-in kind. Something outside the cluster still might name it, " +s+
  "which is the one thing this cannot see.".

Definition readsEvery : string :=
  "Nothing anywhere in the cluster names it. Every kind the cluster reports was read " +s+
  "to decide this. Something outside the cluster still might, which is the one thing this cannot see.".

(** The definitions between a rule and what it reads of a corpus. *)
Create HintDb reads.
#[export] Hint Unfold overFacts overCorpus inNamespace namespace_ named
  nodeSelectorMatchesNothing nodesMatching tolerationsMissTaints requestExceedsLargestNode exceeding largestNode
  spreadNeedsMoreDomains shortOfDomains domainsOf antiAffinityExceedsNodes outsideLimitRange containerRanges quotaNearlyExhausted
  enforcedLevelRejects Pss.rejectedByEnforcedLevel
  serviceAccountMissing configMapMissing secretMissing missingReference configMapKeyMissing configMapKeys pullSecretMissing
  claimMissing firstMissing priorityClassMissing runtimeClassMissing noServiceSelectsIt noNetworkPolicy noDisruptionBudget
  budgetBlocksEviction budgetsFor scalerFightsReplicas ingressBackendMissing ingressClassMissing storageClassMissing classMissing
  orphanedConfigMaps orphanedSecrets orphansOf mentionedElsewhere unmountedClaims
  overRoles roleKinds bindingKinds judged clusterAdminBound boundToEveryone overObjects : reads.

Section registry.
Context {U : Type} {Un : Unstructured U} {De : Described U} {Ed : Editable U} {Ow : Owned U} {Qu : Quantities} {Tm : RFC3339}
  {Ps : PodSecurity} {Sh : Scheme}.

#[local] Abbreviation check := (Checks.check (U := U)).

(** ** Literals of a check, the fields that are not empty added to [entry] *)

Definition entry (id title category severity wrong remedy : string) (find : finder (U := U)) : check :=
  {| c_id := id; c_upstream := ""; c_presented := None; c_enforced := false; c_title := title; c_category := category;
     c_severity := severity; c_frameworks := []; c_wrong := wrong; c_wrongEvery := ""; c_remedy := remedy;
     c_needsUsage := false; c_needsEvery := false; c_needs := []; c_imported := None; c_find := find |}.

Definition revised (c : check) (upstream : string) (presented : option (Subject U -> bool)) (enforced : bool) (frameworks : list string)
    (wrongEvery : string) (needsUsage needsEvery : bool) (needs : list target) : check :=
  {| c_id := c_id c; c_upstream := upstream; c_presented := presented; c_enforced := enforced; c_title := c_title c;
     c_category := c_category c; c_severity := c_severity c; c_frameworks := frameworks; c_wrong := c_wrong c;
     c_wrongEvery := wrongEvery; c_remedy := c_remedy c; c_needsUsage := needsUsage; c_needsEvery := needsEvery;
     c_needs := needs; c_imported := c_imported c; c_find := c_find c |}.

Definition upstreamOf (id : string) (c : check) : check :=
  revised c id (c_presented c) (c_enforced c) (c_frameworks c) (c_wrongEvery c) (c_needsUsage c) (c_needsEvery c) (c_needs c).
Definition presentedAs (presented : Subject U -> bool) (c : check) : check :=
  revised c (c_upstream c) (Some presented) (c_enforced c) (c_frameworks c) (c_wrongEvery c) (c_needsUsage c) (c_needsEvery c) (c_needs c).
Definition enforcing (c : check) : check :=
  revised c (c_upstream c) (c_presented c) true (c_frameworks c) (c_wrongEvery c) (c_needsUsage c) (c_needsEvery c) (c_needs c).
Definition framed (frameworks : list string) (c : check) : check :=
  revised c (c_upstream c) (c_presented c) (c_enforced c) frameworks (c_wrongEvery c) (c_needsUsage c) (c_needsEvery c) (c_needs c).
Definition needing (needs : list target) (c : check) : check :=
  revised c (c_upstream c) (c_presented c) (c_enforced c) (c_frameworks c) (c_wrongEvery c) (c_needsUsage c) (c_needsEvery c) needs.
Definition needingEvery (wrongEvery : string) (c : check) : check :=
  revised c (c_upstream c) (c_presented c) (c_enforced c) (c_frameworks c) wrongEvery (c_needsUsage c) true (c_needs c).
Definition needingUsage (c : check) : check :=
  revised c (c_upstream c) (c_presented c) (c_enforced c) (c_frameworks c) (c_wrongEvery c) true (c_needsEvery c) (c_needs c).

(** [upstreamOnly] of pss.go *)
Definition upstreamOnly : finder (U := U) := fun _ => [].

Definition ruleCheck (id title severity wrong remedy : string) (judge : RoleRules.rule -> string) (also : list string) : check :=
  framed (nsaCisa :: also) (needing [roleTarget; clusterRoleTarget]
    (entry id title categorySecurity severity wrong remedy (overCorpus (overRoles judge)))).

Definition corpusCheck (id title category severity : string) (needs : list target) (frameworks : list string) (wrong remedy : string)
    (find : scan (U := U) -> list found) : check :=
  framed frameworks (needing needs (entry id title category severity wrong remedy (overCorpus find))).

(** ** The rules *)

Definition securityChecks : list check :=
  [framed [nsaCisa; cisBenchmark] (upstreamOf "privileged" (entry "privileged-containers" "Privileged containers" categorySecurity severityHigh
       "Holds every capability on the node and can reach its devices."
       "Drop securityContext.privileged; add back only the capabilities the process needs."
       (overContainers privileged)));
   framed [nsaCisa; cisBenchmark] (upstreamOf "allowPrivilegeEscalation" (entry "privilege-escalation" "Privilege escalation allowed" categorySecurity severityMedium
       "A process can gain more privileges than its parent."
       "Set securityContext.allowPrivilegeEscalation to false; unset defaults to true."
       (overContainers escalation)));
   framed [nsaCisa; cisBenchmark] (upstreamOf "hostNamespaces" (entry "host-namespaces" "Host namespaces shared" categorySecurity severityHigh
       "The pod sees the node's processes, IPC or network directly."
       "Set hostPID, hostIPC and hostNetwork to false; use a Service for connectivity."
       (overSubjects hostNamespaces)));
   framed [nsaCisa] (entry "runtime-socket-mounted" "Container runtime socket mounted" categorySecurity severityHigh
       "The socket is the runtime's full API: anything holding it can start a privileged container."
       "Remove the hostPath volume; read the API server through a ServiceAccount instead."
       (overSubjects runtimeSocket));
   framed [nsaCisa; cisBenchmark] (upstreamOf "runAsNonRoot" (entry "run-as-root" "Containers running as root" categorySecurity severityMedium
       "The process runs as uid 0, so a break-out lands on the node as root."
       "Set securityContext.runAsNonRoot to true and give the image a non-zero user."
       (overContainers rootUser)));
   framed [nsaCisa; cisBenchmark] (entry "writable-root-filesystem" "Writable root filesystem" categorySecurity severityMedium
       "The container can rewrite its own binaries, so code execution can persist."
       "Set securityContext.readOnlyRootFilesystem to true; mount an emptyDir where the process writes."
       (overContainers writableRoot));
   framed [nsaCisa; cisBenchmark] (upstreamOf "capabilities_baseline" (entry "dangerous-capabilities" "Dangerous capabilities added" categorySecurity severityHigh
       "Capabilities beyond the baseline hand the container parts of root."
       "Drop ALL, then add back what the process needs. Only NET_BIND_SERVICE is baseline."
       (overContainers dangerousCapabilities)))].

Definition hardeningChecks : list check :=
  [framed [nsaCisa; cisBenchmark] (upstreamOf "seccompProfile_restricted" (entry "seccomp-unset" "No seccomp profile" categorySecurity severityMedium
       "Every syscall the kernel offers is reachable, including the ones no container needs."
       "Set securityContext.seccompProfile.type to RuntimeDefault on the pod or the container."
       (overContainers seccompUnset)));
   framed [nsaCisa; cisBenchmark] (upstreamOf "seccompProfile_baseline" (entry "seccomp-unconfined" "Seccomp explicitly disabled" categorySecurity severityHigh
       "Unconfined turns the syscall filter off, which is weaker than leaving it unset on most runtimes."
       "Change securityContext.seccompProfile.type to RuntimeDefault."
       (overContainers seccompUnconfined)));
   upstreamOf "appArmorProfile" (entry "apparmor-unconfined" "AppArmor disabled" categorySecurity severityHigh
       "The container is exempt from the node's AppArmor policy."
       "Drop the unconfined profile and let the runtime default apply."
       (overContainers apparmorUnconfined));
   upstreamOf "seLinuxOptions" (entry "selinux-options-set" "SELinux type or role overridden" categorySecurity severityHigh
       "Choosing your own SELinux user, role or type can hand the container a domain wider than the default."
       "Remove seLinuxOptions.user, .role and .type; level is the only field that is safe to set."
       (overContainers seLinuxWidened));
   upstreamOf "procMount" (entry "proc-mount-unmasked" "/proc mounted unmasked" categorySecurity severityHigh
       "The masked and read-only paths under /proc are exposed, which is a documented break-out surface."
       "Remove securityContext.procMount, which defaults to Default."
       (overContainers procMountUnmasked));
   upstreamOf "sysctls" (entry "unsafe-sysctls" "Unsafe sysctls set" categorySecurity severityHigh
       "An unsafe sysctl is namespaced badly or not at all, so it can reach the node and the pods beside it."
       "Remove the sysctl, or move the setting into the node's own configuration."
       (overSubjects unsafeSysctls));
   framed [cisBenchmark] (upstreamOf "hostPorts" (entry "host-ports" "Host port bound" categorySecurity severityMedium
       "The port is claimed on the node itself, so the pod is reachable around any Service and collides with anything else wanting it."
       "Drop hostPort and publish the container through a Service."
       (overContainers hostPorts)));
   framed [nsaCisa; cisBenchmark] (presentedAs hasHostPathVolume (upstreamOf "hostPathVolumes" (entry "host-path-volume" "Node filesystem mounted" categorySecurity severityMedium
       "The pod reads and writes the node's own disk, so it outlives the pod and is shared with everything else on that node."
       "Use a PersistentVolumeClaim, an emptyDir or a ConfigMap instead."
       (overSubjects hostPathVolume))));
   framed [nsaCisa; cisBenchmark] (entry "sensitive-host-path" "Sensitive node path mounted" categorySecurity severityHigh
       "These paths carry the node's identity, its credentials or its running state."
       "Remove the hostPath volume; read what you need from the API server instead."
       (overSubjects sensitiveHostPath));
   framed [nsaCisa; cisBenchmark] (entry "writable-host-mount" "Node filesystem mounted writable" categorySecurity severityHigh
       "The container can change the node's files, which persists after the pod is gone."
       "Set readOnly: true on the volumeMount, or drop the mount."
       (overContainers writableHostMount));
   framed [nsaCisa; cisBenchmark] (upstreamOf "capabilities_restricted" (entry "capabilities-not-dropped" "Capabilities not dropped" categorySecurity severityMedium
       "The container keeps the runtime's whole default capability set rather than only what it needs."
       "Set securityContext.capabilities.drop to [ALL], then add back what the process actually needs."
       (overContainers capabilitiesNotDropped)));
   framed [nsaCisa; cisBenchmark] (entry "net-raw-kept" "NET_RAW kept" categorySecurity severityMedium
       "NET_RAW allows raw sockets, which is how a compromised container spoofs and sniffs traffic on its network."
       "Drop NET_RAW, or drop ALL."
       (overContainers netRawKept));
   upstreamOf "restrictedVolumes" (entry "restricted-volume-types" "Volume type outside the restricted set" categorySecurity severityMedium
       "The restricted profile allows only volume types the pod cannot use to reach the node or the network directly."
       "Move the data behind a PersistentVolumeClaim, a projected volume or a CSI driver."
       (overSubjects restrictedVolumes));
   framed [nsaCisa; cisBenchmark] (entry "root-group" "Running with a root group" categorySecurity severityMedium
       "Group 0 reaches files the root group owns, which is most of what a break-out wants."
       "Set runAsGroup, fsGroup and supplementalGroups to a non-zero id."
       (overContainers rootGroup));
   framed [cisBenchmark] (upstreamOf "windowsHostProcess" (entry "host-process" "Windows HostProcess container" categorySecurity severityHigh
       "A HostProcess container runs directly on the Windows node with the node's own privileges."
       "Set windowsOptions.hostProcess to false."
       (overContainers hostProcess)));
   framed [nsaCisa; cisBenchmark] (entry "automount-token" "Service account token mounted" categorySecurity severityLow
       "A token that reaches the API server is on disk in every container, whether or not anything reads it. A judgement call: leave it on for workloads that genuinely talk to the API server."
       "Set automountServiceAccountToken to false on the pod, or on the ServiceAccount it uses."
       (overSubjects automountToken));
   framed [nsaCisa; cisBenchmark] (entry "default-service-account" "Default service account used" categorySecurity severityLow
       "Every workload that names no account shares one identity, so a grant to any of them is a grant to all. A judgement call on a cluster where the default account holds nothing."
       "Give the workload its own ServiceAccount and name it in serviceAccountName."
       (overSubjects defaultServiceAccount));
   framed [cisBenchmark] (upstreamOf "runAsUser" (entry "run-as-user-zero" "Runs as uid 0 by request" categorySecurity severityMedium
       "runAsUser is 0, so the process is root whatever user the image names, and runAsNonRoot cannot save it."
       "Remove runAsUser: 0 from the pod and its containers, or set a non-zero uid."
       upstreamOnly));
   upstreamOf "hostProbesAndHostLifecycle" (entry "probe-host-set" "A probe or hook targets another host" categorySecurity severityMedium
       "A liveness, readiness or startup probe, or a lifecycle hook, names a host, so the kubelet talks to something other than the container it is meant to check."
       "Remove host from every httpGet and tcpSocket in probes and lifecycle hooks; the container is the default target."
       upstreamOnly);
   presentedAs outsideUserNamespace (upstreamOf "procMount_restricted" (entry "proc-mount-in-user-namespace" "/proc unmasked inside a user namespace" categorySecurity severityMedium
       "Baseline lets a pod in its own user namespace unmask /proc; restricted does not, so the pod is refused there."
       "Remove securityContext.procMount, or keep the workload out of a restricted namespace."
       upstreamOnly))].

Definition reliabilityChecks : list check :=
  [entry "probes-missing" "No liveness or readiness probe" categoryReliability severityMedium
       "Without readiness a pod takes traffic before it can serve; without liveness a wedged process is never restarted."
       "Add a readinessProbe for when it can serve and a livenessProbe for when it is alive."
       (overContainers probesMissing);
   entry "image-latest" "Image tagged :latest" categoryReliability severityMedium
       "Two pods of the same workload can run different code, and a rollback has no target."
       "Pin to a release tag, or to a digest when the tag is republished."
       (overContainers latestImage);
   entry "single-replica" "Single-replica Deployment" categoryReliability severityLow
       "Every drain, eviction and rollout is downtime."
       "Raise spec.replicas to at least 2 and add a PodDisruptionBudget."
       (overSubjects singleReplica);
   entry "replicas-one-node" "Every replica on one node" categoryReliability severityMedium
       "The replicas share one failure domain; losing that node takes all of them."
       "Add a topologySpreadConstraint on kubernetes.io/hostname."
       (overSubjects oneNode)].

Definition lifecycleChecks : list check :=
  [entry "probes-identical" "Liveness and readiness are the same probe" categoryReliability severityMedium
       "A dependency that fails readiness then also fails liveness, so a pod that would have recovered is restarted instead."
       "Make readiness answer can it serve, and liveness answer is the process alive."
       (overContainers probesIdentical);
   entry "probe-port-not-declared" "Probe points at an undeclared port" categoryReliability severityMedium
       "The kubelet probes a port the container never said it listens on, which usually means the probe never passes."
       "Add the port to the container's ports list, or point the probe at one already there."
       (overContainers probePortUndeclared);
   entry "liveness-without-startup-grace" "Liveness probe with no start-up grace" categoryReliability severityMedium
       "A slow start looks like a hang, so the kubelet kills the container before it ever finishes booting."
       "Add a startupProbe, or set initialDelaySeconds to longer than a cold start."
       (overContainers livenessWithoutGrace);
   entry "no-prestop-hook" "No preStop hook" categoryReliability severityLow
       ("Endpoints are removed and SIGTERM is sent at the same moment, so in-flight requests can land on a closing pod." +s+ judgementSentence +s+ "a process that drains cleanly on SIGTERM needs no hook.")
       "Add a lifecycle.preStop sleep long enough for the endpoint removal to propagate."
       (overContainers noPreStop);
   entry "grace-period-zero" "No time to shut down" categoryReliability severityMedium
       "The container is killed outright, so nothing is flushed and nothing is finished."
       "Raise terminationGracePeriodSeconds to cover the longest request the process serves."
       (overSubjects graceZero);
   entry "grace-period-blocks-drain" "Shutdown long enough to hold up a drain" categoryReliability severityLow
       ("A drain waits for every pod's grace period, so one long one holds up a node." +s+ judgementSentence +s+ "a queue worker finishing a long job may want exactly this.")
       "Shorten terminationGracePeriodSeconds, or move the long work off the shutdown path."
       (overSubjects graceTooLong);
   entry "wrong-restart-policy" "Restart policy the kind cannot use" categoryReliability severityHigh
       "A Job whose pods always restart never finishes, and a Deployment whose pods do not restart loses capacity for good."
       "Use Never or OnFailure for Jobs and CronJobs, and Always everywhere else."
       (overSubjects wrongRestartPolicy);
   entry "ephemeral-storage-unset" "No ephemeral storage request or limit" categoryEfficiency severityLow
       "Logs and scratch files fill the node's disk, and the kubelet evicts whatever it likes to get it back."
       "Set resources.requests and resources.limits for ephemeral-storage."
       (overContainers ephemeralStorageUnset);
   entry "memory-limit-not-request" "Memory limit above its request" categoryEfficiency severityLow
       ("The pod is Burstable, so it is a candidate for eviction under node memory pressure even while inside its own limit." +s+ judgementSentence +s+ "headroom is the point of Burstable for workloads that spike briefly.")
       "Set resources.requests.memory equal to resources.limits.memory for a Guaranteed pod."
       (overContainers memoryNotGuaranteed);
   entry "init-container-unbounded" "Init container with no resources" categoryEfficiency severityLow
       "An init container's request is what the pod is scheduled on while it runs, so an unset one hides the pod's real peak."
       "Set resources.requests on the init container as well."
       (overContainers initUnbounded);
   entry "replicas-zero" "Scaled to zero" categoryReliability severityMedium
       "Nothing is running and nothing will restart it, which is usually a scale-down somebody forgot to undo."
       "Scale it back up, or delete it if it is finished with."
       (overSubjects replicasZero);
   entry "no-spread-no-anti-affinity" "Replicas free to share a node" categoryReliability severityMedium
       "Nothing stops the scheduler putting every replica on one node, so one node failure takes the whole workload."
       "Add a topologySpreadConstraint on kubernetes.io/hostname, or a podAntiAffinity."
       (overSubjects noSpreadRule);
   entry "recreate-strategy" "Recreate rollout" categoryReliability severityMedium
       "Every pod is stopped before the new ones start, so the workload is down for the length of a rollout."
       "Use RollingUpdate unless two versions genuinely cannot run at once."
       (overSubjects recreateStrategy);
   entry "max-unavailable-all" "Rollout may take every replica at once" categoryReliability severityMedium
       "maxUnavailable covers the whole workload, so a rolling update is a full outage in slower clothes."
       "Lower maxUnavailable, and set maxSurge so replacements start before the old pods go."
       (overSubjects maxUnavailableAll);
   entry "statefulset-no-service-name" "StatefulSet with no governing Service" categoryReliability severityHigh
       "Without serviceName the pods get no stable DNS, which is most of the reason to use a StatefulSet."
       "Create a headless Service and name it in spec.serviceName."
       (overSubjects statefulSetNoService);
   entry "unbounded-revision-history" "More old ReplicaSets kept than anyone rolls back to" categoryEfficiency severityLow
       "Old ReplicaSets accumulate for the life of the workload and cost API server memory and list time."
       "Lower spec.revisionHistoryLimit to the number of rollbacks you would actually make."
       (overSubjects unboundedHistory);
   entry "duplicate-env-keys" "Environment variable set twice" categoryReliability severityMedium
       "The last value silently wins, so the container reads something other than what the first entry says."
       "Remove the duplicate entry."
       (overContainers duplicateEnvKeys)].

Definition supplyChecks : list check :=
  [entry "image-not-digest-pinned" "Image not pinned to a digest" categoryReliability severityLow
       "A tag can be moved, so two pods of the same workload can be running different code and a rollback has no fixed target."
       "Append @sha256:… to the image, keeping the tag for readability."
       (overContainers imageNotPinned);
   entry "image-from-docker-hub" "Image pulled from Docker Hub" categoryReliability severityLow
       "Anonymous pulls are rate limited per node address, so a rollout can fail on pull rather than on anything you changed."
       "Mirror the image into a registry you control and pull it from there."
       (overContainers imageFromDockerHub);
   entry "pull-policy-not-always" "Mutable tag not pulled every time" categoryReliability severityLow
       "The node keeps whatever it cached, so a moved tag reaches new nodes and not old ones. A judgement call: pinning the digest instead makes this moot."
       "Set imagePullPolicy to Always, or pin the image to a digest."
       (overContainers pullPolicyNotAlways);
   entry "private-registry-no-pull-secret" "Private registry with no pull secret" categoryReliability severityLow
       "If the registry ever needs credentials the pull fails on a node that has none cached. A judgement call: a registry open to the cluster's network needs nothing."
       "Add imagePullSecrets, or attach the secret to the pod's ServiceAccount."
       (overSubjects privateRegistryNoSecret);
   framed [nsaCisa; cisBenchmark] (entry "secret-in-env-literal" "Credential written into the manifest" categorySecurity severityHigh
       "The value is in the object, so it is in every backup, every audit log and anything that can read the workload."
       "Move it to a Secret and reference it with valueFrom.secretKeyRef."
       (overContainers secretInEnvLiteral));
   framed [nsaCisa; cisBenchmark] (entry "env-from-secret-wholesale" "Whole Secret loaded into the environment" categorySecurity severityMedium
       "Every key lands in the environment, including ones added later, and the environment is readable by anything that can exec into the container."
       "Name the keys you need with valueFrom.secretKeyRef, or mount the Secret as a file."
       (overContainers envFromSecret));
   framed [nsaCisa] (entry "secret-volume-world-readable" "Secret file readable beyond its owner" categorySecurity severityLow
       "Any process in the container, whatever user it runs as, can read the secret off disk. A judgement call: 0644 is what the apiserver fills in when nobody chooses, so this is true of almost every secret volume until somebody tightens it."
       "Set the volume's defaultMode to 0400."
       (overSubjects secretVolumeReadable));
   framed [cisBenchmark] (entry "default-namespace" "Running in the default namespace" categoryReliability severityLow
       "Nothing separates it from anything else somebody applies without thinking, and namespace-scoped policy and quota cannot be aimed at it."
       "Move it to a namespace named after what it is."
       (overSubjects inDefaultNamespace));
   entry "missing-recommended-labels" "No app.kubernetes.io/name" categoryReliability severityLow
       "Nothing ties the object to the application it belongs to, so selectors, dashboards and cost reports have to guess. A judgement call: your own convention may be a different label entirely."
       "Set app.kubernetes.io/name, and instance and version alongside it."
       (overSubjects missingNameLabel);
   entry "selector-template-mismatch" "Selector does not match its own template" categoryReliability severityHigh
       "The controller creates pods it then cannot find, so it creates them again, for ever."
       "Make every label in spec.selector.matchLabels appear on the pod template."
       (overSubjects selectorMismatch);
   entry "cpu-limit-set" "CPU limit set" categoryEfficiency severityLow
       "A CPU limit throttles the container even when the node is idle, which shows up as latency nobody can account for. A judgement call: a limit is the right answer where one tenant must not crowd out another."
       "Drop resources.limits.cpu and let the request do the scheduling."
       (overContainers cpuLimitSet)].

Definition batchChecks : list check :=
  [entry "job-no-ttl" "Finished Job kept for ever" categoryEfficiency severityMedium
       "The Job and its pods stay until somebody deletes them, so completed work accumulates in the API server."
       "Set spec.ttlSecondsAfterFinished so the Job cleans itself up."
       (overSubjects jobNoTTL);
   entry "job-no-active-deadline" "Job with no deadline" categoryReliability severityMedium
       "A job that hangs holds its pod and its resources until somebody notices."
       "Set spec.activeDeadlineSeconds to longer than a healthy run and shorter than a hang."
       (overSubjects jobNoDeadline);
   entry "job-backoff-limit" "Job retry count worth a second look" categoryReliability severityLow
       "A backoffLimit of 0 gives up on the first transient failure; a high one retries a permanent failure for hours."
       "Set spec.backoffLimit to the number of retries the work actually deserves."
       (overSubjects jobBackoffLimit);
   entry "cronjob-no-starting-deadline" "CronJob with no starting deadline" categoryReliability severityMedium
       "After enough missed schedules the controller stops scheduling the CronJob entirely and says so only in an event."
       "Set spec.startingDeadlineSeconds so a missed run is skipped rather than counted against it."
       (overSubjects cronNoStartingDeadline);
   entry "cronjob-concurrency-allow" "CronJob runs may overlap" categoryReliability severityMedium
       "A run that outlasts its interval is joined by the next one, so two copies work on the same thing at once."
       "Set spec.concurrencyPolicy to Forbid, or to Replace if the newest run should win."
       (overSubjects cronConcurrencyAllow);
   entry "cronjob-unbounded-history" "Every CronJob run kept" categoryEfficiency severityLow
       "Finished Jobs and their pods accumulate on every schedule for the life of the CronJob."
       "Lower spec.successfulJobsHistoryLimit and spec.failedJobsHistoryLimit."
       (overSubjects cronUnboundedHistory)].

Definition efficiencyChecks : list check :=
  [entry "requests-missing" "No resource requests" categoryEfficiency severityMedium
       "The scheduler places it as if it needed nothing, so the node fills past what it can serve."
       "Set resources.requests.cpu and resources.requests.memory to what it needs at rest."
       (overContainers requestsMissing);
   entry "limits-missing" "No resource limits" categoryEfficiency severityLow
       "One runaway process can take the node and evict everything on it."
       "Set resources.limits.memory at minimum; that is what stops a leak."
       (overContainers limitsMissing);
   entry "limits-far-above-requests" "Limits far above requests" categoryEfficiency severityLow
       "The node was scheduled for the request and can be asked for the limit."
       "Raise the request to what it uses, or lower the limit."
       (overContainers limitsAboveRequests);
   needingUsage (entry "requests-far-above-usage" "Requests far above measured usage" categoryEfficiency severityLow
       "Reserved capacity nothing uses: the cluster looks full while nodes sit idle."
       "Lower the requests towards measured usage, leaving headroom for peaks."
       (overUsage requestsAboveUsage))].

Definition factChecks : list check :=
  [needing [nodeTarget] (entry "node-selector-matches-nothing" "Scheduled onto a node that does not exist" categoryReliability severityHigh
       "No node in the cluster carries the labels the pod asks for, so it can never be scheduled."
       "Fix the label in nodeSelector, or label the nodes it is meant to land on."
       (overFacts nodeSelectorMatchesNothing));
   needing [nodeTarget] (entry "tolerations-miss-the-taints" "Every matching node repels the pod" categoryReliability severityHigh
       "The nodes whose labels match all carry a taint the pod does not tolerate, so nothing will accept it."
       "Add the toleration the taint calls for, or take the taint off a node that should run this."
       (overFacts tolerationsMissTaints));
   needing [nodeTarget] (entry "request-exceeds-largest-node" "Asks for more than any node has" categoryReliability severityHigh
       "The request is larger than the allocatable capacity of the biggest node, so no amount of free space will let it schedule."
       "Lower the request, or add a node large enough to hold it."
       (overFacts requestExceedsLargestNode));
   needing [nodeTarget] (entry "spread-needs-more-domains" "Spread asks for more failure domains than exist" categoryReliability severityMedium
       "A DoNotSchedule constraint cannot be satisfied with fewer domains than replicas, so the surplus replicas stay Pending."
       "Use ScheduleAnyway, lower the replica count, or add nodes in more domains."
       (overFacts spreadNeedsMoreDomains));
   needing [nodeTarget] (entry "anti-affinity-exceeds-nodes" "Anti-affinity asks for more nodes than exist" categoryReliability severityMedium
       "A required anti-affinity on hostname allows one replica per node, and there are fewer nodes than replicas."
       "Make the rule preferred, lower the replica count, or add nodes."
       (overFacts antiAffinityExceedsNodes));
   needing [limitRangeTarget] (entry "outside-limit-range" "Resources outside the namespace's LimitRange" categoryReliability severityHigh
       "The namespace's LimitRange rejects the pod at admission, so the controller creates it and never gets one."
       "Bring the request and limit inside the range, or widen the LimitRange."
       (overFacts outsideLimitRange));
   needing [quotaTarget] (entry "quota-nearly-exhausted" "Namespace quota almost spent" categoryReliability severityMedium
       "Once a ResourceQuota is full the next pod is refused at admission, which shows up as a controller that cannot create its pods."
       "Raise the quota, or lower what the workloads in this namespace reserve."
       (overFacts quotaNearlyExhausted));
   needing [namespaceTarget] (framed [pssBaseline; pssRestricted] (enforcing (entry "pod-security-would-reject" "The namespace's Pod Security level would reject this" categorySecurity severityHigh
       "The namespace enforces a Pod Security level this pod does not meet, so the pods are refused at admission."
       "Fix what the level forbids, or move the workload to a namespace at a lower level."
       enforcedLevelRejects)))].

Definition workloadRefChecks : list check :=
  [needing [accountTarget] (entry "service-account-missing" "Names a ServiceAccount that does not exist" categoryReliability severityHigh
       "The pod cannot be admitted until the account exists, so the controller creates it and gets nothing back."
       "Create the ServiceAccount, or point serviceAccountName at one that is there."
       (overFacts serviceAccountMissing));
   needing [configMapTarget] (entry "config-map-missing" "Reads a ConfigMap that does not exist" categoryReliability severityHigh
       "The pod stays in CreateContainerConfigError until the ConfigMap appears."
       "Create the ConfigMap, or mark the reference optional."
       (overFacts configMapMissing));
   needing [configMapTarget] (entry "config-map-key-missing" "Reads a key the ConfigMap does not have" categoryReliability severityHigh
       "The ConfigMap is there and the key is not, which fails the container in the same way a missing map would."
       "Add the key, or point configMapKeyRef at one that exists."
       (overFacts configMapKeyMissing));
   needing [secretTarget] (entry "secret-missing" "Reads a Secret that does not exist" categoryReliability severityHigh
       "The pod stays in CreateContainerConfigError until the Secret appears."
       "Create the Secret, or mark the reference optional."
       (overFacts secretMissing));
   needing [secretTarget] (entry "pull-secret-missing" "Names an imagePullSecret that does not exist" categoryReliability severityMedium
       "The pull falls back to anonymous, so a private image fails to pull with no obvious cause."
       "Create the pull secret, or take the reference out."
       (overFacts pullSecretMissing));
   needing [claimTarget] (entry "claim-missing" "Mounts a PersistentVolumeClaim that does not exist" categoryReliability severityHigh
       "The pod stays Pending on a volume that will never bind."
       "Create the claim, or take the volume out."
       (overFacts claimMissing));
   needing [priorityTarget] (entry "priority-class-missing" "Names a PriorityClass that does not exist" categoryReliability severityHigh
       "The pod is rejected at admission, so the controller never gets one."
       "Create the PriorityClass, or take the name out."
       (overFacts priorityClassMissing));
   needing [runtimeTarget] (entry "runtime-class-missing" "Names a RuntimeClass that does not exist" categoryReliability severityHigh
       "The pod is rejected at admission until the RuntimeClass exists."
       "Create the RuntimeClass, or take the name out."
       (overFacts runtimeClassMissing));
   needing [serviceTarget] (entry "no-service-selects-it" "Nothing routes to this workload" categoryReliability severityLow
       "No Service selects these pods, so nothing in the cluster can reach them by name. A judgement call: a worker that only makes outbound calls needs none."
       "Add a Service whose selector matches the pod labels, or leave it if nothing calls in."
       (overFacts noServiceSelectsIt));
   needing [policyTarget] (framed [nsaCisa; cisBenchmark] (entry "no-network-policy" "No NetworkPolicy covers this workload" categorySecurity severityLow
       "Every pod in the cluster can open a connection to it, while the pods beside it are behind a policy. A cluster with no NetworkPolicy at all is left alone; this only fires once you have started using them."
       "Add a NetworkPolicy selecting these pods and naming what may reach them."
       (overFacts noNetworkPolicy)));
   needing [budgetTarget] (entry "no-disruption-budget" "No PodDisruptionBudget" categoryReliability severityLow
       "A drain evicts every replica at once, so a node upgrade is an outage."
       "Add a PodDisruptionBudget with minAvailable set below the replica count."
       (overFacts noDisruptionBudget));
   needing [budgetTarget] (entry "budget-blocks-every-eviction" "Disruption budget a drain can never satisfy" categoryReliability severityHigh
       "minAvailable is at or above the replica count, so no pod may ever be evicted and a drain hangs for ever."
       "Lower minAvailable below spec.replicas, or raise the replica count above it."
       (overFacts budgetBlocksEviction));
   needing [scalerTarget] (entry "scaler-fights-fixed-replicas" "An autoscaler and a fixed replica count on one workload" categoryReliability severityMedium
       "The controller writes the replica count and the autoscaler writes it back, so the workload oscillates."
       "Remove spec.replicas from the workload and let the HorizontalPodAutoscaler own it."
       (overFacts scalerFightsReplicas))].

Definition networkChecks : list check :=
  [needing [ingressTarget; serviceTarget] (entry "ingress-backend-missing" "Ingress routes to a Service that does not exist" categoryReliability severityHigh
       "The controller has nowhere to send the traffic, so the route answers 503 with nothing in the logs to explain it."
       "Create the Service, or point the backend at one that is there."
       (overCorpus ingressBackendMissing));
   needing [ingressTarget; classTarget] (entry "ingress-class-missing" "Ingress names an IngressClass that does not exist" categoryReliability severityHigh
       "No controller claims the Ingress, so it is never programmed and the host simply does not resolve to anything."
       "Create the IngressClass, or name one the cluster has."
       (overCorpus ingressClassMissing));
   needing [claimTarget; storageTarget] (entry "storage-class-missing" "Claim names a StorageClass that does not exist" categoryReliability severityHigh
       "Nothing provisions the volume, so the claim stays Pending and every pod that wants it stays Pending too."
       "Create the StorageClass, or name one the cluster has."
       (overCorpus storageClassMissing))].

Definition orphanChecks : list check :=
  [needingEvery readsEvery (needing [configMapTarget] (entry "orphaned-config-map" "ConfigMap nothing names" categoryEfficiency severityLow
       readsPart
       "Delete it once you have checked nothing else wants it."
       (overCorpus orphanedConfigMaps)));
   needingEvery readsEvery (needing [secretTarget] (entry "orphaned-secret" "Secret nothing names" categoryEfficiency severityLow
       readsPart
       "Delete it once you have checked nothing else wants it."
       (overCorpus orphanedSecrets)));
   needing [claimTarget] (entry "claim-nothing-mounts" "PersistentVolumeClaim nothing mounts" categoryEfficiency severityLow
       "The volume is provisioned and billed and no pod uses it. A judgement call: a claim between deployments is normal for a short while."
       "Delete the claim, or attach it to the workload that is meant to use it."
       (overCorpus unmountedClaims))].

Definition rbacChecks : list check :=
  [ruleCheck "rbac-wildcard-verbs" "Role grants every verb" severityHigh
     "A rule with * verbs grants delete and patch alongside the read the author wanted."
     "Name the verbs the subject needs."
     wildcardVerbs [cisBenchmark];
   ruleCheck "rbac-wildcard-resources" "Role grants every resource" severityHigh
     "A rule with * resources reaches kinds nobody had in mind when they wrote it, including ones installed later."
     "Name the resources the subject needs."
     wildcardResources [cisBenchmark];
   ruleCheck "rbac-wildcard-api-groups" "Role reaches every API group" severityHigh
     "A rule with * apiGroups covers every CRD in the cluster, present and future."
     "Name the API groups the subject needs."
     wildcardGroups [cisBenchmark];
   ruleCheck "rbac-escalate-or-bind" "Role may grant itself more" severityHigh
     "escalate and bind let the holder award permissions it does not have, which is a way around every other limit."
     "Remove escalate and bind unless this is a controller that genuinely delegates."
     escalateOrBind [cisBenchmark];
   ruleCheck "rbac-impersonate" "Role may act as somebody else" severityHigh
     "impersonate lets the holder make requests as any user, group or service account."
     "Remove impersonate."
     impersonate [cisBenchmark];
   ruleCheck "rbac-read-secrets" "Role reads Secrets" severityHigh
     "Reading Secrets across a namespace is reading every credential in it."
     "Name the individual secrets with resourceNames, or drop the rule."
     readSecrets [cisBenchmark];
   ruleCheck "rbac-pod-exec" "Role may exec into pods" severityHigh
     "A shell in any pod is that pod's service account token and everything it can read."
     "Remove pods/exec and pods/attach."
     podExec [];
   ruleCheck "rbac-pod-portforward" "Role may forward pod ports" severityMedium
     "Port-forwarding reaches anything the pod can reach, around every NetworkPolicy."
     "Remove pods/portforward."
     podPortforward [];
   ruleCheck "rbac-pod-logs" "Role reads pod logs" severityMedium
     "Logs carry whatever the application printed, which is often more than the author meant."
     "Remove pods/log where it is not needed."
     podLogs [];
   ruleCheck "rbac-create-pods" "Role may create pods" severityHigh
     "Creating a pod means choosing its service account, so this is a way to become any account in the namespace."
     "Remove create on pods, or restrict the namespaces this applies to."
     createPods [cisBenchmark];
   ruleCheck "rbac-write-bindings" "Role may grant permissions" severityHigh
     "Writing role bindings is writing the permission model itself."
     "Remove write access to roles, rolebindings and their cluster-scoped forms."
     writeBindings [];
   ruleCheck "rbac-write-webhooks" "Role may change admission" severityHigh
     "Writing webhook configurations lets the holder intercept or wave through every request the API server handles."
     "Remove write access to validatingwebhookconfigurations and mutatingwebhookconfigurations."
     writeWebhooks [cisBenchmark];
   ruleCheck "rbac-node-proxy" "Role reaches the kubelet directly" severityHigh
     "nodes/proxy talks to the kubelet API, which serves every pod on the node without the API server's checks."
     "Remove nodes/proxy."
     nodeProxy [cisBenchmark];
   needing [clusterBindTarget] (framed [nsaCisa; cisBenchmark] (entry "cluster-admin-bound" "cluster-admin granted" categorySecurity severityHigh
       "cluster-admin is every verb on every resource in every namespace, with no exceptions."
       "Bind a role that names what the subject actually needs."
       (overCorpus clusterAdminBound)));
   needing [bindingTarget; clusterBindTarget] (framed [nsaCisa; cisBenchmark] (entry "bound-to-everyone" "Permissions granted to everyone" categorySecurity severityHigh
       "The subject is a group every request already belongs to, so this grants the permission to the whole cluster."
       "Bind the role to the specific service account or user that needs it."
       (overCorpus boundToEveryone)))].

Definition objectChecks : list check :=
  [corpusCheck "service-load-balancer" "Service published by a load balancer" categorySecurity severityMedium [serviceTarget] [nsaCisa]
     "A cloud load balancer puts the Service on a public address, and every controller that reconciles it can move that address."
     "Publish it through an Ingress, or use ClusterIP and reach it from inside."
     (overObjects "" "services" "Service" serviceTarget publishedByLoadBalancer);
   corpusCheck "service-node-port" "Service published on every node" categorySecurity severityMedium [serviceTarget] [nsaCisa]
     "A NodePort opens the same high port on every node in the cluster, whatever the firewall in front of them says."
     "Use ClusterIP with an Ingress, unless something outside genuinely dials the node."
     (overObjects "" "services" "Service" serviceTarget publishedOnNodePort);
   corpusCheck "service-external-ips" "Service claims an address it was given" categorySecurity severityHigh [serviceTarget] [nsaCisa]
     "externalIPs makes the node answer for an address nothing checked it owns, which is how traffic for somebody else is intercepted."
     "Remove spec.externalIPs and publish the Service properly."
     (overObjects "" "services" "Service" serviceTarget claimsExternalIPs);
   corpusCheck "ingress-no-tls" "Ingress serves plaintext" categorySecurity severityMedium [ingressTarget] [nsaCisa]
     "Everything the route carries crosses the network in the clear, credentials included."
     "Add a spec.tls block naming the secret that holds the certificate."
     (overObjects networkGroup "ingresses" "Ingress" ingressTarget servesPlaintext);
   corpusCheck "ingress-wildcard-host" "Ingress claims a wildcard host" categorySecurity severityMedium [ingressTarget] [nsaCisa]
     "A wildcard host answers for every name under the domain, including ones another Ingress meant to own."
     "Name the hosts this route serves."
     (overObjects networkGroup "ingresses" "Ingress" ingressTarget claimsWildcardHost);
   corpusCheck "ingress-snippet-annotation" "Ingress injects controller configuration" categorySecurity severityHigh [ingressTarget] [nsaCisa]
     "A snippet annotation is raw configuration handed to the ingress controller, which is a way to reconfigure the proxy from a namespace that only owns a route."
     "Move what the snippet does into the controller's own configuration."
     (overObjects networkGroup "ingresses" "Ingress" ingressTarget injectsSnippet);
   corpusCheck "policy-allows-everything" "NetworkPolicy that allows everything" categorySecurity severityMedium [policyTarget] [nsaCisa; cisBenchmark]
     "An empty selector with an empty rule matches every pod and permits every source, which is the same as having no policy while looking like one."
     "Name the pods it covers and the sources they may accept."
     (overObjects networkGroup "networkpolicies" "NetworkPolicy" policyTarget allowsEverything);
   corpusCheck "policy-open-ip-block" "NetworkPolicy opens the whole internet" categorySecurity severityMedium [policyTarget] [nsaCisa]
     "An ipBlock of 0.0.0.0/0 permits every address there is, which undoes the point of writing the policy."
     "Narrow the CIDR to what actually needs to reach it."
     (overObjects networkGroup "networkpolicies" "NetworkPolicy" policyTarget opensEveryAddress);
   corpusCheck "pdb-no-policy" "Disruption budget that says nothing" categoryReliability severityMedium [budgetTarget] []
     "With neither minAvailable nor maxUnavailable the budget has no effect at all."
     "Set minAvailable, or maxUnavailable."
     (overObjects "policy" "poddisruptionbudgets" "PodDisruptionBudget" budgetTarget budgetSaysNothing);
   corpusCheck "pdb-blocks-all" "Disruption budget that forbids every eviction" categoryReliability severityHigh [budgetTarget] []
     "maxUnavailable of zero means no pod may ever be evicted, so a drain waits for ever."
     "Raise maxUnavailable above zero, or use minAvailable below the replica count."
     (overObjects "policy" "poddisruptionbudgets" "PodDisruptionBudget" budgetTarget budgetForbidsEviction);
   corpusCheck "pdb-unhealthy-eviction" "Disruption budget can be held by an unhealthy pod" categoryReliability severityLow [budgetTarget] []
     "Without unhealthyPodEvictionPolicy a pod that is running but never ready still counts against the budget, so a drain stalls on a pod that is already broken."
     "Set unhealthyPodEvictionPolicy to AlwaysAllow."
     (overObjects "policy" "poddisruptionbudgets" "PodDisruptionBudget" budgetTarget budgetHeldByUnhealthy);
   corpusCheck "claim-no-storage-class" "Claim names no StorageClass" categoryReliability severityLow [claimTarget] []
     "It gets whichever class is marked default, which is not the same class on another cluster."
     "Name the class the workload needs."
     (overObjects "" "persistentvolumeclaims" "PersistentVolumeClaim" claimTarget claimNamesNoClass);
   corpusCheck "storage-class-deletes-data" "StorageClass deletes the volume with the claim" categoryReliability severityMedium [storageTarget] []
     "reclaimPolicy Delete destroys the underlying volume the moment the claim goes, so deleting a namespace deletes the data in it."
     "Set reclaimPolicy to Retain on the classes that hold data you would want back."
     (overObjects "storage.k8s.io" "storageclasses" "StorageClass" storageTarget classDeletesData);
   corpusCheck "hpa-floor-of-one" "Autoscaler may scale down to one" categoryReliability severityLow [scalerTarget] []
     "At one replica every rollout, drain and eviction is downtime, and the autoscaler will take it there whenever load allows."
     "Raise minReplicas to at least two."
     (overObjects "autoscaling" "horizontalpodautoscalers" "HorizontalPodAutoscaler" scalerTarget scalerFloorOfOne);
   corpusCheck "hpa-no-metrics" "Autoscaler with nothing to scale on" categoryReliability severityHigh [scalerTarget] []
     "With no metric the autoscaler holds the replica count where it is and reports it cannot compute a target."
     "Add a metric, or drop the autoscaler and set the replica count yourself."
     (overObjects "autoscaling" "horizontalpodautoscalers" "HorizontalPodAutoscaler" scalerTarget scalerHasNoMetrics)].

Definition deprecationChecks : list check :=
  [entry "serves-a-removed-api" "Cluster still serves an API a release removes" categoryReliability severityHigh
       "Anything still writing to this version stops working the moment the cluster is upgraded past the release that removes it."
       "Move whatever uses it to the replacement version before that upgrade."
       (overCorpus servesARemovedAPI);
   entry "apiserver-says-deprecated" "The apiserver warned about something the audit asked for" categoryReliability severityLow
       "Your own cluster answered a request with a deprecation warning. This is what it has said since Spinoza connected, so a window open for an hour has seen more than one just started."
       "Move to what the warning names."
       (overCorpus apiserverSaysDeprecated)].

Definition referenceChecks : list check := workloadRefChecks ++ networkChecks ++ orphanChecks.

Definition registry : list check :=
  securityChecks ++ hardeningChecks ++ reliabilityChecks ++ lifecycleChecks ++ supplyChecks ++ batchChecks ++ efficiencyChecks ++
  factChecks ++ referenceChecks ++ rbacChecks ++ objectChecks ++ deprecationChecks.

(** ** What a rule reads *)

Definition itemsOf (c : corpus U) (resource : string) : list (held U) :=
  List.filter (fun item => bool_decide (rd_Resource (h_desc item) = resource)) (co_items c).
Definition namesFor_ (names : list Named) (resource : string) : list Named :=
  List.filter (fun n => bool_decide (or_Resource (n_Ref n) = resource)) names.
Definition namesFor (c : corpus U) (resource : string) : list Named := namesFor_ (co_names c) resource.

(** Two corpora hold the same of some resources. *)
Definition agree (resources : list string) (c c' : corpus U) : Prop :=
  forall resource, resource ∈ resources -> itemsOf c resource = itemsOf c' resource /\ namesFor c resource = namesFor c' resource.

Lemma filter_filter {A} (f g : A -> bool) l : (forall x, f x = true -> g x = true) ->
  List.filter f (List.filter g l) = List.filter f l.
Proof.
  intros H. induction l as [| x l IH]; [done |]. cbn. destruct (g x) eqn:Eg; cbn; destruct (f x) eqn:Ef; rewrite ?IH; try done.
  by rewrite (H _ Ef) in Eg.
Qed.

Lemma of_items c group resource :
  of_ c group resource = map h_obj (List.filter (fun item => bool_decide (targetOf (h_desc item) = MkTarget group resource)) (itemsOf c resource)).
Proof.
  unfold of_, itemsOf. rewrite filter_filter; [done |]. intros x Hx. apply bool_decide_eq_true in Hx. apply bool_decide_eq_true.
  unfold targetOf in Hx. congruence.
Qed.

Lemma namesOf_names c group resource :
  namesOf c group resource =
  List.filter (fun n => bool_decide (or_Group (n_Ref n) = group) && bool_decide (or_Resource (n_Ref n) = resource)) (namesFor c resource).
Proof.
  unfold namesOf, namesFor, namesFor_. rewrite filter_filter; [done |]. intros x Hx. by apply andb_prop in Hx as [_ Hx].
Qed.

Definition keyed (n : Named) : string * string * string :=
  (or_Group (n_Ref n), or_Resource (n_Ref n), or_Namespace (n_Ref n) +s+ "/" +s+ or_Name (n_Ref n)).

Definition ofResource (resource : string) : (string * string * string) * Named -> Prop := fun '(k, _) => k.1.2 = resource.
#[local] Instance ofResource_dec resource kn : Decision (ofResource resource kn).
Proof. destruct kn. unfold ofResource. apply _. Defined.

(** The names of one resource by key, apart from the others'. *)
Lemma namesByKey_filter (resource : string) (names : list Named) (m : gmap (string * string * string) Named) :
  filter (ofResource resource) (foldl (fun m n => <[keyed n := n]> m) m names) =
  foldl (fun m n => <[keyed n := n]> m) (filter (ofResource resource) m) (namesFor_ names resource).
Proof.
  revert m. induction names as [| n names IH]; intros m; [done |]. cbn [foldl]. rewrite IH. unfold namesFor_. cbn [List.filter].
  case_bool_decide as E; cbn [foldl].
  - by rewrite map_filter_insert_True.
  - by rewrite map_filter_insert_not.
Qed.

Lemma namesByKey_keyed (names : list Named) (m : gmap (string * string * string) Named) :
  (forall k n, m !! k = Some n -> k = keyed n) ->
  forall k n, foldl (fun m n => <[keyed n := n]> m) m names !! k = Some n -> k = keyed n.
Proof.
  revert m. induction names as [| x names IH]; intros m Hm; [exact Hm |]. cbn [foldl]. apply IH.
  intros k n Hk. apply lookup_insert_Some in Hk as [[<- <-] | [_ Hk]]; [done | by apply Hm].
Qed.

Lemma every_names c resource :
  every c resource ≡ₚ
  map snd (map_to_list (foldl (fun m n => <[keyed n := n]> m) ∅ (namesFor c resource) : gmap _ _)) ++
  map (fun item =>
    namedOf (MkObjectRef (rd_Group (h_desc item)) "v1" (rd_Resource (h_desc item)) (GetNamespace (h_obj item)) (GetName (h_obj item)))
      (h_obj item)) (itemsOf c resource).
Proof.
  unfold every. rewrite sort_by_perm. apply Permutation_app; [| done].
  pose proof (namesByKey_filter resource (co_names c) ∅) as Hf. rewrite map_filter_empty in Hf.
  change (namesFor_ (co_names c) resource) with (namesFor c resource) in Hf. rewrite <- Hf. clear Hf.
  pose proof (namesByKey_keyed (co_names c) ∅ ltac:(intros k n Hk; by rewrite lookup_empty in Hk)) as Hk.
  change (namesByKey c) with (foldl (fun m n => <[keyed n := n]> m) (∅ : gmap _ Named) (co_names c)).
  set (m := foldl _ _ _) in *. clearbody m.
  transitivity (map snd (List.filter (fun '(_, n) => bool_decide (or_Resource (n_Ref n) = resource)) (map_to_list m))).
  { induction (map_to_list m) as [| [k n] l IH]; [done |]. cbn. case_bool_decide; cbn; by rewrite IH. }
  apply Permutation_map, NoDup_Permutation.
  - apply NoDup_ListNoDup, List.NoDup_filter, NoDup_ListNoDup, NoDup_map_to_list.
  - apply NoDup_map_to_list.
  - intros [k n]. rewrite list_elem_of_In, List.filter_In, <- list_elem_of_In, !elem_of_map_to_list, map_lookup_filter_Some.
    rewrite bool_decide_eq_true. split; intros [Hm Hr]; (split; [exact Hm |]); pose proof (Hk _ _ Hm) as ->; exact Hr.
Qed.

Section agree.
Context (needs : list string) (c c' : corpus U) (Hagree : agree needs c c').

Lemma of_agree group resource : resource ∈ needs -> of_ c group resource = of_ c' group resource.
Proof using Hagree. intros H. rewrite !of_items. by destruct (Hagree _ H) as [-> _]. Qed.

Lemma namesOf_agree group resource : resource ∈ needs -> namesOf c group resource = namesOf c' group resource.
Proof using Hagree. intros H. rewrite !namesOf_names. by destruct (Hagree _ H) as [_ ->]. Qed.

Lemma every_agree resource : resource ∈ needs -> every c resource ≡ₚ every c' resource.
Proof using Hagree. intros H. rewrite !every_names. by destruct (Hagree _ H) as [-> ->]. Qed.
End agree.

(** The same scan over another corpus, with other usage measured: the objects
    audited, the facts and the upstream policies stay. *)
Definition with_read (sc : scan (U := U)) (held : corpus U) (usage : _) : scan (U := U) :=
  MkScan (sc_subjects sc) usage held (sc_facts sc) (sc_upstream sc) (sc_everyKind sc) (sc_custom sc).

Definition reads_declared (entry : check) : Prop :=
  forall sc held usage, agree (map t_resource (c_needs entry)) (sc_held sc) held ->
    (c_needsEvery entry = true -> co_mentioned (sc_held sc) = co_mentioned held) ->
    (c_needsUsage entry = true -> sc_usage sc = usage) ->
    c_find entry sc ≡ₚ c_find entry (with_read sc held usage).

Ltac in_needs := solve [repeat first [apply list_elem_of_here | apply list_elem_of_further]].

Ltac declared :=
  let subjects := fresh "subjects" in let usage := fresh "usage" in let c := fresh "c" in let facts := fresh "facts" in
  intros [subjects usage c facts ? ? ?] held usage'; cbn [entry revised upstreamOf presentedAs enforcing framed needing needingEvery needingUsage ruleCheck corpusCheck
    c_find c_needs c_needsEvery c_needsUsage with_read sc_subjects sc_usage sc_held sc_facts sc_upstream sc_everyKind sc_custom map t_resource];
  let Ha := fresh "Ha" in let He := fresh "He" in let Hu := fresh "Hu" in intros Ha He Hu;
  try (specialize (Hu eq_refl); cbn in Hu; subst usage');
  first
    [ reflexivity
    | autounfold with reads;
      cbn [sc_held sc_subjects sc_upstream t_group t_resource flat_map app with_read];
      repeat (rewrite (of_agree _ _ _ Ha) by in_needs);
      repeat (rewrite (namesOf_agree _ _ _ Ha) by in_needs);
      try (rewrite (He eq_refl));
      first [ reflexivity | apply omap_Permutation, (every_agree _ _ _ Ha); in_needs ] ].

Ltac all_declared := repeat (apply list.Forall_cons; split); [declared .. | apply list.Forall_nil; exact I].

Lemma pod_rules_declared :
  Forall reads_declared
    (securityChecks ++ hardeningChecks ++ reliabilityChecks ++ lifecycleChecks ++ supplyChecks ++ batchChecks ++ efficiencyChecks).
Proof.
  unfold securityChecks, hardeningChecks, reliabilityChecks, lifecycleChecks, supplyChecks, batchChecks, efficiencyChecks.
  cbn [app]. all_declared.
Qed.

Lemma node_rules_declared : Forall reads_declared factChecks.
Proof. unfold factChecks. all_declared. Qed.

Lemma reference_rules_declared : Forall reads_declared referenceChecks.
Proof. unfold referenceChecks, workloadRefChecks, networkChecks, orphanChecks. cbn [app]. all_declared. Qed.

Lemma object_rules_declared : Forall reads_declared (rbacChecks ++ objectChecks ++ deprecationChecks).
Proof. unfold rbacChecks, objectChecks, deprecationChecks. cbn [app]. all_declared. Qed.

Lemma registry_declared : Forall reads_declared registry.
Proof.
  pose proof pod_rules_declared as Hp. pose proof node_rules_declared as Hn. pose proof reference_rules_declared as Hr.
  pose proof object_rules_declared as Ho. unfold registry. rewrite !list.Forall_app in *. tauto.
Qed.

(** What the literals say of themselves: names of their own, known severities,
    controls of upstream of their own, and needs among what an audit asks for. *)
Lemma registry_wellformed :
  NoDup (map c_id registry) /\ Forall (fun id => id <> "" /\ no_nul id) (map c_id registry) /\
  Forall (fun severity => severity ∈ severityOrder) (map c_severity registry) /\
  NoDup (List.filter (fun id => negb (bool_decide (id = ""))) (map c_upstream registry)) /\
  Forall (fun needs => Forall (fun want => want ∈ allTargets) needs) (map c_needs registry).
Proof. refine (bool_decide_unpack _ _). vm_compute. exact I. Qed.

Lemma registry_needs entry want : entry ∈ registry -> want ∈ c_needs entry -> want ∈ allTargets.
Proof.
  intros He Hw. destruct registry_wellformed as (_ & _ & _ & _ & H).
  eapply list.Forall_forall in H; [| apply map_elem; exists entry; split; [reflexivity | exact He]].
  eapply list.Forall_forall in H; eauto.
Qed.

Lemma missing_none needs (c : corpus U) : missingResources needs c = [] -> forall want, want ∈ needs -> has c (t_group want) (t_resource want) = true.
Proof.
  unfold missingResources. intros H want Hw. destruct (has c (t_group want) (t_resource want)) eqn:E; [done |]. exfalso.
  assert (t_resource want ∈ omap (fun want => if has c (t_group want) (t_resource want) then None else Some (t_resource want)) needs) as Hin
    by (apply list_elem_of_omap; exists want; split; [done |]; by rewrite E).
  rewrite H in Hin. by apply not_elem_of_nil in Hin.
Qed.

Lemma standsDown_runs (entry : check) (sc : scan (U := U)) :
  standsDown entry sc = "" ->
  (c_needsEvery entry = true -> sc_custom sc = true /\ refused (sc_held sc) = "") /\
  (forall want, want ∈ c_needs entry -> has (sc_held sc) (t_group want) (t_resource want) = true).
Proof.
  unfold standsDown. destruct (c_needsUsage entry && negb (hasUsage sc)); [done |].
  destruct (c_needsEvery entry); cbn [andb]; destruct (sc_custom sc); cbn [negb]; try done;
    case_bool_decide as Hr; cbn [andb]; try done; intros H; (split; [| apply missing_none]).
  all: try (intros _; split; [done |]; destruct (decide (refused (sc_held sc) = "")); tauto).
  all: try done.
  all: destruct (missingResources _ _) as [| m l]; [done |]; exfalso; revert H; cbn [zlen length]; unfold zlen; cbn [length];
    destruct (Z.ltb_spec 0 (Z.of_nat (S (length l)))); [discriminate | lia].
Qed.

Lemma newCorpus_has items names absent asked unread mentions want :
  want ∈ allTargets -> has (newCorpus (U := U) items names absent asked unread mentions) (t_group want) (t_resource want) = true ->
  (want ∈ asked) /\ (t_resource want ∉ absent) /\ (want ∉ unread).
Proof.
  intros Ht. unfold has, newCorpus. cbn [co_absent]. destruct want as [g r]. cbn [t_group t_resource] in *. rewrite negb_true_iff.
  intros Hn. assert (~ (MkTarget g r ∈ List.filter (fun want => negb (contains asked want) || contains absent (t_resource want)) allTargets ++ unread)) as Hx
    by (intros Hx; apply contains_spec in Hx; congruence).
  rewrite elem_of_app, filter_elem in Hx. cbn [t_resource] in Hx.
  split; [| split].
  - destruct (decide (MkTarget g r ∈ asked)) as [|Hy]; [done |]. exfalso. apply Hx. left. split; [done |].
    destruct (contains asked _) eqn:E; [by apply contains_spec in E |]. done.
  - intros Hy. apply Hx. left. split; [done |]. apply contains_spec in Hy. by rewrite Hy, orb_true_r.
  - intros Hy. apply Hx. by right.
Qed.

Lemma findings_perm (entry : check) (sc : scan (U := U)) held usage :
  c_find entry sc ≡ₚ c_find entry (with_read sc held usage) -> findings entry sc ≡ₚ findings entry (with_read sc held usage).
Proof.
  intros H. unfold findings. destruct (bool_decide _); [exact H |]. unfold decidedUpstream. cbn [with_read sc_subjects sc_upstream].
  induction (sc_subjects sc) as [| subject l IH]; [done |]. cbn [flat_map]. apply Permutation_app; [| exact IH].
  assert (bySubject (c_find entry sc) (subjectKey subject) ≡ₚ bySubject (c_find entry (with_read sc held usage)) (subjectKey subject)) as Hb.
  { unfold bySubject. clear -H. induction H as [| x l l' _ IH | x y l | l l' l'' _ IH1 _ IH2]; cbn; try done.
    - by destruct (bool_decide _); [constructor |].
    - destruct (bool_decide _), (bool_decide _); try done. constructor.
    - by etransitivity. }
  destruct (Pss.verdict _ _ _) as [r |]; [| exact Hb]. destruct (pr_Allowed r); [done |].
  assert (zlen (bySubject (c_find entry sc) (subjectKey subject)) = zlen (bySubject (c_find entry (with_read sc held usage)) (subjectKey subject))) as ->
    by (unfold zlen; by rewrite Hb).
  destruct (_ || _); [exact Hb | done].
Qed.

(** C9: a rule that ships with the program tells only of what was read.  Where
    one does not stand down, every kind it needs was asked for, is one the
    cluster has and was not refused, and all of the cluster was read if it needs
    every kind.  For the same objects audited, the same facts of the cluster and
    the same upstream policies its findings are the same, whatever the corpus
    holds of the kinds it does not need, whatever usage was measured unless it
    needs usage, and whatever is mentioned anywhere unless it needs every kind.
    (What a rule makes of the objects audited themselves, which hold their pods,
    is not bounded by its needs: see [claim_judged_without_pods].) *)
Theorem rules_tell_of_what_was_read entry (sc : scan (U := U)) items names absent asked unread mentions :
  entry ∈ registry -> sc_held sc = newCorpus items names absent asked unread mentions -> standsDown entry sc = "" ->
  (forall want, want ∈ c_needs entry -> (want ∈ asked) /\ (t_resource want ∉ absent) /\ (want ∉ unread)) /\
  (c_needsEvery entry = true -> sc_custom sc = true /\ refused (sc_held sc) = "") /\
  forall held usage, agree (map t_resource (c_needs entry)) (sc_held sc) held ->
    (c_needsEvery entry = true -> co_mentioned (sc_held sc) = co_mentioned held) ->
    (c_needsUsage entry = true -> sc_usage sc = usage) ->
    findings entry sc ≡ₚ findings entry (with_read sc held usage).
Proof.
  intros He Hheld Hs. destruct (standsDown_runs _ _ Hs) as [Hevery Hneeds]. split; [| split; [exact Hevery |]].
  - intros want Hw. eapply newCorpus_has; [by eapply registry_needs |]. rewrite <- Hheld. by apply Hneeds.
  - intros held usage Ha Hm Hu. apply findings_perm. pose proof registry_declared as Hr. eapply list.Forall_forall in Hr; [| exact He].
    by apply Hr.
Qed.

End registry.

(** ** Concrete runs *)

#[local] Existing Instance Issues.plain_times.
#[local] Existing Instance Checks.examplePolicies.
#[local] Instance exampleScheme : Scheme := [].

(** Whole numbers as quantities. *)
#[local] Instance wholeQuantities : Quantities := {
  Quantity := Z;
  ParseQuantity raw := match Rollout.Parse.ParseInt raw 64 with Ok n => Some n | Err _ => None end;
  MilliValue q := (1000 * q)%Z;
  Value q := q;
  QuantityString := Itoa;
  QuantityCmp q r := (q - r)%Z;
}.

Definition described (group resource kind : string) : ResourceDescriptor := MkResourceDescriptor group "v1" resource kind true "".

Definition meta (name : string) : string * any := ("metadata", AMap [("name", AString name); ("namespace", AString "shop")]).

Definition examplePodOf (account : string) : Doc :=
  MkDoc [("apiVersion", AString "v1"); ("kind", AString "Pod"); meta "web";
         ("spec", AMap [("serviceAccountName", AString account); ("containers", ASlice [])])].

(** An audit of everything over some items, of which some kinds were refused. *)
Definition exampleAudit (items : list (held Doc)) (unread : list target) : scan (U := Doc) :=
  MkScan (subjectsOf items) ∅ (newCorpus items [] [] allTargets unread ∅) (MkFacts "" [] []) (Pss.newUpstreamScan "") false true.

Definition webWithAccount : list (held Doc) := [MkHeld (described "" "pods" "Pod") (examplePodOf "robot")].

Lemma rules_tell_of_what_was_read_witness :
  let sc := exampleAudit webWithAccount [] in
  exists entry, entry ∈ registry (U := Doc) /\ c_id entry = "service-account-missing" /\
  map f_detail (findings entry sc) = ["serviceAccountName is robot, which this namespace does not have"] /\
  findings entry sc ≡ₚ
  findings entry (with_read sc (newCorpus (webWithAccount ++ [MkHeld (described "" "services" "Service") (examplePodOf "")]) [] [] allTargets [] ∅) ∅).
Proof.
  cbn zeta. set (entry := needing [accountTarget] (Registry.entry (U := Doc) "service-account-missing" "Names a ServiceAccount that does not exist"
    categoryReliability severityHigh
    "The pod cannot be admitted until the account exists, so the controller creates it and gets nothing back."
    "Create the ServiceAccount, or point serviceAccountName at one that is there." (overFacts serviceAccountMissing))).
  assert (entry ∈ registry (U := Doc)) as He by (apply (list_elem_of_lookup_2 _ 77); reflexivity).
  exists entry. split; [exact He |]. split; [reflexivity |]. split; [vm_compute; reflexivity |].
  pose proof (rules_tell_of_what_was_read entry (exampleAudit webWithAccount []) webWithAccount [] [] allTargets [] ∅ He eq_refl) as H.
  assert (standsDown entry (exampleAudit webWithAccount []) = "") as Hs by (vm_compute; reflexivity).
  destruct (H Hs) as (_ & _ & Hf). apply Hf.
  - intros r Hr. cbn in Hr. apply list_elem_of_singleton in Hr as ->. split; vm_compute; reflexivity.
  - discriminate.
  - discriminate.
Defined.

(** ** What modelling showed *)

(** A budget that keeps half of its pods is told to set neither bound: a
    percentage is a string. *)
Theorem percentage_budget_says_nothing :
  budgetSaysNothing (MkDoc [("kind", AString "PodDisruptionBudget"); meta "half"; ("spec", AMap [("minAvailable", AString "50%")])]) =
  "neither minAvailable nor maxUnavailable is set".
Proof. by vm_compute. Qed.

(** The share spent of a quota of 100Ti, of which 95Ti are, wraps around. *)
Theorem quota_share_wraps {Qu : Quantities} spent ceiling :
  MilliValue spent = (95 * 2 ^ 40 * 1000)%Z -> MilliValue ceiling = (100 * 2 ^ 40 * 1000)%Z -> (percentOf spent ceiling < 0)%Z.
Proof. intros Hs Hc. unfold percentOf. rewrite Hs, Hc. by vm_compute. Qed.

(** A rule for a group of its own is said to read every Secret. *)
Theorem any_group_reads_secrets :
  readSecrets (MkRule ["get"] ["*"] ["metrics.k8s.io"] []) = "reads every Secret it can reach".
Proof. by vm_compute. Qed.

(** Two warnings that name nothing are findings with one key: the second is
    counted, and no page shows it when the first one ends the first page. *)
Definition warned (warnings : list string) : scan (U := Doc) :=
  MkScan [] ∅ (newCorpus [] [] [] allTargets [] ∅) (MkFacts "" [] warnings) (Pss.newUpstreamScan "") false true.

#[local] Existing Instance Checks.exampleJudge.

Theorem repeated_warning_lost :
  let sc := warned ["the first"; "the second"] in
  let keep := Checks.exampleFilter None in
  let report := Run registry sc [] keep 1 None in
  exists g, List.find (fun g => bool_decide (cg_ID g = "apiserver-says-deprecated")) (cr_Groups report) = Some g /\
  cg_Total g = 2%Z /\ map cf_Detail (cg_Findings g) = ["the first"] /\
  Page registry sc "apiserver-says-deprecated" (cg_Next g) keep 1 = Some (MkCheckPage [] [] "").
Proof. cbn zeta. eexists. split; [vm_compute; reflexivity |]. split; [reflexivity |]. split; [reflexivity | vm_compute; reflexivity]. Qed.

(** With the pods refused, a claim is still said to be one no pod mounts. *)
Theorem claim_judged_without_pods :
  let claim := MkHeld (described "" "persistentvolumeclaims" "PersistentVolumeClaim")
    (MkDoc [("kind", AString "PersistentVolumeClaim"); meta "data"]) in
  let sc := exampleAudit [claim] (map (MkTarget "") ["pods"; "replicationcontrollers"]) in
  exists entry, entry ∈ registry (U := Doc) /\ c_id entry = "claim-nothing-mounts" /\ standsDown entry sc = "" /\
  map f_detail (findings entry sc) = ["no pod in this cluster mounts this claim"].
Proof.
  cbn zeta. destruct (registry (U := Doc) !! 95) as [entry |] eqn:E; [| discriminate].
  exists entry. split; [by eapply list_elem_of_lookup_2 |]. cbn in E. injection E as <-.
  split; [reflexivity |]. split; vm_compute; reflexivity.
Qed.
End Registry.
