(* ===== verification/Logs.v ===== *)
(** internal/logs: following the logs of one pod and of every pod a selector
    matches.  The goroutines that read a pod, relay its lines and look for new
    pods are the positions of a state; lists, answers and lines of the API
    server are events. *)

From S2P Require Import Prelude Text Kube Respond.

(** What is read of a [corev1.Pod]. *)
Record Pod := MkPod { po_Name : string; po_UID : string; po_Annotations : gmap string string; po_Containers : list string }.

Module Logs.
Import Text.

Definition maxPods : Z := 20.
Definition tailBudget : Z := 5000.
Definition minTail : Z := 50.
Definition lineBuffer : Z := 256.
Definition defaultContainer : string := "kubectl.kubernetes.io/default-container".

Record Request := MkRequest {
  rq_Namespace : string;
  rq_Name : string;
  rq_Container : string;
  rq_TailLines : Z;
  rq_Follow : bool;
  rq_Selector : string;
}.

Record Line := MkLine { l_Pod : string; l_Text : string }.

(** ** Pods *)

Record podRef := MkPodRef { pr_name : string; pr_container : string; pr_identity : string }.

Definition key (p : podRef) : string := if bool_decide (pr_identity p <> "") then pr_identity p else pr_name p.

Definition containerOf (pod : Pod) : string :=
  let wanted := default "" (po_Annotations pod !! defaultContainer) in
  if bool_decide (wanted <> "") then wanted
  else match po_Containers pod with first :: _ :: _ => first | _ => "" end.

Definition podsMatching (listed : list Pod) : list podRef * Z :=
  let found := sort_by (cmp_on pr_name str_compare) (map (fun pod => MkPodRef (po_Name pod) (containerOf pod) (po_UID pod)) listed) in
  (if (zlen found <=? maxPods)%Z then found else ztake maxPods found, zlen found).

Definition share (tail pods : Z) : Z :=
  if (tail <=? 0)%Z || (pods <? 2)%Z then tail
  else let each := Z.max (Z.quot tailBudget pods) minTail in if (tail <? each)%Z then tail else each.

(** The options a pod's logs are asked for with: the container, whether to
    follow and how many lines of the tail. *)
Definition optionsFor (req : Request) : string * bool * option Z :=
  (rq_Container req, rq_Follow req, if (0 <? rq_TailLines req)%Z then Some (rq_TailLines req) else None).

(** The request [attach] makes for one pod of many. *)
Definition oneOf (req : Request) (pod : podRef) : Request :=
  MkRequest (rq_Namespace req) (pr_name pod)
    (if bool_decide (rq_Container req = "") then pr_container pod else rq_Container req) (rq_TailLines req) (rq_Follow req) "".

Definition permanent (err : option Respond.error) : bool :=
  match err with
  | None => false
  | Some e => Respond.IsKube e Respond.Forbidden || Respond.IsKube e Respond.Unauthorized || Respond.IsKube e Respond.NotFound
  end.

Definition namesOf (pods : list podRef) : list string := map key pods.

(** ** Attachments: the pods that are read and those that were *)

Record attachments := MkAttachments { open_ : gset string; seen : gset string }.

Definition newAttachments : attachments := MkAttachments ∅ ∅.

Definition claim (a : attachments) (name : string) : attachments * bool :=
  if bool_decide (name ∈ seen a) then (a, false) else (MkAttachments ({[ name ]} ∪ open_ a) ({[ name ]} ∪ seen a), true).

Definition release (a : attachments) (name : string) : attachments := MkAttachments (open_ a ∖ {[ name ]}) (seen a).

Definition forget (a : attachments) (name : string) : attachments := MkAttachments (open_ a ∖ {[ name ]}) (seen a ∖ {[ name ]}).

Definition forgetGone (a : attachments) (present : list string) : attachments :=
  MkAttachments (open_ a) (filter (fun name => name ∈ present \/ name ∈ open_ a) (seen a)).

Definition count (a : attachments) : Z := Z.of_nat (size (open_ a)).

(** ** The goroutines *)

(** [openOne]'s: it reads lines and offers each to the channel of its stream. *)
Inductive pump := Scanning | Offering (text : string) | Ended.

(** [attach]'s: it takes lines from that channel and sends them on; it leaves
    when the channel is closed, and abandons the pod when all is cancelled. *)
Inductive relay := Receiving | Sending (text : string) | Left | Abandoned.

#[export] Instance pump_eq_dec : EqDecision pump.
Proof. solve_decision. Defined.
#[export] Instance relay_eq_dec : EqDecision relay.
Proof. solve_decision. Defined.

(** A pod that is read; [rd_scanned] is all its log gave. *)
Record reader := MkReader {
  rd_pod : podRef;
  rd_pump : pump;
  rd_channel : list string;
  rd_err : option Respond.error;
  rd_relay : relay;
  rd_scanned : list string;
}.

(** [openMany], then the goroutine that watches and waits: the pods still to
    attach to, of the first list or of a refresh, the answer it waits for, the
    next tick, the readers to end. *)
Inductive place :=
| Attaching (first : bool) (matched : Z) (rest : list podRef)
| Calling (first : bool) (matched : Z) (pod : podRef) (rest : list podRef)
| Ticking
| Draining
| Closed
| Failed (err : option Respond.error).

Record state := MkState {
  held : attachments;
  readers : list reader;
  merged : list (nat * Line);
  received : list (nat * Line);
  cancelled : bool;
  err : option Respond.error;
  counts : Z * Z;
  main : place;
  opened : Z;
  refused : option Respond.error;
  panicked : bool;
}.

Definition with_main (s : state) (main : place) : state :=
  MkState (held s) (readers s) (merged s) (received s) (cancelled s) (err s) (counts s) main (opened s) (refused s) (panicked s).
Definition with_held (s : state) (held : attachments) : state :=
  MkState held (readers s) (merged s) (received s) (cancelled s) (err s) (counts s) (main s) (opened s) (refused s) (panicked s).
Definition with_readers (s : state) (readers : list reader) : state :=
  MkState (held s) readers (merged s) (received s) (cancelled s) (err s) (counts s) (main s) (opened s) (refused s) (panicked s).
Definition setCounts (s : state) (attached matched : Z) : state :=
  MkState (held s) (readers s) (merged s) (received s) (cancelled s) (err s) (attached, matched) (main s) (opened s) (refused s) (panicked s).
Definition with_opened (s : state) (opened : Z) (refused : option Respond.error) : state :=
  MkState (held s) (readers s) (merged s) (received s) (cancelled s) (err s) (counts s) (main s) opened refused (panicked s).
Definition cancel (s : state) : state :=
  MkState (held s) (readers s) (merged s) (received s) true (err s) (counts s) (main s) (opened s) (refused s) (panicked s).

(** The first error stays. *)
Definition fail (s : state) (e : option Respond.error) : state :=
  MkState (held s) (readers s) (merged s) (received s) (cancelled s) (match err s with Some _ => err s | None => e end) (counts s)
    (main s) (opened s) (refused s) (panicked s).

(** [fmt.Errorf("...: %w", e)] *)
Definition wrapped (text : string) (e : Respond.error) : Respond.error :=
  Respond.MkError (text +s+ ": " +s+ Respond.e_text e) (Respond.e_is e) (Respond.e_kube e).

Definition logsFor (pod : podRef) (e : Respond.error) : Respond.error := wrapped ("logs for " +s+ pr_name pod) e.

(** [openMany] up to the first pod: the request that is made for each of them
    has its share of the tail. *)
Definition openMany (req : Request) (listed : result Respond.error (list Pod)) : result Respond.error (Request * state) :=
  match listed with
  | Err e => Err e
  | Ok pods =>
      let '(names, matched) := podsMatching pods in
      if (zlen names =? 0)%Z then Err (Respond.New ("no pods match " +s+ rq_Selector req +s+ " in " +s+ rq_Namespace req))
      else
        Ok (MkRequest (rq_Namespace req) (rq_Name req) (rq_Container req) (share (rq_TailLines req) (zlen names)) (rq_Follow req)
              (rq_Selector req),
            MkState newAttachments [] [] [] false None (0, 0)%Z (Attaching true matched names) 0 None false)
  end.

Inductive event :=
| Cancel                                       (* Close, or the context ends *)
| Attach                                       (* the next pod of the list *)
| Answered (answer : option Respond.error)     (* the API server to openOne *)
| Tick (listed : result Respond.error (list Pod))
| Stop                                         (* watch returns *)
| Waited                                       (* wg.Wait returns, the channel is closed *)
| Scan (i : nat) (text : string)
| Eof (i : nat) (e : option Respond.error)
| Offer (i : nat)
| Halt (i : nat)                               (* the pump sees its context end *)
| Receive (i : nat)
| Send (i : nat)
| Finish (i : nat)
| Quit (i : nat)                               (* the relay sees the context end *)
| Take.                                        (* whoever reads the merged lines *)

Definition at_reader (s : state) (i : nat) (r : reader) : state := with_readers s (<[i := r]> (readers s)).

Definition gone (r : reader) : bool := bool_decide (rd_relay r = Left) || bool_decide (rd_relay r = Abandoned).

(** The context of a pod's stream has ended. *)
Definition ended (s : state) (r : reader) : bool := cancelled s || gone r.

Definition isClosed (s : state) : bool := match main s with Closed => true | _ => false end.

Section logs.
Context (req : Request).

Definition attach (s : state) : option state :=
  match main s with
  | Attaching true matched [] =>
      if (opened s =? 0)%Z && (negb (rq_Follow req) || permanent (refused s)) then Some (with_main (cancel s) (Failed (refused s)))
      else Some (with_main (setCounts s (opened s) matched) (if rq_Follow req then Ticking else Draining))
  | Attaching false matched [] => Some (with_main (setCounts s (count (held s)) matched) Ticking)
  | Attaching first matched (pod :: rest) =>
      if negb first && (maxPods <=? count (held s))%Z then Some (with_main (setCounts s (count (held s)) matched) Ticking)
      else
        match claim (held s) (key pod) with
        | (_, false) =>
            Some (with_main (if first then with_opened s (opened s + 1) (refused s) else s) (Attaching first matched rest))
        | (held, true) => Some (with_main (with_held s held) (Calling first matched pod rest))
        end
  | _ => None
  end.

Definition answered (s : state) (answer : option Respond.error) : option state :=
  match main s with
  | Calling first matched pod rest =>
      match answer with
      | Some e =>
          let s := fail (with_held s (forget (held s) (key pod))) (Some (logsFor pod e)) in
          Some (with_main (if first then with_opened s (opened s) (Some e) else s) (Attaching first matched rest))
      | None =>
          let s := with_readers s (readers s ++ [MkReader pod Scanning [] None Receiving []]) in
          Some (with_main (if first then with_opened s (opened s + 1) (refused s) else s) (Attaching first matched rest))
      end
  | _ => None
  end.

Definition watch (s : state) (listed : result Respond.error (list Pod)) : option state :=
  match main s with
  | Ticking =>
      match listed with
      | Err e =>
          Some (fail s (Some (wrapped ("refresh pods matching " +s+ rq_Selector req +s+ " in " +s+ rq_Namespace req) e)))
      | Ok pods =>
          let '(fresh, matched) := podsMatching pods in
          Some (with_main (with_held s (forgetGone (held s) (namesOf fresh))) (Attaching false matched fresh))
      end
  | _ => None
  end.

(** [openOne]'s goroutine and [pump]. *)
Definition pumped (s : state) (e : event) (r : reader) : option reader :=
  match e, rd_pump r with
  | Scan _ text, Scanning =>
      Some (MkReader (rd_pod r) (Offering text) (rd_channel r) (rd_err r) (rd_relay r) (rd_scanned r ++ [text]))
  | Eof _ e, Scanning =>
      Some (MkReader (rd_pod r) Ended (rd_channel r) (if ended s r then rd_err r else e) (rd_relay r) (rd_scanned r))
  | Offer _, Offering text =>
      if (zlen (rd_channel r) <? lineBuffer)%Z then
        Some (MkReader (rd_pod r) Scanning (rd_channel r ++ [text]) (rd_err r) (rd_relay r) (rd_scanned r))
      else None
  | Halt _, Offering _ =>
      if ended s r then Some (MkReader (rd_pod r) Ended (rd_channel r) (rd_err r) (rd_relay r) (rd_scanned r)) else None
  | _, _ => None
  end.

Definition relayed (r : reader) (channel : list string) (relay : relay) : reader :=
  MkReader (rd_pod r) (rd_pump r) channel (rd_err r) relay (rd_scanned r).

(** The goroutine of [attach]. *)
Definition relays (s : state) (i : nat) (e : event) (r : reader) : option state :=
  match e, rd_relay r with
  | Receive _, Receiving =>
      match rd_channel r with
      | text :: rest => Some (at_reader s i (relayed r rest (Sending text)))
      | [] => None
      end
  | Send _, Sending text =>
      if (zlen (merged s) <? lineBuffer * 2)%Z then
        let s := at_reader s i (relayed r (rd_channel r) Receiving) in
        Some (MkState (held s) (readers s) (merged s ++ [(i, MkLine (pr_name (rd_pod r)) text)]) (received s) (cancelled s) (err s)
                (counts s) (main s) (opened s) (refused s) (panicked s || isClosed s))
      else None
  | Quit _, Sending _ => if cancelled s then Some (at_reader s i (relayed r (rd_channel r) Abandoned)) else None
  | Finish _, Receiving =>
      match rd_channel r, rd_pump r with
      | [], Ended =>
          let s' := at_reader s i (relayed r [] Left) in
          match rd_err r with
          | Some e =>
              if cancelled s then Some (with_held s' (release (held s) (key (rd_pod r))))
              else Some (fail (with_held s' (forget (held s) (key (rd_pod r)))) (Some (logsFor (rd_pod r) e)))
          | None => Some (with_held s' (release (held s) (key (rd_pod r))))
          end
      | _, _ => None
      end
  | _, _ => None
  end.

Definition step (s : state) (e : event) : option state :=
  match e with
  | Cancel => Some (cancel s)
  | Attach => attach s
  | Answered answer => answered s answer
  | Tick listed => watch s listed
  | Stop => match main s with Ticking => if cancelled s then Some (with_main s Draining) else None | _ => None end
  | Waited => match main s with Draining => if forallb gone (readers s) then Some (with_main s Closed) else None | _ => None end
  | Take =>
      match merged s with
      | line :: rest =>
          Some (MkState (held s) (readers s) rest (received s ++ [line]) (cancelled s) (err s) (counts s) (main s) (opened s)
                  (refused s) (panicked s))
      | [] => None
      end
  | Scan i _ | Eof i _ | Offer i | Halt i => r ← readers s !! i; r' ← pumped s e r; Some (at_reader s i r')
  | Receive i | Send i | Finish i | Quit i => r ← readers s !! i; relays s i e r
  end.

Fixpoint runs (s : state) (l : list event) : option state :=
  match l with [] => Some s | e :: l => s ← step s e; runs s l end.

(** ** What the goroutines keep *)

(** The key of a reader that holds its attachment. *)
Definition keyOf (r : reader) : option string := if bool_decide (rd_relay r = Left) then None else Some (key (rd_pod r)).

Definition calling (m : place) : list string := match m with Calling _ _ pod _ => [key pod] | _ => [] end.

Definition keys (s : state) : list string := calling (main s) ++ omap keyOf (readers s).

(** What a reader has of its pod's log and has not sent. *)
Definition flow (r : reader) : list string :=
  (match rd_relay r with Sending text => [text] | _ => [] end) ++ rd_channel r ++
  (match rd_pump r with Offering text => [text] | _ => [] end).

Definition texts (i : nat) (lines : list (nat * Line)) : list string :=
  omap (fun '(j, line) => if bool_decide (j = i) then Some (l_Text line) else None) lines.

(** The lines that were sent on for reader [i]. *)
Definition sent (s : state) (i : nat) : list string := texts i (received s ++ merged s).

Definition read_ok (over : bool) (sent : list string) (r : reader) : Prop :=
  if bool_decide (rd_relay r = Abandoned) then over = true /\ sent `prefix_of` rd_scanned r
  else
    (sent ++ flow r = rd_scanned r \/ over = true /\ rd_pump r = Ended /\ sent ++ flow r `prefix_of` rd_scanned r) /\
    (rd_relay r = Left -> rd_pump r = Ended /\ rd_channel r = []).

Definition to_attach (m : place) : list podRef :=
  match m with Attaching true _ rest | Calling true _ _ rest => rest | _ => [] end.

Definition starting (m : place) : bool := match m with Attaching true _ _ | Calling true _ _ _ => true | _ => false end.

(** Why a name was seen. *)
Definition read_to_its_end (s : state) (name : string) : Prop :=
  exists r, r ∈ readers s /\ key (rd_pod r) = name /\ rd_relay r = Left /\ (rd_err r = None \/ cancelled s = true).

Record invariant (s : state) : Prop := {
  inv_keys : NoDup (keys s);
  inv_open : forall k, k ∈ open_ (held s) <-> k ∈ keys s;
  inv_seen : open_ (held s) ⊆ seen (held s);
  inv_why : forall k, k ∈ seen (held s) -> k ∈ open_ (held s) \/ read_to_its_end s k;
  inv_bound : (count (held s) + zlen (to_attach (main s)) <= maxPods)%Z;
  inv_read : forall i r, readers s !! i = Some r -> read_ok (cancelled s) (sent s i) r;
  inv_lines : forall i line, (i, line) ∈ received s ++ merged s -> exists r, readers s !! i = Some r /\ l_Pod line = pr_name (rd_pod r);
  inv_merged : (zlen (merged s) <= lineBuffer * 2)%Z;
  inv_channels : Forall (fun r => (zlen (rd_channel r) <= lineBuffer)%Z) (readers s);
  inv_opened : (0 <= opened s)%Z /\ (starting (main s) = true -> (zlen (readers s) <= opened s)%Z);
  inv_failed : (match main s with Failed _ => true | _ => false end = true -> readers s = []);
  inv_closed : isClosed s = true -> forallb gone (readers s) = true;
  inv_panicked : panicked s = false;
}.

Lemma insert_at {A} (l : list A) i x y : l !! i = Some x -> exists l1 l2, l = l1 ++ x :: l2 /\ <[i := y]> l = l1 ++ y :: l2.
Proof.
  intros H. exists (take i l), (drop (S i) l). split; [symmetry; by apply take_drop_middle |].
  rewrite insert_take_drop; [done | by eapply lookup_lt_Some].
Qed.

Lemma keyOf_keys (rs : list reader) i r r' : rs !! i = Some r -> keyOf r' = keyOf r -> omap keyOf (<[i := r']> rs) = omap keyOf rs.
Proof. intros H Hk. destruct (insert_at rs i r r' H) as (l1 & l2 & -> & ->). by rewrite !omap_app; cbn; rewrite Hk. Qed.

Lemma gone_insert (rs : list reader) i r r' : rs !! i = Some r -> (gone r = true -> gone r' = true) -> forallb gone rs = true -> forallb gone (<[i := r']> rs) = true.
Proof.
  intros H Hg. destruct (insert_at rs i r r' H) as (l1 & l2 & -> & ->). rewrite !forallb_app. cbn.
  intros [H1 [H2 H3]%andb_prop]%andb_prop. by rewrite H1, (Hg H2), H3.
Qed.

Definition holding (s s' : state) (r r' : reader) : Prop :=
  rd_relay r' <> Left /\ held s' = held s \/
  rd_relay r' = Left /\ held s' = release (held s) (key (rd_pod r)) /\ (rd_err r' = None \/ cancelled s = true) \/
  rd_relay r' = Left /\ held s' = forget (held s) (key (rd_pod r)).

Lemma holding_keys s s' i r r' :
  invariant s -> readers s !! i = Some r -> readers s' = <[i := r']> (readers s) -> main s' = main s ->
  rd_relay r <> Left -> rd_pod r' = rd_pod r -> holding s s' r r' ->
  NoDup (keys s') /\ (forall k, k ∈ open_ (held s') <-> k ∈ keys s') /\ open_ (held s') ⊆ open_ (held s).
Proof.
  intros [] Hr Hrs Hm Hl Hp Hh. unfold keys in *. rewrite Hrs, Hm. destruct (insert_at _ i r r' Hr) as (l1 & l2 & H1 & ->).
  assert (keyOf r = Some (key (rd_pod r))) as Hkr by (unfold keyOf; by rewrite bool_decide_eq_false_2).
  rewrite H1, omap_app in inv_keys0. rewrite H1, omap_app in inv_open0. rewrite omap_app. cbn in *. rewrite Hkr in inv_keys0, inv_open0.
  assert (Hgone : rd_relay r' = Left -> open_ (held s') = open_ (held s) ∖ {[ key (rd_pod r) ]} ->
    NoDup (calling (main s) ++ omap keyOf l1 ++ omap keyOf l2) /\
    (forall k, k ∈ open_ (held s') <-> k ∈ calling (main s) ++ omap keyOf l1 ++ omap keyOf l2) /\ open_ (held s') ⊆ open_ (held s)).
  { intros _ ->. rewrite app_assoc in inv_keys0. apply list.NoDup_app in inv_keys0 as (N1 & N2 & [N3 N4]%list.NoDup_cons).
    rewrite app_assoc. split; [apply list.NoDup_app; split; [done |]; split; [| done]; intros x Hx Hx2; by apply (N2 x Hx), list_elem_of_further |].
    split; [| set_solver]. intros k. specialize (inv_open0 k). rewrite app_assoc in inv_open0.
    rewrite elem_of_app, elem_of_cons in inv_open0. rewrite elem_of_app. rewrite elem_of_difference, elem_of_singleton.
    split; [intros [Hk Hne]; apply inv_open0 in Hk; naive_solver |].
    intros Hk. split; [apply inv_open0; naive_solver |]. intros ->. destruct Hk as [Hk | Hk]; [| done].
    apply (N2 _ Hk). apply list_elem_of_here. }
  destruct Hh as [[Hl' ->] | [(Hl' & Hh & _) | [Hl' Hh]]].
  - assert (keyOf r' = Some (key (rd_pod r))) as -> by (unfold keyOf; by rewrite bool_decide_eq_false_2, Hp). done.
  - assert (keyOf r' = None) as -> by (unfold keyOf; by rewrite bool_decide_eq_true_2). apply Hgone; [done |]. by rewrite Hh.
  - assert (keyOf r' = None) as -> by (unfold keyOf; by rewrite bool_decide_eq_true_2). apply Hgone; [done |]. by rewrite Hh.
Qed.

Lemma holding_why s s' i r r' :
  invariant s -> readers s !! i = Some r -> readers s' = <[i := r']> (readers s) -> cancelled s' = cancelled s ->
  rd_relay r <> Left -> rd_pod r' = rd_pod r -> holding s s' r r' -> forall k, k ∈ seen (held s') -> k ∈ open_ (held s') \/ read_to_its_end s' k.
Proof.
  intros [] Hr Hrs Hc Hl Hp Hh k. assert (i < length (readers s)) as Hlt by (by eapply lookup_lt_Some).
  assert (forall k, read_to_its_end s k -> read_to_its_end s' k) as Hend.
  { intros k' (x & [j Hj]%list_elem_of_lookup_1 & Hx). exists x. rewrite Hrs, Hc. split; [| done].
    apply list_elem_of_lookup_2 with j. rewrite list_lookup_insert_ne; [done |]. intros ->. destruct Hx as (_ & Hx & _). congruence. }
  intros Hk. destruct Hh as [[Hl' Hh] | [(Hl' & Hh & He) | [Hl' Hh]]]; rewrite Hh in *; cbn in *.
  - destruct (inv_why0 k Hk); auto.
  - destruct (decide (k = key (rd_pod r))) as [-> | Hne].
    + right. exists r'. rewrite Hrs, Hc, Hp. split; [| done]. by apply list_elem_of_lookup_2 with i, list_lookup_insert_eq.
    + destruct (inv_why0 k Hk); [left; set_solver | auto].
  - destruct (inv_why0 k) as [Ho | Ho]; [set_solver | left; set_solver | auto].
Qed.

(** A reader takes a step and keeps or gives up its attachment. *)
Lemma reader_moves s s' i r r' :
  invariant s -> readers s !! i = Some r -> readers s' = <[i := r']> (readers s) -> cancelled s' = cancelled s -> main s' = main s ->
  opened s' = opened s -> panicked s' = false -> rd_relay r <> Left -> rd_pod r' = rd_pod r -> holding s s' r r' ->
  (gone r = true -> gone r' = true) -> (zlen (rd_channel r') <= lineBuffer)%Z -> (zlen (merged s') <= lineBuffer * 2)%Z ->
  (forall line, line ∈ received s' ++ merged s' -> line ∈ received s ++ merged s \/ fst line = i /\ l_Pod (snd line) = pr_name (rd_pod r)) ->
  (forall j, j <> i -> sent s' j = sent s j) -> read_ok (cancelled s) (sent s' i) r' ->
  invariant s'.
Proof.
  intros Hinv Hr Hrs Hcn Hm Ho Hpn Hl Hp Hh Hg Hc Hmb Hli Hse Hok.
  destruct (holding_keys s s' i r r') as (K1 & K2 & K3); try done. pose proof (holding_why s s' i r r' Hinv Hr Hrs Hcn Hl Hp Hh) as Kw.
  destruct Hinv. assert (i < length (readers s)) as Hlt by (by eapply lookup_lt_Some).
  constructor; try done; rewrite ?Hm, ?Hcn, ?Ho, ?Hrs; try done.
  - destruct Hh as [[_ ->] | [(_ & -> & _) | [_ ->]]]; cbn; set_solver.
  - apply subseteq_size in K3. unfold count in *. lia.
  - intros j x Hj. destruct (decide (j = i)) as [-> | Hne].
    + rewrite list_lookup_insert_eq in Hj by done. by injection Hj as <-.
    + rewrite list_lookup_insert_ne in Hj by done. rewrite Hse by done. by apply inv_read0.
  - intros j line Hj. destruct (Hli _ Hj) as [Hj' | [Hji Hpod]].
    + destruct (inv_lines0 j line Hj') as (x & Hx & Hx2). destruct (decide (j = i)) as [-> | Hne].
      * exists r'. rewrite list_lookup_insert_eq by done. split; [done |]. rewrite Hp. by replace r with x by congruence.
      * exists x. by rewrite list_lookup_insert_ne.
    + cbn in Hji, Hpod. subst j. exists r'. rewrite list_lookup_insert_eq by done. by rewrite Hp.
  - by apply list.Forall_insert.
  - unfold zlen in *. by rewrite length_insert.
  - intros Hf. rewrite (inv_failed0 Hf) in Hlt. cbn in Hlt. lia.
  - unfold isClosed. rewrite Hm. intros Hcl. eapply gone_insert; eauto.
Qed.

(** The branch of a step that was taken. *)
Ltac taken H :=
  repeat match type of H with match ?x with _ => _ end = Some _ => destruct x eqn:?; try discriminate H end.

Lemma pumped_ok s e r r' sent_ :
  pumped s e r = Some r' -> read_ok (cancelled s) sent_ r -> (zlen (rd_channel r) <= lineBuffer)%Z ->
  rd_relay r' = rd_relay r /\ rd_pod r' = rd_pod r /\ rd_relay r <> Left /\ (zlen (rd_channel r') <= lineBuffer)%Z /\ read_ok (cancelled s) sent_ r'.
Proof.
  unfold read_ok. intros Hp Hok Hch.
  assert (rd_relay r' = rd_relay r /\ rd_pod r' = rd_pod r /\ rd_pump r <> Ended) as (Hr & Hpod & Hne)
    by (clear Hok; unfold pumped in Hp; destruct e; try done; taken Hp; injection Hp as <-; cbn; repeat split; congruence).
  assert (rd_relay r <> Left) as Hl by (intros Hl; rewrite Hl in Hok; cbn in Hok; destruct Hok as [_ Hok]; by destruct (Hok eq_refl)).
  rewrite Hr. split; [done |]. split; [done |]. split; [done |].
  assert (rd_relay r <> Abandoned -> sent_ ++ flow r = rd_scanned r) as Hflow.
  { intros Ha. rewrite bool_decide_eq_false_2 in Hok by done. by destruct Hok as [[Hf | (_ & Hf & _)] _]. }
  assert (zlen (rd_channel r') <= lineBuffer)%Z as Hch'.
  { clear Hok Hflow. unfold pumped in Hp; destruct e; try done; taken Hp; injection Hp as <-; cbn; try done.
    unfold zlen in *. rewrite length_app. cbn. lia. }
  split; [done |]. case_bool_decide as Ha.
  - destruct Hok as [Ho Hpre]. split; [done |].
    unfold pumped in Hp; destruct e; try done; taken Hp; injection Hp as <-; cbn; try done. by apply prefix_app_r.
  - specialize (Hflow Ha). clear Hok. split; [| done]. unfold flow in *. rewrite Hr.
    unfold pumped in Hp; destruct e; try done; taken Hp; injection Hp as <-; cbn [rd_relay rd_channel rd_pump rd_scanned] in *;
      rewrite <- ?Hflow, ?app_nil_r, <- ?app_assoc; auto.
    right. unfold ended, gone in *. rewrite !bool_decide_eq_false_2 in Heqb by done. rewrite orb_false_r in Heqb.
    split; [done |]. split; [done |]. rewrite !app_assoc. by apply prefix_app_r.
Qed.

Lemma pump_step s e i r r' : invariant s -> readers s !! i = Some r -> pumped s e r = Some r' -> invariant (at_reader s i r').
Proof.
  intros Hinv Hr Hp. pose proof Hinv as [].
  destruct (pumped_ok s e r r' (sent s i) Hp) as (H1 & H2 & H3 & H4 & H5);
    [by apply inv_read0 | by apply (list.Forall_lookup_1 _ _ i r inv_channels0) |].
  apply (reader_moves s _ i r r'); try done; [left; split; [by rewrite H1 | done] | by unfold gone; rewrite H1 | by intros line; left].
Qed.

Lemma texts_app i l1 l2 : texts i (l1 ++ l2) = texts i l1 ++ texts i l2.
Proof. apply omap_app. Qed.

Lemma texts_one j i line : texts j [(i, line)] = if bool_decide (i = j) then [l_Text line] else [].
Proof. unfold texts. cbn -[bool_decide]. by case_bool_decide. Qed.

Lemma texts_nil i l : (forall line, (i, line) ∉ l) -> texts i l = [].
Proof.
  induction l as [| [j line] l IH]; [done |]. intros Hl. change ((j, line) :: l) with ([(j, line)] ++ l).
  rewrite texts_app, texts_one, bool_decide_eq_false_2; [| intros ->; apply (Hl line), list_elem_of_here].
  apply IH. intros line' Hin. by apply (Hl line'), list_elem_of_further.
Qed.

(** A reader that has not left still has all its pod's log gave, or all is
    cancelled. *)
Lemma relaying s i r :
  invariant s -> readers s !! i = Some r -> gone r = false ->
  rd_relay r <> Left /\
  (sent s i ++ flow r = rd_scanned r \/ cancelled s = true /\ rd_pump r = Ended /\ sent s i ++ flow r `prefix_of` rd_scanned r).
Proof.
  intros [] Hr [Hl Ha]%orb_false_elim. apply bool_decide_eq_false_1 in Hl, Ha. split; [done |].
  specialize (inv_read0 i r Hr). unfold read_ok in inv_read0. rewrite bool_decide_eq_false_2 in inv_read0 by done. apply inv_read0.
Qed.

Lemma relayed_ok over sent_ r channel relay :
  relay <> Left -> relay <> Abandoned -> flow (relayed r channel relay) = flow r ->
  (sent_ ++ flow r = rd_scanned r \/ over = true /\ rd_pump r = Ended /\ sent_ ++ flow r `prefix_of` rd_scanned r) ->
  read_ok over sent_ (relayed r channel relay).
Proof. intros H1 H2 Hf Hr. unfold read_ok. rewrite Hf. cbn. rewrite bool_decide_eq_false_2 by done. by split. Qed.

Lemma not_closed s i r : invariant s -> readers s !! i = Some r -> gone r = false -> isClosed s = false.
Proof.
  intros [] Hr Hg. destruct (isClosed s) eqn:E; [| done]. specialize (inv_closed0 eq_refl). rewrite forallb_forall in inv_closed0.
  by rewrite (inv_closed0 r) in Hg by (by eapply list_elem_of_In, list_elem_of_lookup_2).
Qed.

Lemma relay_step s e i r s' : invariant s -> readers s !! i = Some r -> relays s i e r = Some s' -> invariant s'.
Proof.
  intros Hinv Hr Hs. pose proof Hinv as []. pose proof (list.Forall_lookup_1 _ _ i r inv_channels0 Hr) as Hch. cbn in Hch.
  assert (gone r = false) as Hg.
  { unfold gone, relays in *. destruct (rd_relay r); try done; by destruct e. }
  destruct (relaying s i r Hinv Hr Hg) as [Hl Hf]. unfold relays in Hs. destruct e; try done.
  - taken Hs. injection Hs as <-. apply (reader_moves s _ i r (relayed r l (Sending s0))); try done.
    + congruence.
    + by left.
    + by rewrite Hg.
    + cbn. unfold zlen in *. cbn in Hch. lia.
    + by intros line; left.
    + apply relayed_ok; try done. unfold flow. cbn. by rewrite Heql, Heqr0.
  - taken Hs. injection Hs as <-. apply Z.ltb_lt in Heqb.
    apply (reader_moves s _ i r (relayed r (rd_channel r) Receiving)); try done.
    + cbn. rewrite inv_panicked0. by apply (not_closed s i r).
    + congruence.
    + by left.
    + by rewrite Hg.
    + cbn. unfold zlen in *. rewrite length_app. cbn. lia.
    + intros line. cbn. rewrite app_assoc, elem_of_app, list_elem_of_singleton. intros [Hi | ->]; [by left | by right].
    + intros j Hj. unfold sent. cbn [received merged]. rewrite app_assoc, texts_app, texts_one. rewrite bool_decide_eq_false_2 by done. by rewrite app_nil_r.
    + assert (sent s i ++ flow r = (sent s i ++ [text]) ++ flow (relayed r (rd_channel r) Receiving)) as Heq
        by (unfold flow; cbn; by rewrite Heqr0, <- app_assoc).
      unfold sent. cbn [received merged]. rewrite app_assoc, texts_app, texts_one. rewrite bool_decide_eq_true_2 by done.
      fold (sent s i). unfold read_ok. cbn. rewrite Heq in Hf. by split.
  - cbv zeta in Hs. assert (read_ok (cancelled s) (sent s i) (relayed r [] Left)) as Hok.
    { unfold read_ok, flow in *. cbn. destruct (rd_relay r); try done. destruct (rd_channel r); [| done].
      by destruct (rd_pump r). }
    taken Hs; injection Hs as <-; apply (reader_moves s _ i r (relayed r [] Left)); try done;
      first [exact Hok | match goal with E : cancelled s = _ |- _ => rewrite E; exact Hok end | solve [congruence] | by intros line; left | solve [unfold holding; cbn; auto 6]].
  - taken Hs. injection Hs as <-. apply (reader_moves s _ i r (relayed r (rd_channel r) Abandoned)); try done.
    + congruence.
    + by left.
    + by intros line; left.
    + unfold read_ok. cbn. split; [done |]. destruct Hf as [<- | (_ & _ & Hf)]; [by apply prefix_app_r | by eapply prefix_app_l].
Qed.

(** ** The goroutine that attaches and watches *)

(** Why a name is seen. *)
Definition named (s : state) : Prop := forall k, k ∈ seen (held s) -> k ∈ open_ (held s) \/ read_to_its_end s k.

(** Only where the main goroutine is, the attachments and the counters move. *)
Lemma main_moves s s' :
  invariant s -> readers s' = readers s -> merged s' = merged s -> received s' = received s -> panicked s' = panicked s ->
  (cancelled s = true -> cancelled s' = true) ->
  NoDup (keys s') -> (forall k, k ∈ open_ (held s') <-> k ∈ keys s') -> open_ (held s') ⊆ seen (held s') -> named s' ->
  (count (held s') + zlen (to_attach (main s')) <= maxPods)%Z ->
  (0 <= opened s')%Z /\ (starting (main s') = true -> (zlen (readers s) <= opened s')%Z) ->
  (match main s' with Failed _ => true | _ => false end = true -> readers s = []) ->
  (isClosed s' = true -> forallb gone (readers s) = true) ->
  invariant s'.
Proof.
  intros [] Hr Hm Hrc Hp Hc K1 K2 K3 Kw Hb Ho Hf Hcl. constructor; rewrite ?Hr, ?Hm, ?Hrc, ?Hp; try done.
  intros i r Hi. specialize (inv_read0 i r Hi). unfold sent. rewrite Hm, Hrc. unfold read_ok in *.
  case_bool_decide; [naive_solver |]. destruct inv_read0 as [[H1 | H1] H2]; (split; [| done]); [by left | right; naive_solver].
Qed.

Lemma cancel_ok s : invariant s -> invariant (cancel s).
Proof.
  intros Hinv. pose proof Hinv as []. apply (main_moves s); try done.
  intros k Hk. destruct (inv_why0 k Hk) as [Ho | (r & H1 & H2 & H3 & _)]; [by left | right; exists r; auto].
Qed.

Lemma zlen_nil_le {A} (l : list A) : (zlen l <= 0)%Z -> l = [].
Proof. destruct l; [done |]. unfold zlen. cbn. lia. Qed.

Lemma claim_new a name : name ∉ open_ a -> count (MkAttachments ({[ name ]} ∪ open_ a) ({[ name ]} ∪ seen a)) = (count a + 1)%Z.
Proof. intros Hn. unfold count. cbn. rewrite size_union by set_solver. rewrite size_singleton. lia. Qed.

Lemma attach_ok s s' : invariant s -> attach s = Some s' -> invariant s'.
Proof.
  intros Hinv Hs. pose proof Hinv as []. unfold attach in Hs. destruct (main s) as [first matched rest | | | | |] eqn:Hm; try done.
  unfold keys in inv_keys0, inv_open0. rewrite Hm in inv_keys0, inv_open0. cbn [calling app] in inv_keys0, inv_open0.
  assert (forall m, keys (with_main s m) = calling m ++ omap keyOf (readers s)) as Hkeys by done.
  assert (count (held s) + zlen (@nil podRef) <= maxPods)%Z as Hb0 by (unfold zlen in *; cbn; lia).
  destruct rest as [| pod rest].
  - destruct first.
    + taken Hs; injection Hs as <-.
      * apply andb_prop in Heqb as [Ho%Z.eqb_eq _]. apply (main_moves s); try done.
        -- intros k Hk. destruct (inv_why0 k Hk) as [Hk' | (r & H1 & H2 & H3 & _)]; [by left | right; exists r; auto].
        -- by split; [apply inv_opened0 |].
        -- intros _. apply zlen_nil_le. rewrite <- Ho. by apply inv_opened0.
      * destruct (rq_Follow req); apply (main_moves s); try done; split; try done; by apply inv_opened0.
    + injection Hs as <-. apply (main_moves s); try done; split; try done; by apply inv_opened0.
  - destruct (negb first && (maxPods <=? count (held s))%Z) eqn:Hfull.
    { assert (Some (with_main (setCounts s (count (held s)) matched) Ticking) = Some s') as [= <-] by (by destruct first).
      apply (main_moves s); try done; split; try done; by apply inv_opened0. }
    assert (match claim (held s) (key pod) with
            | (held, true) => Some (with_main (with_held s held) (Calling first matched pod rest))
            | (_, false) =>
                Some (with_main (if first then with_opened s (opened s + 1) (refused s) else s) (Attaching first matched rest))
            end = Some s') as Hs' by (by destruct first).
    clear Hs. unfold claim in Hs'. case_bool_decide as Hseen; injection Hs' as <-.
    + destruct first; apply (main_moves s); try done; cbn; unfold zlen in *; cbn in *; try lia.
      all: split; [lia | intros Ht; try done; specialize (proj2 inv_opened0 Ht); lia].
    + assert (key pod ∉ open_ (held s)) as Hno by set_solver.
      apply (main_moves s); try done.
      * cbn. apply list.NoDup_cons. split; [by rewrite <- inv_open0 | done].
      * intros k. cbn. rewrite elem_of_cons, elem_of_union, elem_of_singleton. rewrite inv_open0. done.
      * cbn. set_solver.
      * intros k. cbn. rewrite elem_of_union, elem_of_singleton. intros [-> | Hk]; [left; set_solver |].
        destruct (inv_why0 k Hk) as [Hk' | Hk']; [left; set_solver | by right].
      * cbn [held with_main with_held main]. rewrite claim_new by done. unfold zlen in *. destruct first; cbn in *; lia.
Qed.

Lemma list_omap_app_one (rs : list reader) r k : keyOf r = Some k -> omap keyOf (rs ++ [r]) = omap keyOf rs ++ [k].
Proof. intros Hk. rewrite omap_app. cbn. by rewrite Hk. Qed.

(** A pod whose log was opened has a reader of its own. *)
Lemma reader_starts s s' first matched pod rest :
  invariant s -> main s = Calling first matched pod rest -> main s' = Attaching first matched rest -> held s' = held s ->
  readers s' = readers s ++ [MkReader pod Scanning [] None Receiving []] -> merged s' = merged s -> received s' = received s ->
  cancelled s' = cancelled s -> panicked s' = panicked s -> opened s' = (if first then opened s + 1 else opened s)%Z -> invariant s'.
Proof.
  intros [] Hm Hm' Hh Hr Hme Hrc Hc Hp Ho.
  assert (forall i r, readers s' !! i = Some r -> readers s !! i = Some r \/ i = length (readers s) /\ r = MkReader pod Scanning [] None Receiving []) as Hnew.
  { intros i r Hi. rewrite Hr in Hi. apply lookup_app_Some in Hi as [Hi | [Hle Hi]]; [by left | right].
    apply list_lookup_singleton_Some in Hi as [Hz <-]. split; [lia | done]. }
  unfold keys in inv_keys0, inv_open0. rewrite Hm in *. cbn [calling app] in *.
  assert (keys s' = omap keyOf (readers s) ++ [key pod]) as Hk by (unfold keys; rewrite Hm', Hr; cbn [calling app]; by apply list_omap_app_one).
  constructor; rewrite ?Hh, ?Hme, ?Hrc, ?Hc, ?Hp, ?Ho; try done.
  - rewrite Hk. by rewrite <- Permutation_cons_append.
  - intros k. rewrite Hk. rewrite <- Permutation_cons_append. apply inv_open0.
  - intros k Hs. destruct (inv_why0 k Hs) as [H1 | (r & H1 & H2 & H3 & H4)]; [by left | right; exists r].
    rewrite Hr, Hc. split; [apply elem_of_app; by left | done].
  - by rewrite Hm'.
  - intros i r [Hi | [-> ->]]%Hnew; unfold sent; rewrite Hme, Hrc; [by apply inv_read0 |].
    assert (texts (length (readers s)) (received s ++ merged s) = []) as ->; [| by split; [left | intros H]].
    apply texts_nil. intros line Hin. destruct (inv_lines0 _ line Hin) as (r & Hi%lookup_lt_Some & _). lia.
  - intros i line Hin. destruct (inv_lines0 i line Hin) as (r & Hi & Hl). exists r. split; [| done]. rewrite Hr. by apply lookup_app_l_Some.
  - rewrite Hr. apply list.Forall_app. split; [done |]. apply list.Forall_cons. split; [by vm_compute |]. apply list.Forall_nil; exact I.
  - rewrite Hm', Hr. unfold zlen in *. rewrite length_app. cbn in *. destruct first; lia.
  - by rewrite Hm'.
  - unfold isClosed. by rewrite Hm'.
Qed.

(** A pod whose log could not be opened is free to be tried again. *)
Lemma refused_ok s s' first matched pod rest :
  invariant s -> main s = Calling first matched pod rest -> main s' = Attaching first matched rest -> held s' = forget (held s) (key pod) ->
  readers s' = readers s -> merged s' = merged s -> received s' = received s ->
  cancelled s' = cancelled s -> panicked s' = panicked s -> opened s' = opened s -> invariant s'.
Proof.
  intros Hinv Hm Hm' Hh Hr Hme Hrc Hc Hp Ho. pose proof Hinv as []. unfold keys in inv_keys0, inv_open0. rewrite Hm in *. cbn [calling app] in *.
  apply list.NoDup_cons in inv_keys0 as [Hno Hnd].
  assert (open_ (forget (held s) (key pod)) ⊆ open_ (held s)) as Hsub by (cbn; set_solver).
  apply (main_moves s); try done; rewrite ?Hh, ?Hm', ?Ho, ?Hc; try done.
  - unfold keys. by rewrite Hm', Hr.
  - intros k. unfold keys. rewrite Hm', Hr. cbn. rewrite elem_of_difference, elem_of_singleton, inv_open0, elem_of_cons. naive_solver.
  - cbn. set_solver.
  - intros k. rewrite Hh. cbn. rewrite !elem_of_difference, !elem_of_singleton. intros [Hk Hne].
    destruct (inv_why0 k Hk) as [H1 | (r & H1 & H2)]; [by left | right; exists r; by rewrite Hr, Hc].
  - apply subseteq_size in Hsub. unfold count in *. destruct first; cbn [to_attach] in *; lia.
  - unfold isClosed. by rewrite Hm'.
Qed.

Lemma answered_ok s answer s' : invariant s -> answered s answer = Some s' -> invariant s'.
Proof.
  intros Hinv Hs. unfold answered in Hs. destruct (main s) as [| first matched pod rest | | | |] eqn:Hm; try done.
  destruct answer as [e |]; injection Hs as <-.
  - by destruct first; apply (refused_ok s _ _ matched pod rest Hinv Hm).
  - by destruct first; apply (reader_starts s _ _ matched pod rest Hinv Hm).
Qed.

Lemma watch_ok s listed s' : invariant s -> watch s listed = Some s' -> invariant s'.
Proof.
  intros Hinv Hs. pose proof Hinv as []. unfold watch in Hs. destruct (main s) eqn:Hm; try done.
  unfold keys in inv_keys0, inv_open0. rewrite Hm in inv_keys0, inv_open0. cbn [calling app] in inv_keys0, inv_open0.
  destruct listed as [pods | e].
  - destruct (podsMatching pods) as [fresh matched]. injection Hs as <-. apply (main_moves s); try done.
    + intros k Hk. cbn in *. apply elem_of_filter. split; [by right | by apply inv_seen0].
    + intros k Hk. cbn in Hk. apply elem_of_filter in Hk as [_ Hk]. destruct (inv_why0 k Hk) as [H1 | H1]; [by left | by right].
  - injection Hs as <-. apply (main_moves s); try done; cbn; unfold keys; cbn; rewrite ?Hm; try done.
Qed.

Lemma take_ok s s' : invariant s -> step s Take = Some s' -> invariant s'.
Proof.
  intros [] Hs. cbn in Hs. destruct (merged s) as [| line rest] eqn:Hm; [done |]. injection Hs as <-.
  assert (forall i, sent (MkState (held s) (readers s) rest (received s ++ [line]) (cancelled s) (err s) (counts s) (main s) (opened s)
    (refused s) (panicked s)) i = sent s i) as Hsent by (intros i; unfold sent; cbn [received merged]; by rewrite Hm, <- app_assoc).
  constructor; try done.
  - intros i r Hi. rewrite Hsent. by apply inv_read0.
  - intros i l Hin. apply inv_lines0. cbn [received merged] in Hin. by rewrite <- app_assoc in Hin.
  - unfold zlen in *. cbn in *. lia.
Qed.

Lemma step_ok s e s' : invariant s -> step s e = Some s' -> invariant s'.
Proof.
  intros Hinv Hs.
  destruct e; cbn [step] in Hs;
    try (match type of Hs with context [readers s !! ?i] => destruct (readers s !! i) as [r |] eqn:Hr; [| done] end; cbn [mbind option_bind] in Hs).
  all: try (destruct (pumped s _ r) eqn:Hp; [| done]; cbn [mbind option_bind] in Hs; injection Hs as <-; by eapply pump_step).
  all: try by eapply relay_step.
  - injection Hs as <-. by apply cancel_ok.
  - by eapply attach_ok.
  - by eapply answered_ok.
  - by eapply watch_ok.
  - destruct (main s) eqn:Hm; try done. destruct (cancelled s) eqn:Hc; [| done]. injection Hs as <-.
    pose proof Hinv as []. unfold keys in inv_keys0, inv_open0. rewrite Hm in inv_keys0, inv_open0, inv_bound0.
    apply (main_moves s); try done; split; [apply inv_opened0 | done].
  - destruct (main s) eqn:Hm; try done. destruct (forallb gone (readers s)) eqn:Hg; [| done]. injection Hs as <-.
    pose proof Hinv as []. unfold keys in inv_keys0, inv_open0. rewrite Hm in inv_keys0, inv_open0, inv_bound0.
    apply (main_moves s); try done; split; [apply inv_opened0 | done].
  - by apply (take_ok s s' Hinv).
Qed.

Lemma openMany_ok listed req' s : openMany req listed = Ok (req', s) -> invariant s.
Proof.
  unfold openMany. destruct listed as [pods | e]; [| done]. destruct (podsMatching pods) as [names matched] eqn:Hp. case_match; [done |].
  intros [= <- <-]. constructor; try done.
  - apply list.NoDup_nil. exact I.
  - intros k. cbn. by rewrite elem_of_empty, elem_of_nil.
  - cbn [held main to_attach]. change (count newAttachments) with 0%Z. unfold podsMatching in Hp. set (found := sort_by _ _) in Hp.
    destruct (zlen found <=? maxPods)%Z eqn:E; injection Hp as <- _.
    + apply Z.leb_le in E. lia.
    + unfold zlen, ztake, maxPods in *. rewrite length_take. lia.
  - intros i line. cbn. by rewrite elem_of_nil.
Qed.

Lemma runs_ok l s s' : invariant s -> runs s l = Some s' -> invariant s'.
Proof.
  revert s. induction l as [| e l IH]; intros s Hinv Hs; cbn in Hs; [by injection Hs as <- |].
  destruct (step s e) as [s1 |] eqn:He; [| done]. cbn in Hs. eapply IH; [| done]. by eapply step_ok.
Qed.

Lemma count_keys s : invariant s -> count (held s) = zlen (keys s).
Proof.
  intros []. assert (open_ (held s) = list_to_set (keys s)) as Heq by (apply set_eq; intros k; by rewrite elem_of_list_to_set).
  unfold count, zlen. rewrite Heq. by rewrite size_list_to_set.
Qed.

Lemma forallb_not {A} (f : A -> bool) (l : list A) : forallb f l = false -> exists i x, l !! i = Some x /\ f x = false.
Proof.
  induction l as [| x l IH]; cbn; [done |]. intros [Hx | Hl]%andb_false_iff; [by exists 0, x |].
  destruct (IH Hl) as (i & y & Hi & Hy). by exists (S i), y.
Qed.

(** ** Once the reader of the merged lines goes away *)

Definition over (s : state) : bool := match main s with Closed | Failed _ => true | _ => false end.

(** A reader whose two goroutines have returned. *)
Definition settled (r : reader) : bool := gone r && match rd_pump r with Ended => true | _ => false end.

(** What the goroutines do by themselves, and what the API server answers to
    requests whose context has ended. *)
Definition winding (e : event) : bool :=
  match e with
  | Attach | Answered (Some _) | Stop | Waited | Eof _ _ | Halt _ | Receive _ | Finish _ | Quit _ => true
  | _ => false
  end.

Definition reader_work (r : reader) : nat :=
  (if gone r then 0 else 1 + 2 * length (rd_channel r) + (match rd_relay r with Sending _ => 1 | _ => 0 end)) +
  match rd_pump r with Ended => 0 | _ => 1 end.

Definition main_work (m : place) : nat :=
  match m with
  | Attaching _ _ rest => 3 + 2 * length rest
  | Calling _ _ _ rest => 4 + 2 * length rest
  | Ticking => 2
  | Draining => 1
  | _ => 0
  end.

Definition work (s : state) : nat := main_work (main s) + sum_list_with reader_work (readers s).

Lemma work_insert (rs : list reader) i r r' :
  rs !! i = Some r -> reader_work r' < reader_work r -> sum_list_with reader_work (<[i := r']> rs) < sum_list_with reader_work rs.
Proof. intros H Hw. destruct (insert_at rs i r r' H) as (l1 & l2 & -> & ->). rewrite !sum_list_with_app. cbn. lia. Qed.

Lemma reader_winds s i r :
  cancelled s = true -> readers s !! i = Some r -> settled r = false ->
  exists e s' r', winding e = true /\ step s e = Some s' /\ cancelled s' = true /\ main s' = main s /\
    readers s' = <[i := r']> (readers s) /\ reader_work r' < reader_work r.
Proof.
  intros Hc Hr Hs. unfold settled in Hs. unfold reader_work. destruct (rd_pump r) as [| text |] eqn:Hp.
  - eexists (Eof i None), _, _. split; [done |]. cbn. rewrite Hr. cbn. rewrite Hp. cbn. split; [done |]. repeat split; try done.
    unfold gone. cbn. lia.
  - eexists (Halt i), _, _. split; [done |]. cbn. rewrite Hr. cbn. rewrite Hp. unfold ended. rewrite Hc. cbn. split; [done |]. repeat split; try done.
    unfold gone. cbn. lia.
  - rewrite andb_true_r in Hs. rewrite Hs.
    unfold gone in Hs. apply orb_false_elim in Hs as [Hl%bool_decide_eq_false_1 Ha%bool_decide_eq_false_1].
    destruct (rd_relay r) as [| text | |] eqn:Hrl; try done.
    + destruct (rd_channel r) as [| text rest] eqn:Hch.
      * destruct (rd_err r) as [e |] eqn:He; (eexists (Finish i), _, (relayed r [] Left); split; [done |]; split;
          [cbn; rewrite Hr; cbn; rewrite Hrl, Hch, Hp, He, ?Hc; reflexivity |]); cbn; repeat split; try done; rewrite Hp; change (gone (relayed r [] Left)) with true; cbn; lia.
      * eexists (Receive i), _, (relayed r rest (Sending text)). split; [done |]. split; [cbn; rewrite Hr; cbn; rewrite Hrl, Hch; reflexivity |].
        cbn. repeat split; try done. change (gone (relayed r rest (Sending text))) with false. rewrite Hp. cbn. lia.
    + eexists (Quit i), _, (relayed r (rd_channel r) Abandoned). split; [done |]. split; [cbn; rewrite Hr; cbn; rewrite Hrl, Hc; reflexivity |].
      cbn. repeat split; try done. change (gone (relayed r (rd_channel r) Abandoned)) with true. rewrite Hp. cbn. lia.
Qed.

Lemma main_winds s :
  cancelled s = true -> forallb settled (readers s) = true -> over s = false ->
  exists e s', winding e = true /\ step s e = Some s' /\ cancelled s' = true /\ readers s' = readers s /\ main_work (main s') < main_work (main s).
Proof.
  intros Hc Hg Ho. unfold over in Ho. destruct (main s) as [first matched rest | first matched pod rest | | | |] eqn:Hm; try done.
  - destruct rest as [| pod rest].
    + destruct first.
      * destruct ((opened s =? 0)%Z && (negb (rq_Follow req) || permanent (refused s))) eqn:E;
          (eexists Attach, _; split; [done |]; split; [cbn; unfold attach; rewrite Hm, E; reflexivity |]);
          destruct (rq_Follow req); cbn; repeat split; try done; lia.
      * eexists Attach, _. split; [done |]. split; [cbn; unfold attach; rewrite Hm; reflexivity |]. cbn. repeat split; try done. lia.
    + destruct (negb first && (maxPods <=? count (held s))%Z) eqn:E.
      * destruct first; [done |]. eexists Attach, _. split; [done |].
        split; [cbn; unfold attach; rewrite Hm, E; reflexivity |]. cbn. repeat split; try done. lia.
      * destruct (claim (held s) (key pod)) as [h b] eqn:Hcl. destruct b, first;
          (eexists Attach, _; split; [done |]; split; [cbn; unfold attach; rewrite Hm, E, Hcl; reflexivity |]); cbn; repeat split; try done; lia.
  - eexists (Answered (Some (Respond.New ""))), _. cbn. unfold answered. rewrite Hm. split; [done |]. split; [done |].
    destruct first; cbn; repeat split; try done; lia.
  - eexists Stop, _. cbn. rewrite Hm, Hc. split; [done |]. split; [done |]. cbn. repeat split; try done. lia.
  - eexists Waited, _. cbn. rewrite Hm. assert (forallb gone (readers s) = true) as ->.
    { rewrite forallb_forall in *. intros r Hin. by specialize (Hg r Hin) as [? _]%andb_prop. }
    split; [done |]. split; [done |]. cbn. repeat split; try done. lia.
Qed.

Lemma winds_down n : forall s, work s <= n -> cancelled s = true ->
  exists l s', Forall (fun e => winding e = true) l /\ runs s l = Some s' /\ over s' = true /\ forallb settled (readers s') = true.
Proof.
  induction n as [n IH] using lt_wf_ind. intros s Hn Hc.
  assert (forall e s', winding e = true -> step s e = Some s' -> cancelled s' = true -> work s' < work s ->
    exists l s', Forall (fun e => winding e = true) l /\ runs s l = Some s' /\ over s' = true /\ forallb settled (readers s') = true) as Hgo.
  { intros e s1 He Hst Hc1 Hw. destruct (IH (work s1) ltac:(lia) s1 ltac:(lia) Hc1) as (l & s' & Hl & Hrun & Hend).
    exists (e :: l), s'. split; [by apply list.Forall_cons |]. split; [| done]. cbn. by rewrite Hst. }
  destruct (forallb settled (readers s)) eqn:Hg.
  - destruct (over s) eqn:Ho.
    + exists [], s. split; [apply list.Forall_nil; exact I | done].
    + destruct (main_winds s Hc Hg Ho) as (e & s' & He & Hst & Hc' & Hr & Hw). apply (Hgo e s'); try done. unfold work. rewrite Hr. lia.
  - destruct (forallb_not _ _ Hg) as (i & r & Hr & Hs).
    destruct (reader_winds s i r Hc Hr Hs) as (e & s' & r' & He & Hst & Hc' & Hm & Hrs & Hw). apply (Hgo e s'); try done.
    unfold work. rewrite Hm, Hrs. pose proof (work_insert _ _ _ _ Hr Hw). lia.
Qed.
End logs.

(** ** The properties *)

(** C30: the merged log of several pods: at most twenty pods are read or being
    opened at once and none of them twice; what was sent on for a pod is, in
    order, what its log gave, all of it when its reader came to the end and
    nobody went away; every line carries the name of its pod; a pod that counts
    as read is being read or was read to its end; and nothing is sent on the
    merged channel after it was closed. *)
Theorem logs_merged req listed req' s0 l s :
  openMany req listed = Ok (req', s0) -> runs req' s0 l = Some s ->
  (NoDup (keys s) /\ (zlen (keys s) <= maxPods)%Z) /\
  (forall i r, readers s !! i = Some r ->
    sent s i `prefix_of` rd_scanned r /\ (rd_relay r = Left -> cancelled s = false -> sent s i = rd_scanned r)) /\
  (forall i line, (i, line) ∈ received s ++ merged s -> exists r, readers s !! i = Some r /\ l_Pod line = pr_name (rd_pod r)) /\
  (forall k, k ∈ seen (held s) -> k ∈ keys s \/ read_to_its_end s k) /\
  panicked s = false.
Proof.
  intros Hopen Hrun. assert (invariant s) as Hinv by (eapply runs_ok; [by eapply openMany_ok | done]).
  pose proof (count_keys s Hinv) as Hcount. destruct Hinv. repeat split; try done.
  - rewrite <- Hcount. unfold zlen in *. lia.
  - specialize (inv_read0 i r H). unfold read_ok in inv_read0. case_bool_decide; [apply inv_read0 |].
    destruct inv_read0 as [[<- | (_ & _ & Hp)] _]; [by apply prefix_app_r | by eapply prefix_app_l].
  - intros Hl Hc. specialize (inv_read0 i r H). unfold read_ok in inv_read0. rewrite Hl, Hc in inv_read0. cbn in inv_read0.
    destruct inv_read0 as [[<- | (? & _)] Hend]; [| done]. destruct (Hend eq_refl) as [Hp Hch]. unfold flow. rewrite Hl, Hp, Hch. by rewrite app_nil_r.
  - intros k Hk. destruct (inv_why0 k Hk) as [Ho | Ho]; [left; by apply inv_open0 | by right].
Qed.

(** Two pods; the log of the first is read to its end, that of the second
    fails and the pod is taken up again at the next tick. *)
Definition exampleRequest : Request := MkRequest "shop" "" "" 200 true "app=cart".

Definition examplePods : list Pod := [MkPod "cart-b" "u2" ∅ ["cart"; "proxy"]; MkPod "cart-a" "u1" ∅ ["cart"]].

Definition exampleOpened : Request * state :=
  match openMany exampleRequest (Ok examplePods) with
  | Ok opened => opened
  | Err _ => (exampleRequest, MkState newAttachments [] [] [] false None (0, 0)%Z Ticking 0 None false)
  end.

Definition exampleEvents : list event :=
  [Attach; Answered None; Attach; Answered None; Attach;
   Scan 0 "started"; Scan 1 "ready"; Offer 1; Offer 0; Receive 1; Send 1; Eof 1 (Some (Respond.New "reset")); Finish 1;
   Receive 0; Scan 0 "done"; Send 0; Offer 0; Eof 0 None; Take; Receive 0; Send 0; Finish 0; Take;
   Tick (Ok examplePods); Attach; Attach; Answered None; Attach].

Definition exampleState : state := default (snd exampleOpened) (runs (fst exampleOpened) (snd exampleOpened) exampleEvents).

Lemma logs_merged_witness :
  (map (fun '(_, line) => (l_Pod line, l_Text line)) (received exampleState ++ merged exampleState) =
   [("cart-b", "ready"); ("cart-a", "started"); ("cart-a", "done")] /\ length (readers exampleState) = 3) /\
  panicked exampleState = false.
Proof.
  split; [by vm_compute |]. apply (logs_merged exampleRequest (Ok examplePods) (fst exampleOpened) (snd exampleOpened) exampleEvents);
    vm_compute; reflexivity.
Defined.

(** Whoever reads the merged lines may go away at any moment: from every
    state, however full the channels are, once Close was called all goroutines
    can come to their end, without another line being taken, another list or
    an answer other than that the request was cancelled. *)
Theorem logs_wind_down req s :
  exists l s', Forall (fun e => winding e = true) l /\ runs req s (Cancel :: l) = Some s' /\
    over s' = true /\ forallb settled (readers s') = true.
Proof.
  destruct (winds_down req (work (cancel s)) (cancel s)) as (l & s' & Hl & Hrun & Hend); [done | done |]. by exists l, s'.
Qed.
End Logs.
