(* ===== verification/Topology.v ===== *)
(** internal/topology: the graph of a cluster's objects, who owns, routes to,
    configures and scales whom, folded until it can be drawn. *)

From S2P Require Import Prelude Api Text Unstr Faults Kube.

Record OwnerReference := MkOwnerReference {
  ow_APIVersion : string;
  ow_Kind : string;
  ow_Name : string;
  ow_UID : string;
  ow_Controller : option bool;
}.

(** The owner references and labels of an [unstructured.Unstructured]. *)
Class Linked (U : Type) := {
  OwnerReferencesOf : U -> list OwnerReference;
  LabelsOf : U -> gmap string string;
}.

Module Topology.
Import Api Text Unstr.

Definition categoryWorkload : string := "workload".
Definition categoryPod : string := "pod".
Definition categoryService : string := "service".
Definition categoryIngress : string := "ingress".
Definition categoryConfig : string := "config".
Definition categoryAutoscaler : string := "autoscaler".
Definition categoryNamespace : string := "namespace".

Definition edgeOwns : string := "owns".
Definition edgeRoutes : string := "routes".
Definition edgeConfigures : string := "configures".
Definition edgeScales : string := "scales".

Definition readyTrue : string := "True".
Definition readyFalse : string := "False".
Definition readyUnknown : string := "Unknown".
Definition statusMissing : string := "NotFound".

Definition nodeBudget : Z := 400.
Definition rootDepth : nat := 2.
Definition maxFoldDepth : nat := 16.
Definition districtIDTag : string := "namespace/".

Definition listedResources : gmap string string := list_to_map [
  ("/pods", categoryPod); ("/services", categoryService); ("/replicationcontrollers", categoryWorkload);
  ("apps/deployments", categoryWorkload); ("apps/replicasets", categoryWorkload); ("apps/statefulsets", categoryWorkload);
  ("apps/daemonsets", categoryWorkload); ("batch/jobs", categoryWorkload); ("batch/cronjobs", categoryWorkload);
  ("networking.k8s.io/ingresses", categoryIngress); ("autoscaling/horizontalpodautoscalers", categoryAutoscaler)].

Definition foldableKinds : list string := ["Pod"; "ReplicaSet"; "Job"].

Record Request := MkRequest { rq_Namespace : string; rq_Root : ObjectRef; rq_Expanded : list string }.

Record GraphNode := MkGraphNode {
  gn_ID : string;
  gn_Kind : string;
  gn_Group : string;
  gn_Version : string;
  gn_Resource : string;
  gn_Name : string;
  gn_Namespace : string;
  gn_Status : string;
  gn_Ready : string;
  gn_Category : string;
  gn_Contains : Z;
  gn_Unhealthy : Z;
}.

Record GraphEdge := MkGraphEdge { ge_From : string; ge_To : string; ge_Kind : string }.

Record Graph := MkGraph { gr_Nodes : list GraphNode; gr_Edges : list GraphEdge; gr_Error : string }.

#[export] Instance GraphEdge_eq_dec : EqDecision GraphEdge.
Proof. solve_decision. Defined.

(** ** Fields of a document *)

(** Nil maps are told from empty ones. *)
Fixpoint mapAt (entry : option amap) (keys : list string) : option amap :=
  match keys with
  | [] => entry
  | key :: keys =>
      match entry with
      | None => None
      | Some current => match asMap (aget current key) with None => None | Some next => mapAt (Some next) keys end
      end
  end.

Definition at_ (entry : option amap) (key : string) : string := match entry with Some m => At m key | None => "" end.

(** [sliceAt] of the keys [keys ++ [last]]. *)
Definition sliceAt (entry : option amap) (keys : list string) (last : string) : list any :=
  match mapAt entry keys with
  | None => []
  | Some holder => match asSlice (aget holder last) with Some out => out | None => [] end
  end.

(** The elements of a list that are maps. *)
Definition maps (l : list any) : list amap := omap (fun raw => asMap (Some raw)) l.

Definition groupOf (apiVersion : string) : string :=
  let '(before, _, found) := str_cut apiVersion "/" in if found then before else "".

Definition versionOf (apiVersion : string) : string :=
  let '(_, after, found) := str_cut apiVersion "/" in if found then after else apiVersion.

Definition identityKey (group kind namespace name : string) : string :=
  group +s+ "/" +s+ kind +s+ "/" +s+ namespace +s+ "/" +s+ name.

Definition categoryFor (desc : ResourceDescriptor) : string :=
  default "" (listedResources !! (rd_Group desc +s+ "/" +s+ rd_Resource desc)).

Definition readyForPlaceholder (status : string) : string :=
  if bool_decide (status = statusMissing) then readyFalse else readyUnknown.

(** [schema.GroupResource.String] *)
Definition groupResource (desc : ResourceDescriptor) : string :=
  if bool_decide (rd_Group desc = "") then rd_Resource desc else rd_Resource desc +s+ "." +s+ rd_Group desc.

(** ** References of a pod to its configuration *)

Record configRef := MkConfigRef { cr_kind : string; cr_name : string }.

#[export] Instance configRef_eq_dec : EqDecision configRef.
Proof. solve_decision. Defined.

Definition kindConfigMap : string := "ConfigMap".
Definition kindSecret : string := "Secret".

Definition appendRef (refs : list configRef) (kind name : string) : list configRef :=
  if bool_decide (name = "") then refs else refs ++ [MkConfigRef kind name].

Definition dedupe (refs : list configRef) : list configRef :=
  Compact (sort_by (cmp_then (cmp_on cr_kind str_compare) (cmp_on cr_name str_compare)) refs).

Definition injectedByKubelet (volume : amap) : bool :=
  if negb (has_prefix (At volume "name") "kube-api-access-") then false
  else existsb (fun source => bool_decide (mapAt (Some source) ["serviceAccountToken"] <> None))
         (maps (sliceAt (Some volume) ["projected"] "sources")).

Definition projectedRefs (volume : amap) : list configRef :=
  let injected := injectedByKubelet volume in
  foldl (fun refs source =>
    let named := at_ (mapAt (Some source) ["configMap"]) "name" in
    if injected && bool_decide (named = "kube-root-ca.crt") then refs
    else appendRef (appendRef refs kindConfigMap named) kindSecret (at_ (mapAt (Some source) ["secret"]) "name"))
    [] (maps (sliceAt (Some volume) ["projected"] "sources")).

Definition volumeRefs (spec : option amap) : list configRef :=
  foldl (fun refs volume =>
    let refs := appendRef refs kindConfigMap (at_ (mapAt (Some volume) ["configMap"]) "name") in
    let refs := appendRef refs kindSecret (at_ (mapAt (Some volume) ["secret"]) "secretName") in
    refs ++ projectedRefs volume)
    [] (maps (sliceAt spec [] "volumes")).

Definition pullSecretRefs (spec : option amap) : list configRef :=
  foldl (fun refs entry => appendRef refs kindSecret (At entry "name")) [] (maps (sliceAt spec [] "imagePullSecrets")).

Definition containerRefs (container : amap) : list configRef :=
  let refs := foldl (fun refs entry =>
    appendRef (appendRef refs kindConfigMap (at_ (mapAt (Some entry) ["configMapRef"]) "name"))
      kindSecret (at_ (mapAt (Some entry) ["secretRef"]) "name"))
    [] (maps (sliceAt (Some container) [] "envFrom")) in
  foldl (fun refs entry =>
    let source := mapAt (Some entry) ["valueFrom"] in
    appendRef (appendRef refs kindConfigMap (at_ (mapAt source ["configMapKeyRef"]) "name"))
      kindSecret (at_ (mapAt source ["secretKeyRef"]) "name"))
    refs (maps (sliceAt (Some container) [] "env")).

Definition configRefs (spec : option amap) : list configRef :=
  let refs := volumeRefs spec ++ pullSecretRefs spec in
  dedupe (foldl (fun refs key => foldl (fun refs container => refs ++ containerRefs container) refs (maps (sliceAt spec [] key)))
    refs ["initContainers"; "containers"; "ephemeralContainers"]).

Definition podTemplatePaths (kind : string) : option (list string) :=
  if bool_decide (kind = "Pod") then Some ["spec"]
  else if contains ["Deployment"; "ReplicaSet"; "ReplicationController"; "StatefulSet"; "DaemonSet"; "Job"] kind
  then Some ["spec"; "template"; "spec"]
  else if bool_decide (kind = "CronJob") then Some ["spec"; "jobTemplate"; "spec"; "template"; "spec"]
  else None.

(** ** Selectors *)

Definition stringsOf (raw : option amap) : list (string * string) :=
  match raw with
  | None => []
  | Some m => omap (fun key => pair key <$> asString (aget m key)) (remove_dups (map fst m))
  end.

(** The shortest list of pods that hold one of the pairs, in the order a map
    is walked in; none when nobody holds a pair. *)
Fixpoint fewest (byPair : gmap string (list string)) (selector : list (string * string)) (best : option (list string)) : list string :=
  match selector with
  | [] => default [] best
  | (key, value) :: rest =>
      match default [] (byPair !! (key +s+ "=" +s+ value)) with
      | [] => []
      | holding =>
          fewest byPair rest
            (match best with
             | None => Some holding
             | Some best => if (zlen holding <? zlen best)%Z then Some holding else Some best
             end)
      end
  end.

Definition candidates (byPair : gmap string (list string)) (selector : list (string * string)) : list string := fewest byPair selector None.

Definition selects (selector : list (string * string)) (labels : gmap string string) : bool :=
  forallb (fun '(key, want) => bool_decide (default "" (labels !! key) = want)) selector.

Section topology.
Context {U : Type} `{!Unstructured U} `{!Described U} `{!Linked U}.

(** ** Readiness *)

Definition wantedReplicas (obj : U) : Z :=
  let n := NestedInt64 obj ["spec"; "replicas"] in
  if failed n then 1 else if negb (found n) then 1 else value n.

Definition replicaSummary (ready wanted : Z) : string := Itoa ready +s+ "/" +s+ Itoa wanted.

Definition conditionTrue (obj : U) (name : string) : bool :=
  match conditionOfType name (USlice obj ["status"; "conditions"]) with
  | Some entry => bool_decide (At entry "status" = readyTrue)
  | None => false
  end.

Definition podNotReady (obj : U) : bool :=
  let phase := UString obj ["status"; "phase"] in
  if bool_decide (phase = "Succeeded") then false
  else if bool_decide (phase = "Failed") then true
  else bool_decide ((Ready obj).1 <> readyTrue).

Definition replicated (kind : string) : bool := contains ["Deployment"; "StatefulSet"; "ReplicaSet"; "ReplicationController"] kind.

Definition notReady (obj : U) (kind : string) : bool :=
  if bool_decide (kind = "Pod") then podNotReady obj
  else if replicated kind then (UInt obj ["status"; "readyReplicas"] <? wantedReplicas obj)%Z
  else if bool_decide (kind = "DaemonSet") then
    (UInt obj ["status"; "numberReady"] <? UInt obj ["status"; "desiredNumberScheduled"])%Z
  else if bool_decide (kind = "Job") then conditionTrue obj "Failed"
  else
    let status := (Ready obj).1 in
    if bool_decide (status = "") then false else bool_decide (status <> readyTrue).

Definition settled (obj : U) (kind : string) : bool :=
  if contains ["Pod"; "DaemonSet"; "Job"] kind || replicated kind then true else bool_decide ((Ready obj).1 = readyTrue).

Definition readyOf (obj : U) (kind : string) : string :=
  if notReady obj kind then readyFalse else if settled obj kind then readyTrue else readyUnknown.

Definition statusOf (obj : U) (kind : string) : string :=
  if bool_decide (kind = "Pod") then UString obj ["status"; "phase"]
  else if replicated kind then replicaSummary (UInt obj ["status"; "readyReplicas"]) (wantedReplicas obj)
  else if bool_decide (kind = "DaemonSet") then
    replicaSummary (UInt obj ["status"; "numberReady"]) (UInt obj ["status"; "desiredNumberScheduled"])
  else ReadySummary obj.

(** ** The builder *)

Record object := MkObject { ob_node : GraphNode; ob_raw : option U; ob_labels : gmap string string }.

Record builder := MkBuilder {
  byKind : gmap string ResourceDescriptor;
  kindFor : gmap string string;
  objects : gmap string object;
  identity : gmap string string;
  podsByPair : gmap string (gmap string (list string));
  controller : gmap string string;
  edges : gmap string GraphEdge;
  failures : Listerr.Collector;
}.

Definition with_objects (b : builder) (objects : gmap string object) (identity : gmap string string) : builder :=
  MkBuilder (byKind b) (kindFor b) objects identity (podsByPair b) (controller b) (edges b) (failures b).
Definition with_podsByPair (b : builder) (podsByPair : gmap string (gmap string (list string))) : builder :=
  MkBuilder (byKind b) (kindFor b) (objects b) (identity b) podsByPair (controller b) (edges b) (failures b).
Definition with_controller (b : builder) (controller : gmap string string) : builder :=
  MkBuilder (byKind b) (kindFor b) (objects b) (identity b) (podsByPair b) controller (edges b) (failures b).
Definition with_edges (b : builder) (edges : gmap string GraphEdge) : builder :=
  MkBuilder (byKind b) (kindFor b) (objects b) (identity b) (podsByPair b) (controller b) edges (failures b).
Definition with_failures (b : builder) (failures : Listerr.Collector) : builder :=
  MkBuilder (byKind b) (kindFor b) (objects b) (identity b) (podsByPair b) (controller b) (edges b) failures.

Definition indexByKind (descs : list ResourceDescriptor) : gmap string ResourceDescriptor :=
  foldl (fun byKind desc => <[rd_Group desc +s+ "/" +s+ rd_Kind desc := desc]> byKind) ∅ descs.

Definition indexKinds (descs : list ResourceDescriptor) : gmap string string :=
  foldl (fun kinds desc => <[rd_Group desc +s+ "/" +s+ rd_Resource desc := rd_Kind desc]> kinds) ∅ descs.

Definition newBuilder (descs : list ResourceDescriptor) : builder :=
  MkBuilder (indexByKind descs) (indexKinds descs) ∅ ∅ ∅ ∅ ∅ Listerr.New.

(** The pairs of a pod's labels, in the order the map is walked in. *)
Definition indexPod (b : builder) (id : string) (obj : U) : builder :=
  let namespace := GetNamespace obj in
  let labels := LabelsOf obj in
  let b := with_objects b (alter (fun o => MkObject (ob_node o) (ob_raw o) labels) id (objects b)) (identity b) in
  let byPair := default ∅ (podsByPair b !! namespace) in
  let byPair := foldl (fun byPair '(key, value) =>
    let pair := key +s+ "=" +s+ value in <[pair := default [] (byPair !! pair) ++ [id]]> byPair) byPair (map_to_list labels) in
  with_podsByPair b (<[namespace := byPair]> (podsByPair b)).

Definition add (b : builder) (obj : U) (desc : ResourceDescriptor) : builder :=
  let id := GetUID obj in
  if bool_decide (id = "") then b
  else
    let category := categoryFor desc in
    let node := MkGraphNode id (rd_Kind desc) (rd_Group desc) (rd_Version desc) (rd_Resource desc) (GetName obj) (GetNamespace obj)
                  (statusOf obj (rd_Kind desc)) (readyOf obj (rd_Kind desc)) category 0 0 in
    let b := with_objects b (<[id := MkObject node (Some obj) ∅]> (objects b))
               (<[identityKey (rd_Group desc) (rd_Kind desc) (GetNamespace obj) (GetName obj) := id]> (identity b)) in
    if bool_decide (category = categoryPod) then indexPod b id obj else b.

Definition collect (lister : ResourceDescriptor -> result string (list U)) (namespace : string) (b : builder) (desc : ResourceDescriptor) : builder :=
  match lister desc with
  | Err err => with_failures b (Listerr.Record_ (failures b) (groupResource desc) (Some err))
  | Ok items =>
      let b := with_failures b (Listerr.Record_ (failures b) (groupResource desc) None) in
      foldl (fun b item => if bool_decide (namespace <> "") && bool_decide (GetNamespace item <> namespace) then b else add b item desc) b items
  end.

(** Where an object of the kind is: nowhere when the kind has no namespaces. *)
Definition placeOf (b : builder) (group kind namespace : string) : string :=
  match byKind b !! (group +s+ "/" +s+ kind) with
  | Some desc => if bool_decide (rd_Resource desc <> "") && negb (rd_Namespaced desc) then "" else namespace
  | None => namespace
  end.

Definition ensure (b : builder) (group kind namespace name category status : string) : builder * string :=
  let desc := byKind b !! (group +s+ "/" +s+ kind) in
  let namespace := placeOf b group kind namespace in
  let key := identityKey group kind namespace name in
  match identity b !! key with
  | Some found => (b, found)
  | None =>
      let node := MkGraphNode key kind group (match desc with Some d => rd_Version d | None => "" end)
                    (match desc with Some d => rd_Resource d | None => "" end) name namespace status (readyForPlaceholder status) category 0 0 in
      (with_objects b (<[key := MkObject node None ∅]> (objects b)) (<[key := key]> (identity b)), key)
  end.

Definition ensureOwner (b : builder) (owner : OwnerReference) (namespace : string) : builder * string :=
  let id := ow_UID owner in
  if bool_decide (is_Some (objects b !! id)) then (b, id)
  else
    let group := groupOf (ow_APIVersion owner) in
    let desc := byKind b !! (group +s+ "/" +s+ ow_Kind owner) in
    let namespace := placeOf b group (ow_Kind owner) namespace in
    let node := MkGraphNode id (ow_Kind owner) group (versionOf (ow_APIVersion owner))
                  (match desc with Some d => rd_Resource d | None => "" end) (ow_Name owner) namespace "" readyUnknown categoryWorkload 0 0 in
    (with_objects b (<[id := MkObject node None ∅]> (objects b))
       (<[identityKey group (ow_Kind owner) namespace (ow_Name owner) := id]> (identity b)), id).

Definition bar : string := "|".

Definition edgeKey (from to kind : string) : string := from +s+ bar +s+ to +s+ bar +s+ kind.

Definition addEdge (b : builder) (from to kind : string) : builder :=
  if bool_decide (from = "") || bool_decide (to = "") || bool_decide (from = to) then b
  else with_edges b (<[edgeKey from to kind := MkGraphEdge from to kind]> (edges b)).

(** ** Edges *)

Definition nodeID (entry : object) : string := gn_ID (ob_node entry).

Definition ownerEdges (b : builder) (entry : object) (raw : U) : builder :=
  foldl (fun b owner =>
    if bool_decide (ow_UID owner = "") then b
    else
      let '(b, id) := ensureOwner b owner (gn_Namespace (ob_node entry)) in
      let b := addEdge b id (nodeID entry) edgeOwns in
      if bool_decide (ow_Controller owner = Some true) then with_controller b (<[nodeID entry := id]> (controller b)) else b)
    b (OwnerReferencesOf raw).

Definition templatedByItsController (b : builder) (entry : object) : bool :=
  match controller b !! nodeID entry with
  | None => false
  | Some owner =>
      match objects b !! owner with
      | None => false
      | Some held =>
          match ob_raw held with
          | None => false
          | Some _ => bool_decide (is_Some (podTemplatePaths (gn_Kind (ob_node held))))
          end
      end
  end.

Definition configEdges (b : builder) (entry : object) (raw : U) : builder :=
  match podTemplatePaths (gn_Kind (ob_node entry)) with
  | None => b
  | Some path =>
      if templatedByItsController b entry then b
      else
        foldl (fun b ref =>
          let '(b, id) := ensure b "" (cr_kind ref) (gn_Namespace (ob_node entry)) (cr_name ref) categoryConfig "" in
          addEdge b id (nodeID entry) edgeConfigures)
          b (configRefs (mapAt (Some (ObjectOf raw)) path))
  end.

Definition serviceEdges (b : builder) (entry : object) (raw : U) : builder :=
  match stringsOf (UMap raw ["spec"; "selector"]) with
  | [] => b
  | selector =>
      foldl (fun b id =>
        if selects selector (match objects b !! id with Some held => ob_labels held | None => ∅ end)
        then addEdge b (nodeID entry) id edgeRoutes else b)
        b (candidates (default ∅ (podsByPair b !! gn_Namespace (ob_node entry))) selector)
  end.

Definition appendService (names : list string) (backend : option amap) : list string :=
  let name := at_ (mapAt backend ["service"]) "name" in if bool_decide (name = "") then names else names ++ [name].

Definition backendServices (raw : U) : list string :=
  let names := appendService [] (mapAt (Some (ObjectOf raw)) ["spec"; "defaultBackend"]) in
  let names := foldl (fun names entry =>
    foldl (fun names step => appendService names (mapAt (Some step) ["backend"])) names (maps (sliceAt (Some entry) ["http"] "paths")))
    names (maps (USlice raw ["spec"; "rules"])) in
  Compact (sort_by str_compare names).

Definition ingressEdges (b : builder) (entry : object) (raw : U) : builder :=
  foldl (fun b name =>
    let '(b, id) := ensure b "" "Service" (gn_Namespace (ob_node entry)) name categoryService statusMissing in
    addEdge b (nodeID entry) id edgeRoutes)
    b (backendServices raw).

Definition scaleEdges (b : builder) (entry : object) (raw : U) : builder :=
  let target := mapAt (Some (ObjectOf raw)) ["spec"; "scaleTargetRef"] in
  let kind := at_ target "kind" in
  let name := at_ target "name" in
  if bool_decide (kind = "") || bool_decide (name = "") then b
  else
    let '(b, id) := ensure b (groupOf (at_ target "apiVersion")) kind (gn_Namespace (ob_node entry)) name categoryWorkload statusMissing in
    addEdge b (nodeID entry) id edgeScales.

(** [slices.Sort] of the keys of a map. *)
Definition sortedKeys {A} (m : gmap string A) : list string := sort_by str_compare (map fst (map_to_list m)).

Definition listed (b : builder) : list (object * U) :=
  omap (fun id => entry ← objects b !! id; raw ← ob_raw entry; Some (entry, raw)) (sortedKeys (objects b)).

Definition linkOne (b : builder) (entry : object) (raw : U) : builder :=
  let classed category := bool_decide (gn_Category (ob_node entry) = category) in
  let b := if classed categoryService then serviceEdges b entry raw else b in
  let b := if classed categoryIngress then ingressEdges b entry raw else b in
  if classed categoryAutoscaler then scaleEdges b entry raw else b.

Definition link (b : builder) : builder :=
  let l := listed b in
  let b := foldl (fun b '(entry, raw) => ownerEdges b entry raw) b l in
  let b := foldl (fun b '(entry, raw) => configEdges b entry raw) b l in
  foldl (fun b '(entry, raw) => linkOne b entry raw) b l.

(** ** Folding *)

Definition ids (b : builder) : list string := sortedKeys (objects b).

Definition setOf (values : list string) : gset string := list_to_set (List.filter (fun value => negb (bool_decide (value = ""))) values).

Definition kindOf (b : builder) (id : string) : string := match objects b !! id with Some o => gn_Kind (ob_node o) | None => "" end.
Definition namespaceOf (b : builder) (id : string) : string := match objects b !! id with Some o => gn_Namespace (ob_node o) | None => "" end.
Definition readyAt (b : builder) (id : string) : string := match objects b !! id with Some o => gn_Ready (ob_node o) | None => "" end.

Definition foldParents (b : builder) (ids : list string) : gmap string string :=
  foldl (fun parents id =>
    if negb (contains foldableKinds (kindOf b id)) then parents
    else
      match controller b !! id with
      | None => parents
      | Some owner => if bool_decide (is_Some (objects b !! owner)) then <[id := owner]> parents else parents
      end)
    ∅ ids.
End topology.

Fixpoint shownFrom (depth : nat) (id : string) (parents : gmap string string) (expanded : gset string) : bool :=
  match depth with
  | O => false
  | S depth =>
      match parents !! id with
      | None => true
      | Some parent => if bool_decide (parent ∈ expanded) then shownFrom depth parent parents expanded else false
      end
  end.

Definition shown (id : string) : gmap string string -> gset string -> bool := shownFrom maxFoldDepth id.

Fixpoint anchorFrom (depth : nat) (id : string) (parents : gmap string string) (visible : gset string) : string :=
  match depth with
  | O => ""
  | S depth =>
      match parents !! id with
      | None => ""
      | Some parent => if bool_decide (parent ∈ visible) then parent else anchorFrom depth parent parents visible
      end
  end.

Definition anchorOf (id : string) : gmap string string -> gset string -> string := anchorFrom maxFoldDepth id.

Definition visibleSet (ids : list string) (parents : gmap string string) (expanded : gset string) : gset string :=
  list_to_set (List.filter (fun id => shown id parents expanded) ids).

Definition resolve (id : string) (parents : gmap string string) (visible : gset string) : string :=
  if bool_decide (id ∈ visible) then id else anchorOf id parents visible.

Definition step (edge : GraphEdge) (near frontier : gset string) : list string :=
  (if bool_decide (ge_From edge ∈ frontier) && bool_decide (ge_To edge ∉ near) then [ge_To edge] else []) ++
  (if bool_decide (ge_To edge ∈ frontier) && bool_decide (ge_From edge ∉ near) then [ge_From edge] else []).

(** [range rootDepth]: what is near grows by what is one edge from the frontier. *)
Fixpoint spread (depth : nat) (edges : list GraphEdge) (near frontier : gset string) : gset string :=
  match depth with
  | O => near
  | S depth =>
      let next : gset string := list_to_set (flat_map (fun edge => step edge near frontier) edges) in
      spread depth edges (near ∪ next) next
  end.

Definition compareEdges : GraphEdge -> GraphEdge -> Z :=
  cmp_then (cmp_on ge_From str_compare) (cmp_then (cmp_on ge_To str_compare) (cmp_on ge_Kind str_compare)).

Section graph.
Context {U : Type} `{!Unstructured U} `{!Described U} `{!Linked U}.
Local Abbreviation builder := (@builder U).

Definition crowded (b : builder) (visible : gset string) : bool :=
  if (Z.of_nat (size visible) <=? nodeBudget)%Z then false
  else
    let drawn : gset string := list_to_set (map (namespaceOf b) (elements visible)) in
    (1 <? Z.of_nat (size drawn))%Z.

Definition namespaceResource (namespace : string) : string := if bool_decide (namespace = "") then "" else "namespaces".

Definition district (b : builder) (namespace : string) : builder * string :=
  let id := districtIDTag +s+ namespace in
  if bool_decide (is_Some (objects b !! id)) then (b, id)
  else
    let name := if bool_decide (namespace = "") then "cluster-scoped" else namespace in
    let node := MkGraphNode id "Namespace" "" "v1" (namespaceResource namespace) name "" "" readyUnknown categoryNamespace 0 0 in
    (with_objects b (<[id := MkObject node None ∅]> (objects b)) (identity b), id).

(** One object of the loop of [districts]: the builder with its district, what
    is folded and what is drawn nevertheless. *)
Definition districtStep (expanded : gset string) (st : builder * gmap string string * gset string) (id : string) :
    builder * gmap string string * gset string :=
  let '(b, wider, exposed) := st in
  match wider !! id with
  | Some _ => st
  | None =>
      let '(b, home) := district b (namespaceOf b id) in
      let wider := <[id := home]> wider in
      if bool_decide (home ∈ expanded) then (b, wider, exposed)
      else if bool_decide (readyAt b id = readyFalse) then (b, wider, {[ id ]} ∪ exposed) else (b, wider, exposed)
  end.

Definition districts (b : builder) (ids_ : list string) (parents : gmap string string) (expanded : gset string) :
    builder * list string * gmap string string * gset string :=
  let '(b, wider, exposed) := foldl (districtStep expanded) (b, parents, ∅) ids_ in
  let withDistricts := ids b in
  (b, withDistricts, wider, visibleSet withDistricts wider expanded ∪ exposed).

(** What the nodes that are drawn stand for: how many objects, and how many
    that are not ready. *)
Definition standsFor (b : builder) (ids_ : list string) (parents : gmap string string) (visible : gset string) : gmap string Z * gmap string Z :=
  foldl (fun '(contained, unhealthy) id =>
    if bool_decide (id ∈ visible) then (contained, unhealthy)
    else
      let anchor := anchorOf id parents visible in
      if bool_decide (anchor = "") then (contained, unhealthy)
      else
        (<[anchor := default 0 (contained !! anchor) + 1]> contained,
         if bool_decide (readyAt b id = readyFalse) then <[anchor := default 0 (unhealthy !! anchor) + 1]> unhealthy else unhealthy)%Z)
    (∅, ∅) ids_.

Definition drawn (node : GraphNode) (contained unhealthy : Z) : GraphNode :=
  MkGraphNode (gn_ID node) (gn_Kind node) (gn_Group node) (gn_Version node) (gn_Resource node) (gn_Name node) (gn_Namespace node)
    (gn_Status node) (if (0 <? unhealthy)%Z then readyFalse else gn_Ready node) (gn_Category node) contained unhealthy.

Definition nodesFor (b : builder) (ids_ : list string) (parents : gmap string string) (visible : gset string) : list GraphNode :=
  let '(contained, unhealthy) := standsFor b ids_ parents visible in
  omap (fun id =>
    if negb (bool_decide (id ∈ visible)) then None
    else
      entry ← objects b !! id;
      Some (drawn (ob_node entry) (default 0%Z (contained !! id)) (default 0%Z (unhealthy !! id))))
    ids_.

Definition edgesFor (b : builder) (parents : gmap string string) (visible : gset string) : list GraphEdge :=
  let kept := foldl (fun (kept : gmap string GraphEdge) edge =>
    let from := resolve (ge_From edge) parents visible in
    let to := resolve (ge_To edge) parents visible in
    if bool_decide (from = "") || bool_decide (to = "") || bool_decide (from = to) then kept
    else <[edgeKey from to (ge_Kind edge) := MkGraphEdge from to (ge_Kind edge)]> kept)
    ∅ (map snd (map_to_list (edges b))) in
  map snd (map_to_list kept).

Definition rootID (b : builder) (root : ObjectRef) (parents : gmap string string) (visible : gset string) : string :=
  let kind := default "" (kindFor b !! (or_Group root +s+ "/" +s+ or_Resource root)) in
  if bool_decide (kind = "") then ""
  else
    match identity b !! identityKey (or_Group root) kind (or_Namespace root) (or_Name root) with
    | None => ""
    | Some id => resolve id parents visible
    end.

Definition neighborhood (b : builder) (root : ObjectRef) (parents : gmap string string) (visible : gset string)
    (nodes : list GraphNode) (edges : list GraphEdge) : list GraphNode * list GraphEdge :=
  let start := rootID b root parents visible in
  if bool_decide (start = "") then ([], [])
  else
    let near := spread rootDepth edges {[ start ]} {[ start ]} in
    (List.filter (fun node => bool_decide (gn_ID node ∈ near)) nodes,
     List.filter (fun edge => bool_decide (ge_From edge ∈ near) && bool_decide (ge_To edge ∈ near)) edges).

(** What [graph] draws: the builder with its districts, the ids, the folds and
    what is visible. *)
Definition folding (b : builder) (expanded : gset string) : builder * list string * gmap string string * gset string :=
  let parents := foldParents b (ids b) in
  let visible := visibleSet (ids b) parents expanded in
  if crowded b visible then districts b (ids b) parents expanded else (b, ids b, parents, visible).

Definition graph (b : builder) (req : Request) : Graph :=
  let '(b, ids_, parents, visible) := folding b (setOf (rq_Expanded req)) in
  let nodes := nodesFor b ids_ parents visible in
  let edges := edgesFor b parents visible in
  let '(nodes, edges) :=
    if bool_decide (or_Name (rq_Root req) <> "") then neighborhood b (rq_Root req) parents visible nodes edges else (nodes, edges) in
  MkGraph (sort_by (cmp_on gn_ID str_compare) nodes) (sort_by compareEdges edges) (Listerr.Message (failures b)).

(** What [Build] has before it draws: [descs] in the order their map is walked in. *)
Definition built (lister : ResourceDescriptor -> result string (list U)) (descs : list ResourceDescriptor) (req : Request) : builder :=
  let needed := List.filter (fun desc => negb (bool_decide (categoryFor desc = ""))) descs in
  link (foldl (collect lister (rq_Namespace req)) (newBuilder descs) needed).

Definition Build (lister : ResourceDescriptor -> result string (list U)) (descs : list ResourceDescriptor) (req : Request) : Graph :=
  graph (built lister descs req) req.
End graph.

(** ** Loops and lists *)

Lemma foldl_keeps {A B} (P : A -> Prop) (f : A -> B -> A) l a : P a -> (forall a x, x ∈ l -> P a -> P (f a x)) -> P (foldl f a l).
Proof.
  revert a. induction l as [| x l IH]; intros a Ha Hf; cbn; [done |].
  apply IH; [apply Hf; [apply list_elem_of_here | done] |]. intros a' y Hy. apply Hf. by apply list_elem_of_further.
Qed.

Lemma sortedKeys_elem {A} (m : gmap string A) id : id ∈ sortedKeys m <-> is_Some (m !! id).
Proof.
  unfold sortedKeys. rewrite sort_by_elem, map_elem. split.
  - intros ([k v] & -> & Hin%elem_of_map_to_list). by exists v.
  - intros [v Hv]. exists (id, v). split; [done | by apply elem_of_map_to_list].
Qed.

Lemma sortedKeys_nodup {A} (m : gmap string A) : NoDup (sortedKeys m).
Proof. unfold sortedKeys. rewrite sort_by_perm. apply NoDup_fst_map_to_list. Qed.

(** Folding [id] ends after at most [depth] steps. *)
Fixpoint ends (depth : nat) (id : string) (parents : gmap string string) : bool :=
  match parents !! id with
  | None => true
  | Some parent => match depth with O => false | S depth => ends depth parent parents end
  end.

Lemma anchored_at (members : list string) parents visible depth n id :
  (forall id, id ∈ members -> parents !! id = None -> id ∈ visible) ->
  (forall id parent, parents !! id = Some parent -> parent ∈ members) ->
  ends depth id parents = true -> depth < n -> id ∈ members -> id ∉ visible -> anchorFrom n id parents visible ∈ visible.
Proof.
  intros Hroot Hpar. revert n id. induction depth as [| depth IH]; intros [| n] id He Hn Hid Hv; try lia; cbn in *.
  - destruct (parents !! id) as [parent |] eqn:Hp; [done |]. by apply Hroot in Hp.
  - destruct (parents !! id) as [parent |] eqn:Hp; [| by apply Hroot in Hp].
    case_bool_decide; [done |]. apply IH; try done; [lia | by eapply Hpar].
Qed.

Section facts.
Context {U : Type} `{!Unstructured U} `{!Described U} `{!Linked U}.
Local Abbreviation builder := (@builder U).

(** ** Every object is kept under the id of its node *)

Definition named (b : builder) : Prop := forall id o, objects b !! id = Some o -> nodeID o = id /\ id <> "".

Lemma named_insert (b b' : builder) id o :
  named b -> nodeID o = id -> id <> "" -> objects b' = <[id := o]> (objects b) -> named b'.
Proof.
  intros Hb Ho Hne0 Hob id' o'. rewrite Hob. destruct (decide (id' = id)) as [-> | Hne].
  - rewrite lookup_insert_eq. by intros [= <-].
  - rewrite lookup_insert_ne by done. apply Hb.
Qed.

(** One more object, under the id of its node. *)
Local Ltac one_more Hb := eapply named_insert; [exact Hb | | | reflexivity]; [reflexivity |].

Lemma identityKey_some group kind namespace name : identityKey group kind namespace name <> "".
Proof. unfold identityKey. by destruct group. Qed.

Lemma named_same (b b' : builder) : named b -> objects b' = objects b -> named b'.
Proof. intros Hb Hob id o. rewrite Hob. apply Hb. Qed.

Lemma named_addEdge (b : builder) from to kind : named b -> named (addEdge b from to kind).
Proof. intros Hb. unfold addEdge. case_match; [done |]. by eapply named_same. Qed.

Lemma named_indexPod (b : builder) id obj : named b -> named (indexPod b id obj).
Proof.
  intros Hb id' o'. unfold indexPod. cbn. destruct (decide (id' = id)) as [-> | Hne].
  - rewrite lookup_alter_eq. destruct (objects b !! id) as [o |] eqn:Ho; [| done]. cbn. intros [= <-]. exact (Hb id o Ho).
  - rewrite lookup_alter_ne by done. apply Hb.
Qed.

Lemma named_add (b : builder) obj desc : named b -> named (add b obj desc).
Proof.
  intros Hb. unfold add. case_match; [done |]. case_match; [apply named_indexPod |]; one_more Hb; by apply bool_decide_eq_false in H.
Qed.

Lemma named_collect lister namespace (b : builder) desc : named b -> named (collect lister namespace b desc).
Proof.
  intros Hb. unfold collect. destruct (lister desc) as [items | e]; [| by eapply named_same].
  apply foldl_keeps; [by eapply named_same |]. intros b' item _ Hb'. case_match; [done |]. by apply named_add.
Qed.

Lemma named_ensure (b : builder) group kind namespace name category status :
  named b -> named (ensure b group kind namespace name category status).1.
Proof. intros Hb. unfold ensure. case_match; [done |]. one_more Hb. apply identityKey_some. Qed.

Lemma named_ensureOwner (b : builder) owner namespace : named b -> ow_UID owner <> "" -> named (ensureOwner b owner namespace).1.
Proof. intros Hb Ho. unfold ensureOwner. case_match; [done |]. by one_more Hb. Qed.

Lemma named_ownerEdges (b : builder) entry raw : named b -> named (ownerEdges b entry raw).
Proof.
  intros Hb. unfold ownerEdges. apply foldl_keeps; [done |]. intros b' owner _ Hb'. case_bool_decide as Ho; [done |].
  pose proof (named_ensureOwner b' owner (gn_Namespace (ob_node entry)) Hb' Ho) as He. destruct (ensureOwner _ _ _) as [b2 id]. cbn in He.
  case_match; [eapply named_same; [| done] |]; by apply named_addEdge.
Qed.

Lemma named_ensured (b : builder) group kind namespace name category status from to edge :
  named b -> named (let '(b, id) := ensure b group kind namespace name category status in addEdge b (from id) (to id) edge).
Proof.
  intros Hb. pose proof (named_ensure b group kind namespace name category status Hb) as He. destruct (ensure _ _ _ _ _ _ _) as [b2 id].
  by apply named_addEdge.
Qed.

Lemma named_configEdges (b : builder) entry raw : named b -> named (configEdges b entry raw).
Proof.
  intros Hb. unfold configEdges. case_match; [| done]. case_match; [done |]. apply foldl_keeps; [done |]. intros b' ref _ Hb'.
  by apply (named_ensured b' "" (cr_kind ref) _ _ _ _ (fun id => id) (fun _ => nodeID entry)).
Qed.

Lemma named_serviceEdges (b : builder) entry raw : named b -> named (serviceEdges b entry raw).
Proof.
  intros Hb. unfold serviceEdges. case_match; [done |]. apply foldl_keeps; [done |]. intros b' id _ Hb'. case_match; [| done].
  by apply named_addEdge.
Qed.

Lemma named_ingressEdges (b : builder) entry raw : named b -> named (ingressEdges b entry raw).
Proof.
  intros Hb. unfold ingressEdges. apply foldl_keeps; [done |]. intros b' name _ Hb'.
  by apply (named_ensured b' _ _ _ _ _ _ (fun _ => nodeID entry) (fun id => id)).
Qed.

Lemma named_scaleEdges (b : builder) entry raw : named b -> named (scaleEdges b entry raw).
Proof.
  intros Hb. unfold scaleEdges. case_match; [done |]. by apply (named_ensured b _ _ _ _ _ _ (fun _ => nodeID entry) (fun id => id)).
Qed.

Lemma named_built lister descs req : named (built lister descs req).
Proof.
  unfold built, link. apply foldl_keeps; [apply foldl_keeps; [apply foldl_keeps; [apply foldl_keeps |] |] |].
  - by intros id o.
  - intros b desc _. apply named_collect.
  - intros b [entry raw] _. apply named_ownerEdges.
  - intros b [entry raw] _. apply named_configEdges.
  - intros b [entry raw] _ Hb. unfold linkOne.
    repeat case_match; repeat first [done | apply named_scaleEdges | apply named_ingressEdges | apply named_serviceEdges].
Qed.

(** ** What a fold leaves to be drawn *)

(** What the loops need of a fold: the ids are those of the objects, what is
    visible is one of them, what is folded nowhere is visible, and what is folded
    is folded into an object. *)
Record drawing (b : builder) (ids_ : list string) (parents : gmap string string) (visible : gset string) : Prop := {
  dr_named : named b;
  dr_ids : ids_ = ids b;
  dr_visible : forall id, id ∈ visible -> id ∈ ids_;
}.

Lemma visibleSet_elem ids_ parents expanded id : id ∈ visibleSet ids_ parents expanded <-> id ∈ ids_ /\ shown id parents expanded = true.
Proof. unfold visibleSet. by rewrite elem_of_list_to_set, filter_elem. Qed.

Lemma ids_elem (b : builder) id : id ∈ ids b <-> is_Some (objects b !! id).
Proof. apply sortedKeys_elem. Qed.

(** Districts only add objects. *)
Definition grows (b b' : builder) : Prop := forall id o, objects b !! id = Some o -> objects b' !! id = Some o.

Lemma district_spec (b : builder) namespace :
  named b ->
  let '(b', id) := district b namespace in
  named b' /\ grows b b' /\ id = districtIDTag +s+ namespace /\ is_Some (objects b' !! id) /\
  (forall id', is_Some (objects b' !! id') -> is_Some (objects b !! id') \/ id' = id).
Proof.
  intros Hb. unfold district. case_bool_decide as Hs.
  - split; [done |]. split; [by intros id o |]. split; [done |]. split; [done | by left].
  - split; [by one_more Hb |]. split; [| split; [done | split]].
    + intros id o Ho. cbn. rewrite lookup_insert_ne; [done |]. intros <-. apply Hs. by exists o.
    + cbn. rewrite lookup_insert_eq. by eexists.
    + intros id' [o Ho]. cbn in Ho. destruct (decide (id' = districtIDTag +s+ namespace)) as [-> | Hne]; [by right |].
      left. rewrite lookup_insert_ne in Ho by done. by exists o.
Qed.

Definition tagged (id : string) : Prop := exists namespace, id = districtIDTag +s+ namespace.

(** What the loop of [districts] keeps, having seen some ids. *)
Record folded (b : builder) (parents : gmap string string) (seen : list string) (st : builder * gmap string string * gset string) : Prop := {
  fo_named : named st.1.1;
  fo_grows : grows b st.1.1;
  fo_new : forall id, is_Some (objects st.1.1 !! id) -> is_Some (objects b !! id) \/ tagged id;
  fo_keeps : forall id parent, parents !! id = Some parent -> st.1.2 !! id = Some parent;
  fo_wider : forall id parent, st.1.2 !! id = Some parent ->
    parents !! id = Some parent \/ id ∈ seen /\ tagged parent /\ is_Some (objects st.1.1 !! parent);
  fo_exposed : forall id, id ∈ st.2 -> id ∈ seen /\ readyAt st.1.1 id = readyFalse;
}.

Lemma districts_fold (b : builder) parents expanded seen st id :
  folded b parents seen st -> folded b parents (seen ++ [id]) (districtStep expanded st id).
Proof.
  destruct st as [[b1 wider] exposed]. intros [Hn Hg Hnew Hk Hw He]. cbn in *.
  assert (forall x, x ∈ seen -> x ∈ seen ++ [id]) as Hmore by (intros x Hx; apply elem_of_app; by left).
  assert (id ∈ seen ++ [id]) as Hid by (apply elem_of_app; right; by apply list_elem_of_singleton).
  destruct (wider !! id) as [q |] eqn:Hq.
  { constructor; cbn; try done.
    - intros x parent Hx. destruct (Hw x parent Hx) as [? | (? & ? & ?)]; [by left | right; auto].
    - intros x Hx. destruct (He x Hx). auto. }
  pose proof (district_spec b1 (namespaceOf b1 id) Hn) as Hd. destruct (district b1 _) as [b2 home].
  destruct Hd as (Hn2 & Hg2 & -> & Hs2 & Hnew2).
  set (wider2 := <[id := districtIDTag +s+ namespaceOf b1 id]> wider).
  assert (forall ex, (forall x, x ∈ ex -> x ∈ seen ++ [id] /\ readyAt b2 x = readyFalse) -> folded b parents (seen ++ [id]) (b2, wider2, ex)) as Hgo.
  { intros ex Hex. constructor; cbn; try done.
    - intros x o Hx. by apply Hg2, Hg.
    - intros x [Hx | ->]%Hnew2; [by apply Hnew | right; by eexists].
    - intros x parent Hx. unfold wider2. rewrite lookup_insert_ne; [by apply Hk |]. intros <-. by rewrite (Hk id parent Hx) in Hq.
    - intros x parent Hx. unfold wider2 in Hx. destruct (decide (x = id)) as [-> | Hne].
      + rewrite lookup_insert_eq in Hx. injection Hx as <-. right. split; [done |]. split; [by eexists | done].
      + rewrite lookup_insert_ne in Hx by done. destruct (Hw x parent Hx) as [? | (? & ? & [o Ho])]; [by left | right].
        split; [by apply Hmore |]. split; [done |]. exists o. by apply Hg2. }
  assert (forall x, x ∈ exposed -> x ∈ seen ++ [id] /\ readyAt b2 x = readyFalse) as Hold.
  { intros x Hx. destruct (He x Hx) as [Hs Hr]. split; [by apply Hmore |]. unfold readyAt in *.
    destruct (objects b1 !! x) as [o |] eqn:Ho; [| done]. by rewrite (Hg2 x o Ho). }
  case_bool_decide; [by apply Hgo |]. case_bool_decide as Hf; apply Hgo; [| done].
  intros x [->%elem_of_singleton | Hx]%elem_of_union; [done | by apply Hold].
Qed.

Lemma districts_folded (b : builder) ids_ parents expanded :
  named b -> folded b parents ids_ (foldl (districtStep expanded) (b, parents, ∅) ids_).
Proof.
  intros Hb. induction ids_ as [| id ids_ IH] using rev_ind; [| rewrite foldl_app; by apply districts_fold].
  constructor; cbn; [done | by intros id o | by left | done | by left | set_solver].
Qed.

Lemma foldParents_spec (b : builder) ids_ id parent :
  foldParents b ids_ !! id = Some parent -> id ∈ ids_ /\ is_Some (objects b !! parent).
Proof.
  unfold foldParents. revert id parent. induction ids_ as [| x ids_ IH] using rev_ind; [done |]. intros id parent.
  rewrite foldl_app. cbn. rewrite elem_of_app. intros Hl.
  assert (foldParents b ids_ !! id = Some parent -> (id ∈ ids_ \/ id ∈ [x]) /\ is_Some (objects b !! parent)) as Hold by (intros H; destruct (IH _ _ H); auto).
  unfold foldParents in Hold. destruct (negb _); [by auto |]. destruct (controller b !! x) as [owner |]; [| by auto].
  case_bool_decide as Ho; [| by auto].
  destruct (decide (id = x)) as [-> | Hne].
  - rewrite lookup_insert_eq in Hl. injection Hl as <-. split; [right; by apply list_elem_of_singleton | done].
  - rewrite lookup_insert_ne in Hl by done. auto.
Qed.

Lemma folding_drawing (b : builder) expanded :
  named b -> let '(b', ids_, parents, visible) := folding b expanded in drawing b' ids_ parents visible /\ grows b b'.
Proof.
  intros Hb. unfold folding. set (parents := foldParents b (ids b)). destruct (crowded b _).
  - unfold districts. pose proof (districts_folded b (ids b) parents expanded Hb) as Hf.
    destruct (foldl (districtStep expanded) _ _) as [[b1 wider] exposed]. destruct Hf as [Hn Hg Hnew Hk Hw He]. cbn in *. split; [| done]. constructor; [done | done |].
    intros id [Hv | Hv]%elem_of_union; [by apply visibleSet_elem in Hv as [? _] |].
    destruct (He id Hv) as [Hs _]. apply ids_elem in Hs as [o Ho]. apply ids_elem. exists o. by apply Hg.
  - split; [| by intros id o]. constructor; [done | done |]. by intros id [? _]%visibleSet_elem.
Qed.

Lemma shown_root id parents expanded : parents !! id = None -> shown id parents expanded = true.
Proof. intros H. unfold shown. cbn. by rewrite H. Qed.

Lemma ends_wider (parents wider : gmap string string) depth id :
  (forall id parent, parents !! id = Some parent -> wider !! id = Some parent) ->
  (forall id parent, wider !! id = Some parent -> parents !! id = Some parent \/ wider !! parent = None) ->
  ends depth id parents = true -> ends (S depth) id wider = true.
Proof.
  intros Hk Hw. revert id. induction depth as [| depth IH]; intros id He; cbn in *.
  - destruct (parents !! id) eqn:Hp; [done |]. destruct (wider !! id) as [q |] eqn:Hq; [| done].
    destruct (Hw id q Hq) as [? | Hn]; [congruence |]. by rewrite Hn.
  - destruct (wider !! id) as [q |] eqn:Hq; [| done]. destruct (Hw id q Hq) as [Hp | Hn]; [| by rewrite Hn].
    rewrite Hp in He. by apply IH.
Qed.

(** What is hidden is folded into something that is drawn, when its owners do
    not go round in circles and no object has the id of a district. *)
Lemma folding_anchored (b : builder) expanded :
  named b -> (forall namespace, objects b !! (districtIDTag +s+ namespace) = None) ->
  let '(b', ids_, parents, visible) := folding b expanded in
  forall id, ends 14 id (foldParents b (ids b)) = true -> id ∈ ids_ -> id ∉ visible -> anchorOf id parents visible ∈ visible.
Proof.
  intros Hb Hfree. unfold folding. pose proof (foldParents_spec b (ids b)) as Hp. set (parents := foldParents b (ids b)) in *.
  destruct (crowded b _).
  - unfold districts. pose proof (districts_folded b (ids b) parents expanded Hb) as Hf.
    destruct (foldl (districtStep expanded) _ _) as [[b1 wider] exposed]. destruct Hf as [Hn Hg Hnew Hk Hw Hx]. cbn [fst snd] in *.
    intros id He Hid Hv. apply (anchored_at (ids b1) wider _ 15); try done; [| | | unfold maxFoldDepth; lia].
    + intros id' Hid' Hnone. apply elem_of_union_l, visibleSet_elem. split; [done | by apply shown_root].
    + intros id' q Hq. apply ids_elem. destruct (Hw id' q Hq) as [Hq' | (_ & _ & Ho)]; [| done].
      destruct (Hp id' q Hq') as [_ [o Ho]]. exists o. by apply Hg.
    + apply (ends_wider parents); [done | | exact He].
      intros id' q Hq. destruct (Hw id' q Hq) as [Hq' | (_ & [namespace ->] & _)]; [by left | right].
      destruct (wider !! (districtIDTag +s+ namespace)) as [r |] eqn:Hr; [| done].
      assert (is_Some (objects b !! (districtIDTag +s+ namespace))) as [o Ho]; [| by rewrite Hfree in Ho].
      destruct (Hw _ _ Hr) as [Hr' | (Hs & _)]; [destruct (Hp _ _ Hr') as [Hs _] |]; by apply ids_elem.
  - intros id He Hid Hv. apply (anchored_at (ids b) parents _ 14); try done; [| | unfold maxFoldDepth; lia].
    + intros id' Hid' Hnone. apply visibleSet_elem. split; [done | by apply shown_root].
    + intros id' q Hq. destruct (Hp id' q Hq) as [_ Ho]. by apply ids_elem.
Qed.

(** ** What the nodes stand for *)

Definition hidden_under (parents : gmap string string) (visible : gset string) (anchor id : string) : bool :=
  negb (bool_decide (id ∈ visible)) && bool_decide (anchorOf id parents visible = anchor).

Lemma default_insert (m : gmap string Z) (i j : string) v :
  default 0%Z (<[i := v]> m !! j) = if bool_decide (i = j) then v else default 0%Z (m !! j).
Proof. case_bool_decide as H; [subst; by rewrite lookup_insert_eq | by rewrite lookup_insert_ne]. Qed.

Lemma standsFor_spec (b : builder) ids_ parents visible anchor :
  anchor <> "" ->
  default 0%Z ((standsFor b ids_ parents visible).1 !! anchor) = counted (hidden_under parents visible anchor) ids_ /\
  default 0%Z ((standsFor b ids_ parents visible).2 !! anchor) =
    counted (fun id => hidden_under parents visible anchor id && bool_decide (readyAt b id = readyFalse)) ids_.
Proof.
  intros Ha. unfold standsFor. induction ids_ as [| id ids_ IH] using rev_ind; [done |].
  rewrite !foldl_app, !counted_snoc. cbn. destruct (foldl _ _ _) as [c u]. cbn in IH. destruct IH as [<- <-].
  unfold hidden_under. case_bool_decide as Hv; cbn -[bool_decide]; [lia |].
  destruct (decide (anchorOf id parents visible = "")) as [He | He].
  { rewrite (bool_decide_eq_true_2 _ He), (bool_decide_eq_false_2 (anchorOf id parents visible = anchor)) by congruence. cbn. lia. }
  rewrite (bool_decide_eq_false_2 _ He). cbn -[bool_decide]. rewrite default_insert.
  case_bool_decide as Hs; [subst anchor |]; (split; [cbn; lia |]);
    case_bool_decide; rewrite ?default_insert, ?bool_decide_eq_true_2, ?bool_decide_eq_false_2 by done; cbn; lia.
Qed.

(** The node that is drawn for an object. *)
Definition nodeAt (b : builder) (ids_ : list string) (parents : gmap string string) (visible : gset string) (id : string) (o : @object U) : GraphNode :=
  drawn (ob_node o) (default 0%Z ((standsFor b ids_ parents visible).1 !! id)) (default 0%Z ((standsFor b ids_ parents visible).2 !! id)).

Lemma nodesFor_spec (b : builder) ids_ parents visible :
  nodesFor b ids_ parents visible =
  omap (fun id => if bool_decide (id ∈ visible) then nodeAt b ids_ parents visible id <$> (objects b !! id) else None) ids_.
Proof.
  unfold nodesFor, nodeAt. destruct (standsFor b ids_ parents visible) as [c u]. apply list_omap_ext. apply Forall_Forall2_diag, Forall_forall.
  intros id _. case_bool_decide; cbn; [| done]. by destruct (objects b !! id).
Qed.

Lemma nodesFor_elem (b : builder) ids_ parents visible node :
  node ∈ nodesFor b ids_ parents visible <->
  exists id o, id ∈ ids_ /\ id ∈ visible /\ objects b !! id = Some o /\ node = nodeAt b ids_ parents visible id o.
Proof.
  rewrite nodesFor_spec, list_elem_of_omap. split.
  - intros (id & Hid & Hn). case_bool_decide; [| done]. destruct (objects b !! id) as [o |] eqn:Ho; [| done].
    injection Hn as <-. by exists id, o.
  - intros (id & o & Hid & Hv & Ho & ->). exists id. split; [done |]. rewrite bool_decide_eq_true_2 by done. by rewrite Ho.
Qed.

Lemma nodesFor_ids (b : builder) ids_ parents visible :
  drawing b ids_ parents visible -> map gn_ID (nodesFor b ids_ parents visible) = List.filter (fun id => bool_decide (id ∈ visible)) ids_.
Proof.
  intros [Hn -> _]. rewrite nodesFor_spec.
  assert (Forall (fun id => is_Some (objects b !! id)) (ids b)) as Hall by (apply list.Forall_forall; intros id; by apply ids_elem).
  generalize (ids b) at 1 as all. intros all. induction Hall as [| id l [o Ho] _ IH]; [done |].
  cbn. rewrite Ho. case_bool_decide; cbn; rewrite IH; [| done]. f_equal. exact (proj1 (Hn id o Ho)).
Qed.

Lemma anchor_cases id parents visible n : anchorFrom n id parents visible = "" \/ anchorFrom n id parents visible ∈ visible.
Proof.
  revert id. induction n as [| n IH]; intros id; cbn; [by left |]. destruct (parents !! id); [| by left]. case_bool_decide; [by right | apply IH].
Qed.

Lemma resolve_cases id parents visible : resolve id parents visible = "" \/ resolve id parents visible ∈ visible.
Proof. unfold resolve. case_bool_decide; [by right | apply anchor_cases]. Qed.

(** An edge of the drawing is one between objects, seen at what stands for them. *)
Definition seen_edge (b : builder) (parents : gmap string string) (visible : gset string) (edge : GraphEdge) : Prop :=
  ge_From edge ∈ visible /\ ge_To edge ∈ visible /\ ge_From edge <> ge_To edge /\
  exists e k, edges b !! k = Some e /\ ge_Kind e = ge_Kind edge /\
    resolve (ge_From e) parents visible = ge_From edge /\ resolve (ge_To e) parents visible = ge_To edge.

Lemma edgesFor_spec (b : builder) parents visible :
  let edges_ := edgesFor b parents visible in NoDup edges_ /\ forall edge, edge ∈ edges_ -> seen_edge b parents visible edge.
Proof.
  unfold edgesFor. set (kept := foldl _ _ _).
  assert (map_Forall (fun k e => k = edgeKey (ge_From e) (ge_To e) (ge_Kind e) /\ seen_edge b parents visible e) kept) as Hf.
  { apply foldl_keeps; [apply map_Forall_empty |].
    intros kept' e0 ([k0 e0'] & -> & H0%elem_of_map_to_list)%map_elem Hk. cbn.
    pose proof (resolve_cases (ge_From e0') parents visible) as Hfrom. pose proof (resolve_cases (ge_To e0') parents visible) as Hto.
    repeat (case_bool_decide; cbn; [done |]). apply map_Forall_insert_2; [| done]. cbn. split; [done |].
    destruct Hfrom as [? | Hfrom], Hto as [? | Hto]; try done. unfold seen_edge. cbn. repeat split; try done. by exists e0', k0. }
  split.
  - apply NoDup_fmap_2_strong; [| apply NoDup_map_to_list].
    intros [k1 e1] [k2 e2] H1%elem_of_map_to_list H2%elem_of_map_to_list He. cbn in He. subst e2.
    destruct (Hf _ _ H1) as [-> _], (Hf _ _ H2) as [-> _]. done.
  - intros e ([k e'] & -> & H%elem_of_map_to_list)%map_elem. by apply (Hf k e').
Qed.

(** ** The neighbourhood of a node *)

(** [b] is at most [n] edges away from [a]. *)
Inductive near (edges : list GraphEdge) (a : string) : nat -> string -> Prop :=
| near_refl n : near edges a n a
| near_from n b edge : near edges a n b -> edge ∈ edges -> ge_From edge = b -> near edges a (S n) (ge_To edge)
| near_to n b edge : near edges a n b -> edge ∈ edges -> ge_To edge = b -> near edges a (S n) (ge_From edge).

Definition beside (edges : list GraphEdge) (x y : string) : Prop :=
  exists edge, edge ∈ edges /\ (ge_From edge = x /\ ge_To edge = y \/ ge_To edge = x /\ ge_From edge = y).

Lemma near_S edges_ a n y : near edges_ a (S n) y <-> near edges_ a n y \/ exists x, near edges_ a n x /\ beside edges_ x y.
Proof.
  split.
  - inversion 1 as [| ? x edge Hx He Hf | ? x edge Hx He Ht]; subst; [left; constructor | |]; right; eexists; (split; [exact Hx |]); exists edge; auto.
  - intros [H | (x & Hx & edge & He & [[<- <-] | [<- <-]])]; [| by econstructor | by econstructor].
    induction H; econstructor; eauto.
Qed.

Lemma step_elem edges_ near_ frontier y :
  y ∈ flat_map (fun edge => step edge near_ frontier) edges_ <-> (y ∉ near_) /\ exists x, x ∈ frontier /\ beside edges_ x y.
Proof.
  rewrite flat_map_elem. unfold step, beside. split.
  - intros (edge & He & [Hy | Hy]%elem_of_app); case_bool_decide; case_bool_decide; cbn in Hy; try by apply elem_of_nil in Hy.
    all: apply list_elem_of_singleton in Hy as ->; (split; [done |]); eexists; (split; [eassumption |]); exists edge; auto.
  - intros (Hn & x & Hx & edge & He & [[<- <-] | [<- <-]]); exists edge; (split; [done |]); rewrite elem_of_app.
    + left. rewrite (bool_decide_eq_true_2 (ge_From edge ∈ frontier)), (bool_decide_eq_true_2 (ge_To edge ∉ near_)) by done.
      by apply list_elem_of_singleton.
    + right. rewrite (bool_decide_eq_true_2 (ge_To edge ∈ frontier)), (bool_decide_eq_true_2 (ge_From edge ∉ near_)) by done.
      by apply list_elem_of_singleton.
Qed.

Lemma spread_near edges_ a depth k (near_ frontier : gset string) :
  (forall x, x ∈ near_ <-> near edges_ a k x) -> (forall x y, x ∈ near_ -> x ∉ frontier -> beside edges_ x y -> y ∈ near_) ->
  frontier ⊆ near_ -> forall x, x ∈ spread depth edges_ near_ frontier <-> near edges_ a (depth + k) x.
Proof.
  revert k near_ frontier. induction depth as [| depth IH]; intros k near_ frontier Hnear Hback Hsub; [done |].
  cbn [spread]. set (next := list_to_set _).
  assert (forall y, y ∈ next <-> (y ∉ near_) /\ exists x, x ∈ frontier /\ beside edges_ x y) as Hnext
    by (intros y; unfold next; by rewrite elem_of_list_to_set, step_elem).
  intros x. rewrite (IH (S k) (near_ ∪ next) next); [by rewrite Nat.add_succ_r | | | set_solver].
  - intros y. rewrite near_S, elem_of_union, Hnext, <- Hnear. split.
    + intros [Hy | (_ & z & Hz & Hb)]; [by left | right; exists z; rewrite <- Hnear; split; [by apply Hsub | done]].
    + intros [Hy | (z & Hz & Hb)]; [by left |]. rewrite <- Hnear in Hz. destruct (decide (y ∈ near_)) as [Hy | Hy]; [by left |]. right.
      split; [done |]. exists z. split; [| done]. destruct (decide (z ∈ frontier)) as [| Hnf]; [done |]. by destruct (Hy (Hback z y Hz Hnf Hb)).
  - intros z y [Hz | Hz]%elem_of_union Hnz Hb; [| done]. destruct (decide (y ∈ near_)) as [Hy | Hy]; [by apply elem_of_union_l |].
    apply elem_of_union_r, Hnext. split; [done |]. exists z. split; [| done].
    destruct (decide (z ∈ frontier)) as [| Hnf]; [done |]. by destruct (Hy (Hback z y Hz Hnf Hb)).
Qed.

Lemma near_ext edges1 edges2 a n x : (forall e, e ∈ edges1 -> e ∈ edges2) -> near edges1 a n x -> near edges2 a n x.
Proof. intros He. induction 1; econstructor; eauto. Qed.

(** ** Counting what is drawn *)

Definition total (f : GraphNode -> Z) (nodes : list GraphNode) : Z := foldr (fun node n => f node + n)%Z 0%Z nodes.

Lemma total_perm f l k : l ≡ₚ k -> total f l = total f k.
Proof. unfold total. induction 1; cbn; lia. Qed.

Lemma counted_split (f g h : string -> bool) l :
  (forall x, f x = g x || h x) -> (forall x, g x && h x = false) -> counted f l = (counted g l + counted h l)%Z.
Proof.
  intros Hf Hgh. induction l as [| x l IH]; [done |]. rewrite !counted_cons, IH, Hf. specialize (Hgh x).
  destruct (g x), (h x); try done; cbn; lia.
Qed.

Lemma counted_all (l : list string) : counted (fun _ => true) l = zlen l.
Proof. induction l as [| x l IH]; [done |]. by rewrite counted_cons, zlen_cons, IH. Qed.

Lemma counted_ext (f g : string -> bool) l : (forall x, x ∈ l -> f x = g x) -> counted f l = counted g l.
Proof.
  intros Hf. induction l as [| x l IH]; [done |]. rewrite !counted_cons, Hf, IH; [done | | apply list_elem_of_here].
  intros y Hy. by apply Hf, list_elem_of_further.
Qed.

Lemma counted_anchors parents visible ids_ (anchors : list string) :
  NoDup anchors ->
  foldr (fun anchor n => counted (hidden_under parents visible anchor) ids_ + n)%Z 0%Z anchors =
  counted (fun id => negb (bool_decide (id ∈ visible)) && bool_decide (anchorOf id parents visible ∈ anchors)) ids_.
Proof.
  induction 1 as [| anchor anchors Hn _ IH]; cbn [foldr].
  - symmetry. apply counted_none, list.Forall_forall. intros id _. rewrite (bool_decide_eq_false_2 (_ ∈ [])); [apply andb_false_r | apply not_elem_of_nil].
  - rewrite IH. symmetry. apply counted_split; intros id; unfold hidden_under.
    + rewrite <- andb_orb_distrib_r. f_equal. repeat case_bool_decide; try done; set_solver.
    + destruct (bool_decide (id ∈ visible)); [done |]. cbn. repeat case_bool_decide; try done. by subst.
Qed.

(** An object is drawn, or folded into one that is. *)
Definition placed (parents : gmap string string) (visible : gset string) (id : string) : bool :=
  bool_decide (resolve id parents visible ∈ visible).

Lemma placed_spec parents visible id :
  placed parents visible id = bool_decide (id ∈ visible) || (negb (bool_decide (id ∈ visible)) && bool_decide (anchorOf id parents visible ∈ visible)).
Proof.
  unfold placed, resolve. destruct (decide (id ∈ visible)) as [Hv | Hv].
  - by rewrite !(bool_decide_eq_true_2 (id ∈ visible)).
  - by rewrite !(bool_decide_eq_false_2 (id ∈ visible)).
Qed.

Lemma total_contains (b : builder) ids_ parents visible :
  drawing b ids_ parents visible ->
  total (fun node => 1 + gn_Contains node)%Z (nodesFor b ids_ parents visible) = counted (placed parents visible) ids_.
Proof.
  intros Hd. pose proof (nodesFor_ids _ _ _ _ Hd) as Hids. pose proof Hd as [Hn Hi Hv].
  set (shown_ := List.filter _ _) in Hids.
  assert (total (fun node => 1 + gn_Contains node)%Z (nodesFor b ids_ parents visible) =
    zlen shown_ + foldr (fun anchor n => counted (hidden_under parents visible anchor) ids_ + n)%Z 0%Z shown_)%Z as ->.
  { rewrite <- Hids. clear Hids. assert (forall node, node ∈ nodesFor b ids_ parents visible ->
      gn_Contains node = counted (hidden_under parents visible (gn_ID node)) ids_) as Hc.
    { intros node (id & o & _ & _ & Ho & ->)%nodesFor_elem. destruct (Hn id o Ho) as [Hid Hne]. cbn.
      rewrite (proj1 (standsFor_spec b ids_ parents visible id Hne)). unfold nodeID in Hid. by rewrite Hid. }
    revert Hc. generalize (nodesFor b ids_ parents visible). intros nodes. induction nodes as [| node nodes IH]; intros Hc; [done |].
    cbn [total foldr map]. rewrite zlen_cons. fold (total (fun node => 1 + gn_Contains node)%Z nodes).
    rewrite IH by (intros node' H'; by apply Hc, list_elem_of_further). rewrite (Hc node) by apply list_elem_of_here. lia. }
  rewrite counted_anchors by (apply NoDup_ListNoDup, List.NoDup_filter, NoDup_ListNoDup; rewrite Hi; apply sortedKeys_nodup).
  change (zlen shown_) with (counted (fun id => bool_decide (id ∈ visible)) ids_).
  rewrite (counted_ext (fun id => negb (bool_decide (id ∈ visible)) && bool_decide (anchorOf id parents visible ∈ shown_))
    (fun id => negb (bool_decide (id ∈ visible)) && bool_decide (anchorOf id parents visible ∈ visible))).
  - symmetry. apply counted_split; [apply placed_spec |]. intros x. by destruct (bool_decide (x ∈ visible)).
  - intros id Hid. f_equal. apply bool_decide_ext. unfold shown_. rewrite filter_elem, bool_decide_eq_true.
    split; [by intros [_ ?] | intros Ha; split; [by apply Hv | done]].
Qed.

(** The node that stands for an object that is not ready tells so. *)
Lemma trouble_drawn (b : builder) ids_ parents visible id o :
  drawing b ids_ parents visible -> objects b !! id = Some o -> id ∈ ids_ -> gn_Ready (ob_node o) = readyFalse ->
  (id ∉ visible -> anchorOf id parents visible ∈ visible) ->
  exists node, node ∈ nodesFor b ids_ parents visible /\ gn_Ready node = readyFalse /\ gn_ID node = resolve id parents visible.
Proof.
  intros Hd Ho Hid Hr Ha. pose proof Hd as [Hn Hi Hv]. unfold resolve. case_bool_decide as Hvid.
  - exists (nodeAt b ids_ parents visible id o). split; [apply nodesFor_elem; by exists id, o |]. split; [| exact (proj1 (Hn id o Ho))].
    cbn. rewrite Hr. by case_match.
  - specialize (Ha Hvid). set (anchor := anchorOf id parents visible) in *. pose proof (Hv _ Ha) as Hain. rewrite Hi in Hain.
    apply ids_elem in Hain as [oa Hoa]. exists (nodeAt b ids_ parents visible anchor oa). destruct (Hn anchor oa Hoa) as [Hida Hne].
    split; [apply nodesFor_elem; exists anchor, oa; split; [by apply Hv | done] |]. split; [| exact Hida].
    unfold nodeAt, drawn. cbn [gn_Ready]. rewrite (proj2 (standsFor_spec b ids_ parents visible anchor Hne)).
    assert (0 < counted (fun id => hidden_under parents visible anchor id && bool_decide (readyAt b id = readyFalse)) ids_)%Z as Hpos.
    { apply list_elem_of_lookup_1 in Hid as [i Hi']. apply (counted_pos _ _ i id Hi'). unfold hidden_under, readyAt. rewrite Ho.
      rewrite bool_decide_eq_false_2 by done. by rewrite !bool_decide_eq_true_2. }
    by apply Z.ltb_lt in Hpos as ->.
Qed.

(** An edge is drawn between nodes that are drawn, whether or not the drawing
    is centred on one of them. *)
Definition joined (nodes : list GraphNode) (edge : GraphEdge) : Prop :=
  ge_From edge <> ge_To edge /\ ge_From edge ∈ map gn_ID nodes /\ ge_To edge ∈ map gn_ID nodes.

Lemma nodesFor_visible (b : builder) ids_ parents visible id :
  drawing b ids_ parents visible -> id ∈ visible -> id ∈ map gn_ID (nodesFor b ids_ parents visible).
Proof.
  intros Hd Hid. rewrite (nodesFor_ids _ _ _ _ Hd). apply filter_elem. split; [by apply Hd | by apply bool_decide_eq_true].
Qed.

Lemma filter_ids (near_ : gset string) (nodes : list GraphNode) :
  map gn_ID (List.filter (fun node => bool_decide (gn_ID node ∈ near_)) nodes) = List.filter (fun id => bool_decide (id ∈ near_)) (map gn_ID nodes).
Proof. induction nodes as [| node nodes IH]; [done |]. cbn. case_bool_decide; cbn; by rewrite IH. Qed.

Lemma graph_parts (b : builder) (req : Request) :
  named b ->
  exists nodes edges_, gr_Nodes (graph b req) = sort_by (cmp_on gn_ID str_compare) nodes /\ gr_Edges (graph b req) = sort_by compareEdges edges_ /\
    NoDup (map gn_ID nodes) /\ NoDup edges_ /\ forall edge, edge ∈ edges_ -> joined nodes edge.
Proof.
  intros Hb. pose proof (folding_drawing b (setOf (rq_Expanded req)) Hb) as Hd. unfold graph.
  destruct (folding b _) as [[[b' ids_] parents] visible]. destruct Hd as [Hd _].
  destruct (edgesFor_spec b' parents visible) as [Hne He]. set (nodes := nodesFor b' ids_ parents visible). set (edges_ := edgesFor _ _ _) in *.
  assert (NoDup (map gn_ID nodes)) as Hnn.
  { unfold nodes. rewrite (nodesFor_ids _ _ _ _ Hd). apply NoDup_ListNoDup, List.NoDup_filter, NoDup_ListNoDup.
    rewrite (dr_ids _ _ _ _ Hd). apply sortedKeys_nodup. }
  assert (forall edge, edge ∈ edges_ -> joined nodes edge) as Hj.
  { intros edge (Hf & Ht & Hft & _)%He. split; [done |]. by split; apply nodesFor_visible. }
  case_bool_decide; [| by exists nodes, edges_]. unfold neighborhood. case_bool_decide.
  { exists [], []. split; [done |]. split; [done |]. split; [by apply list.NoDup_nil |]. split; [by apply list.NoDup_nil |]. by intros edge H1%elem_of_nil. }
  set (near_ := spread _ _ _ _). eexists _, _. split; [reflexivity |]. split; [reflexivity |].
  split; [rewrite filter_ids; by apply NoDup_ListNoDup, List.NoDup_filter, NoDup_ListNoDup |].
  split; [by apply NoDup_ListNoDup, List.NoDup_filter, NoDup_ListNoDup |].
  intros edge [Hedge [Hf%bool_decide_eq_true Ht%bool_decide_eq_true]%andb_prop]%filter_elem. destruct (Hj edge Hedge) as (Hft & Hfn & Htn).
  split; [done |]. rewrite filter_ids. split; apply filter_elem; (split; [done | by apply bool_decide_eq_true]).
Qed.
End facts.

(** Centred on an object, the graph is what is at most two edges away from the
    node that stands for it, and the edges among that. *)
Theorem graph_centred {U : Type} (b : @builder U) root parents visible nodes edges_ :
  let start := rootID b root parents visible in
  start <> "" ->
  let '(kept, joins) := neighborhood b root parents visible nodes edges_ in
  (forall node, node ∈ kept <-> node ∈ nodes /\ near edges_ start 2 (gn_ID node)) /\
  forall edge, edge ∈ joins <-> edge ∈ edges_ /\ near edges_ start 2 (ge_From edge) /\ near edges_ start 2 (ge_To edge).
Proof.
  intros start Hs. unfold neighborhood. fold start. rewrite bool_decide_eq_false_2 by done.
  assert (forall x, x ∈ spread rootDepth edges_ {[ start ]} {[ start ]} <-> near edges_ start 2 x) as Hnear.
  { apply (spread_near edges_ start 2 0); [| set_solver | done]. intros x. rewrite elem_of_singleton.
    split; [intros ->; constructor | by inversion 1]. }
  split.
  - intros node. by rewrite filter_elem, bool_decide_eq_true, Hnear.
  - intros edge. by rewrite filter_elem, andb_true_iff, !bool_decide_eq_true, !Hnear.
Qed.

(** ** An example *)

Definition boolOf (v : option any) : option bool := match v with Some (ABool b) => Some b | _ => None end.

#[export] Instance doc_linked : Linked Doc := {
  OwnerReferencesOf u :=
    map (fun m => MkOwnerReference (At m "apiVersion") (At m "kind") (At m "name") (At m "uid") (boolOf (aget m "controller")))
      (maps (USlice u ["metadata"; "ownerReferences"]));
  LabelsOf u := list_to_map (stringsOf (UMap u ["metadata"; "labels"]));
}.

Definition exampleObject (kind name uid : string) (owner : option (string * string * string)) (labels rest : amap) : Doc :=
  MkDoc ([("kind", AString kind);
          ("metadata", AMap ([("name", AString name); ("namespace", AString "shop"); ("uid", AString uid); ("labels", AMap labels)] ++
             match owner with
             | None => []
             | Some (kind, name, uid) =>
                 [("ownerReferences", ASlice [AMap [("apiVersion", AString "apps/v1"); ("kind", AString kind); ("name", AString name);
                     ("uid", AString uid); ("controller", ABool true)]])]
             end))] ++ rest).

Definition exampleDescs : list ResourceDescriptor :=
  [MkResourceDescriptor "apps" "v1" "deployments" "Deployment" true ""; MkResourceDescriptor "apps" "v1" "replicasets" "ReplicaSet" true "";
   MkResourceDescriptor "" "v1" "pods" "Pod" true ""; MkResourceDescriptor "" "v1" "services" "Service" true "";
   MkResourceDescriptor "autoscaling" "v2" "horizontalpodautoscalers" "HorizontalPodAutoscaler" true ""].

Definition replicas (ready : Z) : amap := [("spec", AMap [("replicas", AInt ready)]); ("status", AMap [("readyReplicas", AInt ready)])].
Definition labelled (app : string) : amap := [("app", AString app)].
Definition phase (phase : string) : amap := [("status", AMap [("phase", AString phase)])].

(** A deployment, its replica set and two pods, one of which failed, behind a
    service. *)
Definition exampleLister (desc : ResourceDescriptor) : result string (list Doc) :=
  if bool_decide (rd_Kind desc = "Deployment") then Ok [exampleObject "Deployment" "cart" "d1" None [] (replicas 2)]
  else if bool_decide (rd_Kind desc = "ReplicaSet") then
    Ok [exampleObject "ReplicaSet" "cart-1" "r1" (Some ("Deployment", "cart", "d1")) [] (replicas 2)]
  else if bool_decide (rd_Kind desc = "Pod") then
    Ok [exampleObject "Pod" "cart-1-a" "p1" (Some ("ReplicaSet", "cart-1", "r1")) (labelled "cart") (phase "Succeeded");
        exampleObject "Pod" "cart-1-b" "p2" (Some ("ReplicaSet", "cart-1", "r1")) (labelled "cart") (phase "Failed")]
  else if bool_decide (rd_Kind desc = "Service") then
    Ok [exampleObject "Service" "cart" "s1" None [] [("spec", AMap [("selector", AMap (labelled "cart"))])]]
  else Err "forbidden".

Definition exampleGraphRequest : Request := MkRequest "" (MkObjectRef "" "" "" "" "") [].

Lemma untagged_free {U : Type} (b : @builder U) :
  forallb (fun id => negb (has_prefix id districtIDTag)) (ids b) = true -> forall namespace, objects b !! (districtIDTag +s+ namespace) = None.
Proof.
  intros Hall namespace. destruct (objects b !! _) as [o |] eqn:Ho; [| done].
  pose proof (proj1 (forallb_elem _ _) Hall (districtIDTag +s+ namespace)) as Hp. rewrite ids_elem in Hp. specialize (Hp (ex_intro _ o Ho)). done.
Qed.

(** ** The properties *)

(** The graph of a cluster is well formed, whatever the cluster answers and
    however it is folded: its nodes have ids of their own and come in their
    order, no edge comes twice, and every edge joins two different nodes that
    are in the graph. *)
Theorem graph_well_formed {U : Type} `{!Unstructured U, !Described U, !Linked U} lister descs req :
  let g := Build (U := U) lister descs req in
  StronglySorted (fun n m => str_compare (gn_ID n) (gn_ID m) <= 0)%Z (gr_Nodes g) /\ NoDup (map gn_ID (gr_Nodes g)) /\
  NoDup (gr_Edges g) /\ forall edge, edge ∈ gr_Edges g -> joined (gr_Nodes g) edge.
Proof.
  cbn. unfold Build. destruct (graph_parts (built lister descs req) req (named_built lister descs req)) as (nodes & edges_ & -> & -> & Hn & He & Hj).
  assert (map gn_ID (sort_by (cmp_on gn_ID str_compare) nodes) ≡ₚ map gn_ID nodes) as Hp by (apply Permutation_map, sort_by_perm).
  split; [apply (sort_by_sorted (cmp_on gn_ID str_compare)) |]. split; [by rewrite Hp |]. split; [by rewrite sort_by_perm |].
  intros edge [H1 [H2 H3]]%sort_by_elem%Hj. split; [done |]. by rewrite Hp.
Qed.

(** C29: a graph that is centred on nothing accounts for the objects there are.
    The nodes, each with the objects it contains, are as many as the objects
    that are drawn or folded into one that is, and every object is such a one
    unless its chain of owners goes round in a circle or does not end within
    fourteen steps (those are dropped); and when such an object is not ready the
    node that stands for it is drawn as not ready.  No object may have the id of
    a namespace's district. *)
Theorem graph_accounts {U : Type} `{!Unstructured U, !Described U, !Linked U} lister descs req :
  let b := built (U := U) lister descs req in
  let nodes := gr_Nodes (Build lister descs req) in
  or_Name (rq_Root req) = "" ->
  (forall namespace, objects b !! (districtIDTag +s+ namespace) = None) ->
  let '(b', ids_, parents, visible) := folding b (setOf (rq_Expanded req)) in
  (forall id, id ∈ ids b -> id ∈ ids_) /\
  total (fun node => 1 + gn_Contains node)%Z nodes = counted (placed parents visible) ids_ /\
  (forall id, id ∈ ids_ -> ends 14 id (foldParents b (ids b)) = true -> placed parents visible id = true) /\
  forall id o, objects b !! id = Some o -> gn_Ready (ob_node o) = readyFalse -> placed parents visible id = true ->
    exists node, node ∈ nodes /\ gn_Ready node = readyFalse /\ gn_ID node = resolve id parents visible.
Proof.
  intros b nodes Hroot Hfree. pose proof (named_built lister descs req) as Hn. subst nodes. unfold Build. fold b in Hn |- *.
  pose proof (folding_drawing b (setOf (rq_Expanded req)) Hn) as Hd. pose proof (folding_anchored b (setOf (rq_Expanded req)) Hn Hfree) as Ha.
  unfold graph. destruct (folding b _) as [[[b' ids_] parents] visible]. destruct Hd as [Hd Hg].
  rewrite Hroot. rewrite bool_decide_eq_false_2 by (intros H; by apply H). cbn [gr_Nodes]. split; [| split; [| split]].
  - intros id [o Ho]%ids_elem. rewrite (dr_ids _ _ _ _ Hd). apply ids_elem. exists o. by apply Hg.
  - rewrite (total_perm _ _ _ (sort_by_perm _ _)). by apply total_contains.
  - intros id Hid He. rewrite placed_spec. case_bool_decide as Hv; [done |]. by apply bool_decide_eq_true, Ha.
  - intros id o Ho Hr Hp. apply Hg in Ho. assert (id ∈ ids_) as Hid by (rewrite (dr_ids _ _ _ _ Hd); apply ids_elem; by exists o).
    destruct (trouble_drawn b' ids_ parents visible id o Hd Ho Hid Hr) as (node & Hin & H); [| exists node; by rewrite sort_by_elem].
    intros Hv. rewrite placed_spec, (bool_decide_eq_false_2 (id ∈ visible)) in Hp by done. cbn in Hp. by apply bool_decide_eq_true in Hp.
Qed.

Lemma graph_accounts_witness :
  map (fun node => (gn_ID node, gn_Ready node, gn_Contains node)) (gr_Nodes (Build exampleLister exampleDescs exampleGraphRequest)) =
    [("d1", readyFalse, 3%Z); ("s1", readyUnknown, 0%Z)] /\
  let '(_, ids_, parents, visible) := folding (built exampleLister exampleDescs exampleGraphRequest) ∅ in
  total (fun node => 1 + gn_Contains node)%Z (gr_Nodes (Build exampleLister exampleDescs exampleGraphRequest)) =
  counted (placed parents visible) ids_.
Proof.
  split; [vm_compute; reflexivity |].
  set (b := built exampleLister exampleDescs exampleGraphRequest).
  assert (forallb (fun id => negb (has_prefix id districtIDTag)) (ids b) = true) as Hfree by (vm_compute; reflexivity).
  pose proof (graph_accounts exampleLister exampleDescs exampleGraphRequest eq_refl (untagged_free b Hfree)) as H.
  fold b in H.
  change (setOf (rq_Expanded exampleGraphRequest)) with (∅ : gset string) in H.
  destruct (folding b ∅) as [[[b' ids_] parents] visible]. apply H.
Defined.

(** Two objects that own each other are dropped, and nothing goes on forever. *)
Definition knottedLister (desc : ResourceDescriptor) : result string (list Doc) :=
  if bool_decide (rd_Kind desc = "ReplicaSet") then
    Ok [exampleObject "ReplicaSet" "left" "rs-left" (Some ("ReplicaSet", "right", "rs-right")) [] (replicas 1);
        exampleObject "ReplicaSet" "right" "rs-right" (Some ("ReplicaSet", "left", "rs-left")) [] (replicas 1)]
  else Ok [].

Example knot_dropped :
  gr_Nodes (Build knottedLister exampleDescs exampleGraphRequest) = [] /\ gr_Edges (Build knottedLister exampleDescs exampleGraphRequest) = [].
Proof. split; vm_compute; reflexivity. Qed.

(** ** What modelling showed *)

(** A selector's empty value fits a pod without the label, so which pods a
    service reaches depends on the order a map is walked in. *)
Lemma selector_order_shows :
  let byPair : gmap string (list string) := {[ "app=web" := ["p1"; "p3"]; "tier=" := ["p1"; "p2"] ]} in
  let p3 : gmap string string := {[ "app" := "web" ]} in
  let reached selector := contains (candidates byPair selector) "p3" && selects selector p3 in
  reached [("app", "web"); ("tier", "")] = true /\ reached [("tier", ""); ("app", "web")] = false.
Proof. by vm_compute. Qed.

(** An object that names an owner that is gone takes the owner's name away
    from the object that has it now: the autoscaler of the deployment points at
    the one that is gone. *)
Definition staleLister (desc : ResourceDescriptor) : result string (list Doc) :=
  if bool_decide (rd_Kind desc = "Deployment") then Ok [exampleObject "Deployment" "cart" "new" None [] (replicas 2)]
  else if bool_decide (rd_Kind desc = "ReplicaSet") then
    Ok [exampleObject "ReplicaSet" "cart-1" "r1" (Some ("Deployment", "cart", "gone")) [] (replicas 2)]
  else if bool_decide (rd_Kind desc = "HorizontalPodAutoscaler") then
    Ok [exampleObject "HorizontalPodAutoscaler" "cart" "h1" None []
          [("spec", AMap [("scaleTargetRef", AMap [("apiVersion", AString "apps/v1"); ("kind", AString "Deployment"); ("name", AString "cart")])])]]
  else Ok [].

Lemma stale_owner_takes_name :
  gr_Edges (Build staleLister exampleDescs exampleGraphRequest) = [MkGraphEdge "h1" "gone" edgeScales].
Proof. by vm_compute. Qed.
End Topology.
