(* ===== verification/Posture.v ===== *)
(** internal/checks, what an audit says about frameworks and how a survey of a
    cluster is shared: cis.go and surveycache.go. *)

From S2P Require Import Prelude Api Text Unstr Issues Kube Inspect Corpus Pss Checks Numbers Patches Supply ObjectRules Registry.

Module Posture.
Import Api Text Checks.

Definition controlCovered : string := "covered".
Definition controlUncovered : string := "uncovered".
Definition controlOutOfScope : string := "out of scope".
Definition beyondNodeFiles : string := "the file and its permissions sit on a host's disk, and the API server does not serve them".
Definition beyondProcessFlags : string := "these are flags on a control-plane process, which a running cluster does not report through its API".
Definition beyondKubelet : string := "the kubelet reads this from its own configuration on the node, which is not an object anything can list".
Definition beyondEtcd : string := "etcd runs beside the API server rather than behind it, so nothing about it comes back from a cluster read".
Definition beyondPlugin : string := "whether the CNI enforces a NetworkPolicy is a property of the plugin, not of any object the cluster holds".
Definition beyondJudgement : string := "this asks where secrets ought to live, which is a decision rather than a state a cluster read can report".

(** ** Controls *)

Record control := MkControl { ct_framework : string; ct_id : string; ct_title : string; ct_checks : list string; ct_outOfScope : string }.

Definition state (c : control) : string :=
  if bool_decide (ct_outOfScope c <> "") then controlOutOfScope
  else if (zlen (ct_checks c) =? 0)%Z then controlUncovered else controlCovered.

Definition frameworkNames : list string := [Pss.pssBaseline; Pss.pssRestricted; Patches.nsaCisa; Patches.cisBenchmark].

Definition cisControl (id title : string) (named : list string) : control := MkControl Patches.cisBenchmark id title named "".
Definition cisBeyondReach (id title reason : string) : control := MkControl Patches.cisBenchmark id title [] reason.

Definition cisBeyondSection5 : list control := [
  cisBeyondReach "1.1" "Control Plane Node Configuration Files" beyondNodeFiles;
  cisBeyondReach "1.2" "API Server" beyondProcessFlags;
  cisBeyondReach "1.3" "Controller Manager" beyondProcessFlags;
  cisBeyondReach "1.4" "Scheduler" beyondProcessFlags;
  cisBeyondReach "2" "Etcd Node Configuration" beyondEtcd;
  cisBeyondReach "3.1" "Authentication and Authorization" beyondProcessFlags;
  cisBeyondReach "3.2" "Logging" beyondProcessFlags;
  cisBeyondReach "4.1" "Worker Node Configuration Files" beyondNodeFiles;
  cisBeyondReach "4.2" "Kubelet" beyondKubelet;
  cisBeyondReach "4.3" "kube-proxy" beyondKubelet].

Definition cisAccessControls : list control := [
  cisControl "5.1.1" "Ensure that the cluster-admin role is only used where required" ["cluster-admin-bound"];
  cisControl "5.1.2" "Minimize access to secrets" ["rbac-read-secrets"];
  cisControl "5.1.3" "Minimize wildcard use in Roles and ClusterRoles" ["rbac-wildcard-verbs"; "rbac-wildcard-resources"; "rbac-wildcard-api-groups"];
  cisControl "5.1.4" "Minimize access to create pods" ["rbac-create-pods"];
  cisControl "5.1.5" "Ensure that default service accounts are not actively used" ["default-service-account"];
  cisControl "5.1.6" "Ensure that Service Account Tokens are only mounted where necessary" ["automount-token"];
  cisControl "5.1.7" "Avoid use of system:masters group" ["bound-to-everyone"];
  cisControl "5.1.8" "Limit use of the Bind, Impersonate and Escalate permissions in the Kubernetes cluster" ["rbac-escalate-or-bind"; "rbac-impersonate"];
  cisControl "5.1.9" "Minimize access to create persistent volumes" [];
  cisControl "5.1.10" "Minimize access to the proxy sub-resource of nodes" ["rbac-node-proxy"];
  cisControl "5.1.11" "Minimize access to the approval sub-resource of certificatesigningrequests objects" [];
  cisControl "5.1.12" "Minimize access to webhook configuration objects" ["rbac-write-webhooks"];
  cisControl "5.1.13" "Minimize access to the service account token creation" []].

Definition cisAdmissionControls : list control := [
  cisControl "5.2.1" "Ensure that the cluster has at least one active policy control mechanism in place" [];
  cisControl "5.2.2" "Minimize the admission of privileged containers" ["privileged-containers"];
  cisControl "5.2.3" "Minimize the admission of containers wishing to share the host process ID namespace" ["host-namespaces"];
  cisControl "5.2.4" "Minimize the admission of containers wishing to share the host IPC namespace" ["host-namespaces"];
  cisControl "5.2.5" "Minimize the admission of containers wishing to share the host network namespace" ["host-namespaces"];
  cisControl "5.2.6" "Minimize the admission of containers with allowPrivilegeEscalation" ["privilege-escalation"];
  cisControl "5.2.7" "Minimize the admission of root containers" ["run-as-root"; "run-as-user-zero"];
  cisControl "5.2.8" "Minimize the admission of containers with the NET_RAW capability" ["net-raw-kept"];
  cisControl "5.2.9" "Minimize the admission of containers with capabilities assigned" ["dangerous-capabilities"; "capabilities-not-dropped"];
  cisControl "5.2.10" "Minimize the admission of Windows HostProcess containers" ["host-process"];
  cisControl "5.2.11" "Minimize the admission of HostPath volumes" ["host-path-volume"; "sensitive-host-path"; "writable-host-mount"];
  cisControl "5.2.12" "Minimize the admission of containers which use HostPorts" ["host-ports"]].

Definition cisPolicyControls : list control := [
  cisBeyondReach "5.3.1" "Ensure that the CNI in use supports NetworkPolicies" beyondPlugin;
  cisControl "5.3.2" "Ensure that all Namespaces have NetworkPolicies defined" ["no-network-policy"; "policy-allows-everything"];
  cisControl "5.4.1" "Prefer using Secrets as files over Secrets as environment variables" ["env-from-secret-wholesale"; "secret-in-env-literal"];
  cisBeyondReach "5.4.2" "Consider external secret storage" beyondJudgement;
  cisBeyondReach "5.5.1" "Configure Image Provenance using ImagePolicyWebhook admission controller" beyondProcessFlags;
  cisControl "5.6.1" "Create administrative boundaries between resources using namespaces" ["default-namespace"];
  cisControl "5.6.2" "Ensure that the seccomp profile is set to docker/default in your Pod definitions" ["seccomp-unset"; "seccomp-unconfined"];
  cisControl "5.6.3" "Apply SecurityContext to your Pods and Containers" ["run-as-root"; "privilege-escalation"; "writable-root-filesystem"; "capabilities-not-dropped"; "root-group"];
  cisControl "5.6.4" "The default namespace should not be used" ["default-namespace"]].

Definition cisSection5 : list control := cisAccessControls ++ cisAdmissionControls ++ cisPolicyControls.
Definition cisControls : list control := cisBeyondSection5 ++ cisSection5.

(** [api.FrameworkControl], [api.FrameworkPosture] *)
Record FrameworkControl := MkFrameworkControl {
  fc_Framework : string;
  fc_Control : string;
  fc_Title : string;
  fc_Scope : string;
  fc_Reason : string;
  fc_Checks : list string;
  fc_Failing : Z;
  fc_Muted : Z;
  fc_Objects : Z;
  fc_Covered : bool;
}.

Record FrameworkPosture := MkFrameworkPosture { fp_Frameworks : list string; fp_Controls : list FrameworkControl; fp_Reason : string }.

Record checkCount := MkCheckCount { cc_found : Z; cc_muted : Z; cc_objects : list Z; cc_ran : bool }.

(** The last group of an id counts. *)
Definition countsOf (report : CheckReport) : gmap string checkCount :=
  foldl (fun out group =>
    <[cg_ID group := MkCheckCount (cg_Total group) (cg_Muted group) (map cf_Ref (cg_Findings group)) (bool_decide (cg_Skipped group = ""))]> out)
    ∅ (cr_Groups report).

(** One check of a control: what failed, what is muted, on which objects, and
    whether every check ran. *)
Definition countOne (counted : gmap string checkCount) (st : Z * Z * gset Z * bool) (id : string) : Z * Z * gset Z * bool :=
  let '(failing, muted, objects, whole) := st in
  match counted !! id with
  | Some one =>
      if negb (cc_ran one) then (failing, muted, objects, false)
      else (failing + cc_found one, muted + cc_muted one, list_to_set (cc_objects one) ∪ objects, whole)%Z
  | None => (failing, muted, objects, false)
  end.

Definition posture (c : control) (counted : gmap string checkCount) : FrameworkControl * bool :=
  let told failing muted objects :=
    MkFrameworkControl (ct_framework c) (ct_id c) (ct_title c) (state c) (ct_outOfScope c) (ct_checks c) failing muted objects
      (bool_decide (state c = controlCovered)) in
  if bool_decide (ct_outOfScope c <> "") then (told 0 0 0, true)%Z
  else
    let '(failing, muted, objects, whole) := foldl (countOne counted) (0%Z, 0%Z, (∅ : gset Z), true) (ct_checks c) in
    (told failing muted (Z.of_nat (size objects)), whole).

Definition withoutControls (names : list string) : string :=
  if (zlen names =? 0)%Z then ""
  else "no numbered controls are cataloged for " +s+ Join ", " names +s+ ", which spinoza carries as a label on individual checks".

Definition notEveryCheckRan (ids : list string) : string :=
  if (zlen ids =? 0)%Z then ""
  else "not every check behind these controls ran, so their counts are partial: " +s+ Join ", " ids.

(** What the loops of [Posture] go through: the frameworks asked for, and the
    controls of each. *)
Definition askedFrameworks (framework : string) : list string :=
  List.filter (fun name => bool_decide (framework = "") || bool_decide (name = framework)) frameworkNames.

Definition controlsOf (held : list control) (name : string) : list control :=
  List.filter (fun one => bool_decide (ct_framework one = name)) held.

(** [Posture] over a catalog. *)
Definition postureOver (held : list control) (report : CheckReport) (framework : string) : FrameworkPosture :=
  if bool_decide (framework <> "") && negb (contains frameworkNames framework) then
    MkFrameworkPosture frameworkNames [] ("no framework goes by that name: " +s+ framework)
  else
    let counted := countsOf report in
    let '(controls, partial, empty) :=
      foldl (fun '(controls, partial, empty) name =>
        let here := controlsOf held name in
        let told := map (fun one => (one, posture one counted)) here in
        (controls ++ map (fun '(_, (entry, _)) => entry) told,
         partial ++ omap (fun '(one, (_, whole)) => if negb whole then Some (ct_id one) else None) told,
         if (zlen here =? 0)%Z then empty ++ [name] else empty))
        ([], [], []) (askedFrameworks framework) in
    MkFrameworkPosture frameworkNames controls (joined [withoutControls empty; notEveryCheckRan partial]).

Section posture.
Context {U : Type} {Un : Unstructured U} {De : Described U} {Ed : Editable U} {Ow : Owned U} {Qu : Quantities} {Tm : RFC3339}
  {Ps : PodSecurity} {Sh : Scheme}.

(** The checks that answer for a policy of upstream, the last one of each. *)
Definition answered : gmap string (Checks.check (U := U)) :=
  foldl (fun answered entry => if bool_decide (c_upstream entry = "") then answered else <[c_upstream entry := entry]> answered) ∅
    Registry.registry.

Definition pssControls : list control :=
  sort_by (cmp_on ct_id str_compare)
    (map (fun one =>
       let id := CheckID one in
       let framework := Pss.pssLabelOf (CheckLevel one) in
       match answered !! id with
       | Some rule => MkControl framework id (c_title rule) [c_id rule] ""
       | None => MkControl framework id id [] ""
       end) DefaultChecks).

Definition catalog : list control := cisControls ++ pssControls.

Definition Posture (report : CheckReport) (framework : string) : FrameworkPosture := postureOver catalog report framework.

(** ** The catalog and the checks *)

(** The controls of the CIS benchmark name exactly the checks that ship with
    the program under that label: no control counts on a check there is not or
    that is not about it, and no labelled check is left out. *)
Theorem cis_catalog_exact id :
  (exists one, one ∈ cisControls /\ id ∈ ct_checks one) <->
  (exists entry, entry ∈ Registry.registry (U := U) /\ Checks.c_id entry = id /\ Patches.cisBenchmark ∈ Checks.c_frameworks entry).
Proof.
  set (labelled := map Checks.c_id (List.filter (fun c => contains (Checks.c_frameworks c) Patches.cisBenchmark) (Registry.registry (U := U)))).
  assert (id ∈ flat_map ct_checks cisControls <-> id ∈ labelled) as Heq.
  { assert (forallb (contains labelled) (flat_map ct_checks cisControls) = true) as H1 by (vm_compute; reflexivity).
    assert (forallb (contains (flat_map ct_checks cisControls)) labelled = true) as H2 by (vm_compute; reflexivity).
    clearbody labelled. rewrite forallb_elem in H1, H2. split; intros Hid; [specialize (H1 id Hid) | specialize (H2 id Hid)]; by apply contains_spec. }
  rewrite flat_map_elem in Heq. rewrite Heq. unfold labelled. rewrite map_elem. split.
  - intros (c & -> & [Hin Hl%contains_spec]%filter_elem). by exists c.
  - intros (c & Hin & <- & Hl). exists c. split; [done |]. apply filter_elem. split; [done | by apply contains_spec].
Qed.
End posture.

(** ** What a control is told to be *)

Definition ran (counted : gmap string checkCount) (id : string) : bool := match counted !! id with Some one => cc_ran one | None => false end.

Definition tallied (f : checkCount -> Z) (counted : gmap string checkCount) (ids : list string) : Z :=
  foldr (fun id n => (match counted !! id with Some one => if cc_ran one then f one else 0 | None => 0 end + n)%Z) 0%Z ids.

(** A control that can be read fails as often as its checks that ran found
    something, and it is whole when all of them ran. *)
Lemma posture_spec c counted :
  ct_outOfScope c = "" ->
  fc_Failing (posture c counted).1 = tallied cc_found counted (ct_checks c) /\
  fc_Muted (posture c counted).1 = tallied cc_muted counted (ct_checks c) /\
  (posture c counted).2 = forallb (ran counted) (ct_checks c).
Proof.
  intros Hs. unfold posture. rewrite bool_decide_eq_false_2 by (intros H; by apply H).
  assert (forall ids st, (foldl (countOne counted) st ids).1.1.1 = (st.1.1.1 + tallied cc_found counted ids)%Z /\
    (foldl (countOne counted) st ids).1.1.2 = (st.1.1.2 + tallied cc_muted counted ids)%Z /\
    (foldl (countOne counted) st ids).2 = st.2 && forallb (ran counted) ids) as Hf.
  { induction ids as [| id ids IH]; intros [[[failing muted] objects] whole]; cbn [foldl tallied foldr forallb fst snd].
    - rewrite !Z.add_0_r, andb_true_r. done.
    - destruct (IH (countOne counted (failing, muted, objects, whole) id)) as (-> & -> & ->). unfold countOne, ran, tallied. destruct (counted !! id) as [one |]; cbn.
      + destruct (cc_ran one); cbn; rewrite ?andb_false_r; repeat split; lia.
      + rewrite andb_false_r. repeat split; lia. }
  destruct (Hf (ct_checks c) (0%Z, 0%Z, ∅, true)) as (H1 & H2 & H3). destruct (foldl (countOne counted) _ _) as [[[failing muted] objects] whole].
  cbn in *. by rewrite H1, H2, H3.
Qed.

(** The posture of one framework tells every control of it in the catalog's
    order, as [posture] has it. *)
Lemma posture_tells held report framework :
  framework ∈ frameworkNames ->
  fp_Controls (postureOver held report framework) = map (fun one => (posture one (countsOf report)).1) (controlsOf held framework).
Proof.
  intros Hf. unfold postureOver. assert (contains frameworkNames framework = true) as -> by (by apply contains_spec). rewrite andb_false_r.
  assert (askedFrameworks framework = [framework]) as ->.
  { unfold frameworkNames in Hf. repeat (apply elem_of_cons in Hf as [-> | Hf]; [by vm_compute |]). by apply elem_of_nil in Hf. }
  cbn. rewrite map_map. apply map_ext. intros one. by destruct (posture one _).
Qed.
End Posture.

(** surveycache.go: surveys that are two seconds old at most are given again. *)
Module Surveys.
Import Api Text Checks.

Definition surveyTTL : duration := (2 * Second)%Z.

(** [fnv.New64a] *)
Definition fnvOffset : Z := 14695981039346656037.
Definition fnvPrime : Z := 1099511628211.

Fixpoint fnv64a (sum : Z) (s : string) : Z :=
  match s with
  | EmptyString => sum
  | String c s => fnv64a (Z.lxor sum (Z.of_N (Ascii.N_of_ascii c)) * fnvPrime mod 2 ^ 64)%Z s
  end.

Definition fingerprint (keys : list string) : Z := foldl (fun sum key => fnv64a sum (key +s+ nul)) fnvOffset (sort_by str_compare keys).

Definition FormatBool (b : bool) : string := if b then "true" else "false".

Section surveys.
Context {U : Type} {Un : Unstructured U} {De : Described U} {Ed : Editable U} {Ow : Owned U} {Tm : RFC3339} {Ps : PodSecurity}.

(** What a caller brings: the lister that reads as that caller, what it says of
    the cluster, the kinds that are known with their keys, the usage that was
    measured, and the filter with the checks it knows. *)
Record call := MkCall {
  ca_lister : Corpus.Lister U;
  ca_facts : Facts;
  ca_keys : list string;
  ca_descs : list ResourceDescriptor;
  ca_usage : gmap string ResourceUsage;
  ca_usageError : string;
  ca_registered : list (check (U := U));
  ca_keep : Filter;
}.

Record taken := MkTaken { tk_at : time; tk_scan : scan (U := U); tk_failure : string; tk_absent : list string }.

Record Surveys := MkSurveys { ttl : duration; held : gmap string taken }.

Definition NewSurveys : Surveys := MkSurveys surveyTTL ∅.

Definition surveyKey (c : call) : string :=
  FormatBool (WholeCluster (ca_keep c)) +s+ "|" +s+ FormatBool (EveryKind (ca_keep c)) +s+ "|" +s+ Itoa (fingerprint (ca_keys c)) +s+ "|" +s+
  Itoa (Z.of_nat (size (ca_usage c))) +s+ "|" +s+ FormatBool (bool_decide (ca_usageError c = "")) +s+ "|" +s+
  Join "," (sort_by str_compare (map c_id (chosen (ca_keep c) (ca_registered c)))).

Definition lookup_ (s : Surveys) (key : string) (now : time) : option taken :=
  match held s !! key with
  | None => None
  | Some one => if (ttl s <=? tsub now (tk_at one))%Z then None else Some one
  end.

Definition keep (s : Surveys) (key : string) (one : taken) (now : time) : Surveys :=
  MkSurveys (ttl s) (<[key := one]> (filter (fun '(_, was) => (tsub now (tk_at was) < ttl s)%Z) (held s))).

(** [survey], as the caller. *)
Definition surveyOf (c : call) (at_ : time) : taken :=
  let '(sc, failure, absent) := survey (ca_registered c) (ca_lister c) (ca_facts c) (ca_descs c) (ca_usage c) (ca_keep c) in
  MkTaken at_ sc failure absent.

(** [take], where there is a cache or none: looking at [t1], having read the cluster by [t2] and keeping what
    was read at [t3]. *)
Definition take (s : option Surveys) (c : call) (t1 t2 t3 : time) : option Surveys * (scan (U := U) * string * list string) :=
  match s with
  | None => (None, survey (ca_registered c) (ca_lister c) (ca_facts c) (ca_descs c) (ca_usage c) (ca_keep c))
  | Some held =>
      match lookup_ held (surveyKey c) t1 with
      | Some one => (s, (tk_scan one, tk_failure one, tk_absent one))
      | None =>
          let one := surveyOf c t2 in
          (Some (keep held (surveyKey c) one t3), (tk_scan one, tk_failure one, tk_absent one))
      end
  end.

(** The critical sections of calls that run side by side. *)
Inductive event := Look (c : call) (now : time) | Keep (c : call) (at_ now : time).

Definition step (s : Surveys) (e : event) : Surveys :=
  match e with
  | Look _ _ => s
  | Keep c at_ now => keep s (surveyKey c) (surveyOf c at_) now
  end.

Definition run (s : Surveys) (l : list event) : Surveys := foldl step s l.

(** However calls interleave, a survey that is given again was taken for the
    same key less than two seconds before. *)
Lemma survey_recent l c now one :
  lookup_ (run NewSurveys l) (surveyKey c) now = Some one ->
  exists c' at_ kept, Keep c' at_ kept ∈ l /\ surveyKey c' = surveyKey c /\ one = surveyOf c' at_ /\ (tsub now at_ < surveyTTL)%Z.
Proof.
  assert (ttl (run NewSurveys l) = surveyTTL /\
    forall k o, held (run NewSurveys l) !! k = Some o -> exists c' at_ kept, Keep c' at_ kept ∈ l /\ surveyKey c' = k /\ o = surveyOf c' at_) as [Ht Hheld].
  { induction l as [| e l [Ht IH]] using rev_ind; [done |]. unfold run in *. rewrite foldl_app. cbn.
    assert (forall k o, held (foldl step NewSurveys l) !! k = Some o ->
      exists c' at_ kept, Keep c' at_ kept ∈ l ++ [e] /\ surveyKey c' = k /\ o = surveyOf c' at_) as Hold.
    { intros k o Ho. destruct (IH k o Ho) as (c' & a & kept & Hin & H). exists c', a, kept. split; [apply elem_of_app; by left | done]. }
    destruct e as [c' now' | c' a kept]; cbn; [done |]. split; [done |]. intros k o.
    destruct (decide (k = surveyKey c')) as [-> | Hne].
    - rewrite lookup_insert_eq. intros [= <-]. exists c', a, kept. split; [apply elem_of_app; right; by apply list_elem_of_singleton | done].
    - rewrite lookup_insert_ne by done. intros [Ho _]%map_lookup_filter_Some. by apply Hold. }
  unfold lookup_. destruct (held _ !! _) as [o |] eqn:Ho; [| done]. rewrite Ht. case_match eqn:Hle; [done |]. intros [= <-].
  apply Z.leb_gt in Hle. destruct (Hheld _ _ Ho) as (c' & a & kept & Hin & Hk & ->). exists c', a, kept.
  repeat split; try done. unfold surveyOf in Hle. by destruct (survey _ _ _ _ _ _) as [[? ?] ?].
Qed.

(** The key does not say who asks: of two callers whose filters agree, the
    second is given what the first could read, whatever the second may. *)
Theorem survey_crosses_callers s c1 c2 t1 t2 t3 t4 t5 t6 :
  surveyKey c2 = surveyKey c1 -> lookup_ s (surveyKey c1) t1 = None -> ttl s = surveyTTL -> (tsub t4 t2 < surveyTTL)%Z ->
  (take (take (Some s) c1 t1 t2 t3).1 c2 t4 t5 t6).2 = (take (Some s) c1 t1 t2 t3).2.
Proof.
  intros Hk Hl Ht Hlt. unfold take. rewrite Hl, Hk. cbn [fst snd]. unfold lookup_, keep. cbn [held ttl]. rewrite lookup_insert_eq, Ht.
  assert (tk_at (surveyOf c1 t2) = t2) as -> by (unfold surveyOf; by destruct (survey _ _ _ _ _ _) as [[? ?] ?]).
  by apply Z.leb_gt in Hlt as ->.
Qed.
End surveys.
End Surveys.
