(* ===== verification/Waste.v ===== *)
(** internal/waste: what the pods of a cluster reserve and do not use, by
    namespace and by workload. *)

From S2P Require Import Prelude Api Text Unstr Kube Inspect Checks Numbers Topology.

Module Waste.
Import Api Text Unstr.

Definition basisPoints : Z := 10000.
Definition namesShown : Z := 3.
Definition bytesPerMi : Z := 1024 * 1024.
Definition ownerDepth : nat := 4.
Definition podKind : string := "Pod".

Definition noPods : string := "no pods are running here".
Definition onlyFinished : string := "every pod here has finished, and a finished pod reserves nothing".
Definition noSource : string := "no usage source is wired up".
Definition notMeasured : string := "nothing measured usage, so this shows what is reserved and not what is used".

Record Ref := MkRef { rf_Namespace : string; rf_Name : string }.

Record Reading := MkReading { rd_Pods : gmap string Checks.ResourceUsage; rd_Source : string; rd_Window : string }.

Definition Meter := list Ref -> result string Reading.

Record WasteRow := MkWasteRow {
  wr_Kind : string;
  wr_Namespace : string;
  wr_Name : string;
  wr_Pods : Z;
  wr_CPURequested : Z;
  wr_CPUUsed : Z;
  wr_CPUReclaimable : Z;
  wr_MemRequested : Z;
  wr_MemUsed : Z;
  wr_MemReclaimable : Z;
  wr_Measured : bool;
}.

Record WasteReport := MkWasteReport {
  wp_Namespaces : list WasteRow;
  wp_Workloads : list WasteRow;
  wp_Window : string;
  wp_Source : string;
  wp_Measured : bool;
  wp_PartialOn : list string;
  wp_Reason : string;
}.

Record held := MkHeld {
  hd_ref : Ref;
  hd_kind : string;
  hd_owner : string;
  hd_cpu : Z;
  hd_mem : Z;
  hd_asks : bool;
  hd_used : Checks.ResourceUsage;
  hd_measured : bool;
}.

Definition unused : Checks.ResourceUsage := Checks.MkResourceUsage 0 0.

(** ** Usage *)

Definition refKey (ref : Ref) : string := rf_Namespace ref +s+ "/" +s+ rf_Name ref.

Definition refsOf (items : list held) : list Ref := map hd_ref items.

(** [live.Usage] over what metrics-server said. *)
Definition liveUsage (metrics : result string (gmap string Checks.ResourceUsage)) : Meter := fun pods =>
  match metrics with
  | Err e => Err e
  | Ok usage =>
      let out := foldl (fun (out : gmap string Checks.ResourceUsage) ref =>
        match usage !! refKey ref with None => out | Some use => <[refKey ref := use]> out end) ∅ pods in
      if (Z.of_nat (size out) =? 0)%Z then Err "metrics-server named none of the pods this asked about"
      else Ok (MkReading out "metrics-server" "right now")
  end.

Definition counted_ (count : Z) (noun : string) : string :=
  if (count =? 1)%Z then noun else Itoa count +s+ " " +s+ noun +s+ "s".

Definition windowWords (span : duration) : string :=
  if (span <=? 0)%Z then "right now"
  else
    let seconds := Z.quot span Second in
    if (seconds <? 60)%Z then "the last " +s+ counted_ seconds "second"
    else
      let minutes := Z.quot seconds 60 in
      if (minutes <? 60)%Z then "the last " +s+ counted_ minutes "minute"
      else
        let hours := Z.quot minutes 60 in
        if (hours <? 24)%Z then "the last " +s+ counted_ hours "hour" else "the last " +s+ counted_ (Z.quot hours 24) "day".

Fixpoint measureFrom (meters : list Meter) (pods : list Ref) (troubles : list string) : Reading * bool * string :=
  match meters with
  | [] =>
      (MkReading ∅ "" "", false, if (zlen troubles =? 0)%Z then noSource else Join "; " troubles)
  | one :: rest =>
      match one pods with Ok read => (read, true, "") | Err e => measureFrom rest pods (troubles ++ [e]) end
  end.

Definition measure (meters : list Meter) (pods : list Ref) : Reading * bool * string := measureFrom meters pods [].

Definition attach (items : list held) (usage : gmap string Checks.ResourceUsage) : list held :=
  map (fun item =>
    match usage !! refKey (hd_ref item) with
    | None => item
    | Some use => MkHeld (hd_ref item) (hd_kind item) (hd_owner item) (hd_cpu item) (hd_mem item) (hd_asks item) use true
    end) items.

(** ** Rows *)

Definition emptyRow (kind namespace name : string) : WasteRow := MkWasteRow kind namespace name 0 0 0 0 0 0 0 false.

Definition namespaceRow (item : held) : WasteRow := emptyRow "" (rf_Namespace (hd_ref item)) "".
Definition workloadRow (item : held) : WasteRow := emptyRow (hd_kind item) (rf_Namespace (hd_ref item)) (hd_owner item).

Definition floorAtZero (value : Z) : Z := if (value <? 0)%Z then 0 else value.

Definition rowID (row : WasteRow) : string := wr_Kind row +s+ nul +s+ wr_Namespace row +s+ nul +s+ wr_Name row.

(** One pod more in a row, in [int64]s. *)
Definition into (row : WasteRow) (item : held) : WasteRow :=
  let used := hd_used item in
  let measured n := if hd_measured item then n else 0%Z in
  MkWasteRow (wr_Kind row) (wr_Namespace row) (wr_Name row) (wr_Pods row + 1)%Z
    (wrap64 (wr_CPURequested row + hd_cpu item))
    (wrap64 (wr_CPUUsed row + measured (Checks.ru_CPUMilli used)))
    (wrap64 (wr_CPUReclaimable row + measured (floorAtZero (wrap64 (hd_cpu item - Checks.ru_CPUMilli used)))))
    (wrap64 (wr_MemRequested row + hd_mem item))
    (wrap64 (wr_MemUsed row + measured (Checks.ru_MemoryMi used)))
    (wrap64 (wr_MemReclaimable row + measured (floorAtZero (wrap64 (hd_mem item - Checks.ru_MemoryMi used)))))
    (wr_Measured row).

(** The rows with where each is and whether all of its pods were measured. *)
Record rolling := MkRolling { ro_place : gmap string nat; ro_rows : list WasteRow; ro_whole : list bool }.

Definition rollOne (keyOf : held -> WasteRow) (st : rolling) (item : held) : rolling :=
  let base := keyOf item in
  let id := rowID base in
  let '(st, where_) :=
    match ro_place st !! id with
    | Some where_ => (st, where_)
    | None =>
        let where_ := length (ro_rows st) in
        (MkRolling (<[id := where_]> (ro_place st)) (ro_rows st ++ [base]) (ro_whole st ++ [true]), where_)
    end in
  MkRolling (ro_place st) (alter (fun row => into row item) where_ (ro_rows st))
    (if hd_measured item then ro_whole st else <[where_ := false]> (ro_whole st)).

Definition with_measured (row : WasteRow) (measured : bool) : WasteRow :=
  MkWasteRow (wr_Kind row) (wr_Namespace row) (wr_Name row) (wr_Pods row) (wr_CPURequested row) (wr_CPUUsed row) (wr_CPUReclaimable row)
    (wr_MemRequested row) (wr_MemUsed row) (wr_MemReclaimable row) measured.

Definition rollup (items : list held) (keyOf : held -> WasteRow) : list WasteRow :=
  let st := foldl (rollOne keyOf) (MkRolling ∅ [] []) items in
  zip_with with_measured (ro_rows st) (ro_whole st).

Definition share (part whole : Z) : Z := if (whole <=? 0)%Z then 0 else Z.quot (wrap64 (part * basisPoints)) whole.

Definition score (row : WasteRow) (cpuTotal memTotal : Z) : Z :=
  wrap64 (share (wr_CPUReclaimable row) cpuTotal + share (wr_MemReclaimable row) memTotal).

Definition totals (rows : list WasteRow) : Z * Z :=
  foldl (fun '(cpu, mem) row => (wrap64 (cpu + wr_CPUReclaimable row), wrap64 (mem + wr_MemReclaimable row))) (0, 0)%Z rows.

Definition compareRows (cpuTotal memTotal : Z) : WasteRow -> WasteRow -> Z :=
  cmp_then (cmp_on (fun row => score row cpuTotal memTotal) cmp_desc) (cmp_then (cmp_on wr_Namespace str_compare) (cmp_on wr_Name str_compare)).

Definition ranked (rows : list WasteRow) : list WasteRow :=
  let '(cpuTotal, memTotal) := totals rows in sort_by (compareRows cpuTotal memTotal) rows.

(** ** What the report says beside the rows *)

Definition measuredIn (items : list held) (namespace : string) : Z :=
  counted (fun item => hd_measured item && bool_decide (rf_Namespace (hd_ref item) = namespace)) items.

Definition partialOn (items : list held) (namespaces workloads : list WasteRow) : list string :=
  let names : gset string :=
    list_to_set (omap (fun row => if wr_Measured row || (0 <? measuredIn items (wr_Namespace row))%Z then None else Some (wr_Namespace row)) namespaces) ∪
    list_to_set (omap (fun row =>
      if wr_Measured row || (measuredIn items (wr_Namespace row) =? 0)%Z then None else Some (wr_Namespace row +s+ "/" +s+ wr_Name row)) workloads) in
  sort_by str_compare (elements names).

Definition bareNames (items : list held) : list string :=
  omap (fun item => if hd_asks item then None else Some (refKey (hd_ref item))) items.

Definition podWord (count : Z) : string := if (count =? 1)%Z then "pod reserves" else "pods reserve".

Definition nameList (names : list string) : string :=
  let names := sort_by str_compare names in
  if (zlen names <=? namesShown)%Z then Join ", " names
  else Join ", " (ztake namesShown names) +s+ ", and " +s+ Itoa (zlen names - namesShown) +s+ " more".

Definition reasonOf (measured : bool) (why : string) (items : list held) (notes : list string) : string :=
  let bare := bareNames items in
  Join "; "
    ((if measured then [] else [notMeasured +s+ ": " +s+ why]) ++
     (if (0 <? zlen bare)%Z then [Itoa (zlen bare) +s+ " " +s+ podWord (zlen bare) +s+ " nothing and cannot be ranked: " +s+ nameList bare] else []) ++
     notes).

Section waste.
Context {U : Type} `{!Unstructured U} `{!Editable U} `{!Linked U} `{!Quantities}.

(** ** Pods *)

Definition finished (obj : U) : bool :=
  let n := NestedString obj ["status"; "phase"] in
  if failed n then false else bool_decide (value n = "Succeeded") || bool_decide (value n = "Failed").

Definition requestsOf (obj : U) : Z * Z * bool :=
  foldl (fun '(cpuMilli, memMi, asks) container =>
    let '(cpuMilli, asks) :=
      match Numbers.quantityAt container "requests" "cpu" with
      | Some cpu => (wrap64 (cpuMilli + MilliValue cpu), true) | None => (cpuMilli, asks) end in
    match Numbers.quantityAt container "requests" "memory" with
    | Some mem => (cpuMilli, wrap64 (memMi + Z.quot (Value mem) bytesPerMi), true) | None => (cpuMilli, memMi, asks) end)
    (0, 0, false)%Z (Topology.maps (USlice obj ["spec"; "containers"])).

Definition ownerKey (group kind namespace name : string) : string :=
  group +s+ "/" +s+ kind +s+ "/" +s+ namespace +s+ "/" +s+ name.

Definition ownerKinds : list (string * string) := [("apps", "replicasets"); ("batch", "jobs")].

(** [lister] is [ListKind] by group and resource, in the namespace asked for. *)
Definition ownerIndex (lister : string * string -> result string (list U)) : gmap string U * list string :=
  foldl (fun '(held, notes) kind =>
    match lister kind with
    | Err e => (held, notes ++ [kind.2 +s+ " could not be read, so some workloads are named by the pod's own owner: " +s+ e])
    | Ok found => (foldl (fun held obj => <[ownerKey (GroupOf obj) (GetKind obj) (GetNamespace obj) (GetName obj) := obj]> held) held found, notes)
    end) (∅, []) ownerKinds.

Definition controllerOf (obj : U) : option OwnerReference :=
  List.find (fun ref => bool_decide (ow_Controller ref = Some true)) (OwnerReferencesOf obj).

Fixpoint topOwnerFrom (depth : nat) (kind name : string) (current : U) (held : gmap string U) : string * string :=
  match depth with
  | O => (kind, name)
  | S depth =>
      match controllerOf current with
      | None => (kind, name)
      | Some ref =>
          match held !! ownerKey (Topology.groupOf (ow_APIVersion ref)) (ow_Kind ref) (GetNamespace current) (ow_Name ref) with
          | None => (ow_Kind ref, ow_Name ref)
          | Some next => topOwnerFrom depth (ow_Kind ref) (ow_Name ref) next held
          end
      end
  end.

Definition topOwner (obj : U) (held : gmap string U) : string * string :=
  topOwnerFrom ownerDepth (if bool_decide (GetKind obj = "") then podKind else GetKind obj) (GetName obj) obj held.

(** What one pod that has not finished holds: the body of the loop of
    [reservations]. *)
Definition reserved (owners : gmap string U) (obj : U) : held :=
  let '(cpu, mem, asks) := requestsOf obj in
  let '(kind, name) := topOwner obj owners in
  MkHeld (MkRef (GetNamespace obj) (GetName obj)) kind name cpu mem asks unused false.

Definition reservations (found : list U) (owners : gmap string U) : list held :=
  omap (fun obj => if finished obj then None else Some (reserved owners obj)) found.

(** [Build]: [pods] is the listing of the namespace's pods. *)
Definition Build (pods : result string (list U)) (lister : string * string -> result string (list U)) (meters : list Meter) :
    result string WasteReport :=
  match pods with
  | Err e => Err e
  | Ok found =>
      if (zlen found =? 0)%Z then Ok (MkWasteReport [] [] "" "" false [] noPods)
      else
        let '(owners, notes) := ownerIndex lister in
        let items := reservations found owners in
        if (zlen items =? 0)%Z then Ok (MkWasteReport [] [] "" "" false [] onlyFinished)
        else
          let '(reading, measured, why) := measure meters (refsOf items) in
          let items := attach items (rd_Pods reading) in
          let namespaces := ranked (rollup items namespaceRow) in
          let workloads := ranked (rollup items workloadRow) in
          let reason := reasonOf measured why items notes in
          Ok (if measured then
                MkWasteReport namespaces workloads (rd_Window reading) (rd_Source reading) true (partialOn items namespaces workloads) reason
              else MkWasteReport namespaces workloads "" "" false [] reason)
  end.
End waste.

(** ** The sums of a row *)

(** What an item adds to the columns of a row. *)
Definition when_measured (f : held -> Z) (item : held) : Z := if hd_measured item then f item else 0.

Definition usedCPU : held -> Z := when_measured (fun item => Checks.ru_CPUMilli (hd_used item)).
Definition usedMem : held -> Z := when_measured (fun item => Checks.ru_MemoryMi (hd_used item)).
Definition reclaimCPU : held -> Z := when_measured (fun item => floorAtZero (wrap64 (hd_cpu item - Checks.ru_CPUMilli (hd_used item)))).
Definition reclaimMem : held -> Z := when_measured (fun item => floorAtZero (wrap64 (hd_mem item - Checks.ru_MemoryMi (hd_used item)))).

(** A row tells its pods: how many they are and the sums over them, in [int64]s. *)
Record tells (row : WasteRow) (mine : list held) : Prop := {
  te_pods : wr_Pods row = zlen mine;
  te_cpu : wr_CPURequested row = wrap64 (sum_of hd_cpu mine);
  te_mem : wr_MemRequested row = wrap64 (sum_of hd_mem mine);
  te_usedCPU : wr_CPUUsed row = wrap64 (sum_of usedCPU mine);
  te_usedMem : wr_MemUsed row = wrap64 (sum_of usedMem mine);
  te_reclaimCPU : wr_CPUReclaimable row = wrap64 (sum_of reclaimCPU mine);
  te_reclaimMem : wr_MemReclaimable row = wrap64 (sum_of reclaimMem mine);
}.

Lemma into_tells row item mine : tells row mine -> tells (into row item) (mine ++ [item]).
Proof.
  intros []. constructor; cbn; rewrite ?sum_of_snoc, ?zlen_app;
    repeat match goal with H : _ row = _ |- _ => rewrite H; clear H end; try by rewrite wrap64_add_l. done.
Qed.

Definition of_row (keyOf : held -> WasteRow) (id : string) (items : list held) : list held :=
  List.filter (fun item => bool_decide (rowID (keyOf item) = id)) items.

Lemma of_row_snoc keyOf id items item :
  of_row keyOf id (items ++ [item]) = of_row keyOf id items ++ (if bool_decide (rowID (keyOf item) = id) then [item] else []).
Proof. unfold of_row. rewrite List.filter_app. cbn. by case_bool_decide. Qed.

(** What [keyOf] gives: a row without pods. *)
Definition blank (row : WasteRow) : Prop := tells row [].

(** The rows so far: each has an id of its own, tells the pods of that id, and
    is whole when all of them were measured. *)
Record rolled (keyOf : held -> WasteRow) (items : list held) (st : rolling) : Prop := {
  ro_length : length (ro_whole st) = length (ro_rows st);
  ro_placed : forall id i, ro_place st !! id = Some i <-> exists row, ro_rows st !! i = Some row /\ rowID row = id;
  ro_tells : forall i row, ro_rows st !! i = Some row -> tells row (of_row keyOf (rowID row) items);
  ro_every : forall i row, ro_rows st !! i = Some row -> ro_whole st !! i = Some (forallb hd_measured (of_row keyOf (rowID row) items));
  ro_known : forall item, item ∈ items -> is_Some (ro_place st !! rowID (keyOf item));
}.

Lemma rowID_into row item : rowID (into row item) = rowID row.
Proof. done. Qed.

Definition place_for (keyOf : held -> WasteRow) (st : rolling) (item : held) : rolling * nat :=
  let base := keyOf item in
  match ro_place st !! rowID base with
  | Some where_ => (st, where_)
  | None =>
      let where_ := length (ro_rows st) in
      (MkRolling (<[rowID base := where_]> (ro_place st)) (ro_rows st ++ [base]) (ro_whole st ++ [true]), where_)
  end.

Lemma last_one {A : Type} (l : list A) (x : A) : (l ++ [x]) !! length l = Some x.
Proof. rewrite lookup_app_r by done. by rewrite Nat.sub_diag. Qed.

Lemma place_for_spec keyOf items st item :
  blank (keyOf item) -> rolled keyOf items st ->
  rolled keyOf items (place_for keyOf st item).1 /\
  exists row, ro_rows (place_for keyOf st item).1 !! (place_for keyOf st item).2 = Some row /\ rowID row = rowID (keyOf item).
Proof.
  intros Hb Hr. pose proof Hr as []. unfold place_for. destruct (ro_place st !! rowID (keyOf item)) as [i |] eqn:Hp; cbn [fst snd].
  { split; [done |]. by apply ro_placed0. }
  assert (of_row keyOf (rowID (keyOf item)) items = []) as Hnone.
  { unfold of_row. destruct (List.filter _ items) as [| x l] eqn:Hf; [done |]. assert (x ∈ x :: l) as Hx by apply list_elem_of_here.
    rewrite <- Hf in Hx. apply filter_elem in Hx as [Hx Hid%bool_decide_eq_true]. destruct (ro_known0 x Hx) as [j Hj]. congruence. }
  assert (forall i row, (ro_rows st ++ [keyOf item]) !! i = Some row -> ro_rows st !! i = Some row \/ i = length (ro_rows st) /\ row = keyOf item) as Hnew.
  { intros i row [Hi | [Hle Hi]]%lookup_app_Some; [by left | right]. apply list_lookup_singleton_Some in Hi as [Hz <-]. split; [lia | done]. }
  split.
  - constructor; cbn.
    + by rewrite !length_app, ro_length0.
    + intros id i. destruct (decide (id = rowID (keyOf item))) as [-> | Hne].
      * rewrite lookup_insert_eq. split.
        -- intros [= <-]. exists (keyOf item). by rewrite last_one.
        -- intros (row & [Hi | [-> ->]]%Hnew & Hid); [| done]. assert (ro_place st !! rowID (keyOf item) = Some i) by (apply ro_placed0; by exists row). congruence.
      * rewrite lookup_insert_ne by done. rewrite ro_placed0. split; intros (row & Hi & Hid).
        -- exists row. split; [by apply lookup_app_l_Some | done].
        -- apply Hnew in Hi as [Hi | [-> ->]]; [by exists row | done].
    + intros i row [Hi | [-> ->]]%Hnew; [by eapply ro_tells0 | by rewrite Hnone].
    + intros i row [Hi | [-> ->]]%Hnew.
      * apply lookup_app_l_Some. by apply ro_every0.
      * by rewrite <- ro_length0, last_one, Hnone.
    + intros x Hx. destruct (decide (rowID (keyOf x) = rowID (keyOf item))) as [-> | Hne]; [rewrite lookup_insert_eq; by eexists |].
      rewrite lookup_insert_ne by done. by apply ro_known0.
  - exists (keyOf item). cbn [ro_rows]. by rewrite last_one.
Qed.

Lemma rollOne_place keyOf st item :
  rollOne keyOf st item =
  let '(st, where_) := place_for keyOf st item in
  MkRolling (ro_place st) (alter (fun row => into row item) where_ (ro_rows st))
    (if hd_measured item then ro_whole st else <[where_ := false]> (ro_whole st)).
Proof. done. Qed.

Lemma rollOne_spec keyOf items st item : blank (keyOf item) -> rolled keyOf items st -> rolled keyOf (items ++ [item]) (rollOne keyOf st item).
Proof.
  intros Hb Hr. destruct (place_for_spec keyOf items st item Hb Hr) as [[] (row0 & Hrow0 & Hid0)]. rewrite rollOne_place.
  destruct (place_for keyOf st item) as [st' w]. cbn [fst snd] in *.
  assert (forall i row, alter (fun row => into row item) w (ro_rows st') !! i = Some row ->
    i = w /\ row = into row0 item \/ i <> w /\ ro_rows st' !! i = Some row /\ rowID row <> rowID (keyOf item)) as Hrows.
  { intros i row. destruct (decide (i = w)) as [-> | Hne].
    - rewrite list_lookup_alter_eq, Hrow0. intros [= <-]. by left.
    - rewrite list_lookup_alter_ne by done. intros Hi. right. split; [done |]. split; [done |]. intros Hid.
      assert (ro_place st' !! rowID (keyOf item) = Some i) by (apply ro_placed0; by exists row).
      assert (ro_place st' !! rowID (keyOf item) = Some w) by (apply ro_placed0; by exists row0). congruence. }
  constructor; cbn [ro_place ro_rows ro_whole].
  - rewrite length_alter. destruct (hd_measured item); rewrite ?length_insert; done.
  - intros id i. rewrite ro_placed0. split; intros (row & Hi & Hid).
    + destruct (decide (i = w)) as [-> | Hne].
      * exists (into row item). by rewrite list_lookup_alter_eq, Hi.
      * exists row. by rewrite list_lookup_alter_ne.
    + destruct (Hrows i row Hi) as [[-> ->] | (_ & Hi' & _)]; [by exists row0 | by exists row].
  - intros i row Hi. rewrite of_row_snoc. destruct (Hrows i row Hi) as [[-> ->] | (_ & Hi' & Hne)].
    + rewrite rowID_into, Hid0, bool_decide_eq_true_2 by done. apply into_tells. rewrite <- Hid0. by apply (ro_tells0 w).
    + rewrite bool_decide_eq_false_2 by done. rewrite app_nil_r. by apply (ro_tells0 i).
  - intros i row Hi. rewrite of_row_snoc. destruct (Hrows i row Hi) as [[-> ->] | (Hw & Hi' & Hne)].
    + rewrite rowID_into, Hid0, bool_decide_eq_true_2 by done. rewrite forallb_app. cbn. rewrite andb_true_r.
      pose proof (ro_every0 w row0 Hrow0) as He. rewrite Hid0 in He. destruct (hd_measured item).
      * by rewrite andb_true_r.
      * rewrite andb_false_r. apply list_lookup_insert_eq. rewrite ro_length0. by eapply lookup_lt_Some.
    + rewrite bool_decide_eq_false_2 by done. rewrite app_nil_r. destruct (hd_measured item); [by apply ro_every0 |].
      rewrite list_lookup_insert_ne by done. by apply ro_every0.
  - intros x [Hx | ->%list_elem_of_singleton]%elem_of_app; [by apply ro_known0 |].
    exists w. apply ro_placed0. by exists row0.
Qed.

Lemma rollup_rolled items keyOf : (forall item, blank (keyOf item)) -> rolled keyOf items (foldl (rollOne keyOf) (MkRolling ∅ [] []) items).
Proof.
  intros Hb. induction items as [| item items IH] using rev_ind; [| rewrite foldl_app; by apply rollOne_spec].
  constructor; cbn; try done.
  - intros id i. split; [done |]. by intros (row & Hi & _).
  - intros item Hi. by apply elem_of_nil in Hi.
Qed.

Lemma with_measured_tells row m mine : tells row mine -> tells (with_measured row m) mine.
Proof. intros []. by constructor. Qed.

(** [rollup]: each row has an id of its own and tells exactly the pods of that
    id, of which there is at least one; it is measured when all of them were;
    and every pod is in the row of its id. *)
Lemma rollup_spec items keyOf :
  (forall item, blank (keyOf item)) ->
  let rows := rollup items keyOf in
  NoDup (map rowID rows) /\
  (forall row, row ∈ rows -> tells row (of_row keyOf (rowID row) items) /\ wr_Measured row = forallb hd_measured (of_row keyOf (rowID row) items)) /\
  (forall item, item ∈ items -> rowID (keyOf item) ∈ map rowID rows).
Proof.
  intros Hb rows. destruct (rollup_rolled items keyOf Hb) as [Hl Hp Ht He Hk]. unfold rows, rollup. set (st := foldl _ _ _) in *.
  assert (forall i row, zip_with with_measured (ro_rows st) (ro_whole st) !! i = Some row ->
    exists row0 m, ro_rows st !! i = Some row0 /\ ro_whole st !! i = Some m /\ row = with_measured row0 m) as Hz.
  { intros i row. rewrite lookup_zip_with_Some. intros (row0 & m & -> & H1 & H2). by exists row0, m. }
  split; [| split].
  - apply list.NoDup_alt. intros i j id Hi Hj. change (map rowID ?l) with (rowID <$> l) in Hi, Hj.
    apply list_lookup_fmap_Some in Hi as (ri & -> & (ri0 & mi & Hi & _ & ->)%Hz). apply list_lookup_fmap_Some in Hj as (rj & Hid & (rj0 & mj & Hj & _ & ->)%Hz).
    cbn in Hid. assert (ro_place st !! rowID ri0 = Some i) by (apply Hp; by exists ri0).
    assert (ro_place st !! rowID ri0 = Some j) by (apply Hp; by exists rj0). congruence.
  - intros row [i (row0 & m & Hi & Hm & ->)%Hz]%list_elem_of_lookup_1. change (rowID (with_measured row0 m)) with (rowID row0). split.
    + by eapply with_measured_tells, Ht.
    + cbn. rewrite (He i row0 Hi) in Hm. by injection Hm as <-.
  - intros item [i Hi]%Hk. apply Hp in Hi as (row & Hi & Hid). rewrite <- Hid. apply map_elem.
    exists (with_measured row (forallb hd_measured (of_row keyOf (rowID row) items))). split; [done |].
    apply list_elem_of_lookup_2 with i. apply lookup_zip_with_Some. eexists _, _. split; [reflexivity |]. split; [done | by apply He].
Qed.
(** ** The report *)

Lemma namespaceRow_blank item : blank (namespaceRow item).
Proof. by constructor. Qed.

Lemma workloadRow_blank item : blank (workloadRow item).
Proof. by constructor. Qed.

(** Every item is in exactly one row when the rows' ids differ. *)
Lemma rows_split keyOf items ids :
  NoDup ids -> (forall item, item ∈ items -> rowID (keyOf item) ∈ ids) ->
  sum_of (fun id => zlen (of_row keyOf id items)) ids = zlen items.
Proof.
  intros Hn. induction items as [| item items IH] using rev_ind; intros Hin.
  - clear. unfold sum_of. induction ids as [| id ids IHi]; [done |]. cbn in *. by rewrite IHi.
  - rewrite zlen_app, <- IH by (intros x Hx; apply Hin, elem_of_app; by left). clear IH.
    assert (rowID (keyOf item) ∈ ids) as Hid by (apply Hin, elem_of_app; right; by apply list_elem_of_singleton). clear Hin.
    assert (forall ids, rowID (keyOf item) ∉ ids ->
      sum_of (fun id => zlen (of_row keyOf id (items ++ [item]))) ids = sum_of (fun id => zlen (of_row keyOf id items)) ids) as Hno.
    { induction ids0 as [| id ids0 IHi]; [done |]. intros [Hne Hni]%not_elem_of_cons. rewrite !sum_of_cons, IHi by done. rewrite of_row_snoc, bool_decide_eq_false_2 by congruence.
      by rewrite app_nil_r. }
    induction ids as [| id ids IHi]; [by apply elem_of_nil in Hid |]. apply list.NoDup_cons in Hn as [Hni Hn]. rewrite !sum_of_cons, of_row_snoc, zlen_app.
    apply elem_of_cons in Hid as [<- | Hid].
    + rewrite bool_decide_eq_true_2, Hno by done. lia.
    + rewrite IHi by done. rewrite bool_decide_eq_false_2 by (intros <-; done). rewrite zlen_nil. lia.
Qed.

(** What [rollup] and [ranked] promise of the rows of a report. *)
Record accounts (keyOf : held -> WasteRow) (items : list held) (rows : list WasteRow) : Prop := {
  ac_ids : NoDup (map rowID rows);
  ac_tells : forall row, row ∈ rows -> tells row (of_row keyOf (rowID row) items);
  ac_measured : forall row, row ∈ rows -> wr_Measured row = forallb hd_measured (of_row keyOf (rowID row) items);
  ac_pods : sum_of wr_Pods rows = zlen items;
  ac_ranked : let '(cpuTotal, memTotal) := totals rows in StronglySorted (cmp_le (compareRows cpuTotal memTotal)) rows;
}.

Lemma totals_sums rows :
  totals rows = (wrap64 (sum_of wr_CPUReclaimable rows), wrap64 (sum_of wr_MemReclaimable rows)).
Proof.
  unfold totals. assert (forall cpu mem, foldl (fun '(cpu, mem) row => (wrap64 (cpu + wr_CPUReclaimable row), wrap64 (mem + wr_MemReclaimable row))) (wrap64 cpu, wrap64 mem) rows =
    (wrap64 (cpu + sum_of wr_CPUReclaimable rows), wrap64 (mem + sum_of wr_MemReclaimable rows)))%Z as H.
  { induction rows as [| row rows IH]; intros cpu mem; cbn; [by rewrite !Z.add_0_r |]. rewrite !wrap64_add_l, IH, !Z.add_assoc. done. }
  apply (H 0 0)%Z.
Qed.

Lemma ranked_accounts keyOf items : (forall item, blank (keyOf item)) -> accounts keyOf items (ranked (rollup items keyOf)).
Proof.
  intros Hb. destruct (rollup_spec items keyOf Hb) as (Hn & Ht & Hk). set (rows := rollup items keyOf) in *.
  assert (ranked rows ≡ₚ rows) as Hp by (unfold ranked; destruct (totals rows); apply sort_by_perm).
  assert (totals (ranked rows) = totals rows) as Htot by (by rewrite !totals_sums, !(sum_of_perm _ _ _ Hp)).
  constructor.
  - by rewrite Hp.
  - intros row Hr. rewrite Hp in Hr. by apply Ht.
  - intros row Hr. rewrite Hp in Hr. by apply Ht.
  - rewrite (sum_of_perm _ _ _ Hp), <- (rows_split keyOf items (map rowID rows) Hn Hk).
    assert (forall row, row ∈ rows -> wr_Pods row = zlen (of_row keyOf (rowID row) items)) as Hr by (intros row Hr; by apply Ht).
    clearbody rows. clear -Hr. induction rows as [| row rows IH]; [done |]. cbn [map]. rewrite !sum_of_cons, Hr by apply list_elem_of_here. f_equal.
    apply IH. intros x Hx. apply Hr. by apply list_elem_of_further.
  - rewrite Htot. unfold ranked. destruct (totals rows) as [cpu mem]. apply sort_by_sorted. unfold compareRows. apply _.
Qed.

Lemma accounts_nil keyOf : accounts keyOf [] [].
Proof. constructor; cbn; try done; [constructor | by intros row Hr%elem_of_nil | by intros row Hr%elem_of_nil | constructor]. Qed.

Lemma zlen_attach items usage : zlen (attach items usage) = zlen items.
Proof. unfold attach, zlen. by rewrite length_map. Qed.

Section report.
Context {U : Type} `{!Unstructured U} `{!Editable U} `{!Linked U} `{!Quantities}.

Lemma reservations_count found owners :
  zlen (reservations (U := U) found owners) = counted (fun obj => negb (finished obj)) found.
Proof.
  unfold reservations. induction found as [| obj found IH]; [done |]. rewrite counted_cons, <- IH. cbn. destruct (finished obj); [done | apply zlen_cons].
Qed.

(** C31: Of the pods that have not finished, each is counted in exactly one row by namespace and in exactly one by workload; a row tells how many
    they are with the sums of what they reserve, use and leave unused in 64 bits; it is measured when all of them were; and the rows come
    ranked by what could be reclaimed. *)
Theorem waste_accounts found lister meters :
  let items := reservations found (ownerIndex lister).1 in
  let '(reading, measured, _) := measure meters (refsOf items) in
  let told := attach items (rd_Pods reading) in
  exists r,
    Build (U := U) (Ok found) lister meters = Ok r /\
    accounts namespaceRow told (wp_Namespaces r) /\ accounts workloadRow told (wp_Workloads r) /\
    zlen told = counted (fun obj => negb (finished obj)) found /\
    wp_Measured r = measured && negb (zlen told =? 0)%Z.
Proof.
  intros items. pose proof (reservations_count found (ownerIndex lister).1) as Hc. fold items in Hc.
  destruct (measure meters (refsOf items)) as [[reading measured] why] eqn:Hm. cbn zeta. rewrite zlen_attach, <- Hc.
  destruct (zlen items =? 0)%Z eqn:Hi.
  - pose proof Hi as Hn. apply Z.eqb_eq, zlen_nil_inv in Hn. unfold Build. unfold items in *. destruct (ownerIndex lister) as [owners notes].
    cbn [fst] in *. rewrite Hi, Hn, andb_false_r. destruct (zlen found =? 0)%Z; (eexists; split; [reflexivity |]; split; [apply accounts_nil |]; by split; [apply accounts_nil |]).
  - assert ((zlen found =? 0)%Z = false) as Hf by (apply Z.eqb_neq; intros ->%zlen_nil_inv; unfold items in Hi; by cbn in Hi).
    unfold Build. rewrite Hf. unfold items in *. destruct (ownerIndex lister) as [owners notes]. cbn [fst] in *. rewrite Hi, Hm, andb_true_r.
    eexists. split; [reflexivity |]. destruct measured; cbn [wp_Namespaces wp_Workloads wp_Measured];
      (split; [apply ranked_accounts, namespaceRow_blank | split; [apply ranked_accounts, workloadRow_blank | done]]).
Qed.
End report.
End Waste.
