(* ===== verification/Shared.v ===== *)
(** internal/resources/cache.go: a value that callers share for a while and
    that one of them builds at a time. *)

From S2P Require Import Prelude.

Module Shared.

Section shared.
Context {A : Type} (zero : A) (ttl : duration).

(** [recent]: channels are numbers, in the order they are made. *)
Record recent := MkRecent { at_ : time; value : A; building : option nat }.

Definition empty : recent := MkRecent zeroTime zero None.

(** [turn], or the fresh value. *)
Inductive looked := Fresh (v : A) | Turn (done : nat) (mine : bool).

(** [fresh]; [next] is the channel it would make. *)
Definition fresh (r : recent) (now : time) (next : nat) : recent * looked :=
  if negb (IsZero (at_ r)) && (tsub now (at_ r) <? ttl)%Z then (r, Fresh (value r))
  else
    match building r with
    | Some ch => (r, Turn ch false)
    | None => (MkRecent (at_ r) (value r) (Some next), Turn next true)
    end.

(** [store]: the recent value and the channel that is closed. *)
Definition store (r : recent) (v : A) (now : time) (keep : bool) : recent * option nat :=
  (if keep then MkRecent now v None else MkRecent (at_ r) (value r) None, building r).

(** Where a caller of [shared] is: before it looks, waiting for another's
    build, building, or over with a value, with none because its context
    ended, or with its own panic. *)
Inductive caller := Looking | Waiting (ch : nat) | Building | Got (v : A) | GaveUp | Panicked.

Definition builds (c : caller) : bool := match c with Building => true | _ => false end.

(** The calls in the order they came, what was stored when, and the clock. *)
Record world := MkWorld {
  held : recent;
  closed : gset nat;
  made : nat;
  callers : list caller;
  kept : list (A * time);
  clock : time;
}.

Definition begin : world := MkWorld empty ∅ 0 [] [] 1%Z.

Definition with_caller (w : world) (i : nat) (c : caller) : world :=
  MkWorld (held w) (closed w) (made w) (<[i := c]> (callers w)) (kept w) (clock w).

(** The end of [buildOnce], also when the build panicked: then the value is
    not kept. *)
Definition built (w : world) (i : nat) (v : A) (keep : bool) (c : caller) : world :=
  let '(r, done) := store (held w) v (clock w) keep in
  MkWorld r (match done with Some ch => {[ch]} ∪ closed w | None => closed w end) (made w) (<[i := c]> (callers w))
    (if keep then (v, clock w) :: kept w else kept w) (clock w).

Inductive step : world -> world -> Prop :=
| step_call w :
    step w (MkWorld (held w) (closed w) (made w) (callers w ++ [Looking]) (kept w) (clock w))
| step_tick w d :
    (0 <= d)%Z -> step w (MkWorld (held w) (closed w) (made w) (callers w) (kept w) (clock w + d)%Z)
| step_fresh w i r v :
    callers w !! i = Some Looking -> fresh (held w) (clock w) (made w) = (r, Fresh v) ->
    step w (with_caller w i (Got v))
| step_turn w i r ch mine :
    callers w !! i = Some Looking -> fresh (held w) (clock w) (made w) = (r, Turn ch mine) ->
    step w (MkWorld r (closed w) (if mine then S (made w) else made w)
              (<[i := if mine then Building else Waiting ch]> (callers w)) (kept w) (clock w))
| step_woken w i ch :
    callers w !! i = Some (Waiting ch) -> ch ∈ closed w -> step w (with_caller w i Looking)
| step_ended w i ch :
    callers w !! i = Some (Waiting ch) -> step w (with_caller w i GaveUp)
| step_built w i v keep :
    callers w !! i = Some Building -> step w (built w i v keep (Got v))
| step_panic w i :
    callers w !! i = Some Building -> step w (built w i zero false Panicked).

(** What a caller may be told, when. *)
Definition recentEnough (w : world) : Prop :=
  at_ (held w) = zeroTime \/ (value (held w), at_ (held w)) ∈ kept w.

Record inv (w : world) : Prop := {
  inv_one : counted builds (callers w) = match building (held w) with Some _ => 1%Z | None => 0%Z end;
  inv_building : forall ch, building (held w) = Some ch -> ch < made w /\ ch ∉ closed w;
  inv_waiting : forall i ch, callers w !! i = Some (Waiting ch) -> ch ∈ closed w \/ building (held w) = Some ch;
  inv_closed : forall ch, ch ∈ closed w -> ch < made w;
  inv_recent : recentEnough w;
}.

Lemma inv_begin : inv begin.
Proof. constructor; cbn; try done; by left. Qed.

Definition waits (c : caller) : option nat := match c with Waiting ch => Some ch | _ => None end.

(** A caller that changes keeps the others' channels; its own is [waits]. *)
Lemma insert_waiting (l : list caller) i c j ch :
  <[i := c]> l !! j = Some (Waiting ch) -> waits c = Some ch \/ l !! j = Some (Waiting ch).
Proof. intros [(_ & -> & _) | [_ H]]%list_lookup_insert_Some; [by left | by right]. Qed.

Lemma counted_at (l : list caller) i c c' : l !! i = Some c -> counted builds (<[i := c']> l) = (counted builds l - one (builds c) + one (builds c'))%Z.
Proof. apply counted_insert. Qed.

Lemma inv_one_building w i : inv w -> callers w !! i = Some Building -> exists ch, building (held w) = Some ch.
Proof.
  intros [Hone _ _ _ _] Hi. pose proof (counted_pos builds _ _ _ Hi eq_refl). destruct (building (held w)) as [ch |]; [by exists ch | lia].
Qed.

Lemma inv_caller w i c c' :
  callers w !! i = Some c -> builds c = builds c' -> (forall ch, waits c' = Some ch -> ch ∈ closed w \/ building (held w) = Some ch) ->
  inv w -> inv (with_caller w i c').
Proof.
  intros Hi Hb Hw []. constructor; cbn; try done.
  - rewrite (counted_at _ _ c) by done. rewrite Hb. lia.
  - intros j ch [Hc | Hj]%insert_waiting; [by apply Hw | by eapply inv_waiting0].
Qed.

Lemma inv_built w i v keep c :
  callers w !! i = Some Building -> builds c = false -> waits c = None -> inv w -> inv (built w i v keep c).
Proof.
  intros Hi Hb Hc Hw. destruct (inv_one_building w i Hw Hi) as [ch Hch]. destruct Hw. destruct (inv_building0 ch Hch) as [Hlt Hni]. unfold built, store. rewrite Hch.
  constructor; cbn.
  - rewrite (counted_at _ _ Building) by done. rewrite Hb, inv_one0, Hch. by destruct keep.
  - by destruct keep.
  - intros j ch' [H | Hj]%insert_waiting; [congruence |]. left. destruct (inv_waiting0 j ch' Hj) as [Hcl | Hbu]; [set_solver |].
    assert (ch' = ch) as -> by congruence. set_solver.
  - intros ch' [->%elem_of_singleton | Hin]%elem_of_union; [done | by apply inv_closed0].
  - unfold recentEnough in *. cbn. destruct keep; cbn; [right; apply list_elem_of_here | done].
Qed.

Lemma inv_step w w' : inv w -> step w w' -> inv w'.
Proof.
  intros Hw Hs. destruct Hs as [w | w d Hd | w i r v Hi Hf | w i r ch mine Hi Hf | w i ch Hi Hc | w i ch Hi | w i v keep Hi | w i Hi].
  - destruct Hw. constructor; cbn; try done.
    + rewrite counted_snoc, inv_one0. cbn. lia.
    + intros i ch [Hi | [_ H]]%lookup_app_Some; [by eapply inv_waiting0 | by apply list_lookup_singleton_Some in H as [_ ?]].
  - by destruct Hw.
  - by eapply inv_caller.
  - unfold fresh in Hf. destruct (negb _ && _); [done |]. destruct (building (held w)) as [ch' |] eqn:Hb; injection Hf as <- <- <-.
    + eapply (inv_caller _ _ Looking (Waiting ch')) in Hw; [by destruct w | done | done |]. cbn. intros ch [= <-]. by right.
    + destruct Hw. constructor; cbn.
      * rewrite (counted_at _ _ Looking) by done. rewrite inv_one0, Hb. done.
      * intros ch [= <-]. split; [lia |]. intros Hin. apply inv_closed0 in Hin. lia.
      * intros j ch [H | Hj]%insert_waiting; [done |]. left. destruct (inv_waiting0 j ch Hj) as [? | ?]; [done | congruence].
      * intros ch Hin. apply inv_closed0 in Hin. lia.
      * done.
  - by eapply inv_caller.
  - by eapply inv_caller.
  - by apply inv_built.
  - by apply inv_built.
Qed.

Lemma inv_reach w : rtc step begin w -> inv w.
Proof.
  intros H. revert H. apply (rtc_ind_r (fun w => inv w)); [apply inv_begin |]. intros x y _ Hxy Hx. by eapply inv_step.
Qed.

(** C36: However callers come, wait, give up and panic: at most one of them builds the value at a time; whoever waits does so on a channel that is
    closed or that a caller who is still building will close; and a value that is given without building was kept less than the time it may be
    shared for before. *)
Theorem shared_sound w :
  rtc step begin w ->
  (counted builds (callers w) <= 1)%Z /\
  (forall i ch, callers w !! i = Some (Waiting ch) -> ch ∈ closed w \/ building (held w) = Some ch /\ exists j, callers w !! j = Some Building) /\
  (forall r v, fresh (held w) (clock w) (made w) = (r, Fresh v) -> exists t, (v, t) ∈ kept w /\ (tsub (clock w) t < ttl)%Z).
Proof.
  intros [Hone Hb Hw Hc Hr]%inv_reach. split; [rewrite Hone; destruct (building (held w)); lia |]. split.
  - intros i ch Hi. destruct (Hw i ch Hi) as [? | Hbu]; [by left | right]. split; [done |]. rewrite Hbu in Hone.
    assert (exists c, c ∈ callers w /\ builds c = true) as (c & [j Hj]%list_elem_of_lookup_1 & Hcb).
    { apply existsb_elem. destruct (existsb builds (callers w)) eqn:E; [done |]. exfalso. unfold counted in Hone.
      assert (List.filter builds (callers w) = []) as Hnil; [| rewrite Hnil in Hone; done].
      clear -E. induction (callers w) as [| c l IH]; [done |]. cbn in *. destruct (builds c); [done |]. by apply IH. }
    exists j. by destruct c.
  - intros r v. unfold fresh. destruct (negb (IsZero (at_ (held w))) && (tsub (clock w) (at_ (held w)) <? ttl)%Z) eqn:E; [| by destruct (building (held w))].
    intros [= _ <-]. apply andb_true_iff in E as [Hz Hlt%Z.ltb_lt]. exists (at_ (held w)). split; [| done].
    destruct Hr as [Hz' | ?]; [| done]. by rewrite Hz' in Hz.
Qed.

(** A value the build asked to keep is given to the next callers, whatever it
    tells: also one that tells of an error. *)
Lemma kept_is_shared w i v next d :
  callers w !! i = Some Building -> (0 < clock w)%Z -> (0 <= d)%Z -> (tsub (clock w + d) (clock w) < ttl)%Z ->
  fresh (held (built w i v true (Got v))) (clock w + d)%Z next = (held (built w i v true (Got v)), Fresh v).
Proof.
  intros Hi Hc Hd Hlt. unfold built, store, fresh. cbn. apply Z.ltb_lt in Hlt as ->.
  assert (IsZero (clock w) = false) as -> by (unfold IsZero; lia). done.
Qed.
End shared.

(** Two callers, the second of which waits for the first. *)
Lemma shared_sound_witness :
  exists w, rtc (step 0%Z Second) (begin 0%Z) w /\ callers w = [Building; Waiting 0] /\ (counted builds (callers w) <= 1)%Z.
Proof.
  eexists. assert (rtc (step 0%Z Second) (begin 0%Z) (MkWorld (MkRecent zeroTime 0%Z (Some 0)) ∅ 1 [Building; Waiting 0] [] 1%Z)) as H.
  { eapply rtc_l; [apply step_call |]. eapply rtc_l; [eapply (step_turn _ _ _ 0); by vm_compute |]. cbn.
    eapply rtc_l; [apply step_call |]. eapply rtc_l; [eapply (step_turn _ _ _ 1); by vm_compute |]. apply rtc_refl. }
  split; [exact H |]. split; [done |]. apply (shared_sound 0%Z Second _ H).
Defined.
End Shared.
