(* ===== verification/Reads.v ===== *)
(** internal/resources, what a caller is shown of a cluster: scope.go,
    search.go, counts.go and the gates of manager.go and reports.go, with
    internal/podcount.  What the API server answers is an argument: a list by
    its kind and namespace, or by the token a page continues from.
    strings.ToLower, the number of runes of a string and the spelling of a
    duration are the class [Wording]. *)

From S2P Require Import Prelude Api Identity Limits Config Access Text Delivery.

Class Wording := {
  ToLower : string -> string;
  RuneCount : string -> Z;
  DurationString : duration -> string;
}.

Module Reads.
Import Api Identity Access Text Delivery.

Definition ErrOutOfScope : string := "your account cannot read that namespace".
Definition ErrClusterWide : string := "your account reads named namespaces only, and this kind belongs to no namespace".
Definition ErrNamespaceNeeded : string := "your account cannot read this kind across every namespace; pick one namespace".
Definition ErrKindUnreadable : string := "your account cannot read this kind in any namespace spinoza knows of".
Definition ErrNoReadableNamespace : string :=
  "your account reads no namespace spinoza knows of; add the ones it can read under Settings, Cluster".

Definition adviceLimit : Z := 64.
Definition adviceShown : Z := 5.
Definition searchConcurrency : Z := 8.
Definition searchTimeout : duration := (5 * Second)%Z.
Definition searchPerType : duration := (2 * Second)%Z.
Definition searchShortest : Z := 2.
Definition searchPerKind : Z := 20.
Definition searchTotal : Z := 100.
Definition countConcurrency : Z := 24.
Definition countTimeout : duration := (20 * Second)%Z.
Definition countPerType : duration := (5 * Second)%Z.
Definition countUnknown : Z := -1.
Definition countPageSize : Z := 500.
Definition podsKey : string := "/v1/pods".

(** [api.Namespaces], [api.SearchHit], [api.SearchResults] *)
Record NamespaceNames := MkNamespaceNames { nn_Names : list string; nn_Narrowed : bool; nn_Error : string }.

Record SearchHit := MkSearchHit {
  sh_Cluster : string;
  sh_Group : string;
  sh_Version : string;
  sh_Resource : string;
  sh_Kind : string;
  sh_Namespace : string;
  sh_Name : string;
}.

Record SearchResults := MkSearchResults { sr_Hits : list SearchHit; sr_Truncated : bool; sr_Errors : gmap string string }.

Definition noResults : SearchResults := MkSearchResults [] false ∅.

Definition keyOf (desc : ResourceDescriptor) : string := rd_Group desc +s+ "/" +s+ rd_Version desc +s+ "/" +s+ rd_Resource desc.

(** An error of the client: its text and whether it is that of an expired
    deadline. *)
Record failure := MkFailure { fl_text : string; fl_deadline : bool }.

(** The name and the namespace of an object, as the metadata client lists it. *)
Record partial_ := MkPartial { pm_Namespace : string; pm_Name : string }.

(** What calling the client comes to; it may also panic. *)
Inductive called (A : Type) := Returned (r : result failure A) | Panicked.
Arguments Returned {A} r.
Arguments Panicked {A}.

(** ** scope.go *)

(** What a filter's map of names holds, in order. *)
Definition namesOf (nf : nsFilter) : list string := sort_by str_compare (elements (list_to_set (nf_names nf) : gset string)).

Definition only (nf : nsFilter) : string :=
  if nf_all nf then "" else match namesOf nf with [name] => name | _ => "" end.

(** What a review is for: reviews of one request come one after the other, and
    the API server may change its mind in between. *)
Inductive moment := Scoping | Requiring | Advising.

(** [Service]: whether there is a cluster, and its reviews. *)
Record service_ := MkService_ { sv_connected : bool; sv_review : moment -> Context_ -> list Check -> list Decision_ }.

(** What the reads use of [Manager]: the metadata client, by what it answers
    about the namespaces as the server; the permissions; the namespaces that
    were listed not long ago; the one of the context and those that were named. *)
Record Manager := MkManager {
  meta : option (result string (list string));
  perms : option service_;
  listed : NamespaceNames;
  home : string;
  named : list string;
  descriptors : list ResourceDescriptor;
}.

Definition everyNamespace (m : Manager) : NamespaceNames :=
  match meta m with
  | None => MkNamespaceNames [] false ""
  | Some (Err e) => MkNamespaceNames [] false e
  | Some (Ok names) => MkNamespaceNames (sort_by str_compare names) false ""
  end.

Definition candidates (m : Manager) : list string :=
  Compact (sort_by str_compare (List.filter (fun name => bool_decide (name <> "")) (nn_Names (listed m) ++ home m :: named m))).

(** [Service.Scope] and [Service.OwnScope], where there is a service or none. *)
Definition scopeOf (m : Manager) (ctx : Context_) : Api.Scope :=
  match perms m with
  | None => everywhere
  | Some s =>
      if negb (ActingAs ctx).2 then OwnScope (sv_review s Scoping ctx) (sv_connected s) (candidates m)
      else readScope (sv_review s Scoping ctx) ctx (nn_Names (everyNamespace m))
  end.

Definition filter_ (m : Manager) (ctx : Context_) : nsFilter :=
  if negb (ActingAs ctx).2 then everything else filterFor (scopeOf m ctx).

Definition admits (seen : nsFilter) (desc : ResourceDescriptor) (namespace : string) : option string :=
  if nf_all seen then None
  else if negb (rd_Namespaced desc) then Some (ErrClusterWide +s+ ": " +s+ rd_Kind desc)
  else if bool_decide (namespace = "") then None
  else if allows seen namespace then None
  else Some (ErrOutOfScope +s+ ": " +s+ namespace).

Definition readChecks (desc : ResourceDescriptor) (namespace : string) (watch : bool) : list Check :=
  MkCheck "list" (rd_Group desc) (rd_Resource desc) "" namespace "" ::
  (if watch then [MkCheck "watch" (rd_Group desc) (rd_Resource desc) "" namespace ""] else []).

Definition fewOf (names : list string) : string :=
  if (zlen names <=? adviceShown)%Z then Join ", " names
  else Join ", " (ztake adviceShown names) +s+ " and " +s+ Itoa (zlen names - adviceShown) +s+ " more".

Definition whereOf (m : Manager) (ctx : Context_) (names : list string) (checksIn : string -> list Check) : Api.Scope :=
  match perms m with
  | None => MkScope false [] (sort_by str_compare names)
  | Some s => Where (sv_review s Advising ctx) names checksIn
  end.

Definition namespaceAdvice (m : Manager) (ctx : Context_) (seen : nsFilter) (desc : ResourceDescriptor) (denied : string) : string :=
  let names := List.filter (allows seen) (candidates m) in
  let checked := ztake (Z.min (zlen names) adviceLimit) names in
  let found := whereOf m ctx checked (fun name => readChecks desc name true) in
  if (0 <? zlen (Namespaces found))%Z then
    ErrNamespaceNeeded +s+ ": " +s+ rd_Kind desc +s+ ", readable in " +s+ fewOf (Namespaces found) +s+ ": " +s+ denied
  else if (0 <? zlen names)%Z && (zlen checked =? zlen names)%Z && (zlen (Undecided found) =? 0)%Z then
    ErrKindUnreadable +s+ ": " +s+ rd_Kind desc +s+ ": " +s+ denied
  else ErrNamespaceNeeded +s+ ": " +s+ rd_Kind desc +s+ ": " +s+ denied.

Definition authorizationNamespaces (seen : nsFilter) (desc : ResourceDescriptor) (namespace : string) : list string :=
  if negb (rd_Namespaced desc) then [""]
  else if bool_decide (namespace <> "") then [namespace]
  else if nf_all seen then [""]
  else namesOf seen.

Definition permitted (m : Manager) (ctx : Context_) (required : list Check) : option refusal :=
  match perms m with None => None | Some s => Require (sv_connected s) ctx required (sv_review s Requiring ctx) end.

Definition requireRead (m : Manager) (ctx : Context_) (seen : nsFilter) (desc : ResourceDescriptor) (namespace : string) :
    result refusal (list Check) :=
  let required := flat_map (fun name => readChecks desc name true) (authorizationNamespaces seen desc namespace) in
  match permitted m ctx required with Some e => Err e | None => Ok required end.

Definition scopedHits (seen : nsFilter) (found : SearchResults) : SearchResults :=
  if nf_all seen then found
  else MkSearchResults (List.filter (fun hit => allows seen (sh_Namespace hit)) (sr_Hits found)) (sr_Truncated found) (sr_Errors found).

(** ** The gates of the reads *)

Inductive refused := NotAdmitted (message : string) | NotPermitted (why : refusal).

(** [Subscribe] up to the stream: the namespaces the subscriber sees, the one
    it asks for and the permissions it goes by. *)
Definition subscribeGate (m : Manager) (ctx : Context_) (desc : ResourceDescriptor) (namespace : string) :
    result refused (nsFilter * string * list Check) :=
  let seen := filter_ m ctx in
  match admits seen desc namespace with
  | Some e => Err (NotAdmitted e)
  | None =>
      match requireRead m ctx seen desc namespace with
      | Err e => Err (NotPermitted e)
      | Ok required =>
          let effNs := if negb (rd_Namespaced desc) then "" else namespace in
          let effNs := if bool_decide (effNs = "") then only seen else effNs in
          Ok (seen, effNs, required)
      end
  end.

(** [Lease] up to the stream. *)
Definition leaseGate (m : Manager) (ctx : Context_) (desc : ResourceDescriptor) : option refused :=
  let seen := filter_ m ctx in
  if negb (nf_all seen) then Some (NotAdmitted (ErrClusterWide +s+ ": " +s+ rd_Kind desc))
  else match requireRead m ctx seen desc "" with Err e => Some (NotPermitted e) | Ok _ => None end.

Definition metricsRead (namespace : string) : Check := MkCheck "list" "metrics.k8s.io" "pods" "" namespace "".

(** [MetricHistory] and [MetricsIn] before they measure. *)
Definition historyGate (m : Manager) (ctx : Context_) (namespace : string) : option refused :=
  if negb (allows (filter_ m ctx) namespace) then Some (NotAdmitted (ErrOutOfScope +s+ ": " +s+ namespace))
  else NotPermitted <$> permitted m ctx [metricsRead namespace].

Definition metricsGate (m : Manager) (ctx : Context_) (namespace : string) : option refused :=
  if negb (allows (filter_ m ctx) namespace) then Some (NotAdmitted (ErrOutOfScope +s+ ": " +s+ namespace)) else None.

Definition ownNamespaces (m : Manager) (ctx : Context_) : NamespaceNames :=
  let seen := scopeOf m ctx in
  if Everywhere seen then everyNamespace m
  else if (zlen (Namespaces seen) =? 0)%Z then MkNamespaceNames [] true ErrNoReadableNamespace
  else MkNamespaceNames (Namespaces seen) true "".

(** [Manager.Namespaces] *)
Definition namespacesShown (m : Manager) (ctx : Context_) : NamespaceNames :=
  if negb (ActingAs ctx).2 then ownNamespaces m ctx
  else
    let found := everyNamespace m in
    if bool_decide (nn_Error found <> "") then found
    else
      let seen := scopeOf m ctx in
      if Everywhere seen then found else MkNamespaceNames (Namespaces seen) (nn_Narrowed found) (nn_Error found).

(** ** counts.go: limits and reasons *)

Record CountLimits := MkCountLimits { Budget : duration; PerType : duration; Concurrency : Z }.

Definition orElse (d d' : Z) : Z := if (d <=? 0)%Z then d' else d.

Definition orDefaults (l : CountLimits) : CountLimits :=
  MkCountLimits (orElse (Budget l) countTimeout) (orElse (PerType l) countPerType) (orElse (Concurrency l) countConcurrency).

Definition searchLimits (l : CountLimits) : CountLimits :=
  MkCountLimits (orElse (Budget l) searchTimeout) (orElse (PerType l) searchPerType) (orElse (Concurrency l) searchConcurrency).

Section reads.
Context {Wd : Wording}.

(** [over]: the context that bears the budget has ended. *)
Definition countReason (over : bool) (err : failure) (limits : CountLimits) : string :=
  if over then "the " +s+ DurationString (Budget limits) +s+ " budget for counting ran out before this type was reached"
  else if fl_deadline err then "counting took longer than " +s+ DurationString (PerType limits)
  else fl_text err.

(** ** search.go *)

Definition searchable : list string := [
  "/v1/pods"; "/v1/services"; "/v1/configmaps"; "/v1/secrets"; "/v1/persistentvolumeclaims"; "apps/v1/deployments";
  "apps/v1/statefulsets"; "batch/v1/jobs"; "batch/v1/cronjobs"; "networking.k8s.io/v1/ingresses"].

Definition searchableTypes (descs : list ResourceDescriptor) : list ResourceDescriptor :=
  List.filter (fun desc => contains searchable (keyOf desc)) descs.

(** What the client answers when a kind is listed in a namespace, or in all. *)
Definition client := ResourceDescriptor -> string -> called (list partial_).

Definition hitOf (desc : ResourceDescriptor) (item : partial_) : SearchHit :=
  MkSearchHit "" (rd_Group desc) (rd_Version desc) (rd_Resource desc) (rd_Kind desc) (pm_Namespace item) (pm_Name item).

Definition named_like (needle : string) (item : partial_) : bool := str_contains (ToLower (pm_Name item)) needle.

(** The loop of [searchOne], with [n] hits so far. *)
Fixpoint matching (desc : ResourceDescriptor) (needle : string) (n : Z) (items : list partial_) : list SearchHit * bool :=
  match items with
  | [] => ([], false)
  | item :: items =>
      if negb (named_like needle item) then matching desc needle n items
      else if (n =? searchPerKind)%Z then ([], true)
      else let '(hits, cut) := matching desc needle (n + 1) items in (hitOf desc item :: hits, cut)
  end.

Definition searchOne (ask : client) (desc : ResourceDescriptor) (namespace needle : string) : called (list SearchHit * bool) :=
  match ask desc namespace with
  | Panicked => Panicked
  | Returned (Err e) => Returned (Err e)
  | Returned (Ok items) => Returned (Ok (matching desc needle 0 items))
  end.

Definition placeName (desc : ResourceDescriptor) (namespace : string) : string :=
  if bool_decide (namespace <> "") then keyOf desc +s+ "/" +s+ namespace else keyOf desc.

Record found_ := MkFound { fd_hits : list SearchHit; fd_cut : bool; fd_errs : gmap string failure }.

(** The loop of [searchResource]; a panic leaves it. *)
Fixpoint searchIn (ask : client) (desc : ResourceDescriptor) (needle : string) (wanted : list string) (st : found_) : option found_ :=
  match wanted with
  | [] => Some st
  | namespace :: wanted =>
      match searchOne ask desc namespace needle with
      | Panicked => None
      | Returned (Err e) => searchIn ask desc needle wanted (MkFound (fd_hits st) (fd_cut st) (<[placeName desc namespace := e]> (fd_errs st)))
      | Returned (Ok (hits, cut)) => searchIn ask desc needle wanted (MkFound (fd_hits st ++ hits) (fd_cut st || cut) (fd_errs st))
      end
  end.

Definition wantedIn (namespaces : list string) : list string := if (zlen namespaces =? 0)%Z then [""] else namespaces.

Definition searchResource (ask : client) (desc : ResourceDescriptor) (needle : string) (namespaces : list string) : option found_ :=
  searchIn ask desc needle (wantedIn namespaces) (MkFound [] false ∅).

Definition couldNotFinish : string := "spinoza could not finish searching this resource".

(** One goroutine of [searchScoped] at its end; [over] says of a place whether
    the caller's context had ended. *)
Definition finished (ask : client) (limits : CountLimits) (over : string -> bool) (needle : string) (namespaces : list string)
    (st : SearchResults) (desc : ResourceDescriptor) : SearchResults :=
  match searchResource ask desc needle namespaces with
  | None => MkSearchResults (sr_Hits st) (sr_Truncated st) (<[keyOf desc := couldNotFinish]> (sr_Errors st))
  | Some found =>
      MkSearchResults (sr_Hits st ++ fd_hits found) (sr_Truncated st || fd_cut found)
        (map_imap (fun place err => Some (countReason (over place) err limits)) (fd_errs found) ∪ sr_Errors st)
  end.

Definition compareHits : SearchHit -> SearchHit -> Z :=
  cmp_then (cmp_on sh_Kind str_compare) (cmp_then (cmp_on sh_Namespace str_compare) (cmp_on sh_Name str_compare)).

Definition short (query : string) : bool := (RuneCount (ToLower (TrimSpace query)) <? searchShortest)%Z.

(** [searchScoped]; [order] is the kinds as their goroutines finished. *)
Definition searchScoped (ask : client) (limits : CountLimits) (over : string -> bool) (order : list ResourceDescriptor) (query : string)
    (namespaces : list string) : SearchResults :=
  if short query then noResults
  else
    let st := foldl (finished ask (searchLimits limits) over (ToLower (TrimSpace query)) namespaces) noResults order in
    let hits := sort_by compareHits (sr_Hits st) in
    if (searchTotal <? zlen hits)%Z then MkSearchResults (ztake searchTotal hits) true (sr_Errors st)
    else MkSearchResults hits (sr_Truncated st) (sr_Errors st).

(** [Manager.Search] *)
Definition Search (m : Manager) (ctx : Context_) (ask : client) (limits : CountLimits) (over : string -> bool)
    (order : list ResourceDescriptor) (query : string) : SearchResults :=
  match meta m with
  | None => noResults
  | Some _ =>
      let seen := filter_ m ctx in
      if nf_all seen then searchScoped ask limits over order query []
      else if (zlen (namesOf seen) =? 0)%Z then noResults
      else searchScoped ask limits over order query (namesOf seen)
  end.

(** ** counts.go: counting *)

(** A page: how many objects it has, and the token it goes on from. *)
Record page := MkPage { pg_Items : Z; pg_Continue : string }.

(** What the client answers at the [n]th page of a kind, from a token. *)
Definition pages := nat -> string -> result failure page.

(** [countOne] with [fuel] pages at most; [None] when that is not enough. *)
Fixpoint countFrom (list_ : pages) (over : bool) (limits : CountLimits) (fuel n : nat) (total : Z) (seen : gset string) (token : string) :
    option (Z * string) :=
  match fuel with
  | O => None
  | S fuel =>
      match list_ n token with
      | Err e => Some (countUnknown, countReason over e limits)
      | Ok page =>
          let total := wrap64 (total + pg_Items page) in
          let next := pg_Continue page in
          if bool_decide (next = "") then Some (total, "")
          else if bool_decide (next ∈ seen) then Some (countUnknown, "the apiserver repeated a continuation token while counting this type")
          else countFrom list_ over limits fuel (S n) total ({[next]} ∪ seen) next
      end
  end.

Definition countOne (list_ : pages) (over : bool) (limits : CountLimits) (fuel : nat) : option (Z * string) :=
  countFrom list_ over limits fuel 0 0 ∅ "".

(** [counted] *)
Definition countedKind (descs : list ResourceDescriptor) (key : string) : bool := existsb (fun desc => bool_decide (keyOf desc = key)) descs.

(** ** internal/podcount *)

Definition probeLimit : Z := 1.
Definition pageSize : Z := 500.
Definition maxPages : nat := 20.
Definition errRepeatedContinue : string := "the apiserver repeated a continuation token while counting pods".

Record PodTotal := MkPodTotal { Total : Z; Complete : bool }.

Definition Limit : Z := pageSize * Z.of_nat maxPages.

Definition probeSize (selector : string) : Z := if bool_decide (selector = "") then probeLimit else pageSize.

(** What the client answers at the [n]th page, asked for so many from a token. *)
Definition podPages := nat -> Z -> string -> result string page.

Fixpoint walk (list_ : podPages) (left_ n : nat) (total : Z) (seen : gset string) (from : string) : result string PodTotal :=
  match left_ with
  | O => Ok (MkPodTotal (if (Limit <? total)%Z then Limit else total) false)
  | S left_ =>
      match list_ n pageSize from with
      | Err e => Err e
      | Ok page =>
          let total := wrap64 (total + pg_Items page) in
          let next := pg_Continue page in
          if bool_decide (next = "") then Ok (MkPodTotal total true)
          else if bool_decide (next ∈ seen) then Err errRepeatedContinue
          else walk list_ left_ (S n) total ({[next]} ∪ seen) next
      end
  end.

(** [podcount.Count] *)
Definition countPods (list_ : podPages) (selector : string) : result string PodTotal :=
  match list_ 0%nat (probeSize selector) "" with
  | Err e => Err e
  | Ok probe =>
      if bool_decide (pg_Continue probe = "") then Ok (MkPodTotal (pg_Items probe) true)
      else walk list_ maxPages 1 (pg_Items probe) {[pg_Continue probe]} (pg_Continue probe)
  end.

Definition unhealthyPods : string := "status.phase!=Running,status.phase!=Succeeded".

(** [failingPods]: how many fail, if that is known, and whether the number is
    that of the pages that were read. *)
Definition failingPods (list_ : podPages) (descs : list ResourceDescriptor) : option Z * bool :=
  if negb (countedKind descs podsKey) then (None, false)
  else
    match countPods list_ unhealthyPods with
    | Err _ => (None, false)
    | Ok got =>
        if (Total got =? 0)%Z then (None, false)
        else if negb (Complete got) then (Some (Total got), true)
        else (Some (Total got), false)
    end.

(** [Count]; [one] is what a kind's goroutine came to, [None] for a panic, and
    [order] the kinds as their goroutines finished. *)
Record ResourceCounts := MkResourceCounts {
  rc_Counts : gmap string Z;
  rc_Failing : gmap string Z;
  rc_ByPhase : list string;
  rc_Capped : list string;
  rc_Errors : gmap string string;
}.

Definition couldNotCount : string := "spinoza could not finish counting this resource".

Definition countedOne (one : ResourceDescriptor -> option (Z * string)) (st : gmap string Z * gmap string string) (desc : ResourceDescriptor) :
    gmap string Z * gmap string string :=
  let '(counts, reasons) := st in
  match one desc with
  | None => (<[keyOf desc := countUnknown]> counts, <[keyOf desc := couldNotCount]> reasons)
  | Some (total, reason) =>
      (<[keyOf desc := total]> counts, if bool_decide (reason <> "") then <[keyOf desc := reason]> reasons else reasons)
  end.

Definition Count (one : ResourceDescriptor -> option (Z * string)) (podList : podPages) (descs order : list ResourceDescriptor) : ResourceCounts :=
  let '(counts, reasons) := foldl (countedOne one) (∅, ∅) order in
  let '(failing, capped) := failingPods podList descs in
  MkResourceCounts counts (match failing with Some n => {[podsKey := n]} | None => ∅ end)
    (match failing with Some _ => [podsKey] | None => [] end) (if capped then [podsKey] else []) reasons.

(** ** Counting pages *)

(** The pages from a token on to the last one. *)
Inductive reads_to (list_ : pages) : nat -> string -> list page -> Prop :=
| reads_last n token p : list_ n token = Ok p -> pg_Continue p = "" -> reads_to list_ n token [p]
| reads_more n token p ps :
    list_ n token = Ok p -> pg_Continue p <> "" -> reads_to list_ (S n) (pg_Continue p) ps -> reads_to list_ n token (p :: ps).

Definition items_of (ps : list page) : Z := foldr (fun p n => pg_Items p + n)%Z 0%Z ps.

(** The tokens a reading goes on from. *)
Definition tokens (ps : list page) : list string := List.filter (fun token => bool_decide (token <> "")) (map pg_Continue ps).

Lemma countFrom_reads list_ over limits n token ps :
  reads_to list_ n token ps -> forall fuel total (seen : gset string),
  length ps <= fuel -> NoDup (tokens ps) -> (forall token, token ∈ tokens ps -> token ∉ seen) ->
  countFrom list_ over limits fuel n (wrap64 total) seen token = Some (wrap64 (total + items_of ps), "").
Proof.
  induction 1 as [n token p Hp Hc | n token p ps Hp Hc Hr IH]; intros [| fuel] total seen Hf Hn Hs; cbn in Hf; try lia; cbn; rewrite Hp.
  - rewrite bool_decide_eq_true_2 by done. by rewrite wrap64_add_l, Z.add_0_r.
  - rewrite bool_decide_eq_false_2 by done. unfold tokens in *. cbn in Hn, Hs. rewrite bool_decide_eq_true_2 in Hn, Hs by done.
    apply list.NoDup_cons in Hn as [Hni Hn]. rewrite bool_decide_eq_false_2 by (apply Hs, list_elem_of_here).
    rewrite wrap64_add_l, IH; [by rewrite Z.add_assoc | lia | done |].
    intros next Hnext [->%elem_of_singleton | Hin]%elem_of_union; [done |]. by apply (Hs next); [apply list_elem_of_further |].
Qed.

(** A kind whose pages come with tokens of their own is counted in full. *)
Lemma countOne_total list_ over limits fuel ps :
  reads_to list_ 0 "" ps -> length ps <= fuel -> NoDup (tokens ps) ->
  countOne list_ over limits fuel = Some (wrap64 (items_of ps), "").
Proof. intros Hr Hf Hn. unfold countOne. change 0%Z with (wrap64 0). rewrite (countFrom_reads list_ over limits 0 "" ps) by done. done. Qed.

Lemma countFrom_ends list_ over limits (T : gset string) :
  (forall n token p, list_ n token = Ok p -> pg_Continue p <> "" -> pg_Continue p ∈ T) ->
  forall fuel n total seen token, seen ⊆ T -> size T - size seen < fuel -> is_Some (countFrom list_ over limits fuel n total seen token).
Proof.
  intros HT. induction fuel as [| fuel IH]; intros n total seen token Hs Hf; [lia |]. cbn.
  destruct (list_ n token) as [p | e] eqn:Hp; [| by eexists]. case_bool_decide as Hc; [by eexists |].
  case_bool_decide as Hin; [by eexists |]. specialize (HT n token p Hp Hc). apply IH; [set_solver |].
  rewrite size_union by set_solver. rewrite size_singleton.
  assert (size ({[pg_Continue p]} ∪ seen) <= size T) as Hle by (apply subseteq_size; set_solver). rewrite size_union, size_singleton in Hle by set_solver. lia.
Qed.

(** Counting ends however the server makes up its tokens: with so many
    different ones, after one page more than that. *)
Lemma countOne_ends list_ over limits (T : gset string) fuel :
  (forall n token p, list_ n token = Ok p -> pg_Continue p <> "" -> pg_Continue p ∈ T) -> size T < fuel ->
  is_Some (countOne list_ over limits fuel).
Proof. intros HT Hf. apply (countFrom_ends _ _ _ T); [done | set_solver | rewrite size_empty; lia]. Qed.

End reads.

(** ** What a search tells *)

Section searching.
Context {Wd : Wording} (ask : client) (needle : string).

Lemma matching_hits desc n items hits cut :
  matching desc needle n items = (hits, cut) ->
  hits `prefix_of` map (hitOf desc) (List.filter (named_like needle) items) /\
  (cut = false -> hits = map (hitOf desc) (List.filter (named_like needle) items)).
Proof.
  revert n hits cut. induction items as [| item items IH]; intros n hits cut; cbn; [by intros [= <- <-] |].
  destruct (named_like needle item); cbn [negb]; [| apply IH]. destruct (_ =? _)%Z.
  - intros [= <- <-]. split; [apply prefix_nil | done].
  - destruct (matching desc needle (n + 1) items) as [hits' cut'] eqn:Hm. intros [= <- <-]. apply IH in Hm as [Hp He]. cbn. split.
    + by apply prefix_cons.
    + intros Hc. by rewrite He.
Qed.

(** An object that was listed and matches, with its kind. *)
Definition matches (wanted : list string) (desc : ResourceDescriptor) (hit : SearchHit) : Prop :=
  exists namespace items item, namespace ∈ wanted /\ ask desc namespace = Returned (Ok items) /\ item ∈ items /\
    named_like needle item = true /\ hit = hitOf desc item.

Lemma searchOne_spec desc namespace hits cut :
  searchOne ask desc namespace needle = Returned (Ok (hits, cut)) ->
  (forall hit, hit ∈ hits -> matches [namespace] desc hit) /\ (cut = false -> forall hit, matches [namespace] desc hit -> hit ∈ hits).
Proof.
  unfold searchOne. destruct (ask desc namespace) as [[items | e] |] eqn:Hask; try done. intros [= Hm]. apply matching_hits in Hm as [Hp He]. split.
  - intros hit Hh. eapply elem_of_prefix in Hh; [| exact Hp]. apply map_elem in Hh as (item & -> & [Hi Hl]%filter_elem).
    exists namespace, items, item. repeat split; try done. by apply list_elem_of_singleton.
  - intros Hc hit (ns & items' & item & ->%list_elem_of_singleton & Hask' & Hi & Hl & ->). rewrite Hask in Hask'. injection Hask' as <-.
    rewrite (He Hc). apply map_elem. exists item. split; [done |]. by apply filter_elem.
Qed.

Lemma searchIn_spec desc wanted st st' :
  searchIn ask desc needle wanted st = Some st' ->
  (forall hit, hit ∈ fd_hits st' -> hit ∈ fd_hits st \/ matches wanted desc hit) /\
  (fd_cut st' = false -> fd_errs st' = ∅ ->
     fd_cut st = false /\ fd_errs st = ∅ /\ forall hit, hit ∈ fd_hits st \/ matches wanted desc hit -> hit ∈ fd_hits st').
Proof.
  revert st. induction wanted as [| namespace wanted IH]; intros st; cbn.
  - intros [= <-]. split; [by left |]. intros Hc He. repeat split; [done | done |]. intros hit [Hh | (ns & _ & _ & []%elem_of_nil & _)]. done.
  - assert (forall hit, matches (namespace :: wanted) desc hit <-> matches [namespace] desc hit \/ matches wanted desc hit) as Hcons.
    { intros hit. unfold matches. setoid_rewrite elem_of_cons at 1. setoid_rewrite list_elem_of_singleton. split.
      - intros (ns & items & item & [-> | Hn] & H); [left; by exists namespace, items, item | right; by exists ns, items, item].
      - intros [(ns & items & item & -> & H) | (ns & items & item & Hn & H)]; [exists namespace, items, item | exists ns, items, item]; auto. }
    destruct (searchOne ask desc namespace needle) as [[[hits cut] | e] |] eqn:Hone; [| | done]; intros H; destruct (IH _ H) as [H1 H2]; cbn in H1, H2.
    + destruct (searchOne_spec _ _ _ _ Hone) as [Hs Hc]. split.
      * intros hit [Hh | Hh]%H1; [| right; apply Hcons; by right]. apply elem_of_app in Hh as [Hh | Hh]; [by left | right; apply Hcons; left; by apply Hs].
      * intros Hcut He. destruct (H2 Hcut He) as (Hcc & Hee & Hin). apply orb_false_iff in Hcc as [? ?]. repeat split; [done | done |].
        intros hit [Hh | [Hh | Hh]%Hcons]; apply Hin; [left; apply elem_of_app; by left | left; apply elem_of_app; right; by apply Hc | by right].
    + split.
      * intros hit [Hh | Hh]%H1; [by left | right; apply Hcons; by right].
      * intros Hcut He. destruct (H2 Hcut He) as (_ & Hee & _). by apply insert_non_empty in Hee.
Qed.

Context (limits : CountLimits) (over : string -> bool) (namespaces : list string).

Lemma finished_spec order st :
  let st' := foldl (finished ask limits over needle namespaces) st order in
  (forall hit, hit ∈ sr_Hits st' -> hit ∈ sr_Hits st \/ exists desc, desc ∈ order /\ matches (wantedIn namespaces) desc hit) /\
  (sr_Truncated st' = false -> sr_Errors st' = ∅ ->
     sr_Truncated st = false /\ sr_Errors st = ∅ /\
     forall hit, hit ∈ sr_Hits st \/ (exists desc, desc ∈ order /\ matches (wantedIn namespaces) desc hit) -> hit ∈ sr_Hits st').
Proof.
  revert st. induction order as [| desc order IH]; intros st; cbn.
  - split; [by left |]. intros Ht He. repeat split; [done | done |]. by intros hit [Hh | (d & []%elem_of_nil & _)].
  - destruct (IH (finished ask limits over needle namespaces st desc)) as [H1 H2]. set (st' := foldl _ _ order) in *. clearbody st'. clear IH.
    assert (forall P, (exists d, d ∈ desc :: order /\ P d) <-> P desc \/ exists d, d ∈ order /\ P d) as Hcons.
    { intros P. setoid_rewrite elem_of_cons. naive_solver. }
    unfold finished, searchResource in H1, H2. destruct (searchIn ask desc needle (wantedIn namespaces) (MkFound [] false ∅)) as [found |] eqn:Hs; cbn in H1, H2.
    + destruct (searchIn_spec _ _ _ _ Hs) as [Hf Hg]. cbn in Hf, Hg. split.
      * intros hit [Hh | Hh]%H1; [| right; apply Hcons; by right]. apply elem_of_app in Hh as [Hh | [Hh%elem_of_nil | Hh]%Hf]; [by left | done |].
        right. apply Hcons. by left.
      * intros Ht He. destruct (H2 Ht He) as (Hcut & Herr & Hin). apply orb_false_iff in Hcut as [? Hcut]. pose proof (map_positive_l _ _ Herr) as Herr1.
        assert (fd_errs found = ∅) as Hnone.
        { apply map_eq. intros i. rewrite lookup_empty. apply (f_equal (fun mm => mm !! i)) in Herr1. rewrite map_lookup_imap, lookup_empty in Herr1. by destruct (fd_errs found !! i). }
        assert (sr_Errors st = ∅) as Hst by (rewrite Herr1, (left_id_L ∅ (∪)) in Herr; done).
        destruct (Hg Hcut Hnone) as (_ & _ & Hall). repeat split; [done | done |].
        intros hit [Hh | [Hh | Hh]%Hcons]; apply Hin; [left; apply elem_of_app; by left | left; apply elem_of_app; right; apply Hall; by right | by right].
    + split.
      * intros hit [Hh | Hh]%H1; [by left | right; apply Hcons; by right].
      * intros Ht He. destruct (H2 Ht He) as (_ & Herr & _). by apply insert_non_empty in Herr.
Qed.
End searching.

Section searched.
Context {Wd : Wording} (ask : client) (limits : CountLimits) (over : string -> bool).

(** A search gives at most a hundred objects, in order, each listed by the server in a namespace that was asked for and with the text in its
    name; and unless it says that it was cut or which kind it could not search, it gives every such object of the kinds that are searched. *)
Theorem search_exact order query namespaces :
  let r := searchScoped ask limits over order query namespaces in
  let found := matches ask (ToLower (TrimSpace query)) (wantedIn namespaces) in
  (zlen (sr_Hits r) <= searchTotal)%Z /\
  StronglySorted (cmp_le compareHits) (sr_Hits r) /\
  (forall hit, hit ∈ sr_Hits r -> exists desc, desc ∈ order /\ found desc hit) /\
  (short query = false -> sr_Truncated r = false -> sr_Errors r = ∅ ->
     forall desc hit, desc ∈ order -> found desc hit -> hit ∈ sr_Hits r).
Proof.
  cbn zeta. unfold searchScoped. destruct (short query); [repeat split; try done; [constructor | by intros hit Hh%elem_of_nil] |].
  set (st := foldl _ noResults order). pose proof (finished_spec ask (ToLower (TrimSpace query)) (searchLimits limits) over namespaces order noResults) as [H1 H2].
  fold st in H1, H2. cbn in H1, H2. assert (StronglySorted (cmp_le compareHits) (sort_by compareHits (sr_Hits st))) as Hs.
  { apply sort_by_sorted. unfold compareHits. apply _. }
  assert (forall hit, hit ∈ sort_by compareHits (sr_Hits st) -> exists desc, desc ∈ order /\ matches ask (ToLower (TrimSpace query)) (wantedIn namespaces) desc hit) as Hm.
  { intros hit Hh. rewrite sort_by_elem in Hh. by destruct (H1 hit Hh) as [[]%elem_of_nil | ?]. }
  destruct (searchTotal <? _)%Z eqn:Hl; cbn.
  - repeat split; [| | | done].
    + unfold ztake, zlen. rewrite length_take. unfold searchTotal. lia.
    + unfold ztake. rewrite <- (take_drop (Z.to_nat searchTotal) (sort_by compareHits (sr_Hits st))) in Hs. by apply StronglySorted_app_1_l in Hs.
    + intros hit Hh. apply Hm. unfold ztake in Hh. rewrite <- (take_drop (Z.to_nat searchTotal) (sort_by compareHits (sr_Hits st))). apply elem_of_app. by left.
  - repeat split; [by apply Z.ltb_ge in Hl | done | done |]. intros _ Ht He desc hit Hd Hh. rewrite sort_by_elem. apply (H2 Ht He). right. by exists desc.
Qed.
End searched.

(** ** What a caller may see *)

Section scoped.
Context {Wd : Wording} (m : Manager) (s : service_) (ctx : Context_) (dec : moment -> Check -> Decision_).
Hypothesis Hperms : perms m = Some s.
Hypothesis Hconnected : sv_connected s = true.
Hypothesis Hacting : (ActingAs ctx).2 = true.
(** What [Access.review] gives: the decision of each check. *)
Hypothesis Hreview : forall at_ checks, sv_review s at_ ctx checks = map (dec at_) checks.

(** The reviews of the scope let the caller list pods and deployments in the
    whole cluster, or in the namespace. *)
Definition mayRead (n : string) : bool := forallb (yes (dec Scoping)) clusterWide || forallb (yes (dec Scoping)) (within n).

(** The reviews before a read let the caller do all of it in a namespace, or
    in the whole cluster. *)
Definition granted (checks : string -> list Check) (n : string) : bool :=
  forallb (yes (dec Requiring)) (checks "") || forallb (yes (dec Requiring)) (checks n).

Lemma scope_spec :
  Everywhere (scopeOf m ctx) = forallb (yes (dec Scoping)) clusterWide /\
  (forall n, n ∈ Namespaces (scopeOf m ctx) -> n ∈ nn_Names (everyNamespace m) /\ forallb (yes (dec Scoping)) (within n) = true).
Proof using Type*.
  unfold scopeOf. rewrite Hperms, Hacting. cbn [negb]. unfold readScope. rewrite Hacting. cbn [negb].
  rewrite (Hreview Scoping clusterWide), (decide_spec (dec Scoping) (fun _ => clusterWide) "").
  assert (mayIn (dec Scoping) (fun _ => clusterWide) "" = forallb (yes (dec Scoping)) clusterWide) as -> by done.
  destruct (forallb (yes (dec Scoping)) clusterWide) eqn:Hw; cbn [bool_decide].
  - split; [done |]. by intros n []%elem_of_nil.
  - assert (Where (sv_review s Scoping ctx) (nn_Names (everyNamespace m)) within = Where (map (dec Scoping)) (nn_Names (everyNamespace m)) within) as ->
      by (unfold Where; by rewrite Hreview).
    rewrite bool_decide_eq_false_2 by (by destruct (unsureIn _ _ _)).
    destruct (Where_exact (dec Scoping) (nn_Names (everyNamespace m)) within) as (Heq & Hn & _). split; [by rewrite Heq |].
    intros n [Hin Hm]%Hn. split; [done |]. unfold mayIn in Hm. by apply andb_true_iff in Hm as [_ ?].
Qed.

Lemma filter_spec :
  (nf_all (filter_ m ctx) = true -> forallb (yes (dec Scoping)) clusterWide = true) /\
  (forall n, n ∈ nf_names (filter_ m ctx) -> n ∈ nn_Names (everyNamespace m)) /\
  (forall n, allows (filter_ m ctx) n = true -> mayRead n = true).
Proof using Type*.
  destruct scope_spec as [He Hn]. unfold filter_, filterFor, mayRead. rewrite Hacting. cbn [negb]. rewrite <- He.
  destruct (Everywhere (scopeOf m ctx)) eqn:Ee; cbn; [split; [done | split; [by intros n []%elem_of_nil | done]] |].
  split; [done | split; [intros n Hin; by apply Hn |]]. unfold allows. cbn. intros n Hin%contains_spec. by apply Hn.
Qed.

Lemma permitted_spec required : permitted m ctx required = None -> forallb (yes (dec Requiring)) required = true.
Proof using Type*.
  unfold permitted, Require. rewrite Hperms, Hconnected, Hacting, Hreview. cbn. intros H%require_None; [| by rewrite length_map].
  apply forallb_elem. intros c Hc. rewrite list.Forall_forall in H. unfold yes. destruct (H (dec Requiring c)) as [-> ->]; [| done]. apply map_elem. by exists c.
Qed.

Lemma namesOf_elem nf n : n ∈ namesOf nf <-> n ∈ nf_names nf.
Proof. unfold namesOf. rewrite sort_by_elem, elem_of_elements, elem_of_list_to_set. done. Qed.

Definition readable (desc : ResourceDescriptor) : string -> list Check := fun n => readChecks desc n true.

Lemma requireRead_spec desc namespace required n :
  requireRead m ctx (filter_ m ctx) desc namespace = Ok required ->
  n ∈ authorizationNamespaces (filter_ m ctx) desc namespace -> forallb (yes (dec Requiring)) (readable desc n) = true.
Proof using Type*.
  unfold requireRead. destruct (permitted m ctx _) eqn:Hp; [done |]. intros _ Hn. apply permitted_spec in Hp. rewrite forallb_elem in Hp. apply forallb_elem.
  intros c Hc. apply Hp. apply flat_map_elem. by exists n.
Qed.

(** What a table shows: what the caller may see, of a kind it may list and
    watch there. *)
Lemma subscribe_scoped desc namespace seen effNs required limit n :
  subscribeGate m ctx desc namespace = Ok (seen, effNs, required) ->
  visible (newSubscriber effNs limit seen) n = true ->
  mayRead n = true /\ granted (readable desc) n = true.
Proof using Type*.
  destruct filter_spec as (Hall & _ & Hmay). unfold subscribeGate, visible. cbn [Delivery.seen ns newSubscriber].
  destruct (admits _ desc namespace) eqn:Ha; [done |]. destruct (requireRead _ _ _ desc namespace) as [req | e] eqn:Hr; [| done]. intros [= <- <- <-].
  destruct (allows (filter_ m ctx) n) eqn:Hn; cbn [negb]; [| done]. intros Hns. split; [by apply Hmay |].
  pose proof (requireRead_spec desc namespace req) as Hg. unfold granted, authorizationNamespaces in *. apply orb_true_iff.
  destruct (rd_Namespaced desc) eqn:Hd; cbn [negb] in *; [| left; apply Hg; [done | by apply list_elem_of_singleton]].
  destruct (decide (namespace = "")) as [-> | Hne].
  - rewrite bool_decide_eq_false_2 in Hg by (intros H; by apply H).
    destruct (nf_all (filter_ m ctx)) eqn:Hfa; [left; apply Hg; [done | by apply list_elem_of_singleton] |].
    right. apply Hg; [done |]. apply namesOf_elem. unfold allows in Hn. rewrite Hfa in Hn. by apply contains_spec.
  - rewrite bool_decide_eq_true_2 in Hg by done. rewrite (bool_decide_eq_false_2 (namespace = "")) in Hns by done.
    rewrite bool_decide_eq_false_2 in Hns by done. apply bool_decide_eq_true in Hns as ->. right. apply Hg; [done | by apply list_elem_of_singleton].
Qed.

(** C7: Whoever acts as a caller is shown only what the cluster's own authorizer lets that caller read: each hit of a search, each namespace
    that is named, each row of a table and each pod's history is of a namespace where the caller may list pods and deployments, or may do so
    everywhere; a table's kind may also be listed and watched there; and a whole kind is leased only to who may read it in the whole cluster. *)
Theorem reads_within_scope (ask : client) limits over :
  (forall desc n items, n <> "" -> ask desc n = Returned (Ok items) -> forall item, item ∈ items -> pm_Namespace item = n) ->
  "" ∉ nn_Names (everyNamespace m) ->
  (forall order query hit, hit ∈ sr_Hits (Search m ctx ask limits over order query) -> mayRead (sh_Namespace hit) = true) /\
  (forall n, n ∈ nn_Names (namespacesShown m ctx) -> mayRead n = true) /\
  (forall desc namespace seen effNs required limit n,
     subscribeGate m ctx desc namespace = Ok (seen, effNs, required) ->
     visible (newSubscriber effNs limit seen) n = true -> mayRead n = true /\ granted (readable desc) n = true) /\
  (forall desc, leaseGate m ctx desc = None ->
     forallb (yes (dec Scoping)) clusterWide = true /\ forallb (yes (dec Requiring)) (readable desc "") = true) /\
  (forall n, historyGate m ctx n = None -> mayRead n = true /\ yes (dec Requiring) (metricsRead n) = true).
Proof using Type*.
  intros Hask Hnamed. destruct filter_spec as (Hall & Hnames & Hmay). destruct scope_spec as [He Hs]. split; [| split; [| split; [| split]]].
  - intros order query hit Hh. unfold Search in Hh. destruct (meta m); [| by apply elem_of_nil in Hh].
    destruct (nf_all (filter_ m ctx)) eqn:Hfa; [unfold mayRead; by rewrite Hall |]. destruct (zlen _ =? 0)%Z eqn:Hz; [by apply elem_of_nil in Hh |].
    apply search_exact in Hh as (desc & _ & n & items & item & Hn & Ha & Hi & _ & ->).
    unfold wantedIn in Hn. rewrite Hz in Hn. apply namesOf_elem in Hn. cbn. rewrite (Hask desc n items) by (done || by intros ->; apply Hnamed, Hnames).
    apply Hmay. unfold allows. rewrite Hfa. by apply contains_spec.
  - intros n. unfold namespacesShown. rewrite Hacting. cbn [negb]. unfold mayRead. rewrite <- He. case_bool_decide as Herr.
    + unfold everyNamespace in Herr |- *. by destruct (meta m) as [[names | e] |]; cbn in *; [| intros []%elem_of_nil |].
    + destruct (Everywhere (scopeOf m ctx)); [done |]. cbn. intros Hn. by apply Hs.
  - intros desc namespace seen effNs required limit n. by apply subscribe_scoped.
  - intros desc. unfold leaseGate. destruct (nf_all (filter_ m ctx)) eqn:Hfa; cbn; [| done].
    destruct (requireRead m ctx (filter_ m ctx) desc "") as [req | e] eqn:Hr; [| done]. intros _. split; [by apply Hall |].
    apply (requireRead_spec desc "" req); [done |]. unfold authorizationNamespaces. rewrite Hfa. destruct (negb _); by apply list_elem_of_singleton.
  - intros n. unfold historyGate. destruct (allows (filter_ m ctx) n) eqn:Hn; cbn; [| done]. intros Hp. split; [by apply Hmay |].
    destruct (permitted m ctx [metricsRead n]) eqn:Hq; [done |]. apply permitted_spec in Hq. cbn in Hq. by apply andb_true_iff in Hq as [? _].
Qed.
End scoped.

(** ** A caller who reads one namespace *)

#[local] Instance plainWording : Wording := { ToLower := Config.ToLower; RuneCount s := Z.of_nat (String.length s); DurationString d := Itoa d }.

Definition ana : Context_ := Some (MkIdentity "ana" [] RoleViewer "s1").

Definition inShop (_ : moment) (c : Check) : Decision_ := MkDecision (bool_decide (c_Namespace c = "shop")) true "".

Definition oneNamespace : service_ := MkService_ true (fun at_ _ checks => map (inShop at_) checks).

Definition shopManager : Manager := MkManager (Some (Ok ["shop"; "bank"])) (Some oneNamespace) (MkNamespaceNames [] false "") "" [] [].

Definition podsDesc : ResourceDescriptor := MkResourceDescriptor "" "v1" "pods" "Pod" true "".

Definition podsEverywhere : client := fun _ namespace =>
  if bool_decide (namespace = "") then Returned (Ok [MkPartial "shop" "web-1"; MkPartial "bank" "web-2"]) else Returned (Ok [MkPartial namespace "web-3"; MkPartial namespace "db"]).

Lemma reads_within_scope_witness :
  sr_Hits (Search shopManager ana podsEverywhere (MkCountLimits 0 0 0) (fun _ => false) [podsDesc] " WEB") =
    [MkSearchHit "" "" "v1" "pods" "Pod" "shop" "web-3"] /\
  nn_Names (namespacesShown shopManager ana) = ["shop"] /\
  mayRead inShop "shop" = true /\ mayRead inShop "bank" = false.
Proof.
  split; [vm_compute; reflexivity |]. split; [vm_compute; reflexivity |]. split; [| vm_compute; reflexivity].
  refine (proj1 (proj2 (reads_within_scope shopManager oneNamespace ana inShop eq_refl eq_refl eq_refl (fun _ _ => eq_refl) podsEverywhere
    (MkCountLimits 0 0 0) (fun _ => false) _ _)) "shop" _).
  - intros desc n items Hn. unfold podsEverywhere. rewrite bool_decide_eq_false_2 by done. intros [= <-] item Hi.
    by repeat (apply elem_of_cons in Hi as [-> | Hi]; [done |]); apply elem_of_nil in Hi.
  - vm_compute. intros H. by repeat (apply elem_of_cons in H as [H | H]; [done |]); apply elem_of_nil in H.
  - vm_compute. apply list_elem_of_here.
Defined.

Lemma search_exact_witness :
  "web-2" ∈ map sh_Name (sr_Hits (searchScoped podsEverywhere (MkCountLimits 0 0 0) (fun _ => false) [podsDesc] "web" [])).
Proof.
  apply map_elem. exists (hitOf podsDesc (MkPartial "bank" "web-2")). split; [done |].
  apply (proj2 (proj2 (proj2 (search_exact podsEverywhere (MkCountLimits 0 0 0) (fun _ => false) [podsDesc] "web" [])))) with podsDesc;
    [done | by vm_compute | by vm_compute | apply list_elem_of_here |].
  exists "", [MkPartial "shop" "web-1"; MkPartial "bank" "web-2"], (MkPartial "bank" "web-2").
  split; [apply list_elem_of_here |]. split; [done |]. split; [apply list_elem_of_further, list_elem_of_here |]. by vm_compute.
Defined.
End Reads.
