(* ===== verification/Compare.v ===== *)
(** internal/compare and server/compare.go: an object, and all objects of a
    kind, of two clusters held against each other without what the servers
    assign. *)

From S2P Require Import Prelude Api Text Unstr Kube Rollout Flux Inspect.

(** The helpers of apimachinery that edit an object's document. *)
Class Edited (U : Type) := {
  HasField : U -> list string -> bool;
  NestedStrings : U -> list string -> nested (list string);
  RemoveField : U -> list string -> U;
  SetSlice : U -> list any -> list string -> option U;
}.

Module Compare.
Import Api Text Unstr.

Definition lastApplied : string := "kubectl.kubernetes.io/last-applied-configuration".
Definition headless : string := "None".
Definition specField : string := "spec".
Definition serviceKind : string := "Service".
Definition claimKind : string := "PersistentVolumeClaim".
Definition volumeKind : string := "PersistentVolume".
Definition crdKind : string := "CustomResourceDefinition".
Definition validatingKind : string := "ValidatingWebhookConfiguration".
Definition mutatingKind : string := "MutatingWebhookConfiguration".

(** [allocatedByTheServer] *)
Definition allocatedByTheServer (kind : string) : list (list string) :=
  if bool_decide (kind = claimKind) then [[specField; "volumeName"]]
  else if bool_decide (kind = volumeKind) then [[specField; "claimRef"; "uid"]; [specField; "claimRef"; "resourceVersion"]]
  else if bool_decide (kind = serviceKind) then [[specField; "healthCheckNodePort"]]
  else if bool_decide (kind = crdKind) then [[specField; "conversion"; "webhook"; "clientConfig"; "caBundle"]]
  else [].

Definition assignedByTheServer : list string :=
  ["uid"; "resourceVersion"; "generation"; "creationTimestamp"; "managedFields"; "selfLink"].

Definition VerdictSame : string := "same".
Definition VerdictDiffers : string := "differs".
Definition VerdictOnlyHere : string := "onlyHere".
Definition VerdictOnlyThere : string := "onlyThere".

(** [api.KindDiff], [api.Comparison] *)
Record KindDiff := MkKindDiff { kd_Namespace : string; kd_Name : string; kd_Verdict : string; kd_Lines : Z; kd_Hidden : bool }.

Record Comparison := MkComparison {
  cp_Left : string;
  cp_Right : string;
  cp_LeftContext : string;
  cp_RightContext : string;
  cp_Identical : bool;
  cp_Missing : string;
  cp_Stripped : list string;
  cp_Hidden : bool;
}.

Record Rendering := MkRendering { rn_Text : string; rn_Authored : string; rn_Stripped : list string }.

Definition changedLines (left_ right_ : string) : Z :=
  let inRight := foldl (fun m line => <[line := (Rollout.count_at m line + 1)%Z]> m) ∅ (str_split Rollout.newline right_) in
  let '(inRight, changed) :=
    foldl (fun '(m, changed) line =>
      if (0 <? Rollout.count_at m line)%Z then (<[line := (Rollout.count_at m line - 1)%Z]> m, changed) else (m, (changed + 1)%Z))
      (inRight, 0%Z) (str_split Rollout.newline left_) in
  (changed + map_fold (fun _ count sum => sum + count) 0 inRight)%Z.

Section compare.
Context {U : Type} `{!Unstructured U} `{!Described U} `{!Editable U} `{!Edited U} {Ym : YAML}.

(** ** compare.go *)

Definition dropLastApplied (clean : U) : U :=
  match GetAnnotations clean with
  | None => clean
  | Some annotations =>
      if bool_decide (annotations !! lastApplied = None) then clean
      else
        let annotations := delete lastApplied annotations in
        if bool_decide (annotations = ∅) then SetAnnotations clean None else SetAnnotations clean (Some annotations)
  end.

(** What was found at a list, with each entry edited and set again; where that
    cannot be, the list goes. *)
Definition setAgain (clean : U) (entries : list any) (fields : list string) : U :=
  match SetSlice clean entries fields with Some set => set | None => RemoveField clean fields end.

Definition without (key : string) (raw : any) : any := match raw with AMap m => AMap (adelete m key) | _ => raw end.

Definition carries (key : string) (raw : any) : bool :=
  match raw with AMap m => match aget m key with Some _ => true | None => false end | _ => false end.

Definition dropOwnerUIDs (clean : U) : U :=
  let n := NestedSlice clean ["metadata"; "ownerReferences"] in
  if negb (found n) || failed n then clean else setAgain clean (map (without "uid") (value n)) ["metadata"; "ownerReferences"].

Definition authored (item : U) : U :=
  let clean := RemoveField item ["status"] in
  let clean := foldl (fun clean field => RemoveField clean ["metadata"; field]) clean assignedByTheServer in
  dropOwnerUIDs (dropLastApplied clean).

(** The body of the first loop of [dropAllocations]. *)
Definition dropPath (st : U * list string) (path : list string) : U * list string :=
  let '(clean, stripped) := st in
  (RemoveField clean path, if HasField clean path then stripped ++ [Join "." path] else stripped).

Definition dropClusterIPs (clean : U) (kind : string) : U * bool :=
  if bool_decide (kind <> serviceKind) then (clean, false)
  else
    let one := NestedString clean [specField; "clusterIP"] in
    let '(clean, dropped) :=
      if found one && negb (failed one) && bool_decide (value one <> headless) then (RemoveField clean [specField; "clusterIP"], true)
      else (clean, false) in
    let many := NestedStrings clean [specField; "clusterIPs"] in
    if negb (found many) || failed many then (clean, dropped)
    else if contains (value many) headless then (clean, dropped)
    else (RemoveField clean [specField; "clusterIPs"], true).

Definition dropNodePorts (clean : U) (kind : string) : U * bool :=
  if bool_decide (kind <> serviceKind) then (clean, false)
  else
    let ports := NestedSlice clean [specField; "ports"] in
    if negb (found ports) || failed ports then (clean, false)
    else (setAgain clean (map (without "nodePort") (value ports)) [specField; "ports"], existsb (carries "nodePort") (value ports)).

Definition withoutBundle (raw : any) : any :=
  match raw with
  | AMap hook => match asMap (aget hook "clientConfig") with Some config => AMap (aset hook "clientConfig" (AMap (adelete config "caBundle"))) | None => raw end
  | _ => raw
  end.

Definition carriesBundle (raw : any) : bool :=
  match raw with
  | AMap hook => match aget hook "clientConfig" with Some config => carries "caBundle" config | None => false end
  | _ => false
  end.

Definition dropCABundles (clean : U) (kind : string) : U * bool :=
  if bool_decide (kind <> validatingKind) && bool_decide (kind <> mutatingKind) then (clean, false)
  else
    let hooks := NestedSlice clean ["webhooks"] in
    if negb (found hooks) || failed hooks then (clean, false)
    else (setAgain clean (map withoutBundle (value hooks)) ["webhooks"], existsb carriesBundle (value hooks)).

Definition dropAllocations (clean : U) : U * list string :=
  let kind := GetKind clean in
  let '(clean, stripped) := foldl dropPath (clean, []) (allocatedByTheServer kind) in
  let '(clean, ips) := dropClusterIPs clean kind in
  let '(clean, ports) := dropNodePorts clean kind in
  let '(clean, bundles) := dropCABundles clean kind in
  (clean, sort_by str_compare (stripped ++ (if ips then ["spec.clusterIP"] else []) ++ (if ports then ["spec.ports[].nodePort"] else []) ++
     (if bundles then ["webhooks[].clientConfig.caBundle"] else []))).

Definition Strip (item : U) : U * list string := dropAllocations (authored item).

Definition Normalise (item : U) : U := (Strip item).1.

Definition Parse (raw : string) : result string U :=
  match UnmarshalYAML raw with
  | Err e => Err ("spinoza could not do that: that object could not be read as yaml: " +s+ e)
  | Ok object => Ok (FromObject object)
  end.

Definition ToYAML (item : U) : result string string :=
  match MarshalYAML (ObjectOf item) with
  | Err e => Err ("spinoza could not do that: that object could not be written as yaml: " +s+ e)
  | Ok raw => Ok raw
  end.

Definition Render (raw : string) (keep : bool) : result string Rendering :=
  if keep then Ok (MkRendering raw raw [])
  else
    match Parse raw with
    | Err e => Err e
    | Ok parsed =>
        let '(clean, stripped) := Strip parsed in
        match ToYAML clean with
        | Err e => Err e
        | Ok text => match ToYAML (authored parsed) with Err e => Err e | Ok wrote => Ok (MkRendering text wrote stripped) end
        end
    end.

Definition Rendered (raw : string) (keep : bool) : result string string :=
  match Render raw keep with Err e => Err e | Ok rendering => Ok (rn_Text rendering) end.

Definition Union (left_ right_ : list string) : list string :=
  sort_by str_compare (foldl (fun out one => if contains out one then out else out ++ [one]) left_ right_).

(** ** server/compare.go *)

Definition farSide (againstNamespace againstName : string) (ref : ObjectRef) : ObjectRef :=
  MkObjectRef (or_Group ref) (or_Version ref) (or_Resource ref)
    (if bool_decide (againstNamespace <> "") then againstNamespace else or_Namespace ref)
    (if bool_decide (againstName <> "") then againstName else or_Name ref).

(** An error of a read: its text and whether nothing is there. *)
Definition missingReason (err : string) (notFound : bool) : string := if notFound then "that context has no such object" else err.

(** [against], of what was read from the other context. *)
Definition against (current other : string) (left_ : Rendering) (raw : result (string * bool) string) (keep : bool) : Comparison :=
  let missing why := MkComparison (rn_Text left_) "" current other false why [] false in
  match raw with
  | Err (e, notFound) => missing (missingReason e notFound)
  | Ok raw =>
      match Render raw keep with
      | Err e => missing e
      | Ok right_ =>
          let identical := bool_decide (rn_Text left_ = rn_Text right_) in
          MkComparison (rn_Text left_) (rn_Text right_) current other identical "" (Union (rn_Stripped left_) (rn_Stripped right_))
            (identical && bool_decide (rn_Authored left_ <> rn_Authored right_))
      end
  end.

(** ** kinds.go *)

Definition verdictFor (object : U) (verdict : string) (lines : Z) : KindDiff :=
  MkKindDiff (GetNamespace object) (GetName object) verdict lines false.

Definition allocationsDiffer (here there : U) : bool :=
  match ToYAML (authored here), ToYAML (authored there) with
  | Ok left_, Ok right_ => bool_decide (left_ <> right_)
  | _, _ => false
  end.

Definition comparedRaw (here there : U) : KindDiff :=
  match ToYAML here, ToYAML there with
  | Ok left_, Ok right_ =>
      if bool_decide (left_ = right_) then verdictFor here VerdictSame 0 else verdictFor here VerdictDiffers (changedLines left_ right_)
  | _, _ => verdictFor here VerdictDiffers 0
  end.

Definition compared (here there : U) (keep : bool) : KindDiff :=
  if keep then comparedRaw here there
  else
    match ToYAML (Normalise here), ToYAML (Normalise there) with
    | Ok left_, Ok right_ =>
        if bool_decide (left_ <> right_) then verdictFor here VerdictDiffers (changedLines left_ right_)
        else MkKindDiff (GetNamespace here) (GetName here) VerdictSame 0 (allocationsDiffer here there)
    | _, _ => verdictFor here VerdictDiffers 0
    end.

Definition keyOf (object : U) (byName : bool) : string :=
  if byName then GetName object else GetNamespace object +s+ "/" +s+ GetName object.

Definition index (objects : list U) (byName : bool) : gmap string U :=
  foldl (fun out object => <[keyOf object byName := object]> out) ∅ objects.

Definition byNamespaceThenName : KindDiff -> KindDiff -> Z := cmp_then (cmp_on kd_Namespace str_compare) (cmp_on kd_Name str_compare).

Definition Kinds (left_ right_ : list U) (byName keep : bool) : list KindDiff :=
  let here := index left_ byName in
  let there := index right_ byName in
  sort_by byNamespaceThenName
    (map (fun '(key, object) =>
       match there !! key with
       | None => verdictFor object VerdictOnlyHere 0
       | Some counterpart => compared object counterpart keep
       end) (map_to_list here) ++
     omap (fun '(key, object) => match here !! key with Some _ => None | None => Some (verdictFor object VerdictOnlyThere 0) end)
       (map_to_list there)).

(** One object of the loop of [Tally]. *)
Definition tallyOne (st : Z * Z * Z * Z) (object : KindDiff) : Z * Z * Z * Z :=
  let '(same, differs, onlyHere, onlyThere) := st in
  if bool_decide (kd_Verdict object = VerdictSame) then (same + 1, differs, onlyHere, onlyThere)%Z
  else if bool_decide (kd_Verdict object = VerdictDiffers) then (same, differs + 1, onlyHere, onlyThere)%Z
  else if bool_decide (kd_Verdict object = VerdictOnlyHere) then (same, differs, onlyHere + 1, onlyThere)%Z
  else if bool_decide (kd_Verdict object = VerdictOnlyThere) then (same, differs, onlyHere, onlyThere + 1)%Z
  else (same, differs, onlyHere, onlyThere).

Definition Tally (objects : list KindDiff) : Z * Z * Z * Z := foldl tallyOne (0, 0, 0, 0)%Z objects.

(** ** What is told of a kind *)

(** The row of a key that either side has. *)
Definition judge (here there : gmap string U) (keep : bool) (key : string) : option KindDiff :=
  match here !! key, there !! key with
  | Some object, None => Some (verdictFor object VerdictOnlyHere 0)
  | Some object, Some counterpart => Some (compared object counterpart keep)
  | None, Some object => Some (verdictFor object VerdictOnlyThere 0)
  | None, None => None
  end.

Lemma index_elem objects byName object :
  object ∈ objects -> exists held, index objects byName !! keyOf object byName = Some held /\ held ∈ objects /\ keyOf held byName = keyOf object byName.
Proof.
  unfold index. induction objects as [| last objects IH] using rev_ind; [by intros []%elem_of_nil |]. rewrite foldl_app. cbn.
  intros Hin. destruct (decide (keyOf last byName = keyOf object byName)) as [Heq | Hne].
  - exists last. rewrite Heq, lookup_insert_eq. repeat split; try done. apply elem_of_app. right. by apply list_elem_of_singleton.
  - rewrite lookup_insert_ne by done. apply elem_of_app in Hin as [Hin | ->%list_elem_of_singleton]; [| done].
    destruct (IH Hin) as (held & H1 & H2 & H3). exists held. repeat split; try done. apply elem_of_app. by left.
Qed.

Lemma omap_map_Some {A B C} (f : A -> B) (g : B -> option C) (h : A -> C) l :
  (forall x, x ∈ l -> g (f x) = Some (h x)) -> omap g (map f l) = map h l.
Proof.
  induction l as [| x l IH]; [done |]. intros Hl. cbn. rewrite (Hl x) by apply list_elem_of_here. f_equal. apply IH. intros y Hy. apply Hl. by apply list_elem_of_further.
Qed.

Lemma omap_filter_map {A B} (p : A -> bool) (f : A -> option B) (h : A -> B) l :
  (forall x, f x = if p x then Some (h x) else None) -> omap f l = map h (List.filter p l).
Proof. intros Hf. induction l as [| x l IH]; [done |]. cbn. rewrite Hf, IH. by destruct (p x). Qed.

Lemma Kinds_rows left_ right_ byName keep :
  let here := index left_ byName in
  let there := index right_ byName in
  Kinds left_ right_ byName keep ≡ₚ omap (judge here there keep) (elements (dom here ∪ dom there)).
Proof.
  intros here there. unfold Kinds. fold here there. rewrite sort_by_perm.
  set (free := fun p : string * U => bool_decide (here !! p.1 = None)).
  assert (elements (dom here ∪ dom there) ≡ₚ map fst (map_to_list here) ++ map fst (List.filter free (map_to_list there))) as ->.
  { apply NoDup_Permutation; [apply NoDup_elements | |].
    - apply list.NoDup_app. split; [apply NoDup_fst_map_to_list |]. split; [| apply NoDup_map_filter, NoDup_fst_map_to_list].
      intros key ((k & o) & -> & Hh%elem_of_map_to_list)%map_elem ((k' & o') & Heq & [_ Hn%bool_decide_eq_true]%filter_elem)%map_elem.
      cbn in *. subst k'. congruence.
    - intros key. rewrite elem_of_elements, elem_of_union, !elem_of_dom, elem_of_app, !map_elem. split.
      + intros [[o Ho] | [o Ho]]; [left; exists (key, o); split; [done | by apply elem_of_map_to_list] |].
        destruct (here !! key) as [o' |] eqn:Hh; [left; exists (key, o') | right; exists (key, o)]; (split; [done |]); [by apply elem_of_map_to_list |].
        apply filter_elem. split; [by apply elem_of_map_to_list | by apply bool_decide_eq_true].
      + intros [((k & o) & -> & H%elem_of_map_to_list) | ((k & o) & -> & [H%elem_of_map_to_list _]%filter_elem)]; [left | right]; by exists o. }
  rewrite omap_app. apply Permutation_app; apply reflexive_eq.
  - rewrite (omap_map_Some fst (judge here there keep)
      (fun p => match there !! p.1 with None => verdictFor p.2 VerdictOnlyHere 0 | Some counterpart => compared p.2 counterpart keep end)).
    + apply map_ext. by intros [key object].
    + intros [key object] H%elem_of_map_to_list. unfold judge. cbn. rewrite H. by destruct (there !! key).
  - rewrite (omap_map_Some fst (judge here there keep) (fun p => verdictFor p.2 VerdictOnlyThere 0)).
    + apply omap_filter_map. intros [key object]. unfold free. cbn. by destruct (here !! key).
    + intros [key object] [H%elem_of_map_to_list Hn%bool_decide_eq_true]%filter_elem. unfold judge. cbn in *. by rewrite H, Hn.
Qed.

(** Both sides written without what the servers assign. *)
Definition sameText (here there : U) : Prop := exists text, ToYAML (Normalise here) = Ok text /\ ToYAML (Normalise there) = Ok text.

(** Both sides written with what the servers allocate to the spec, which differs. *)
Definition otherAllocations (here there : U) : Prop :=
  exists one other, ToYAML (authored here) = Ok one /\ ToYAML (authored there) = Ok other /\ one <> other.

Lemma allocationsDiffer_spec here there : allocationsDiffer here there = true <-> otherAllocations here there.
Proof.
  unfold allocationsDiffer, otherAllocations. split.
  - destruct (ToYAML (authored here)) as [x |], (ToYAML (authored there)) as [y |]; try done.
    intros Hxy%bool_decide_eq_true. by exists x, y.
  - intros (x & y & -> & -> & Hne). by apply bool_decide_eq_true.
Qed.

Lemma compared_spec here there :
  (kd_Verdict (compared here there false) = VerdictSame <-> sameText here there) /\
  (kd_Verdict (compared here there false) <> VerdictSame -> kd_Verdict (compared here there false) = VerdictDiffers) /\
  (kd_Hidden (compared here there false) = true <-> sameText here there /\ otherAllocations here there) /\
  (forall l r, ToYAML (Normalise here) = Ok l -> ToYAML (Normalise there) = Ok r -> l <> r ->
     kd_Lines (compared here there false) =
       Z.of_nat (size (Rollout.lines r ∖ Rollout.lines l) + size (Rollout.lines l ∖ Rollout.lines r))).
Proof.
  unfold compared, sameText. destruct (ToYAML (Normalise here)) as [l |] eqn:Hl, (ToYAML (Normalise there)) as [r |] eqn:Hr; cbn.
  2-4: repeat split; try done; naive_solver.
  case_bool_decide as Hd; cbn.
  - repeat split; try done; try naive_solver. intros ? ? [= <-] [= <-] _.
    exact (proj1 (Rollout.differingLines_symmetric_difference r l)).
  - assert (l = r) as -> by (by destruct (decide (l = r))). split; [split; [by exists r | done] |]. split; [done |]. split; [| by intros ? ? [= <-] [= <-]].
    rewrite allocationsDiffer_spec. split; [intros H; split; [by exists r | done] | by intros [_ H]].
Qed.

Lemma Tally_total (rows : list KindDiff) :
  (forall row, row ∈ rows -> kd_Verdict row ∈ [VerdictSame; VerdictDiffers; VerdictOnlyHere; VerdictOnlyThere]) ->
  let '(same, differs, onlyHere, onlyThere) := Tally rows in (same + differs + onlyHere + onlyThere = zlen rows)%Z.
Proof.
  intros Hv. unfold Tally. assert (forall a b c d, let '(a', b', c', d') := foldl tallyOne (a, b, c, d) rows in (a' + b' + c' + d' = a + b + c + d + zlen rows)%Z) as H.
  2: { specialize (H 0 0 0 0)%Z. destruct (foldl _ _ rows) as [[[a b] c] d]. lia. }
  induction rows as [| row rows IH]; intros a b c d; cbn [foldl]; [rewrite zlen_nil; lia |]. rewrite zlen_cons. unfold tallyOne at 2.
  specialize (IH ltac:(intros x Hx; apply Hv; by apply list_elem_of_further)). specialize (Hv row ltac:(apply list_elem_of_here)).
  repeat case_bool_decide; [specialize (IH (a + 1)%Z b c d) | specialize (IH a (b + 1)%Z c d) | specialize (IH a b (c + 1)%Z d) | specialize (IH a b c (d + 1)%Z) |];
    try (destruct (foldl _ _ rows) as [[[? ?] ?] ?]; lia).
  exfalso. by repeat (apply elem_of_cons in Hv as [Hv | Hv]; [done |]); apply elem_of_nil in Hv.
Qed.

Lemma compared_verdict here there keep : kd_Verdict (compared here there keep) ∈ [VerdictSame; VerdictDiffers].
Proof.
  unfold compared, comparedRaw. destruct keep; repeat case_match; cbn; repeat first [apply list_elem_of_here | apply list_elem_of_further].
Qed.

Lemma verdict_known (v : string) :
  v ∈ [VerdictSame; VerdictDiffers] -> v ∈ [VerdictSame; VerdictDiffers; VerdictOnlyHere; VerdictOnlyThere].
Proof. rewrite !elem_of_cons. intros [-> | [-> | []%elem_of_nil]]; auto. Qed.

(** C32: Holding a kind of two clusters against each other tells every key that either side has once, in order: as only here, only there, the
    same exactly when both are written alike without what the servers assign, or different by the lines one has and the other has not; a row is
    said to hide a difference exactly when it is the same and the two are not written alike with what the servers allocate to their specs; and
    the tally adds up to the rows. *)
Theorem kinds_told left_ right_ byName :
  let here := index left_ byName in
  let there := index right_ byName in
  let rows := Kinds left_ right_ byName false in
  rows ≡ₚ omap (judge here there false) (elements (dom here ∪ dom there)) /\
  StronglySorted (cmp_le byNamespaceThenName) rows /\
  (forall object, object ∈ left_ ++ right_ -> keyOf object byName ∈ dom here ∪ dom there) /\
  (forall key one other, here !! key = Some one -> there !! key = Some other ->
     judge here there false key = Some (compared one other false) /\
     (kd_Verdict (compared one other false) = VerdictSame <-> sameText one other) /\
     (kd_Hidden (compared one other false) = true <-> sameText one other /\ otherAllocations one other) /\
     (forall l r, ToYAML (Normalise one) = Ok l -> ToYAML (Normalise other) = Ok r -> l <> r ->
        kd_Lines (compared one other false) =
       Z.of_nat (size (Rollout.lines r ∖ Rollout.lines l) + size (Rollout.lines l ∖ Rollout.lines r)))) /\
  let '(same, differs, onlyHere, onlyThere) := Tally rows in (same + differs + onlyHere + onlyThere = zlen rows)%Z.
Proof.
  intros here there rows. assert (rows ≡ₚ omap (judge here there false) (elements (dom here ∪ dom there))) as Hp by apply Kinds_rows.
  split; [done |]. split; [apply sort_by_sorted; unfold byNamespaceThenName; apply _ |]. split; [| split].
  - intros object. rewrite elem_of_app, elem_of_union, !elem_of_dom. intros [Ho | Ho]; [left | right]; destruct (index_elem _ byName _ Ho) as (held & Hh & _); by exists held.
  - intros key one other H1 H2. destruct (compared_spec one other) as (Hs & _ & Hh & Hl). unfold judge. by rewrite H1, H2.
  - apply Tally_total. intros row. rewrite Hp. intros (key & _ & Hj)%list_elem_of_omap. unfold judge in Hj.
    destruct (here !! key) as [one |], (there !! key) as [other |]; try done; injection Hj as <-; [| cbn; repeat first [apply list_elem_of_here | apply list_elem_of_further] ..].
    exact (verdict_known _ (compared_verdict one other false)).
Qed.

End compare.

(** ** Documents *)

Definition strings_of (v : any) : option (list string) :=
  match v with ASlice l => mapM (fun x => asString (Some x)) l | _ => None end.

#[export] Instance doc_edited : Edited Doc := {
  HasField u fields := found (doc_field (AMap (Object u)) fields);
  NestedStrings u := map_field [] strings_of (Object u);
  RemoveField u fields := MkDoc (remove_field (Object u) fields);
  SetSlice u entries fields := MkDoc <$> set_field (Object u) fields (ASlice entries);
}.

Definition service (ip port uid : string) : Doc := MkDoc [
  ("apiVersion", AString "v1"); ("kind", AString "Service");
  ("metadata", AMap [("name", AString "web"); ("namespace", AString "shop"); ("uid", AString uid)]);
  ("spec", AMap [("clusterIP", AString ip); ("ports", ASlice [AMap [("port", AInt 80); ("nodePort", AString port)]])]);
  ("status", AMap [])].

(** What a server gave a service goes, and is named. *)
Example strip_service :
  Strip (service "10.0.0.7" "30080" "u1") =
    (MkDoc [("apiVersion", AString "v1"); ("kind", AString "Service");
            ("metadata", AMap [("name", AString "web"); ("namespace", AString "shop")]);
            ("spec", AMap [("ports", ASlice [AMap [("port", AInt 80)]])])],
     ["spec.clusterIP"; "spec.ports[].nodePort"]).
Proof. vm_compute. reflexivity. Qed.

(** A headless service stays one. *)
Example headless_stays : (Strip (service "None" "30080" "u1")).2 = ["spec.ports[].nodePort"].
Proof. vm_compute. reflexivity. Qed.

End Compare.
