(* ===== verification/Agent.v ===== *)
(** internal/mcp: the server an agent talks to, its messages, its tools and
    the five of them that change the cluster.  encoding/json is the class
    [Messages], what strings and numbers look like the class [Spelling]; the
    cluster behind the tools is a record of its answers.  What the tools that
    only read give is an argument. *)

From S2P Require Import Prelude Api Text Unstr Respond Kube Rollout Numbers Routes Actions Flux Argocd.

(** A message, with the raw texts of its id and its parameters. *)
Record request := MkRequest { rq_JSONRPC : string; rq_ID : string; rq_Method : string; rq_Params : string }.

(** What a tool gives. *)
Inductive outcome :=
| AppliedAction (r : Actions.ActionResult)
| AppliedFlux (r : Flux.FluxActionResult)
| AppliedArgo (action : string)
| AppliedObject (applied namespace : string)
| ReadAnswer (body : string).

Class Messages := {
  json_Valid : string -> bool;
  UnmarshalRequest : string -> option request;
  UnmarshalCall : string -> option (string * amap);
  UnmarshalRead : string -> option string;
  MarshalOutcome : outcome -> result string string;
}.

(** [strings.ToLower], [strings.EqualFold], [%q], [%v] of a float64, whether
    it is whole, and its conversion to an int64. *)
Class Spelling := {
  Lower : string -> string;
  EqualFold : string -> string -> bool;
  Quoted : string -> string;
  FloatText : Z -> string;
  FloatWhole : Z -> bool;
  FloatInt : Z -> Z;
  SpanText : duration -> string;
}.

Module Agent.
Import Api Text Unstr.

Definition jsonRPCVersion : string := "2.0".
Definition protocolVersion : string := "2025-06-18".
Definition serverName : string := "spinoza".
Definition codeParse : Z := -32700.
Definition codeInvalidRequest : Z := -32600.
Definition codeMethodNotFound : Z := -32601.
Definition codeInvalidParams : Z := -32602.
Definition codeInternal : Z := -32603.
Definition maxRows : Z := 1000.
Definition defaultCallBudget : duration := (60 * Second)%Z.
Definition defaultLogLines : Z := 200.
Definition healthURI : string := "cluster://health".
Definition topologyURI : string := "cluster://topology".

Definition argResource : string := "resource".
Definition argName : string := "name".
Definition argNamespace : string := "namespace".
Definition argGroup : string := "group".
Definition argAction : string := "action".
Definition argYAML : string := "yaml".
Definition argReplicas : string := "replicas".
Definition argRevision : string := "revision".
Definition argEngine : string := "engine".

Definition fluxVerbs : list string := ["reconcile"; "reconcile-with-source"; "suspend"; "resume"].
Definition argoVerbs : list string := ["sync"; "refresh"; "hard-refresh"; "terminate"; "suspend"; "resume"; "rollback"].
Definition writeToolNames : list string := ["manage_workload"; "manage_node"; "manage_cronjob"; "manage_gitops"; "apply_resource"].

(** ** args.go *)

Definition arguments := amap.

Section agent.
Context {Ms : Messages} {Sp : Spelling}.

Definition text (a : arguments) (key : string) : string :=
  match aget a key with
  | Some (AString value) => value
  | Some (AFloat value) => Numbers.FormatFloat value
  | Some (ABool value) => if value then "true" else "false"
  | _ => ""
  end.

Definition required (a : arguments) (key : string) : result string string :=
  let found := text a key in if bool_decide (TrimSpace found = "") then Err (key +s+ " is required") else Ok found.

Definition number (a : arguments) (key : string) (fallback : Z) : Z :=
  match aget a key with
  | Some (AFloat value) => FloatInt value
  | Some (AString value) => match Parse.ParseInt value 64 with Ok parsed => parsed | Err _ => fallback end
  | _ => fallback
  end.

Definition limit (a : arguments) (key : string) (fallback : Z) : Z :=
  let found := number a key fallback in
  if (found <=? 0)%Z then fallback else if (maxRows <? found)%Z then maxRows else found.

Definition count (a : arguments) (key : string) : result string Z :=
  match aget a key with
  | None => Err (key +s+ " is required")
  | Some (AFloat value) =>
      if negb (FloatWhole value) then Err (key +s+ " must be a whole number, not " +s+ FloatText value) else Ok (FloatInt value)
  | Some (AString value) =>
      match Parse.ParseInt value 64 with
      | Ok parsed => Ok parsed | Err _ => Err (key +s+ " must be a whole number, not " +s+ Quoted value) end
  | _ => Err (key +s+ " must be a whole number")
  end.

Definition flag (a : arguments) (key : string) : bool :=
  match aget a key with Some (ABool value) => value | Some (AString value) => bool_decide (value = "true") | _ => false end.

Definition oneOf (a : arguments) (key : string) (allowed : list string) : result string string :=
  match required a key with
  | Err e => Err e
  | Ok found => if contains allowed found then Ok found else Err (key +s+ " must be one of " +s+ Join ", " allowed)
  end.

Definition names (desc : ResourceDescriptor) (wanted : string) : bool :=
  if EqualFold (rd_Resource desc) wanted then true else EqualFold (rd_Kind desc) wanted.

Definition groupList (matches : list ResourceDescriptor) : string :=
  Join " and " (map (fun desc => if bool_decide (rd_Group desc = "") then "the core group" else rd_Group desc) matches).

(** The catalog is its categories' kinds. *)
Definition matching (catalog : list (list ResourceDescriptor)) (resource group : string) : list ResourceDescriptor :=
  List.filter (fun desc => names desc (Lower resource) && negb (bool_decide (group <> "") && bool_decide (rd_Group desc <> group))) (concat catalog).

Definition resolve (catalog : list (list ResourceDescriptor)) (resource group : string) : result string ResourceDescriptor :=
  match matching catalog resource group with
  | [] => Err ("this cluster reports no resource type called " +s+ Quoted resource)
  | [one] => Ok one
  | matches => Err (Quoted resource +s+ " is served by " +s+ groupList matches +s+ "; name the group")
  end.

Definition ref (a : arguments) (catalog : list (list ResourceDescriptor)) : result string ObjectRef :=
  match required a argResource with
  | Err e => Err e
  | Ok resource =>
      match required a argName with
      | Err e => Err e
      | Ok name =>
          match resolve catalog resource (text a argGroup) with
          | Err e => Err e
          | Ok found => Ok (MkObjectRef (rd_Group found) (rd_Version found) (rd_Resource found) (text a argNamespace) name)
          end
      end
  end.

Definition refIn (a : arguments) (catalog : list (list ResourceDescriptor)) : result string ObjectRef :=
  match ref a catalog with
  | Err e => Err e
  | Ok found => if bool_decide (or_Namespace found = "") then Err (argNamespace +s+ " is required") else Ok found
  end.

Definition kind (a : arguments) (catalog : list (list ResourceDescriptor)) : result string ObjectRef :=
  match required a argResource with
  | Err e => Err e
  | Ok resource =>
      match resolve catalog resource (text a argGroup) with
      | Err e => Err e
      | Ok found => Ok (MkObjectRef (rd_Group found) (rd_Version found) (rd_Resource found) (text a argNamespace) "")
      end
  end.

(** ** write.go *)

(** [Writes] and the catalog, by their answers; an object that was applied is
    its kind, name and namespace. *)
Record Cluster := MkCluster {
  Resources : list (list ResourceDescriptor);
  AccessOf : ObjectRef -> list Refusal;
  ActionOf : Actions.Request -> result string Actions.ActionResult;
  ApplyOf : ObjectRef -> string -> result string (string * string * string);
  FluxOf : ObjectRef -> string -> result string Flux.FluxActionResult;
  ArgoOf : ObjectRef -> Argocd.Request -> result string string;
}.

(** A call of [Writes] that changes the cluster. *)
Inductive change :=
| Acted (req : Actions.Request)
| AppliedDocument (ref : ObjectRef) (document : string)
| Fluxed (ref : ObjectRef) (action : string)
| Argoed (ref : ObjectRef) (req : Argocd.Request).

(** What a tool did and what it gave. *)
Definition ran := (list change * result string outcome)%type.

Definition refused (e : string) : ran := ([], Err e).

Definition permitted (c : Cluster) (r : ObjectRef) (capability : string) : option string :=
  r_Reason <$> List.find (fun refusal => bool_decide (r_Capability refusal = capability)) (AccessOf c r).

Definition act (c : Cluster) (r : ObjectRef) (req : Actions.Request) (capability : string) : ran :=
  match permitted c r capability with
  | Some e => refused e
  | None => ([Acted req], match ActionOf c req with Err e => Err e | Ok done => Ok (AppliedAction done) end)
  end.

Definition manageWorkload (c : Cluster) (a : arguments) : ran :=
  match refIn a (Resources c) with
  | Err e => refused e
  | Ok r =>
      match oneOf a argAction ["scale"; "restart"; "undo"] with
      | Err e => refused e
      | Ok verb =>
          match (if bool_decide (verb = "scale") then count a argReplicas else Ok 0%Z) with
          | Err e => refused e
          | Ok replicas =>
              if bool_decide (verb = "scale") && (replicas <? 0)%Z then refused "replicas cannot be negative"
              else
                match (if bool_decide (verb = "undo") then count a argRevision else Ok 0%Z) with
                | Err e => refused e
                | Ok revision =>
                    if bool_decide (verb = "undo") && (revision <=? 0)%Z then refused "revision has to name a revision to go back to"
                    else act c r (Actions.MkRequest r verb replicas revision false false) verb
                end
          end
      end
  end.

Definition manageNode (c : Cluster) (a : arguments) : ran :=
  match required a argName with
  | Err e => refused e
  | Ok name =>
      match oneOf a argAction ["cordon"; "uncordon"; "drain"] with
      | Err e => refused e
      | Ok verb =>
          let r := MkObjectRef "" "v1" "nodes" "" name in
          act c r (Actions.MkRequest r verb 0 0 (flag a "force") (bool_decide (verb = "drain") && flag a "dryRun"))
            (if bool_decide (verb = "uncordon") then "cordon" else verb)
      end
  end.

Definition manageCronJob (c : Cluster) (a : arguments) : ran :=
  match required a argName with
  | Err e => refused e
  | Ok name =>
      match required a argNamespace with
      | Err e => refused e
      | Ok namespace =>
          match oneOf a argAction ["suspend"; "resume"; "trigger"] with
          | Err e => refused e
          | Ok verb =>
              let r := MkObjectRef "batch" "v1" "cronjobs" namespace name in
              act c r (Actions.MkRequest r verb 0 0 false false) (if bool_decide (verb = "resume") then "suspend" else verb)
          end
      end
  end.

(** [argocd.Request] with its action only. *)
Definition argoRequest (verb : string) : Argocd.Request := Argocd.MkRequest verb false false false false false false 0 [].

Definition manageGitops (c : Cluster) (a : arguments) : ran :=
  match oneOf a argEngine ["flux"; "argo"] with
  | Err e => refused e
  | Ok engine =>
      match refIn a (Resources c) with
      | Err e => refused e
      | Ok r =>
          match permitted c r "reconcile" with
          | Some e => refused e
          | None =>
              if bool_decide (engine = "flux") then
                match oneOf a argAction fluxVerbs with
                | Err e => refused e
                | Ok verb => ([Fluxed r verb], match FluxOf c r verb with Err e => Err e | Ok done => Ok (AppliedFlux done) end)
                end
              else
                match oneOf a argAction argoVerbs with
                | Err e => refused e
                | Ok verb =>
                    ([Argoed r (argoRequest verb)], match ArgoOf c r (argoRequest verb) with Err e => Err e | Ok done => Ok (AppliedArgo done) end)
                end
          end
      end
  end.

Definition applyResource (c : Cluster) (a : arguments) : ran :=
  match ref a (Resources c) with
  | Err e => refused e
  | Ok r =>
      match required a argYAML with
      | Err e => refused e
      | Ok document =>
          match permitted c r "edit" with
          | Some e => refused e
          | None =>
              ([AppliedDocument r document],
               match ApplyOf c r document with
               | Err e => Err e | Ok (kind, name, namespace) => Ok (AppliedObject (kind +s+ "/" +s+ name) namespace) end)
          end
      end
  end.

(** ** tools.go *)

(** A tool without its descriptions. *)
Record tool := MkTool {
  tl_name : string;
  tl_required : list string;
  tl_writes : bool;
  tl_destructive : bool;
  tl_idempotent : bool;
  tl_run : arguments -> ran;
}.

Record toolCard := MkToolCard { tc_Name : string; tc_Required : list string; tc_ReadOnly : bool; tc_Destructive : bool; tc_Idempotent : bool }.

Definition card (t : tool) : toolCard := MkToolCard (tl_name t) (tl_required t) (negb (tl_writes t)) (tl_destructive t) (tl_idempotent t).

(** [registerWrites] *)
Definition writeTools (c : Cluster) : list tool := [
  MkTool "manage_workload" [argResource; argName; argNamespace; argAction] true false true (manageWorkload c);
  MkTool "manage_node" [argName; argAction] true true false (manageNode c);
  MkTool "manage_cronjob" [argName; argNamespace; argAction] true false true (manageCronJob c);
  MkTool "manage_gitops" ["engine"; argResource; argName; argNamespace; argAction] true false true (manageGitops c);
  MkTool "apply_resource" [argResource; argName; argYAML] true true false (applyResource c)].

(** A tool of [registerReads]: its name, the arguments it requires and what it
    gives. *)
Record readTool := MkReadTool { rt_name : string; rt_required : list string; rt_run : arguments -> result string outcome }.

Definition asTool (t : readTool) : tool := MkTool (rt_name t) (rt_required t) false false false (fun a => ([], rt_run t a)).

(** ** server.go *)

Record Options := MkOptions {
  op_Version : string;
  op_Context : string;
  op_AllowWrite : bool;
  op_UnsafeRawOutput : bool;
  op_LogLines : Z;
  op_CallBudget : duration;
}.

Record Server := MkServer {
  tools : gmap string tool;
  version : string;
  context : string;
  allowWrite : bool;
  unsafeRawOutput : bool;
  logLines : Z;
  budget : duration;
  resourceBody : string -> result string outcome;
}.

Definition register (m : gmap string tool) (one : tool) : gmap string tool := <[tl_name one := one]> m.

Definition New (c : Cluster) (reads : list readTool) (bodies : string -> result string outcome) (opts : Options) : Server :=
  MkServer (foldl register (foldl register ∅ (map asTool reads)) (writeTools c)) (op_Version opts) (op_Context opts) (op_AllowWrite opts)
    (op_UnsafeRawOutput opts) (if (op_LogLines opts <=? 0)%Z then defaultLogLines else op_LogLines opts)
    (if (op_CallBudget opts <=? 0)%Z then defaultCallBudget else op_CallBudget opts) bodies.

(** Whether the cluster is protected is asked at the time. *)
Definition writesAllowed (s : Server) (isProtected : bool) : bool := if negb (allowWrite s) then false else negb isProtected.

Definition toolFor (s : Server) (isProtected : bool) (name : string) : option tool :=
  match tools s !! name with
  | None => None
  | Some one => if tl_writes one && negb (writesAllowed s isProtected) then None else Some one
  end.

Definition cards (s : Server) (isProtected : bool) : list toolCard :=
  omap (fun name => card <$> toolFor s isProtected name) (sort_by str_compare (map fst (map_to_list (tools s)))).

Definition instructions (s : Server) (isProtected : bool) : string :=
  Join " "
    (["Reads one Kubernetes cluster through spinoza's own informer caches."; "Context: " +s+ context s +s+ "."] ++
     (if isProtected then ["This cluster is marked protected in spinoza, so every write tool is withheld."] else []) ++
     (if negb (writesAllowed s isProtected) then ["Read-only: no tool here can change the cluster."] else []) ++
     ["Secret values are never returned; key names and sizes are."] ++
     (if unsafeRawOutput s then
        ["Unsafe raw output is enabled: log lines and Helm values use best-effort redaction that cannot guarantee every credential is removed."]
      else ["Raw log lines and Helm values are withheld unless the server is explicitly started with the unsafe raw-output option."])).

Inductive payload :=
| Hello (version instructions : string)
| Pong
| Listing (tools : list toolCard)
| CallResult (text : string) (isError : bool)
| ResourceCards
| ResourceText (uri text : string).

Inductive reply := Answer (id : string) (result : payload) | Refuse (id : string) (code : Z) (message : string).

Definition validID (id : string) : bool :=
  match TrimSpace id with
  | EmptyString => true
  | String first _ as id =>
      bool_decide (id = "null") || (Ascii.N_of_ascii first =? 34)%N || (Ascii.N_of_ascii first =? 45)%N ||
      ((48 <=? Ascii.N_of_ascii first)%N && (Ascii.N_of_ascii first <=? 57)%N)
  end.

Definition unknown (s : Server) (isProtected : bool) (name : string) : string :=
  if negb (writesAllowed s isProtected) && contains writeToolNames name then name +s+ " changes the cluster and this server is read-only"
  else "spinoza serves no tool called " +s+ name.

(** [late]: the time of the call is over when the tool has returned. *)
Definition runBounded (s : Server) (late : bool) (one : tool) (a : arguments) : ran :=
  let '(changes, result) := tl_run one a in
  (changes,
   match result with
   | Err e => Err e
   | Ok done => if late then Err (tl_name one +s+ " did not finish within " +s+ SpanText (budget s)) else Ok done
   end).

Definition callTool (s : Server) (isProtected late : bool) (call : request) : list change * reply :=
  match UnmarshalCall (rq_Params call) with
  | None => ([], Refuse (rq_ID call) codeInvalidParams "the call parameters are not an object")
  | Some (name, args) =>
      match toolFor s isProtected name with
      | None => ([], Refuse (rq_ID call) codeInvalidParams (unknown s isProtected name))
      | Some found =>
          let '(changes, result) := runBounded s late found args in
          (changes,
           match result with
           | Err e => Answer (rq_ID call) (CallResult e true)
           | Ok done =>
               match MarshalOutcome done with
               | Err e => Refuse (rq_ID call) codeInternal ("the result could not be encoded: " +s+ e)
               | Ok body => Answer (rq_ID call) (CallResult body false)
               end
           end)
      end
  end.

Definition readResource (s : Server) (call : request) : reply :=
  match UnmarshalRead (rq_Params call) with
  | None => Refuse (rq_ID call) codeInvalidParams "the read parameters are not an object"
  | Some uri =>
      let body :=
        if bool_decide (uri = healthURI) || bool_decide (uri = topologyURI) then resourceBody s uri
        else Err ("spinoza serves no resource at " +s+ uri) in
      match body with
      | Err e => Refuse (rq_ID call) codeInvalidParams e
      | Ok body =>
          match MarshalOutcome body with
          | Err e => Refuse (rq_ID call) codeInternal ("the resource could not be encoded: " +s+ e)
          | Ok encoded => Answer (rq_ID call) (ResourceText uri encoded)
          end
      end
  end.

Definition dispatch (s : Server) (isProtected late : bool) (call : request) : list change * reply :=
  let method := rq_Method call in
  if bool_decide (method = "initialize") then ([], Answer (rq_ID call) (Hello (version s) (instructions s isProtected)))
  else if bool_decide (method = "ping") then ([], Answer (rq_ID call) Pong)
  else if bool_decide (method = "tools/list") then ([], Answer (rq_ID call) (Listing (cards s isProtected)))
  else if bool_decide (method = "tools/call") then callTool s isProtected late call
  else if bool_decide (method = "resources/list") then ([], Answer (rq_ID call) ResourceCards)
  else if bool_decide (method = "resources/read") then ([], readResource s call)
  else ([], Refuse (rq_ID call) codeMethodNotFound ("spinoza serves no method called " +s+ method)).

(** [Handle]: what was changed, and the reply, if there is one. *)
Definition Handle (s : Server) (isProtected late : bool) (raw : string) : list change * option reply :=
  let refuse id code message : list change * option reply := ([], Some (Refuse id code message)) in
  if negb (json_Valid raw) then refuse "" codeParse "the message is not JSON"
  else
    match UnmarshalRequest raw with
    | None => refuse "" codeInvalidRequest "the message is not a JSON-RPC request"
    | Some call =>
        if bool_decide (rq_JSONRPC call <> jsonRPCVersion) then refuse (rq_ID call) codeInvalidRequest ("jsonrpc must be " +s+ jsonRPCVersion)
        else if bool_decide (rq_Method call = "") then refuse (rq_ID call) codeInvalidRequest "method is required"
        else if negb (validID (rq_ID call)) then refuse "" codeInvalidRequest "id must be a string, number, or null"
        else if bool_decide (rq_ID call = "") then ([], None)
        else let '(changes, answer) := dispatch s isProtected late call in (changes, Some answer)
    end.

(** ** What an agent can change *)

(** The capability an action asks for. *)
Definition needs (verb : string) : string :=
  if bool_decide (verb = "uncordon") then "cordon" else if bool_decide (verb = "resume") then "suspend" else verb.

(** The kind of a reference is one the cluster reports, or the tool's own. *)
Definition served (c : Cluster) (r : ObjectRef) : Prop :=
  (exists desc, desc ∈ concat (Resources c) /\ or_Group r = rd_Group desc /\ or_Version r = rd_Version desc /\ or_Resource r = rd_Resource desc) \/
  (or_Group r, or_Version r, or_Resource r) ∈ [("", "v1", "nodes"); ("batch", "v1", "cronjobs")].

(** The cluster's own access review refuses none of what the change needs, its
    kind is known, and its numbers make sense. *)
Definition allowed (c : Cluster) (ch : change) : Prop :=
  match ch with
  | Acted req =>
      permitted c (Actions.Ref req) (needs (Actions.Action req)) = None /\ served c (Actions.Ref req) /\ (0 <= Actions.Replicas req)%Z /\
      (Actions.Action req = "undo" -> 0 < Actions.Revision req)%Z
  | AppliedDocument r _ => permitted c r "edit" = None /\ served c r
  | Fluxed r verb => permitted c r "reconcile" = None /\ served c r /\ verb ∈ fluxVerbs
  | Argoed r req => permitted c r "reconcile" = None /\ served c r /\ Argocd.Action req ∈ argoVerbs /\ req = argoRequest (Argocd.Action req)
  end.

(** What the cluster answers to a change. *)
Definition answered (c : Cluster) (ch : change) : result string outcome :=
  match ch with
  | Acted req => match ActionOf c req with Err e => Err e | Ok done => Ok (AppliedAction done) end
  | AppliedDocument r document =>
      match ApplyOf c r document with Err e => Err e | Ok (kind, name, namespace) => Ok (AppliedObject (kind +s+ "/" +s+ name) namespace) end
  | Fluxed r verb => match FluxOf c r verb with Err e => Err e | Ok done => Ok (AppliedFlux done) end
  | Argoed r req => match ArgoOf c r req with Err e => Err e | Ok done => Ok (AppliedArgo done) end
  end.

(** A tool changes nothing and fails, or makes one change that is allowed and
    gives what the cluster answers. *)
Definition sound (c : Cluster) (r : ran) : Prop :=
  (exists e, r = refused e) \/ exists ch, r = ([ch], answered c ch) /\ allowed c ch.

Lemma refused_sound c e : sound c (refused e).
Proof. left. by exists e. Qed.

Lemma ref_served a c r : ref a (Resources c) = Ok r -> served c r.
Proof.
  unfold ref. destruct (required a argResource) as [resource |]; [| done]. destruct (required a argName); [| done]. unfold resolve.
  destruct (matching (Resources c) resource (text a argGroup)) as [| one [| two rest]] eqn:Hm; try done. intros [= <-]. left. exists one.
  split; [| done]. assert (one ∈ matching (Resources c) resource (text a argGroup)) as Hin by (rewrite Hm; apply list_elem_of_here).
  by apply filter_elem in Hin as [? _].
Qed.

Lemma refIn_served a c r : refIn a (Resources c) = Ok r -> served c r.
Proof. unfold refIn. destruct (ref a (Resources c)) eqn:Hr; [| done]. case_bool_decide; [done |]. intros [= <-]. by eapply ref_served. Qed.

Lemma oneOf_in a key l verb : oneOf a key l = Ok verb -> verb ∈ l.
Proof. unfold oneOf. destruct (required a key) as [found |]; [| done]. destruct (contains l found) eqn:Hc; [| done]. intros [= <-]. by apply contains_spec. Qed.

Lemma act_sound c req :
  served c (Actions.Ref req) -> (0 <= Actions.Replicas req)%Z -> (Actions.Action req = "undo" -> 0 < Actions.Revision req)%Z ->
  sound c (act c (Actions.Ref req) req (needs (Actions.Action req))).
Proof.
  intros Hs Hr Hv. unfold act. destruct (permitted c _ _) as [e |] eqn:Hp; [apply refused_sound |]. right. by exists (Acted req).
Qed.

Lemma manageWorkload_sound c a : sound c (manageWorkload c a).
Proof.
  unfold manageWorkload. destruct (refIn a (Resources c)) as [r | e] eqn:Hr; [| apply refused_sound]. apply refIn_served in Hr.
  destruct (oneOf a argAction _) as [verb | e] eqn:Hv; [| apply refused_sound]. apply oneOf_in in Hv.
  destruct (if bool_decide (verb = "scale") then count a argReplicas else Ok 0%Z) as [replicas | e] eqn:Hn; [| apply refused_sound].
  destruct (bool_decide (verb = "scale") && (replicas <? 0)%Z) eqn:Hneg; [apply refused_sound |].
  destruct (if bool_decide (verb = "undo") then count a argRevision else Ok 0%Z) as [revision | e]; [| apply refused_sound].
  destruct (bool_decide (verb = "undo") && (revision <=? 0)%Z) eqn:Hu; [apply refused_sound |].
  assert (needs verb = verb) as Hneeds by (repeat (apply elem_of_cons in Hv as [-> | Hv]; [done |]); by apply elem_of_nil in Hv).
  pose proof (act_sound c (Actions.MkRequest r verb replicas revision false false)) as Hact. cbn in Hact. rewrite Hneeds in Hact. apply Hact; [done | |].
  - destruct (bool_decide (verb = "scale")); [cbn in Hneg; lia | by injection Hn as <-].
  - intros ->. rewrite bool_decide_eq_true_2 in Hu by done. cbn in Hu. lia.
Qed.

Lemma fixed_served c group version resource namespace name :
  (group, version, resource) ∈ [("", "v1", "nodes"); ("batch", "v1", "cronjobs")] -> served c (MkObjectRef group version resource namespace name).
Proof. by right. Qed.

Lemma manageNode_sound c a : sound c (manageNode c a).
Proof.
  unfold manageNode. destruct (required a argName) as [name | e]; [| apply refused_sound].
  destruct (oneOf a argAction _) as [verb | e] eqn:Hv; [| apply refused_sound]. apply oneOf_in in Hv.
  assert ((if bool_decide (verb = "uncordon") then "cordon" else verb) = needs verb) as ->.
  { repeat (apply elem_of_cons in Hv as [-> | Hv]; [done |]). by apply elem_of_nil in Hv. }
  apply (act_sound c (Actions.MkRequest _ verb 0 0 _ _)); cbn; [apply fixed_served, list_elem_of_here | lia |].
  intros ->. repeat (apply elem_of_cons in Hv as [Hv | Hv]; [done |]). by apply elem_of_nil in Hv.
Qed.

Lemma manageCronJob_sound c a : sound c (manageCronJob c a).
Proof.
  unfold manageCronJob. destruct (required a argName) as [name | e]; [| apply refused_sound]. destruct (required a argNamespace) as [namespace | e]; [| apply refused_sound].
  destruct (oneOf a argAction _) as [verb | e] eqn:Hv; [| apply refused_sound]. apply oneOf_in in Hv.
  assert ((if bool_decide (verb = "resume") then "suspend" else verb) = needs verb) as ->.
  { repeat (apply elem_of_cons in Hv as [-> | Hv]; [done |]). by apply elem_of_nil in Hv. }
  apply (act_sound c (Actions.MkRequest _ verb 0 0 _ _)); cbn; [apply fixed_served, list_elem_of_further, list_elem_of_here | lia |].
  intros ->. repeat (apply elem_of_cons in Hv as [Hv | Hv]; [done |]). by apply elem_of_nil in Hv.
Qed.

Lemma manageGitops_sound c a : sound c (manageGitops c a).
Proof.
  unfold manageGitops. destruct (oneOf a argEngine _) as [engine | e]; [| apply refused_sound].
  destruct (refIn a (Resources c)) as [r | e] eqn:Hr; [| apply refused_sound]. apply refIn_served in Hr.
  destruct (permitted c r "reconcile") as [e |] eqn:Hp; [apply refused_sound |].
  case_bool_decide; destruct (oneOf a argAction _) as [verb | e] eqn:Hv; try apply refused_sound; apply oneOf_in in Hv; right.
  - by exists (Fluxed r verb).
  - by exists (Argoed r (argoRequest verb)).
Qed.

Lemma applyResource_sound c a : sound c (applyResource c a).
Proof.
  unfold applyResource. destruct (ref a (Resources c)) as [r | e] eqn:Hr; [| apply refused_sound]. apply ref_served in Hr.
  destruct (required a argYAML) as [document | e]; [| apply refused_sound]. destruct (permitted c r "edit") as [e |] eqn:Hp; [apply refused_sound |].
  right. by exists (AppliedDocument r document).
Qed.

(** The tools a server has: those that read, and the five. *)
Lemma register_elem l m name t : foldl register m l !! name = Some t -> t ∈ l \/ m !! name = Some t.
Proof.
  revert m. induction l as [| one l IH]; intros m; cbn; [by right |]. intros [Hin | Hin]%IH; [left; by apply list_elem_of_further |].
  unfold register in Hin. apply lookup_insert_Some in Hin as [[_ <-] | [_ ?]]; [left; apply list_elem_of_here | by right].
Qed.

Lemma tools_sound c reads bodies opts name t a :
  tools (New c reads bodies opts) !! name = Some t ->
  tl_writes t = false /\ (tl_run t a).1 = [] \/ tl_writes t = true /\ sound c (tl_run t a).
Proof.
  change (tools (New c reads bodies opts)) with (foldl register (foldl register ∅ (map asTool reads)) (writeTools c)). intros [Hin | Hin]%register_elem.
  - right. repeat (apply elem_of_cons in Hin as [-> | Hin]; [split; [done |] |]); [| | | | | by apply elem_of_nil in Hin];
      [apply manageWorkload_sound | apply manageNode_sound | apply manageCronJob_sound | apply manageGitops_sound | apply applyResource_sound].
  - left. apply register_elem in Hin as [(rt & -> & _)%map_elem | Hin]; [done | by rewrite lookup_empty in Hin].
Qed.

(** C4: Whatever an agent sends, the cluster is changed at most once, and only if the server was started to allow it, the cluster is not
    protected, and the change is one of the five tools' on an object of a kind the cluster reports that its access review does not refuse; it
    is told as done only when the cluster answered that it is; and a server that may not write lists no tool that does. *)
Theorem agent_changes c reads bodies opts isProtected late raw :
  let '(changes, answer) := Handle (New c reads bodies opts) isProtected late raw in
  (changes = [] \/ exists ch, changes = [ch] /\ op_AllowWrite opts = true /\ isProtected = false /\ allowed c ch) /\
  (forall ch id body, changes = [ch] -> answer = Some (Answer id (CallResult body false)) ->
     exists done, answered c ch = Ok done /\ MarshalOutcome done = Ok body) /\
  (writesAllowed (New c reads bodies opts) isProtected = false ->
     forall id l one, answer = Some (Answer id (Listing l)) -> one ∈ l -> tc_ReadOnly one = true).
Proof.
  set (s := New c reads bodies opts).
  assert (forall (answer : option reply), (forall id l, answer <> Some (Answer id (Listing l))) ->
    ((@nil change) = [] \/ exists ch, (@nil change) = [ch] /\ op_AllowWrite opts = true /\ isProtected = false /\ allowed c ch) /\
    (forall ch id body, (@nil change) = [ch] -> answer = Some (Answer id (CallResult body false)) -> exists done, answered c ch = Ok done /\ MarshalOutcome done = Ok body) /\
    (writesAllowed s isProtected = false -> forall id l one, answer = Some (Answer id (Listing l)) -> one ∈ l -> tc_ReadOnly one = true)) as Hquiet.
  { intros answer Ha. split; [by left |]. split; [done |]. intros _ id l one Heq. by apply Ha in Heq. }
  unfold Handle. destruct (json_Valid raw); cbn [negb]; [| by apply Hquiet]. destruct (UnmarshalRequest raw) as [call |]; [| by apply Hquiet].
  case_bool_decide; [by apply Hquiet |]. case_bool_decide; [by apply Hquiet |]. destruct (validID (rq_ID call)); cbn [negb]; [| by apply Hquiet].
  case_bool_decide; [by apply Hquiet |]. unfold dispatch. case_bool_decide; [by apply Hquiet |]. case_bool_decide; [by apply Hquiet |].
  case_bool_decide.
  { split; [by left |]. split; [done |]. intros Hw id l one [= _ <-] (name & _ & Hc)%list_elem_of_omap. unfold toolFor in Hc.
    destruct (tools s !! name) as [t |]; [| done]. rewrite Hw in Hc. destruct (tl_writes t) eqn:Ht; [done |]. cbn in Hc. injection Hc as <-. cbn. by rewrite Ht. }
  case_bool_decide; [| case_bool_decide; [by apply Hquiet | case_bool_decide; [| by apply Hquiet]]].
  2: { apply Hquiet. intros id l. unfold readResource. by repeat case_match. }
  unfold callTool. destruct (UnmarshalCall (rq_Params call)) as [[name args] |]; [| by apply Hquiet].
  destruct (toolFor s isProtected name) as [t |] eqn:Ht; [| by apply Hquiet]. unfold toolFor in Ht. destruct (tools s !! name) as [t' |] eqn:Hlook; [| done].
  destruct (tools_sound _ _ _ _ _ _ args Hlook) as [[Hro Hnone] | [Hwr Hsound]].
  - rewrite Hro in Ht. cbn in Ht. injection Ht as ->. unfold runBounded. destruct (tl_run t args) as [changes result]. cbn in Hnone. subst changes. apply Hquiet.
    intros id l. by repeat case_match.
  - rewrite Hwr in Ht. cbn in Ht. destruct (writesAllowed s isProtected) eqn:Hw; [| done]. cbn in Ht. injection Ht as ->. unfold runBounded.
    destruct Hsound as [[e ->] | (ch & -> & Hch)]; cbn; [by apply Hquiet |]. unfold writesAllowed in Hw. cbn in Hw.
    destruct (op_AllowWrite opts) eqn:Haw; [| done]. destruct isProtected; [done |]. split; [right; by exists ch |]. split; [| done].
    intros ch' id body [= <-]. destruct (answered c ch) as [done_ | e]; [| done]. destruct late; [done |]. destruct (MarshalOutcome done_) as [text |] eqn:Hm; [| done].
    intros [= _ <-]. by exists done_.
Qed.

(** A change that was made when the time of the call is over is told as one
    that did not finish. *)
Lemma late_change_denied s one a ch done :
  tl_run one a = ([ch], Ok done) ->
  runBounded s true one a = ([ch], Err (tl_name one +s+ " did not finish within " +s+ SpanText (budget s))).
Proof. intros Hr. unfold runBounded. by rewrite Hr. Qed.

(** A rollback an agent asks for names no deployment: it is always the one
    with the number zero. *)
Lemma rollback_names_none c a r req :
  (manageGitops c a).1 = [Argoed r req] -> Argocd.Revision req = 0%Z.
Proof.
  destruct (manageGitops_sound c a) as [[e ->] | (ch & -> & Hch)]; [done |]. intros [= ->]. cbn in Hch. destruct Hch as (_ & _ & _ & ->). done.
Qed.

End agent.

(** ** An agent that restarts a workload *)

Definition shop : Cluster :=
  MkCluster [[MkResourceDescriptor "apps" "v1" "deployments" "Deployment" true "Workloads"]] (fun _ => [MkRefusal "delete" "no"])
    (fun req => Ok (Actions.MkActionResult (Actions.Action req) false "restarted" [])) (fun _ _ => Err "") (fun _ _ => Err "") (fun _ _ => Err "").

Definition restart : arguments :=
  [(argResource, AString "deployments"); (argName, AString "web"); (argNamespace, AString "shop"); (argAction, AString "restart")].

#[local] Instance restarting : Messages := {
  json_Valid _ := true;
  UnmarshalRequest raw := Some (MkRequest "2.0" "1" "tools/call" raw);
  UnmarshalCall _ := Some ("manage_workload", restart);
  UnmarshalRead _ := None;
  MarshalOutcome o := match o with AppliedAction r => Ok (Actions.ar_Message r) | _ => Err "" end;
}.

#[local] Instance plainSpelling : Spelling := {
  Lower s := s; EqualFold s t := bool_decide (s = t); Quoted s := s; FloatText _ := ""; FloatWhole _ := true; FloatInt n := n; SpanText _ := "";
}.

Definition asked (allow isProtected : bool) : list change * option reply :=
  Handle (New shop [] (fun _ => Err "") (MkOptions "" "" allow false 0 0)) isProtected false "{}".

Example agent_restarts :
  asked true false =
    ([Acted (Actions.MkRequest (MkObjectRef "apps" "v1" "deployments" "shop" "web") "restart" 0 0 false false)],
     Some (Answer "1" (CallResult "restarted" false))).
Proof. vm_compute. reflexivity. Qed.

Example agent_withheld : (asked true true).1 = [] /\ (asked false false).1 = [].
Proof. split; vm_compute; reflexivity. Qed.
End Agent.
