(* ===== verification/Charts.v ===== *)
(** internal/charts: the versions of Helm charts, read only from public
    addresses, kept for a while and fetched once for all who ask.  What the
    standard library parses (addresses, authorities, URLs) and EqualFold on a
    host are the classes [Net] and [Authorities]; versions, the list of public
    suffixes and YAML are third-party code, the class [Semver] and arguments. *)

From S2P Require Import Prelude Api Text Identity Config Access Program Reads.

(** net/netip's Addr: its bits as one number; no zone in an IPv4 address. *)
Inductive Addr :=
| NoAddr
| V4 (bits : Z)
| V6 (bits : Z) (zone : string).

#[export] Instance Addr_eq_dec : EqDecision Addr.
Proof. solve_decision. Defined.

Class Authorities := {
  ParseAddr : string -> option Addr;
  AddrString : Addr -> string;
  SplitHostPort : string -> result string (string * string);
  JoinHostPort : string -> string -> string;
  ParseIP : string -> bool;
  EqualFold : string -> string -> bool;
  EffectiveTLDPlusOne : string -> option string;
  PathEscape : string -> string;
  (** [parsed.String()] with parameters of its query set *)
  WithQuery : string -> list (string * string) -> string;
}.

(** github.com/Masterminds/semver *)
Class Semver := {
  Version : Type;
  NewVersion : string -> option Version;
  VCompare : Version -> Version -> Z;
  Prerelease : Version -> string;
  VCompare_ok :: Comparator VCompare;
}.

(** What encoding/json and yaml read of a body: tags, tokens (token and
    access_token) and the releases of an index by chart, each with its version
    and description. *)
Class Documents := {
  DecodeTags : string -> result string (list string);
  DecodeTokens : string -> result string (string * string);
  DecodeIndex : string -> result string (list (string * list (string * string)));
}.

Module Charts.
Import Text.

Definition maxBodyBytes : Z := Z.shiftl 8 20.
Definition fetchTimeout : duration := (30 * Second)%Z.
Definition DefaultTTL : duration := (30 * Minute)%Z.
Definition indexFilename : string := "index.yaml".
Definition maxRedirects : Z := 10.
Definition negativeTTL : duration := (30 * Second)%Z.
Definition ociCapacity : nat := 256.
Definition warmConcurrent : nat := 8.

Record Repo := MkRepo { URL_ : string; OCI : bool }.
Record Chart := MkChart { ch_Name : string; ch_Description : string; ch_Version : string }.

Definition key : Type := Repo * string.

#[export] Instance Repo_eq_dec : EqDecision Repo.
Proof. solve_decision. Defined.
#[export] Instance Repo_countable : Countable Repo.
Proof. apply (inj_countable' (fun r => (URL_ r, OCI r)) (fun p => MkRepo p.1 p.2)). by intros []. Defined.
#[export] Instance Chart_eq_dec : EqDecision Chart.
Proof. solve_decision. Defined.

Record listing := MkListing { versions : gmap string (list string); charts : option (list Chart) }.

(** ** Addresses *)

Definition Unmap (ip : Addr) : Addr :=
  match ip with
  | V6 bits _ => if (Z.shiftr bits 32 =? 0xffff)%Z then V4 (Z.land bits 0xffffffff) else ip
  | _ => ip
  end.

Definition IsValid (ip : Addr) : bool := match ip with NoAddr => false | _ => true end.
Definition Zone (ip : Addr) : string := match ip with V6 _ zone => zone | _ => "" end.

Definition IsLoopback (ip : Addr) : bool :=
  match ip with NoAddr => false | V4 bits => (Z.shiftr bits 24 =? 127)%Z | V6 bits _ => (bits =? 1)%Z end.

Definition IsMulticast (ip : Addr) : bool :=
  match ip with NoAddr => false | V4 bits => (Z.shiftr bits 28 =? 0xe)%Z | V6 bits _ => (Z.shiftr bits 120 =? 0xff)%Z end.

Definition IsLinkLocalUnicast (ip : Addr) : bool :=
  match ip with NoAddr => false | V4 bits => (Z.shiftr bits 16 =? 0xa9fe)%Z | V6 bits _ => (Z.shiftr bits 118 =? 0x3fa)%Z end.

Definition IsLinkLocalMulticast (ip : Addr) : bool :=
  match ip with
  | NoAddr => false
  | V4 bits => (Z.shiftr bits 8 =? 0xe00000)%Z
  | V6 bits _ => (Z.land (Z.shiftr bits 112) 0xff0f =? 0xff02)%Z
  end.

Definition IsPrivate (ip : Addr) : bool :=
  match ip with
  | NoAddr => false
  | V4 bits => (Z.shiftr bits 24 =? 10)%Z || (Z.shiftr bits 20 =? 0xac1)%Z || (Z.shiftr bits 16 =? 0xc0a8)%Z
  | V6 bits _ => (Z.shiftr bits 121 =? 0x7e)%Z
  end.

Definition IsUnspecified (ip : Addr) : bool := bool_decide (ip = V4 0) || bool_decide (ip = V6 0 "").

Definition IsGlobalUnicast (ip : Addr) : bool :=
  match ip with
  | NoAddr => false
  | V4 bits =>
      negb (bits =? 0)%Z && negb (bits =? 0xffffffff)%Z && negb (IsLoopback ip) && negb (IsMulticast ip) && negb (IsLinkLocalUnicast ip)
  | V6 _ _ => negb (bool_decide (ip = V6 0 "")) && negb (IsLoopback ip) && negb (IsMulticast ip) && negb (IsLinkLocalUnicast ip)
  end.

(** A prefix by its address and its length. *)
Definition Contains (prefix : Addr * Z) (ip : Addr) : bool :=
  match prefix.1, ip with
  | V4 base, V4 bits => (Z.shiftr bits (32 - prefix.2) =? Z.shiftr base (32 - prefix.2))%Z
  | V6 base _, V6 bits zone => bool_decide (zone = "") && (Z.shiftr bits (128 - prefix.2) =? Z.shiftr base (128 - prefix.2))%Z
  | _, _ => false
  end.

Definition quad (a b c d : Z) : Addr := V4 (((a * 256 + b) * 256 + c) * 256 + d).
(** The first three groups of an IPv6 address, zeros after them. *)
Definition groups (a b c : Z) : Addr := V6 (Z.shiftl ((a * 65536 + b) * 65536 + c) 80) "".

Definition nonPublicNetworks : list (Addr * Z) := [
  (quad 0 0 0 0, 8); (quad 100 64 0 0, 10); (quad 192 0 0 0, 24); (quad 192 0 2 0, 24); (quad 192 88 99 0, 24); (quad 198 18 0 0, 15);
  (quad 198 51 100 0, 24); (quad 203 0 113 0, 24); (quad 240 0 0 0, 4);
  (groups 0 0 0, 96); (groups 0x64 0xff9b 0, 96); (groups 0x64 0xff9b 1, 48); (groups 0x100 0 0, 64); (groups 0x2001 0 0, 32);
  (groups 0x2001 0x10 0, 28); (groups 0x2001 0x20 0, 28); (groups 0x2001 0xdb8 0, 32); (groups 0x2002 0 0, 16)]%Z.

Definition routableAddress (ip : Addr) : bool :=
  if negb (IsValid ip) || bool_decide (Zone ip <> "") || negb (IsGlobalUnicast ip) then false
  else if IsLoopback ip || IsPrivate ip || IsUnspecified ip then false
  else if IsLinkLocalUnicast ip || IsLinkLocalMulticast ip || IsMulticast ip then false
  else negb (existsb (fun blocked => Contains blocked ip) nonPublicNetworks).

Definition trim_suffix (s suffix : string) : string :=
  if has_suffix s suffix then String.substring 0 (String.length s - String.length suffix) s else s.

Definition localName (host : string) : bool :=
  let lowered := Config.ToLower (trim_suffix host ".") in
  bool_decide (lowered = "localhost") || has_suffix lowered ".localhost".

Definition fetchableScheme (scheme : string) : bool := contains ["http"; "https"; "oci"] scheme.

Section charts.
Context {Nt : Net} {Au : Authorities} {Qt : Quoting}.

Definition literalAddress (host : string) : option Addr := ParseAddr host.

Definition fetchableURL (raw : string) : result string URL :=
  match url_Parse raw with
  | None => Err ("repository url " +s+ Quote raw +s+ ": cannot be parsed")
  | Some parsed =>
      if negb (fetchableScheme (url_Scheme parsed)) then Err ("repository url " +s+ Quote raw +s+ ": spinoza fetches http, https and oci only")
      else if bool_decide (url_Host parsed = "") then Err "repository url has no host"
      else if url_User parsed then Err "repository url must not contain user information"
      else Ok parsed
  end.

Definition checkHost (host : string) : option string :=
  if bool_decide (host = "") then Some "repository url has no host"
  else if localName host then Some ("repository host " +s+ Quote host +s+ " is this machine")
  else match literalAddress host with
    | None => None
    | Some ip =>
        if negb (routableAddress (Unmap ip)) then Some ("repository host " +s+ Quote host +s+ " is not a public address") else None
    end.

Definition CheckRepoURL (raw : string) : option string :=
  match fetchableURL raw with Err e => Some e | Ok parsed => checkHost (url_Hostname parsed) end.

Definition CheckFetchable (raw : string) : option string := match fetchableURL raw with Err e => Some e | Ok _ => None end.

(** [guarded.CheckRedirect]: the redirect to a URL after [via] requests. *)
Definition CheckRedirect (url : string) (via : Z) : option string :=
  if (maxRedirects <=? via)%Z then Some "stopped after 10 redirects" else CheckRepoURL url.

(** ** Dialling *)

(** What a dialler asks of the network: the addresses of a host, and a
    connection to one of them. *)
Inductive call := Lookup (host : string) | Dial (network : string) (ip : Addr) (port : string).

Definition answer (c : call) : Type := match c with Lookup _ => result string (list Addr) | Dial _ _ _ => result string nat end.

(** The addresses in order, or the first that is not public. *)
Fixpoint unmapped (host : string) (addresses : list Addr) : result string (list Addr) :=
  match addresses with
  | [] => Ok []
  | address :: rest =>
      let ip := Unmap address in
      if negb (routableAddress ip) then Err ("repository host " +s+ Quote host +s+ " resolved to non-public address " +s+ AddrString ip)
      else match unmapped host rest with Ok ips => Ok (ip :: ips) | Err e => Err e end
  end.

Definition allPublic (host : string) (addresses : list Addr) : result string (list Addr) :=
  if (zlen addresses =? 0)%Z then Err ("repository host " +s+ Quote host +s+ " resolved to no addresses") else unmapped host addresses.

Definition resolvePublic (host : string) : prog answer (result string (list Addr)) :=
  if localName host then Return (Err ("repository host " +s+ Quote host +s+ " is this machine"))
  else match literalAddress host with
    | Some address => Return (allPublic host [address])
    | None =>
        found <-- ask (Lookup host);;
        Return match found with
        | Err e => Err ("resolve repository host " +s+ Quote host +s+ ": " +s+ e)
        | Ok addresses => allPublic host addresses
        end
    end.

(** The loop of [publicDial]; the errors so far, joined. *)
Fixpoint dialEach (network port : string) (failures : list string) (addresses : list Addr) : prog answer (result string nat) :=
  match addresses with
  | [] => Return (Err (Join (String (Ascii.ascii_of_N 10) "") failures))
  | ip :: rest =>
      conn <-- ask (Dial network ip port);;
      match conn with Ok conn => Return (Ok conn) | Err e => dialEach network port (failures ++ [e]) rest end
  end.

Definition publicDial (network authority : string) : prog answer (result string nat) :=
  match SplitHostPort authority with
  | Err e => Return (Err ("repository address " +s+ Quote authority +s+ ": " +s+ e))
  | Ok (host, port) =>
      addresses <-? resolvePublic host;;
      dialEach network port [] addresses
  end.
End charts.

(** ** Which addresses are public *)

(** The ranges of IPv4 and of IPv6 that no repository is read from. *)
Definition reserved4 : list (Z * Z) := [
  (0, 0x00ffffff); (0x0a000000, 0x0affffff); (0x64400000, 0x647fffff); (0x7f000000, 0x7fffffff); (0xa9fe0000, 0xa9feffff);
  (0xac100000, 0xac1fffff); (0xc0000000, 0xc00000ff); (0xc0000200, 0xc00002ff); (0xc0586300, 0xc05863ff); (0xc0a80000, 0xc0a8ffff);
  (0xc6120000, 0xc613ffff); (0xc6336400, 0xc63364ff); (0xcb007100, 0xcb0071ff); (0xe0000000, 0xffffffff)]%Z.

Definition reserved6 : list (Z * Z) := [
  (0, 2 ^ 32 - 1); (0x64ff9b * 2 ^ 96, 0x64ff9b * 2 ^ 96 + 2 ^ 32 - 1); (0x64ff9b0001 * 2 ^ 80, 0x64ff9b0002 * 2 ^ 80 - 1);
  (0x0100 * 2 ^ 112, 0x0100 * 2 ^ 112 + 2 ^ 64 - 1); (0x20010000 * 2 ^ 96, 0x20010001 * 2 ^ 96 - 1);
  (0x20010010 * 2 ^ 96, 0x20010030 * 2 ^ 96 - 1); (0x20010db8 * 2 ^ 96, 0x20010db9 * 2 ^ 96 - 1); (0x2002 * 2 ^ 112, 0x2003 * 2 ^ 112 - 1);
  (0xfc * 2 ^ 120, 0xfe * 2 ^ 120 - 1); (0xfe80 * 2 ^ 112, 0xfec0 * 2 ^ 112 - 1); (0xff * 2 ^ 120, 2 ^ 128 - 1)]%Z.

Definition outside (ranges : list (Z * Z)) (bits : Z) : Prop := Forall (fun r => ~ (r.1 <= bits <= r.2)%Z) ranges.

Definition public (ip : Addr) : Prop :=
  match ip with NoAddr => False | V4 bits => outside reserved4 bits | V6 bits zone => zone = "" /\ outside reserved6 bits end.

(** The bits of an address are as many as it has. *)
Definition sized (ip : Addr) : Prop :=
  match ip with NoAddr => True | V4 bits => (0 <= bits < 2 ^ 32)%Z | V6 bits _ => (0 <= bits < 2 ^ 128)%Z end.

Lemma shiftr_eqb n k q : (0 <= k)%Z -> (Z.shiftr n k =? q)%Z = ((q * 2 ^ k <=? n)%Z && (n <? (q + 1) * 2 ^ k)%Z).
Proof.
  intros Hk. rewrite Z.shiftr_div_pow2 by done. assert (0 < 2 ^ k)%Z as Hp by (apply Z.pow_pos_nonneg; lia).
  apply eq_true_iff_eq. rewrite andb_true_iff, Z.eqb_eq, Z.leb_le, Z.ltb_lt. split.
  - intros <-. pose proof (Z.mul_div_le n (2 ^ k) Hp). pose proof (Z.mul_succ_div_gt n (2 ^ k) Hp). lia.
  - intros [H1 H2]. symmetry. apply (Z.div_unique_pos n (2 ^ k) q (n - q * 2 ^ k)); lia.
Qed.

Lemma link_local_multicast bits :
  (0 <= bits < 2 ^ 128)%Z -> (Z.land (Z.shiftr bits 112) 0xff0f = 0xff02)%Z -> Z.shiftr bits 120 = 0xff%Z.
Proof.
  intros Hb H. apply (f_equal (fun n => Z.shiftr n 8)) in H. rewrite Z.shiftr_land, Z.shiftr_shiftr in H by lia.
  change (Z.shiftr 0xff0f 8) with (Z.ones 8) in H. change (Z.shiftr 0xff02 8) with 0xff%Z in H. change (112 + 8)%Z with 120%Z in H.
  rewrite Z.land_ones in H by lia. rewrite Z.mod_small in H; [done |]. rewrite Z.shiftr_div_pow2 by lia. split; [apply Z.div_pos; lia |].
  apply Z.div_lt_upper_bound; lia.
Qed.

Lemma routable_tests ip :
  routableAddress ip =
    IsValid ip && bool_decide (Zone ip = "") && IsGlobalUnicast ip &&
    negb (IsLoopback ip || IsPrivate ip || IsUnspecified ip) && negb (IsLinkLocalUnicast ip || IsLinkLocalMulticast ip || IsMulticast ip) &&
    negb (existsb (fun blocked => Contains blocked ip) nonPublicNetworks).
Proof.
  unfold routableAddress. destruct (decide (Zone ip = "")) as [Hz | Hz].
  - rewrite (bool_decide_eq_false_2 (Zone ip <> "")), (bool_decide_eq_true_2 (Zone ip = "")) by naive_solver.
    by destruct (IsValid ip), (IsGlobalUnicast ip), (_ || _ || IsUnspecified ip), (_ || _ || IsMulticast ip).
  - rewrite (bool_decide_eq_true_2 (Zone ip <> "")), (bool_decide_eq_false_2 (Zone ip = "")) by done. by destruct (IsValid ip).
Qed.

(** Turns shifts of the bits into the ranges they test. *)
Ltac ranges :=
  unfold IsLoopback, IsPrivate, IsLinkLocalUnicast, IsMulticast, nonPublicNetworks, quad, groups; cbn [existsb]; unfold Contains; cbn [fst snd];
  rewrite ?shiftr_eqb by lia;
  repeat match goal with |- context [Z.shiftr ?a ?b] => let c := eval vm_compute in (Z.shiftr a b) in change (Z.shiftr a b) with c end;
  repeat match goal with |- context [(2 ^ ?n)%Z] => let c := eval vm_compute in (2 ^ n)%Z in change (2 ^ n)%Z with c end.

Lemma routable4 bits : (0 <= bits < 2 ^ 32)%Z -> routableAddress (V4 bits) = true <-> outside reserved4 bits.
Proof.
  intros Hb. unfold outside, reserved4. rewrite !list.Forall_cons, list.Forall_nil. cbn [fst snd].
  rewrite routable_tests. unfold IsGlobalUnicast, IsUnspecified. cbn [IsValid Zone]. rewrite (bool_decide_eq_true_2 ("" = "")) by done.
  rewrite (bool_decide_eq_false_2 (V4 bits = V6 0 "")) by done.
  replace (bool_decide (V4 bits = V4 0)) with (bits =? 0)%Z by (destruct (Z.eqb_spec bits 0) as [-> |]; case_bool_decide; congruence).
  unfold IsLinkLocalMulticast. ranges. lia.
Qed.

Lemma routable6 bits zone : (0 <= bits < 2 ^ 128)%Z -> routableAddress (V6 bits zone) = true <-> zone = "" /\ outside reserved6 bits.
Proof.
  intros Hb. rewrite routable_tests. unfold IsGlobalUnicast, IsUnspecified. cbn [IsValid Zone]. destruct (decide (zone = "")) as [-> | Hz].
  2: { rewrite (bool_decide_eq_false_2 (zone = "")) by done. split; [done | by intros []]. }
  rewrite (bool_decide_eq_true_2 ("" = "")) by done. rewrite (bool_decide_eq_false_2 (V6 bits "" = V4 0)) by done.
  replace (bool_decide (V6 bits "" = V6 0 "")) with (bits =? 0)%Z by (destruct (Z.eqb_spec bits 0) as [-> |]; case_bool_decide; congruence).
  assert (IsLinkLocalMulticast (V6 bits "") = true -> IsMulticast (V6 bits "") = true) as Hm.
  { cbn. rewrite !Z.eqb_eq. by apply link_local_multicast. }
  unfold outside, reserved6. rewrite !list.Forall_cons, list.Forall_nil. cbn [fst snd]. revert Hm. generalize (IsLinkLocalMulticast (V6 bits "")) as llm.
  intros llm. ranges. change (bool_decide ("" = "")) with true. cbn [andb]. intros Hm. split.
  - intros H. split; [done |]. destruct llm; lia.
  - intros [_ H]. destruct llm; lia.
Qed.

(** An address is read from exactly when it is public. *)
Lemma routable_public ip : sized ip -> routableAddress ip = true <-> public ip.
Proof. destruct ip as [| bits | bits zone]; cbn [sized public]; [done | apply routable4 | apply routable6]. Qed.

(** ** What is dialled *)

Section dialled.
Context {Nt : Net} {Au : Authorities} {Qt : Quoting} {W : Type} {Sv : Server answer W}.

Lemma unmapped_ok host addresses ips :
  unmapped host addresses = Ok ips -> ips = map Unmap addresses /\ Forall (fun ip => routableAddress ip = true) ips.
Proof.
  revert ips. induction addresses as [| address rest IH]; intros ips; cbn; [intros [= <-]; by split |].
  destruct (routableAddress (Unmap address)) eqn:Hr; cbn [negb]; [| discriminate]. destruct (unmapped host rest) as [l | e]; [| discriminate].
  intros [= <-]. destruct (IH l eq_refl) as [-> H]. split; [done |]. by constructor.
Qed.

Lemma allPublic_ok host addresses ips :
  allPublic host addresses = Ok ips -> ips <> [] /\ ips = map Unmap addresses /\ Forall (fun ip => routableAddress ip = true) ips.
Proof.
  unfold allPublic. destruct (Z.eqb_spec (zlen addresses) 0) as [| Hz]; [discriminate |]. intros [-> H]%unmapped_ok. split; [| done].
  by destruct addresses.
Qed.

Lemma dialEach_exec network port failures ips w :
  exists tried, (exec (dialEach network port failures ips) w).1.2 = map (fun ip => Dial network ip port) tried /\ tried `prefix_of` ips /\
    ((exists conn, (exec (dialEach network port failures ips) w).2 = Ok conn) \/
     tried = ips /\ exists e, (exec (dialEach network port failures ips) w).2 = Err e).
Proof.
  revert failures w. induction ips as [| ip rest IH]; intros failures w; cbn.
  - exists []. split; [done | split; [done |]]. right. eauto.
  - destruct (serve (Dial network ip port) w) as [w1 [conn | e]]; cbn.
    + exists [ip]. split; [done | split; [by exists rest |]]. left. eauto.
    + destruct (IH (failures ++ [e]) w1) as (tried & Hc & [more ->] & H).
      destruct (exec (dialEach network port (failures ++ [e]) (tried ++ more)) w1) as [[w2 calls] r]. cbn in *.
      exists (ip :: tried). split; [by rewrite Hc | split; [by exists more |]]. destruct H as [H | [H1 H2]]; [by left | right].
      split; [by f_equal | done].
Qed.

(** The addresses a host has: the one it spells, or what was answered. *)
Definition found_at (host : string) (w : W) (lookups : list call) (addresses : list Addr) : Prop :=
  (exists address, ParseAddr host = Some address /\ lookups = [] /\ addresses = [address]) \/
  (ParseAddr host = None /\ lookups = [Lookup host] /\ (serve (Lookup host) w).2 = Ok addresses).

(** C8: Whatever names resolve to, a chart repository is only dialled at public addresses: this machine by name is not even looked up, one
    address of a host that is loopback, private, link-local, multicast or of another reserved range keeps all of them from being dialled, and
    otherwise just the host's addresses are dialled, in order, until one answers. *)
Theorem only_public_dialled network authority (w : W) :
  let calls := (exec (publicDial network authority) w).1.2 in
  let r := (exec (publicDial network authority) w).2 in
  (forall n ip port, Dial n ip port ∈ calls -> sized ip -> public ip) /\
  ((exists e, r = Err e /\ forall c, c ∈ calls -> exists host port, SplitHostPort authority = Ok (host, port) /\ localName host = false /\ c = Lookup host) \/
   (exists host port lookups addresses tried,
      SplitHostPort authority = Ok (host, port) /\ localName host = false /\ found_at host w lookups addresses /\
      addresses <> [] /\ Forall (fun ip => routableAddress ip = true) (map Unmap addresses) /\
      calls = lookups ++ map (fun ip => Dial network ip port) tried /\ tried `prefix_of` map Unmap addresses /\
      ((exists conn, r = Ok conn) \/ tried = map Unmap addresses /\ exists e, r = Err e))).
Proof.
  intros calls r. unfold calls, r, publicDial.
  assert (forall host port lookups addresses w1, localName host = false -> SplitHostPort authority = Ok (host, port) ->
    found_at host w lookups addresses -> forall ips, allPublic host addresses = Ok ips ->
    let run := exec (dialEach network port [] ips) w1 in
    (forall n ip port, Dial n ip port ∈ lookups ++ run.1.2 -> sized ip -> public ip) /\
    exists tried, addresses <> [] /\ Forall (fun ip => routableAddress ip = true) (map Unmap addresses) /\
      run.1.2 = map (fun ip => Dial network ip port) tried /\ tried `prefix_of` map Unmap addresses /\
      ((exists conn, run.2 = Ok conn) \/ tried = map Unmap addresses /\ exists e, run.2 = Err e)) as Hrun.
  { intros host port lookups addresses w1 Hl Hs Hf ips (Hne & -> & Hall)%allPublic_ok run. unfold run.
    destruct (dialEach_exec network port [] (map Unmap addresses) w1) as (tried & Hc & Hp & H). split.
    - intros n ip port' [Hin | Hin]%elem_of_app Hsz.
      + destruct Hf as [(address & _ & -> & _) | (_ & -> & _)]; [by apply elem_of_nil in Hin |]. by apply list_elem_of_singleton in Hin.
      + rewrite Hc in Hin. apply map_elem in Hin as (ip' & [= -> -> ->] & Hin). apply routable_public; [done |].
        destruct Hp as [more Hp]. rewrite list.Forall_forall in Hall. apply Hall. rewrite Hp. apply elem_of_app. by left.
    - exists tried. split; [by intros -> |]. done. }
  destruct (SplitHostPort authority) as [[host port] | e] eqn:Hs.
  2: { cbn. split; [by intros n ip port ?%elem_of_nil |]. left. exists ("repository address " +s+ Quote authority +s+ ": " +s+ e). split; [done |]. by intros c ?%elem_of_nil. }
  unfold bindr. rewrite exec_bind. unfold resolvePublic. destruct (localName host) eqn:Hl.
  { cbn. split; [by intros n ip p ?%elem_of_nil |]. left. eexists. split; [done |]. by intros c ?%elem_of_nil. }
  unfold literalAddress. destruct (ParseAddr host) as [address |] eqn:Ha; cbn [exec].
  - destruct (allPublic host [address]) as [ips | e] eqn:Hp.
    + specialize (Hrun host port [] [address] w Hl eq_refl (or_introl (ex_intro _ address (conj Ha (conj eq_refl eq_refl)))) ips Hp).
      cbn zeta in Hrun. destruct (exec (dialEach network port [] ips) w) as [[w2 more] r2]. cbn in *. destruct Hrun as [Hpub (tried & ? & ? & -> & ? & ?)].
      split; [done |]. right. exists host, port, [], [address], tried. split_and!; try done. left. by exists address.
    + cbn. split; [by intros n ip p ?%elem_of_nil |]. left. eexists. split; [done |]. by intros c ?%elem_of_nil.
  - cbn. destruct (serve (Lookup host) w) as [w1 [addresses | e]] eqn:Hserve; cbn.
    + destruct (allPublic host addresses) as [ips | e] eqn:Hp.
      * assert (found_at host w [Lookup host] addresses) as Hf by (right; by rewrite Hserve).
        specialize (Hrun host port [Lookup host] addresses w1 Hl eq_refl Hf ips Hp). cbn zeta in Hrun.
        destruct (exec (dialEach network port [] ips) w1) as [[w2 more] r2]. cbn in *. destruct Hrun as [Hpub (tried & ? & ? & -> & ? & ?)].
        split; [done |]. right. exists host, port, [Lookup host], addresses, tried. by split_and!.
      * cbn. split; [by intros n ip p Hin; apply list_elem_of_singleton in Hin |]. left. eexists. split; [done |].
        intros c ->%list_elem_of_singleton. by exists host, port.
    + split; [by intros n ip p Hin; apply list_elem_of_singleton in Hin |]. left. eexists. split; [done |].
      intros c ->%list_elem_of_singleton. by exists host, port.
Qed.
End dialled.

(** ** Versions *)

(** [strings.Replace(tag, "_", "+", 1)] *)
Fixpoint ociTagToSemver (tag : string) : string :=
  match tag with
  | EmptyString => EmptyString
  | String c rest =>
      if bool_decide (c = Ascii.ascii_of_N 95) then String (Ascii.ascii_of_N 43) rest else String c (ociTagToSemver rest)
  end.

Section versions.
Context {Sm : Semver} {Wd : Wording}.

Definition parsedTag (tag : string) : option Version := NewVersion (ociTagToSemver tag).

Definition ValidVersion (version : string) : bool := match parsedTag version with Some _ => true | None => false end.

(** [sortable] *)
Definition sortable (candidate : string) : option (string * Version) :=
  parsed ← parsedTag candidate; if bool_decide (Prerelease parsed <> "") then None else Some (candidate, parsed).

Definition newestFirst : string * Version -> string * Version -> Z := fun a b => VCompare b.2 a.2.

Definition sortVersions (raw : list string) : list string := map fst (sort_by newestFirst (omap sortable raw)).

Definition Newer (current latest : string) : bool :=
  if bool_decide (latest = "") || bool_decide (current = "") then false
  else match parsedTag current, parsedTag latest with
    | Some current, Some latest => (0 <? VCompare latest current)%Z
    | _, _ => false
    end.

(** [described]: the description of the last release of a version. *)
Definition described (releases : list (string * string)) (version : string) : string :=
  match List.find (fun r => bool_decide (r.1 = version)) (rev releases) with Some r => r.2 | None => "" end.

Definition chartOf (entry : string * list (string * string)) : option (Chart * list string) :=
  let '(name, releases) := entry in
  match sortVersions (map fst releases) with
  | [] => None
  | (newest :: _) as sorted => Some (MkChart name (described releases newest) newest, sorted)
  end.

(** [parseIndex] of the entries of the document, in the order the map is walked in. *)
Definition parseIndex (entries : list (string * list (string * string))) : listing :=
  let found := omap chartOf entries in
  MkListing (list_to_map (map (fun p => (ch_Name p.1, p.2)) found)) (Some (sort_by (cmp_on ch_Name str_compare) (map fst found))).

(** ** Search *)

Definition rank (chart : Chart) (needle : string) : Z :=
  if bool_decide (needle = "") then 1
  else if has_prefix (ToLower (ch_Name chart)) needle then 0
  else if str_contains (ToLower (ch_Name chart)) needle then 1
  else if str_contains (ToLower (ch_Description chart)) needle then 2
  else (-1).

Definition byRank (needle : string) : Chart -> Chart -> Z :=
  cmp_then (cmp_on (fun chart => rank chart needle) cmp_asc) (cmp_on ch_Name str_compare).

Definition matching (known : list Chart) (query : string) (limit : Z) : list Chart :=
  let needle := ToLower (TrimSpace query) in
  let hits := sort_by (byRank needle) (List.filter (fun chart => negb (rank chart needle <? 0)%Z) known) in
  if (0 <? limit)%Z && (limit <? zlen hits)%Z then ztake limit hits else hits.

(** The versions listed are the releases whose tag is a version, the newest first. *)
Lemma sortVersions_exact raw :
  (forall tag, tag ∈ sortVersions raw <-> tag ∈ raw /\ exists v, parsedTag tag = Some v /\ Prerelease v = "") /\
  (forall i j a b, i < j -> sortVersions raw !! i = Some a -> sortVersions raw !! j = Some b ->
     exists va vb, parsedTag a = Some va /\ parsedTag b = Some vb /\ (VCompare vb va <= 0)%Z) /\
  sortVersions raw ≡ₚ map fst (omap sortable raw).
Proof.
  assert (forall tag p, sortable tag = Some p <-> p.1 = tag /\ parsedTag tag = Some p.2 /\ Prerelease p.2 = "") as Hsort.
  { intros tag [t v]. unfold sortable. destruct (parsedTag tag) as [w |]; cbn; [| naive_solver]. case_bool_decide; naive_solver. }
  split; [| split].
  - intros tag. unfold sortVersions. rewrite map_elem. setoid_rewrite sort_by_elem. setoid_rewrite list_elem_of_omap. split.
    + intros ([t v] & -> & other & Hin & H). apply Hsort in H as (Heq & Hp & Hr). cbn in *. subst t. split; [done |]. eauto.
    + intros (Hin & v & Hp & Hr). exists (tag, v). split; [done |]. exists tag. split; [done |]. by apply Hsort.
  - assert (Comparator newestFirst) as Hcmp.
    { unfold newestFirst. constructor; intros; [apply cmp_flip | eapply cmp_trans; eassumption]. }
    intros i j a b Hij Ha Hb. unfold sortVersions in *. apply list_lookup_fmap_Some in Ha as ([a' va] & -> & Ha).
    apply list_lookup_fmap_Some in Hb as ([b' vb] & -> & Hb). exists va, vb.
    assert (forall k p, sort_by newestFirst (omap sortable raw) !! k = Some p -> parsedTag p.1 = Some p.2) as Hk.
    { intros k p H%list_elem_of_lookup_2. rewrite sort_by_elem in H. apply list_elem_of_omap in H as (tag & _ & H%Hsort). by destruct H as (-> & ? & _). }
    split; [by apply (Hk i (a', va)) | split; [by apply (Hk j (b', vb)) |]].
    exact (StronglySorted_lookup_lt _ _ _ _ _ _ (sort_by_sorted newestFirst (omap sortable raw)) Ha Hb Hij).
  - unfold sortVersions. by apply fmap_Permutation, sort_by_perm.
Qed.

(** A search finds just the charts whose name or description has the words,
    those that start with them first, and cuts them at the limit. *)
Lemma matching_exact known query limit :
  let needle := ToLower (TrimSpace query) in
  let all := sort_by (byRank needle) (List.filter (fun chart => negb (rank chart needle <? 0)%Z) known) in
  StronglySorted (cmp_le (byRank needle)) all /\
  (forall chart, chart ∈ all <-> chart ∈ known /\
     (needle = "" \/ str_contains (ToLower (ch_Name chart)) needle = true \/ has_prefix (ToLower (ch_Name chart)) needle = true \/
      str_contains (ToLower (ch_Description chart)) needle = true)) /\
  matching known query limit `prefix_of` all /\
  ((0 < limit)%Z -> (zlen (matching known query limit) <= limit)%Z) /\
  ((limit <= 0 \/ zlen all <= limit)%Z -> matching known query limit = all).
Proof.
  intros needle all. split; [apply sort_by_sorted; unfold byRank; apply _ |]. split; [| split; [| split]].
  - intros chart. unfold all. rewrite sort_by_elem, filter_elem. assert (negb (rank chart needle <? 0)%Z = true <->
      needle = "" \/ str_contains (ToLower (ch_Name chart)) needle = true \/ has_prefix (ToLower (ch_Name chart)) needle = true \/
      str_contains (ToLower (ch_Description chart)) needle = true) as ->; [| done].
    unfold rank. case_bool_decide; [naive_solver |]. destruct (has_prefix _ needle), (str_contains (ToLower (ch_Name chart)) needle),
      (str_contains (ToLower (ch_Description chart)) needle); cbn; naive_solver.
  - unfold matching. fold needle. fold all. destruct (_ && _); [| done]. unfold ztake. exists (drop (Z.to_nat limit) all). by rewrite take_drop.
  - intros Hl. unfold matching. fold needle. fold all. destruct (Z.ltb_spec 0 limit); [cbn [andb] | lia].
    destruct (Z.ltb_spec limit (zlen all)); [rewrite zlen_ztake by lia; lia | done].
  - intros Hl. unfold matching. fold needle. fold all. destruct (Z.ltb_spec 0 limit), (Z.ltb_spec limit (zlen all)); cbn [andb]; [lia | done..].
Qed.

End versions.

(** ** Requests *)

(** What the guarded client is asked for: a page with a bearer token, "" for none. *)
Inductive request := Do (url token : string).

Record response := MkResponse { rs_Status : Z; rs_Challenge : string; rs_Body : string }.

Definition reply (c : request) : Type := result string response.

Definition StatusOK : Z := 200.
Definition StatusUnauthorized : Z := 401.

Definition readBounded (body : string) (limit : Z) : result string string :=
  if (limit <? strlen body)%Z then Err ("response body is larger than " +s+ Itoa limit +s+ " bytes") else Ok body.

(** [strings.TrimPrefix], and [strings.Trim] of quotes or slashes *)
Definition trim_prefix (s prefix : string) : string := default s (strip_prefix prefix s).
Definition trim_both (c : string) (s : string) : string :=
  str_rev (trim_left (String.length s) [c] (str_rev (trim_left (String.length s) [c] s))).

Definition comma : Ascii.ascii := Ascii.ascii_of_N 44.
Definition doubleQuote : string := String (Ascii.ascii_of_N 34) EmptyString.

Definition parseChallenge (header : string) : gmap string string :=
  foldl (fun out part =>
    let '(name, value, found) := str_cut (TrimSpace part) "=" in
    if negb found then out else <[name := trim_both doubleQuote value]> out) ∅ (str_split comma (TrimSpace (trim_prefix header "Bearer"))).

Section requests.
Context {Nt : Net} {Au : Authorities} {Qt : Quoting} {Sm : Semver} {Dc : Documents}.

Definition splitOCI (raw : string) : result string (string * string) :=
  let '(host, path, found) := str_cut (trim_both "/" (trim_prefix raw "oci://")) "/" in
  if found then Ok (host, path) else Err ("cannot split oci url " +s+ Quote raw).

Definition hostOnly (authority : string) : string := match SplitHostPort authority with Ok (host, _) => host | Err _ => authority end.
Definition parentDomain (host : string) : string := default host (EffectiveTLDPlusOne host).

Definition sameRegistry (realm registry : string) : bool :=
  if EqualFold realm registry then true
  else
    let realmHost := hostOnly realm in
    let registryHost := hostOnly registry in
    if EqualFold realmHost registryHost then true
    else if ParseIP realmHost || ParseIP registryHost then false
    else EqualFold (parentDomain realmHost) (parentDomain registryHost).

Definition param (params : gmap string string) (name : string) : string := default "" (params !! name).

Definition tokenEndpoint (params : gmap string string) (registry : URL) : result string string :=
  let realm := param params "realm" in
  if bool_decide (realm = "") then Err ("no bearer realm in the challenge from " +s+ url_Host registry)
  else match url_Parse realm with
    | None => Err ("bearer realm " +s+ Quote realm)
    | Some parsed =>
        if bool_decide (url_Scheme parsed <> "https") && bool_decide (url_Scheme parsed <> "http") then
          Err ("bearer realm " +s+ Quote realm +s+ " is not an http url")
        else if negb (sameRegistry (url_Host parsed) (url_Host registry)) then
          Err ("bearer realm " +s+ Quote realm +s+ " does not belong to " +s+ url_Host registry)
        else Ok (WithQuery realm [("service", param params "service"); ("scope", param params "scope")])
    end.

Definition tokenOf (body : string) : result string string :=
  match readBounded body maxBodyBytes ≫= DecodeTokens with
  | Err e => Err ("parse token: " +s+ e)
  | Ok (token, access) =>
      if bool_decide (token <> "") then Ok token else if bool_decide (access <> "") then Ok access else Err "empty token response"
  end.

Definition token (challenge : string) (registry : URL) : prog reply (result string string) :=
  match tokenEndpoint (parseChallenge challenge) registry with
  | Err e => Return (Err e)
  | Ok endpoint =>
      resp <-? ask (Do endpoint "");;
      Return (if negb (rs_Status resp =? StatusOK)%Z then Err ("token request: status " +s+ Itoa (rs_Status resp)) else tokenOf (rs_Body resp))
  end.

Definition failedWith (endpoint : string) (resp : response) : string := endpoint +s+ ": status " +s+ Itoa (rs_Status resp).

(** [get]; each turn but the first has a token. *)
Fixpoint get (fuel : nat) (endpoint bearer : string) : prog reply (result string string) :=
  match fuel with
  | O => Return (Err "")
  | S fuel =>
      match url_Parse endpoint with
      | None => Return (Err endpoint)
      | Some registry =>
          resp <-? ask (Do endpoint bearer);;
          if (rs_Status resp =? StatusOK)%Z then Return (Ok (rs_Body resp))
          else if negb (rs_Status resp =? StatusUnauthorized)%Z then Return (Err (failedWith endpoint resp))
          else if bool_decide (bearer <> "") then Return (Err (failedWith endpoint resp))
          else fresh <-? token (rs_Challenge resp) registry;; get fuel endpoint fresh
      end
  end.

Definition indexEndpoint (repo : Repo) : string := trim_suffix (URL_ repo) "/" +s+ "/" +s+ indexFilename.

Definition resolveIndex (fuel : nat) (repo : Repo) : prog reply (result string listing) :=
  body <-? get fuel (indexEndpoint repo) "";;
  Return match readBounded body maxBodyBytes ≫= DecodeIndex with
  | Err e => Err ("parse " +s+ indexEndpoint repo +s+ ": " +s+ e)
  | Ok entries => Ok (parseIndex entries)
  end.

Definition tagsEndpoint (host path chart : string) : string := "https://" +s+ host +s+ "/v2/" +s+ path +s+ "/" +s+ PathEscape chart +s+ "/tags/list".

Definition tagged (chart : string) (tags : list string) : listing :=
  let sorted := sortVersions tags in
  MkListing (if (zlen sorted =? 0)%Z then ∅ else {[chart := sorted]}) None.

Definition resolveOCI (fuel : nat) (repo : Repo) (chart : string) : prog reply (result string listing) :=
  match splitOCI (URL_ repo) with
  | Err e => Return (Err e)
  | Ok (host, path) =>
      let endpoint := tagsEndpoint host path chart in
      body <-? get fuel endpoint "";;
      Return match readBounded body maxBodyBytes ≫= DecodeTags with
      | Err e => Err ("parse tags for " +s+ endpoint +s+ ": " +s+ e)
      | Ok tags => Ok (tagged chart tags)
      end
  end.

Definition resolve (fuel : nat) (repo : Repo) (chart : string) : prog reply (result string listing) :=
  match fetchableURL (URL_ repo) with
  | Err e => Return (Err e)
  | Ok parsed =>
      match checkHost (url_Hostname parsed) with
      | Some e => Return (Err e)
      | None =>
          if negb (eqb (bool_decide (url_Scheme parsed = "oci")) (OCI repo)) then
            Return (Err ("repository url " +s+ Quote (URL_ repo) +s+ " does not match its oci setting"))
          else if OCI repo then resolveOCI fuel repo chart else resolveIndex fuel repo
      end
  end.

(** ** What is asked for *)

Lemma tokenOf_nonempty body fresh : tokenOf body = Ok fresh -> fresh <> "".
Proof.
  unfold tokenOf. destruct (readBounded body maxBodyBytes ≫= DecodeTokens) as [[token access] | e]; [| discriminate].
  case_bool_decide; [by intros [= <-] |]. case_bool_decide; [by intros [= <-] | discriminate].
Qed.

(** A request for a token is for a realm of the registry's own. *)
Definition ofRegistry (registry : URL) (c : request) : Prop :=
  let '(Do url bearer) := c in
  bearer = "" /\ exists realm parsed params, url = WithQuery realm params /\ url_Parse realm = Some parsed /\
    url_Scheme parsed ∈ ["https"; "http"] /\ sameRegistry (url_Host parsed) (url_Host registry) = true.

Lemma tokenEndpoint_ok params registry endpoint : tokenEndpoint params registry = Ok endpoint -> ofRegistry registry (Do endpoint "").
Proof.
  unfold tokenEndpoint. case_bool_decide; [discriminate |]. destruct (url_Parse _) as [parsed |] eqn:Hp; [| discriminate].
  destruct (bool_decide (url_Scheme parsed <> "https") && _) eqn:Hs; [discriminate |].
  destruct (sameRegistry (url_Host parsed) (url_Host registry)) eqn:Hr; cbn [negb]; [| discriminate]. intros [= <-]. split; [done |].
  exists (param params "realm"), parsed, [("service", param params "service"); ("scope", param params "scope")]. split; [done | split; [done | split; [| done]]].
  apply andb_false_iff in Hs as [Hs | Hs]; apply bool_decide_eq_false, dec_stable in Hs; rewrite Hs; set_solver.
Qed.

Lemma token_asks challenge registry t (Q : list request -> result string string -> Prop) :
  (forall e, Q t (Err e)) ->
  (forall c r, ofRegistry registry c -> (forall fresh, r = Ok fresh -> fresh <> "") -> Q (t ++ [c]) r) ->
  wp (token challenge registry) t Q.
Proof.
  intros He Hok. unfold token. destruct (tokenEndpoint (parseChallenge challenge) registry) as [endpoint | e] eqn:Ht; [| apply He].
  apply tokenEndpoint_ok in Ht. cbn. intros [resp | e]; cbn; [| by apply Hok]. apply Hok; [done |]. intros fresh.
  destruct (negb _); [discriminate |]. apply tokenOf_nonempty.
Qed.

(** The pages a run of [get] asks for: the endpoint, and between two tries of
    it at most one page of its registry's realm. *)
Definition confined (endpoint : string) (calls : list request) : Prop :=
  calls = [] \/ exists registry, url_Parse endpoint = Some registry /\
    (calls = [Do endpoint ""] \/
     exists c, ofRegistry registry c /\ (calls = [Do endpoint ""; c] \/ exists fresh, fresh <> "" /\ calls = [Do endpoint ""; c; Do endpoint fresh])).

Lemma get_confined n endpoint : wp (get (S (S n)) endpoint "") [] (fun calls _ => confined endpoint calls).
Proof.
  cbn [get]. destruct (url_Parse endpoint) as [registry |] eqn:Hp; [| by left]. cbn. intros [resp | e]; cbn.
  2: { right. exists registry. split; [done | by left]. }
  destruct (rs_Status resp =? StatusOK)%Z; [right; exists registry; split; [done | by left] |].
  destruct (negb _); [right; exists registry; split; [done | by left] |].
  apply wp_bind, token_asks; [intros e; cbn; right; exists registry; split; [done | by left] |]. intros c r Hc Hr.
  destruct r as [fresh | e]; cbn.
  2: { right. exists registry. split; [done |]. right. exists c. split; [done | by left]. }
  rewrite ?Hp. cbn. specialize (Hr fresh eq_refl).
  assert (confined endpoint [Do endpoint ""; c; Do endpoint fresh]) as Hall.
  { right. exists registry. split; [done |]. right. exists c. split; [done | right]. by exists fresh. }
  intros [again | e]; cbn; [| done]. destruct (rs_Status again =? StatusOK)%Z; [done |]. destruct (negb _); [done |].
  by rewrite bool_decide_eq_true_2.
Qed.

(** Two turns are enough: the second one has a token and asks for no other. *)
Lemma get_ends {W} {Sv : Server reply W} n endpoint w : exec (get (S (S n)) endpoint "") w = exec (get 2 endpoint "") w.
Proof.
  assert (forall m bearer w, bearer <> "" -> exec (get (S m) endpoint bearer) w = exec (get 1 endpoint bearer) w) as Hlast.
  { intros m bearer w1 Hb. cbn [get]. destruct (url_Parse endpoint); [| done]. cbn. destruct (serve _ w1) as [w2 [resp | e]]; cbn; [| done].
    destruct (rs_Status resp =? StatusOK)%Z; [done |]. destruct (negb _); [done |]. by rewrite bool_decide_eq_true_2. }
  change (get 2 endpoint "") with (get (S 1) endpoint ""). remember (S n) as m. remember 1 as one_. cbn [get]. subst m one_.
  destruct (url_Parse endpoint) as [registry |]; [| done]. cbn [ask bindr bindp exec]. destruct (serve (Do endpoint "") w) as [w1 [resp | e]]; cbn -[get token]; [| done].
  destruct (rs_Status resp =? StatusOK)%Z; [done |]. destruct (negb _); [done |].
  rewrite !(bool_decide_eq_false_2 ("" <> "")) by naive_solver. unfold bindr. rewrite !exec_bind.
  pose proof (wp_exec (token (rs_Challenge resp) registry) [] (fun _ r => forall fresh, r = Ok fresh -> fresh <> "") w1) as Ht.
  destruct (exec (token (rs_Challenge resp) registry) w1) as [[w2 calls] r] eqn:He. specialize (Ht w2 calls r).
  destruct r as [fresh | e]; [| done]. rewrite Hlast; [done |]. apply Ht; [| done | done]. by apply token_asks.
Qed.

(** A repository's versions are asked for at one page of its own, which its
    URL must allow; a bearer token goes to that page and nowhere else, and is
    asked for at the registry's own realm; at most three requests are made. *)
Lemma requests_confined n repo chart :
  wp (resolve (S (S n)) repo chart) [] (fun calls _ =>
    calls = [] \/
    CheckRepoURL (URL_ repo) = None /\ exists endpoint, confined endpoint calls /\
      (endpoint = indexEndpoint repo /\ OCI repo = false \/
       OCI repo = true /\ exists host path, splitOCI (URL_ repo) = Ok (host, path) /\ endpoint = tagsEndpoint host path chart)).
Proof.
  unfold resolve, CheckRepoURL. destruct (fetchableURL (URL_ repo)) as [parsed | e]; [| by left]. destruct (checkHost (url_Hostname parsed)); [by left |].
  destruct (negb _); [by left |]. destruct (OCI repo) eqn:Ho.
  - unfold resolveOCI. destruct (splitOCI (URL_ repo)) as [[host path] | e]; [| by left]. unfold bindr. apply wp_bind.
    eapply wp_mono; [| apply (get_confined n)]. intros calls r Hc. cbn beta. destruct r; cbn; right; (split; [done |]);
      exists (tagsEndpoint host path chart); (split; [done |]); right; (split; [done |]); by exists host, path.
  - unfold resolveIndex, bindr. apply wp_bind. eapply wp_mono; [| apply (get_confined n)]. intros calls r Hc. cbn beta.
    destruct r; cbn; right; (split; [done |]); exists (indexEndpoint repo); (split; [done |]); by left.
Qed.

(** What an OCI registry answers with is about the one chart asked for. *)
Lemma tagged_only chart tags name : is_Some (versions (tagged chart tags) !! name) -> name = chart.
Proof. unfold tagged. destruct (_ =? _)%Z; cbn; [by intros [? ?] |]. intros [l Hl]. by apply lookup_singleton_Some in Hl as [-> _]. Qed.
End requests.

(** ** The cache *)

Record Cache := MkCache {
  lists : gmap key (list string);
  catalog : gmap Repo (list Chart);
  fetched : gmap key time;
  inflight : gmap key nat;
  failures : gmap key (string * time);
  (** Each flight ever begun: none while it runs, then its error. *)
  flights : list (option (option string));
  ttl : duration;
  failureTTL : duration;
  capacity : nat;
}.

Definition New (ttl : duration) : Cache := MkCache ∅ ∅ ∅ ∅ ∅ [] ttl negativeTTL ociCapacity.

Definition fetchUnit (repo : Repo) (chart : string) : key := if OCI repo then (repo, chart) else (repo, "").

Definition listed (c : Cache) (repo : Repo) (chart : string) : list string := default [] (lists c !! (repo, chart)).

Definition Latest (c : Cache) (repo : Repo) (chart : string) : string := default "" (head (listed c repo chart)).

(** What [begin] tells its caller; with a flight, whether he leads it. *)
Inductive begun := Held | Failed (err : string) | Joined (flight : nat) | Leads (flight : nat).

Definition fresh_ (now at_ : time) (d : duration) : bool := (tsub now at_ <? d)%Z.

Definition held (c : Cache) (unit : key) (now : time) : bool :=
  match fetched c !! unit with Some last => fresh_ now last (ttl c) | None => false end.

Definition failing_ (c : Cache) (unit : key) (now : time) : option string :=
  match failures c !! unit with Some (err, at_) => if fresh_ now at_ (failureTTL c) then Some err else None | None => None end.

(** [delete(c.failures, unit)] *)
Definition forgot (c : Cache) (unit : key) : Cache :=
  MkCache (lists c) (catalog c) (fetched c) (inflight c) (delete unit (failures c)) (flights c) (ttl c) (failureTTL c) (capacity c).

(** A new flight for a unit. *)
Definition led (c : Cache) (unit : key) : Cache :=
  MkCache (lists c) (catalog c) (fetched c) (<[unit := length (flights c)]> (inflight c)) (failures c) (flights c ++ [None]) (ttl c) (failureTTL c)
    (capacity c).

Definition begin (c : Cache) (unit : key) (now : time) : Cache * begun :=
  if held c unit now then (c, Held)
  else match failing_ c unit now with
    | Some err => (c, Failed err)
    | None =>
        let c := forgot c unit in
        match inflight c !! unit with
        | Some flight => (c, Joined flight)
        | None => (led c unit, Leads (length (flights c)))
        end
    end.

Definition keep (c : Cache) (repo : Repo) (found : listing) : Cache :=
  MkCache (list_to_map (map (fun p => ((repo, p.1), p.2)) (map_to_list (versions found))) ∪ lists c)
    (match charts found with Some known => <[repo := known]> (catalog c) | None => catalog c end)
    (fetched c) (inflight c) (failures c) (flights c) (ttl c) (failureTTL c) (capacity c).

(** The charts of OCI registries. *)
Definition oci (unit : key) : Prop := OCI unit.1 = true /\ unit.2 <> "".

#[local] Instance oci_dec unit : Decision (oci unit).
Proof. unfold oci. apply _. Defined.

Definition ociAccessTimes (c : Cache) : gmap key time :=
  filter (fun p => oci p.1) (snd <$> failures c) ∪ filter (fun p => oci p.1) (fetched c).

(** The loop of [oldestChartKey] over the entries in the order the map is walked in. *)
Definition oldestChartKey (seen : list (key * time)) : option key :=
  fst <$> foldl (fun oldest '(unit, at_) =>
    match oldest with
    | None => Some (unit, at_)
    | Some (_, oldestAt) => if negb (Before at_ oldestAt) then oldest else Some (unit, at_)
    end) None seen.

Definition dropped (c : Cache) (unit : key) : Cache :=
  MkCache (delete unit (lists c)) (catalog c) (delete unit (fetched c)) (inflight c) (delete unit (failures c)) (flights c) (ttl c) (failureTTL c) (capacity c).

Section cache.
(** The order in which a map is walked. *)
Context (walk : gmap key time -> list (key * time)).

Fixpoint evict (fuel : nat) (c : Cache) : Cache :=
  let seen := ociAccessTimes c in
  if size seen <=? capacity c then c
  else match fuel with
    | O => c
    | S fuel => match oldestChartKey (walk seen) with None => c | Some oldest => evict fuel (dropped c oldest) end
    end.

Definition evictOCI (c : Cache) : Cache := evict (size (ociAccessTimes c)) c.

Definition complete (c : Cache) (unit : key) (repo : Repo) (found : result string listing) (flight : nat) (now : time) : Cache :=
  let err := match found with Err e => Some e | Ok _ => None end in
  let inflight := delete unit (inflight c) in
  let flights := <[flight := Some err]> (flights c) in
  match found with
  | Err e =>
      evictOCI (MkCache (lists c) (catalog c) (fetched c) inflight (<[unit := (e, now)]> (failures c)) flights (ttl c) (failureTTL c) (capacity c))
  | Ok found =>
      evictOCI (keep (MkCache (lists c) (catalog c) (<[unit := now]> (fetched c)) inflight (delete unit (failures c)) flights (ttl c) (failureTTL c)
        (capacity c)) repo found)
  end.

Definition Seed (c : Cache) (repo : Repo) (found : listing) (at_ : time) : Cache :=
  keep (MkCache (lists c) (catalog c) (<[fetchUnit repo "" := at_]> (fetched c)) (inflight c) (failures c) (flights c) (ttl c) (failureTTL c) (capacity c))
    repo found.

(** Who leads a flight: for what, and whether he only warms the cache. *)
Record leader := MkLeader { ld_repo : Repo; ld_chart : string; ld_flight : nat; ld_warm : bool }.

Definition unitOf (l : leader) : key := fetchUnit (ld_repo l) (ld_chart l).

(** The cache, those who fetch and the flights others wait for. *)
Record state := MkState { cache_ : Cache; leaders : list leader; waiters : list nat }.

(** What a fetch may find: an OCI registry is asked for one chart, which
    [tagged_only] shows is all it gives. *)
Definition findable (repo : Repo) (chart : string) (found : result string listing) : Prop :=
  match found with Ok found => OCI repo = true -> forall name, is_Some (versions found !! name) -> name = chart | Err _ => True end.

(** [ensure] and [Warm] begin, a leader completes, a waiter is told or gives
    up, and the indexes of helm's own cache are seeded, which are not OCI's. *)
Inductive step : state -> state -> Prop :=
| step_ensure c c' ls ws repo chart now r :
    begin c (fetchUnit repo chart) now = (c', r) ->
    step (MkState c ls ws)
      (MkState c' (match r with Leads f => ls ++ [MkLeader repo chart f false] | _ => ls end) (match r with Joined f => ws ++ [f] | _ => ws end))
| step_warm c c' ls ws repo chart now r :
    URL_ repo <> "" -> chart <> "" -> (counted ld_warm ls < Z.of_nat warmConcurrent)%Z ->
    begin c (fetchUnit repo chart) now = (c', r) ->
    step (MkState c ls ws) (MkState c' (match r with Leads f => ls ++ [MkLeader repo chart f true] | _ => ls end) ws)
| step_complete c before l after ws found now :
    findable (ld_repo l) (ld_chart l) found ->
    step (MkState c (before ++ l :: after) ws) (MkState (complete c (unitOf l) (ld_repo l) found (ld_flight l) now) (before ++ after) ws)
| step_leave c ls before f after : step (MkState c ls (before ++ f :: after)) (MkState c ls (before ++ after))
| step_seed c ls ws repo found at_ : OCI repo = false -> step (MkState c ls ws) (MkState (Seed c repo found at_) ls ws).
End cache.

(** ** What the cache promises *)

(** A fetch begins exactly when nothing fetched is fresh, no failure is, and
    nobody is fetching. *)
Lemma begin_exact c unit now :
  ((begin c unit now).2 = Held <-> held c unit now = true) /\
  (forall err, (begin c unit now).2 = Failed err <-> held c unit now = false /\ failing_ c unit now = Some err) /\
  (forall f, (begin c unit now).2 = Joined f <-> held c unit now = false /\ failing_ c unit now = None /\ inflight c !! unit = Some f) /\
  ((exists f, (begin c unit now).2 = Leads f) <-> held c unit now = false /\ failing_ c unit now = None /\ inflight c !! unit = None).
Proof.
  unfold begin. destruct (held c unit now); [naive_solver |]. destruct (failing_ c unit now) as [err |]; [naive_solver |].
  cbn [forgot inflight]. destruct (inflight c !! unit); naive_solver.
Qed.

Lemma begin_cases c unit now c' r :
  begin c unit now = (c', r) ->
  c' = c /\ (r = Held \/ exists err, r = Failed err) \/
  c' = forgot c unit /\ (exists f, r = Joined f /\ inflight c !! unit = Some f) \/
  c' = led (forgot c unit) unit /\ r = Leads (length (flights c)) /\ inflight c !! unit = None.
Proof.
  unfold begin. destruct (held c unit now); [intros [= <- <-]; left; naive_solver |].
  destruct (failing_ c unit now) as [err |]; [intros [= <- <-]; left; naive_solver |]. cbn [forgot inflight flights].
  destruct (inflight c !! unit) as [f |]; intros [= <- <-]; right; [left | right]; naive_solver.
Qed.

Lemma accessed c unit : is_Some (ociAccessTimes c !! unit) <-> oci unit /\ (is_Some (failures c !! unit) \/ is_Some (fetched c !! unit)).
Proof.
  unfold ociAccessTimes. rewrite lookup_union_is_Some. unfold is_Some. setoid_rewrite map_lookup_filter_Some. setoid_rewrite lookup_fmap_Some. cbn.
  split; [naive_solver |]. intros [Ho [[[e at_] H] | [at_ H]]]; [left | right]; naive_solver.
Qed.

Lemma accessed_size c c' :
  (forall unit, oci unit -> is_Some (failures c !! unit) \/ is_Some (fetched c !! unit) -> is_Some (failures c' !! unit) \/ is_Some (fetched c' !! unit)) ->
  size (ociAccessTimes c) <= size (ociAccessTimes c').
Proof.
  intros H. rewrite <- !size_dom. apply subseteq_size. intros unit. rewrite !elem_of_dom, !accessed. intros [Ho Hor]. split; [done |]. by apply H.
Qed.

Lemma accessed_dropped c unit : ociAccessTimes (dropped c unit) = delete unit (ociAccessTimes c).
Proof. unfold ociAccessTimes. cbn. by rewrite fmap_delete, !map_filter_delete, delete_union. Qed.

(** What eviction leaves alone, and that lists of OCI charts are known of. *)
Definition covered (c : Cache) : Prop := forall unit, oci unit -> is_Some (lists c !! unit) -> is_Some (fetched c !! unit).
Definition same_flights (c c' : Cache) : Prop := inflight c' = inflight c /\ flights c' = flights c /\ capacity c' = capacity c.

(** The oldest key is one of the walked and none is older. *)
Lemma oldest_spec seen :
  match oldestChartKey seen with
  | None => seen = []
  | Some unit => exists at_, (unit, at_) ∈ seen /\ forall other when, (other, when) ∈ seen -> (at_ <= when)%Z
  end.
Proof.
  unfold oldestChartKey. set (f := fun (oldest : option (key * time)) '(unit, at_) => _).
  assert (forall init, match foldl f init seen with
    | None => init = None /\ seen = []
    | Some (unit, at_) => (init = Some (unit, at_) \/ (unit, at_) ∈ seen) /\
        (forall other when, init = Some (other, when) \/ (other, when) ∈ seen -> (at_ <= when)%Z)
    end) as H.
  { induction seen as [| [unit at_] seen IH]; intros init; cbn [foldl].
    - destruct init as [[unit at_] |]; [| done]. split; [by left |]. intros other when [[= -> ->] | H%elem_of_nil]; [lia | done].
    - specialize (IH (f init (unit, at_))). destruct (foldl f (f init (unit, at_)) seen) as [[best when] |].
      + destruct IH as [Hin Hmin]. destruct init as [[o oat] |]; cbn [f] in *.
        * unfold Before in *. destruct (Z.ltb_spec at_ oat) as [Hlt | Hge]; cbn [negb] in *.
          -- split; [right; apply elem_of_cons; naive_solver |]. intros other w [[= -> ->] | [[= -> ->] | Hx]%elem_of_cons]; [| by apply (Hmin unit); left | by apply (Hmin other); right].
             specialize (Hmin unit at_ (or_introl eq_refl)). lia.
          -- split; [destruct Hin; [by left | right; apply elem_of_cons; by right] |].
             intros other w [[= -> ->] | [[= -> ->] | Hx]%elem_of_cons]; [by apply (Hmin other); left | | by apply (Hmin other); right].
             specialize (Hmin o oat (or_introl eq_refl)). lia.
        * split; [right; apply elem_of_cons; naive_solver |]. intros other w [| [[= -> ->] | Hx]%elem_of_cons]; [done | by apply (Hmin unit); left | by apply (Hmin other); right].
      + destruct IH as [IH _]. destruct init as [[o oat] |]; cbn in IH; [by destruct (negb _) | done]. }
  specialize (H None). destruct (foldl f None seen) as [[unit at_] |]; cbn; [| by destruct H]. destruct H as [[| Hin] Hmin]; [done |]. exists at_. split; [done |].
  intros other when Ho. apply (Hmin other). by right.
Qed.

Section promises.
Context (walk : gmap key time -> list (key * time)).
Hypothesis walk_perm : forall m, walk m ≡ₚ map_to_list m.

(** The loop of [evictOCI] ends, with no more than the capacity left. *)
Lemma evict_ends fuel c :
  size (ociAccessTimes c) <= capacity c + fuel ->
  size (ociAccessTimes (evict walk fuel c)) <= capacity c /\ same_flights c (evict walk fuel c) /\ (covered c -> covered (evict walk fuel c)).
Proof using walk_perm.
  revert c. induction fuel as [| fuel IH]; intros c Hs; cbn [evict]; destruct (Nat.leb_spec (size (ociAccessTimes c)) (capacity c)) as [Hle | Hgt].
  1, 3: done. { lia. }
  pose proof (oldest_spec (walk (ociAccessTimes c))) as Ho. destruct (oldestChartKey (walk (ociAccessTimes c))) as [unit |].
  - destruct Ho as (at_ & Hin & _). rewrite (walk_perm (ociAccessTimes c)) in Hin. apply elem_of_map_to_list in Hin.
    destruct (IH (dropped c unit)) as (H1 & (H2 & H3 & H4) & H5).
    { rewrite accessed_dropped, map_size_delete_Some by done. cbn. lia. }
    split; [exact H1 |]. split; [by split_and! |]. intros Hc. apply H5. intros other Hoci [l Hl]. cbn in *.
    destruct (decide (unit = other)) as [-> | Hne]; [by rewrite lookup_delete_eq in Hl |]. rewrite lookup_delete_ne in Hl by done. rewrite lookup_delete_ne by done. apply Hc; [done | by exists l].
  - exfalso. assert (size (ociAccessTimes c) = 0) as H0; [| lia]. rewrite <- length_map_to_list, <- (walk_perm (ociAccessTimes c)), Ho. done.
Qed.

Lemma evictOCI_spec c :
  size (ociAccessTimes (evictOCI walk c)) <= capacity c /\ same_flights c (evictOCI walk c) /\ (covered c -> covered (evictOCI walk c)).
Proof using walk_perm. apply evict_ends. lia. Qed.

Lemma covered_keep c repo found :
  covered c -> (OCI repo = true -> forall name, is_Some (versions found !! name) -> name <> "" -> is_Some (fetched c !! (repo, name))) ->
  covered (keep c repo found).
Proof.
  intros Hc Hf unit Hoci [l Hl]. cbn in *. apply lookup_union_Some_raw in Hl as [Hl | [_ Hl]]; [| apply Hc; [done | by exists l]].
  apply elem_of_list_to_map_2 in Hl. apply map_elem in Hl as ([name l'] & [= -> ->] & Hin). apply elem_of_map_to_list in Hin.
  destruct Hoci as [Ho Hn]. cbn in *. apply Hf; [done | by exists l' | done].
Qed.

Record wf (s : state) : Prop := {
  wf_led : forall unit f, inflight (cache_ s) !! unit = Some f <-> exists l, l ∈ leaders s /\ unitOf l = unit /\ ld_flight l = f;
  wf_open : forall l, l ∈ leaders s -> flights (cache_ s) !! ld_flight l = Some None;
  wf_once : NoDup (map ld_flight (leaders s));
  wf_waiting : forall f, f ∈ waiters s -> (exists e, flights (cache_ s) !! f = Some (Some e)) \/ exists l, l ∈ leaders s /\ ld_flight l = f;
  wf_bounded : size (ociAccessTimes (cache_ s)) <= capacity (cache_ s);
  wf_covered : covered (cache_ s);
  wf_warm : (counted ld_warm (leaders s) <= Z.of_nat warmConcurrent)%Z;
  wf_capacity : capacity (cache_ s) = ociCapacity;
}.

Lemma wf_new d : wf (MkState (New d) [] []).
Proof.
  split; cbn; try done.
  - intros unit f. rewrite lookup_empty. split; [done | by intros (l & ?%elem_of_nil & _)].
  - by intros l ?%elem_of_nil.
  - constructor.
  - by intros f ?%elem_of_nil.
  - unfold ociAccessTimes. cbn. rewrite fmap_empty, !map_filter_empty, map_union_empty, map_size_empty. lia.
  - intros unit _ [l Hl]. cbn in Hl. by rewrite lookup_empty in Hl.
Qed.

Lemma forgot_accessed c unit : size (ociAccessTimes (forgot c unit)) <= size (ociAccessTimes c).
Proof.
  apply accessed_size. cbn. intros other _ [[x H] | H]; [left | by right]. apply lookup_delete_Some in H as [_ H]. by exists x.
Qed.

(** Forgetting a failure leaves all but it. *)
Lemma wf_forgot c ls ws unit : wf (MkState c ls ws) -> wf (MkState (forgot c unit) ls ws).
Proof.
  intros [H1 H2 H3 H4 H5 H6 H7 H8]. split; try done. cbn in *. pose proof (forgot_accessed c unit). lia.
Qed.

(** A new leader. *)
Lemma wf_leads c ls ws unit l :
  wf (MkState c ls ws) -> inflight c !! unit = None -> unitOf l = unit -> ld_flight l = length (flights c) ->
  (counted ld_warm (ls ++ [l]) <= Z.of_nat warmConcurrent)%Z -> wf (MkState (led c unit) (ls ++ [l]) ws).
Proof.
  intros [H1 H2 H3 H4 H5 H6 H7 H8] Hn Hu Hf Hw. cbn in *. split; cbn; try done.
  - intros other f. rewrite lookup_insert_Some. rewrite H1. setoid_rewrite elem_of_app. setoid_rewrite list_elem_of_singleton. split.
    + intros [[<- <-] | [Hne (k & Hk & ? & ?)]]; [exists l | exists k]; auto.
    + intros (k & [Hk | ->] & Hku & Hkf); [right | left; by rewrite <- Hku, <- Hkf, Hu, Hf]. split; [| by exists k].
      intros ->. assert (inflight c !! other = Some f) as Hx by (apply H1; by exists k). congruence.
  - intros k [Hk | ->%list_elem_of_singleton]%elem_of_app; [| by rewrite Hf, lookup_app_r, Nat.sub_diag by lia].
    rewrite lookup_app_l; [by apply H2 |]. eapply lookup_lt_Some. by apply H2.
  - rewrite map_app. apply list.NoDup_app. split; [done |]. split; [| apply list.NoDup_singleton]. intros f (k & -> & Hk)%map_elem Hx%list_elem_of_singleton.
    apply H2 in Hk. rewrite Hx, Hf in Hk. apply lookup_lt_Some in Hk. lia.
  - intros f Hw'. destruct (H4 f Hw') as [[e He] | (k & Hk & <-)]; [left | right].
    + exists e. rewrite lookup_app_l; [done |]. by eapply lookup_lt_Some.
    + exists k. split; [apply elem_of_app; by left | done].
Qed.

(** A caller joins a flight that somebody leads. *)
Lemma wf_joins c ls ws unit f : wf (MkState c ls ws) -> inflight c !! unit = Some f -> wf (MkState c ls (ws ++ [f])).
Proof.
  intros [H1 H2 H3 H4 H5 H6 H7 H8] Hf. split; try done. cbn in *. intros g [Hg | ->%list_elem_of_singleton]%elem_of_app; [by apply H4 |].
  right. apply H1 in Hf as (l & ? & _ & ?). by exists l.
Qed.

(** What is left of the invariant when a leader goes, whatever is kept. *)
Lemma wf_completes c c' before l after ws e :
  wf (MkState c (before ++ l :: after) ws) ->
  inflight c' = delete (unitOf l) (inflight c) -> flights c' = <[ld_flight l := Some e]> (flights c) -> capacity c' = capacity c ->
  size (ociAccessTimes c') <= capacity c' -> covered c' -> wf (MkState c' (before ++ after) ws).
Proof.
  intros [H1 H2 H3 H4 H5 H6 H7 H8] Hi Hf Hc Hs Hcov. cbn in *. assert (l ∈ before ++ l :: after) as Hl by (apply elem_of_app; right; apply list_elem_of_here).
  assert (forall k, k ∈ before ++ after -> k ∈ before ++ l :: after) as Hsub.
  { intros k [?|?]%elem_of_app; apply elem_of_app; [by left | right; by apply list_elem_of_further]. }
  assert (forall k, k ∈ before ++ after -> ld_flight k <> ld_flight l) as Hne.
  { intros k Hk Heq. rewrite map_app in H3. cbn in H3. apply list.NoDup_app in H3 as (Hb & Hd & [Hna _]%list.NoDup_cons).
    apply elem_of_app in Hk as [Hk | Hk].
    - apply (Hd (ld_flight k)); [apply map_elem; by exists k |]. rewrite Heq. apply list_elem_of_here.
    - apply Hna. rewrite <- Heq. apply map_elem. by exists k. }
  assert (forall k, k ∈ before ++ l :: after -> k = l \/ k ∈ before ++ after) as Hsplit.
  { intros k [?|[->|?]%elem_of_cons]%elem_of_app; [right; apply elem_of_app; by left | by left | right; apply elem_of_app; by right]. }
  split; cbn; try done.
  - intros unit f. rewrite Hi, lookup_delete_Some, H1. split.
    + intros [Hu (k & [-> | Hk]%Hsplit & Hku & Hkf)]; [done |]. by exists k.
    + intros (k & Hk & Hku & Hkf). split; [| exists k; by auto]. intros <-.
      assert (inflight c !! unitOf k = Some (ld_flight k)) as Ha by (apply H1; exists k; by auto).
      assert (inflight c !! unitOf k = Some (ld_flight l)) as Hb by (apply H1; exists l; by auto). apply (Hne k Hk). congruence.
  - intros k Hk. rewrite Hf, list_lookup_insert_ne by (intros Heq; by apply (Hne k Hk)). apply H2. by apply Hsub.
  - apply (NoDup_sub _ (map ld_flight (before ++ l :: after))); [| done]. apply sublist_submseteq, fmap_sublist. apply sublist_app; [done | by constructor].
  - intros f Hw. destruct (H4 f Hw) as [[e' He] | (k & [-> | Hk]%Hsplit & <-)].
    + left. destruct (decide (ld_flight l = f)) as [<- | Hnef]; [by rewrite (H2 l Hl) in He |]. exists e'. by rewrite Hf, list_lookup_insert_ne.
    + left. exists e. rewrite Hf. apply list_lookup_insert_eq. eapply lookup_lt_Some. by apply H2.
    + right. by exists k.
  - rewrite counted_app in *. rewrite counted_cons in H7. unfold one in H7. destruct (ld_warm l); lia.
  - by rewrite Hc.
Qed.

Lemma complete_spec c unit repo found flight now :
  let c' := complete walk c unit repo found flight now in
  inflight c' = delete unit (inflight c) /\ flights c' = <[flight := Some (match found with Err e => Some e | Ok _ => None end)]> (flights c) /\
  capacity c' = capacity c /\ size (ociAccessTimes c') <= capacity c' /\
  (covered c -> (forall l, found = Ok l -> OCI repo = true -> forall name, is_Some (versions l !! name) -> (repo, name) = unit) -> covered c').
Proof using walk_perm.
  unfold complete. destruct found as [found | e].
  - match goal with |- context [evictOCI walk ?d] => destruct (evictOCI_spec d) as (H1 & (H2 & H3 & H4) & H5); set (before := d) in * end.
    cbn. rewrite H2, H3, H4. split; [done | split; [done | split; [done | split; [exact H1 |]]]].
    intros Hc Hf. apply H5. apply covered_keep.
    + intros other Hoci Hl. cbn in *. destruct (decide (unit = other)) as [-> | Hne]; [rewrite lookup_insert_eq; by eexists |].
      rewrite lookup_insert_ne by done. by apply Hc.
    + intros Ho name Hn _. cbn. rewrite (Hf found eq_refl Ho name Hn), lookup_insert_eq. by eexists.
  - match goal with |- context [evictOCI walk ?d] => destruct (evictOCI_spec d) as (H1 & (H2 & H3 & H4) & H5); set (before := d) in * end.
    cbn. rewrite H2, H3, H4. split; [done | split; [done | split; [done | split; [exact H1 |]]]]. intros Hc _. by apply H5.
Qed.

Lemma wf_begin c c' ls ws repo chart now r warm :
  wf (MkState c ls ws) -> begin c (fetchUnit repo chart) now = (c', r) -> (counted ld_warm (ls ++ [MkLeader repo chart 0 warm]) <= Z.of_nat warmConcurrent)%Z ->
  wf (MkState c' (match r with Leads f => ls ++ [MkLeader repo chart f warm] | _ => ls end) ws) /\
  (forall f, r = Joined f -> inflight c' !! fetchUnit repo chart = Some f).
Proof.
  intros Hwf Hb Hw. apply begin_cases in Hb as [[-> [-> | [err ->]]] | [(-> & f & -> & Hf) | (-> & -> & Hn)]].
  - by split.
  - by split.
  - split; [by apply wf_forgot |]. by intros g [= <-].
  - split; [| done]. apply wf_leads; [by apply wf_forgot | done | done | done |]. revert Hw. by rewrite !counted_snoc.
Qed.

Lemma wf_step s s' : wf s -> step walk s s' -> wf s'.
Proof using walk_perm.
  intros Hwf Hstep. destruct Hstep as [c c' ls ws repo chart now r Hb | c c' ls ws repo chart now r _ _ Hslots Hb | c before l after ws found now Hf | c ls before f after | c ls ws repo found at_ Ho].
  - destruct (wf_begin c c' ls ws repo chart now r false Hwf Hb) as [H1 H2].
    { rewrite counted_snoc. cbn. pose proof (wf_warm _ Hwf) as H. cbn in H. lia. }
    destruct r as [| err | f | f]; try done. by eapply wf_joins, H2.
  - destruct (wf_begin c c' ls ws repo chart now r true Hwf Hb) as [H1 _]; [| done]. rewrite counted_snoc. cbn. lia.
  - destruct (complete_spec c (unitOf l) (ld_repo l) found (ld_flight l) now) as (H1 & H2 & H3 & H4 & H5).
    eapply wf_completes; [exact Hwf | exact H1 | exact H2 | exact H3 | exact H4 |]. apply H5; [apply (wf_covered _ Hwf) |].
    intros lst -> Ho name Hn. unfold unitOf, fetchUnit. rewrite Ho. f_equal. by apply Hf.
  - destruct Hwf as [H1 H2 H3 H4 H5 H6 H7 H8]. split; try done. cbn in *. intros g Hg. apply H4. apply elem_of_app in Hg as [?|?]; apply elem_of_app; [by left | right; by apply list_elem_of_further].
  - destruct Hwf as [H1 H2 H3 H4 H5 H6 H7 H8]. cbn in *. assert (forall unit, oci unit -> fetchUnit repo "" <> unit) as Hnot.
    { intros unit [Hu _] <-. unfold fetchUnit in Hu. rewrite Ho in Hu. cbn in Hu. congruence. }
    split; cbn; try done.
    + transitivity (size (ociAccessTimes c)); [| done]. apply accessed_size. cbn. intros unit Hu [H | H]; [by left | right].
      rewrite lookup_insert_ne in H; [done | by apply Hnot].
    + apply covered_keep; [| congruence]. intros unit Hu Hl. cbn in *. rewrite lookup_insert_ne; [by apply H6 | by apply Hnot].
Qed.

Lemma leads_alone s : wf s -> NoDup (map unitOf (leaders s)).
Proof.
  intros [H1 _ H3 _ _ _ _ _]. apply list.NoDup_alt. intros i j u Hi Hj. apply list_lookup_fmap_Some in Hi as (k & -> & Hi).
  apply list_lookup_fmap_Some in Hj as (k' & Hu & Hj). assert (ld_flight k = ld_flight k') as Hf.
  { assert (inflight (cache_ s) !! unitOf k = Some (ld_flight k)) as Ha by (apply H1; exists k; split; [by eapply list_elem_of_lookup_2 | done]).
    assert (inflight (cache_ s) !! unitOf k = Some (ld_flight k')) as Hb by (apply H1; exists k'; split; [by eapply list_elem_of_lookup_2 | done]). congruence. }
  rewrite list.NoDup_alt in H3. apply (H3 i j (ld_flight k)); change (map ld_flight (leaders s)) with (ld_flight <$> leaders s); apply list_lookup_fmap_Some.
  - by exists k.
  - by exists k'.
Qed.

(** C34: However requests for charts, warming, completions and readings of Helm's own index interleave: a repository's charts are fetched by at
    most one at a time, whoever waits does so on a flight that has ended or that somebody still leads, at most eight warm the cache, and of
    OCI registries no more charts than the capacity are kept, looked at or listed. *)
Theorem charts_fetched_once (d : duration) s :
  rtc (step walk) (MkState (New d) [] []) s ->
  NoDup (map unitOf (leaders s)) /\
  (forall f, f ∈ waiters s -> (exists e, flights (cache_ s) !! f = Some (Some e)) \/ exists l, l ∈ leaders s /\ ld_flight l = f) /\
  (counted ld_warm (leaders s) <= Z.of_nat warmConcurrent)%Z /\
  size (ociAccessTimes (cache_ s)) <= ociCapacity /\
  size (filter (fun p => oci p.1) (lists (cache_ s))) <= ociCapacity.
Proof using walk_perm.
  intros Hrun. assert (wf s) as Hwf by (eapply (rtc_invariant (step walk) wf); [intros; by eapply wf_step | apply wf_new | exact Hrun]).
  pose proof (leads_alone s Hwf) as Halone. destruct Hwf as [H1 H2 H3 H4 H5 H6 H7 H8]. split; [done | split; [done | split; [done |]]]. rewrite H8 in H5. split; [done |].
  etransitivity; [| exact H5]. rewrite <- !size_dom. apply subseteq_size. intros unit. rewrite !elem_of_dom, accessed.
  intros [l Hl]. apply map_lookup_filter_Some in Hl as [Hl Ho]. split; [done |]. right. apply H6; [done | by exists l].
Qed.
End promises.

(** Two ask for a repository, one fetches, both are answered. *)
Definition repository : Repo := MkRepo "https://charts.example" false.
Definition ask_twice : state :=
  MkState (begin (begin (New DefaultTTL) (repository, "") 1).1 (repository, "") 2).1 [MkLeader repository "app" 0 false] [0].

Lemma asked_twice : rtc (step map_to_list) (MkState (New DefaultTTL) [] []) ask_twice.
Proof.
  set (c1 := (begin (New DefaultTTL) (repository, "") 1).1).
  eapply rtc_l; [apply (step_ensure map_to_list (New DefaultTTL) c1 [] [] repository "app" 1 (Leads 0)); by vm_compute |].
  eapply rtc_l; [apply (step_ensure map_to_list c1 (begin c1 (repository, "") 2).1 [MkLeader repository "app" 0 false] [] repository "app" 2 (Joined 0)); by vm_compute |].
  apply rtc_refl.
Qed.

Lemma charts_fetched_once_witness :
  rtc (step map_to_list) (MkState (New DefaultTTL) [] []) ask_twice /\ NoDup (map unitOf (leaders ask_twice)).
Proof.
  split; [exact asked_twice |]. exact (proj1 (charts_fetched_once map_to_list (fun m => Permutation_refl (map_to_list m)) DefaultTTL ask_twice asked_twice)).
Defined.

(** ** What is kept too long *)

Definition index (names : list string) : listing := MkListing (list_to_map (map (fun name => (name, ["1.0.0"])) names)) (Some []).

(** A chart that its repository no longer has keeps its versions: a fetch adds
    lists and takes none away. *)
Example removed_chart_kept :
  let c1 := complete map_to_list (New DefaultTTL) (repository, "") repository (Ok (index ["app"; "old"])) 0 1 in
  let c2 := complete map_to_list c1 (repository, "") repository (Ok (index ["app"])) 1 (1 + 2 * DefaultTTL)%Z in
  Latest c2 repository "old" = "1.0.0" /\ held c2 (repository, "") (2 + 2 * DefaultTTL)%Z = true.
Proof. by vm_compute. Qed.

(** The request of whoever fetches is cancelled: whoever asks within the next
    thirty seconds is told that he cancelled. *)
Example cancelled_for_all :
  let c1 := (begin (New DefaultTTL) (repository, "") 1).1 in
  let c2 := complete map_to_list c1 (repository, "") repository (Err "context canceled") 0 2 in
  (begin c2 (repository, "") (2 + 29 * Second)%Z).2 = Failed "context canceled".
Proof. by vm_compute. Qed.
End Charts.
