(* ===== verification/Applied.v ===== *)
(** The shapes the GitOps views give, of internal/api/types.go, and the helpers
    internal/flux, internal/argocd and internal/gitops share. *)

From S2P Require Import Prelude Api Text Unstr Faults.

Module Applied.

Definition ControllerArgo : string := "argocd".
Definition ControllerFlux : string := "flux".
Definition SyncModeAuto : string := "auto".
Definition SyncModeManual : string := "manual".
Definition SyncModeSuspended : string := "suspended".
Definition SeverityHigh : string := "high".
Definition SeverityMedium : string := "medium".
Definition SeverityLow : string := "low".

Record GitopsSource := MkGitopsSource {
  gs_Repo : string;
  gs_Path : string;
  gs_Target : string;
  gs_Destination : string;
  gs_Project : string;
  gs_SyncMode : string;
  gs_Policy : string;
}.

Record GitopsState := MkGitopsState {
  st_Sync : string;
  st_Health : string;
  st_Revision : string;
  st_CreatedAt : string;
  st_SyncedAt : string;
  st_Message : string;
}.

Record GitopsIssue := MkGitopsIssue { is_Severity : string; is_Title : string; is_Detail : string; is_Subject : string }.

Record FieldDrift := MkFieldDrift { fd_Path : string; fd_Declared : string; fd_Live : string }.

(** An event of a resource is left to its text. *)
Record GitopsResource := MkGitopsResource {
  gr_Group : string;
  gr_Version : string;
  gr_Resource : string;
  gr_Kind : string;
  gr_Name : string;
  gr_Namespace : string;
  gr_Sync : string;
  gr_Health : string;
  gr_Message : string;
  gr_Terminating : bool;
  gr_Finalizers : list string;
  gr_Drift : list FieldDrift;
  gr_DriftOwners : bool;
  gr_DriftNote : string;
}.

Record GitopsDeployment := MkGitopsDeployment {
  dp_ID : Z;
  dp_Revision : string;
  dp_Source : string;
  dp_StartedAt : string;
  dp_DeployedAt : string;
  dp_InitiatedBy : string;
  dp_Automated : bool;
}.

Record GitopsOperation := MkGitopsOperation {
  op_Phase : string;
  op_Running : bool;
  op_Message : string;
  op_Cause : string;
  op_Revision : string;
  op_StartedAt : string;
  op_FinishedAt : string;
  op_InitiatedBy : string;
}.

Record GitopsApp := MkGitopsApp {
  ga_Ref : Api.ObjectRef;
  ga_Controller : string;
  ga_Terminating : bool;
  ga_Kind : string;
  ga_Name : string;
  ga_Namespace : string;
  ga_Source : GitopsSource;
  ga_State : GitopsState;
  ga_Issues : list GitopsIssue;
  ga_Resources : list GitopsResource;
  ga_History : list GitopsDeployment;
  ga_Operation : option GitopsOperation;
  ga_Error : string;
}.

#[export] Instance FieldDrift_eq_dec : EqDecision FieldDrift.
Proof. solve_decision. Defined.
#[export] Instance GitopsResource_eq_dec : EqDecision GitopsResource.
Proof. solve_decision. Defined.
#[export] Instance GitopsIssue_eq_dec : EqDecision GitopsIssue.
Proof. solve_decision. Defined.

(** [api.ObjectRef{}] *)
Definition noRef : Api.ObjectRef := Api.MkObjectRef "" "" "" "" "".

Definition bare (group version kind name namespace sync health message : string) : GitopsResource :=
  MkGitopsResource group version "" kind name namespace sync health message false [] [] false "".

(** The entries of a list that are maps. *)
Definition entriesOf (l : list any) : list amap := omap (fun raw => asMap (Some raw)) l.

(** [heldByFinalizers] and [heldBy] *)
Definition heldBy (finalizers : list string) : string :=
  if (zlen finalizers =? 0)%Z then "no finalizers left" else "held by " +s+ Text.Join ", " finalizers.

(** [withCause] and [detailOf] *)
Definition withCause (message : string) : string :=
  let cause := Faults.Cause message in
  if bool_decide (cause = "") then message else cause +s+ " — " +s+ message.

(** The first of some values that is not empty. *)
Fixpoint firstSet (values : list string) : string :=
  match values with [] => "" | value :: values => if bool_decide (value <> "") then value else firstSet values end.

Lemma firstSet_spec values :
  firstSet values = "" /\ (forall value, value ∈ values -> value = "") \/ firstSet values <> "" /\ firstSet values ∈ values.
Proof.
  induction values as [| value values IH]; [left; split; [done | by intros value ?%elem_of_nil] |]. cbn. case_bool_decide as Hv.
  - right. split; [done | apply list_elem_of_here].
  - assert (value = "") as -> by by destruct (decide (value = "")). destruct IH as [[H Hall] | [H Hin]]; [left | right].
    + split; [done |]. intros other [-> | Ho]%elem_of_cons; [done | by apply Hall].
    + split; [done | by apply list_elem_of_further].
Qed.
End Applied.
