(* ===== verification/FluxViews.v ===== *)
(** internal/flux, what is read: dashboard.go, overview.go and detail.go.  What
    the API server answers is an argument of the definitions. *)

From S2P Require Import Prelude Api Text Unstr Access Config Faults Issues Kube Inspect Checks Charts Applied.

Module FluxViews.
Import Api Text Unstr Applied.

Definition helmGroup : string := "helm.toolkit.fluxcd.io".
Definition kustomizeGroup : string := "kustomize.toolkit.fluxcd.io".
Definition sourceGroup : string := "source.toolkit.fluxcd.io".
Definition kustomizations : string := "kustomizations".
Definition helmReleases : string := "helmreleases".
Definition readyTrue : string := "True".
Definition readyFalse : string := "False".

Definition groupOrder : list string := ["Kustomizations"; "Helm Releases"; "Sources"; "Image Automation"; "Notifications"].
Definition sourceResources : list string := ["gitrepositories"; "helmrepositories"; "ocirepositories"; "helmcharts"; "buckets"].
Definition imageResources : list string := ["imagerepositories"; "imagepolicies"; "imageupdateautomations"].
Definition notificationResources : list string := ["alerts"; "providers"; "receivers"].

Definition IsSource (desc : ResourceDescriptor) : bool :=
  if bool_decide (rd_Group desc <> sourceGroup) then false else contains sourceResources (rd_Resource desc).

Definition Applies (desc : ResourceDescriptor) : bool :=
  if bool_decide (rd_Group desc = kustomizeGroup) && bool_decide (rd_Resource desc = kustomizations) then true
  else bool_decide (rd_Group desc = helmGroup) && bool_decide (rd_Resource desc = helmReleases).

Definition categoryOf (desc : ResourceDescriptor) : string :=
  if bool_decide (rd_Group desc = kustomizeGroup) then
    if bool_decide (rd_Resource desc = "kustomizations") then "Kustomizations" else ""
  else if bool_decide (rd_Group desc = helmGroup) then
    if bool_decide (rd_Resource desc = "helmreleases") then "Helm Releases" else ""
  else if bool_decide (rd_Group desc = sourceGroup) then
    if contains sourceResources (rd_Resource desc) then "Sources" else ""
  else if bool_decide (rd_Group desc = "image.toolkit.fluxcd.io") then
    if contains imageResources (rd_Resource desc) then "Image Automation" else ""
  else if bool_decide (rd_Group desc = "notification.toolkit.fluxcd.io") then
    if contains notificationResources (rd_Resource desc) then "Notifications" else ""
  else "".

Definition underscore : Ascii.ascii := Ascii.ascii_of_N 95.

(** namespace, name, group and kind *)
Definition splitInventoryID (id : string) : string * string * string * string :=
  match str_split underscore id with
  | [namespace; name; group; kind] => (namespace, name, if bool_decide (group = "''") then "" else group, kind)
  | _ => ("", "", "", "")
  end.

Definition syncWordOf (ready : string) : string :=
  if bool_decide (ready = readyTrue) then "Synced" else if bool_decide (ready = readyFalse) then "OutOfSync" else "Unknown".

Definition healthWordOf (ready : string) : string :=
  if bool_decide (ready = readyTrue) then "Healthy" else if bool_decide (ready = readyFalse) then "Degraded" else "Progressing".

Definition failing (kind status : string) : bool :=
  if bool_decide (kind = "Ready") || bool_decide (kind = "Healthy") then bool_decide (status = readyFalse)
  else if bool_decide (kind = "Stalled") then bool_decide (status = readyTrue)
  else false.

Record FluxResource := MkFluxResource {
  fr_Kind : string;
  fr_Group : string;
  fr_Version : string;
  fr_Resource : string;
  fr_Name : string;
  fr_Namespace : string;
  fr_Ready : string;
  fr_Suspended : bool;
  fr_Revision : string;
  fr_Latest : string;
  fr_Outdated : bool;
  fr_Source : string;
  fr_Message : string;
  fr_CreatedAt : string;
}.

Record FluxGroup := MkFluxGroup { fg_Name : string; fg_Ready : Z; fg_Reporting : Z; fg_Total : Z; fg_Resources : list FluxResource }.

Section views.
Context {U : Type} `{!Unstructured U} `{!Described U} `{!Editable U} {Tm : RFC3339} {Nt : Net} {Au : Authorities} {Qt : Quoting} {Sm : Semver}.

(** [obj.GetCreationTimestamp().Time.UTC().Format(time.RFC3339)] *)
Definition created (obj : U) : string := FormatTime (default zeroTime (CreatedOf obj)).

(** ** dashboard.go *)

Definition historyChartVersion (obj : U) : string :=
  match USlice obj ["status"; "history"] with
  | [] => ""
  | first :: _ => match asMap (Some first) with Some entry => At entry "chartVersion" | None => "" end
  end.

Definition revisionOf (obj : U) (desc : ResourceDescriptor) : string :=
  let applied := firstSet [UString obj ["status"; "lastAppliedRevision"]; UString obj ["status"; "lastAttemptedRevision"];
    UString obj ["status"; "artifact"; "revision"]; UString obj ["status"; "latestImage"]] in
  if bool_decide (rd_Group desc = helmGroup) && bool_decide (rd_Resource desc = "helmreleases") then
    let version := historyChartVersion obj in if bool_decide (version <> "") then version else applied
  else applied.

Definition refAt (obj : U) (fields : list string) : string * string :=
  (UString obj (fields ++ ["kind"]), UString obj (fields ++ ["name"])).

Definition partial_ref (r : string * string) : bool := bool_decide (r.1 = "") || bool_decide (r.2 = "").

Definition sourceOf (obj : U) : string :=
  let r := refAt obj ["spec"; "chartRef"] in
  let r := if partial_ref r then refAt obj ["spec"; "sourceRef"] else r in
  let r := if partial_ref r then refAt obj ["spec"; "chart"; "spec"; "sourceRef"] else r in
  if partial_ref r then "" else r.1 +s+ "/" +s+ r.2.

Definition resourceOf (obj : U) (desc : ResourceDescriptor) : FluxResource :=
  let '(ready, message) := Ready obj in
  MkFluxResource (rd_Kind desc) (rd_Group desc) (rd_Version desc) (rd_Resource desc) (GetName obj) (GetNamespace obj) ready
    (UBool obj ["spec"; "suspend"]) (revisionOf obj desc) "" false (sourceOf obj) message (created obj).

Definition sortResources : list FluxResource -> list FluxResource :=
  sort_by (cmp_then (cmp_on fr_Kind str_compare) (cmp_then (cmp_on fr_Namespace str_compare) (cmp_on fr_Name str_compare))).

Definition readyCount (items : list FluxResource) : Z := counted (fun it => bool_decide (fr_Ready it = "True")) items.
Definition reportingCount (items : list FluxResource) : Z := counted (fun it => bool_decide (fr_Ready it <> "")) items.

Definition assemble (byGroup : string -> list FluxResource) : list FluxGroup :=
  omap (fun name =>
    let items := byGroup name in
    if (zlen items =? 0)%Z then None
    else let items := sortResources items in
      Some (MkFluxGroup name (readyCount items) (reportingCount items) (zlen items) items)) groupOrder.

(** [gvr.GroupResource().String()] *)
Definition groupResource (desc : ResourceDescriptor) : string :=
  if bool_decide (rd_Group desc = "") then rd_Resource desc else rd_Resource desc +s+ "." +s+ rd_Group desc.

Definition lister : Type := ResourceDescriptor -> result string (list U).

Definition isHelmRepository (desc : ResourceDescriptor) : bool :=
  if bool_decide (rd_Group desc <> sourceGroup) then false else bool_decide (rd_Resource desc = "helmrepositories").

(** The repositories Helm charts come from, by namespace and name. *)
Definition repoIndex (list_ : lister) (descs : list ResourceDescriptor) : gmap string Charts.Repo :=
  foldl (fun out desc =>
    if negb (isHelmRepository desc) then out
    else match list_ desc with
      | Err _ => out
      | Ok found =>
          foldl (fun out repo =>
            let source := UString repo ["spec"; "url"] in
            match Charts.CheckRepoURL source with
            | Some _ => out
            | None => <[GetNamespace repo +s+ "/" +s+ GetName repo := Charts.MkRepo source (bool_decide (UString repo ["spec"; "type"] = "oci"))]> out
            end) out found
      end) ∅ descs.

Definition chartSource (obj : U) (repos : gmap string Charts.Repo) : option (Charts.Repo * string) :=
  let at_ field := UString obj ["spec"; "chart"; "spec"; "sourceRef"; field] in
  let chart := UString obj ["spec"; "chart"; "spec"; "chart"] in
  if bool_decide (chart = "") || bool_decide (at_ "kind" <> "HelmRepository") || bool_decide (at_ "name" = "") then None
  else
    let namespace := if bool_decide (at_ "namespace" = "") then GetNamespace obj else at_ "namespace" in
    repo ← repos !! (namespace +s+ "/" +s+ at_ "name");
    if bool_decide (Charts.URL_ repo = "") then None else Some (repo, chart).

(** The index of charts, if there is one: the newest version of a chart. *)
Definition chartIndex : Type := option (Charts.Repo -> string -> string).

(** The body of [applyLatest]'s loop. *)
Definition withLatest (index : chartIndex) (repos : gmap string Charts.Repo) (row : FluxResource * U) : FluxResource * U :=
  match index, chartSource row.2 repos with
  | Some latestOf, Some (repo, chart) =>
      let r := row.1 in
      let latest := latestOf repo chart in
      (MkFluxResource (fr_Kind r) (fr_Group r) (fr_Version r) (fr_Resource r) (fr_Name r) (fr_Namespace r) (fr_Ready r) (fr_Suspended r)
         (fr_Revision r) latest (Charts.Newer (fr_Revision r) latest) (fr_Source r) (fr_Message r) (fr_CreatedAt r), row.2)
  | _, _ => row
  end.

(** The rows of each group with the objects they are of. *)
Definition rows : Type := string -> list (FluxResource * U).

Definition applyLatest (byGroup : rows) (repos : gmap string Charts.Repo) (index : chartIndex) : rows :=
  fun name => if bool_decide (name = "Helm Releases") then map (withLatest index repos) (byGroup name) else byGroup name.

(** The loop of [Build]: the rows of each group and what failed. *)
Definition collect (list_ : lister) (st : rows * Listerr.Collector) (desc : ResourceDescriptor) : rows * Listerr.Collector :=
  let '(byGroup, failures) := st in
  let group := categoryOf desc in
  if bool_decide (group = "") then st
  else match list_ desc with
    | Err e => (byGroup, Listerr.Record_ failures (groupResource desc) (Some e))
    | Ok found =>
        (fun name => if bool_decide (name = group) then byGroup name ++ map (fun item => (resourceOf item desc, item)) found else byGroup name,
         Listerr.Record_ failures (groupResource desc) None)
    end.

Definition repos_ (index : chartIndex) (list_ : lister) (descs : list ResourceDescriptor) : gmap string Charts.Repo :=
  match index with None => ∅ | Some _ => repoIndex list_ descs end.

(** [Build]; [descs] in the order the map is walked in. *)
Definition Build (list_ : lister) (descs : list ResourceDescriptor) (index : chartIndex) : list FluxGroup * string :=
  let '(byGroup, failures) := foldl (collect list_) (fun _ => [], Listerr.New) descs in
  let byGroup := applyLatest byGroup (repos_ index list_ descs) index in
  (assemble (fun name => map fst (byGroup name)), Listerr.Message failures).

(** ** detail.go *)

Definition pathOfApplier (obj : U) (desc : ResourceDescriptor) : string :=
  if bool_decide (rd_Resource desc = kustomizations) then UString obj ["spec"; "path"]
  else firstSet [UString obj ["spec"; "chart"; "spec"; "chart"]; UString obj ["spec"; "chartRef"; "name"]].

Definition destinationOfApplier (obj : U) : string :=
  let target := UString obj ["spec"; "targetNamespace"] in
  if bool_decide (target <> "") then target else GetNamespace obj.

Definition syncModeOfApplier (obj : U) : string := if UBool obj ["spec"; "suspend"] then SyncModeSuspended else SyncModeAuto.

Definition policyOfApplier (obj : U) : string :=
  Join ", " ((if UBool obj ["spec"; "prune"] then ["prune"] else []) ++ (if UBool obj ["spec"; "force"] then ["force"] else [])).

Definition sourceOfApplier (obj : U) (desc : ResourceDescriptor) : GitopsSource :=
  MkGitopsSource (sourceOf obj) (pathOfApplier obj desc) "" (destinationOfApplier obj) "" (syncModeOfApplier obj) (policyOfApplier obj).

Definition stateOfApplier (obj : U) (desc : ResourceDescriptor) : GitopsState :=
  let '(ready, message) := Ready obj in
  MkGitopsState (syncWordOf ready) (healthWordOf ready) (revisionOf obj desc) (created obj) (UString obj ["status"; "lastHandledReconcileAt"]) message.

Definition inventoryEntry (entry : amap) : option GitopsResource :=
  let '(namespace, name, group, kind) := splitInventoryID (At entry "id") in
  if bool_decide (kind = "") || bool_decide (name = "") then None
  else Some (bare group (At entry "v") kind name namespace "" "" "").

Definition resourcesOfApplier (obj : U) : list GitopsResource :=
  omap inventoryEntry (entriesOf (USlice obj ["status"; "inventory"; "entries"])).

Definition historyEntry (entry : amap) : option GitopsDeployment :=
  version ← asInt (aget entry "version");
  Some (MkGitopsDeployment version (At entry "chartVersion") (At entry "chartName") (At entry "firstDeployed") (At entry "lastDeployed") "" false).

Definition historyOfApplier (obj : U) : list GitopsDeployment := omap historyEntry (entriesOf (USlice obj ["status"; "history"])).

Definition conditionOf (obj : U) (kind : string) : option amap := conditionOfType kind (USlice obj ["status"; "conditions"]).
Definition conditionField (obj : U) (kind field : string) : string :=
  match conditionOf obj kind with Some entry => At entry field | None => "" end.

Definition conditionStatus (obj : U) (kind : string) : string := conditionField obj kind "status".
Definition conditionMessage (obj : U) (kind : string) : string := conditionField obj kind "message".
Definition conditionUpdated (obj : U) (kind : string) : string := conditionField obj kind "lastTransitionTime".

Definition reconciling (obj : U) : bool := bool_decide (conditionStatus obj "Reconciling" = readyTrue).

Definition revisionAttempted (obj : U) : string :=
  firstSet [UString obj ["status"; "lastAttemptedRevision"]; UString obj ["status"; "lastAppliedRevision"]].

Definition operationOfApplier (obj : U) : option GitopsOperation :=
  if reconciling obj then
    Some (MkGitopsOperation "Running" true (conditionMessage obj "Reconciling") "" (UString obj ["status"; "lastAttemptedRevision"])
      (UString obj ["status"; "lastHandledReconcileAt"]) "" "")
  else
    let '(ready, message) := Ready obj in
    if bool_decide (ready = "") then None
    else Some (MkGitopsOperation (if bool_decide (ready = readyFalse) then "Failed" else "Succeeded") false message (Faults.Cause message)
      (revisionAttempted obj) "" (conditionUpdated obj "Ready") "").

Definition failingConditions (obj : U) : list GitopsIssue :=
  omap (fun entry =>
    let kind := At entry "type" in
    if failing kind (At entry "status") then Some (MkGitopsIssue SeverityHigh (At entry "reason") (withCause (At entry "message")) kind) else None)
    (entriesOf (USlice obj ["status"; "conditions"])).

Definition issuesOfApplier (obj : U) : list GitopsIssue :=
  (if Deleting obj then [MkGitopsIssue SeverityLow "This object is being deleted" (heldBy (GetFinalizers obj)) ""] else []) ++
  (if UBool obj ["spec"; "suspend"] then
     [MkGitopsIssue SeverityLow "Nothing will reconcile this" "it is suspended; nothing changes until someone resumes it" "drift"]
   else []) ++
  failingConditions obj.

Definition Detail (obj : U) (desc : ResourceDescriptor) : GitopsApp :=
  MkGitopsApp noRef ControllerFlux (Deleting obj) (rd_Kind desc) (GetName obj) (GetNamespace obj) (sourceOfApplier obj desc)
    (stateOfApplier obj desc) (issuesOfApplier obj) (resourcesOfApplier obj) (historyOfApplier obj) (operationOfApplier obj) "".
End views.

(** ** overview.go *)

(** A deployment of client-go: its labels, how many replicas are ready and how
    many are asked for. *)
Record Deployment := MkDeployment {
  de_Namespace : string;
  de_Name : string;
  de_Labels : gmap string string;
  de_ReadyReplicas : Z;
  de_Replicas : option Z;
}.

(** A pod as the overview reads it: for each container the CPU requested and
    allowed in millicores, and the memory in bytes. *)
Record UsedPod := MkUsedPod { up_Namespace : string; up_Name : string; up_Containers : list (Z * Z * (Z * Z)) }.

Record FluxController := MkFluxController {
  fc_Name : string;
  fc_Version : string;
  fc_Ready : bool;
  fc_Replicas : Z;
  fc_Wanted : Z;
  fc_Namespace : string;
}.

Record FluxSync := MkFluxSync {
  sy_Namespace : string;
  sy_Name : string;
  sy_Kind : string;
  sy_Source : string;
  sy_URL : string;
  sy_Ref : string;
  sy_Path : string;
  sy_Revision : string;
  sy_Ready : bool;
}.

Record FluxUsage := MkFluxUsage {
  fu_CPUMilli : Z;
  fu_MemoryMi : Z;
  fu_CPURequestMilli : Z;
  fu_MemRequestMi : Z;
  fu_CPULimitMilli : Z;
  fu_MemLimitMi : Z;
  fu_Known : bool;
}.

Record FluxOverview := MkFluxOverview {
  fo_Ready : bool;
  fo_Summary : string;
  fo_Namespace : string;
  fo_Kubernetes : string;
  fo_Nodes : Z;
  fo_Operator : string;
  fo_Distribution : string;
  fo_Controllers : list FluxController;
  fo_Sync : FluxSync;
  fo_Usage : FluxUsage;
  fo_Error : string;
}.

Record Cluster := MkCluster { cl_Kubernetes : string; cl_Nodes : Z; cl_Usage : gmap string Checks.ResourceUsage }.

(** The clientset: the deployments and the pods of a namespace ("" for all)
    under a selector. *)
Record Clientset := MkClientset {
  DeploymentsList : string -> string -> result string (list Deployment);
  PodsList : string -> string -> result string (list UsedPod);
}.

Definition partOfFlux : string := "app.kubernetes.io/part-of=flux".
Definition operatorName : string := "app.kubernetes.io/name=flux-operator".
Definition componentLabel : string := "app.kubernetes.io/component".
Definition versionLabel : string := "app.kubernetes.io/version".
Definition defaultSyncName : string := "flux-system".
Definition instanceGroup : string := "fluxcd.controlplane.io".
Definition instanceKind : string := "fluxinstances".
Definition sourceKinds : list (string * string) := [("GitRepository", "gitrepositories"); ("OCIRepository", "ocirepositories");
  ("HelmRepository", "helmrepositories"); ("HelmChart", "helmcharts"); ("Bucket", "buckets")].

Definition orKeep (found fallback : string) : string := if bool_decide (found = "") then fallback else found.
Definition wantedReplicas (replicas : option Z) : Z := default 1%Z replicas.
Definition label (item : Deployment) (key : string) : string := default "" (de_Labels item !! key).

(** [controllers] and [controllersOf] *)
Definition controllerOf (item : Deployment) : FluxController :=
  MkFluxController (orKeep (label item componentLabel) (de_Name item)) (label item versionLabel) (0 <? de_ReadyReplicas item)%Z
    (de_ReadyReplicas item) (wantedReplicas (de_Replicas item)) (de_Namespace item).

(** [version] is the one seen so far. *)
Fixpoint shared_from (version : string) (controllers : list FluxController) : string :=
  match controllers with
  | [] => version
  | one :: rest =>
      if bool_decide (fc_Version one = "") then shared_from version rest
      else if bool_decide (version = "") then shared_from (fc_Version one) rest
      else if bool_decide (version <> fc_Version one) then "" else shared_from version rest
  end.
Definition sharedVersion : list FluxController -> string := shared_from "".

Definition operatorVersion (cs : Clientset) (namespace : string) : string :=
  match DeploymentsList cs namespace operatorName with Ok (first :: _) => label first versionLabel | _ => "" end.

Definition sourceResourceOf (kind : string) : string :=
  match List.find (fun p => bool_decide (p.1 = kind)) sourceKinds with Some p => p.2 | None => "" end.

Definition noSync (namespace name : string) : FluxSync := MkFluxSync namespace name "" "" "" "" "" "" false.
Definition noUsage : FluxUsage := MkFluxUsage 0 0 0 0 0 0 false.

(** [descs[discovery.Key(group, version, resource)]] *)
Definition served (descs : list ResourceDescriptor) (group version resource : string) : option ResourceDescriptor :=
  List.find (fun d => bool_decide (rd_Group d = group) && bool_decide (rd_Version d = version) && bool_decide (rd_Resource d = resource)) descs.

Definition mebibytes (bytes : Z) : Z := Z.quot bytes (1024 * 1024).

Definition addRequests (out : FluxUsage) (pod : UsedPod) : FluxUsage :=
  foldl (fun out '(cpu, cpuLimit, (memory, memoryLimit)) =>
    MkFluxUsage (fu_CPUMilli out) (fu_MemoryMi out) (wrap64 (fu_CPURequestMilli out + cpu)) (wrap64 (fu_MemRequestMi out + mebibytes memory))
      (wrap64 (fu_CPULimitMilli out + cpuLimit)) (wrap64 (fu_MemLimitMi out + mebibytes memoryLimit)) (fu_Known out)) out (up_Containers pod).

Definition addUsed (usage : gmap string Checks.ResourceUsage) (out : FluxUsage) (pod : UsedPod) : FluxUsage :=
  addRequests
    (match usage !! (up_Namespace pod +s+ "/" +s+ up_Name pod) with
     | None => out
     | Some used =>
         MkFluxUsage (wrap64 (fu_CPUMilli out + Checks.ru_CPUMilli used)) (wrap64 (fu_MemoryMi out + Checks.ru_MemoryMi used)) (fu_CPURequestMilli out)
           (fu_MemRequestMi out) (fu_CPULimitMilli out) (fu_MemLimitMi out) true
     end) pod.

Definition usageOf (cs : Clientset) (namespace : string) (usage : gmap string Checks.ResourceUsage) : FluxUsage :=
  if bool_decide (usage = ∅) then noUsage
  else match PodsList cs namespace partOfFlux with Ok pods => foldl (addUsed usage) noUsage pods | Err _ => noUsage end.

Definition verdict (controllers : list FluxController) (sync : FluxSync) : bool * string :=
  let short := map fc_Name (List.filter (fun one => negb (fc_Ready one)) controllers) in
  if (0 <? zlen short)%Z then (false, Join ", " short +s+ " is not ready")
  else if bool_decide (sy_Kind sync <> "") && negb (sy_Ready sync) then (false, "the cluster sync is not ready")
  else if bool_decide (sy_Kind sync = "") then (true, "the controllers are ready; no cluster sync was found")
  else (true, "the cluster is in sync with what the repository asks for").

Section overview.
Context {U : Type} `{!Unstructured U}.

Definition listing : Type := ResourceDescriptor -> result string (list U).

(** [descs] in the order the map is walked in. *)
Definition fluxInstance (list_ : listing) (descs : list ResourceDescriptor) : option U :=
  match List.find (fun d => bool_decide (rd_Group d = instanceGroup) && bool_decide (rd_Resource d = instanceKind)) descs with
  | None => None
  | Some desc => match list_ desc with Ok (first :: _) => Some first | _ => None end
  end.

Definition syncName (instance : option U) : string :=
  match instance with None => defaultSyncName | Some u => orKeep (UString u ["spec"; "sync"; "name"]) defaultSyncName end.

Definition pick (items : list U) (namespace name : string) : option U :=
  List.find (fun item => bool_decide (GetNamespace item = namespace) && bool_decide (GetName item = name)) items.

Definition refOf (source : U) : string :=
  firstSet (map (fun field => UString source ["spec"; "ref"; field]) ["branch"; "tag"; "semver"; "name"; "commit"]).

(** kind, url and ref *)
Definition syncSource (list_ : listing) (descs : list ResourceDescriptor) (entry : U) (namespace : string) : string * string * string :=
  let kind := UString entry ["spec"; "sourceRef"; "kind"] in
  let name := UString entry ["spec"; "sourceRef"; "name"] in
  if bool_decide (kind = "") || bool_decide (name = "") then ("", "", "")
  else match served descs sourceGroup "v1" (sourceResourceOf kind) with
    | None => (kind, "", "")
    | Some desc =>
        match list_ desc with
        | Err _ => (kind, "", "")
        | Ok found =>
            match pick found namespace name with
            | None => (kind, "", "")
            | Some source => (kind, UString source ["spec"; "url"], refOf source)
            end
        end
    end.

Definition readyCondition (item : U) : bool :=
  match conditionOfType "Ready" (USlice item ["status"; "conditions"]) with
  | None => false
  | Some entry => bool_decide (At entry "status" = "True")
  end.

Definition syncOf (list_ : listing) (descs : list ResourceDescriptor) (namespace name : string) : FluxSync :=
  match served descs kustomizeGroup "v1" "kustomizations" with
  | None => noSync namespace name
  | Some kustomization =>
      match list_ kustomization with
      | Err _ => noSync namespace name
      | Ok found =>
          match pick found namespace name with
          | None => noSync namespace name
          | Some entry =>
              let '(kind, url, ref) := syncSource list_ descs entry namespace in
              MkFluxSync namespace name "Kustomization" kind url ref (UString entry ["spec"; "path"])
                (UString entry ["status"; "lastAppliedRevision"]) (readyCondition entry)
          end
      end
  end.

Definition Overview (cs : Clientset) (list_ : listing) (descs : list ResourceDescriptor) (cluster : Cluster) : FluxOverview :=
  let empty error := MkFluxOverview false "" "" (cl_Kubernetes cluster) (cl_Nodes cluster) "" "" [] (noSync "" "") noUsage error in
  match DeploymentsList cs "" partOfFlux with
  | Err e => empty e
  | Ok [] => empty ""
  | Ok ((first :: _) as deployments) =>
      let namespace := de_Namespace first in
      let controllers := map controllerOf deployments in
      let instance := fluxInstance list_ descs in
      let distribution := match instance with
        | None => sharedVersion controllers
        | Some u => orKeep (UString u ["spec"; "distribution"; "version"]) (sharedVersion controllers)
        end in
      let sync := syncOf list_ descs namespace (syncName instance) in
      let '(ready, summary) := verdict controllers sync in
      MkFluxOverview ready summary namespace (cl_Kubernetes cluster) (cl_Nodes cluster) (operatorVersion cs namespace) distribution controllers
        sync (usageOf cs namespace (cl_Usage cluster)) ""
  end.
End overview.

(** ** What the dashboard and the overview tell *)

Section told.
Context {U : Type} `{!Unstructured U} `{!Described U} `{!Editable U} {Tm : RFC3339} {Nt : Net} {Au : Authorities} {Qt : Quoting} {Sm : Semver}.

(** The row of an object: of a release with what is newest of its chart. *)
Definition rowOf (index : chartIndex) (repos : gmap string Charts.Repo) (desc : ResourceDescriptor) (item : U) : FluxResource :=
  if bool_decide (categoryOf desc = "Helm Releases") then (withLatest index repos (resourceOf item desc, item)).1 else resourceOf item desc.

(** The rows a kind gives a group. *)
Definition rowsOf (list_ : ResourceDescriptor -> result string (list U)) (index : chartIndex) (repos : gmap string Charts.Repo) (name : string)
    (desc : ResourceDescriptor) : list FluxResource :=
  if bool_decide (categoryOf desc = name) then match list_ desc with Ok found => map (rowOf index repos desc) found | Err _ => [] end else [].

Definition gathered (list_ : ResourceDescriptor -> result string (list U)) (name : string) (desc : ResourceDescriptor) : list (FluxResource * U) :=
  if bool_decide (categoryOf desc = name) then
    match list_ desc with Ok found => map (fun item => (resourceOf item desc, item)) found | Err _ => [] end
  else [].

Lemma collected list_ descs st name : name <> "" -> (foldl (collect list_) st descs).1 name = st.1 name ++ flat_map (gathered list_ name) descs.
Proof.
  intros Hn. revert st. induction descs as [| desc descs IH]; intros [byGroup failures]; [by rewrite app_nil_r |].
  cbn [foldl flat_map]. rewrite IH. unfold collect, gathered at 2. case_bool_decide as Hc.
  - rewrite bool_decide_eq_false_2 by (rewrite Hc; congruence). done.
  - destruct (list_ desc) as [found | e]; cbn [fst].
    + case_bool_decide as H1.
      * rewrite bool_decide_eq_true_2 by done. by rewrite <- app_assoc.
      * rewrite bool_decide_eq_false_2 by congruence. done.
    + by destruct (bool_decide (categoryOf desc = name)).
Qed.

Lemma rows_latest list_ index repos name descs :
  map fst (applyLatest (fun name => flat_map (gathered list_ name) descs) repos index name) = flat_map (rowsOf list_ index repos name) descs.
Proof.
  unfold applyLatest. induction descs as [| desc descs IH]; [by destruct (bool_decide _) |]. cbn [flat_map]. rewrite <- IH.
  unfold gathered at 1 3, rowsOf, rowOf. destruct (decide (name = "Helm Releases")) as [-> | Hn].
  - rewrite (bool_decide_eq_true_2 ("Helm Releases" = "Helm Releases")) by done. rewrite !map_app. f_equal.
    destruct (decide (categoryOf desc = "Helm Releases")) as [Hc | Hc]; [| by rewrite !(bool_decide_eq_false_2 _ Hc)].
    rewrite !(bool_decide_eq_true_2 _ Hc). destruct (list_ desc); [| done]. by rewrite !map_map.
  - rewrite (bool_decide_eq_false_2 (name = "Helm Releases")) by done. rewrite map_app. f_equal.
    destruct (decide (categoryOf desc = name)) as [Hc | Hc]; [| by rewrite !(bool_decide_eq_false_2 _ Hc)].
    rewrite !(bool_decide_eq_true_2 _ Hc), bool_decide_eq_false_2 by congruence. destruct (list_ desc); [| done]. by rewrite map_map.
Qed.

Lemma categoryOf_known desc : categoryOf desc = "" \/ categoryOf desc ∈ groupOrder.
Proof. unfold categoryOf, groupOrder. repeat case_match; first [by left | right; set_solver]. Qed.

Lemma counted_le {A} (f g : A -> bool) l : (forall x, f x = true -> g x = true) -> (counted f l <= counted g l)%Z.
Proof.
  intros Hfg. induction l as [| x l IH]; [done |]. rewrite !counted_cons. specialize (Hfg x). unfold one. destruct (f x), (g x); lia.
Qed.

Lemma counted_within {A} (f : A -> bool) l : (counted f l <= zlen l)%Z.
Proof. induction l as [| x l IH]; [done |]. rewrite counted_cons, zlen_cons. unfold one. destruct (f x); lia. Qed.

(** The dashboard accounts for everything that could be listed: a group holds
    just the rows of its kinds, in order and as many as it says, no group is
    empty, and no kind of a group is left out. *)
Lemma flux_dashboard_accounts list_ descs index :
  let groups := (Build list_ descs index).1 in
  let rows := rowsOf list_ index (repos_ index list_ descs) in
  (forall g, g ∈ groups ->
     fg_Name g ∈ groupOrder /\ fg_Resources g ≡ₚ flat_map (rows (fg_Name g)) descs /\
     fg_Resources g = sortResources (flat_map (rows (fg_Name g)) descs) /\
     (0 < fg_Total g)%Z /\ fg_Total g = zlen (fg_Resources g) /\ (0 <= fg_Ready g <= fg_Reporting g)%Z /\ (fg_Reporting g <= fg_Total g)%Z) /\
  (forall desc found item, desc ∈ descs -> categoryOf desc <> "" -> list_ desc = Ok found -> item ∈ found ->
     exists g, g ∈ groups /\ fg_Name g = categoryOf desc /\ rowOf index (repos_ index list_ descs) desc item ∈ fg_Resources g).
Proof.
  intros groups rows. unfold groups, Build. destruct (foldl (collect list_) (fun _ => [], Listerr.New) descs) as [byGroup failures] eqn:Hf.
  assert (forall name, name <> "" -> map fst (applyLatest byGroup (repos_ index list_ descs) index name) = flat_map (rows name) descs) as Hby.
  { intros name Hn. unfold rows. rewrite <- rows_latest. unfold applyLatest. pose proof (collected list_ descs (fun _ => [], Listerr.New) name Hn) as H.
    rewrite Hf in H. cbn in H. by rewrite H. }
  clear Hf groups. cbn [fst]. assert (forall name, name ∈ groupOrder -> name <> "") as Hne by (intros name Hin ->; unfold groupOrder in Hin; set_solver).
  split.
  - intros g (name & Hin & Hg)%list_elem_of_omap. rewrite (Hby name (Hne name Hin)) in Hg. cbn zeta in Hg. set (all := flat_map (rows name) descs) in *.
    destruct (Z.eqb_spec (zlen all) 0) as [| Hz]; [done |]. injection Hg as <-. cbn [fg_Name fg_Resources fg_Total fg_Ready fg_Reporting].
    assert (sortResources all ≡ₚ all) as Hp by apply sort_by_perm.
    assert (zlen (sortResources all) = zlen all) as Hl by (unfold zlen; by rewrite Hp).
    split; [done | split; [done | split; [done | split; [pose proof (zlen_nonneg all); lia | split; [done | split; [split |]]]]]].
    + apply counted_nonneg.
    + apply counted_le. intros x Hx. apply bool_decide_eq_true in Hx. apply bool_decide_eq_true. rewrite Hx. done.
    + apply counted_within.
  - intros desc found item Hd Hc Hl Hi. destruct (categoryOf_known desc) as [? | Hk]; [done |].
    assert (rowOf index (repos_ index list_ descs) desc item ∈ flat_map (rows (categoryOf desc)) descs) as Hr.
    { apply flat_map_elem. exists desc. split; [done |]. unfold rows, rowsOf. rewrite bool_decide_eq_true_2, Hl by done. apply map_elem. by exists item. }
    assert (zlen (flat_map (rows (categoryOf desc)) descs) <> 0)%Z as Hz by (intros H%zlen_nil_inv; rewrite H in Hr; by apply elem_of_nil in Hr).
    eexists. split; [| split].
    + apply list_elem_of_omap. exists (categoryOf desc). split; [done |]. rewrite (Hby _ Hc). apply Z.eqb_neq in Hz. cbn zeta. by rewrite Hz.
    + done.
    + cbn [fg_Resources]. unfold sortResources. by rewrite sort_by_elem.
Qed.

(** Flux is called ready exactly when each controller is and the cluster's own
    sync, where there is one, is too. *)
Lemma verdict_exact controllers sync :
  (verdict controllers sync).1 = true <->
  (forall one, one ∈ controllers -> fc_Ready one = true) /\ (sy_Kind sync <> "" -> sy_Ready sync = true).
Proof.
  unfold verdict. set (l := List.filter _ _).
  assert (zlen (map fc_Name l) = zlen l) as -> by (unfold zlen; by rewrite length_map).
  destruct (Z.ltb_spec 0 (zlen l)) as [Hl | Hl].
  - split; [done |]. intros [Hall _]. destruct l as [| one l'] eqn:El; [done |]. assert (one ∈ l) as Hin by (rewrite El; apply list_elem_of_here).
    apply filter_elem in Hin as [Hin Hn]. by rewrite (Hall _ Hin) in Hn.
  - assert (forall one, one ∈ controllers -> fc_Ready one = true) as Hall.
    { intros one Hin. destruct (fc_Ready one) eqn:Hr; [done |]. assert (one ∈ l) as Hx by (apply filter_elem; by rewrite Hr).
      pose proof (zlen_nonneg l). assert (l = []) as Hnil by (apply zlen_nil_inv; lia). rewrite Hnil in Hx. by apply elem_of_nil in Hx. }
    destruct (decide (sy_Kind sync = "")) as [Hk | Hk].
    + rewrite (bool_decide_eq_false_2 (sy_Kind sync <> "")), (bool_decide_eq_true_2 (sy_Kind sync = "")) by naive_solver. cbn. naive_solver.
    + rewrite (bool_decide_eq_true_2 (sy_Kind sync <> "")), (bool_decide_eq_false_2 (sy_Kind sync = "")) by done.
      destruct (sy_Ready sync); cbn; naive_solver.
Qed.
End told.
End FluxViews.
