(* ===== verification/ArgoViews.v ===== *)
(** internal/argocd, what is read: dashboard.go, detail.go and diagnose.go. *)

From S2P Require Import Prelude Api Text Unstr Faults Issues Config Kube Argocd Inspect Reads Applied FluxViews.

Module ArgoViews.
Import Api Text Unstr Applied.

Definition Group : string := Argocd.Group.
Definition applications : string := Argocd.applications.
Definition applicationSets : string := "applicationsets".
Definition appProjects : string := "appprojects".
Definition trackingLabel : string := "app.kubernetes.io/instance".
Definition trackingAnnotation : string := "argocd.argoproj.io/tracking-id".
Definition IsApplication : string := "Application".
Definition outOfSync : string := "OutOfSync".
Definition succeededPhase : string := "Succeeded".
Definition degraded : string := "Degraded".
Definition missing : string := "Missing".

Definition conditionAdvice : list (string * string) := [
  ("ComparisonError", "check the repository credentials and the path");
  ("InvalidSpecError", "argo cd will not sync until the spec is fixed");
  ("OrphanedResourceWarning", "the destination namespace holds resources this application does not declare");
  ("SharedResourceWarning", "another application declares the same resource");
  ("RepeatedResourceWarning", "the same resource is declared twice in this application");
  ("ExcludedResourceWarning", "argo cd's settings exclude it, so it is never applied");
  ("SyncError", "the last sync did not finish");
  ("DeletionError", "argo cd could not delete something it had applied")].

Record ArgoApp := MkArgoApp {
  aa_Kind : string;
  aa_Automation : string;
  aa_Group : string;
  aa_Version : string;
  aa_Resource : string;
  aa_Name : string;
  aa_Namespace : string;
  aa_Project : string;
  aa_Sync : string;
  aa_Health : string;
  aa_Revision : string;
  aa_Repo : string;
  aa_Path : string;
  aa_Destination : string;
  aa_Message : string;
  aa_Owner : string;
  aa_CreatedAt : string;
}.

Record ArgoDashboard := MkArgoDashboard {
  ad_Apps : list ArgoApp;
  ad_ApplicationSets : list ArgoApp;
  ad_Projects : list ArgoApp;
  ad_Error : string;
}.

Definition Installed (descs : list ResourceDescriptor) : bool :=
  existsb (fun desc => bool_decide (rd_Group desc = Group) && bool_decide (rd_Resource desc = applications)) descs.

Definition listed (resource : string) : bool := contains [applications; applicationSets; appProjects] resource.

(** [descs] in the order the map is walked in. *)
Definition wanted (descs : list ResourceDescriptor) : list ResourceDescriptor :=
  List.filter (fun desc => bool_decide (rd_Group desc = Group) && listed (rd_Resource desc)) descs.

Definition byName : ArgoApp -> ArgoApp -> Z := cmp_then (cmp_on aa_Namespace str_compare) (cmp_on aa_Name str_compare).

Definition fromTrackingID (id self : string) : string :=
  if bool_decide (id = "") then ""
  else let '(owner, _, found) := str_cut id ":" in
    if negb found || bool_decide (owner = self) then "" else owner.

Definition with_owner (app : ArgoApp) (owner : string) : ArgoApp :=
  MkArgoApp (aa_Kind app) (aa_Automation app) (aa_Group app) (aa_Version app) (aa_Resource app) (aa_Name app) (aa_Namespace app)
    (aa_Project app) (aa_Sync app) (aa_Health app) (aa_Revision app) (aa_Repo app) (aa_Path app) (aa_Destination app) (aa_Message app)
    owner (aa_CreatedAt app).

Definition withParents (apps sets : list ArgoApp) : list ArgoApp :=
  let known := map aa_Name apps ++ map aa_Name sets in
  map (fun app => if negb (contains known (aa_Owner app)) then with_owner app "" else app) apps.

Definition flag (entry : amap) (key : string) : bool := match aget entry key with Some (ABool value) => value | _ => false end.

Definition severityOf (kind : string) : string :=
  if has_suffix kind "Warning" then SeverityLow else if has_suffix kind "Error" then SeverityMedium else SeverityLow.

Definition adviceFor (kind : string) : string :=
  match List.find (fun p => bool_decide (p.1 = kind)) conditionAdvice with Some p => p.2 | None => "" end.

Definition healthSeverity (health : string) : string := if bool_decide (health = degraded) then SeverityHigh else SeverityMedium.

(** What is said of an entry's nested map. *)
Definition inner (entry : amap) (key : string) : option amap := asMap (aget entry key).

Definition healthOf (entry : amap) : string := match inner entry "health" with None => "" | Some health => At health "status" end.
Definition healthMessageOf (entry : amap) : string := match inner entry "health" with None => "" | Some health => At health "message" end.

Definition initiatorOf (entry : amap) : string * bool :=
  match inner entry "initiatedBy" with None => ("", false) | Some by_ => (At by_ "username", flag by_ "automated") end.

Definition sourceLabelOf (entry : amap) : string :=
  match inner entry "source" with
  | None => ""
  | Some source => let path := At source "path" in if bool_decide (path = "") then At source "chart" else path
  end.

Definition operationInitiatorOf (state : amap) : string * bool :=
  match inner state "operation" with None => ("", false) | Some operation => initiatorOf operation end.

Definition operationRevisionOf (state : amap) : string :=
  match inner state "operation" with
  | None => ""
  | Some operation => match inner operation "sync" with None => "" | Some sync => At sync "revision" end
  end.

Section views.
Context {U : Type} `{!Unstructured U} `{!Described U} `{!Editable U} {Tm : RFC3339} {Wd : Wording}.

(** ** dashboard.go *)

(** [entry[field].(string)] *)
Definition named_source (field : string) (raw : any) : option string :=
  entry ← asMap (Some raw); value ← asString (aget entry field); if bool_decide (value <> "") then Some value else None.

Definition sourceOf (item : U) (field : string) : string :=
  let single := UString item ["spec"; "source"; field] in
  if bool_decide (single <> "") then single else default "" (head (omap (named_source field) (USlice item ["spec"; "sources"]))).

Definition revisionOf (item : U) : string :=
  let revision := UString item ["status"; "sync"; "revision"] in
  if bool_decide (revision <> "") then revision else sourceOf item "targetRevision".

Definition pathOf (item : U) : string := let path := sourceOf item "path" in if bool_decide (path <> "") then path else sourceOf item "chart".

Definition destinationOf (item : U) : string :=
  let namespace := UString item ["spec"; "destination"; "namespace"] in
  let server := firstSet [UString item ["spec"; "destination"; "name"]; UString item ["spec"; "destination"; "server"]] in
  if bool_decide (namespace = "") then server else if bool_decide (server = "") then namespace else server +s+ " " +s+ namespace.

Definition messageOf (item : U) : string :=
  firstSet [UString item ["status"; "health"; "message"]; UString item ["status"; "operationState"; "message"]].

Definition ownerOf (item : U) : string :=
  match List.find (fun '(kind, _, _) => bool_decide (kind = "ApplicationSet")) (GetOwnerReferences item) with
  | Some (_, name, _) => name
  | None =>
      let tracked := Inspect.of_map (GetLabels item) trackingLabel in
      if bool_decide (tracked <> "") && bool_decide (tracked <> GetName item) then tracked
      else fromTrackingID (Inspect.of_map (GetAnnotations item) trackingAnnotation) (GetName item)
  end.

(** ** detail.go *)

Definition automated (app : U) : option amap := UMap app ["spec"; "syncPolicy"; "automated"].

Definition syncModeOf (app : U) : string :=
  match automated app with
  | None => SyncModeManual
  | Some _ => if Argocd.AutoSyncing app then SyncModeAuto else SyncModeSuspended
  end.

Definition policyOf (app : U) : string :=
  match automated app with
  | None => ""
  | Some automated =>
      let on := (if flag automated "prune" then ["prune"] else []) ++ (if flag automated "selfHeal" then ["self-heal"] else []) in
      if (zlen on =? 0)%Z then "neither prune nor self-heal" else Join ", " on
  end.

Definition automationOf (item : U) (desc : ResourceDescriptor) : string :=
  if bool_decide (rd_Resource desc <> applications) then ""
  else if bool_decide (policyOf item = "") then syncModeOf item
  else syncModeOf item +s+ " · " +s+ policyOf item.

(** The layout of the creation time is RFC 3339 of UTC. *)
Definition created (item : U) : string := FormatTime (default zeroTime (CreatedOf item)).

Definition appOf (item : U) (desc : ResourceDescriptor) : ArgoApp :=
  MkArgoApp (rd_Kind desc) (automationOf item desc) (rd_Group desc) (rd_Version desc) (rd_Resource desc) (GetName item) (GetNamespace item)
    (UString item ["spec"; "project"]) (UString item ["status"; "sync"; "status"]) (UString item ["status"; "health"; "status"])
    (revisionOf item) (sourceOf item "repoURL") (pathOf item) (destinationOf item) (messageOf item) (ownerOf item) (created item).

Definition lister : Type := ResourceDescriptor -> result string (list U).

Record lists := MkLists { apps : list ArgoApp; sets : list ArgoApp; projects : list ArgoApp; failures : Listerr.Collector }.

(** The loop of [Build]. *)
Definition collect (list_ : lister) (st : lists) (desc : ResourceDescriptor) : lists :=
  match list_ desc with
  | Err e => MkLists (apps st) (sets st) (projects st) (Listerr.Record_ (failures st) (FluxViews.groupResource desc) (Some e))
  | Ok found =>
      let rows := map (fun item => appOf item desc) found in
      let noted := Listerr.Record_ (failures st) (FluxViews.groupResource desc) None in
      if bool_decide (rd_Resource desc = applications) then MkLists (apps st ++ rows) (sets st) (projects st) noted
      else if bool_decide (rd_Resource desc = applicationSets) then MkLists (apps st) (sets st ++ rows) (projects st) noted
      else MkLists (apps st) (sets st) (projects st ++ rows) noted
  end.

Definition Build (list_ : lister) (descs : list ResourceDescriptor) : ArgoDashboard :=
  match wanted descs with
  | [] => MkArgoDashboard [] [] [] ""
  | types =>
      let st := foldl (collect list_) (MkLists [] [] [] Listerr.New) types in
      let sets := sort_by byName (sets st) in
      MkArgoDashboard (withParents (sort_by byName (apps st)) sets) sets (sort_by byName (projects st)) (Listerr.Message (failures st))
  end.

Definition sourceOfApp (app : U) : GitopsSource :=
  MkGitopsSource (sourceOf app "repoURL") (pathOf app) (sourceOf app "targetRevision") (destinationOf app) (UString app ["spec"; "project"])
    (syncModeOf app) (policyOf app).

Definition syncedAtOf (app : U) : string :=
  firstSet [UString app ["status"; "operationState"; "finishedAt"]; UString app ["status"; "reconciledAt"]].

Definition stateOfApp (app : U) : GitopsState :=
  MkGitopsState (UString app ["status"; "sync"; "status"]) (UString app ["status"; "health"; "status"]) (revisionOf app) (created app)
    (syncedAtOf app) (messageOf app).

Definition resourceEntry (entry : amap) : option GitopsResource :=
  let kind := At entry "kind" in
  let name := At entry "name" in
  if bool_decide (kind = "") || bool_decide (name = "") then None
  else Some (bare (At entry "group") (At entry "version") kind name (At entry "namespace") (At entry "status") (healthOf entry)
    (healthMessageOf entry)).

Definition resourcesOfApp (app : U) : list GitopsResource := omap resourceEntry (entriesOf (USlice app ["status"; "resources"])).

Definition historyRow (entry : amap) : option GitopsDeployment :=
  id ← asInt (aget entry "id");
  let '(who, automated) := initiatorOf entry in
  Some (MkGitopsDeployment id (At entry "revision") (sourceLabelOf entry) (At entry "deployStartedAt") (At entry "deployedAt") who automated).

Definition historyOfApp (app : U) : list GitopsDeployment := omap historyRow (entriesOf (USlice app ["status"; "history"])).

Definition operationOfApp (app : U) : option GitopsOperation :=
  match UMap app ["status"; "operationState"] with
  | None => None
  | Some state =>
      let phase := At state "phase" in
      if bool_decide (phase = "") then None
      else
        let message := At state "message" in
        Some (MkGitopsOperation phase (bool_decide (phase = Argocd.runningPhase) || bool_decide (phase = Argocd.terminatingPhase)) message
          (Faults.Cause message) (operationRevisionOf state) (At state "startedAt") (At state "finishedAt") (operationInitiatorOf state).1)
  end.

(** ** diagnose.go *)

Definition terminatingIssue (app : U) : list GitopsIssue :=
  if Deleting app then [MkGitopsIssue SeverityLow "This application is being deleted" (heldBy (GetFinalizers app)) ""] else [].

Definition conditionIssue (entry : amap) : option GitopsIssue :=
  let kind := At entry "type" in
  if bool_decide (kind = "") then None else Some (MkGitopsIssue (severityOf kind) (At entry "message") (adviceFor kind) kind).

Definition conditionIssues (app : U) : list GitopsIssue := omap conditionIssue (entriesOf (USlice app ["status"; "conditions"])).

Definition phaseOf (app : U) : string := UString app ["status"; "operationState"; "phase"].
Definition blamed (app : U) : string := UString app ["status"; "operationState"; "message"].

Definition operationIssue (app : U) : list GitopsIssue :=
  if contains [""; succeededPhase; Argocd.runningPhase] (phaseOf app) then []
  else [MkGitopsIssue SeverityHigh ("The last operation " +s+ ToLower (phaseOf app)) (withCause (blamed app)) "operation"].

Definition driftIssues (app : U) : list GitopsIssue :=
  if bool_decide (UString app ["status"; "sync"; "status"] <> outOfSync) then []
  else if negb (Argocd.AutoSyncing app) then
    [MkGitopsIssue SeverityLow "Nothing will reconcile this" "auto-sync is off; nothing changes until someone syncs" "drift"]
  else if bool_decide (phaseOf app <> succeededPhase) then []
  else [MkGitopsIssue SeverityLow "Synced, and out of sync again"
    "the last sync succeeded and auto-sync is on, so something rewrites these fields after every apply: a mutating webhook, a second controller, or a migration"
    "drift"].

Definition subjectOf (one : GitopsResource) : string := gr_Kind one +s+ "/" +s+ gr_Name one.

Definition troubled (one : GitopsResource) : bool := bool_decide (gr_Health one = degraded) || bool_decide (gr_Health one = missing).

Definition healthIssue (one : GitopsResource) : GitopsIssue :=
  MkGitopsIssue (healthSeverity (gr_Health one)) (subjectOf one +s+ " is " +s+ ToLower (gr_Health one)) (gr_Message one) (subjectOf one).

(** The loop of [healthIssues]. *)
Fixpoint health_from (message : string) (seen : list string) (resources : list GitopsResource) : list GitopsIssue :=
  match resources with
  | [] => []
  | one :: rest =>
      if negb (troubled one) || contains seen (subjectOf one) then health_from message seen rest
      else
        (if str_contains message (gr_Name one) then [] else [healthIssue one]) ++ health_from message (subjectOf one :: seen) rest
  end.

Definition healthIssues (app : U) : list GitopsIssue := health_from (blamed app) [] (resourcesOfApp app).

Definition issuesOfApp (app : U) : list GitopsIssue :=
  terminatingIssue app ++ conditionIssues app ++ operationIssue app ++ driftIssues app ++ healthIssues app.

Definition Detail (app : U) : GitopsApp :=
  MkGitopsApp noRef ControllerArgo (Deleting app) (GetKind app) (GetName app) (GetNamespace app) (sourceOfApp app) (stateOfApp app)
    (issuesOfApp app) (resourcesOfApp app) (historyOfApp app) (operationOfApp app) "".
End views.

(** ** What is told of the applications *)

(** An application's owner is one that is shown; nothing else of it changes. *)
Lemma withParents_shown apps sets app :
  app ∈ withParents apps sets -> exists was, was ∈ apps /\ app = with_owner was (aa_Owner app) /\
    (aa_Owner app = aa_Owner was /\ aa_Owner was ∈ map aa_Name apps ++ map aa_Name sets \/
     aa_Owner app = "" /\ aa_Owner was ∉ map aa_Name apps ++ map aa_Name sets).
Proof.
  intros (was & -> & Hin)%map_elem. exists was. split; [done |]. destruct (contains _ (aa_Owner was)) eqn:Hc; cbn [negb].
  - apply contains_spec in Hc. split; [by destruct was | by left].
  - split; [by destruct was |]. right. split; [done |]. intros H%contains_spec. congruence.
Qed.

Section told.
Context {Wd : Wording}.

Lemma health_from_sound message seen resources issue :
  issue ∈ health_from message seen resources ->
  exists one, one ∈ resources /\ issue = healthIssue one /\ troubled one = true /\ (subjectOf one ∉ seen) /\ str_contains message (gr_Name one) = false.
Proof.
  revert seen. induction resources as [| one rest IH]; intros seen; [by intros ?%elem_of_nil |]. cbn.
  destruct (troubled one) eqn:Ht; cbn [negb orb].
  2: { intros (other & Hin & H)%IH. exists other. split; [by apply list_elem_of_further | done]. }
  destruct (contains seen (subjectOf one)) eqn:Hs.
  { intros (other & Hin & H)%IH. exists other. split; [by apply list_elem_of_further | done]. }
  intros [Hhere | (other & Hin & -> & Ho & Hn & Hm)%IH]%elem_of_app.
  - destruct (str_contains message (gr_Name one)) eqn:Hm; [by apply elem_of_nil in Hhere |]. apply list_elem_of_singleton in Hhere as ->.
    exists one. split; [apply list_elem_of_here | split; [done | split; [done | split; [| done]]]]. intros H%contains_spec. congruence.
  - exists other. split; [by apply list_elem_of_further | split; [done | split; [done | split; [| done]]]].
    intros H. apply Hn. by apply list_elem_of_further.
Qed.

Lemma health_from_complete message seen resources one :
  one ∈ resources -> troubled one = true -> subjectOf one ∉ seen ->
  exists first, first ∈ resources /\ troubled first = true /\ subjectOf first = subjectOf one /\
    (str_contains message (gr_Name first) = true \/ healthIssue first ∈ health_from message seen resources).
Proof.
  revert seen. induction resources as [| head rest IH]; intros seen; [by intros ?%elem_of_nil |]. intros Hin Ht Hs. cbn.
  destruct (decide (troubled head = true /\ subjectOf head = subjectOf one)) as [[Hth Hsh] | Hno].
  - exists head. split; [apply list_elem_of_here | split; [done | split; [done |]]]. rewrite Hth. cbn [negb orb].
    assert (contains seen (subjectOf head) = false) as -> by (rewrite Hsh; apply not_true_iff_false; by intros ?%contains_spec).
    destruct (str_contains message (gr_Name head)) eqn:Hm; [by left | right]. apply elem_of_app. left. by apply list_elem_of_singleton.
  - apply elem_of_cons in Hin as [<- | Hin]; [by destruct Hno |].
    destruct (negb (troubled head) || contains seen (subjectOf head)) eqn:Hskip.
    + destruct (IH seen Hin Ht Hs) as (first & Hf & ? & ? & Hor). exists first. split; [by apply list_elem_of_further | done].
    + apply orb_false_iff in Hskip as [Hth%negb_false_iff _].
      destruct (IH (subjectOf head :: seen) Hin Ht) as (first & Hf & ? & ? & Hor).
      { intros [Heq | Hx]%elem_of_cons; [by destruct Hno | done]. }
      exists first. split; [by apply list_elem_of_further | split; [done | split; [done |]]]. destruct Hor as [| Hor]; [by left | right].
      apply elem_of_app. by right.
Qed.

Lemma health_from_once message seen resources : NoDup (map is_Subject (health_from message seen resources)).
Proof.
  revert seen. induction resources as [| one rest IH]; intros seen; [constructor |]. cbn. destruct (_ || _); [done |].
  destruct (str_contains message (gr_Name one)); [apply IH |]. cbn. apply list.NoDup_cons. split; [| apply IH].
  intros (issue & Heq & Hin)%map_elem. apply health_from_sound in Hin as (other & _ & -> & _ & Hn & _). cbn in Heq. apply Hn. rewrite Heq. apply list_elem_of_here.
Qed.

Context {U : Type} `{!Unstructured U}.

(** A degraded or missing resource is told once for each kind and name, unless
    the message of the last operation already has its name somewhere. *)
Lemma healthIssues_exact (app : U) :
  NoDup (map is_Subject (healthIssues app)) /\
  (forall issue, issue ∈ healthIssues app -> exists one, one ∈ resourcesOfApp app /\ troubled one = true /\ issue = healthIssue one) /\
  (forall one, one ∈ resourcesOfApp app -> troubled one = true ->
     exists first, first ∈ resourcesOfApp app /\ troubled first = true /\ subjectOf first = subjectOf one /\
       (str_contains (blamed app) (gr_Name first) = true \/ healthIssue first ∈ healthIssues app)).
Proof.
  split; [apply health_from_once | split].
  - intros issue (one & ? & ? & ? & _)%health_from_sound. by exists one.
  - intros one Hin Ht. apply health_from_complete; [done | done |]. by intros ?%elem_of_nil.
Qed.
End told.

(** ** Troubles that are left out *)

Definition plain_words : Wording := {| ToLower := Config.ToLower; RuneCount s := Z.of_nat (String.length s); DurationString d := "" |}.

Definition sick (kind namespace name : string) : any :=
  AMap [("kind", AString kind); ("name", AString name); ("namespace", AString namespace); ("health", AMap [("status", AString "Degraded")])].

Definition application (message : string) (resources : list any) : Doc :=
  MkDoc [("status", AMap [("operationState", AMap [("phase", AString "Failed"); ("message", AString message)]); ("resources", ASlice resources)])].

(** A degraded deployment named "app" is not told because the word "applied"
    has its name in it. *)
Example health_hidden_by_a_word :
  healthIssues (Wd := plain_words) (application "one or more objects failed to be applied" [sick "Deployment" "shop" "app"]) = [].
Proof. by vm_compute. Qed.

(** Of two resources of one kind and name in different namespaces only the
    first is told. *)
Example health_of_a_namespace_left_out :
  let row namespace := bare "" "" "Deployment" "app" namespace "" "Degraded" "" in
  let app := application "" [sick "Deployment" "blue" "app"; sick "Deployment" "green" "app"] in
  resourcesOfApp app = [row "blue"; row "green"] /\
  healthIssues (Wd := plain_words) app = [healthIssue (Wd := plain_words) (row "blue")].
Proof. by vm_compute. Qed.
End ArgoViews.
