(* ===== verification/Gitops.v ===== *)
(** internal/gitops: the drift of an object from what was declared, who took
    over its fields, and the graph of sources and appliers.  encoding/json and
    %v are the class [JSONText]; what the API server answers is an argument. *)

From S2P Require Import Prelude Api Text Unstr Faults Kube Inspect Numbers Topology Applied FluxViews.

Class JSONText := {
  DecodeObject : string -> option amap;
  EncodeAny : any -> option string;
  Printed : any -> string;
}.

(** The managed fields of an object: manager, subresource and raw fields; and
    the version of its kind. *)
Class Managed (U : Type) := {
  GetManagedFields : U -> list (string * string * option string);
  VersionOf : U -> string;
}.

Module Gitops.
Import Api Text Unstr Applied.

Definition maxDriftFields : Z := 20.
Definition noDeclaration : string :=
  "no last-applied-configuration on this object, so there is nothing declared to compare; ServerSideApply=true never writes one".
Definition lastAppliedAnnotation : string := "kubectl.kubernetes.io/last-applied-configuration".
Definition ownershipNote : string :=
  "this object is applied server-side, so there is no declared copy to diff; these are the fields another writer has taken over".
Definition heldNote : string := "no spec field is held by anything other than ".
Definition ignoredPaths : list string :=
  ["metadata.creationTimestamp"; "apiVersion"; "kind"; "metadata.name"; "metadata.namespace"; "status"].

(** ** drift.go *)

Section drift.
Context {Js : JSONText}.

Definition text (v : any) : string :=
  match v with
  | ANil => "not set"
  | AString s => s
  | ABool b => if b then "true" else "false"
  | AInt n => Itoa n
  | AFloat bits => Numbers.FormatFloat bits
  | _ => match EncodeAny v with Some encoded => encoded | None => Printed v end
  end.

Definition entries (count : Z) : string := if (count =? 1)%Z then "1 entry" else Itoa count +s+ " entries".

Definition nameOf (entry : amap) : string := match asString (aget entry "name") with Some name => name | None => "" end.

Definition hasName (raw : any) : bool := match raw with AMap entry => bool_decide (nameOf entry <> "") | _ => false end.

Definition named (l : list any) : bool := if (zlen l =? 0)%Z then false else forallb hasName l.

(** [compareByName]'s map: the last entry of a name. *)
Definition byName (live : list any) (name : string) : option any :=
  List.find (fun raw => match raw with AMap entry => bool_decide (nameOf entry = name) | _ => false end) (rev live).

Definition under (prefix key : string) : string := if bool_decide (prefix <> "") then prefix +s+ "." +s+ key else key.
Definition at_ (path inner : string) : string := path +s+ "[" +s+ inner +s+ "]".

Definition leaf (want got : any) (path : string) : list FieldDrift :=
  if bool_decide (text want = text got) then [] else [MkFieldDrift path (text want) (text got)].

(** [compare] of a present key's values with [lists] set, and [compareEntry]
    without: there only maps are gone into. *)
Fixpoint differences (lists : bool) (want got : any) (path : string) {struct want} : list FieldDrift :=
  match want, got with
  | AMap declared, AMap live =>
      (fix keys (l : list (string * any)) : list FieldDrift :=
         match l with
         | [] => []
         | (key, value) :: l =>
             (let here := under path key in
              if contains ignoredPaths here then []
              else match aget live key with
                   | None => [MkFieldDrift here (text value) "not set"]
                   | Some found => differences true value found here
                   end) ++ keys l
         end) declared
  | ASlice declared, ASlice live =>
      if negb lists then leaf want got path
      else if named declared then
        (fix named_ (l : list any) : list FieldDrift :=
           match l with
           | [] => []
           | raw :: l =>
               match raw with
               | AMap entry =>
                   let here := at_ path (nameOf entry) in
                   match byName live (nameOf entry) with
                   | None => [MkFieldDrift here (text raw) "not set"]
                   | Some found => differences false raw found here
                   end
               | _ => []
               end ++ named_ l
           end) declared
      else if negb (zlen declared =? zlen live)%Z then [MkFieldDrift path (entries (zlen declared)) (entries (zlen live))]
      else
        (fix pairs (l k : list any) (i : Z) : list FieldDrift :=
           match l, k with
           | raw :: l, found :: k => differences false raw found (at_ path (Itoa i)) ++ pairs l k (i + 1)%Z
           | _, _ => []
           end) declared live 0%Z
  | _, _ => leaf want got path
  end.

Definition compare (declared live : amap) : list FieldDrift := differences true (AMap declared) (AMap live) "".

Section object.
Context {U : Type} `{!Unstructured U} `{!Described U} `{!Editable U} `{!Managed U}.

Definition declarationOf (live : U) : option amap :=
  let raw := Inspect.of_map (GetAnnotations live) lastAppliedAnnotation in
  if bool_decide (raw = "") then None else DecodeObject raw.

Definition byPath : FieldDrift -> FieldDrift -> Z := cmp_on fd_Path str_compare.

Definition Drift (live : U) : list FieldDrift * string :=
  match declarationOf live with
  | None => ([], noDeclaration)
  | Some declared =>
      let found := sort_by byPath (compare declared (ObjectOf live)) in
      if (zlen found <=? maxDriftFields)%Z then (found, "")
      else (ztake maxDriftFields found, Itoa (zlen found - maxDriftFields) +s+ " more fields differ")
  end.

(** ** ownership.go *)

Definition gitopsManagers (controller : string) : list string :=
  if bool_decide (controller = ControllerArgo) then ["argocd-controller"; "argocd-application-controller"]
  else if bool_decide (controller = ControllerFlux) then ["kustomize-controller"; "helm-controller"] else [].

Definition gitopsOwner (fields : list (string * string * option string)) (controller : string) : option string :=
  (fun entry => entry.1.1) <$>
    List.find (fun entry => contains (gitopsManagers controller) entry.1.1 && bool_decide (entry.1.2 = "")) fields.

Definition compact (entry : amap) : string :=
  Join "," (sort_by str_compare (map (fun '(key, value) => key +s+ "=" +s+ Printed value) entry)).

Definition keyName (raw : string) : string :=
  match DecodeObject raw with
  | None => raw
  | Some entry => match asString (aget entry "name") with Some name => name | None => compact entry end
  end.

(** [strings.Trim(s, quote)] *)
Definition trimQuotes (s : string) : string :=
  let q := String (Ascii.ascii_of_N 34) EmptyString in
  str_rev (trim_left (String.length s) [q] (str_rev (trim_left (String.length s) [q] s))).

Definition stepOf (key : string) : string :=
  match strip_prefix "f:" key with
  | Some name => "." +s+ name
  | None =>
      match strip_prefix "k:" key with
      | Some item => "[" +s+ keyName item +s+ "]"
      | None =>
          match strip_prefix "v:" key with
          | Some value => "[" +s+ trimQuotes value +s+ "]"
          | None => match strip_prefix "i:" key with Some index => "[" +s+ index +s+ "]" | None => "." +s+ key end
          end
      end
  end.

(** [walkFields] of what is at a path. *)
Fixpoint walkFields (raw : any) (path : string) {struct raw} : list string :=
  match raw with
  | AMap ((_ :: _) as fields) =>
      (fix keys (l : list (string * any)) : list string :=
         match l with [] => [] | (key, value) :: l => walkFields value (path +s+ stepOf key) ++ keys l end) fields
  | _ => [path]
  end.

Definition specPathsOf (raw : option string) : gset string :=
  match raw with
  | None => ∅
  | Some raw =>
      match DecodeObject raw with
      | None => ∅
      | Some fields => match asMap (aget fields "f:spec") with None => ∅ | Some spec => list_to_set (walkFields (AMap spec) "spec") end
      end
  end.

Definition sorted_ (paths : gset string) : list string := sort_by str_compare (elements paths).

Definition takenFrom (fields : list (string * string * option string)) (owner : string) : list FieldDrift :=
  (foldl (fun '(out, seen) '(manager, subresource, raw) =>
    if bool_decide (manager = owner) || bool_decide (subresource <> "") then (out, seen)
    else
      foldl (fun '(out, seen) path =>
        if bool_decide (path ∈ seen) then (out, seen) else (out ++ [MkFieldDrift path owner manager], {[path]} ∪ seen))
        (out, seen) (sorted_ (specPathsOf raw)))
    ([], (∅ : gset string)) fields).1.

Definition Ownership (live : U) (controller : string) : list FieldDrift * string :=
  match gitopsOwner (GetManagedFields live) controller with
  | None => ([], noDeclaration)
  | Some owner =>
      let taken := takenFrom (GetManagedFields live) owner in
      if (zlen taken =? 0)%Z then ([], heldNote +s+ owner)
      else
        let taken := sort_by byPath taken in
        if (zlen taken <=? maxDriftFields)%Z then (taken, ownershipNote)
        else (ztake maxDriftFields taken, ownershipNote +s+ ", and " +s+ Itoa (zlen taken - maxDriftFields) +s+ " more")
  end.

End object.

(** ** What drift tells *)

(** What the live object must still carry, said of the two documents alone:
    where in the object a map is, of which some keys are not the declaration's
    to say, *)
Inductive site := Root | Meta | Inside.

Definition passed (s : site) (key : string) : bool :=
  match s with
  | Root => bool_decide (key = "apiVersion" \/ key = "kind" \/ key = "status")
  | Meta => bool_decide (key = "name" \/ key = "namespace" \/ key = "creationTimestamp")
  | Inside => false
  end.

Definition into (s : site) (key : string) : site :=
  match s with Root => if bool_decide (key = "metadata") then Meta else Inside | _ => Inside end.

(** an entry of a list that goes by a name, *)
Definition called (name : string) (one : any) : Prop :=
  exists entry, one = AMap entry /\ aget entry "name" = Some (AString name) /\ name <> "".

(** two values that are not gone into: of one kind, they are the same value, a
    number the same decimal; of two kinds, they are written alike. *)
Definition same (want got : any) : Prop :=
  match want, got with
  | ANil, ANil => True
  | ABool a, ABool b => a = b
  | AString a, AString b => a = b
  | AInt a, AInt b => a = b
  | AInt a, AFloat b => Itoa a = Numbers.FormatFloat b
  | AFloat a, AInt b => Numbers.FormatFloat a = Itoa b
  | AFloat a, AFloat b => Numbers.FormatFloat a = Numbers.FormatFloat b
  | ASlice _, ASlice _ =>
      match EncodeAny want, EncodeAny got with Some a, Some b => a = b | _, _ => text want = text got end
  | _, _ => text want = text got
  end.

(** The live value carries what is declared: each key of a map, unless it is
    passed over; each entry of a list whose entries all go by names, under its
    name; the entries of another list one for one.  A list right in a list is
    not gone into ([lists] is unset in an entry). *)
Inductive carried : site -> bool -> any -> any -> Prop :=
| carried_map s lists declared live :
    (forall key value, (key, value) ∈ declared -> passed s key = false ->
       exists found, aget live key = Some found /\ carried (into s key) true value found) ->
    carried s lists (AMap declared) (AMap live)
| carried_named s declared live :
    declared <> [] -> (forall one, one ∈ declared -> exists name, called name one) ->
    (forall one name, one ∈ declared -> called name one -> exists found, found ∈ live /\ called name found /\ carried Inside false one found) ->
    carried s true (ASlice declared) (ASlice live)
| carried_list s declared live :
    (declared <> [] -> exists one, one ∈ declared /\ forall name, ~ called name one) -> length declared = length live ->
    (forall i want got, declared !! i = Some want -> live !! i = Some got -> carried Inside false want got) ->
    carried s true (ASlice declared) (ASlice live)
| carried_value s lists want got :
    (forall declared live, want = AMap declared -> got = AMap live -> False) ->
    (forall declared live, lists = true -> want = ASlice declared -> got = ASlice live -> False) ->
    same want got -> carried s lists want got.

(** In no list of a document do two entries go by one name. *)
Definition nameIn (one : any) : option string :=
  match one with
  | AMap entry => match aget entry "name" with Some (AString name) => if bool_decide (name = "") then None else Some name | _ => None end
  | _ => None
  end.

Fixpoint orderly (v : any) : bool :=
  match v with
  | ASlice l => forallb orderly l && bool_decide (NoDup (omap nameIn l))
  | AMap m => forallb (fun bound => orderly bound.2) m
  | _ => true
  end.

(** The characters a path is put together with. *)
Definition dot : Ascii.ascii := Ascii.ascii_of_N 46.
Definition opening : Ascii.ascii := Ascii.ascii_of_N 91.

(** A field's name that a path can be read back from. *)
Fixpoint dotless (s : string) : bool :=
  match s with String c s => negb (bool_decide (c = dot)) && dotless s | EmptyString => true end.
Definition plain (key : string) : bool := bool_decide (key <> "") && dotless key.

(** Induction on what a document holds. *)
Fixpoint any_deep (P : any -> Prop) (Hnil : P ANil) (Hbool : forall b, P (ABool b)) (Hint : forall i, P (AInt i)) (Hfloat : forall b, P (AFloat b))
    (Hstring : forall s, P (AString s)) (Hslice : forall l, (forall v, v ∈ l -> P v) -> P (ASlice l))
    (Hmap : forall m, (forall k v, (k, v) ∈ m -> P v) -> P (AMap m)) (v : any) : P v :=
  let deep := any_deep P Hnil Hbool Hint Hfloat Hstring Hslice Hmap in
  match v with
  | ANil => Hnil
  | ABool b => Hbool b
  | AInt i => Hint i
  | AFloat b => Hfloat b
  | AString s => Hstring s
  | ASlice l =>
      Hslice l
        ((fix each (l : list any) : forall v, v ∈ l -> P v :=
            match l with
            | [] => fun v Hv => match not_elem_of_nil v Hv with end
            | w :: l => fun v Hv => match proj1 (elem_of_cons l v w) Hv with or_introl Heq => eq_ind_r P (deep w) Heq | or_intror Hin => each l v Hin end
            end) l)
  | AMap m =>
      Hmap m
        ((fix each (m : list (string * any)) : forall k v, (k, v) ∈ m -> P v :=
            match m with
            | [] => fun k v Hv => match not_elem_of_nil (k, v) Hv with end
            | (j, w) :: m => fun k v Hv =>
                match proj1 (elem_of_cons m (k, v) (j, w)) Hv with
                | or_introl Heq => eq_ind_r P (deep w) (f_equal snd Heq)
                | or_intror Hin => each m k v Hin
                end
            end) m)
  end.

Lemma leaf_nil want got path : leaf want got path = [] <-> text want = text got.
Proof. unfold leaf. by case_bool_decide. Qed.

Lemma map_nil (body : string -> any -> list FieldDrift) (l : list (string * any)) :
  (fix keys (l : list (string * any)) : list FieldDrift := match l with [] => [] | (key, value) :: l => body key value ++ keys l end) l = [] <->
  forall key value, (key, value) ∈ l -> body key value = [].
Proof.
  induction l as [| [k v] l IH].
  - split; [by intros _ key value []%elem_of_nil | done].
  - rewrite app_nil, IH. split.
    + intros [Hb Hl] key value [[= -> ->] | Hin]%elem_of_cons; [done | by apply Hl].
    + intros Hl. split; [apply Hl, list_elem_of_here |]. intros key value Hin. by apply Hl, list_elem_of_further.
Qed.

Lemma list_nil (body : any -> list FieldDrift) (l : list any) :
  (fix each (l : list any) : list FieldDrift := match l with [] => [] | raw :: l => body raw ++ each l end) l = [] <-> forall raw, raw ∈ l -> body raw = [].
Proof.
  induction l as [| v l IH].
  - split; [by intros _ raw []%elem_of_nil | done].
  - rewrite app_nil, IH. split.
    + intros [Hb Hl] raw [-> | Hin]%elem_of_cons; [done | by apply Hl].
    + intros Hl. split; [apply Hl, list_elem_of_here |]. intros raw Hin. by apply Hl, list_elem_of_further.
Qed.

Lemma pairs_nil (body : any -> any -> Z -> list FieldDrift) (l k : list any) n :
  length l = length k ->
  (fix pairs (l k : list any) (i : Z) : list FieldDrift :=
     match l, k with raw :: l, found :: k => body raw found i ++ pairs l k (i + 1)%Z | _, _ => [] end) l k n = [] <->
  forall i want got, l !! i = Some want -> k !! i = Some got -> body want got (n + Z.of_nat i)%Z = [].
Proof.
  revert k n. induction l as [| v l IH]; intros [| w k] n Hlen; try done. rewrite app_nil, IH by (cbn in Hlen; lia). split.
  - intros [Hb Hl] [| i] want got Hi Hk.
    + injection Hi as <-. injection Hk as <-. by rewrite Z.add_0_r.
    + specialize (Hl i want got Hi Hk). by replace (n + Z.of_nat (S i))%Z with (n + 1 + Z.of_nat i)%Z by lia.
  - intros Hl. split; [specialize (Hl 0 v w eq_refl eq_refl); by rewrite Z.add_0_r in Hl |]. intros i want got Hi Hk. specialize (Hl (S i) want got Hi Hk).
    by replace (n + 1 + Z.of_nat i)%Z with (n + Z.of_nat (S i))%Z by lia.
Qed.

(** *** The paths of a document *)

Lemma first_dot a b x y : dotless a = true -> dotless b = true -> a +s+ String dot x = b +s+ String dot y -> a = b.
Proof.
  revert b. induction a as [| c a IH]; intros [| d b] Ha Hb Heq; cbn in *; try done.
  - injection Heq as <- _. by destruct (bool_decide_reflect (dot = dot)).
  - injection Heq as -> _. by destruct (bool_decide_reflect (dot = dot)).
  - injection Heq as <- Heq. apply andb_prop in Ha as [_ Ha], Hb as [_ Hb]. f_equal. by eapply IH.
Qed.

Lemma dotted a x : dotless (a +s+ String dot x) = false.
Proof. induction a as [| c a IH]; [done |]. change (negb (bool_decide (c = dot)) && dotless (a +s+ String dot x) = false). by rewrite IH, andb_false_r. Qed.

Fixpoint bracketed (s : string) : bool :=
  match s with String c s => bool_decide (c = opening) || bracketed s | EmptyString => false end.

Lemma bracket a x : bracketed (a +s+ String opening x) = true.
Proof. induction a as [| c a IH]; [done |]. change (bool_decide (c = opening) || bracketed (a +s+ String opening x) = true). by rewrite IH, orb_true_r. Qed.

Lemma unbracketed path : path ∈ ignoredPaths -> bracketed path = false.
Proof. unfold ignoredPaths. rewrite !elem_of_cons, elem_of_nil. by intros [-> | [-> | [-> | [-> | [-> | [-> |]]]]]]. Qed.

Lemma no_bracket a x : a +s+ String opening x ∉ ignoredPaths.
Proof. intros Hb%unbracketed. by rewrite bracket in Hb. Qed.

(** A path none of whose extensions is passed over. *)
Definition deep (path : string) : Prop := path <> "" /\ forall c rest, c = dot \/ c = opening -> path +s+ String c rest ∉ ignoredPaths.

Lemma append_nonempty a b : a <> "" -> a +s+ b <> "".
Proof. by destruct a. Qed.

Definition at_site (s : site) (path : string) : Prop :=
  match s with Root => path = "" | Meta => path = "metadata" | Inside => deep path end.

Lemma dot_first key rest : plain key = true -> key +s+ String dot rest ∈ ignoredPaths -> key = "metadata".
Proof.
  intros Hk Hin. apply andb_prop in Hk as [_ Hk]. unfold ignoredPaths in Hin. rewrite !elem_of_cons, elem_of_nil in Hin.
  destruct Hin as [Heq | [Heq | [Heq | [Heq | [Heq | [Heq | []]]]]]].
  1: by eapply (first_dot key "metadata" rest "creationTimestamp").
  3: by eapply (first_dot key "metadata" rest "name").
  3: by eapply (first_dot key "metadata" rest "namespace").
  all: by assert (Hd := dotted key rest); rewrite Heq in Hd.
Qed.

Lemma deep_entry path inner : deep (at_ path inner).
Proof.
  unfold at_. split.
  - by destruct path.
  - intros c rest _. rewrite append_assoc. apply no_bracket.
Qed.

Lemma under_nonempty path key : path <> "" -> under path key = path +s+ String dot key.
Proof. intros Hp. unfold under. by rewrite bool_decide_true. Qed.

Lemma ignored_at s path key : at_site s path -> (s = Root -> plain key = true) -> contains ignoredPaths (under path key) = passed s key.
Proof.
  intros Hs Hk. apply eq_bool_prop_intro. rewrite !Is_true_true, contains_spec. destruct s; cbn [at_site passed] in *.
  - subst path. specialize (Hk eq_refl). change (under "" key) with key. rewrite bool_decide_eq_true. unfold ignoredPaths. rewrite !elem_of_cons, elem_of_nil.
    apply andb_prop in Hk as [_ Hk]. split; [| tauto]. intros [-> | [-> | [-> | [-> | [-> | [-> | []]]]]]]; tauto || done.
  - subst path. change (under "metadata" key) with ("metadata." +s+ key). rewrite bool_decide_eq_true. unfold ignoredPaths. rewrite !elem_of_cons, elem_of_nil. split.
    + intros [[= Heq] | [[=] | [[=] | [[= Heq] | [[= Heq] | [[=] | []]]]]]]; change ("" +s+ key) with key in Heq; subst key; tauto.
    + intros [-> | [-> | ->]]; tauto.
  - destruct Hs as [Hp Hd]. rewrite (under_nonempty _ _ Hp). split; [| done]. intros Hin. exfalso. revert Hin. apply Hd. by left.
Qed.

Lemma site_under s path key : at_site s path -> (s = Root -> plain key = true) -> at_site (into s key) (under path key).
Proof.
  intros Hs Hk. destruct s; cbn [at_site into] in *.
  - subst path. specialize (Hk eq_refl). change (under "" key) with key. case_bool_decide as Hm; [done |]. split.
    + intros ->. done.
    + intros c rest [-> | ->]; [| apply no_bracket]. intros Hin. by apply Hm, (dot_first key rest).
  - subst path. change (under "metadata" key) with ("metadata." +s+ key). split; [done |]. intros c rest [-> | ->]; [| apply no_bracket].
    rewrite append_assoc. assert (dotless (key +s+ String dot rest) = false) as Hd by apply dotted. unfold ignoredPaths. rewrite !elem_of_cons, elem_of_nil.
    intros [[= Heq] | [[=] | [[=] | [[= Heq] | [[= Heq] | [[=] | []]]]]]];
      change ("" +s+ key +s+ String dot rest) with (key +s+ String dot rest) in Heq; by rewrite Heq in Hd.
  - destruct Hs as [Hp Hd]. rewrite (under_nonempty _ _ Hp). split; [by apply append_nonempty |]. intros c rest _. rewrite append_assoc. apply Hd. by left.
Qed.

(** *** Names and values *)

Lemma called_nameIn name one : called name one <-> nameIn one = Some name.
Proof.
  split.
  - intros (entry & -> & Hg & Hn). cbn. rewrite Hg. by rewrite bool_decide_false.
  - destruct one as [| | | | | | entry]; try done. cbn. destruct (aget entry "name") as [[| | | | name' | |] |] eqn:Hg; try done. case_bool_decide; [done |].
    intros [= ->]. by exists entry.
Qed.

Lemma called_nameOf name entry : called name (AMap entry) <-> nameOf entry = name /\ name <> "".
Proof.
  unfold nameOf, asString. split.
  - intros (e & [= <-] & Hg & Hn). by rewrite Hg.
  - intros [Hn Hne]. exists entry. split; [done |]. destruct (aget entry "name") as [[| | | | name' | |] |]; cbn in Hn; subst; done.
Qed.

Lemma hasName_spec one : hasName one = true <-> exists name, called name one.
Proof.
  split.
  - destruct one as [| | | | | | entry]; try done. intros Hn%bool_decide_eq_true. exists (nameOf entry). by apply called_nameOf.
  - intros (name & entry & -> & Hg & Hn). cbn. apply bool_decide_eq_true. unfold nameOf. by rewrite Hg.
Qed.

Lemma named_spec l : named l = true <-> l <> [] /\ forall one, one ∈ l -> exists name, called name one.
Proof.
  unfold named. destruct l as [| v l]; [split; [done | by intros []] |]. replace (zlen (v :: l) =? 0)%Z with false by (symmetry; apply Z.eqb_neq; unfold zlen; cbn; lia).
  rewrite forallb_forall. setoid_rewrite <- list_elem_of_In. setoid_rewrite hasName_spec. naive_solver.
Qed.

Lemma unnamed_spec l : named l = false <-> (l <> [] -> exists one, one ∈ l /\ forall name, ~ called name one).
Proof.
  unfold named. destruct l as [| v l]; [done |]. replace (zlen (v :: l) =? 0)%Z with false by (symmetry; apply Z.eqb_neq; unfold zlen; cbn; lia). split.
  - intros Hf _. apply not_true_iff_false in Hf. rewrite forallb_forall in Hf.
    destruct (decide (Exists (fun one => hasName one = false) (v :: l))) as [Hex | Hno].
    + apply Exists_exists in Hex as (one & Hin & Hone). exists one. split; [by apply list_elem_of_In |]. intros name Hc. assert (hasName one = true) by (apply hasName_spec; eauto). congruence.
    + exfalso. apply Hf. intros one Hin%list_elem_of_In. apply not_false_iff_true. intros Hone. apply Hno, Exists_exists. exists one. split; [by apply list_elem_of_In | done].
  - intros Hex. destruct Hex as (one & Hin & Hone); [done |]. apply not_true_iff_false. rewrite forallb_forall. intros Hall.
    apply list_elem_of_In, Hall, hasName_spec in Hin as [name Hc]. by eapply Hone.
Qed.

Lemma one_of_a_name l a b name : NoDup (omap nameIn l) -> a ∈ l -> b ∈ l -> nameIn a = Some name -> nameIn b = Some name -> a = b.
Proof.
  induction l as [| v l IH]; [by intros _ []%elem_of_nil |]. cbn. intros Hnd Ha Hb Hna Hnb.
  destruct (nameIn v) as [other |] eqn:Hv.
  - apply list.NoDup_cons in Hnd as [Hout Hnd]. apply elem_of_cons in Ha as [-> | Ha], Hb as [-> | Hb]; [done | | | by apply IH].
    + exfalso. apply Hout, list_elem_of_omap. exists b. split; congruence.
    + exfalso. apply Hout, list_elem_of_omap. exists a. split; congruence.
  - apply elem_of_cons in Ha as [-> | Ha], Hb as [-> | Hb]; try congruence. by apply IH.
Qed.

Lemma byName_spec l name found : NoDup (omap nameIn l) -> name <> "" -> byName l name = Some found <-> found ∈ l /\ called name found.
Proof.
  intros Hnd Hne. unfold byName. set (hit := fun raw => match raw with AMap entry => bool_decide (nameOf entry = name) | _ => false end).
  assert (forall one, hit one = true <-> called name one) as His.
  { intros [| | | | | | entry]; cbn; try (split; [done | by intros (? & ? & _)]). rewrite bool_decide_eq_true, called_nameOf. tauto. }
  split.
  - intros Hf. apply find_some in Hf as [Hin Hone]. split; [by apply list_elem_of_In, in_rev | by apply His].
  - intros [Hin Hc]. destruct (List.find hit (rev l)) as [other |] eqn:Hf.
    + apply find_some in Hf as [Hin' Hone]. f_equal. apply in_rev, list_elem_of_In in Hin'. eapply one_of_a_name; [done | done | done | by apply called_nameIn, His | by apply called_nameIn].
    + exfalso. apply list_elem_of_In, in_rev in Hin. pose proof (find_none _ _ Hf _ Hin) as Hno. apply His in Hc. congruence.
Qed.

Lemma text_same want got : (forall declared live, want = AMap declared -> got = AMap live -> False) -> text want = text got <-> same want got.
Proof.
  intros Hno. destruct want, got; cbn [same text]; try done; try (by exfalso; eapply Hno).
  - split; [by destruct b, b0 | by intros ->].
  - split; [apply (inj pretty) | by intros ->].
  - destruct (EncodeAny (ASlice l)), (EncodeAny (ASlice l0)); done.
Qed.

Lemma orderly_entry l v : orderly (ASlice l) = true -> v ∈ l -> orderly v = true.
Proof. intros [Ho _]%andb_prop Hin. rewrite forallb_forall in Ho. by apply Ho, list_elem_of_In. Qed.

Lemma orderly_get m key v : orderly (AMap m) = true -> aget m key = Some v -> orderly v = true.
Proof.
  cbn. induction m as [| [k w] m IH]; [done |]. cbn. intros [Hw Hm]%andb_prop. case_bool_decide; [by intros [= <-] | by apply IH].
Qed.

Lemma leaf_same s lists want got path :
  (forall declared live, want = AMap declared -> got = AMap live -> False) ->
  (forall declared live, lists = true -> want = ASlice declared -> got = ASlice live -> False) ->
  leaf want got path = [] <-> carried s lists want got.
Proof.
  intros Hm Hs. rewrite leaf_nil, text_same by done. split; [by apply carried_value |].
  inversion 1; subst; [by exfalso; eapply Hm | by exfalso; eapply Hs | by exfalso; eapply Hs | done].
Qed.

(** The keys of the object itself can be read back from a path. *)
Definition rooted (s : site) (want : any) : Prop := s = Root -> forall declared, want = AMap declared -> forallb plain declared.*1 = true.

Lemma rooted_inside s key want : rooted (into s key) want.
Proof. unfold rooted, into. destruct s; try done. by case_bool_decide. Qed.

Definition carries_told (want : any) : Prop :=
  forall s lists got path, at_site s path -> orderly got = true -> rooted s want -> differences lists want got path = [] <-> carried s lists want got.

Lemma told_map declared : (forall key value, (key, value) ∈ declared -> carries_told value) -> carries_told (AMap declared).
Proof.
  intros IH s lists got path Hs Ho Hr. destruct got as [| | | | | | live]; try by (cbn [differences]; by apply leaf_same).
  cbn [differences]. rewrite (map_nil (fun key value =>
    let here := under path key in
    if contains ignoredPaths here then []
    else match aget live key with None => [MkFieldDrift here (text value) "not set"] | Some found => differences true value found here end)).
  assert (forall key value, (key, value) ∈ declared -> s = Root -> plain key = true) as Hk.
  { intros key value Hin ->. specialize (Hr eq_refl _ eq_refl). rewrite forallb_forall in Hr. apply Hr, list_elem_of_In, list_elem_of_fmap. by exists (key, value). }
  split.
  - intros Hl. apply carried_map. intros key value Hin Hp. specialize (Hl key value Hin). cbn zeta in Hl. rewrite (ignored_at s), Hp in Hl by eauto.
    destruct (aget live key) as [found |] eqn:Hg; [| done]. exists found. split; [done |].
    eapply (IH key value Hin); [by eapply site_under; eauto | by eapply orderly_get | apply rooted_inside | done].
  - intros Hc key value Hin. cbn zeta. rewrite (ignored_at s) by eauto. destruct (passed s key) eqn:Hp; [done |].
    inversion Hc as [? ? ? ? Hall | | | ? ? ? ? Hno]; subst; [| by exfalso; eapply Hno].
    destruct (Hall key value Hin Hp) as (found & Hg & Hf). rewrite Hg. eapply (IH key value Hin); [by eapply site_under; eauto | by eapply orderly_get | apply rooted_inside | done].
Qed.

Lemma told_named s declared live path :
  (forall one, one ∈ declared -> carries_told one) -> at_site s path -> orderly (ASlice live) = true -> named declared = true ->
  differences true (ASlice declared) (ASlice live) path = [] <-> carried s true (ASlice declared) (ASlice live).
Proof.
  intros IH Hs Ho Hn. cbn [differences negb]. rewrite Hn, list_nil. pose proof (proj1 (named_spec declared) Hn) as [Hne Hall].
  pose proof (andb_prop _ _ Ho) as [_ Hnd%bool_decide_eq_true]. split.
  - intros Hl. apply carried_named; [done | done |]. intros one name Hin Hc. pose proof Hc as (entry & -> & _). apply called_nameOf in Hc as [<- Hne'].
    specialize (Hl _ Hin). cbn beta iota zeta in Hl. destruct (byName live (nameOf entry)) as [found |] eqn:Hb; [| done].
    apply byName_spec in Hb as [Hf Hcf]; [| done | done]. exists found. split; [done | split; [done |]].
    eapply (IH _ Hin Inside); [apply deep_entry | by eapply orderly_entry | done | done].
  - intros Hc raw Hin. destruct (Hall raw Hin) as [name Hcr]. pose proof Hcr as (entry & -> & _). pose proof Hcr as [Hname Hne']%called_nameOf. rewrite Hname.
    inversion Hc as [| ? ? ? _ _ Hcar | ? ? ? Hun | ? ? ? ? _ Hno]; subst; [| | by exfalso; eapply Hno].
    + destruct (Hcar _ _ Hin Hcr) as (found & Hf & Hcf & Hd). rewrite (proj2 (byName_spec live (nameOf entry) found Hnd Hne') (conj Hf Hcf)).
      eapply (IH _ Hin Inside); [apply deep_entry | by eapply orderly_entry | done | done].
    + exfalso. apply unnamed_spec in Hun. congruence.
Qed.

Lemma told_pairs s declared live path :
  (forall one, one ∈ declared -> carries_told one) -> at_site s path -> orderly (ASlice live) = true -> named declared = false ->
  differences true (ASlice declared) (ASlice live) path = [] <-> carried s true (ASlice declared) (ASlice live).
Proof.
  intros IH Hs Ho Hn. cbn [differences negb]. rewrite Hn. assert (Hun := proj1 (unnamed_spec declared) Hn).
  assert (carried s true (ASlice declared) (ASlice live) -> length declared = length live /\
    forall i want got, declared !! i = Some want -> live !! i = Some got -> carried Inside false want got) as Hinv.
  { intros Hc. inversion Hc as [| ? ? ? Hne Hall | ? ? ? _ Hlen Hcar | ? ? ? ? _ Hno]; subst; [| done | by exfalso; eapply Hno].
    exfalso. assert (named declared = true) by by apply named_spec. congruence. }
  destruct (Z.eqb_spec (zlen declared) (zlen live)) as [Hlen | Hlen]; cbn [negb].
  2: { split; [done |]. intros [Hl _]%Hinv. unfold zlen in Hlen. lia. }
  assert (length declared = length live) as Hlen' by (unfold zlen in Hlen; lia). rewrite (pairs_nil (fun raw found i => differences false raw found (at_ path (Itoa i)))) by done. split.
  - intros Hl. apply carried_list; [done | done |]. intros i want got Hi Hk.
    eapply (IH want ltac:(by eapply list_elem_of_lookup_2) Inside); [apply deep_entry | by eapply orderly_entry, list_elem_of_lookup_2 | done | by apply (Hl i)].
  - intros [_ Hcar]%Hinv i want got Hi Hk.
    eapply (IH want ltac:(by eapply list_elem_of_lookup_2) Inside); [apply deep_entry | by eapply orderly_entry, list_elem_of_lookup_2 | done | by apply (Hcar i)].
Qed.

(** No difference is found exactly when what is declared is carried. *)
Lemma differences_nil want : carries_told want.
Proof.
  induction want as [| | | | | declared IH | declared IH] using any_deep; [intros at_where lists got path Hs Ho Hr; by apply leaf_same .. | | by apply told_map].
  intros at_where lists got path Hs Ho Hr. destruct got as [| | | | | live |]; try by (cbn [differences]; by apply leaf_same).
  destruct lists; [| by (cbn [differences negb]; by apply leaf_same)]. destruct (named declared) eqn:Hn; [by apply told_named | by apply told_pairs].
Qed.

Section told.
Context {U : Type} `{!Unstructured U} `{!Described U} `{!Editable U}.

(** C33: An object is told to have no drift exactly when it carries a declaration that its live document carries: every declared key is live
    with the declared value, but for the apiVersion, kind and status of the object and the name, namespace and creationTimestamp of its metadata;
    keys the server added are no drift; every entry of a list of named entries is carried by the live entry of its name, wherever that is, and
    the entries of any other list one for one; a value that is not gone into is the same value, a number the same decimal, and values of two kinds
    are written alike.  This is for a live document that has no list with two entries of one name (of which the last is compared, see
    [drift_of_a_repeated_name]) and a declaration whose own top-level fields have a name, without a dot in it; a field declared as null is to be
    there as any other ([drift_of_a_null]).  Whatever the documents: at most twenty fields are told, in order and each a difference that was found, with
    how many more there are. *)
Theorem drift_exact (live : U) :
  (orderly (AMap (ObjectOf live)) = true -> (forall declared, declarationOf live = Some declared -> forallb plain declared.*1 = true) ->
     Drift live = ([], "") <-> exists declared, declarationOf live = Some declared /\ carried Root true (AMap declared) (AMap (ObjectOf live))) /\
  (zlen (Drift live).1 <= maxDriftFields)%Z /\
  StronglySorted (cmp_le byPath) (Drift live).1 /\
  (forall declared, declarationOf live = Some declared ->
     (forall row, row ∈ (Drift live).1 -> row ∈ compare declared (ObjectOf live)) /\
     ((zlen (compare declared (ObjectOf live)) <= maxDriftFields)%Z -> (Drift live).1 ≡ₚ compare declared (ObjectOf live)) /\
     ((maxDriftFields < zlen (compare declared (ObjectOf live)))%Z ->
        (Drift live).2 = Itoa (zlen (compare declared (ObjectOf live)) - maxDriftFields) +s+ " more fields differ")).
Proof.
  unfold Drift. destruct (declarationOf live) as [declared |].
  2: { cbn. repeat split; try done; [by intros (d & ? & _) | constructor]. }
  assert (orderly (AMap (ObjectOf live)) = true -> (forall d, Some declared = Some d -> forallb plain d.*1 = true) ->
    compare declared (ObjectOf live) = [] <-> carried Root true (AMap declared) (AMap (ObjectOf live))) as Hd.
  { intros Ho Hp. apply differences_nil; [done | done |]. intros _ d [= <-]. by apply Hp. }
  assert (zlen (sort_by byPath (compare declared (ObjectOf live))) = zlen (compare declared (ObjectOf live))) as Hlen by (unfold zlen; by rewrite sort_by_length).
  assert (StronglySorted (cmp_le byPath) (sort_by byPath (compare declared (ObjectOf live)))) as Hs by (apply sort_by_sorted; unfold byPath; apply _).
  rewrite Hlen. destruct (Z.leb_spec (zlen (compare declared (ObjectOf live))) maxDriftFields) as [Hle | Hgt]; cbn [fst snd].
  - split; [| split; [by rewrite Hlen | split; [done |]]].
    + intros Ho Hp. specialize (Hd Ho Hp). split.
      * intros [= Hnil]. exists declared. split; [done |]. apply Hd. apply Permutation_nil. by rewrite <- Hnil, sort_by_perm.
      * intros (d & [= <-] & Ha%Hd). by rewrite Ha.
    + intros d [= <-]. split; [intros row Hr; by rewrite sort_by_elem in Hr |]. split; [intros _; apply sort_by_perm | lia].
  - split; [| split; [| split]].
    + intros Ho Hp. specialize (Hd Ho Hp). split; [| intros (d & [= <-] & Ha%Hd); rewrite Ha in Hgt; done]. intros [= Hnil _]. unfold ztake, maxDriftFields in *.
      destruct (sort_by byPath (compare declared (ObjectOf live))); [rewrite zlen_nil in Hlen; lia | done].
    + unfold ztake, zlen. rewrite length_take. unfold maxDriftFields. lia.
    + unfold ztake. rewrite <- (take_drop (Z.to_nat maxDriftFields) (sort_by byPath (compare declared (ObjectOf live)))) in Hs. by apply StronglySorted_app_1_l in Hs.
    + intros d [= <-]. split; [| split; [lia | done]]. intros row Hr. rewrite <- (sort_by_elem byPath), <- (take_drop (Z.to_nat maxDriftFields)). apply elem_of_app. by left.
Qed.
End told.
End drift.

(** ** Drift that is none *)

(** encoding/json where the annotation holds [declared]. *)
Definition declaring (declared : amap) : JSONText := {| DecodeObject _ := Some declared; EncodeAny _ := None; Printed _ := "" |}.

(** An object as it is in the cluster, with an annotation. *)
Definition annotated (rest : amap) : Doc :=
  MkDoc (("metadata", AMap [("name", AString "app"); ("annotations", AMap [(lastAppliedAnnotation, AString "{}")])]) :: rest).

Definition mount (path : string) : any := AMap [("name", AString "data"); ("mountPath", AString path)].

(** The conditions under which drift is exact hold of an ordinary document:
    two named containers the other way round, with what the server added. *)
Definition container (name image : string) (rest : amap) : any := AMap (("name", AString name) :: ("image", AString image) :: rest).

Example drift_of_none :
  let declared := [("apiVersion", AString "v1"); ("spec", AMap [("replicas", AFloat 0x4008000000000000); ("containers", ASlice [container "a" "web:1" []; container "b" "log:1" []])])] in
  let live := annotated [("spec", AMap [("paused", ABool false); ("replicas", AInt 3);
    ("containers", ASlice [container "b" "log:1" [("tty", ABool false)]; container "a" "web:1" []])])] in
  orderly (AMap (ObjectOf live)) = true /\ forallb plain declared.*1 = true /\ declarationOf (Js := declaring declared) live = Some declared /\
  Drift (Js := declaring declared) live = ([], "").
Proof. by vm_compute. Qed.

(** A volume mounted twice is reported as drift although the object is just as
    it was declared: the live entries are kept by name, the last one counts. *)
Example drift_of_a_repeated_name :
  let spec := [("spec", AMap [("volumeMounts", ASlice [mount "/a"; mount "/b"])])] in
  Drift (Js := declaring spec) (annotated spec) = ([MkFieldDrift "spec.volumeMounts[data].mountPath" "/a" "/b"], "").
Proof. by vm_compute. Qed.

(** A field declared as null, which the server leaves out, is reported as
    drift from "not set" to "not set". *)
Example drift_of_a_null :
  let template l := [("spec", AMap [("template", AMap [("metadata", AMap l)])])] in
  Drift (Js := declaring (template [("creationTimestamp", ANil)])) (annotated (template [])) =
    ([MkFieldDrift "spec.template.metadata.creationTimestamp" "not set" "not set"], "").
Proof. by vm_compute. Qed.
End Gitops.

(** graph.go and appgraph.go *)
Module Graphs.
Import Api Text Unstr Applied.

Definition fluxSourceGroup : string := "source.toolkit.fluxcd.io".
Definition statusMissing : string := "NotFound".
Definition readyTrue : string := "True".
Definition readyFalse : string := "False".
Definition readyUnknown : string := "Unknown".
Definition categoryManaged : string := "managed".
Definition fluxSourceResources : list string := ["gitrepositories"; "helmrepositories"; "ocirepositories"; "buckets"].

Definition nodeID (group kind namespace name : string) : string := group +s+ "/" +s+ kind +s+ "/" +s+ namespace +s+ "/" +s+ name.

Definition graphCategory (desc : ResourceDescriptor) : string :=
  if bool_decide (rd_Group desc = fluxSourceGroup) && contains fluxSourceResources (rd_Resource desc) then "source"
  else if bool_decide (rd_Group desc = "kustomize.toolkit.fluxcd.io") && bool_decide (rd_Resource desc = "kustomizations") then "applier"
  else if bool_decide (rd_Group desc = "helm.toolkit.fluxcd.io") && bool_decide (rd_Resource desc = "helmreleases") then "applier"
  else if bool_decide (rd_Group desc = "argoproj.io") && bool_decide (rd_Resource desc = "applications") then "app"
  else "".

Definition node (id kind group version resource name namespace status ready category : string) : Topology.GraphNode :=
  Topology.MkGraphNode id kind group version resource name namespace status ready category 0 0.

Definition underscore : Ascii.ascii := Ascii.ascii_of_N 95.

(** namespace, name, group and kind *)
Definition parseInventoryID (raw : string) : string * string * string * string :=
  match str_split underscore raw with [namespace; name; group; kind] => (namespace, name, group, kind) | _ => ("", "", "", "") end.

Definition readyForPlaceholder (status : string) : string := if bool_decide (status = statusMissing) then readyFalse else readyUnknown.

Section graphs.
Context {U : Type} `{!Unstructured U} `{!Editable U}.

Definition argoReady (obj : U) : string :=
  let health := UString obj ["status"; "health"; "status"] in
  if bool_decide (health = "Healthy") then readyTrue
  else if bool_decide (health = "Degraded") then readyFalse
  else if bool_decide (health = "Missing") then readyFalse
  else readyUnknown.

Definition conditionReady (obj : U) : string :=
  match conditionOfType "Ready" (USlice obj ["status"; "conditions"]) with
  | None => readyUnknown
  | Some entry =>
      match aget entry "status" with
      | Some (AString "True") => readyTrue | Some (AString "False") => readyFalse | _ => readyUnknown end
  end.

Definition readyOf (obj : U) (category : string) : string := if bool_decide (category = "app") then argoReady obj else conditionReady obj.

Definition statusOf (obj : U) (category : string) : string :=
  if bool_decide (category = "app") then
    TrimSpace (UString obj ["status"; "health"; "status"] +s+ " " +s+ UString obj ["status"; "sync"; "status"])
  else ReadySummary obj.

Record builder := MkBuilder {
  byKind : gmap string ResourceDescriptor;
  nodes : gmap string Topology.GraphNode;
  edges : gmap string Topology.GraphEdge;
  failures : Listerr.Collector;
}.

Definition with_node (b : builder) (one : Topology.GraphNode) : builder :=
  MkBuilder (byKind b) (<[Topology.gn_ID one := one]> (nodes b)) (edges b) (failures b).

Definition addEdge (b : builder) (from to kind : string) : builder :=
  MkBuilder (byKind b) (nodes b) (<[from +s+ "|" +s+ to +s+ "|" +s+ kind := Topology.MkGraphEdge from to kind]> (edges b)) (failures b).

Definition noDescriptor : ResourceDescriptor := MkResourceDescriptor "" "" "" "" false "".

Definition ensureRef (b : builder) (id group kind namespace name category status : string) : builder :=
  match nodes b !! id with
  | Some _ => b
  | None =>
      let desc := default noDescriptor (byKind b !! (group +s+ "/" +s+ kind)) in
      with_node b (node id kind group (rd_Version desc) (rd_Resource desc) name namespace status (readyForPlaceholder status) category)
  end.

Definition orIn (namespace : string) (obj : U) : string := if bool_decide (namespace = "") then GetNamespace obj else namespace.

Definition sourceRefAt (obj : U) (path : list string) : string * string * string :=
  (UString obj (path ++ ["kind"]), UString obj (path ++ ["name"]), UString obj (path ++ ["namespace"])).

Definition sourceRefOf (obj : U) : string * string * string :=
  let full '(kind, name, _) := bool_decide (kind <> "") && bool_decide (name <> "") in
  let chart := sourceRefAt obj ["spec"; "chartRef"] in
  let source := sourceRefAt obj ["spec"; "sourceRef"] in
  if full chart then chart else if full source then source else sourceRefAt obj ["spec"; "chart"; "spec"; "sourceRef"].

Definition sourceEdge (b : builder) (id : string) (obj : U) : builder :=
  let '(kind, name, namespace) := sourceRefOf obj in
  if bool_decide (kind = "") || bool_decide (name = "") then b
  else
    let namespace := orIn namespace obj in
    let sid := nodeID fluxSourceGroup kind namespace name in
    addEdge (ensureRef b sid fluxSourceGroup kind namespace name "source" "") sid id "source".

Definition dependsOnEdges (b : builder) (id : string) (obj : U) : builder :=
  foldl (fun b entry =>
    let name := At entry "name" in
    if bool_decide (name = "") then b
    else
      let namespace := orIn (At entry "namespace") obj in
      let did := nodeID (GroupOf obj) (GetKind obj) namespace name in
      addEdge (ensureRef b did (GroupOf obj) (GetKind obj) namespace name "applier" statusMissing) did id "dependsOn")
    b (Topology.maps (USlice obj ["spec"; "dependsOn"])).

Definition inventoryEdges (b : builder) (id : string) (obj : U) : builder :=
  foldl (fun b entry =>
    let '(namespace, name, group, kind) := parseInventoryID (At entry "id") in
    if bool_decide (kind = "") || bool_decide (name = "") then b
    else
      let mid := nodeID group kind namespace name in
      addEdge (ensureRef b mid group kind namespace name categoryManaged "") id mid "manages")
    b (Topology.maps (USlice obj ["status"; "inventory"; "entries"])).

Definition applierEdges (b : builder) (id : string) (obj : U) : builder := inventoryEdges (dependsOnEdges (sourceEdge b id obj) id obj) id obj.

Definition appEdges (b : builder) (id : string) (obj : U) : builder :=
  foldl (fun b entry =>
    let kind := At entry "kind" in
    let name := At entry "name" in
    if bool_decide (kind = "") || bool_decide (name = "") then b
    else
      let mid := nodeID (At entry "group") kind (At entry "namespace") name in
      addEdge (ensureRef b mid (At entry "group") kind (At entry "namespace") name categoryManaged "") id mid "manages")
    b (Topology.maps (USlice obj ["status"; "resources"])).

Definition addObject (desc : ResourceDescriptor) (category : string) (b : builder) (obj : U) : builder :=
  let id := nodeID (rd_Group desc) (rd_Kind desc) (GetNamespace obj) (GetName obj) in
  let b := with_node b (node id (rd_Kind desc) (rd_Group desc) (rd_Version desc) (rd_Resource desc) (GetName obj) (GetNamespace obj)
    (statusOf obj category) (readyOf obj category) category) in
  let b := if bool_decide (category = "applier") then applierEdges b id obj else b in
  if bool_decide (category = "app") then appEdges b id obj else b.

Definition recorded (b : builder) (resource : string) (err : option string) : builder :=
  MkBuilder (byKind b) (nodes b) (edges b) (Listerr.Record_ (failures b) resource err).

Definition collect (lister : ResourceDescriptor -> result string (list U)) (b : builder) (desc : ResourceDescriptor) : builder :=
  match lister desc with
  | Err e => recorded b (FluxViews.groupResource desc) (Some e)
  | Ok items => foldl (addObject desc (graphCategory desc)) (recorded b (FluxViews.groupResource desc) None) items
  end.

Definition compareEdges : Topology.GraphEdge -> Topology.GraphEdge -> Z :=
  cmp_then (cmp_on Topology.ge_From str_compare) (cmp_on Topology.ge_To str_compare).

Definition kept (b : builder) : list Topology.GraphNode :=
  List.filter (fun one => bool_decide (Topology.gn_Category one <> categoryManaged)) (map snd (map_to_list (nodes b))).

Definition graph (b : builder) : Topology.Graph :=
  let ids := map Topology.gn_ID (kept b) in
  Topology.MkGraph (sort_by (cmp_on Topology.gn_ID str_compare) (kept b))
    (sort_by compareEdges
      (List.filter (fun e => contains ids (Topology.ge_From e) && contains ids (Topology.ge_To e)) (map snd (map_to_list (edges b)))))
    (Listerr.Message (failures b)).

Definition indexByKind (descs : list ResourceDescriptor) : gmap string ResourceDescriptor :=
  foldl (fun out d => <[rd_Group d +s+ "/" +s+ rd_Kind d := d]> out) ∅ descs.

(** [Build]; [descs] in the order the map of kinds is walked in. *)
Definition Build (lister : ResourceDescriptor -> result string (list U)) (descs : list ResourceDescriptor) : Topology.Graph :=
  let needed := List.filter (fun d => bool_decide (graphCategory d <> "")) descs in
  graph (foldl (collect lister) (MkBuilder (indexByKind descs) ∅ ∅ Listerr.New) needed).

End graphs.

(** ** appgraph.go *)

Definition rootCategory (controller : string) : string := if bool_decide (controller = ControllerArgo) then "app" else "applier".
Definition rootStatus (state : GitopsState) : string := TrimSpace (st_Sync state +s+ " " +s+ st_Health state).

Definition rootReady (state : GitopsState) : string :=
  if bool_decide (st_Health state = "Degraded") || bool_decide (st_Health state = "Missing") then readyFalse
  else if bool_decide (st_Health state = "Healthy") && bool_decide (st_Sync state = "Synced") then readyTrue
  else readyUnknown.

Definition managedCategory (one : GitopsResource) : string :=
  if bool_decide (gr_Group one = "argoproj.io") && bool_decide (gr_Kind one = "Application") then "app" else categoryManaged.

Definition managedStatus (one : GitopsResource) : string :=
  if gr_Terminating one then "Terminating" else TrimSpace (gr_Sync one +s+ " " +s+ gr_Health one).

Definition managedReady (one : GitopsResource) : string :=
  if gr_Terminating one then readyFalse
  else if bool_decide (gr_Health one = "Degraded") || bool_decide (gr_Health one = "Missing") then readyFalse
  else if bool_decide (gr_Health one = "Healthy") || bool_decide (gr_Sync one = "Synced") then readyTrue
  else readyUnknown.

Definition managedNode (one : GitopsResource) : Topology.GraphNode :=
  node (nodeID (gr_Group one) (gr_Kind one) (gr_Namespace one) (gr_Name one)) (gr_Kind one) (gr_Group one) (gr_Version one) (gr_Resource one)
    (gr_Name one) (gr_Namespace one) (managedStatus one) (managedReady one) (managedCategory one).

Definition AppGraph (app : GitopsApp) : Topology.Graph :=
  let root := node (nodeID (or_Group (ga_Ref app)) (ga_Kind app) (ga_Namespace app) (ga_Name app)) (ga_Kind app) (or_Group (ga_Ref app))
    (or_Version (ga_Ref app)) (or_Resource (ga_Ref app)) (ga_Name app) (ga_Namespace app) (rootStatus (ga_State app)) (rootReady (ga_State app))
    (rootCategory (ga_Controller app)) in
  let children := map managedNode (ga_Resources app) in
  Topology.MkGraph (root :: sort_by (cmp_on Topology.gn_ID str_compare) children)
    (sort_by (cmp_on Topology.ge_To str_compare) (map (fun child => Topology.MkGraphEdge (Topology.gn_ID root) (Topology.gn_ID child) "manages") children))
    (ga_Error app).

(** ** What the graph of sources and appliers is *)

Section wellformed.
Context {U : Type} `{!Unstructured U} `{!Editable U}.

(** Every node is under its own id. *)
Definition keyed (b : builder) : Prop := forall id one, nodes b !! id = Some one -> Topology.gn_ID one = id.

Lemma keyed_node b one : keyed b -> keyed (with_node b one).
Proof. intros Hb id other H. cbn in H. apply lookup_insert_Some in H as [[<- <-] | [_ H]]; [done | by apply Hb]. Qed.

Lemma keyed_ensure b id group kind namespace name category status : keyed b -> keyed (ensureRef b id group kind namespace name category status).
Proof. intros Hb. unfold ensureRef. destruct (nodes b !! id); [done | by apply keyed_node]. Qed.

Lemma keyed_fold {A} (f : builder -> A -> builder) l b : (forall b a, keyed b -> keyed (f b a)) -> keyed b -> keyed (foldl f b l).
Proof. intros Hf. revert b. induction l as [| a l IH]; intros b Hb; [done |]. cbn. by apply IH, Hf. Qed.

Lemma keyed_build (lister : ResourceDescriptor -> result string (list U)) b desc : keyed b -> keyed (collect lister b desc).
Proof.
  intros Hb. unfold collect. destruct (lister desc) as [items | e]; [| done]. apply keyed_fold; [| done]. clear. intros b obj Hb. unfold addObject.
  set (b' := with_node b _). assert (keyed b') as Hb' by by apply keyed_node. clearbody b'. clear Hb.
  assert (forall b, keyed b -> keyed (applierEdges b (nodeID (rd_Group desc) (rd_Kind desc) (GetNamespace obj) (GetName obj)) obj)) as Happ.
  { clear. intros b Hb. unfold applierEdges, inventoryEdges, dependsOnEdges. apply keyed_fold; [| apply keyed_fold].
    - intros b' entry Hb'. destruct (parseInventoryID (At entry "id")) as [[[? ?] ?] ?]. destruct (_ || _); [done |]. by apply keyed_ensure.
    - intros b' entry Hb'. case_bool_decide; [done |]. by apply keyed_ensure.
    - unfold sourceEdge. destruct (sourceRefOf obj) as [[? ?] ?]. destruct (_ || _); [done |]. by apply keyed_ensure. }
  assert (forall b, keyed b -> keyed (appEdges b (nodeID (rd_Group desc) (rd_Kind desc) (GetNamespace obj) (GetName obj)) obj)) as Hae.
  { clear. intros b Hb. unfold appEdges. apply keyed_fold; [| done]. intros b' entry Hb'. destruct (_ || _); [done |]. by apply keyed_ensure. }
  destruct (bool_decide (graphCategory desc = "applier")), (bool_decide (graphCategory desc = "app")); auto.
Qed.

(** The graph's nodes have ids of their own, in order, none is only managed,
    and every edge joins two of them. *)
Lemma gitops_graph_well_formed (lister : ResourceDescriptor -> result string (list U)) descs :
  let g := Build lister descs in
  NoDup (map Topology.gn_ID (Topology.gr_Nodes g)) /\
  StronglySorted (cmp_le (cmp_on Topology.gn_ID str_compare)) (Topology.gr_Nodes g) /\
  (forall one, one ∈ Topology.gr_Nodes g -> Topology.gn_Category one <> categoryManaged) /\
  (forall e, e ∈ Topology.gr_Edges g ->
     Topology.ge_From e ∈ map Topology.gn_ID (Topology.gr_Nodes g) /\ Topology.ge_To e ∈ map Topology.gn_ID (Topology.gr_Nodes g)).
Proof.
  intros g. unfold g, Build. set (b := foldl _ _ _). assert (keyed b) as Hb by (apply keyed_fold; [intros; by apply keyed_build | done]). clearbody b.
  unfold graph. cbn [Topology.gr_Nodes Topology.gr_Edges]. assert (sort_by (cmp_on Topology.gn_ID str_compare) (kept b) ≡ₚ kept b) as Hp by apply sort_by_perm.
  split; [| split; [| split]].
  - rewrite Hp. unfold kept. apply NoDup_map_filter. rewrite map_map.
    assert (map (fun x : string * Topology.GraphNode => Topology.gn_ID x.2) (map_to_list (nodes b)) = map fst (map_to_list (nodes b))) as ->; [| apply NoDup_fst_map_to_list].
    apply map_ext_in. intros [id one] Hin. apply list_elem_of_In, elem_of_map_to_list in Hin. by apply Hb.
  - apply sort_by_sorted. apply _.
  - intros one Hin. rewrite Hp in Hin. apply filter_elem in Hin as [_ Hc]. by apply bool_decide_eq_true in Hc.
  - intros e He. rewrite sort_by_elem in He. apply filter_elem in He as [_ [H1%contains_spec H2%contains_spec]%andb_true_iff]. by rewrite Hp.
Qed.
End wellformed.

(** What the graph calls an applier is what an application's details are
    told of for Flux. *)
Lemma applier_agrees desc : graphCategory desc = "applier" <-> FluxViews.Applies desc = true.
Proof.
  unfold graphCategory, FluxViews.Applies. change FluxViews.kustomizeGroup with "kustomize.toolkit.fluxcd.io".
  change FluxViews.helmGroup with "helm.toolkit.fluxcd.io". change FluxViews.kustomizations with "kustomizations".
  change FluxViews.helmReleases with "helmreleases".
  destruct (bool_decide (rd_Group desc = fluxSourceGroup) && contains fluxSourceResources (rd_Resource desc)) eqn:Hs.
  - apply andb_true_iff in Hs as [Hg%bool_decide_eq_true _]. rewrite Hg. split; [done |]. by vm_compute.
  - destruct (bool_decide (rd_Group desc = "kustomize.toolkit.fluxcd.io") && _); [done |].
    destruct (bool_decide (rd_Group desc = "helm.toolkit.fluxcd.io") && _); [done |].
    by destruct (bool_decide (rd_Group desc = "argoproj.io") && _).
Qed.

(** ** A missing source that comes and goes *)

Definition kustomizationKind : ResourceDescriptor :=
  MkResourceDescriptor "kustomize.toolkit.fluxcd.io" "v1" "kustomizations" "Kustomization" true "".

Definition kustomization (name : string) (rest : amap) : Doc :=
  MkDoc (("metadata", AMap [("name", AString name); ("namespace", AString "flux")]) :: rest).

(** One manages a source that is not there, the other is made from it. *)
Definition manager : Doc :=
  kustomization "root" [("status", AMap [("inventory", AMap [("entries", ASlice [AMap [("id",
    AString "flux_src_source.toolkit.fluxcd.io_GitRepository")]])])])].
Definition consumer : Doc :=
  kustomization "leaf" [("spec", AMap [("sourceRef", AMap [("kind", AString "GitRepository"); ("name", AString "src")])])].

(** Read in one order the missing source is in the graph, read in the other
    it and its edge are not. *)
Example missing_source_by_order :
  let shown items :=
    let g := Build (fun _ => Ok items) [kustomizationKind] in (map Topology.gn_Name (Topology.gr_Nodes g), length (Topology.gr_Edges g)) in
  shown [consumer; manager] = (["leaf"; "root"; "src"], 2) /\ shown [manager; consumer] = (["leaf"; "root"], 0).
Proof. by vm_compute. Qed.
End Graphs.
