(* ===== verification/Details.v ===== *)
(** internal/gitops/detail.go, one applier with what is read of its resources,
    and internal/inspect/events.go, the events of an object. *)

From S2P Require Import Prelude Api Text Unstr Access Issues Kube Flux Argocd Inspect Reads Applied FluxViews ArgoViews Gitops.

(** internal/inspect/events.go *)
Module Events.
Import Api Text Unstr Applied.

Record Event := MkEvent {
  ev_Type : string;
  ev_Reason : string;
  ev_Message : string;
  ev_Source : string;
  ev_Count : Z;
  ev_FirstSeen : string;
  ev_LastSeen : string;
}.

Definition hexDigit (c : Ascii.ascii) : bool :=
  let n := Ascii.N_of_ascii c in ((48 <=? n) && (n <=? 57) || (65 <=? n) && (n <=? 70) || (97 <=? n) && (n <=? 102))%N.

(** [objectUID]: hexadecimal digits in runs of 8, 4, 4, 4 and 12. *)
Definition objectUID (uid : string) : bool :=
  let parts := str_split (Ascii.ascii_of_N 45) uid in
  bool_decide (map String.length parts = [8; 4; 4; 4; 12]) && forallb (fun part => forallb hexDigit (String.list_ascii_of_string part)) parts.

(** [eventKey] and [gitopsEventKey] *)
Definition eventKey (one : Event) : string := ev_Reason one +s+ nul +s+ ev_Source one +s+ nul +s+ ev_Message one.

Section events.
Context {U : Type} `{!Unstructured U} {Tm : RFC3339} {Qt : Quoting}.

Definition sourceOf (u : U) : string := firstSet [UString u ["source"; "component"]; UString u ["reportingComponent"]].

Definition countOf (u : U) : Z :=
  let count := UInt u ["count"] in
  let series := UInt u ["series"; "count"] in
  if (0 <? count)%Z then count else if (0 <? series)%Z then series else 1%Z.

Definition lastSeenOf (u : U) : string :=
  firstSet [UString u ["lastTimestamp"]; UString u ["series"; "lastObservedTime"]; UString u ["eventTime"]; UString u ["firstTimestamp"]].

Definition EventOf (u : U) : Event :=
  MkEvent (UString u ["type"]) (UString u ["reason"]) (UString u ["message"]) (sourceOf u) (countOf u) (UString u ["firstTimestamp"]) (lastSeenOf u).

Definition seenAt (stamp : string) : time := default zeroTime (ParseTime stamp).

Definition sortEvents : list Event -> list Event :=
  sort_by (cmp_then (fun left right => tcompare (seenAt (ev_LastSeen right)) (seenAt (ev_LastSeen left))) (cmp_on eventKey str_compare)).

(** [Events]; the server lists the events under a selector. *)
Definition Events (list_ : string -> string -> result string (list U)) (namespace uid : string) : result string (list Event) :=
  if bool_decide (uid = "") then Ok []
  else if negb (objectUID uid) then Err ("uid must be a kubernetes object uid, got " +s+ Quote uid)
  else match list_ namespace ("involvedObject.uid=" +s+ uid) with
    | Err e => Err ("listing events: " +s+ e)
    | Ok items => Ok (sortEvents (map EventOf items))
    end.
End events.
End Events.

(** internal/gitops/detail.go *)
Module Detail.
Import Api Text Unstr Applied Events.

Definition outOfSync : string := "OutOfSync".
Definition maxLiveReads : nat := 25.
Definition maxEventsPer : Z := 5.
Definition notAnApplier : string := "that object is not an argo cd application, a flux kustomization or a flux helmrelease".

Definition interest (resource : GitopsResource) : Z :=
  (one (bool_decide (gr_Health resource <> "") && bool_decide (gr_Health resource <> "Healthy")) * 2 +
   one (bool_decide (gr_Sync resource <> "") && bool_decide (gr_Sync resource <> "Synced")))%Z.

(** [readingOrder], by position. *)
Definition readingOrder (resources : list GitopsResource) : list nat :=
  map fst (sort_by (cmp_on (fun p => interest p.2) cmp_desc) (imap pair resources)).

(** [descs] in the order the map is walked in. *)
Definition descriptorFor (descs : list ResourceDescriptor) (resource : GitopsResource) : option ResourceDescriptor :=
  List.find (fun desc => bool_decide (rd_Group desc = gr_Group resource) && bool_decide (rd_Kind desc = gr_Kind resource)) descs.

Definition byKind (descs : list ResourceDescriptor) (kind : string) : option ResourceDescriptor :=
  List.find (fun desc => bool_decide (rd_Kind desc = kind)) descs.

Definition served_as (resource : GitopsResource) (version plural : string) : GitopsResource :=
  MkGitopsResource (gr_Group resource) version plural (gr_Kind resource) (gr_Name resource) (gr_Namespace resource) (gr_Sync resource)
    (gr_Health resource) (gr_Message resource) (gr_Terminating resource) (gr_Finalizers resource) (gr_Drift resource) (gr_DriftOwners resource)
    (gr_DriftNote resource).

Definition identified (descs : list ResourceDescriptor) (resource : GitopsResource) : GitopsResource :=
  match descriptorFor descs resource with
  | None => resource
  | Some desc =>
      served_as resource (if bool_decide (gr_Version resource = "") then rd_Version desc else gr_Version resource) (rd_Resource desc)
  end.

Definition identify (descs : list ResourceDescriptor) : list GitopsResource -> list GitopsResource := map (identified descs).

(** The class of descriptors the details are of. *)
Definition isApplication (desc : ResourceDescriptor) : bool := Argocd.IsArgoGroup (rd_Group desc) && bool_decide (rd_Kind desc = ArgoViews.IsApplication).
Definition applied (desc : ResourceDescriptor) : bool := isApplication desc || FluxViews.Applies desc.

Definition with_source (app : GitopsApp) (repo target : string) : GitopsApp :=
  let s := ga_Source app in
  MkGitopsApp (ga_Ref app) (ga_Controller app) (ga_Terminating app) (ga_Kind app) (ga_Name app) (ga_Namespace app)
    (MkGitopsSource repo (gs_Path s) target (gs_Destination s) (gs_Project s) (gs_SyncMode s) (gs_Policy s))
    (ga_State app) (ga_Issues app) (ga_Resources app) (ga_History app) (ga_Operation app) (ga_Error app).

Definition with_ref (app : GitopsApp) (ref : ObjectRef) : GitopsApp :=
  MkGitopsApp ref (ga_Controller app) (ga_Terminating app) (ga_Kind app) (ga_Name app) (ga_Namespace app) (ga_Source app)
    (ga_State app) (ga_Issues app) (ga_Resources app) (ga_History app) (ga_Operation app) (ga_Error app).

Definition with_read (app : GitopsApp) (resources : list GitopsResource) (issues : list GitopsIssue) : GitopsApp :=
  MkGitopsApp (ga_Ref app) (ga_Controller app) (ga_Terminating app) (ga_Kind app) (ga_Name app) (ga_Namespace app) (ga_Source app)
    (ga_State app) (ga_Issues app ++ issues) resources (ga_History app) (ga_Operation app) (ga_Error app).

Section detail.
Context {U : Type} `{!Unstructured U} `{!Described U} `{!Editable U} `{!Managed U} {Tm : RFC3339} {Wd : Wording} {Js : JSONText}.

(** The API server's answer to a get, and to a list of events: the events and
    whether there are more. *)
Context (read : ObjectRef -> result string U) (events : string -> string -> result string (list U * bool)).

Definition branchOf (source : U) : string :=
  firstSet (map (fun field => UString source ["spec"; "ref"; field]) ["branch"; "tag"; "semver"; "commit"; "name"]).

Definition resolveSource (descs : list ResourceDescriptor) (obj : U) (app : GitopsApp) : GitopsApp :=
  let '(kind, name, found) := str_cut (gs_Repo (ga_Source app)) "/" in
  if negb found then app
  else match byKind descs kind with
    | None => app
    | Some desc =>
        let namespace := FluxViews.orKeep (UString obj ["spec"; "sourceRef"; "namespace"]) (GetNamespace obj) in
        match read (MkObjectRef (rd_Group desc) (rd_Version desc) (rd_Resource desc) namespace name) with
        | Err _ => app
        | Ok source => with_source app (UString source ["spec"; "url"]) (branchOf source)
        end
    end.

Definition build (descs : list ResourceDescriptor) (obj : U) (desc : ResourceDescriptor) : GitopsApp :=
  if isApplication desc then ArgoViews.Detail obj else resolveSource descs obj (FluxViews.Detail obj desc).

Definition liveResource (descs : list ResourceDescriptor) (resource : GitopsResource) : option U :=
  desc ← descriptorFor descs resource;
  match read (MkObjectRef (rd_Group desc) (rd_Version desc) (rd_Resource desc) (gr_Namespace resource) (gr_Name resource)) with
  | Err _ => None
  | Ok live => Some live
  end.

Definition apply (resource : GitopsResource) (live : U) (controller : string) : GitopsResource :=
  let '(drift, note) := Gitops.Drift live in
  let '(told, why) := if bool_decide (note = Gitops.noDeclaration) then Gitops.Ownership live controller else (drift, note) in
  let owners := if bool_decide (note = Gitops.noDeclaration) then negb (zlen told =? 0)%Z else gr_DriftOwners resource in
  let why := if (zlen drift =? 0)%Z && bool_decide (note = "") && bool_decide (gr_Sync resource = outOfSync)
    then "no declared field differs; git may no longer declare this resource" else why in
  MkGitopsResource (gr_Group resource) (VersionOf live) (gr_Resource resource) (gr_Kind resource) (gr_Name resource) (gr_Namespace resource)
    (gr_Sync resource) (gr_Health resource) (gr_Message resource) (gr_Terminating resource || Deleting live)
    (if Deleting live then GetFinalizers live else gr_Finalizers resource) told owners why.

(** One turn of the loop of [enrich]: the resources and the uids read. *)
Definition readOne (descs : list ResourceDescriptor) (controller : string) (st : list GitopsResource * gmap nat string) (at_ : nat) :
    list GitopsResource * gmap nat string :=
  let '(resources, uids) := st in
  match resources !! at_ ≫= fun resource => pair resource <$> liveResource descs resource with
  | None => st
  | Some (resource, live) => (<[at_ := apply resource live controller]> resources, <[at_ := GetUID live]> uids)
  end.

Definition partialIssue (read_ order : Z) : list GitopsIssue :=
  if (read_ <? order)%Z then
    [MkGitopsIssue SeverityLow (Itoa read_ +s+ " of " +s+ Itoa order +s+ " managed resources were read from the cluster")
      "the rest show what the controller reported" ""]
  else [].

Definition compareEvents : Event -> Event -> Z :=
  cmp_then (fun left right => str_compare (ev_LastSeen right) (ev_LastSeen left)) (cmp_on eventKey str_compare).

Definition eventsFor (resource : GitopsResource) (uid : string) : list Event * bool :=
  let selector := if bool_decide (uid <> "") then "involvedObject.uid=" +s+ uid
    else "involvedObject.kind=" +s+ gr_Kind resource +s+ ",involvedObject.name=" +s+ gr_Name resource in
  match events (gr_Namespace resource) selector with
  | Err _ => ([], false)
  | Ok (items, more) =>
      let found := sort_by compareEvents (map EventOf items) in
      (ztake maxEventsPer found, more || (maxEventsPer <? zlen found)%Z)
  end.

(** [attachEvents]: the events of the resources read, by position. *)
Definition attachEvents (resources : list GitopsResource) (uids : gmap nat string) (read_ : list nat) : list (nat * (list Event * bool)) :=
  omap (fun at_ =>
    resource ← resources !! at_;
    if bool_decide (gr_Namespace resource = "") then None else Some (at_, eventsFor resource (default "" (uids !! at_)))) read_.

(** [enrich]: the application and the events by the resource's position. *)
Definition enrich (descs : list ResourceDescriptor) (app : GitopsApp) (withEvents : bool) : GitopsApp * list (nat * (list Event * bool)) :=
  let resources := identify descs (ga_Resources app) in
  let order := readingOrder resources in
  let read_ := take maxLiveReads order in
  let '(resources, uids) := foldl (readOne descs (ga_Controller app)) (resources, ∅) read_ in
  (with_read app resources (partialIssue (zlen read_) (zlen order)), if withEvents then attachEvents resources uids read_ else []).

(** [detail] *)
Definition detail (descs : list ResourceDescriptor) (ref : ObjectRef) (withEvents : bool) :
    result string (GitopsApp * list (nat * (list Event * bool))) :=
  match FluxViews.served descs (or_Group ref) (or_Version ref) (or_Resource ref) with
  | None => Err (notAnApplier +s+ ": " +s+ or_Resource ref +s+ " is not a kind this cluster serves")
  | Some desc =>
      if negb (applied desc) then Err (notAnApplier +s+ ": " +s+ or_Namespace ref +s+ "/" +s+ or_Name ref +s+ " is a " +s+ rd_Kind desc)
      else match read ref with
        | Err e => Err e
        | Ok obj => Ok (enrich descs (with_ref (build descs obj desc) ref) withEvents)
        end
  end.

Definition Shape (descs : list ResourceDescriptor) (ref : ObjectRef) := detail descs ref false.
Definition Detail_ (descs : list ResourceDescriptor) (ref : ObjectRef) := detail descs ref true.
End detail.

(** ** What is read of an application *)

Lemma readingOrder_perm resources : readingOrder resources ≡ₚ seq 0 (length resources).
Proof.
  assert (map fst (imap pair resources) = seq 0 (length resources)) as <-; [| by apply fmap_Permutation, sort_by_perm].
  change (fst <$> imap pair resources = seq 0 (length resources)). rewrite fmap_imap. apply list_eq. intros i. rewrite list_lookup_imap. destruct (resources !! i) as [r |] eqn:Hr; cbn.
  - apply lookup_lt_Some in Hr. by rewrite lookup_seq_lt.
  - apply lookup_ge_None in Hr. by rewrite lookup_seq_ge.
Qed.

(** The resources come in order of how much there is to say of them. *)
Lemma readingOrder_ranked resources i j a b x y :
  i < j -> readingOrder resources !! i = Some a -> readingOrder resources !! j = Some b ->
  resources !! a = Some x -> resources !! b = Some y -> (interest y <= interest x)%Z.
Proof.
  unfold readingOrder. intros Hij Ha Hb Hx Hy.
  pose proof (sort_by_sorted (cmp_on (fun p : nat * GitopsResource => interest p.2) cmp_desc) (imap pair resources)) as Hs.
  set (l := sort_by _ _) in *. apply list_lookup_fmap_Some in Ha as ([a' x'] & -> & Ha). apply list_lookup_fmap_Some in Hb as ([b' y'] & -> & Hb).
  assert (forall k z, (k, z) ∈ l -> resources !! k = Some z) as Hin.
  { intros k z Hk. unfold l in Hk. rewrite sort_by_elem in Hk. apply elem_of_lookup_imap in Hk as (k' & z' & [= -> ->] & H). done. }
  cbn in Hx, Hy. rewrite (Hin a' x') in Hx by (by eapply list_elem_of_lookup_2). rewrite (Hin b' y') in Hy by (by eapply list_elem_of_lookup_2).
  injection Hx as <-. injection Hy as <-. pose proof (StronglySorted_lookup_lt _ _ _ _ _ _ Hs Ha Hb Hij) as H. unfold cmp_le, cmp_on, cmp_desc in H. cbn in H. lia.
Qed.

Section promises.
Context {U : Type} `{!Unstructured U} `{!Described U} `{!Editable U} `{!Managed U} {Tm : RFC3339} {Wd : Wording} {Js : JSONText}.
Context (read : ObjectRef -> result string U).

Definition identity (resource : GitopsResource) : string * string * string * string :=
  (gr_Group resource, gr_Kind resource, gr_Namespace resource, gr_Name resource).

Lemma identify_identity descs resources : map identity (identify descs resources) = map identity resources.
Proof. unfold identify. rewrite map_map. apply map_ext. intros r. unfold identified. by destruct (descriptorFor descs r). Qed.

Lemma readOne_keeps descs controller st at_ :
  map identity (readOne read descs controller st at_).1 = map identity st.1 /\
  (forall i, i <> at_ -> (readOne read descs controller st at_).1 !! i = st.1 !! i).
Proof.
  destruct st as [resources uids]. unfold readOne. destruct (resources !! at_) as [r |] eqn:Hr; cbn [mbind option_bind fst]; [| done].
  destruct (liveResource read descs r) as [live |]; cbn [fmap option_fmap option_map fst]; [| done]. split.
  - change (identity <$> <[at_ := apply r live controller]> resources = identity <$> resources). rewrite list_fmap_insert.
    apply list_insert_id. rewrite list_lookup_fmap, Hr. cbn. f_equal. unfold apply, identity. destruct (Gitops.Drift live) as [drift note].
    by destruct (if bool_decide (note = Gitops.noDeclaration) then Gitops.Ownership live controller else (drift, note)).
  - intros i Hi. by rewrite list_lookup_insert_ne.
Qed.

Lemma reading_keeps descs controller l st :
  map identity (foldl (readOne read descs controller) st l).1 = map identity st.1 /\
  (forall i, i ∉ l -> (foldl (readOne read descs controller) st l).1 !! i = st.1 !! i).
Proof.
  revert st. induction l as [| at_ l IH]; intros st; [done |]. cbn. destruct (IH (readOne read descs controller st at_)) as [IH1 IH2].
  destruct (readOne_keeps descs controller st at_) as [H1 H2]. split; [by rewrite IH1 |]. intros i Hi. rewrite IH2, H2; [done | |].
  - intros ->. apply Hi, list_elem_of_here.
  - intros Hl. by apply Hi, list_elem_of_further.
Qed.

(** Reading an application keeps which resources it has and in what order; at
    most twenty-five are read, each once, and none that is read has less to
    say than one that is not; a resource that is not read is as the controller
    reported it, and whether some are not read is told. *)
Lemma enrich_reads_the_troubled (events : string -> string -> result string (list U * bool)) descs app withEvents :
  let resources := identify descs (ga_Resources app) in
  let read_ := take maxLiveReads (readingOrder resources) in
  let told := (enrich read events descs app withEvents).1 in
  map identity (ga_Resources told) = map identity (ga_Resources app) /\
  length read_ <= maxLiveReads /\ NoDup read_ /\
  (forall a b x y, a ∈ read_ -> b ∉ read_ -> resources !! a = Some x -> resources !! b = Some y -> (interest y <= interest x)%Z) /\
  (forall i, i ∉ read_ -> ga_Resources told !! i = resources !! i) /\
  (ga_Issues told = ga_Issues app <-> length read_ = length resources).
Proof.
  intros resources read_ told. pose proof (readingOrder_perm resources) as Hp. unfold told, enrich. fold resources. fold read_.
  pose proof (reading_keeps descs (ga_Controller app) read_ (resources, ∅)) as [Hk1 Hk2].
  destruct (foldl (readOne read descs (ga_Controller app)) (resources, ∅) read_) as [after uids] eqn:Hf.
  cbn [fst ga_Resources with_read ga_Issues] in *.
  assert (length (readingOrder resources) = length resources) as Hlen by (by rewrite Hp, length_seq).
  split; [rewrite Hk1; apply identify_identity |]. split; [unfold read_; rewrite length_take; lia |]. split.
  { apply (NoDup_sub _ (readingOrder resources)); [apply sublist_submseteq, sublist_take | rewrite Hp; apply NoDup_seq]. }
  split; [| split; [done |]].
  - intros a b x y [i Hi]%list_elem_of_lookup Hb Hx Hy.
    assert (b ∈ readingOrder resources) as Hbo.
    { rewrite Hp. apply elem_of_seq. apply lookup_lt_Some in Hy. lia. }
    apply list_elem_of_lookup in Hbo as [j Hj]. unfold read_ in Hi. apply lookup_take_Some in Hi as [Hi Hm].
    apply (readingOrder_ranked resources i j a b); [| done..]. destruct (decide (j < maxLiveReads)); [| lia].
    exfalso. apply Hb. apply list_elem_of_lookup. exists j. by apply lookup_take_Some.
  - unfold partialIssue, zlen. rewrite Hlen. assert (length read_ <= length resources) as Hle.
    { unfold read_. rewrite length_take, Hlen. lia. }
    destruct (Z.ltb_spec (Z.of_nat (length read_)) (Z.of_nat (length resources))) as [Hlt | Hge].
    + split; [| lia]. intros H. apply (f_equal length) in H. rewrite length_app in H. cbn in H. lia.
    + rewrite app_nil_r. split; [lia | done].
Qed.
End promises.

(** ** The source of a Helm release *)

Definition helmKind : ResourceDescriptor := MkResourceDescriptor "helm.toolkit.fluxcd.io" "v2" "helmreleases" "HelmRelease" true "".
Definition repositoryKind : ResourceDescriptor :=
  MkResourceDescriptor "source.toolkit.fluxcd.io" "v1" "helmrepositories" "HelmRepository" true "".

Definition release : Doc :=
  MkDoc [("kind", AString "HelmRelease"); ("metadata", AMap [("name", AString "shop"); ("namespace", AString "apps")]);
    ("spec", AMap [("chart", AMap [("spec", AMap [("chart", AString "shop"); ("sourceRef", AMap [("kind", AString "HelmRepository");
      ("name", AString "charts"); ("namespace", AString "flux-system")])])])])].

(** A release's chart comes from a repository of another namespace; the source
    shown is read from the release's own. *)
Definition source_read (namespace : string) : result string Doc :=
  if bool_decide (namespace = "flux-system") then Ok (MkDoc [("spec", AMap [("url", AString "https://wanted")])])
  else if bool_decide (namespace = "apps") then Ok (MkDoc [("spec", AMap [("url", AString "https://other")])])
  else Err "not found".

Definition plain_times : RFC3339 := {| ParseTime _ := None; FormatTime _ := "" |}.

Example release_source_elsewhere :
  Flux.SourceRef release = ("HelmRepository", "charts", "flux-system") /\
  gs_Repo (ga_Source (build (Tm := plain_times) (Wd := ArgoViews.plain_words) (fun ref => source_read (or_Namespace ref)) [helmKind; repositoryKind] release helmKind)) =
    "https://other".
Proof. by vm_compute. Qed.
End Detail.
