(* ===== verification/Timeline.v ===== *)
(** internal/resources/timeline.go and internal/server/timeline.go: which
    changes of a cluster are noted, and the recording that writes them down
    and says what it could not.  The store keeps all of what it is given or,
    with an error, nothing, and which of the two is a step choice; a store whose
    database could not be opened or was closed keeps nothing and says no error. *)

From S2P Require Import Prelude Api Text Issues.

Module Timeline.
Import Text.

Definition timelineOff : string := "".
Definition timelineWorkloads : string := "workloads".
Definition timelineWide : string := "wide".
Definition timelineQueue : Z := 2048.
Definition timelineBatch : Z := 256.
Definition timelineRows : Z := 200000.
Definition timelineDays : Z := 7.
Definition timelineMaxDays : Z := 90.
Definition pruneEvery : Z := 2000.
Definition Removed : string := "removed".
Definition Gap : string := "gap".
Definition HistoryChange : string := "change".
Definition HistoryDone : string := "done".
Definition HistoryLost : string := "lost".

Record Kind := MkKind { ki_Group : string; ki_Resource : string }.

#[export] Instance Kind_eq_dec : EqDecision Kind.
Proof. solve_decision. Defined.

Definition workloadKinds : list Kind := [MkKind "" "pods"; MkKind "apps" "deployments"; MkKind "apps" "statefulsets"; MkKind "apps" "daemonsets";
  MkKind "apps" "replicasets"; MkKind "batch" "jobs"; MkKind "batch" "cronjobs"].

Definition alsoWideKinds : list Kind := [MkKind "" "services"; MkKind "" "nodes"; MkKind "networking.k8s.io" "ingresses";
  MkKind "kustomize.toolkit.fluxcd.io" "kustomizations"; MkKind "helm.toolkit.fluxcd.io" "helmreleases";
  MkKind "source.toolkit.fluxcd.io" "gitrepositories"; MkKind "source.toolkit.fluxcd.io" "helmrepositories";
  MkKind "source.toolkit.fluxcd.io" "ocirepositories"; MkKind "argoproj.io" "applications"].

Definition kindsNamed (name : string) : option (list Kind) :=
  if bool_decide (name = timelineWorkloads) then Some workloadKinds
  else if bool_decide (name = timelineWide) then Some (workloadKinds ++ alsoWideKinds)
  else None.

(** [keepDays] of what the setting reads as. *)
Definition keepDays (asked : option Z) : Z :=
  let days := match asked with Some n => if (0 <? n)%Z then n else timelineDays | None => timelineDays end in
  if (timelineMaxDays <? days)%Z then timelineMaxDays else days.

(** [resources.Note], and [store.Change] but for its id and cluster *)
Record Change := MkChange {
  ch_At : time;
  ch_Verb : string;
  ch_Group : string;
  ch_Version : string;
  ch_Resource : string;
  ch_Kind : string;
  ch_Namespace : string;
  ch_Name : string;
  ch_UID : string;
  ch_Cells : list string;
  ch_Was : list string;
}.

#[export] Instance Change_eq_dec : EqDecision Change.
Proof. solve_decision. Defined.

(** ** What is noted: resources/timeline.go *)

Record ContainerRow := MkContainerRow { cr_Name : string; cr_State : string; cr_Reason : string; cr_Ready : bool; cr_Restarts : Z }.
Record Row := MkRow { rw_UID : string; rw_Cells : list string; rw_Containers : list ContainerRow }.

(** [fnv.New64a] *)
Definition fnvOffset : Z := 14695981039346656037.
Definition fnvPrime : Z := 1099511628211.
Definition fnvByte (digest : Z) (c : Ascii.ascii) : Z := (Z.lxor digest (Z.of_N (Ascii.N_of_ascii c)) * fnvPrime) mod 2 ^ 64.
Definition fnvWrite (digest : Z) (s : string) : Z := foldl fnvByte digest (String.list_ascii_of_string s).

Definition boolWord (b : bool) : string := if b then "true" else "false".

Definition shapeOf (row : Row) : Z :=
  let cells := foldl (fun digest cell => fnvWrite (fnvWrite digest cell) nul) fnvOffset (rw_Cells row) in
  foldl (fun digest one =>
    fnvWrite (fnvWrite (fnvWrite (fnvWrite digest (cr_Name one +s+ nul +s+ cr_State one +s+ nul +s+ cr_Reason one)) (boolWord (cr_Ready one)))
      (Itoa (cr_Restarts one))) nul) cells (rw_Containers row).

Record held := MkHeld { shape : Z; cells : list string }.

(** [rowIsNew]: the rows seen, what the row was, and whether it is new. *)
Definition rowIsNew (seen : gmap string held) (verb : string) (row : Row) : gmap string held * (list string * bool) :=
  let was := seen !! rw_UID row in
  if bool_decide (verb = Removed) then (delete (rw_UID row) seen, (match was with Some last => cells last | None => [] end, true))
  else
    let shape_ := shapeOf row in
    (<[rw_UID row := MkHeld shape_ (rw_Cells row)]> seen,
     match was with
     | None => ([], true)
     | Some last => if (shape last =? shape_)%Z then ([], false) else (cells last, true)
     end).

(** [stream.note]: what is handed to the timeline, once the watch's first list
    was delivered. *)
Definition note (seen : gmap string held) (delivered : bool) (ch : Change) (row : Row) : gmap string held * option Change :=
  let '(seen, (was, fresh)) := rowIsNew seen (ch_Verb ch) row in
  (seen, if negb fresh || negb delivered then None
    else Some (MkChange (ch_At ch) (ch_Verb ch) (ch_Group ch) (ch_Version ch) (ch_Resource ch) (ch_Kind ch) (ch_Namespace ch) (ch_Name ch)
      (ch_UID ch) (rw_Cells row) was)).

(** What of the manager a recording sets: where notes go and of which kinds. *)
Record noting := MkNoting { nt_on : bool; nt_kinds : list (string * string * string) }.

(** [record]: whether a note of a kind goes to the timeline. *)
Definition taken (m : noting) (gvr : string * string * string) : bool := nt_on m && contains (nt_kinds m) gvr.

(** [recorded]; [known] in the order of the descriptors. *)
Definition recorded (known : list Api.ResourceDescriptor) (kinds : list Kind) : list Api.ResourceDescriptor :=
  omap (fun want => List.find (fun desc => bool_decide (Api.rd_Group desc = ki_Group want) && bool_decide (Api.rd_Resource desc = ki_Resource want)) known)
    kinds.

Definition StopRecording (m : noting) : noting := MkNoting false [].

(** ** The recording: server/timeline.go *)

Record timelineGap := MkGap { gp_from : time; gp_to : time; gp_count : Z }.
Definition noGap : timelineGap := MkGap zeroTime zeroTime 0.

#[export] Instance timelineGap_eq_dec : EqDecision timelineGap.
Proof. solve_decision. Defined.

Record recording := MkRecording { queue : list Change; dropped : Z; lost : Z; written : Z; gap : timelineGap }.

Definition noteLoss (g : timelineGap) (count : Z) (from to : time) : timelineGap :=
  MkGap (if (gp_count g =? 0)%Z || Before from (gp_from g) then from else gp_from g) (if After to (gp_to g) then to else gp_to g) (gp_count g + count).

Definition Note (t : recording) (change : Change) : recording :=
  if (zlen (queue t) <? timelineQueue)%Z then MkRecording (queue t ++ [change]) (dropped t) (lost t) (written t) (gap t)
  else MkRecording (queue t) (dropped t + 1) (lost t) (written t) (noteLoss (gap t) 1 (ch_At change) (ch_At change)).

(** What is left of the gap when one of it was told. *)
Definition toldOf (g told : timelineGap) : timelineGap :=
  let count := (gp_count g - gp_count told)%Z in
  if (count <=? 0)%Z then noGap else MkGap (gp_to told) (gp_to g) count.

(** The earliest and the latest time of a batch that is not empty. *)
Definition spanOf (first : Change) (rest : list Change) : time * time :=
  (foldl (fun from one => if Before (ch_At one) from then ch_At one else from) (ch_At first) rest,
   foldl (fun to one => if After (ch_At one) to then ch_At one else to) (ch_At first) rest).

Definition lose (t : recording) (batch : list Change) : recording :=
  match batch with
  | [] => t
  | first :: rest =>
      let '(from, to) := spanOf first rest in
      MkRecording (queue t) (dropped t) (lost t + zlen batch) (written t) (noteLoss (gap t) (zlen batch) from to)
  end.

Definition with_queue (t : recording) (queue : list Change) : recording := MkRecording queue (dropped t) (lost t) (written t) (gap t).
Definition with_gap (t : recording) (gap : timelineGap) : recording := MkRecording (queue t) (dropped t) (lost t) (written t) gap.
Definition with_written (t : recording) (written : Z) : recording := MkRecording (queue t) (dropped t) (lost t) written (gap t).

Section rows.
Context {Tm : RFC3339}.

Definition gapRow (g : timelineGap) (now : time) : Change :=
  let from := if IsZero (gp_from g) then now else gp_from g in
  let to := if Before (gp_to g) from then from else gp_to g in
  MkChange from Gap "" "" "" "" "" "the timeline" ""
    [Itoa (gp_count g) +s+ " changes between " +s+ FormatTime from +s+ " and " +s+ FormatTime to +s+ " were not written down"] [].

Record HistoryEntry := MkHistoryEntry {
  he_ID : Z;
  he_Source : string;
  he_Cluster : string;
  he_At : string;
  he_Verb : string;
  he_Group : string;
  he_Version : string;
  he_Resource : string;
  he_Kind : string;
  he_Namespace : string;
  he_Name : string;
  he_Detail : string;
  he_Was : string;
  he_Outcome : string;
}.

Definition changeOutcome (verb : string) : string := if bool_decide (verb = Gap) then HistoryLost else HistoryDone.

(** The rows of the store come with their ids and cluster. *)
Definition changesOf (rows : list (Z * string * Change)) : list HistoryEntry :=
  map (fun '(id, cluster, one) =>
    MkHistoryEntry id HistoryChange cluster (FormatTime (ch_At one)) (ch_Verb one) (ch_Group one) (ch_Version one) (ch_Resource one) (ch_Kind one)
      (ch_Namespace one) (ch_Name one) (Join " · " (ch_Cells one)) (Join " · " (ch_Was one)) (changeOutcome (ch_Verb one))) rows.
End rows.

(** Where the goroutine of a recording is: trimming the store, waiting for a
    change, filling a batch, about to look for a gap, telling of one, writing
    the batch, and gone. *)
Inductive position :=
| Trimming
| Waiting
| Filling (batch : list Change)
| Looking (batch : list Change)
| Telling (batch : list Change) (g : timelineGap)
| Writing (batch : list Change)
| Gone.

(** What the store was given and kept: a batch's change, or a gap. *)
Inductive row := OfChange (change : Change) | OfGap (g : timelineGap).

(** [Store.note] ([fails]: the transaction fails): what the store keeps then, and
    whether it answers without an error.  [writer]: it has a database. *)
Definition storeNote (writer fails : bool) (kept rows : list row) : list row * bool :=
  if negb writer then (kept, true) else if fails then (kept, false) else (kept ++ rows, true).

(** [writer]: whether the store has its database.  [unkept]: what it was given
    without one. *)
Record state := MkState {
  tape : recording;
  at_ : position;
  stopping : bool;
  draining : bool;
  writer : bool;
  kept : list row;
  unkept : list row;
  noted : list Change;
}.

(** What a store without a database was given. *)
Definition passedOver (writer : bool) (unkept rows : list row) : list row := if writer then unkept else unkept ++ rows.

(** [run]: changes are noted, the recording is asked to stop and the store is
    closed at any time; the goroutine receives, fills, tells and writes. *)
Inductive step : state -> state -> Prop :=
| step_note t p s d w k u n change : step (MkState t p s d w k u n) (MkState (Note t change) p s d w k u (n ++ [change]))
| step_stop t p s d w k u n : step (MkState t p s d w k u n) (MkState t p true d w k u n)
| step_closed t p s d w k u n : step (MkState t p s d w k u n) (MkState t p s d false k u n)
| step_trimmed t s d w k u n : step (MkState t Trimming s d w k u n) (MkState t Waiting s d w k u n)
| step_receive t s d w k u n first rest :
    queue t = first :: rest -> step (MkState t Waiting s d w k u n) (MkState (with_queue t rest) (Filling [first]) s d w k u n)
| step_flush t w k u n : step (MkState t Waiting true false w k u n) (MkState t Waiting true true w k u n)
| step_gone t s w k u n : queue t = [] -> step (MkState t Waiting s true w k u n) (MkState t Gone s true w k u n)
| step_fill t s d w k u n batch next rest :
    (zlen batch < timelineBatch)%Z -> queue t = next :: rest ->
    step (MkState t (Filling batch) s d w k u n) (MkState (with_queue t rest) (Filling (batch ++ [next])) s d w k u n)
| step_filled t s d w k u n batch :
    (timelineBatch <= zlen batch)%Z \/ queue t = [] ->
    step (MkState t (Filling batch) s d w k u n) (MkState t (Looking batch) s d w k u n)
| step_no_gap t s d w k u n batch :
    gp_count (gap t) = 0%Z -> step (MkState t (Looking batch) s d w k u n) (MkState t (Writing batch) s d w k u n)
| step_gap t s d w k u n batch :
    gp_count (gap t) <> 0%Z -> step (MkState t (Looking batch) s d w k u n) (MkState t (Telling batch (gap t)) s d w k u n)
| step_told t s d w k u n batch g fails k' :
    storeNote w fails k [OfGap g] = (k', true) ->
    step (MkState t (Telling batch g) s d w k u n)
      (MkState (with_gap t (toldOf (gap t) g)) (Writing batch) s d w k' (passedOver w u [OfGap g]) n)
| step_untold t s d w k u n batch g fails k' :
    storeNote w fails k [OfGap g] = (k', false) ->
    step (MkState t (Telling batch g) s d w k u n) (MkState t (Writing batch) s d w k' u n)
| step_written t s d w k u n batch fails k' :
    let total := (written t + zlen batch)%Z in
    storeNote w fails k (map OfChange batch) = (k', true) ->
    step (MkState t (Writing batch) s d w k u n)
      (MkState (with_written t (if (total <? pruneEvery)%Z then total else 0)) (if (total <? pruneEvery)%Z then Waiting else Trimming) s d w
        k' (passedOver w u (map OfChange batch)) n)
| step_lost t s d w k u n batch fails k' :
    storeNote w fails k (map OfChange batch) = (k', false) ->
    step (MkState t (Writing batch) s d w k u n) (MkState (lose t batch) Waiting s d w k' u n).

(** A recording of a store that has its database, or has not. *)
Definition start (writer : bool) : state := MkState (MkRecording [] 0 0 0 noGap) Trimming false false writer [] [] [].

(** ** What a recording accounts for *)

Definition hand (p : position) : list Change :=
  match p with Filling batch | Looking batch | Telling batch _ | Writing batch => batch | _ => [] end.

Definition changes (k : list row) : list Change := omap (fun r => match r with OfChange c => Some c | OfGap _ => None end) k.
Definition told (k : list row) : Z := sum_of (fun r => match r with OfChange _ => 0%Z | OfGap g => gp_count g end) k.

#[local] Arguments changes : simpl never.
#[local] Arguments told : simpl never.

Record accounts (s : state) : Prop := {
  ac_order : sublist (changes (kept s) ++ hand (at_ s) ++ queue (tape s)) (noted s);
  ac_all : zlen (noted s) = (zlen (changes (kept s)) + zlen (hand (at_ s)) + zlen (queue (tape s)) + told (kept s) + gp_count (gap (tape s))
    + zlen (changes (unkept s)) + told (unkept s))%Z;
  ac_lost : (dropped (tape s) + lost (tape s) = told (kept s) + gp_count (gap (tape s)) + told (unkept s))%Z;
  ac_gap : (0 <= gp_count (gap (tape s)))%Z;
  ac_telling : forall batch g, at_ s = Telling batch g -> (0 < gp_count g <= gp_count (gap (tape s)))%Z;
  ac_writer : writer s = true -> unkept s = [];
}.

Lemma changes_app k l : changes (k ++ l) = changes k ++ changes l.
Proof. apply omap_app. Qed.

Lemma changes_batch batch : changes (map OfChange batch) = batch.
Proof. unfold changes. induction batch as [| c batch IH]; [done |]. cbn. by rewrite IH. Qed.

Lemma told_app k l : told (k ++ l) = (told k + told l)%Z.
Proof. unfold told. induction k as [| r k IH]; [done |]. cbn [app]. rewrite !sum_of_cons, IH. lia. Qed.

Lemma told_batch batch : told (map OfChange batch) = 0%Z.
Proof. unfold told. induction batch as [| c batch IH]; [done |]. cbn [map]. by rewrite sum_of_cons, IH. Qed.

Lemma changes_gap g : changes [OfGap g] = [].
Proof. done. Qed.

Lemma told_gap g : told [OfGap g] = gp_count g.
Proof. unfold told. cbn. lia. Qed.

Lemma lose_spec t batch :
  queue (lose t batch) = queue t /\ dropped (lose t batch) = dropped t /\ lost (lose t batch) = (lost t + zlen batch)%Z /\
  gp_count (gap (lose t batch)) = (gp_count (gap t) + zlen batch)%Z.
Proof.
  destruct batch as [| first rest]; [rewrite zlen_nil; split_and!; cbn; first [done | lia] |]. unfold lose. destruct (spanOf first rest). by cbn.
Qed.

Lemma accounts_start w : accounts (start w).
Proof. split; cbn; try done; try lia. Qed.

(** Without an error the rows are kept, or passed over for want of a database;
    with one nothing is. *)
Lemma storeNote_spec w fails k rows k' ok :
  storeNote w fails k rows = (k', ok) ->
  match ok with
  | true => if w then k' = k ++ rows else k' = k
  | false => k' = k
  end.
Proof. unfold storeNote. destruct w, fails; cbn; by intros [= <- <-]. Qed.

Lemma accounts_note t p s d w k u n change :
  accounts (MkState t p s d w k u n) -> accounts (MkState (Note t change) p s d w k u (n ++ [change])).
Proof.
  intros [H1 H2 H3 H4 H5 H6]. unfold Note. cbn in *. destruct (_ <? _)%Z; cbn in *.
  - split; cbn; try done.
    + rewrite !app_assoc. rewrite !app_assoc in H1. by apply sublist_app.
    + rewrite !zlen_app, !zlen_cons, zlen_nil. lia.
  - split; cbn; try done; try (rewrite ?zlen_app, ?zlen_cons, ?zlen_nil; lia).
    + by apply sublist_inserts_r.
    + intros b g ->. specialize (H5 b g eq_refl). lia.
Qed.

Lemma accounts_told t s d w k u n batch g fails k' :
  accounts (MkState t (Telling batch g) s d w k u n) -> storeNote w fails k [OfGap g] = (k', true) ->
  accounts (MkState (with_gap t (toldOf (gap t) g)) (Writing batch) s d w k' (passedOver w u [OfGap g]) n).
Proof.
  intros [H1 H2 H3 H4 H5 H6] Hn%storeNote_spec. specialize (H5 batch g eq_refl). cbn in *.
  assert (Hc : gp_count (toldOf (gap t) g) = (gp_count (gap t) - gp_count g)%Z) by (unfold toldOf; zcases; cbn; lia).
  destruct w; subst k'; (split; cbn [tape at_ kept unkept noted with_gap queue dropped lost gap writer passedOver hand];
    rewrite ?changes_app, ?changes_gap, ?app_nil_r, ?told_app, ?told_gap, ?Hc; first [done | lia | auto]).
Qed.

Lemma accounts_written t s d w k u n batch fails k' written' p' :
  accounts (MkState t (Writing batch) s d w k u n) -> storeNote w fails k (map OfChange batch) = (k', true) ->
  hand p' = [] -> (forall b g, p' <> Telling b g) ->
  accounts (MkState (with_written t written') p' s d w k' (passedOver w u (map OfChange batch)) n).
Proof.
  intros [H1 H2 H3 H4 H5 H6] Hn%storeNote_spec Hp Ht. cbn in *.
  destruct w; subst k'; (split; cbn [tape at_ kept unkept noted with_written queue dropped lost gap writer passedOver];
    rewrite ?Hp, ?changes_app, ?changes_batch, ?told_app, ?told_batch, ?zlen_app, ?zlen_nil; cbn [app]; rewrite <- ?app_assoc;
    first [done | lia | by intros b g ?%Ht | idtac]).
  etransitivity; [| exact H1]. apply sublist_app; [done |]. by apply sublist_inserts_l.
Qed.

Lemma accounts_lost t s d w k u n batch fails k' :
  accounts (MkState t (Writing batch) s d w k u n) -> storeNote w fails k (map OfChange batch) = (k', false) ->
  accounts (MkState (lose t batch) Waiting s d w k' u n).
Proof.
  intros [H1 H2 H3 H4 H5 H6] ->%storeNote_spec. destruct (lose_spec t batch) as (Hq & Hd & Hl & Hg).
  split; cbn in *; rewrite ?Hq, ?Hd, ?Hl, ?Hg, ?zlen_nil; try done; try lia.
  - etransitivity; [| exact H1]. apply sublist_app; [done |]. by apply sublist_inserts_l.
  - pose proof (zlen_nonneg batch). lia.
Qed.

Lemma accounts_step s s' : accounts s -> step s s' -> accounts s'.
Proof.
  intros Ha Hstep. pose proof Ha as [H1 H2 H3 H4 H5 H6]. destruct Hstep as [| | | | ? ? ? ? ? ? ? ? ? Hq | | | ? ? ? ? ? ? ? ? ? ? Hb Hq
    | | | | | ? ? ? ? ? ? ? ? ? ? ? Hn | |]; cbn [tape at_ kept unkept writer noted] in *.
  - by apply accounts_note.
  - by split.
  - by split.
  - split; cbn in *; done.
  - rewrite Hq in *. split; cbn in *; try done. rewrite !zlen_cons, zlen_nil in *. lia.
  - by split.
  - by split.
  - rewrite Hq in *. split; cbn in *; try done.
    + by rewrite <- app_assoc.
    + rewrite zlen_app, !zlen_cons, zlen_nil in *. lia.
  - split; cbn in *; done.
  - split; cbn in *; done.
  - split; cbn in *; try done. intros b g [= <- <-]. lia.
  - by eapply accounts_told.
  - apply storeNote_spec in Hn as ->. by split.
  - eapply accounts_written; [done | done | by destruct (_ <? _)%Z | by destruct (_ <? _)%Z].
  - by eapply accounts_lost.
Qed.

(** C35: whatever is noted while a recording runs, falls behind, cannot write, is
    stopped and has its store closed: what it wrote down are changes that were
    noted, in their order and each once, and every other one is still in its
    hands or in the queue, or is counted as lost, in a gap the store was told of
    or in the gap not told of (which is never told of when the recording ends
    first), or was given to a store without a database, which keeps nothing and
    says so to no one; as long as the store has its database there are none of
    these. *)
Theorem timeline_accounts s w :
  rtc step (start w) s ->
  sublist (changes (kept s) ++ hand (at_ s) ++ queue (tape s)) (noted s) /\
  zlen (noted s) = (zlen (changes (kept s)) + zlen (hand (at_ s)) + zlen (queue (tape s)) + told (kept s) + gp_count (gap (tape s))
    + zlen (changes (unkept s)) + told (unkept s))%Z /\
  (dropped (tape s) + lost (tape s) = told (kept s) + gp_count (gap (tape s)) + told (unkept s))%Z /\
  (0 <= gp_count (gap (tape s)))%Z /\
  (writer s = true -> unkept s = []).
Proof.
  intros Hrun. assert (accounts s) as [H1 H2 H3 H4 _ H6] by (eapply (rtc_invariant step accounts); [intros; by eapply accounts_step | apply accounts_start | exact Hrun]).
  by split_and!.
Qed.

(** One change is noted, cannot be written down, and the recording is stopped. *)
Definition sample (at_ : time) : Change := MkChange at_ "changed" "" "v1" "pods" "Pod" "shop" "web" "1" ["Running"] [].
Definition after_stop : state := MkState (lose (MkRecording [] 0 0 0 noGap) [sample 5]) Gone true true true [] [] [sample 5].

Lemma stopped_untold : rtc step (start true) after_stop.
Proof.
  unfold start, after_stop. eapply rtc_l; [apply (step_note _ _ _ _ _ _ _ _ (sample 5)) |]. eapply rtc_l; [apply step_trimmed |].
  eapply rtc_l; [by apply (step_receive _ _ _ _ _ _ _ (sample 5) []) |]. eapply rtc_l; [by apply step_filled; right |]. eapply rtc_l; [by apply step_no_gap |].
  eapply rtc_l; [by apply (step_lost _ _ _ _ _ _ _ _ true) |]. eapply rtc_l; [apply step_stop |]. eapply rtc_l; [apply step_flush |]. eapply rtc_l; [by apply step_gone |]. apply rtc_refl.
Qed.

Lemma timeline_accounts_witness :
  rtc step (start true) after_stop /\
  (dropped (tape after_stop) + lost (tape after_stop) = told (kept after_stop) + gp_count (gap (tape after_stop)) + told (unkept after_stop))%Z.
Proof. split; [exact stopped_untold |]. exact (proj1 (proj2 (proj2 (timeline_accounts after_stop true stopped_untold)))). Defined.

(** The goroutine is gone and the change it could not write is told of nowhere. *)
Example gap_untold_at_stop :
  rtc step (start true) after_stop /\ at_ after_stop = Gone /\ kept after_stop = [] /\ gp_count (gap (tape after_stop)) = 1%Z.
Proof. split; [exact stopped_untold | by vm_compute]. Qed.

(** One change is noted on a store without a database: it is neither kept nor lost. *)
Definition unwritten : state :=
  MkState (MkRecording [] 0 0 1 noGap) Waiting false false false [] [OfChange (sample 5)] [sample 5].

Example unwritten_untold :
  rtc step (start false) unwritten /\ kept unwritten = [] /\ dropped (tape unwritten) = 0%Z /\ lost (tape unwritten) = 0%Z /\
  gap (tape unwritten) = noGap.
Proof.
  split; [| by vm_compute]. unfold start, unwritten.
  eapply rtc_l; [apply (step_note _ _ _ _ _ _ _ _ (sample 5)) |]. eapply rtc_l; [apply step_trimmed |].
  eapply rtc_l; [by apply (step_receive _ _ _ _ _ _ _ (sample 5) []) |]. eapply rtc_l; [by apply step_filled; right |]. eapply rtc_l; [by apply step_no_gap |].
  eapply rtc_l; [by apply (step_written _ _ _ _ _ _ _ _ false) |]. apply rtc_refl.
Qed.

(** A change of the time 15 is dropped while a gap from 10 to 20 is told of:
    the next gap is said to be from 20 to 20. *)
Example gap_misses_its_change :
  let g := noteLoss (noteLoss noGap 1 10 10) 1 20 20 in toldOf (noteLoss g 1 15 15) g = MkGap 20 20 1.
Proof. by vm_compute. Qed.

(** ** What is noted of a row *)

(** A row is new when it is gone, was not seen, or looks different, and is told
    with how it was. *)
Lemma rowIsNew_spec seen verb row :
  let '(seen', (was, fresh)) := rowIsNew seen verb row in
  (fresh = true <-> verb = Removed \/ forall last, seen !! rw_UID row = Some last -> shape last <> shapeOf row) /\
  (fresh = true -> was = match seen !! rw_UID row with Some last => cells last | None => [] end) /\
  seen' !! rw_UID row = (if bool_decide (verb = Removed) then None else Some (MkHeld (shapeOf row) (rw_Cells row))) /\
  (forall uid, uid <> rw_UID row -> seen' !! uid = seen !! uid).
Proof.
  unfold rowIsNew. case_bool_decide as Hv.
  - split; [naive_solver | split; [done | split; [apply lookup_delete_eq |]]]. intros uid Hu. by rewrite lookup_delete_ne.
  - destruct (seen !! rw_UID row) as [last |].
    + destruct (Z.eqb_spec (shape last) (shapeOf row)); (split; [naive_solver | split; [done | split; [apply lookup_insert_eq |]]]); intros uid Hu; by rewrite lookup_insert_ne.
    + split; [naive_solver | split; [done | split; [apply lookup_insert_eq |]]]. intros uid Hu. by rewrite lookup_insert_ne.
Qed.

Lemma keepDays_range asked : (1 <= keepDays asked <= timelineMaxDays)%Z.
Proof. unfold keepDays, timelineMaxDays, timelineDays. destruct asked; zcases; lia. Qed.
End Timeline.
