(* ===== verification/Update.v ===== *)
(** internal/update: whether a newer release is out, and replacing the program
    by its install script.  The network, the operating system and encoding/json
    answer with arguments of the definitions. *)

From S2P Require Import Prelude Api Text Rollout Actions.

Module Update.
Import Text.

Definition Endpoint : string := "https://spinoza.tech/api/latest".
Definition Command : string := "curl -fsSL https://spinoza.tech/install.sh | sh".
Definition PowerShellCommand : string := "irm https://spinoza.tech/install.ps1 | iex".
Definition Script : string := "https://spinoza.tech/install.sh".
Definition skipApp : string := "SPINOZA_SKIP_APP".
Definition maxScript : Z := Z.shiftl 1 20.
Definition maxAnswer : Z := Z.shiftl 1 20.
Definition maxRedirects : Z := 10.
Definition releasePrefix : string := "v".
Definition installable : list string := ["darwin"; "linux"].
Definition ErrUnsupported : string := "this build cannot replace itself".
Definition ErrBusy : string := "an update is already running".
Definition StatusOK : Z := 200.

Definition commandFor (goos : string) : string := if bool_decide (goos = "windows") then PowerShellCommand else Command.

(** ** Versions *)

Definition dot : Ascii.ascii := Ascii.ascii_of_N 46.

Fixpoint numbers (fields : list string) : option (list Z) :=
  match fields with
  | [] => Some []
  | field :: rest =>
      match Parse.ParseInt field 64 with
      | Err _ => None
      | Ok number => if (number <? 0)%Z then None else cons number <$> numbers rest
      end
  end.

(** [parts]; none where it gives nil. *)
Definition parts (version : string) : option (list Z) :=
  let fields := str_split dot (default version (strip_prefix releasePrefix version)) in
  if negb (zlen fields =? 3)%Z then None else numbers fields.

Definition released (version : string) : bool :=
  if negb (has_prefix version releasePrefix) then false else match parts version with Some l => (zlen l =? 3)%Z | None => false end.

Fixpoint above (ls rs : list Z) : bool :=
  match ls, rs with
  | l :: ls, r :: rs => if (r <? l)%Z then true else if (l <? r)%Z then false else above ls rs
  | _, _ => false
  end.

Definition newer (candidate current : string) : bool :=
  if negb (released candidate) then false
  else
    let left := default [] (parts candidate) in
    let right := default [] (parts current) in
    if negb (zlen right =? zlen left)%Z then true else above left right.

(** ** Asking for the newest release *)

Record UpdateStatus := MkUpdateStatus {
  us_Checked : bool;
  us_Current : string;
  us_Latest : string;
  us_Available : bool;
  us_URL : string;
  us_Command : string;
  us_Reason : string;
}.

#[export] Instance UpdateStatus_eq_dec : EqDecision UpdateStatus.
Proof. solve_decision. Defined.

(** [ask] of what the endpoint answered: a tag and a page. *)
Definition ask (current goos : string) (found : result string (string * string)) : UpdateStatus :=
  if negb (released current) then
    MkUpdateStatus false current "" false "" "" "this build was not made from a release, so there is nothing to compare"
  else match found with
    | Err e => MkUpdateStatus false current "" false "" "" e
    | Ok (tag, url) =>
        let available := newer tag current in
        MkUpdateStatus true current tag available url (if available then commandFor goos else "") ""
    end.

Record Checker := MkChecker { asked : bool; answer : UpdateStatus; request : Z }.

Definition noStatus : UpdateStatus := MkUpdateStatus false "" "" false "" "" "".
Definition New : Checker := MkChecker false noStatus 0.

(** [Status], under its mutex from end to end; [found] is what an answer would be. *)
Definition Status (c : Checker) (found : UpdateStatus) : Checker * UpdateStatus :=
  if asked c then (c, answer c) else (MkChecker true found (request c + 1), found).

(** The two critical sections of [Recheck]. *)
Definition recheckBegin (c : Checker) : Checker * Z := (MkChecker (asked c) (answer c) (request c + 1), (request c + 1)%Z).
Definition recheckEnd (c : Checker) (mine : Z) (found : UpdateStatus) : Checker :=
  if bool_decide (mine <> request c) then c else MkChecker true found (request c).

(** The checker, the rechecks on their way, and the request the kept answer is of. *)
Record checking := MkChecking { checker : Checker; running : list Z; kept_of : Z }.

Inductive step : checking -> checking -> Prop :=
| step_status c rs k found :
    step (MkChecking c rs k) (MkChecking (Status c found).1 rs (if asked c then k else request c + 1))
| step_begin c rs k : step (MkChecking c rs k) (MkChecking (recheckBegin c).1 (rs ++ [(recheckBegin c).2]) k)
| step_end c before mine after k found :
    step (MkChecking c (before ++ mine :: after) k)
      (MkChecking (recheckEnd c mine found) (before ++ after) (if bool_decide (mine <> request c) then k else mine)).

(** An answer is only replaced by one that was asked for later. *)
Lemma answers_in_order s s' :
  step s s' -> (kept_of s <= request (checker s))%Z -> (kept_of s <= kept_of s')%Z /\ (kept_of s' <= request (checker s'))%Z /\ (request (checker s) <= request (checker s'))%Z.
Proof.
  intros Hstep Hk. destruct Hstep as [c rs k found | c rs k | c before mine after k found]; cbn in *.
  - unfold Status. destruct (asked c); cbn; lia.
  - lia.
  - unfold recheckEnd. case_bool_decide as Hm; cbn; [lia |]. assert (mine = request c) as -> by by destruct (decide (mine = request c)). lia.
Qed.

(** A release above another one is not below it. *)
Lemma above_asym ls rs : above ls rs = true -> above rs ls = false.
Proof. revert rs. induction ls as [| l ls IH]; intros [| r rs]; cbn; try done. zcases; try done; try lia. apply IH. Qed.

Lemma above_irrefl l : above l l = false.
Proof. destruct (above l l) eqn:H; [| done]. by rewrite (above_asym l l H) in H. Qed.

(** An update is only offered to a release, and only a release that is above it. *)
Lemma offered_newer current goos found :
  us_Available (ask current goos found) = true ->
  exists tag url l r, found = Ok (tag, url) /\ parts tag = Some l /\ parts current = Some r /\ zlen l = 3%Z /\ zlen r = 3%Z /\ above l r = true.
Proof.
  unfold ask. destruct (released current) eqn:Hc; cbn [negb]; [| done]. destruct found as [[tag url] | e]; [| done]. cbn. unfold newer.
  destruct (released tag) eqn:Ht; cbn [negb]; [| done].
  assert (forall v, released v = true -> exists l, parts v = Some l /\ zlen l = 3%Z) as Hr.
  { intros v. unfold released. destruct (has_prefix v releasePrefix); [| done]. cbn. destruct (parts v) as [l |]; [| done]. intros H%Z.eqb_eq. by exists l. }
  destruct (Hr tag Ht) as (l & Hpl & Hl), (Hr current Hc) as (r & Hpr & Hlr). rewrite Hpl, Hpr. cbn. rewrite Hl, Hlr. cbn. intros Ha. by exists tag, url, l, r.
Qed.

(** ** Installing *)

(** What the installer does outside itself. *)
Inductive effect := Fetched (script : string) | Created (name : string) | Ran (script dir : string) | Removed (name : string).

(** [saveScriptWith]: what creating (a name), writing (how many bytes), closing
    and the change of mode answer. *)
Definition saveScript (body : string) (created : result string string) (wrote : Z * option string) (closed chmod : option string) :
    list effect * result string string :=
  match created with
  | Err e => ([], Err e)
  | Ok name =>
      let fail e := ([Created name; Removed name], Err e) in
      match wrote.2 with
      | Some e => fail e
      | None =>
          if negb (wrote.1 =? strlen body)%Z then fail "short write"
          else match closed, chmod with
            | Some e, _ => fail e
            | None, Some e => fail e
            | None, None => ([Created name], Ok name)
            end
      end
  end.

Definition newline : Ascii.ascii := Ascii.ascii_of_N 10.
Definition carriage : Ascii.ascii := Ascii.ascii_of_N 13.
Definition text_of (l : list Ascii.ascii) : string := String.string_of_list_ascii l.

(** What is before the first newline, and what is left of the trailing ones; of
    a text read backwards. *)
Fixpoint until (l : list Ascii.ascii) : list Ascii.ascii :=
  match l with [] => [] | c :: l => if bool_decide (c = newline) then [] else c :: until l end.
Fixpoint dropEnds (l : list Ascii.ascii) : list Ascii.ascii :=
  match l with [] => [] | c :: rest => if bool_decide (c = newline) || bool_decide (c = carriage) then dropEnds rest else l end.

Definition lastLine (output : string) : string :=
  let text := dropEnds (rev (String.list_ascii_of_string output)) in
  if (zlen text =? 0)%Z then "no output" else text_of (rev (until text)).

(** [checkRedirect]: scheme and host of the request, and of the first one. *)
Definition checkRedirect (scheme host : string) (via : list (string * string)) : option string :=
  if (maxRedirects <=? zlen via)%Z then Some "install script had too many redirects"
  else match via with
    | [] => None
    | (originScheme, originHost) :: _ =>
        if bool_decide (scheme <> originScheme) || bool_decide (host <> originHost) then Some "install script redirect changed origin" else None
    end.

Definition allowed : list string := ["HOME"; "LANG"; "PATH"; "SHELL"; "TEMP"; "TMP"; "TMPDIR"; "HTTP_PROXY"; "HTTPS_PROXY"; "NO_PROXY";
  "http_proxy"; "https_proxy"; "no_proxy"; "SSL_CERT_DIR"; "SSL_CERT_FILE"].

Definition allowedInstallerVariable (name : string) : bool := contains allowed name || has_prefix name "LC_" || has_prefix name "XDG_".

Definition installerEnvironment (environ : list string) : list string :=
  List.filter (fun value => let '(name, _, found) := str_cut value "=" in found && allowedInstallerVariable name) environ.

(** [fetch] of what the server answered: a status and a body. *)
Definition fetch (response : result string (Z * string)) : result string string :=
  match response with
  | Err e => Err e
  | Ok (status, body) =>
      if negb (status =? StatusOK)%Z then Err ("asking about releases answered " +s+ Itoa status)
      else if (maxScript <? strlen body)%Z then Err ("install script is larger than " +s+ Itoa maxScript +s+ " bytes")
      else Ok body
  end.

(** What an installation meets. *)
Record world := MkWorld {
  w_goos : string;
  w_directory : result string string;
  w_writable : option string;
  w_response : result string (Z * string);
  w_created : result string string;
  w_wrote : Z * option string;
  w_closed : option string;
  w_chmod : option string;
  w_output : string;
  w_run : option string;
}.

(** [Install] once it has claimed the installer. *)
Definition installing (script dir : string) (w : world) : list effect * option string :=
  match fetch (w_response w) with
  | Err e => ([Fetched script], Some e)
  | Ok body =>
      if negb (str_contains body skipApp) then
        ([Fetched script], Some (ErrUnsupported +s+ ": the install script does not take " +s+ skipApp))
      else
        let '(saved, path) := saveScript body (w_created w) (w_wrote w) (w_closed w) (w_chmod w) in
        match path with
        | Err e => (Fetched script :: saved, Some e)
        | Ok path =>
            (Fetched script :: saved ++ [Ran path dir; Removed path],
             match w_run w with None => None | Some e => Some (e +s+ ": " +s+ lastLine (w_output w)) end)
        end
  end.

(** [Install]; [busy] is whether another one runs. *)
Definition Install (script : string) (busy : bool) (w : world) : list effect * option string :=
  if bool_decide (script = "") then ([], Some (ErrUnsupported +s+ ": remote installer scripts are disabled by default"))
  else if negb (contains installable (w_goos w)) then ([], Some (ErrUnsupported +s+ ": " +s+ w_goos w +s+ " has no install script"))
  else match w_directory w with
    | Err e => ([], Some ("finding this binary: " +s+ e))
    | Ok dir =>
        match w_writable w with
        | Some e => ([], Some (ErrUnsupported +s+ ": " +s+ e))
        | None => if busy then ([], Some ErrBusy) else installing script dir w
        end
    end.

(** Nothing is run but the whole script that was fetched from the configured
    page, knows how to leave the application alone and was written in full; and
    no script is left behind, whatever fails. *)
Lemma install_runs_what_it_fetched script busy w :
  let effects := (Install script busy w).1 in
  (forall name, Created name ∈ effects -> Removed name ∈ effects) /\
  (forall url, Fetched url ∈ effects -> url = script /\ url <> "" /\ busy = false) /\
  (forall path dir, Ran path dir ∈ effects ->
     w_directory w = Ok dir /\ busy = false /\ exists body, w_response w = Ok (StatusOK, body) /\ (strlen body <= maxScript)%Z /\
       str_contains body skipApp = true /\ w_created w = Ok path /\ w_wrote w = (strlen body, None)) /\
  ((Install script busy w).2 = None -> exists path dir, effects = [Fetched script; Created path; Ran path dir; Removed path]).
Proof.
  intros effects. unfold effects, Install. case_bool_decide as Hs; [cbn; split_and!; set_solver |]. destruct (contains installable (w_goos w)); cbn [negb]; [| cbn; split_and!; set_solver].
  destruct (w_directory w) as [dir | e]; [| cbn; split_and!; set_solver]. destruct (w_writable w) as [e |]; [cbn; split_and!; set_solver |].
  destruct busy; [cbn; split_and!; set_solver |]. unfold installing, fetch. destruct (w_response w) as [[status body] | e]; [| cbn; split_and!; set_solver].
  destruct (Z.eqb_spec status StatusOK) as [-> |]; cbn [negb]; [| cbn; split_and!; set_solver].
  destruct (Z.ltb_spec maxScript (strlen body)); [cbn; split_and!; set_solver |].
  destruct (str_contains body skipApp) eqn:Hb; cbn [negb]; [| cbn; split_and!; set_solver].
  unfold saveScript. destruct (w_created w) as [name | e]; [| cbn; split_and!; set_solver].
  destruct (w_wrote w) as [n [e |]]; cbn [fst snd]; [cbn; split_and!; set_solver |].
  destruct (Z.eqb_spec n (strlen body)) as [-> |]; cbn [negb]; [| cbn; split_and!; set_solver].
  destruct (w_closed w); [cbn; split_and!; set_solver |]. destruct (w_chmod w); [cbn; split_and!; set_solver |]. cbn. split_and!.
  - set_solver.
  - set_solver.
  - intros path d Hin. rewrite !elem_of_cons in Hin. destruct Hin as [| [| [[= -> ->] | [| []%elem_of_nil]]]]; [done.. | | done]. split; [done | split; [done |]].
    by exists body.
  - intros _. by exists name, dir.
Qed.
End Update.
