(* ===== verification/HelmReleases.v ===== *)
(** internal/helm, the releases a cluster holds: pagination.go, refs.go,
    storage.go, bodies.go, history.go, detail.go and the reading side of helm.go.
    What the API server answers is an argument: the pages of a list by the
    number of the request and the token, and objects by name.  The inflating of
    compress/gzip and what encoding/json and yaml read of a body are the class
    [Payloads].  A list is given [fuel] pages, and [None] says that they were
    not enough. *)

From S2P Require Import Prelude Api Text Unstr Codec Access Issues Program Respond Rollout Kube Flux Argocd Inspect Reads Charts.

(** [payload], [manifestDoc] *)
Record payload := MkPayload {
  pa_Name : string;
  pa_Namespace : string;
  pa_Version : Z;
  pa_Status : string;
  pa_FirstDeployed : string;
  pa_LastDeployed : string;
  pa_Description : string;
  pa_Notes : string;
  pa_Chart : string;
  pa_ChartVersion : string;
  pa_AppVersion : string;
  pa_Config : amap;
  pa_Manifest : string;
}.

Record manifestDoc := MkManifestDoc { md_APIVersion : string; md_Kind : string; md_Name : string; md_Namespace : string }.

(** [gzip.NewReader]'s error, the bytes a reader gives with the error it ends
    with, and what is read of a body. *)
Class Payloads := {
  NewReader : string -> option string;
  Inflated : string -> string * option string;
  DecodePayload : string -> result string payload;
  DecodeManifest : string -> result string manifestDoc;
}.

Module HelmReleases.
Import Api Text Unstr.

Abbreviation error := Respond.error.

Definition storageType : string := "helm.sh/release.v1".
Definition ownerLabel : string := "owner=helm".
Definition releaseKey : string := "release".
Definition maxObjects : Z := 5000.
Definition maxPayload : Z := Z.shiftl 8 20.
Definition nameLabel : string := "name".
Definition versionLabel : string := "version".
Definition statusLabel : string := "status".
Definition DriverSecret : string := "secret".
Definition DriverConfigMap : string := "configmap".
Definition historyPageSize : nat := 10.
Definition maxHistoryRefs : Z := maxObjects.

Definition ErrNoRelease : string := "no such helm release".
Definition errAmbiguousRevision : string := "a helm revision is stored more than once".
Definition errNoMetadata : string := "this cluster connection has no metadata client, so releases cannot be listed".
Definition errNotGzip : string := "release payload is not gzipped json".
Definition errNotRelease : string := "the object does not hold a helm release".
Definition errRepeatedContinue : string := "the apiserver repeated a continuation token".

(** [api.HelmRelease] without what other parts add to it: the cluster, the skew
    and the Flux object it belongs to. *)
Record HelmRelease := MkHelmRelease {
  hr_Name : string;
  hr_Namespace : string;
  hr_Chart : string;
  hr_ChartVersion : string;
  hr_AppVersion : string;
  hr_Latest : string;
  hr_Outdated : bool;
  hr_Revision : Z;
  hr_Status : string;
  hr_Updated : string;
  hr_Description : string;
}.

Record HelmRevision := MkHelmRevision {
  hv_Revision : Z;
  hv_Status : string;
  hv_ChartVersion : string;
  hv_AppVersion : string;
  hv_Updated : string;
  hv_Description : string;
}.

Record HelmHistoryPage := MkHelmHistoryPage { hp_Revisions : list HelmRevision; hp_Next : Z }.

Record HelmResource := MkHelmResource {
  he_APIVersion : string;
  he_Kind : string;
  he_Name : string;
  he_Namespace : string;
  he_Group : string;
  he_Version : string;
  he_Resource : string;
}.

(** [api.HelmReleaseDetail]; its History is always empty here. *)
Record HelmReleaseDetail := MkHelmReleaseDetail {
  hd_Release : HelmRelease;
  hd_Driver : string;
  hd_FirstDeployed : string;
  hd_Values : string;
  hd_Notes : string;
  hd_Manifest : string;
  hd_Resources : list HelmResource;
  hd_Error : string;
}.

(** ** Lists that are read page by page *)

(** A fallible read that may need more pages than it was given. *)
Definition M (A : Type) : Type := option (result error A).

Definition bindM {A B} (m : M A) (f : A -> M B) : M B :=
  match m with None => None | Some (Err e) => Some (Err e) | Some (Ok a) => f a end.

Notation "x <-! m ;; k" := (bindM m (fun x => k)) (at level 60, m at next level, right associativity) : go_scope.

Record page (A : Type) := MkPage { pg_Items : list A; pg_Continue : string }.
Arguments MkPage {A} pg_Items pg_Continue.
Arguments pg_Items {A} p.
Arguments pg_Continue {A} p.

(** What the client answers at the [n]th page of a list, from a token. *)
Definition pages (A : Type) : Type := nat -> string -> result error (page A).

(** Whether there is another page, and the tokens seen. *)
Definition advancePage (next : string) (seen : gset string) : result error (bool * gset string) :=
  if bool_decide (next = "") then Ok (false, seen)
  else if bool_decide (next ∈ seen) then Err (Respond.New errRepeatedContinue)
  else Ok (true, {[next]} ∪ seen).

Section paging.
Context {A B : Type} (of_ : A -> B) (limit : Z).

Fixpoint listFrom (list_ : pages A) (fuel n : nat) (items : list B) (seen : gset string) (token : string) : M (list B * bool) :=
  match fuel with
  | O => None
  | S fuel =>
      match list_ n token with
      | Err e => Some (Err e)
      | Ok listed =>
          let available := (limit - zlen items)%Z in
          if (available <? zlen (pg_Items listed))%Z then Some (Ok (items ++ map of_ (ztake available (pg_Items listed)), true))
          else
            let items := items ++ map of_ (pg_Items listed) in
            match advancePage (pg_Continue listed) seen with
            | Err e => Some (Err e)
            | Ok (false, _) => Some (Ok (items, false))
            | Ok (true, seen) => if (zlen items =? limit)%Z then Some (Ok (items, true)) else listFrom list_ fuel (S n) items seen (pg_Continue listed)
            end
      end
  end.

(** The loops of revisionSecrets and revisionConfigMaps: what a page holds is
    scanned up to a limit past which the whole read fails. *)
Fixpoint scanFrom (list_ : pages A) (kept : A -> option B) (tooMany : string) (fuel n : nat) (out : list B) (scanned : Z)
    (seen : gset string) (token : string) : M (list B) :=
  match fuel with
  | O => None
  | S fuel =>
      match list_ n token with
      | Err e => Some (Err e)
      | Ok listed =>
          let scanned := (scanned + zlen (pg_Items listed))%Z in
          if (limit <? scanned)%Z then Some (Err (Respond.New tooMany))
          else
            let out := out ++ omap kept (pg_Items listed) in
            match advancePage (pg_Continue listed) seen with
            | Err e => Some (Err e)
            | Ok (false, _) => Some (Ok out)
            | Ok (true, seen) => scanFrom list_ kept tooMany fuel (S n) out scanned seen (pg_Continue listed)
            end
      end
  end.
End paging.

(** ** refs.go *)

(** [metav1.PartialObjectMetadata] *)
Record objectMeta := MkObjectMeta {
  om_Namespace : string;
  om_Name : string;
  om_Labels : gmap string string;
  om_Created : time;
  om_ResourceVersion : string;
}.

Record storedRef := MkStoredRef {
  sr_driver : string;
  sr_namespace : string;
  sr_object : string;
  sr_name : string;
  sr_revision : Z;
  sr_status : string;
  sr_created : time;
  sr_version : string;
}.

Record refPage := MkRefPage { rp_items : list storedRef; rp_truncated : bool; rp_denied : string }.

#[export] Instance storedRef_eq_dec : EqDecision storedRef.
Proof. solve_decision. Defined.

Definition label (labels : gmap string string) (key : string) : string := default "" (labels !! key).

Definition revisionOf (labels : gmap string string) : Z :=
  match Parse.ParseInt (label labels versionLabel) 64 with Ok revision => revision | Err _ => 0 end.

Definition refOf (driver : string) (item : objectMeta) : storedRef :=
  MkStoredRef driver (om_Namespace item) (om_Name item) (label (om_Labels item) nameLabel) (revisionOf (om_Labels item))
    (label (om_Labels item) statusLabel) (om_Created item) (om_ResourceVersion item).

(** A cluster: the lists of the metadata client by driver, namespace and
    selector, none without that client, its namespaces, and what the typed
    client reads: whole secrets and config maps with what they hold under
    [releaseKey]. *)
Record secret := MkSecret { se_Meta : objectMeta; se_Type : string; se_Body : string }.
Record configMap := MkConfigMap { cm_Meta : objectMeta; cm_Body : option string }.

Record cluster := MkCluster {
  meta : option (string -> string -> string -> pages objectMeta);
  namespacesOf : pages string;
  secretsIn : string -> string -> pages secret;
  configMapsIn : string -> string -> pages configMap;
  secretAt : string -> string -> result error secret;
  configMapAt : string -> string -> result error configMap;
}.

Definition deniedNote (resource : string) (namespaces : Z) (allowed : list string) : string :=
  let head := resource +s+ " could not be listed cluster-wide; " +s+ Itoa (zlen allowed) +s+ " of " +s+ Itoa namespaces +s+
    " namespaces allowed it" in
  if bool_decide (allowed = []) then head else head +s+ ": " +s+ Join ", " allowed.

Definition joinNotes (left_ right_ : string) : string :=
  if bool_decide (left_ = "") then right_ else if bool_decide (right_ = "") then left_ else left_ +s+ "; " +s+ right_.

Section refs.
Context (fuel : nat).

Definition listRefsLimited (lists : string -> string -> string -> pages objectMeta) (driver namespace selector : string) (limit : Z)
    : M refPage :=
  found <-! listFrom (refOf driver) limit (lists driver namespace selector) fuel 0 [] ∅ "";;
  Some (Ok (MkRefPage found.1 found.2 "")).

Definition listRefs (lists : string -> string -> string -> pages objectMeta) (driver namespace : string) : M refPage :=
  listRefsLimited lists driver namespace ownerLabel maxObjects.

Fixpoint namesFrom (list_ : pages string) (left_ n : nat) (names : list string) (seen : gset string) (token : string) : M (list string) :=
  match left_ with
  | O => None
  | S left_ =>
      match list_ n token with
      | Err e => Some (Err e)
      | Ok listed =>
          let names := names ++ pg_Items listed in
          match advancePage (pg_Continue listed) seen with
          | Err e => Some (Err e)
          | Ok (false, _) => Some (Ok names)
          | Ok (true, seen) => namesFrom list_ left_ (S n) names seen (pg_Continue listed)
          end
      end
  end.

Definition namespaceRefs (c : cluster) : M (list string) := namesFrom (namespacesOf c) fuel 0 [] ∅ "".

(** The loop over the namespaces a list of everything was refused for. *)
Fixpoint eachNamespace (lists : string -> string -> string -> pages objectMeta) (driver : string) (names : list string)
    (items : list storedRef) (truncated : bool) (allowed : list string) : M (list storedRef * bool * list string) :=
  match names with
  | [] => Some (Ok (items, truncated, allowed))
  | name :: rest =>
      match listRefs lists driver name with
      | None => None
      | Some (Err e) => if Respond.IsKube e Respond.Forbidden then eachNamespace lists driver rest items truncated allowed else Some (Err e)
      | Some (Ok one) =>
          let allowed := allowed ++ [name] in
          let available := (maxObjects - zlen items)%Z in
          if (available <? zlen (rp_items one))%Z then Some (Ok (items ++ ztake available (rp_items one), true, allowed))
          else
            let items := items ++ rp_items one in
            let truncated := truncated || rp_truncated one in
            if (zlen items =? maxObjects)%Z then Some (Ok (items, truncated || negb (bool_decide (rest = [])), allowed))
            else eachNamespace lists driver rest items truncated allowed
      end
  end.

Definition refsWithFallback (c : cluster) (lists : string -> string -> string -> pages objectMeta) (driver resource : string)
    : M refPage :=
  match listRefs lists driver "" with
  | Some (Err e) =>
      if negb (Respond.IsKube e Respond.Forbidden) then Some (Err e)
      else match namespaceRefs c with
        | None => None
        | Some (Err nsErr) => Some (Err (if negb (Respond.IsKube nsErr Respond.Forbidden) then nsErr else e))
        | Some (Ok names) =>
            out <-! eachNamespace lists driver names [] false [];;
            Some (Ok (MkRefPage out.1.1 out.1.2 (deniedNote resource (zlen names) out.2)))
        end
  | direct => direct
  end.

Definition allRefs (c : cluster) (lists : string -> string -> string -> pages objectMeta) : M refPage :=
  secrets <-! refsWithFallback c lists DriverSecret "secrets";;
  maps <-! refsWithFallback c lists DriverConfigMap "config maps";;
  Some (Ok (MkRefPage (rp_items secrets ++ rp_items maps) (rp_truncated secrets || rp_truncated maps)
    (joinNotes (rp_denied secrets) (rp_denied maps)))).
End refs.

Definition releaseOf (ref : storedRef) : string := sr_namespace ref +s+ "/" +s+ sr_name ref.

(** One step of the loop of newestPerRelease. *)
Definition newestStep (newest : gmap string storedRef) (ref : storedRef) : gmap string storedRef :=
  if bool_decide (sr_name ref = "") then newest
  else match newest !! releaseOf ref with
    | Some previous => if (sr_revision ref <=? sr_revision previous)%Z then newest else <[releaseOf ref := ref]> newest
    | None => <[releaseOf ref := ref]> newest
    end.

(** [newestPerRelease]; the order the map is walked in is not said. *)
Definition newestPerRelease (refs : list storedRef) : list storedRef := map snd (map_to_list (foldl newestStep ∅ refs)).

(** ** storage.go *)

Record stored := MkStored {
  st_driver : string;
  st_namespace : string;
  st_name : string;
  st_revision : Z;
  st_status : string;
  st_created : time;
  st_body : string;
}.

Definition storedOf (driver : string) (m : objectMeta) (body : string) : stored :=
  MkStored driver (om_Namespace m) (label (om_Labels m) nameLabel) (revisionOf (om_Labels m)) (label (om_Labels m) statusLabel)
    (om_Created m) body.

Definition releaseSelector (name : string) : string := ownerLabel +s+ "," +s+ nameLabel +s+ "=" +s+ name.

Definition revisionSelector (name : string) (revisions : list Z) : string :=
  let selector := releaseSelector name +s+ "," +s+ versionLabel in
  match map Itoa revisions with
  | [one] => selector +s+ "=" +s+ one
  | values => selector +s+ " in (" +s+ Join "," values +s+ ")"
  end.

Section storage.
Context (fuel : nat).

Definition revisionSecrets (c : cluster) (namespace selector : string) (limit : Z) : M (list stored) :=
  scanFrom limit (secretsIn c namespace selector)
    (fun s => if bool_decide (se_Type s <> storageType) then None else Some (storedOf DriverSecret (se_Meta s) (se_Body s)))
    ("more than " +s+ Itoa limit +s+ " release secrets matched") fuel 0 [] 0 ∅ "".

Definition revisionConfigMaps (c : cluster) (namespace selector : string) (limit : Z) : M (list stored) :=
  scanFrom limit (configMapsIn c namespace selector)
    (fun s => storedOf DriverConfigMap (cm_Meta s) <$> cm_Body s)
    ("more than " +s+ Itoa limit +s+ " release config maps matched") fuel 0 [] 0 ∅ "".

Definition moreThan (limit : Z) : error := Respond.New ("more than " +s+ Itoa limit +s+ " stored revisions matched").

Definition revisionsMatching (c : cluster) (namespace selector : string) (limit : Z) : M (list stored) :=
  if (limit <? 1)%Z then Some (Err (Respond.New "revision limit must be positive"))
  else
    secrets <-! revisionSecrets c namespace selector (limit + 1);;
    maps <-! revisionConfigMaps c namespace selector (limit + 1);;
    if (limit <? zlen (secrets ++ maps))%Z then Some (Err (moreThan limit)) else Some (Ok (secrets ++ maps)).

Definition revisionsIn (c : cluster) (namespace name : string) : M (list stored) :=
  revisionsMatching c namespace (ownerLabel +s+ "," +s+ nameLabel +s+ "=" +s+ name) maxObjects.

(** [storedRefs] *)
Definition storedRefs (c : cluster) (namespace selector : string) (limit : Z) : M (list storedRef) :=
  match meta c with
  | None => Some (Err (Respond.New errNoMetadata))
  | Some lists =>
      secrets <-! listRefsLimited fuel lists DriverSecret namespace selector (limit + 1);;
      maps <-! listRefsLimited fuel lists DriverConfigMap namespace selector (limit + 1);;
      if rp_truncated secrets || rp_truncated maps then Some (Err (moreThan limit))
      else
        let refs := rp_items secrets ++ rp_items maps in
        if (limit <? zlen refs)%Z then Some (Err (moreThan limit)) else Some (Ok refs)
  end.
End storage.

(** ** history.go *)

Definition newerRef : storedRef -> storedRef -> Z :=
  cmp_then (cmp_on sr_revision cmp_desc) (cmp_then (cmp_on sr_driver str_compare) (cmp_on sr_object str_compare)).

Definition noRelease (namespace name : string) : error :=
  Respond.Wrapped Respond.ErrNoRelease (ErrNoRelease +s+ ": " +s+ namespace +s+ "/" +s+ name).

Definition ambiguous (revision : Z) : error := Respond.New (errAmbiguousRevision +s+ ": revision " +s+ Itoa revision).

(** [oneRef] sorts the refs it is given in place: it answers with them. *)
Definition oneRef (refs : list storedRef) (namespace name : string) : result error (storedRef * list storedRef) :=
  match sort_by newerRef refs with
  | [] => Err (noRelease namespace name)
  | first :: rest =>
      if (sr_revision first <? 1)%Z then Err (noRelease namespace name)
      else match rest with
        | second :: _ => if (sr_revision first =? sr_revision second)%Z then Err (ambiguous (sr_revision first)) else Ok (first, first :: rest)
        | [] => Ok (first, first :: rest)
        end
  end.

(** The revision that two neighbours share, if any do. *)
Fixpoint twice (refs : list storedRef) : option Z :=
  match refs with
  | one :: ((two :: _) as rest) =>
      if (0 <? sr_revision two)%Z && (sr_revision one =? sr_revision two)%Z then Some (sr_revision two) else twice rest
  | _ => None
  end.

(** The loop that fills a page, with one ref more to know that there are more. *)
Fixpoint eligibleFrom (refs : list storedRef) (through : Z) (room : nat) : list storedRef :=
  match room, refs with
  | S room, ref :: refs =>
      if (through <? sr_revision ref)%Z || (sr_revision ref <? 1)%Z then eligibleFrom refs through (S room)
      else ref :: eligibleFrom refs through room
  | _, _ => []
  end.

Definition selectHistoryRefs (refs : list storedRef) (namespace name : string) (through : Z) : result error (list storedRef * Z) :=
  '(latest, refs) ← oneRef refs namespace name;
  match twice refs with
  | Some revision => Err (ambiguous revision)
  | None =>
      let through := if (through <? 1)%Z then sr_revision latest else through in
      let eligible := eligibleFrom refs through (S historyPageSize) in
      match eligible !! historyPageSize with
      | None => Ok (eligible, 0%Z)
      | Some next => Ok (take historyPageSize eligible, sr_revision next)
      end
  end.

(** ** helm.go: decode *)

Definition completed (release fallback : HelmRelease) : HelmRelease :=
  MkHelmRelease
    (if bool_decide (hr_Name release = "") then hr_Name fallback else hr_Name release)
    (if bool_decide (hr_Namespace release = "") then hr_Namespace fallback else hr_Namespace release)
    (hr_Chart release) (hr_ChartVersion release) (hr_AppVersion release) (hr_Latest release) (hr_Outdated release)
    (if (hr_Revision release =? 0)%Z then hr_Revision fallback else hr_Revision release)
    (if bool_decide (hr_Status release = "") then hr_Status fallback else hr_Status release)
    (if bool_decide (hr_Updated release = "") then hr_Updated fallback else hr_Updated release)
    (hr_Description release).

(** The first bytes of a string. *)
Definition prefix_of (n : Z) (s : string) : string := String.substring 0 (Z.to_nat n) s.

Section decoding.
Context {Pa : Payloads} {Tm : RFC3339}.

(** A body begins with the two bytes of gzip. *)
Definition gzipped (body : string) : bool := has_prefix body (of_codes [0x1f; 0x8b]%N).

Definition gunzipLimit (body : string) (limit : Z) : result string string :=
  if negb (gzipped body) then Err errNotGzip
  else match NewReader body with
    | Some e => Err e
    | None =>
        let '(bytes, ended) := Inflated body in
        if (limit <? strlen bytes)%Z then Err ("release payload is larger than " +s+ Itoa limit +s+ " bytes")
        else match ended with Some e => Err e | None => Ok bytes end
    end.

Definition gunzip (body : string) : result string string := gunzipLimit body maxPayload.

(** [errors.Is(err, errNotGzip)]: it is what the first test gave. *)
Definition decode (raw : string) : result string payload :=
  if bool_decide (raw = "") then Err "release payload is empty"
  else
    let body := default raw (Bytes.DecodeStd raw) in
    if gzipped body then plain ← gunzip body; DecodePayload plain
    else if (maxPayload <? strlen body)%Z then Err ("release payload is larger than " +s+ Itoa maxPayload +s+ " bytes")
    else DecodePayload body.

Definition fallback (s : stored) : HelmRelease :=
  MkHelmRelease (st_name s) (st_namespace s) "" "" "" "" false (st_revision s) (st_status s) (FormatTime (st_created s)) "".

(** [decoded]: the release as far as it is known, and the payload or an error. *)
Definition decodedOf (s : stored) : HelmRelease * result string payload :=
  match decode (st_body s) with
  | Err e => (fallback s, Err e)
  | Ok p =>
      (completed (MkHelmRelease (pa_Name p) (pa_Namespace p) (pa_Chart p) (pa_ChartVersion p) (pa_AppVersion p) "" false
         (pa_Version p) (pa_Status p) (pa_LastDeployed p) (pa_Description p)) (fallback s), Ok p)
  end.

Definition release (s : stored) : HelmRelease * bool :=
  let '(found, read) := decodedOf s in (found, match read with Ok _ => true | Err _ => false end).

(** ** bodies.go *)

Definition releaseCache : Type := gmap string (string * HelmRelease).

Definition cacheKey (ref : storedRef) : string := sr_driver ref +s+ " " +s+ sr_namespace ref +s+ "/" +s+ sr_object ref.

Definition get (c : releaseCache) (ref : storedRef) : option HelmRelease :=
  match c !! cacheKey ref with
  | Some (version, found) => if bool_decide (version <> sr_version ref) then None else Some found
  | None => None
  end.

Definition put (c : releaseCache) (ref : storedRef) (found : HelmRelease) : releaseCache := <[cacheKey ref := (sr_version ref, found)]> c.

Definition keep (c : releaseCache) (refs : list storedRef) : releaseCache :=
  filter (fun '(key, _) => key ∈ map cacheKey refs) c.

Definition fallbackOf (ref : storedRef) : HelmRelease :=
  fallback (MkStored "" (sr_namespace ref) (sr_name ref) (sr_revision ref) (sr_status ref) (sr_created ref) "").

Definition secretBody (c : cluster) (ref : storedRef) : result error string :=
  got ← secretAt c (sr_namespace ref) (sr_object ref);
  if bool_decide (se_Type got <> storageType) then Err (Respond.New errNotRelease) else Ok (se_Body got).

Definition configMapBody (c : cluster) (ref : storedRef) : result error string :=
  got ← configMapAt c (sr_namespace ref) (sr_object ref);
  match cm_Body got with None => Err (Respond.New errNotRelease) | Some body => Ok body end.

Definition bodyOf (c : cluster) (ref : storedRef) : result error string :=
  if bool_decide (sr_driver ref = DriverConfigMap) then configMapBody c ref else secretBody c ref.

(** The ref with its body. *)
Definition holding (ref : storedRef) (body : string) : stored :=
  MkStored (sr_driver ref) (sr_namespace ref) (sr_name ref) (sr_revision ref) (sr_status ref) (sr_created ref) body.

Definition releaseFor (c : cluster) (held : releaseCache) (ref : storedRef) : releaseCache * (HelmRelease * bool) :=
  match get held ref with
  | Some found => (held, (found, true))
  | None =>
      match bodyOf c ref with
      | Err _ => (held, (fallbackOf ref, false))
      | Ok body =>
          let '(found, ok) := release (holding ref body) in
          if negb ok then (held, (found, false)) else (put held ref found, (found, true))
      end
  end.

(** One goroutine of readWithStatus finishes: its answer takes its place. *)
Definition readOne (c : cluster) (refs : list storedRef) (s : releaseCache * gmap nat (HelmRelease * bool)) (i : nat)
    : releaseCache * gmap nat (HelmRelease * bool) :=
  match refs !! i with
  | None => s
  | Some ref => let '(held, answer) := releaseFor c s.1 ref in (held, <[i := answer]> s.2)
  end.

Definition blankRelease : HelmRelease := MkHelmRelease "" "" "" "" "" "" false 0 "" "" "".

(** [readWithStatus]: the goroutines finish in some order. *)
Definition readWithStatus (c : cluster) (held : releaseCache) (order : list nat) (refs : list storedRef)
    : releaseCache * list (HelmRelease * bool) :=
  let '(held, out) := foldl (readOne c refs) (held, ∅) order in
  (held, map (fun i => default (blankRelease, false) (out !! i)) (seq 0 (length refs))).

Definition read (c : cluster) (held : releaseCache) (order : list nat) (refs : list storedRef) : releaseCache * list HelmRelease * Z :=
  let '(held, out) := readWithStatus c held order refs in
  (held, map fst out, counted (fun r => negb r.2) out).
End decoding.

(** ** Names *)

Definition lowerOrDigit (c : Ascii.ascii) : bool :=
  let n := Ascii.N_of_ascii c in ((97 <=? n) && (n <=? 122))%N || ((48 <=? n) && (n <=? 57))%N.

Definition nameMiddle (c : Ascii.ascii) : bool :=
  let n := Ascii.N_of_ascii c in lowerOrDigit c || (n =? 45)%N || (n =? 46)%N.

(** [nameFormat.MatchString]: [^[a-z0-9]([-a-z0-9.]*[a-z0-9])?$] *)
Definition nameFormat (s : string) : bool :=
  match String.list_ascii_of_string s with
  | [] => false
  | c :: rest => lowerOrDigit c && forallb nameMiddle rest && lowerOrDigit (List.last rest c)
  end.

Section service.
Context (fuel : nat) {Pa : Payloads} {Tm : RFC3339} {Ym : YAML} {Sm : Semver} {Wd : Wording}.

Definition latestRef (c : cluster) (namespace name : string) : M storedRef :=
  refs <-! storedRefs fuel c namespace (releaseSelector name) maxHistoryRefs;;
  Some (match oneRef refs namespace name with Ok r => Ok r.1 | Err e => Err e end).

Definition refAt (c : cluster) (namespace name : string) (revision : Z) : M storedRef :=
  refs <-! storedRefs fuel c namespace (revisionSelector name [revision]) 1;;
  Some (match oneRef refs namespace name with Ok r => Ok r.1 | Err e => Err e end).

(** ** History *)

Definition historyRow (r : HelmRelease * bool) : HelmRevision :=
  let '(found, readable) := r in
  MkHelmRevision (hr_Revision found) (hr_Status found) (hr_ChartVersion found) (hr_AppVersion found) (hr_Updated found)
    (if readable then hr_Description found else "this revision's payload could not be read").

Definition History (c : cluster) (held : releaseCache) (order : list nat) (namespace name : string) (through : Z)
    : releaseCache * M HelmHistoryPage :=
  if negb (nameFormat namespace) || negb (nameFormat name) then
    (held, Some (Err (Respond.New "namespace and name must be valid kubernetes names")))
  else match storedRefs fuel c namespace (releaseSelector name) maxHistoryRefs with
    | None => (held, None)
    | Some (Err e) => (held, Some (Err e))
    | Some (Ok refs) =>
        match selectHistoryRefs refs namespace name through with
        | Err e => (held, Some (Err e))
        | Ok (eligible, next) =>
            let '(held, releases) := readWithStatus c held order eligible in
            (held, Some (Ok (MkHelmHistoryPage (map historyRow releases) next)))
        end
    end.

(** ** detail.go *)

(** [Kind] with its group, version and resource, by an API version and a kind. *)
Record Kind := MkKind { kd_Group : string; kd_Version : string; kd_Resource : string; kd_Namespaced : bool }.
Definition Resolver : Type := string -> string -> option Kind.

Definition resourceOf (parsed : manifestDoc) (namespace : string) (resolve : option Resolver) : HelmResource :=
  let plain := MkHelmResource (md_APIVersion parsed) (md_Kind parsed) (md_Name parsed) (md_Namespace parsed) "" "" "" in
  match resolve with
  | None => plain
  | Some resolve =>
      match resolve (md_APIVersion parsed) (md_Kind parsed) with
      | None => plain
      | Some found =>
          MkHelmResource (md_APIVersion parsed) (md_Kind parsed) (md_Name parsed)
            (if kd_Namespaced found && bool_decide (md_Namespace parsed = "") then namespace else md_Namespace parsed)
            (kd_Group found) (kd_Version found) (kd_Resource found)
      end
  end.

(** [strings.SplitSeq(manifest, "\n---")] *)
Definition docBreak : string := of_codes [10; 45; 45; 45]%N.

Fixpoint splitDocs (fuel : nat) (manifest : string) : list string :=
  match fuel with
  | O => []
  | S fuel => let '(before, after, found) := str_cut manifest docBreak in if found then before :: splitDocs fuel after else [before]
  end.

Definition resourceIn (namespace : string) (resolve : option Resolver) (doc : string) : option HelmResource :=
  let trimmed := TrimSpace doc in
  if bool_decide (trimmed = "") then None
  else match DecodeManifest trimmed with
    | Err _ => None
    | Ok parsed =>
        if bool_decide (md_Kind parsed = "") || bool_decide (md_Name parsed = "") then None
        else Some (resourceOf parsed namespace resolve)
    end.

Definition resourcesOf (manifest namespace : string) (resolve : option Resolver) : list HelmResource :=
  omap (resourceIn namespace resolve) (splitDocs (S (String.length manifest)) manifest).

Definition valuesOf (decoded : payload) : string :=
  if bool_decide (zlen (pa_Config decoded) = 0%Z) then ""
  else match MarshalYAML (pa_Config decoded) with Err _ => "" | Ok body => body end.

Definition Detail (c : cluster) (namespace name : string) (revision : Z) (resolve : option Resolver) : M HelmReleaseDetail :=
  if negb (nameFormat namespace) || negb (nameFormat name) then
    Some (Err (Respond.New "namespace and name must be valid kubernetes names"))
  else
    ref <-! (if (revision <? 1)%Z then latestRef c namespace name else refAt c namespace name revision);;
    match bodyOf c ref with
    | Err e => Some (Err e)
    | Ok body =>
        let '(found, decoded) := decodedOf (holding ref body) in
        Some (Ok match decoded with
          | Err e => MkHelmReleaseDetail found (sr_driver ref) "" "" "" "" [] ("the selected revision's payload could not be read: " +s+ e)
          | Ok p =>
              MkHelmReleaseDetail found (sr_driver ref) (pa_FirstDeployed p) (valuesOf p) (pa_Notes p) (pa_Manifest p)
                (resourcesOf (pa_Manifest p) (hr_Namespace found) resolve) ""
          end)
    end.

(** ** List *)

Definition byNamespaceThenName : HelmRelease -> HelmRelease -> Z :=
  cmp_then (cmp_on hr_Namespace str_compare) (cmp_on hr_Name str_compare).

Definition pick (current found : string) : string :=
  if bool_decide (found = "") then current
  else if bool_decide (current = "") then found
  else if Charts.Newer current found then found else current.

(** What the index knows of the newest version of a chart in a repository:
    asking also has it fetched, for the next time. *)
Definition latestIn (latest : Charts.Repo -> string -> string) (repos : list Charts.Repo) (chart : string) : string :=
  fold_left (fun newest repo => pick newest (latest repo chart)) repos "".

(** [addLatest] on one release. *)
Definition addLatest (latest : Charts.Repo -> string -> string) (repos : list Charts.Repo) (r : HelmRelease) : HelmRelease :=
  if bool_decide (hr_Chart r = "") then r
  else
    let newest := latestIn latest repos (hr_Chart r) in
    MkHelmRelease (hr_Name r) (hr_Namespace r) (hr_Chart r) (hr_ChartVersion r) (hr_AppVersion r) newest
      (Charts.Newer (hr_ChartVersion r) newest) (hr_Revision r) (hr_Status r) (hr_Updated r) (hr_Description r).

Definition partialMessage (undecodable : Z) (truncated : bool) (denied : string) : string :=
  Join "; " (
    (if bool_decide (denied <> "") then [denied] else []) ++
    (if (0 <? undecodable)%Z then
       [Itoa undecodable +s+ " release payloads could not be read; their name and status come from the storage object's labels"]
     else []) ++
    (if truncated then ["only the first " +s+ Itoa maxObjects +s+ " helm storage objects were read, so some releases may be missing"]
     else [])).

Definition List_ (c : cluster) (held : releaseCache) (order : list nat) (index : option (Charts.Repo -> string -> string))
    (repos : list Charts.Repo) : releaseCache * M (list HelmRelease * string) :=
  match meta c with
  | None => (held, Some (Err (Respond.New errNoMetadata)))
  | Some lists =>
      match allRefs fuel c lists with
      | None => (held, None)
      | Some (Err e) => (held, Some (Err e))
      | Some (Ok found) =>
          let current := newestPerRelease (rp_items found) in
          let '(held, out, undecodable) := read c (keep held current) order current in
          let sorted := sort_by byNamespaceThenName out in
          let told := match index with None => sorted | Some latest => map (addLatest latest repos) sorted end in
          (held, Some (Ok (told, partialMessage undecodable (rp_truncated found) (rp_denied found))))
      end
  end.
End service.

(** * A list that is read page by page *)

Section paged.
Context {A B : Type} (of_ : A -> B) (limit : Z) (list_ : pages A).

(** The pages a list is, from one token on: the last names no other. *)
Inductive reads : nat -> string -> list (page A) -> Prop :=
| reads_last n token p : list_ n token = Ok p -> pg_Continue p = "" -> reads n token [p]
| reads_more n token p ps : list_ n token = Ok p -> pg_Continue p <> "" -> reads (S n) (pg_Continue p) ps -> reads n token (p :: ps).

Definition contents (ps : list (page A)) : list A := mjoin (map pg_Items ps).

Lemma listFrom_bounded fuel n items seen token out cut :
  (zlen items <= limit)%Z -> listFrom of_ limit list_ fuel n items seen token = Some (Ok (out, cut)) ->
  (zlen out <= limit)%Z.
Proof.
  revert n items seen token. induction fuel as [| fuel IH]; intros n items seen token Hb; cbn; [done |].
  destruct (list_ n token) as [listed | e]; [| done]. destruct (Z.ltb_spec (limit - zlen items) (zlen (pg_Items listed))) as [Hl | Hl].
  - intros [= <- _]. rewrite zlen_app. unfold zlen in *. rewrite length_map. unfold ztake. rewrite length_take. lia.
  - assert (zlen (items ++ map of_ (pg_Items listed)) <= limit)%Z as Hb' by (rewrite zlen_app; unfold zlen in *; rewrite length_map; lia).
    destruct (advancePage _ _) as [[[] seen'] | e]; [| by intros [= <- _] | done].
    destruct (_ =? limit)%Z; [by intros [= <- _] |]. by apply IH.
Qed.

(** A list that is not cut short is all there is. *)
Lemma listFrom_complete fuel n items seen token out ps :
  reads n token ps -> listFrom of_ limit list_ fuel n items seen token = Some (Ok (out, false)) -> out = items ++ map of_ (contents ps).
Proof.
  intros Hr. revert fuel items seen. induction Hr as [n token p Hp Hl | n token p ps Hp Hm Hr IH]; intros [| fuel] items seen; cbn; try done;
    rewrite Hp; (destruct (_ <? _)%Z; [done |]); unfold advancePage.
  - rewrite bool_decide_eq_true_2 by done. intros [= <-]. unfold contents. cbn. by rewrite app_nil_r.
  - rewrite bool_decide_eq_false_2 by done. case_bool_decide; [done |]. destruct (_ =? limit)%Z; [done |].
    intros ->%IH. unfold contents. cbn. by rewrite map_app, app_assoc.
Qed.

(** Reading ends however the server makes up its tokens: with so many different
    ones, after one page more than that. *)
Lemma listFrom_ends (T : gset string) :
  (forall n token p, list_ n token = Ok p -> pg_Continue p <> "" -> pg_Continue p ∈ T) ->
  forall fuel n items seen token, seen ⊆ T -> size T - size seen < fuel -> is_Some (listFrom of_ limit list_ fuel n items seen token).
Proof.
  intros HT. induction fuel as [| fuel IH]; intros n items seen token Hs Hf; [lia |]. cbn.
  destruct (list_ n token) as [p | e] eqn:Hp; [| by eexists]. destruct (_ <? _)%Z; [by eexists |]. unfold advancePage.
  case_bool_decide as Hc; [by eexists |]. case_bool_decide as Hin; [by eexists |]. destruct (_ =? limit)%Z; [by eexists |].
  specialize (HT n token p Hp Hc). apply IH; [set_solver |].
  rewrite size_union by set_solver. rewrite size_singleton.
  assert (size ({[pg_Continue p]} ∪ seen) <= size T) as Hle by (apply subseteq_size; set_solver).
  rewrite size_union, size_singleton in Hle by set_solver. lia.
Qed.
End paged.

(** * The newest revision of every release *)

Definition named (ref : storedRef) : Prop := sr_name ref <> "".

(** What the loop of newestPerRelease knows of a release after some refs. *)
Definition newest_of (refs : list storedRef) (key : string) (held : option storedRef) : Prop :=
  match held with
  | Some ref =>
      key = releaseOf ref /\ ref ∈ refs /\ named ref /\
      forall other, other ∈ refs -> named other -> releaseOf other = key -> (sr_revision other <= sr_revision ref)%Z
  | None => forall other, other ∈ refs -> named other -> releaseOf other <> key
  end.

Lemma newest_of_snoc refs key held ref :
  newest_of refs key held -> (named ref -> releaseOf ref = key -> exists one, held = Some one /\ (sr_revision ref <= sr_revision one)%Z) ->
  newest_of (refs ++ [ref]) key held.
Proof.
  intros H Hr. destruct held as [one |]; cbn in *.
  - destruct H as (-> & Hin & Hname & Hmax). split_and!; [done | set_solver | done |].
    intros other [Ho | ->%list_elem_of_singleton]%elem_of_app Hn E; [by apply Hmax |]. by destruct (Hr Hn E) as (? & [= <-] & ?).
  - intros other [Ho | ->%list_elem_of_singleton]%elem_of_app Hn E; [by eapply H |]. by destruct (Hr Hn E) as (? & ? & ?).
Qed.

Lemma newest_step refs newest ref :
  (forall key, newest_of refs key (newest !! key)) -> forall key, newest_of (refs ++ [ref]) key (newestStep newest ref !! key).
Proof.
  intros H key. specialize (H key). unfold newestStep. case_bool_decide as Hn; [by apply newest_of_snoc |].
  destruct (decide (releaseOf ref = key)) as [<- | Hne].
  - assert (forall one, newest !! releaseOf ref = one ->
      match one with Some previous => (sr_revision previous <= sr_revision ref)%Z | None => True end ->
      newest_of (refs ++ [ref]) (releaseOf ref) (Some ref)) as Hnew.
    { intros one E Hle. rewrite E in H. cbn. split_and!; [done | set_solver | done |].
      intros other [Ho | ->%list_elem_of_singleton]%elem_of_app Hname Er; [| lia]. destruct one as [previous |]; cbn in H.
      - destruct H as (_ & _ & _ & Hmax). specialize (Hmax _ Ho Hname Er). lia.
      - by destruct (H _ Ho Hname). }
    destruct (newest !! releaseOf ref) as [previous |] eqn:E.
    + destruct (Z.leb_spec (sr_revision ref) (sr_revision previous)) as [Hle | Hgt].
      * rewrite E. apply newest_of_snoc; [done |]. intros _ _. by exists previous.
      * rewrite lookup_insert_eq. apply (Hnew (Some previous)); [done | lia].
    + rewrite lookup_insert_eq. by apply (Hnew None).
  - assert (newest_of (refs ++ [ref]) key (newest !! key)) as Hold by (by apply newest_of_snoc).
    repeat case_match; rewrite ?lookup_insert_ne by done; done.
Qed.

Lemma newest_fold refs key : newest_of refs key (foldl newestStep ∅ refs !! key).
Proof.
  revert key. induction refs as [| ref refs IH] using rev_ind; intros key.
  - cbn. rewrite lookup_empty. by intros other ?%elem_of_nil.
  - rewrite foldl_app. by apply newest_step.
Qed.

(** One ref of every release that has a name, and no revision of it is newer. *)
Lemma newestPerRelease_exact refs :
  NoDup (map releaseOf (newestPerRelease refs)) /\
  (forall ref, ref ∈ newestPerRelease refs -> ref ∈ refs /\ named ref /\
     forall other, other ∈ refs -> named other -> releaseOf other = releaseOf ref -> (sr_revision other <= sr_revision ref)%Z) /\
  (forall ref, ref ∈ refs -> named ref -> exists newest, newest ∈ newestPerRelease refs /\ releaseOf newest = releaseOf ref).
Proof.
  pose proof (newest_fold refs) as H. unfold newestPerRelease. set (m := foldl newestStep ∅ refs) in *.
  assert (forall key ref, m !! key = Some ref -> newest_of refs key (Some ref)) as Hm by (intros key ref E; by rewrite <- E).
  split_and!.
  - rewrite map_map. replace (map (fun x => releaseOf x.2) (map_to_list m)) with (map fst (map_to_list m)); [apply NoDup_fst_map_to_list |].
    apply map_ext_in. intros [key ref] Hin%list_elem_of_In%elem_of_map_to_list. by destruct (Hm _ _ Hin) as (-> & _).
  - intros ref ([key one] & -> & Hin%elem_of_map_to_list)%map_elem. destruct (Hm _ _ Hin) as (-> & ? & ? & ?). by split_and!.
  - intros ref Hin Hname. specialize (H (releaseOf ref)). destruct (m !! releaseOf ref) as [one |] eqn:E; [| by destruct (H ref Hin Hname)].
    exists one. destruct (Hm _ _ E) as (Ek & _). split; [| done]. apply map_elem. exists (releaseOf ref, one).
    split; [done |]. by apply elem_of_map_to_list.
Qed.

(** * A history that is followed page by page *)

Definition countable_revision (ref : storedRef) : bool := (1 <=? sr_revision ref)%Z.
Definition newer (a b : storedRef) : Prop := (sr_revision b < sr_revision a)%Z.

Lemma eligibleFrom_take refs through room :
  eligibleFrom refs through room =
  take room (List.filter (fun ref => (sr_revision ref <=? through)%Z) (List.filter countable_revision refs)).
Proof.
  revert room. induction refs as [| ref refs IH]; intros [| room]; try done. cbn [eligibleFrom List.filter].
  unfold countable_revision at 1. destruct (Z.leb_spec 1 (sr_revision ref)) as [H1 | H1].
  - destruct (Z.ltb_spec (sr_revision ref) 1); [lia |]. rewrite orb_false_r. cbn [List.filter].
    destruct (Z.ltb_spec through (sr_revision ref)), (Z.leb_spec (sr_revision ref) through); try lia; [apply IH | cbn; by rewrite IH].
  - destruct (Z.ltb_spec (sr_revision ref) 1); [| lia]. rewrite orb_true_r. apply IH.
Qed.

#[local] Instance newerRef_ok : Comparator newerRef.
Proof. unfold newerRef. apply _. Qed.

Lemma newerRef_desc a b : cmp_le newerRef a b -> (sr_revision b <= sr_revision a)%Z.
Proof. unfold cmp_le, newerRef, cmp_then, cmp_on, cmp_desc. zcases; lia. Qed.

(** Sorted refs no two neighbours of which share a revision are strictly
    descending, as far as they count. *)
Lemma twice_none refs :
  StronglySorted (fun a b => (sr_revision b <= sr_revision a)%Z) refs -> twice refs = None ->
  StronglySorted newer (List.filter countable_revision refs).
Proof.
  induction 1 as [| one refs Hs IH Hone]; [constructor |]. intros Ht. assert (twice refs = None) as Ht'.
  { destruct refs; [done |]. cbn in Ht. by destruct (_ && _). }
  specialize (IH Ht'). cbn. unfold countable_revision at 1. destruct (Z.leb_spec 1 (sr_revision one)); [| done]. constructor; [done |].
  destruct refs as [| two refs]; [constructor |]. cbn in Ht.
  destruct ((0 <? sr_revision two)%Z && (sr_revision one =? sr_revision two)%Z) eqn:E; [done |].
  apply list.Forall_forall. intros other [Hin Hc]%filter_elem. unfold countable_revision in Hc. breflect. unfold newer.
  inversion Hs as [| ? ? _ Htwo]; subst. inversion Hone as [| ? ? Hot _]; subst.
  assert (sr_revision other <= sr_revision two)%Z by (apply elem_of_cons in Hin as [-> | Hin]; [lia |]; by eapply list.Forall_forall in Htwo).
  apply andb_false_iff in E as [E | E]; breflect; lia.
Qed.

(** From the revision at one place on, a strictly descending list is what
    follows that place. *)
Lemma newer_drop l k ref :
  StronglySorted newer l -> l !! k = Some ref -> List.filter (fun r => (sr_revision r <=? sr_revision ref)%Z) l = drop k l.
Proof.
  intros Hs. revert k. induction Hs as [| one l Hs IH Hone]; intros [| k]; try done; cbn.
  - intros [= ->]. rewrite Z.leb_refl. f_equal. apply List.forallb_filter_id, forallb_elem.
    intros r Hr. eapply list.Forall_forall in Hone; [| exact Hr]. unfold newer in Hone. apply Z.leb_le. lia.
  - intros Hk. assert (newer one ref) as Hn by (eapply list.Forall_forall in Hone; [exact Hone | by eapply list_elem_of_lookup_2]).
    unfold newer in Hn. destruct (Z.leb_spec (sr_revision one) (sr_revision ref)); [lia |]. by apply IH.
Qed.

Section history.
Context (refs : list storedRef) (namespace name : string).

(** The refs a history is of: those with a revision, the newest first. *)
Definition historyOf : list storedRef := List.filter countable_revision (sort_by newerRef refs).

(** Reads the pages of a history, each from where the last one ended. *)
Fixpoint follow (rounds : nat) (through : Z) : option (list storedRef) :=
  match rounds with
  | O => None
  | S rounds =>
      match selectHistoryRefs refs namespace name through with
      | Err _ => None
      | Ok (page, next) => if (next =? 0)%Z then Some page else app page <$> follow rounds next
      end
  end.

Lemma select_inv through first :
  selectHistoryRefs refs namespace name through = Ok first ->
  StronglySorted newer historyOf /\ twice (sort_by newerRef refs) = None /\
  exists latest, oneRef refs namespace name = Ok (latest, sort_by newerRef refs) /\ historyOf !! 0 = Some latest.
Proof.
  unfold selectHistoryRefs. destruct (oneRef refs namespace name) as [[latest sorted] | e] eqn:Ho; [| done]. cbn.
  assert (sorted = sort_by newerRef refs /\ historyOf !! 0 = Some latest) as [-> Hl].
  { unfold oneRef, historyOf in *. destruct (sort_by newerRef refs) as [| one rest]; [done |]. cbn. unfold countable_revision.
    destruct (Z.ltb_spec (sr_revision one) 1); [done |]. destruct (Z.leb_spec 1 (sr_revision one)); [| lia].
    destruct rest as [| two rest]; [by injection Ho as <- <- |]. destruct (_ =? _)%Z; [done |]. by injection Ho as <- <-. }
  destruct (twice _) eqn:Ht; [done |]. intros _. split_and!; [| done | by exists latest].
  apply twice_none; [| done]. eapply StronglySorted_weaken; [| apply sort_by_sorted, _]. apply newerRef_desc.
Qed.

(** One page: from the newest, or from a revision of the history, so many as
    fit and the revision after them. *)
Lemma select_page first k ref :
  selectHistoryRefs refs namespace name 0 = Ok first -> historyOf !! k = Some ref ->
  forall through, through = sr_revision ref \/ k = 0 /\ through = 0%Z ->
  selectHistoryRefs refs namespace name through =
    Ok (take historyPageSize (drop k historyOf), default 0%Z (sr_revision <$> historyOf !! (k + historyPageSize))).
Proof.
  intros Hf Hk through Ht. destruct (select_inv _ _ Hf) as (Hs & Htw & latest & Ho & Hl).
  unfold selectHistoryRefs. rewrite Ho. cbn [mbind result_bind]. rewrite Htw. rewrite eligibleFrom_take. fold historyOf.
  assert (countable_revision ref = true) as Hc by (apply list_elem_of_lookup_2, filter_elem in Hk as [_ Hk]; exact Hk).
  replace (if (through <? 1)%Z then sr_revision latest else through) with (sr_revision ref).
  2: { unfold countable_revision in Hc. breflect. destruct Ht as [-> | [-> ->]]; [destruct (Z.ltb_spec (sr_revision ref) 1); lia |].
       rewrite Hl in Hk. by injection Hk as ->. }
  rewrite (newer_drop _ k) by done. rewrite lookup_take by (unfold historyPageSize; lia). rewrite lookup_drop.
  rewrite take_take. replace (historyPageSize `min` S historyPageSize) with historyPageSize by (unfold historyPageSize; lia).
  destruct (historyOf !! (k + historyPageSize)) as [next |] eqn:E; [done |]. cbn [fmap option_fmap option_map from_option id].
  apply lookup_ge_None in E. by rewrite !take_ge by (rewrite length_drop; unfold historyPageSize in *; lia).
Qed.

Lemma follow_from first k ref rounds :
  selectHistoryRefs refs namespace name 0 = Ok first -> historyOf !! k = Some ref -> length historyOf - k <= rounds ->
  forall through, through = sr_revision ref \/ k = 0 /\ through = 0%Z ->
  follow rounds through = Some (drop k historyOf).
Proof.
  intros Hf. revert k ref. induction rounds as [| rounds IH]; intros k ref Hk Hr through Ht.
  { apply lookup_lt_Some in Hk. lia. }
  cbn [follow]. rewrite (select_page first k ref) by done. destruct (historyOf !! (k + historyPageSize)) as [next |] eqn:E; cbn [fmap option_fmap option_map from_option id].
  - assert (countable_revision next = true) as Hc by (apply list_elem_of_lookup_2, filter_elem in E as [_ E]; exact E).
    unfold countable_revision in Hc. breflect. destruct (Z.eqb_spec (sr_revision next) 0); [lia |].
    assert (length (historyOf) - (k + historyPageSize) <= rounds) as Hr' by (unfold historyPageSize; lia).
    rewrite (IH _ _ E Hr' _ (or_introl eq_refl)). cbn. by rewrite <- drop_drop, take_drop.
  - cbn. apply lookup_ge_None in E. by rewrite take_ge by (rewrite length_drop; unfold historyPageSize in *; lia).
Qed.
End history.

(** A client that follows the pages of a release's history gets every stored
    revision once, the newest first, in at most as many requests as there are
    revisions. *)
Theorem history_covers refs namespace name first :
  selectHistoryRefs refs namespace name 0 = Ok first ->
  follow refs namespace name (length refs) 0 = Some (historyOf refs) /\
  StronglySorted newer (historyOf refs) /\
  (forall ref, ref ∈ historyOf refs <-> ref ∈ refs /\ (1 <= sr_revision ref)%Z) /\
  length first.1 <= historyPageSize.
Proof.
  intros Hf. destruct (select_inv _ _ _ _ _ Hf) as (Hs & _ & latest & _ & Hl). split_and!; [| done | |].
  - assert (length (historyOf refs) <= length refs) as Hle.
    { unfold historyOf. rewrite List.filter_length_le. by rewrite sort_by_length. }
    rewrite (follow_from refs namespace name first 0 latest (length refs) Hf Hl); [by rewrite drop_0 | lia | by right].
  - intros ref. unfold historyOf. rewrite filter_elem, sort_by_elem. unfold countable_revision. by rewrite Z.leb_le.
  - rewrite (select_page refs namespace name first 0 latest) in Hf; [| done | done | by right]. injection Hf as <-. cbn.
    rewrite length_take. unfold historyPageSize. lia.
Qed.

End HelmReleases.
