(* ===== verification/Helm.v ===== *)
(** internal/helm, what is done with the helm program: actions.go, install.go,
    upgrade.go, repos.go, versions.go, catalog.go, driver.go and fluxowner.go.
    Running helm, the file of values and the look for a namespace are questions
    of a program; the cluster's stored releases are read as in [HelmReleases]. *)

From Stdlib Require Import Ascii.
From S2P Require Import Prelude Api Text Unstr Codec CommandBuffer Identity Config Access Issues Program Respond Rollout Kube.
From S2P Require Import Inspect Reads Charts HelmReleases.

Module Helm.
Import Api Text Identity HelmReleases.

Definition DefaultBinary : string := "helm".
Definition maxHelmOutput : Z := Z.shiftl 16 20.
Definition maxHelmError : Z := Z.shiftl 64 10.
Definition driverEnv : string := "HELM_DRIVER".
Definition ActionRollback : string := "rollback".
Definition ActionUninstal : string := "uninstall".
Definition ActionInstall : string := "install".
Definition ActionUpgrade : string := "upgrade".
Definition ErrNoHelmBinary : string := "helm was not found on PATH".

(** ** What running helm comes to *)

(** A process that ended: what it wrote to each stream, in writes, and the error
    of running it, with whether there is no such program. *)
Record outcome := MkOutcome {
  oc_stdout : list (list Byte.byte);
  oc_stderr : list (list Byte.byte);
  oc_error : option (string * bool);
}.

Record HelmActionResult := MkHelmActionResult {
  ha_Action : string;
  ha_Message : string;
  ha_Revision : Z;
  ha_DryRun : bool;
  ha_Manifest : string;
}.

Definition text_of (b : CommandBuffer.Buffer) : string := String.string_of_list_byte (CommandBuffer.Bytes b).

Definition newline : Ascii.ascii := Ascii.ascii_of_N 10.

Definition firstMeaningful (stderr : string) : string :=
  let lines := str_split newline (TrimSpace stderr) in
  Join "; " (List.filter (fun line => negb (bool_decide (line = ""))) (map TrimSpace lines)).

(** [helmRunner.Run] with its limits *)
Definition Run (outputLimit errorLimit : Z) (binary : string) (o : outcome) : result error string :=
  let stdout := CommandBuffer.writeAll (CommandBuffer.Head outputLimit) (oc_stdout o) in
  let stderr := CommandBuffer.writeAll (CommandBuffer.Tail errorLimit) (oc_stderr o) in
  if CommandBuffer.Exceeded stdout then Err (Respond.New ("helm output exceeded " +s+ Itoa outputLimit +s+ " bytes"))
  else match oc_error o with
    | None => Ok (TrimSpace (text_of stdout))
    | Some (_, true) => Err (Respond.New (ErrNoHelmBinary +s+ ": " +s+ binary))
    | Some (text, false) =>
        let message := firstMeaningful (text_of stderr) in
        if CommandBuffer.Exceeded stderr then
          Err (Respond.New ("helm error output exceeded " +s+ Itoa errorLimit +s+ " bytes: " +s+ message))
        else if bool_decide (message = "") then Err (Respond.New text)
        else Err (Respond.New message)
    end.

(** ** The environment helm runs in *)

Definition helmEnvironmentPrefixes : list string := ["HELM_"; "XDG_"; "AWS_"; "CLOUDSDK_"; "GOOGLE_"; "AZURE_"].

Definition allowedHelmEnvironment (key : string) : bool :=
  existsb (has_prefix key) helmEnvironmentPrefixes ||
  contains ["HOME"; "KUBECONFIG"; "PATH"; "TMPDIR"; "SSL_CERT_DIR"; "SSL_CERT_FILE"; "HTTP_PROXY"; "HTTPS_PROXY"; "NO_PROXY";
            "http_proxy"; "https_proxy"; "no_proxy"] key.

(** An entry of the environment that is kept, by its key. *)
Definition kept (allowed : string -> bool) (held : gmap string string) (entry : string) : gmap string string :=
  let '(key, _, ok) := str_cut entry "=" in if negb ok then held else if negb (allowed key) then held else <[key := entry]> held.

Definition helmEnvironment (environ extra : list string) : list string :=
  let held := foldl (kept (fun _ => true)) (foldl (kept allowedHelmEnvironment) ∅ environ) extra in
  map snd (sort_by (cmp_on fst str_compare) (map_to_list held)).

(** ** Repositories *)

Record RepoEntry := MkRepoEntry { re_Name : string; re_Repo : Charts.Repo }.

(** [Repositories] of what repositories.yaml names, if it can be read. *)
Definition Repositories (parsed : option (list (string * string))) : list RepoEntry :=
  match parsed with
  | None => []
  | Some entries =>
      omap (fun '(name, url) => if bool_decide (url = "") then None else Some (MkRepoEntry name (Charts.MkRepo url (has_prefix url "oci://"))))
        entries
  end.

Definition repoLabel (entry : RepoEntry) : string :=
  if bool_decide (re_Name entry <> "") then re_Name entry else Charts.URL_ (re_Repo entry).

(** [strings.TrimSuffix(url, "/")] *)
Definition unslashed (url : string) : string := Charts.trim_suffix url "/".

(** ** Arguments *)

Record UpgradeRequest := MkUpgradeRequest {
  up_Namespace : string;
  up_Name : string;
  up_Chart : string;
  up_Version : string;
  up_RepoURL : string;
  up_OCI : bool;
  up_Values : string;
  up_DryRun : bool;
}.

(** [InstallRequest] has CreateNamespace beside these. *)
Record InstallRequest := MkInstallRequest { in_of : UpgradeRequest; in_CreateNamespace : bool }.

Definition chartRef (chart repoURL : string) (oci : bool) : string := if oci then unslashed repoURL +s+ "/" +s+ chart else chart.

Definition upgradeArgs (req : UpgradeRequest) (valuesFile : string) : list string :=
  ["upgrade"; up_Name req; chartRef (up_Chart req) (up_RepoURL req) (up_OCI req); "--namespace"; up_Namespace req;
   "--version"; up_Version req] ++
  (if negb (up_OCI req) then ["--repo"; up_RepoURL req] else []) ++ ["--values"; valuesFile] ++
  (if up_DryRun req then ["--dry-run=server"; "--output"; "json"] else []).

Definition dryRunFlag (onCluster : bool) : string := if onCluster then "--dry-run=server" else "--dry-run=client".

Definition installArgs (req : InstallRequest) (valuesFile : string) (onCluster : bool) : list string :=
  let of_ := in_of req in
  ["install"; up_Name of_; chartRef (up_Chart of_) (up_RepoURL of_) (up_OCI of_); "--namespace"; up_Namespace of_;
   "--version"; up_Version of_] ++
  (if negb (up_OCI of_) then ["--repo"; up_RepoURL of_] else []) ++ ["--values"; valuesFile] ++
  (if in_CreateNamespace req then ["--create-namespace"] else []) ++
  (if up_DryRun of_ then [dryRunFlag onCluster; "--output"; "json"] else []).

(** [auth.HelmFlags] *)
Definition flagsFor (ctx : Context_) (user group : string) : list string :=
  let '(who, ok) := ActingAs ctx in
  if negb ok then [] else [user; User who] ++ flat_map (fun one => [group; one]) (Groups who).

Definition HelmFlags (ctx : Context_) : list string := flagsFor ctx "--kube-as-user" "--kube-as-group".

(** [Service]: whether there is a runner and a typed client, the repositories,
    and the context of the kubeconfig with its file. *)
Record service := MkService {
  runner : bool;
  cs : bool;
  repos : list RepoEntry;
  kubeName : string;
  kubeConfig : string;
}.

Definition args (s : service) (ctx : Context_) (rest : list string) : list string :=
  rest ++ (if bool_decide (kubeName s <> "") then ["--kube-context"; kubeName s] else []) ++
  (if bool_decide (kubeConfig s <> "") then ["--kubeconfig"; kubeConfig s] else []) ++ HelmFlags ctx.

#[global] Arguments args : simpl never.
#[global] Arguments upgradeArgs : simpl never.
#[global] Arguments installArgs : simpl never.

Inductive call :=
| CreateValues
| WriteValues (file values : string)
| CloseValues (file : string)
| RemoveValues (file : string)
| GetNamespace (name : string)
| RunHelm (args env : list string).

(** A file's name; how many bytes were written; a namespace that is there,
    or whether it is not found. *)
Definition answer (c : call) : Type :=
  match c with
  | CreateValues => result string string
  | WriteValues _ _ => Z * option string
  | CloseValues _ => option string
  | RemoveValues _ => ()
  | GetNamespace _ => option error
  | RunHelm _ _ => outcome
  end.

Section helm.
Context {Nt : Net} {Au : Authorities} {Qt : Quoting} {Sm : Semver} {Wd : Wording} {Pa : Payloads} {Ym : YAML} (fuel : nat) (c : cluster).

Definition admitsRepository (s : service) (raw : string) (oci : bool) : option string :=
  match Charts.CheckRepoURL raw with
  | Some e => Some e
  | None =>
      match List.find (fun entry => bool_decide (unslashed (Charts.URL_ (re_Repo entry)) = unslashed raw)) (repos s) with
      | None => Some ("repository " +s+ Quote raw +s+ " is not configured")
      | Some entry =>
          if bool_decide (Charts.OCI (re_Repo entry) <> oci) then
            Some ("repository " +s+ Quote raw +s+ " does not match the requested protocol")
          else None
      end
  end.

Definition admits (s : service) (namespace name : string) : option string :=
  if negb (runner s) then Some "helm actions are not wired up"
  else if negb (nameFormat namespace) || negb (nameFormat name) then Some "namespace and release must be valid kubernetes names"
  else None.

(** A mapping, or nothing. *)
Definition checkValues (values : string) : option string :=
  if bool_decide (values = "") then None
  else match UnmarshalYAML values with Err e => Some ("values must be a yaml mapping: " +s+ e) | Ok _ => None end.

(** [admitsUpgrade], and [admitsInstall], which is the same of its request. *)
Definition admitsUpgrade (s : service) (req : UpgradeRequest) : option string :=
  match admits s (up_Namespace req) (up_Name req) with
  | Some e => Some e
  | None =>
      if negb (nameFormat (up_Chart req)) then Some (Quote (up_Chart req) +s+ " is not a chart name")
      else if negb (Charts.ValidVersion (up_Version req)) then
        Some ("version " +s+ Quote (up_Version req) +s+ " is not a semantic version")
      else match admitsRepository s (up_RepoURL req) (up_OCI req) with
        | Some e => Some e
        | None => checkValues (up_Values req)
        end
  end.

Definition admitsInstall (s : service) (req : InstallRequest) : option string := admitsUpgrade s (in_of req).

(** [driverFor] without the metadata client: the driver of the newest revision. *)
Fixpoint latestDriver (latest : stored) (rest : list stored) : result error string :=
  match rest with
  | [] => Ok (st_driver latest)
  | revision :: rest =>
      if (st_revision latest <? st_revision revision)%Z then latestDriver revision rest
      else if (st_revision revision =? st_revision latest)%Z then Err (ambiguous (st_revision revision))
      else latestDriver latest rest
  end.

Definition driverFor (namespace name : string) : M string :=
  match meta c with
  | None =>
      revisions <-! revisionsIn fuel c namespace name;;
      Some match revisions with [] => Err (noRelease namespace name) | latest :: rest => latestDriver latest rest end
  | Some _ => latest <-! latestRef fuel c namespace name;; Some (Ok (sr_driver latest))
  end.

(** [DefaultDriver], from the variable of the environment. *)
Definition DefaultDriver (fromEnv : string) : string := if bool_decide (fromEnv = DriverConfigMap) then DriverConfigMap else DriverSecret.

(** [ReleaseDriver]; [s] is nil without a service. *)
Definition ReleaseDriver (fromEnv : string) (s : option service) (namespace name : string) : option string :=
  match s with
  | None => Some (DefaultDriver fromEnv)
  | Some s =>
      if negb (cs s) || negb (nameFormat namespace) || negb (nameFormat name) then Some (DefaultDriver fromEnv)
      else match driverFor namespace name with
        | None => None
        | Some (Err _) => Some (DefaultDriver fromEnv)
        | Some (Ok found) => Some found
        end
  end.

(** ** Actions *)

Definition run (argv : list string) (driver : string) : prog answer (result error string) :=
  let env := if bool_decide (driver = DriverConfigMap) then [driverEnv +s+ "=" +s+ DriverConfigMap] else [] in
  o <-- ask (RunHelm argv env);;
  Return (Run maxHelmOutput maxHelmError DefaultBinary o).

Definition refuse {A} (text : string) : prog answer (M A) := Return (Some (Err (Respond.New text))).

(** What an action goes on with once it knows the driver. *)
Definition withDriver {A} (namespace name : string) (f : string -> prog answer (M A)) : prog answer (M A) :=
  match driverFor namespace name with
  | None => Return None
  | Some (Err e) => Return (Some (Err e))
  | Some (Ok driver) => f driver
  end.

Definition orDefault (out fallback : string) : string := if bool_decide (out = "") then fallback else out.

Definition Rollback (s : service) (ctx : Context_) (namespace name : string) (revision : Z) : prog answer (M HelmActionResult) :=
  match admits s namespace name with
  | Some e => refuse e
  | None =>
      if (revision <? 1)%Z then refuse "a rollback needs the revision to go back to"
      else withDriver namespace name (fun driver =>
        out <-- run (args s ctx ["rollback"; name; Itoa revision; "--namespace"; namespace]) driver;;
        Return (Some (out ← out;
          Ok (MkHelmActionResult ActionRollback (orDefault out ("rolled " +s+ name +s+ " back to revision " +s+ Itoa revision)) revision false ""))))
  end.

Definition Uninstall (s : service) (ctx : Context_) (namespace name : string) : prog answer (M HelmActionResult) :=
  match admits s namespace name with
  | Some e => refuse e
  | None =>
      withDriver namespace name (fun driver =>
        out <-- run (args s ctx ["uninstall"; name; "--namespace"; namespace]) driver;;
        Return (Some (out ← out;
          Ok (MkHelmActionResult ActionUninstal (orDefault out ("uninstalled " +s+ name +s+ " from " +s+ namespace)) 0 false ""))))
  end.

(** [writeValuesWith] *)
Definition writeValues (values : string) : prog answer (result string string) :=
  created <-- ask CreateValues;;
  match created : result string string with
  | Err e => Return (Err e)
  | Ok name =>
      wrote <-- ask (WriteValues name values);;
      closed <-- ask (CloseValues name);;
      let failed e := _ <-- ask (RemoveValues name);; Return (Err e) in
      match wrote : Z * option string with
      | (_, Some e) => failed e
      | (written, None) =>
          if negb (written =? strlen values)%Z then failed "short write"
          else match closed : option string with Some e => failed e | None => Return (Ok name) end
      end
  end.

(** [strings.Index(out, "{")] *)
Fixpoint afterThePull (out : string) : option string :=
  match out with
  | EmptyString => None
  | String a rest => if bool_decide (a = Ascii.ascii_of_N 123) then Some out else afterThePull rest
  end.

Definition renderedBy (onCluster : bool) : string := if onCluster then "server" else "local".

Definition renderResult (action chart version : string) (onCluster : bool) (out : string) : result error HelmActionResult :=
  match DecodePayload (default out (afterThePull out)) with
  | Err e => Err (Respond.New ("could not read helm's dry-run output: " +s+ e))
  | Ok rendered =>
      Ok (MkHelmActionResult action (renderedBy onCluster +s+ " render of " +s+ chart +s+ " " +s+ version) 0 true (pa_Manifest rendered))
  end.

(** The rest of Upgrade and of Install once the values are in a file, which is
    removed at the end. *)
Definition withValues {A} (values : string) (f : string -> prog answer (M A)) : prog answer (M A) :=
  file <-- writeValues values;;
  match file with
  | Err e => refuse e
  | Ok file => done_ <-- f file;; _ <-- ask (RemoveValues file);; Return done_
  end.

Definition Upgrade (s : service) (ctx : Context_) (req : UpgradeRequest) : prog answer (M HelmActionResult) :=
  match admitsUpgrade s req with
  | Some e => refuse e
  | None =>
      withDriver (up_Namespace req) (up_Name req) (fun driver =>
        withValues (up_Values req) (fun file =>
          out <-- run (args s ctx (upgradeArgs req file)) driver;;
          Return (Some (out ← out;
            if up_DryRun req then renderResult ActionUpgrade (up_Chart req) (up_Version req) true out
            else Ok (MkHelmActionResult ActionUpgrade
              (orDefault out ("upgraded " +s+ up_Name req +s+ " to " +s+ up_Chart req +s+ " " +s+ up_Version req)) 0 false "")))))
  end.

Definition namespaceExists (s : service) (namespace : string) : prog answer bool :=
  if negb (cs s) then Return false
  else got <-- ask (GetNamespace namespace);; Return match got : option error with None => true | Some _ => false end.

Definition Install (s : service) (ctx : Context_) (req : InstallRequest) : prog answer (M HelmActionResult) :=
  let of_ := in_of req in
  match admitsInstall s req with
  | Some e => refuse e
  | None =>
      withValues (up_Values of_) (fun file =>
        onCluster <-- namespaceExists s (up_Namespace of_);;
        out <-- run (args s ctx (installArgs req file onCluster)) "";;
        Return (Some (out ← out;
          if up_DryRun of_ then renderResult ActionInstall (up_Chart of_) (up_Version of_) onCluster out
          else Ok (MkHelmActionResult ActionInstall
            (orDefault out ("installed " +s+ up_Chart of_ +s+ " " +s+ up_Version of_ +s+ " as " +s+ up_Name of_ +s+ " in " +s+
              up_Namespace of_)) 0 false ""))))
  end.
End helm.

(** ** How helm reads its arguments *)

(** The flags of helm that take a value, as far as they are used here. *)
Definition valued : list string :=
  ["--namespace"; "--version"; "--repo"; "--values"; "--output"; "--kube-context"; "--kubeconfig"; "--kube-as-user"; "--kube-as-group"].

Record argv := MkArgv { positionals : list string; options : list (string * string); switches : list string }.

(** A flag that takes a value takes the next argument, whatever it is; another
    argument that begins with a dash is a switch, and the rest stand for
    themselves. *)
Fixpoint parsed (l : list string) : option argv :=
  match l with
  | [] => Some (MkArgv [] [] [])
  | a :: rest =>
      if contains valued a then
        match rest with
        | [] => None
        | v :: rest => (fun r => MkArgv (positionals r) ((a, v) :: options r) (switches r)) <$> parsed rest
        end
      else if has_prefix a "-" then (fun r => MkArgv (positionals r) (options r) (a :: switches r)) <$> parsed rest
      else (fun r => MkArgv (a :: positionals r) (options r) (switches r)) <$> parsed rest
  end.

Definition given (flag : string) (r : argv) : list string := map snd (List.filter (fun o => bool_decide (o.1 = flag)) (options r)).

Definition merged (a b : argv) : argv := MkArgv (positionals a ++ positionals b) (options a ++ options b) (switches a ++ switches b).

Lemma parsed_app l k a b : parsed l = Some a -> parsed k = Some b -> parsed (l ++ k) = Some (merged a b).
Proof.
  intros Hl Hk. revert a Hl. induction l as [l IH] using (induction_ltof1 _ (@length string)). unfold ltof in IH.
  destruct l as [| f rest]; intros a Hl; [cbn in *; injection Hl as <-; rewrite Hk; by destruct b |].
  cbn in Hl. cbn [app parsed]. destruct (contains valued f).
  - destruct rest as [| v rest]; [done |]. cbn [app]. destruct (parsed rest) as [r |] eqn:Hr; [| done]. injection Hl as <-.
    assert (length rest < length (f :: v :: rest)) as Hlt by (cbn; lia). by rewrite (IH rest Hlt r Hr).
  - assert (length rest < length (f :: rest)) as Hlt by (cbn; lia).
    destruct (has_prefix f "-"); (destruct (parsed rest) as [r |] eqn:Hr; [| done]); injection Hl as <-; by rewrite (IH rest Hlt r Hr).
Qed.

(** An argument that begins with anything but a dash stands for itself. *)
Definition plain (s : string) : Prop := exists c rest, s = String c rest /\ c <> Ascii.ascii_of_N 45.

Lemma plain_parsed s : plain s -> contains valued s = false /\ has_prefix s "-" = false.
Proof.
  intros (c & rest & -> & Hc). split.
  - apply not_true_iff_false. rewrite contains_spec. unfold valued. intros H.
    repeat (apply elem_of_cons in H as [H | H]; [injection H as H _; by subst |]). by apply elem_of_nil in H.
  - destruct (has_prefix (String c rest) "-") eqn:E; [| done]. unfold has_prefix in E. cbn [strip_prefix] in E.
    destruct (Ascii.eqb_spec "-"%char c) as [<- |]; [by destruct Hc | done].
Qed.

Lemma parsed_plain l : Forall plain l -> parsed l = Some (MkArgv l [] []).
Proof. induction 1 as [| s l [H1 H2]%plain_parsed _ IH]; [done |]. cbn [parsed]. by rewrite H1, H2, IH. Qed.

Lemma nameFormat_plain s : nameFormat s = true -> plain s.
Proof.
  unfold nameFormat. destruct s as [| c s]; [done |]. cbn. intros H. breflect. exists c, s. split; [done |]. intros ->. done.
Qed.

Lemma digits_plain p : plain (pretty (Zpos p)).
Proof.
  change (pretty (Zpos p)) with (pretty (Npos p)). unfold pretty, pretty_N. destruct (decide (N.pos p = 0%N)); [done |].
  assert (forall x s, (0 < x)%N -> plain (pretty_N_go x s)) as H; [| by apply H].
  intros x. induction (N.lt_wf_0 x) as [x _ IH]. intros s Hx. rewrite pretty_N_go_step by done.
  destruct (decide (x / 10 = 0)%N) as [E | E]; [| apply IH; [by apply N.div_lt | by apply N.neq_0_lt_0]].
  rewrite E, pretty_N_go_0. eexists _, _. split; [done |]. unfold pretty_N_char. by repeat case_match.
Qed.

(** ** Helm is run as the caller, for what was asked *)

Definition identityFlags (ctx : Context_) : list (string * string) :=
  let '(who, ok) := ActingAs ctx in
  if ok then ("--kube-as-user", User who) :: map (fun one => ("--kube-as-group", one)) (Groups who) else [].

Lemma parsed_identity ctx : parsed (HelmFlags ctx) = Some (MkArgv [] (identityFlags ctx) []).
Proof.
  unfold HelmFlags, flagsFor, identityFlags. destruct (ActingAs ctx) as [who [|]]; [| done]. cbn [negb app parsed].
  change (contains valued "--kube-as-user") with true. cbn iota.
  assert (parsed (flat_map (fun one => ["--kube-as-group"; one]) (Groups who)) =
    Some (MkArgv [] (map (fun one => ("--kube-as-group", one)) (Groups who)) [])) as ->; [| done].
  induction (Groups who) as [| one groups IH]; [done |]. cbn [flat_map app parsed]. change (contains valued "--kube-as-group") with true.
  cbn iota. by rewrite IH.
Qed.

(** The flags every action ends with. *)
Definition contextFlags (s : service) (ctx : Context_) : list (string * string) :=
  (if bool_decide (kubeName s <> "") then [("--kube-context", kubeName s)] else []) ++
  (if bool_decide (kubeConfig s <> "") then [("--kubeconfig", kubeConfig s)] else []) ++ identityFlags ctx.

Lemma parsed_args s ctx rest a :
  parsed rest = Some a -> parsed (args s ctx rest) = Some (merged a (MkArgv [] (contextFlags s ctx) [])).
Proof.
  intros H. unfold args. apply parsed_app; [done |]. unfold contextFlags. pose proof (parsed_identity ctx) as Hi.
  repeat case_bool_decide; cbn [app parsed]; change (contains valued "--kube-context") with true;
    change (contains valued "--kubeconfig") with true; cbn iota; by rewrite Hi.
Qed.

(** A run of helm with these arguments for the caller of a context, in a
    namespace: no other can be told it, and no other identity. *)
Definition runsFor (ctx : Context_) (namespace : string) (l : list string) (c : call) : Prop :=
  match c with
  | RunHelm argv env =>
      (exists r, parsed argv = Some r /\ positionals r = l /\ given "--namespace" r = [namespace] /\
         given "--kube-as-user" r = map snd (List.filter (fun f => bool_decide (f.1 = "--kube-as-user")) (identityFlags ctx)) /\
         given "--kube-as-group" r = map snd (List.filter (fun f => bool_decide (f.1 = "--kube-as-group")) (identityFlags ctx))) /\
      (env = [] \/ env = ["HELM_DRIVER=configmap"])
  | _ => True
  end.

Lemma given_context flag s ctx (a : argv) :
  flag <> "--kube-context" -> flag <> "--kubeconfig" ->
  given flag (merged a (MkArgv [] (contextFlags s ctx) [])) =
  given flag a ++ map snd (List.filter (fun f => bool_decide (f.1 = flag)) (identityFlags ctx)).
Proof.
  intros H1 H2. unfold given, merged, contextFlags. cbn [options]. rewrite List.filter_app, map_app. f_equal.
  rewrite !List.filter_app. repeat case_bool_decide; cbn; rewrite ?bool_decide_eq_false_2 by congruence; done.
Qed.

Lemma identity_namespace ctx : List.filter (fun f => bool_decide (f.1 = "--namespace")) (identityFlags ctx) = [].
Proof.
  unfold identityFlags. destruct (ActingAs ctx) as [who [|]]; [| done]. cbn. by induction (Groups who).
Qed.

Lemma runsFor_args s ctx namespace l rest a env :
  parsed rest = Some a -> positionals a = l -> given "--namespace" a = [namespace] -> given "--kube-as-user" a = [] ->
  given "--kube-as-group" a = [] -> env = [] \/ env = ["HELM_DRIVER=configmap"] ->
  runsFor ctx namespace l (RunHelm (args s ctx rest) env).
Proof.
  intros Hp Hl Hn Hu Hg He. split; [| done]. eexists. split; [by apply parsed_args |].
  rewrite !given_context by done. rewrite identity_namespace, Hn, Hu, Hg. split_and!; [| done..]. cbn. by rewrite Hl, app_nil_r.
Qed.

(** The repositories are those of a file. *)
Definition configured (s : service) : Prop := exists file, repos s = Repositories file.

Lemma configured_oci s entry :
  configured s -> entry ∈ repos s -> Charts.OCI (re_Repo entry) = has_prefix (Charts.URL_ (re_Repo entry)) "oci://".
Proof.
  intros [file ->]. unfold Repositories. destruct file as [entries |]; [| by intros ?%elem_of_nil].
  intros ([name url] & _ & H)%list_elem_of_omap. by case_bool_decide; simplify_eq.
Qed.

Lemma unslashed_oci url : has_prefix url "oci://" = true -> plain (unslashed url).
Proof.
  unfold has_prefix. destruct (strip_prefix "oci://" url) as [rest |] eqn:E; [| done]. intros _. apply strip_prefix_spec in E as ->.
  exists "o"%char. unfold unslashed, Charts.trim_suffix. destruct (has_suffix _ "/"); eexists; split; done.
Qed.

(** What the arguments after the positional ones come to. *)
Definition keepsTo (namespace : string) (l rest : list string) : Prop :=
  exists a, parsed rest = Some a /\ positionals a = l /\ given "--namespace" a = [namespace] /\ given "--kube-as-user" a = [] /\
    given "--kube-as-group" a = [].

Lemma keepsTo_app namespace l rest : Forall plain l -> keepsTo namespace [] rest -> keepsTo namespace l (l ++ rest).
Proof.
  intros Hl (a & Hp & Hpos & Hn & Hu & Hg). eexists. split; [apply parsed_app; [by apply parsed_plain | done] |].
  unfold merged, given in *. cbn. by rewrite Hpos, app_nil_r.
Qed.

Ltac keeps := eexists; split_and!; [vm_compute; reflexivity | vm_compute; reflexivity ..].

Lemma keepsTo_upgrade req file :
  plain (up_Name req) -> plain (chartRef (up_Chart req) (up_RepoURL req) (up_OCI req)) ->
  keepsTo (up_Namespace req) ["upgrade"; up_Name req; chartRef (up_Chart req) (up_RepoURL req) (up_OCI req)] (upgradeArgs req file).
Proof.
  intros Hn Hr. unfold upgradeArgs. cbn [app]. apply (keepsTo_app _ [_; _; _]).
  - repeat constructor; try done. by eexists _, _.
  - destruct (up_OCI req), (up_DryRun req); keeps.
Qed.

Lemma keepsTo_install req file onCluster :
  let of_ := in_of req in
  plain (up_Name of_) -> plain (chartRef (up_Chart of_) (up_RepoURL of_) (up_OCI of_)) ->
  keepsTo (up_Namespace of_) ["install"; up_Name of_; chartRef (up_Chart of_) (up_RepoURL of_) (up_OCI of_)]
    (installArgs req file onCluster).
Proof.
  intros of_ Hn Hr. unfold installArgs. cbn [app]. apply (keepsTo_app _ [_; _; _]).
  - repeat constructor; try done. by eexists _, _.
  - fold of_. destruct (up_OCI of_), (in_CreateNamespace req), (up_DryRun of_), onCluster; keeps.
Qed.

Section acting.
Context {Nt : Net} {Au : Authorities} {Qt : Quoting} {Sm : Semver} {Wd : Wording} {Pa : Payloads} {Ym : YAML} (fuel : nat) (c : cluster).
Context (s : service) (ctx : Context_) (Hs : configured s).

Lemma admits_names namespace name : admits s namespace name = None -> plain name.
Proof.
  unfold admits. destruct (runner s); cbn; [| done]. destruct (nameFormat namespace); cbn; [| done].
  destruct (nameFormat name) eqn:E; [| done]. intros _. by apply nameFormat_plain.
Qed.

Lemma admitsUpgrade_plain req :
  admitsUpgrade s req = None -> plain (up_Name req) /\ plain (chartRef (up_Chart req) (up_RepoURL req) (up_OCI req)).
Proof using Hs.
  unfold admitsUpgrade. destruct (admits s _ _) eqn:Ha; [done |]. apply admits_names in Ha. intros H. split; [done |].
  destruct (nameFormat (up_Chart req)) eqn:Hc; [| done]. cbn in H. destruct (Charts.ValidVersion _); [| done]. cbn in H.
  destruct (admitsRepository s _ _) eqn:Hr; [done |]. unfold chartRef. destruct (up_OCI req) eqn:Ho; [| by apply nameFormat_plain].
  unfold admitsRepository in Hr. destruct (Charts.CheckRepoURL _); [done |]. destruct (List.find _ _) as [entry |] eqn:Hf; [| done].
  apply List.find_some in Hf as [Hin%list_elem_of_In Heq]. breflect. case_bool_decide as Hoci; [done |].
  rewrite (configured_oci s entry Hs Hin) in Hoci. rewrite <- Heq.
  assert (has_prefix (Charts.URL_ (re_Repo entry)) "oci://" = true) as Hp by (apply dec_stable; congruence).
  destruct (unslashed_oci _ Hp) as (a & rest & -> & Hne). eexists _, _. by split.
Qed.

Definition is_run (one : call) : bool := match one with RunHelm _ _ => true | _ => false end.

(** What a run of an action comes to: helm is run once at most and as asked, and
    a file the values were written to is gone when it is over. *)
Definition asAsked (namespace : string) (l : list string) (calls : list call) : Prop :=
  Forall (runsFor ctx namespace l) calls /\ (counted is_run calls <= 1)%Z /\
  forall file values, WriteValues file values ∈ calls -> list.last calls = Some (RemoveValues file).

Lemma asAsked_nil namespace l : asAsked namespace l [].
Proof. split_and!; [done | done | by intros file values ?%elem_of_nil]. Qed.

Lemma asAsked_run namespace l rest driver :
  keepsTo namespace l rest ->
  asAsked namespace l [RunHelm (args s ctx rest) (if bool_decide (driver = DriverConfigMap) then ["HELM_DRIVER=configmap"] else [])].
Proof.
  intros (a & Hp & Hl & Hn & Hu & Hg). split_and!; [| done |].
  - constructor; [| done]. eapply runsFor_args; try done. case_bool_decide; [by right | by left].
  - by intros file values ?%list_elem_of_singleton.
Qed.

(** The places of a short list. *)
Ltac among H := repeat (apply elem_of_cons in H as [H | H]; [by simplify_eq |]); by apply elem_of_nil in H.

(** The file of values: what comes between writing and removing it writes none. *)
Lemma withValues_wp {A} namespace l values (f : string -> prog answer (M A)) :
  (forall file t, wp (f file) t (fun calls _ => exists more, calls = t ++ more /\ Forall (runsFor ctx namespace l) more /\
     (counted is_run more <= 1)%Z /\ Forall (fun one => match one with WriteValues _ _ => False | _ => True end) more)) ->
  wp (withValues values f) [] (fun calls _ => asAsked namespace l calls).
Proof.
  intros Hf. unfold withValues, writeValues. cbn. intros [file | e]; cbn; [| split_and!; [by constructor | done | by intros ? ? ?%list_elem_of_singleton]].
  assert (asAsked namespace l [CreateValues; WriteValues file values; CloseValues file; RemoveValues file]) as Hgone.
  { split_and!; [by repeat constructor | done |]. intros file' values' Hin. cbn. among Hin. }
  intros [n [e |]] closed; cbn; [done |].
  destruct (n =? strlen values)%Z; cbn; [| done]. destruct closed as [e |]; cbn; [done |].
  apply wp_bind. eapply wp_mono; [| apply Hf]. intros calls a (more & -> & Hmore & Hone & Hnone). cbn. intros _.
  change (asAsked namespace l ([CreateValues; WriteValues file values; CloseValues file] ++ more ++ [RemoveValues file])). split_and!.
  - rewrite !list.Forall_app. split_and!; [by repeat constructor | done | by repeat constructor].
  - rewrite !counted_app. change (counted is_run [CreateValues; WriteValues file values; CloseValues file]) with 0%Z.
    change (counted is_run [RemoveValues file]) with 0%Z. lia.
  - intros file' values' Hin. rewrite app_assoc, last_snoc. rewrite !elem_of_app in Hin. destruct Hin as [Hin | [Hin | Hin]].
    + among Hin.
    + eapply list.Forall_forall in Hnone; [| exact Hin]. done.
    + by apply list_elem_of_singleton in Hin.
Qed.
(** C28: Whatever is asked, whatever the cluster holds and whatever is answered:
    helm is run once at most, as the caller of the request, in the namespace that
    was asked for and with the positional arguments of the action, whatever
    names, versions and values were sent; and the file the values were written
    to is removed. *)
Theorem helm_runs_as_asked namespace name revision req create :
  let ref := chartRef (up_Chart req) (up_RepoURL req) (up_OCI req) in
  wp (Rollback fuel c s ctx namespace name revision) [] (fun calls _ => asAsked namespace ["rollback"; name; Itoa revision] calls) /\
  wp (Uninstall fuel c s ctx namespace name) [] (fun calls _ => asAsked namespace ["uninstall"; name] calls) /\
  wp (Upgrade fuel c s ctx req) [] (fun calls _ => asAsked (up_Namespace req) ["upgrade"; up_Name req; ref] calls) /\
  wp (Install s ctx (MkInstallRequest req create)) [] (fun calls _ => asAsked (up_Namespace req) ["install"; up_Name req; ref] calls).
Proof using Hs.
  intros ref. split_and!.
  - unfold Rollback. destruct (admits s _ _) eqn:Ha; [apply asAsked_nil |]. apply admits_names in Ha.
    destruct (Z.ltb_spec revision 1) as [| Hr]; [apply asAsked_nil |]. unfold withDriver.
    destruct (driverFor _ _ _ _) as [[driver | e] |]; [| apply asAsked_nil..]. cbn. intros o. apply asAsked_run.
    destruct revision as [| p | p]; [lia | | lia].
    apply (keepsTo_app _ [_; _; _]); [| keeps]. repeat constructor; [by eexists _, _ | done | apply digits_plain].
  - unfold Uninstall. destruct (admits s _ _) eqn:Ha; [apply asAsked_nil |]. apply admits_names in Ha. unfold withDriver.
    destruct (driverFor _ _ _ _) as [[driver | e] |]; [| apply asAsked_nil..]. cbn. intros o. apply asAsked_run.
    apply (keepsTo_app _ [_; _]); [| keeps]. repeat constructor; [by eexists _, _ | done].
  - unfold Upgrade. destruct (admitsUpgrade s req) eqn:Ha; [apply asAsked_nil |]. apply admitsUpgrade_plain in Ha as [Hn Hr].
    unfold withDriver. destruct (driverFor _ _ _ _) as [[driver | e] |]; [| apply asAsked_nil..]. apply withValues_wp.
    intros file t. cbn. intros o. eexists. split; [done |].
    destruct (asAsked_run _ _ _ driver (keepsTo_upgrade req file Hn Hr)) as (? & ? & _). split_and!; [done | done | by repeat constructor].
  - unfold Install, admitsInstall. cbn [in_of]. destruct (admitsUpgrade s req) eqn:Ha; [apply asAsked_nil |].
    apply admitsUpgrade_plain in Ha as [Hn Hr]. apply withValues_wp. intros file t.
    assert (forall onCluster, asAsked (up_Namespace req) ["install"; up_Name req; ref]
      [RunHelm (args s ctx (installArgs (MkInstallRequest req create) file onCluster)) []]) as Hrun.
    { intros onCluster. by apply (asAsked_run _ _ _ "" (keepsTo_install (MkInstallRequest req create) file onCluster Hn Hr)). }
    unfold namespaceExists. destruct (cs s); cbn.
    + intros got o. destruct (Hrun match got with None => true | Some _ => false end) as (? & ? & _).
      eexists [GetNamespace _; _]. rewrite <- app_assoc. split; [done |]. split_and!; [by constructor | done | by repeat constructor].
    + intros o. destruct (Hrun false) as (? & ? & _). eexists. split; [done |]. split_and!; [done | done | by repeat constructor].
Qed.
End acting.

(** ** versions.go and catalog.go *)

Definition searchLimit : Z := 200.
Definition valuesTTL : duration := (30 * Minute)%Z.
Definition valuesCapacity : nat := 128.

Record HelmRepoVersions := MkHelmRepoVersions { rv_Name : string; rv_URL : string; rv_OCI : bool; rv_Versions : list string }.
Record HelmChartVersions := MkHelmChartVersions { hc_Chart : string; hc_Repos : list HelmRepoVersions; hc_Error : string }.
Record HelmChartHit := MkHelmChartHit { hh_Chart : string; hh_Version : string; hh_Description : string; hh_Repo : string; hh_URL : string }.
Record HelmChartSearch := MkHelmChartSearch { hs_Query : string; hs_Hits : list HelmChartHit; hs_Truncated : bool; hs_Error : string }.
Record HelmChartValues := MkHelmChartValues { hx_Chart : string; hx_Version : string; hx_Values : string }.

Definition noRepositories : string := "no chart repositories are configured; add one with helm repo add".
Definition noIndex : string := "chart repositories are not wired up".

(** What a repository answered: nothing, something, or why not. *)
Record repoHits := MkRepoHits { ht_entry : RepoEntry; ht_charts : list Charts.Chart; ht_failure : string }.

Section catalog.
Context {Qt : Quoting} {Wd : Wording}.

(** [Versions], of what the index says of a chart in a repository. *)
Definition Versions (index : option (Charts.Repo -> string -> result string (list string))) (s : service) (chart : string)
    : result error HelmChartVersions :=
  if negb (nameFormat chart) then Err (Respond.New (Quote chart +s+ " is not a chart name"))
  else if bool_decide (repos s = []) then Ok (MkHelmChartVersions chart [] noRepositories)
  else match index with
    | None => Ok (MkHelmChartVersions chart [] noIndex)
    | Some versions =>
        let answers := map (fun entry => (entry, versions (re_Repo entry) chart)) (repos s) in
        Ok (MkHelmChartVersions chart
          (omap (fun '(entry, a) => match a with
             | Ok ((_ :: _) as list_) => Some (MkHelmRepoVersions (re_Name entry) (Charts.URL_ (re_Repo entry)) (Charts.OCI (re_Repo entry)) list_)
             | _ => None end) answers)
          (Join "; " (omap (fun '(entry, a) => match a with Err e => Some (repoLabel entry +s+ ": " +s+ e) | Ok _ => None end) answers)))
    end.

Definition probeRegistry (versions : Charts.Repo -> string -> result string (list string)) (entry : RepoEntry) (query : string) : repoHits :=
  let name := TrimSpace query in
  if negb (nameFormat name) then MkRepoHits entry [] ""
  else match versions (re_Repo entry) name with
    | Err e => MkRepoHits entry [] (repoLabel entry +s+ ": " +s+ e)
    | Ok [] => MkRepoHits entry [] ""
    | Ok (newest :: _) => MkRepoHits entry [Charts.MkChart name "" newest] ""
    end.

Definition askRepo (versions : Charts.Repo -> string -> result string (list string))
    (search : Charts.Repo -> string -> Z -> result string (list Charts.Chart)) (query : string) (entry : RepoEntry) : repoHits :=
  if Charts.OCI (re_Repo entry) then probeRegistry versions entry query
  else match search (re_Repo entry) query searchLimit with
    | Err e => MkRepoHits entry [] (repoLabel entry +s+ ": " +s+ e)
    | Ok list_ => MkRepoHits entry list_ ""
    end.

Definition hitRank (hit : HelmChartHit) (needle : string) : Z :=
  if bool_decide (needle = "") then 1
  else
    let name := ToLower (hh_Chart hit) in
    if bool_decide (name = needle) then 0 else if has_prefix name needle then 1 else if str_contains name needle then 2 else 3.

Definition closerFirst (query : string) : HelmChartHit -> HelmChartHit -> Z :=
  let needle := ToLower (TrimSpace query) in
  cmp_then (cmp_on (fun hit => hitRank hit needle) cmp_asc) (cmp_then (cmp_on hh_Chart str_compare) (cmp_on hh_Repo str_compare)).

Definition hitOf (entry : RepoEntry) (chart : Charts.Chart) : HelmChartHit :=
  MkHelmChartHit (Charts.ch_Name chart) (Charts.ch_Version chart) (Charts.ch_Description chart) (re_Name entry) (Charts.URL_ (re_Repo entry)).

(** [SearchCharts]: the repositories are asked side by side, and each answers
    in its own place. *)
Definition SearchCharts (index : bool) (versions : Charts.Repo -> string -> result string (list string))
    (search : Charts.Repo -> string -> Z -> result string (list Charts.Chart)) (s : service) (query : string) : HelmChartSearch :=
  if bool_decide (repos s = []) then MkHelmChartSearch query [] false noRepositories
  else if negb index then MkHelmChartSearch query [] false noIndex
  else
    let found := map (askRepo versions search query) (repos s) in
    let answered := List.filter (fun one => bool_decide (ht_failure one = "")) found in
    let hits := sort_by (closerFirst query) (flat_map (fun one => map (hitOf (ht_entry one)) (ht_charts one)) answered) in
    MkHelmChartSearch query (ztake searchLimit hits) (searchLimit <? zlen hits)%Z
      (Join "; " (map ht_failure (List.filter (fun one => negb (bool_decide (ht_failure one = ""))) found))).

#[local] Instance closerFirst_ok query : Comparator (closerFirst query).
Proof. unfold closerFirst. apply _. Qed.

(** The hits are those of the repositories that answered, the closest first, all
    of them unless it is said that there are more; and who did not answer is
    told of. *)
Lemma SearchCharts_spec versions search s query :
  let found := map (askRepo versions search query) (repos s) in
  let out := SearchCharts true versions search s query in
  repos s <> [] ->
  exists rest, StronglySorted (cmp_le (closerFirst query)) (hs_Hits out ++ rest) /\
    hs_Hits out ++ rest ≡ₚ flat_map (fun one => map (hitOf (ht_entry one)) (ht_charts one))
      (List.filter (fun one => bool_decide (ht_failure one = "")) found) /\
    (zlen (hs_Hits out) <= searchLimit)%Z /\ (hs_Truncated out = false -> rest = []).
Proof.
  intros found out Hr. unfold out, SearchCharts. rewrite bool_decide_eq_false_2 by done. cbn [negb hs_Hits hs_Truncated]. fold found.
  set (hits := sort_by _ _). exists (zdrop searchLimit hits).
  assert (ztake searchLimit hits ++ zdrop searchLimit hits = hits) as -> by apply take_drop. split_and!.
  - apply sort_by_sorted, _.
  - apply sort_by_perm.
  - rewrite zlen_ztake by done. lia.
  - intros H. breflect. by apply zdrop_none.
Qed.
End catalog.

(** ** The values of charts, read once and kept for a while *)

Record ValuesRequest := MkValuesRequest { vr_Chart : string; vr_Version : string; vr_RepoURL : string; vr_OCI : bool }.

#[export] Instance ValuesRequest_eq_dec : EqDecision ValuesRequest.
Proof. solve_decision. Defined.
#[export] Instance ValuesRequest_countable : Countable ValuesRequest.
Proof.
  apply (inj_countable' (fun r => (vr_Chart r, vr_Version r, vr_RepoURL r, vr_OCI r)) (fun '(a, b, c, d) => MkValuesRequest a b c d)). by intros [].
Defined.

(** [ChartValues] asks what is admitted, and then the cache. *)
Definition admitsValues {Nt : Net} {Au : Authorities} {Qt : Quoting} {Sm : Semver} {Wd : Wording} (s : service) (req : ValuesRequest)
    : option error :=
  if negb (runner s) then Some (Respond.Wrapped Respond.ErrInternal "spinoza could not do that: helm actions are not wired up")
  else if negb (nameFormat (vr_Chart req)) then Some (Respond.New (Quote (vr_Chart req) +s+ " is not a chart name"))
  else if negb (Charts.ValidVersion (vr_Version req)) then
    Some (Respond.New ("version " +s+ Quote (vr_Version req) +s+ " is not a semantic version"))
  else Respond.New <$> admitsRepository s (vr_RepoURL req) (vr_OCI req).

Definition valuesArgs (req : ValuesRequest) : list string :=
  ["show"; "values"; chartRef (vr_Chart req) (vr_RepoURL req) (vr_OCI req); "--version"; vr_Version req] ++
  (if negb (vr_OCI req) then ["--repo"; vr_RepoURL req] else []).

(** What fetchChartValues makes of what helm answered. *)
Definition valuesOfRun (req : ValuesRequest) (out : result error string) : result error HelmChartValues :=
  out ← out; Ok (MkHelmChartValues (vr_Chart req) (vr_Version req) out).

Record cachedValues := MkCachedValues { cv_value : HelmChartValues; cv_fetched : time }.

(** A flight with the request it is for, and what it ended with. *)
Record valuesFlight := MkFlight { vf_request : ValuesRequest; vf_done : option (result error HelmChartValues) }.

Record valuesCache := MkValuesCache {
  values : gmap ValuesRequest cachedValues;
  valuesInflight : gmap ValuesRequest nat;
  flights : list valuesFlight;
}.

Definition pruneValues (now : time) (held : gmap ValuesRequest cachedValues) : gmap ValuesRequest cachedValues :=
  filter (fun '(_, v) => (tsub now (cv_fetched v) <? valuesTTL)%Z = true) held.

Section values_.
Context (walk : gmap ValuesRequest cachedValues -> list (ValuesRequest * cachedValues)).
Context (walk_perm : forall m, walk m ≡ₚ map_to_list m).

(** The entry the loop of evictValues settles on: the first of the oldest. *)
Definition oldest (entries : list (ValuesRequest * cachedValues)) : option (ValuesRequest * time) :=
  fold_left (fun held '(req, v) =>
    match held with
    | Some (_, oldestAt) => if negb (Before (cv_fetched v) oldestAt) then held else Some (req, cv_fetched v)
    | None => Some (req, cv_fetched v)
    end) entries None.

Fixpoint evictLoop (rounds : nat) (held : gmap ValuesRequest cachedValues) : gmap ValuesRequest cachedValues :=
  match rounds with
  | O => held
  | S rounds =>
      if valuesCapacity <? size held then
        match oldest (walk held) with Some (req, _) => evictLoop rounds (delete req held) | None => held end
      else held
  end.

Definition evictValues (held : gmap ValuesRequest cachedValues) : gmap ValuesRequest cachedValues := evictLoop (size held) held.

(** What a caller is told at once, or does next. *)
Inductive begun := Held (v : HelmChartValues) | Joins (flight : nat) | Fetches (flight : nat).

(** The first critical section of cachedChartValues. *)
Definition begin (c : valuesCache) (req : ValuesRequest) (now : time) : valuesCache * begun :=
  let held := pruneValues now (values c) in
  match held !! req with
  | Some v => (MkValuesCache held (valuesInflight c) (flights c), Held (cv_value v))
  | None =>
      match valuesInflight c !! req with
      | Some flight => (MkValuesCache held (valuesInflight c) (flights c), Joins flight)
      | None =>
          let flight := length (flights c) in
          (MkValuesCache held (<[req := flight]> (valuesInflight c)) (flights c ++ [MkFlight req None]), Fetches flight)
      end
  end.

(** The second one, once the values were fetched or could not be. *)
Definition finish (c : valuesCache) (req : ValuesRequest) (flight : nat) (fetched : result error HelmChartValues) (now : time) : valuesCache :=
  MkValuesCache
    (match fetched with Ok v => evictValues (<[req := MkCachedValues v now]> (values c)) | Err _ => values c end)
    (delete req (valuesInflight c)) (<[flight := MkFlight req (Some fetched)]> (flights c)).

(** A caller of cachedChartValues. *)
Inductive position :=
| Asking (req : ValuesRequest)
| Waiting (req : ValuesRequest) (flight : nat)
| Leading (req : ValuesRequest) (flight : nat)
| Told (req : ValuesRequest) (r : result error HelmChartValues).

Definition after (req : ValuesRequest) (b : begun) : position :=
  match b with Held v => Told req (Ok v) | Joins flight => Waiting req flight | Fetches flight => Leading req flight end.

Record state := MkState { cache_ : valuesCache; callers : list position }.

Inductive step : state -> state -> Prop :=
| step_arrive c ps req : step (MkState c ps) (MkState c (ps ++ [Asking req]))
| step_begin c ps i req now :
    ps !! i = Some (Asking req) ->
    step (MkState c ps) (MkState (begin c req now).1 (<[i := after req (begin c req now).2]> ps))
| step_finish c ps i req flight out now :
    ps !! i = Some (Leading req flight) ->
    step (MkState c ps) (MkState (finish c req flight (valuesOfRun req out) now) (<[i := Told req (valuesOfRun req out)]> ps))
| step_woken c ps i req flight held r :
    ps !! i = Some (Waiting req flight) -> flights c !! flight = Some held -> vf_done held = Some r ->
    step (MkState c ps) (MkState c (<[i := Told req r]> ps))
| step_cancelled c ps i req flight text :
    ps !! i = Some (Waiting req flight) -> step (MkState c ps) (MkState c (<[i := Told req (Err (Respond.New text))]> ps)).

Definition noValues : valuesCache := MkValuesCache ∅ ∅ [].

(** Values are those of the chart and version of a request. *)
Definition valuesFor (req : ValuesRequest) (r : result error HelmChartValues) : Prop :=
  match r with Ok v => hx_Chart v = vr_Chart req /\ hx_Version v = vr_Version req | Err _ => True end.

Definition led (ps : list position) (req : ValuesRequest) (flight : nat) : Prop := Leading req flight ∈ ps.

Record wf (s : state) : Prop := {
  wf_lead : forall i req f, callers s !! i = Some (Leading req f) ->
    valuesInflight (cache_ s) !! req = Some f /\ flights (cache_ s) !! f = Some (MkFlight req None);
  wf_flight : forall req f, valuesInflight (cache_ s) !! req = Some f -> led (callers s) req f;
  wf_alone : forall i j req f g, callers s !! i = Some (Leading req f) -> callers s !! j = Some (Leading req g) -> i = j;
  wf_wait : forall req f, Waiting req f ∈ callers s ->
    exists r, flights (cache_ s) !! f = Some (MkFlight req r) /\ (r = None -> led (callers s) req f);
  wf_ended : forall f req r, flights (cache_ s) !! f = Some (MkFlight req (Some r)) -> valuesFor req r;
  wf_values : forall req v, values (cache_ s) !! req = Some v -> valuesFor req (Ok (cv_value v));
  wf_told : forall req r, Told req r ∈ callers s -> valuesFor req r;
  wf_size : size (values (cache_ s)) <= valuesCapacity;
}.

Lemma oldest_in entries : entries <> [] -> exists req at_ v, oldest entries = Some (req, at_) /\ (req, v) ∈ entries.
Proof.
  clear walk_perm walk. induction entries as [| [req v] entries IH] using rev_ind; [done |]. intros _. unfold oldest in *. rewrite fold_left_app. cbn.
  destruct (decide (entries = [])) as [-> | Hne]; [exists req, (cv_fetched v), v; split; [done | by constructor] |].
  destruct (IH Hne) as (req' & at_ & v' & -> & Hin). destruct (negb _); [exists req', at_, v' | exists req, (cv_fetched v), v]; set_solver.
Qed.

Lemma evictLoop_sub rounds held : evictLoop rounds held ⊆ held.
Proof.
  revert held. induction rounds as [| rounds IH]; intros held; cbn [evictLoop]; [done |]. destruct (Nat.ltb _ _); [| done].
  destruct (oldest _) as [[req at_] |]; [| done]. etransitivity; [apply IH | apply delete_subseteq].
Qed.

Lemma evictLoop_size rounds held : size held <= rounds -> size (evictLoop rounds held) <= valuesCapacity.
Proof using walk_perm.
  revert held. induction rounds as [| rounds IH]; intros held Hr; cbn [evictLoop]; [lia |].
  destruct (Nat.ltb_spec valuesCapacity (size held)) as [Hc | Hc]; [| done].
  assert (walk held <> []) as Hne.
  { intros E. apply (f_equal length) in E. rewrite walk_perm, length_map_to_list in E. cbn in E. lia. }
  destruct (oldest_in _ Hne) as (req & at_ & v & -> & Hin). rewrite walk_perm, elem_of_map_to_list in Hin. apply IH.
  rewrite map_size_delete_Some by (by eexists). lia.
Qed.

Lemma values_init_wf : wf (MkState noValues []).
Proof.
  split; cbn; try done.
  - by intros req f Hin%elem_of_nil.
  - by intros req r Hin%elem_of_nil.
  - rewrite map_size_empty. unfold valuesCapacity. lia.
Qed.

Lemma wf_flight_unique s i j req req' f :
  wf s -> callers s !! i = Some (Leading req f) -> callers s !! j = Some (Leading req' f) -> i = j.
Proof.
  intros H Hi Hj. destruct (wf_lead s H _ _ _ Hi) as [_ Ei], (wf_lead s H _ _ _ Hj) as [_ Ej]. rewrite Ei in Ej. injection Ej as <-.
  by eapply wf_alone.
Qed.

(** A caller that is asking or waiting, and is told. *)
Lemma values_told_wf c ps i req p r :
  wf (MkState c ps) -> ps !! i = Some p -> (forall req' f, p <> Leading req' f) -> valuesFor req r -> wf (MkState c (<[i := Told req r]> ps)).
Proof.
  intros H Hi Hp Hr.
  assert (forall q f, led ps q f -> led (<[i := Told req r]> ps) q f) as Hled.
  { intros q f Hl. eapply elem_of_insert_keep; [exact Hi | exact Hl |]. intros E. by eapply Hp. }
  destruct H as [H1 H2 H3 H4 H5 H6 H7 H8]. cbn in *. split; cbn; try done.
  - intros j q f Hj. apply list_lookup_insert_Some in Hj as [(_ & E & _) | [_ Hj]]; [done | by eapply H1].
  - intros q f Hq. by apply Hled, H2.
  - intros j k q f g Hj Hk. apply list_lookup_insert_Some in Hj as [(_ & E & _) | [_ Hj]]; [done |].
    apply list_lookup_insert_Some in Hk as [(_ & E & _) | [_ Hk]]; [done | by eapply H3].
  - intros q f [E | Hin]%elem_of_insert_inv; [done |]. destruct (H4 q f Hin) as (r' & Hf & Hl). exists r'. split; [done |]. intros E. by apply Hled, Hl.
  - intros q r' [E | Hin]%elem_of_insert_inv; [by injection E as -> -> | by apply H7].
Qed.

Lemma pruneValues_sub now held : pruneValues now held ⊆ held.
Proof. apply map_filter_subseteq. Qed.

Lemma values_begin_wf c ps i req now :
  wf (MkState c ps) -> ps !! i = Some (Asking req) ->
  wf (MkState (begin c req now).1 (<[i := after req (begin c req now).2]> ps)).
Proof.
  intros H Hi. pose proof (pruneValues_sub now (values c)) as Hsub.
  assert (wf (MkState (MkValuesCache (pruneValues now (values c)) (valuesInflight c) (flights c)) ps)) as Hp.
  { destruct H as [H1 H2 H3 H4 H5 H6 H7 H8]. cbn in *. split; cbn; try done.
    - intros q v Hv. eapply H6, lookup_weaken; [exact Hv | exact Hsub].
    - etransitivity; [by apply map_subseteq_size | done]. }
  unfold begin. destruct (pruneValues now (values c) !! req) as [v |] eqn:Hv; cbn [fst snd after].
  { eapply values_told_wf; [exact Hp | exact Hi | done |]. by apply (wf_values _ Hp req v). }
  set (held := pruneValues now (values c)) in *. clearbody held. clear H Hsub Hv.
  destruct Hp as [H1 H2 H3 H4 H5 H6 H7 H8]. cbn in *.
  destruct (valuesInflight c !! req) as [f |] eqn:Hf; cbn [fst snd after].
  - assert (forall p q g, led ps q g -> led (<[i := Waiting p f]> ps) q g) as Hled.
    { intros p q g Hl. by eapply elem_of_insert_keep. }
    split; cbn; try done.
    + intros j q g Hj. apply list_lookup_insert_Some in Hj as [(_ & E & _) | [_ Hj]]; [done | by eapply H1].
    + intros q g Hq. by apply Hled, H2.
    + intros j k q g h Hj Hk. apply list_lookup_insert_Some in Hj as [(_ & E & _) | [_ Hj]]; [done |].
      apply list_lookup_insert_Some in Hk as [(_ & E & _) | [_ Hk]]; [done | by eapply H3].
    + intros q g [E | Hin]%elem_of_insert_inv.
      * injection E as -> ->. pose proof (H2 _ _ Hf) as Hl. destruct (proj1 (list_elem_of_lookup _ _) Hl) as [k Hk].
        exists None. split; [by eapply H1 | by intros _; apply Hled].
      * destruct (H4 q g Hin) as (r & Hg & Hl). exists r. split; [done |]. intros E. by apply Hled, Hl.
    + intros q r [E | Hin]%elem_of_insert_inv; [done | by apply H7].
  - set (f := length (flights c)).
    assert (forall q g, led ps q g -> led (<[i := Leading req f]> ps) q g) as Hled by (intros q g Hl; by eapply elem_of_insert_keep).
    assert (forall g one, flights c !! g = Some one -> (flights c ++ [MkFlight req None]) !! g = Some one) as Hg.
    { intros g one. apply lookup_app_l_Some. }
    assert (forall j g, ps !! j = Some (Leading req g) -> False) as Hno by (intros j g Hj; destruct (H1 _ _ _ Hj); congruence).
    split; cbn; try done.
    + intros j q g Hj. apply list_lookup_insert_Some in Hj as [(_ & E & _) | [_ Hj]].
      * injection E as <- <-. rewrite lookup_insert_eq. split; [done |]. unfold f. by rewrite lookup_app_r, Nat.sub_diag.
      * destruct (H1 _ _ _ Hj) as [Hq Hfl]. rewrite lookup_insert_ne by congruence. eauto.
    + intros q g Hq. apply lookup_insert_Some in Hq as [[<- <-] | [_ Hq]]; [by eapply elem_of_insert_new | by apply Hled, H2].
    + intros j k q g h Hj Hk. apply list_lookup_insert_Some in Hj as [(-> & Ej & _) | [Hj' Hj]];
        apply list_lookup_insert_Some in Hk as [(Hk' & Ek & _) | [_ Hk]]; try done; simplify_eq; [by destruct (Hno k h) | by destruct (Hno j g) |].
      by eapply H3.
    + intros q g [E | Hin]%elem_of_insert_inv; [done |]. destruct (H4 q g Hin) as (r & Hfl & Hl). exists r. split; [by apply Hg |].
      intros E. by apply Hled, Hl.
    + intros g q r Hfl. apply lookup_app_Some in Hfl as [Hfl | [_ Hfl]]; [by eapply H5 |]. by apply list_lookup_singleton_Some in Hfl as [_ ?].
    + intros q r [E | Hin]%elem_of_insert_inv; [done | by apply H7].
Qed.

Lemma values_finish_wf c ps i req f r now :
  wf (MkState c ps) -> ps !! i = Some (Leading req f) -> valuesFor req r -> wf (MkState (finish c req f r now) (<[i := Told req r]> ps)).
Proof using walk_perm.
  intros H Hi Hr. assert (forall j q g, ps !! j = Some (Leading q g) -> j <> i -> q <> req /\ g <> f) as Hother.
  { intros j q g Hj Hne. split; intros ->; apply Hne; [by eapply (wf_alone _ H) | by eapply (wf_flight_unique _ _ _ _ _ _ H)]. }
  assert (forall q g, led ps q g -> (q, g) <> (req, f) -> led (<[i := Told req r]> ps) q g) as Hled.
  { intros q g Hl Hne. eapply elem_of_insert_keep; [exact Hi | exact Hl |]. congruence. }
  destruct H as [H1 H2 H3 H4 H5 H6 H7 H8]. cbn in *. destruct (H1 _ _ _ Hi) as [Hreq Hf].
  split; cbn; try done.
  - intros j q g Hj. apply list_lookup_insert_Some in Hj as [(_ & E & _) | [Hne Hj]]; [done |].
    destruct (Hother j q g Hj ltac:(done)) as [Hq Hg]. rewrite lookup_delete_ne, list_lookup_insert_ne by done. by eapply H1.
  - intros q g Hq. apply lookup_delete_Some in Hq as [Hne Hq]. apply Hled; [by apply H2 | congruence].
  - intros j k q g h Hj Hk. apply list_lookup_insert_Some in Hj as [(_ & E & _) | [_ Hj]]; [done |].
    apply list_lookup_insert_Some in Hk as [(_ & E & _) | [_ Hk]]; [done | by eapply H3].
  - intros q g [E | Hin]%elem_of_insert_inv; [done |]. destruct (H4 q g Hin) as (r' & Hg & Hl). destruct (decide (g = f)) as [-> | Hne].
    + rewrite Hf in Hg. injection Hg as <- <-. exists (Some r). split; [| done]. apply list_lookup_insert_eq. by eapply lookup_lt_Some.
    + exists r'. rewrite list_lookup_insert_ne by done. split; [done |]. intros ->. apply Hled; [by apply Hl | congruence].
  - intros g q r' Hg. apply list_lookup_insert_Some in Hg as [(-> & E & _) | [_ Hg]]; [by injection E as <- <- | by eapply H5].
  - intros q v. destruct r as [new | e]; [| apply H6]. intros Hv. unfold evictValues in Hv.
    eapply lookup_weaken in Hv; [| apply evictLoop_sub]. apply lookup_insert_Some in Hv as [[<- <-] | [_ Hv]]; [done | by apply H6].
  - intros q r' [E | Hin]%elem_of_insert_inv; [by injection E as -> -> | by apply H7].
  - destruct r; [by apply evictLoop_size | done].
Qed.

Lemma values_step_wf s s' : wf s -> step s s' -> wf s'.
Proof using walk_perm.
  intros H Hs. destruct Hs as [c ps req | c ps i req now Hi | c ps i req f out now Hi | c ps i req f held r Hi Hf Hr | c ps i req f text Hi].
  - assert (forall q f, led ps q f -> led (ps ++ [Asking req]) q f) as Hled by (intros q f Hl; by apply elem_of_app; left).
    assert (forall i q f, (ps ++ [Asking req]) !! i = Some (Leading q f) -> ps !! i = Some (Leading q f)) as Hold.
    { intros i q f [Hi | [_ Hi]]%lookup_app_Some; [done |]. by apply list_lookup_singleton_Some in Hi as [_ ?]. }
    destruct H as [H1 H2 H3 H4 H5 H6 H7 H8]. cbn in *. split; cbn; try done.
    + intros i q f Hi%Hold. by eapply H1.
    + intros q f Hq. by apply Hled, H2.
    + intros i j q f g Hi%Hold Hj%Hold. by eapply H3.
    + intros q f [Hin | Hin%list_elem_of_singleton]%elem_of_app; [| done]. destruct (H4 q f Hin) as (r & Hf & Hl).
      exists r. split; [done |]. intros E. by apply Hled, Hl.
    + intros q r [Hin | Hin%list_elem_of_singleton]%elem_of_app; [by apply H7 | done].
  - by apply values_begin_wf.
  - apply values_finish_wf; [done | done |]. unfold valuesOfRun. by destruct out.
  - eapply values_told_wf; [exact H | exact Hi | done |].
    destruct (wf_wait _ H req f) as (r' & Hf' & _); [by eapply list_elem_of_lookup_2 |]. cbn in Hf'. rewrite Hf in Hf'.
    injection Hf' as ->. cbn in Hr. subst r'. by eapply (wf_ended _ H).
  - eapply values_told_wf; [exact H | exact Hi | done | done].
Qed.

(** However callers, answers of helm and cancellations interleave: the values of
    a chart's version are fetched by one caller at a time, whoever waits does so
    on a flight that has ended or that somebody still leads, everybody is told
    values of the chart and version he asked for, and no more are kept than the
    capacity. *)
Lemma values_fetched_once s :
  rtc step (MkState noValues []) s ->
  (forall i j req f g, callers s !! i = Some (Leading req f) -> callers s !! j = Some (Leading req g) -> i = j) /\
  (forall req f, Waiting req f ∈ callers s ->
     exists r, flights (cache_ s) !! f = Some (MkFlight req r) /\ (r = None -> led (callers s) req f)) /\
  (forall req r, Told req r ∈ callers s -> valuesFor req r) /\
  size (values (cache_ s)) <= valuesCapacity.
Proof using walk_perm.
  intros Hrun. assert (wf s) as H by (eapply (rtc_invariant step wf); [intros; by eapply values_step_wf | apply values_init_wf | exact Hrun]).
  split_and!; [apply H | apply H | apply H | apply H].
Qed.
End values_.

Definition podinfo : ValuesRequest := MkValuesRequest "podinfo" "6.0.0" "https://charts.example" false.

(** The request of whoever fetches is cancelled: those who wait are told that
    theirs is. *)
Example cancelled_for_waiters :
  let c1 := (begin noValues podinfo 1).1 in
  (begin c1 podinfo 2).2 = Joins 0 /\
  flights (finish map_to_list c1 podinfo 0 (valuesOfRun podinfo (Err (Respond.New "context canceled"))) 3) !! 0 =
    Some (MkFlight podinfo (Some (Err (Respond.New "context canceled")))).
Proof. by vm_compute. Qed.

(** ** fluxowner.go *)

Definition maxReleaseName : Z := 53.
Definition shortenedKeep : nat := 40.
Definition shortenedHashLen : nat := 12.

Record FluxRelease := MkFluxRelease {
  fx_CRNamespace : string;
  fx_CRName : string;
  fx_ReleaseName : string;
  fx_TargetNamespace : string;
  fx_StorageNamespace : string;
  fx_Ref : ObjectRef;
}.

Definition hexDigit (n : Z) : ascii := ascii_of_N (Z.to_N (if (n <? 10)%Z then 48 + n else 87 + n)).

(** [hex.EncodeToString(sha256.Sum256(name))] *)
Definition digestOf (name : string) : string :=
  String.string_of_list_ascii (flat_map (fun b => [hexDigit (b / 16); hexDigit (b mod 16)]) (Codec.sha256 (Codec.bytes_of name))).

Definition shortenName (name : string) : string :=
  if (strlen name <=? maxReleaseName)%Z then name
  else String.substring 0 shortenedKeep name +s+ "-" +s+ String.substring 0 shortenedHashLen (digestOf name).

Definition releaseName (f : FluxRelease) : string :=
  if bool_decide (fx_ReleaseName f <> "") then fx_ReleaseName f
  else shortenName (if bool_decide (fx_TargetNamespace f <> "") then fx_TargetNamespace f +s+ "-" +s+ fx_CRName f else fx_CRName f).

Definition storageNamespace (f : FluxRelease) : string :=
  if bool_decide (fx_StorageNamespace f <> "") then fx_StorageNamespace f else fx_CRNamespace f.

Definition StorageKey (f : FluxRelease) : string := storageNamespace f +s+ "/" +s+ releaseName f.

(** [OwnerIndex]: the last of those that share a key is kept. *)
Definition OwnerIndex (crs : list FluxRelease) : gmap string ObjectRef :=
  foldl (fun out cr => <[StorageKey cr := fx_Ref cr]> out) ∅ crs.

Lemma substring_le n s : String.length (String.substring 0 n s) <= n.
Proof. revert s. induction n as [| n IH]; intros [| a s]; cbn; [lia.. |]. specialize (IH s). lia. Qed.

(** A name that is made up fits in what Helm allows a release. *)
Lemma shortenName_fits name : (strlen (shortenName name) <= maxReleaseName)%Z.
Proof.
  unfold shortenName. destruct (Z.leb_spec (strlen name) maxReleaseName) as [H | H]; [done |]. unfold strlen, maxReleaseName in *.
  rewrite !append_length. cbn [String.length].
  pose proof (substring_le shortenedKeep name). pose proof (substring_le shortenedHashLen (digestOf name)).
  unfold shortenedKeep, shortenedHashLen in *. lia.
Qed.

(** What is kept of a name that is five characters too long. *)
Example shortened :
  shortenName "a-target-namespace-that-is-long-and-a-release-that-is-long" = "a-target-namespace-that-is-long-and-a-re-3ed7640f1357".
Proof. by vm_compute. Qed.

(** ** An upgrade, and what comes of it *)

#[local] Existing Instance Access.exampleQuoting.
#[local] Instance plainSemver : Semver := {
  Version := string;
  NewVersion s := if bool_decide (s = "") then None else Some s;
  VCompare := str_compare;
  Prerelease _ := "";
}.
#[local] Instance plainAuthorities : Authorities := {
  ParseAddr _ := None;
  AddrString _ := "";
  SplitHostPort s := Ok (s, "443");
  JoinHostPort host port := host +s+ ":" +s+ port;
  ParseIP _ := false;
  EqualFold s t := bool_decide (s = t);
  EffectiveTLDPlusOne s := Some s;
  PathEscape s := s;
  WithQuery s _ := s;
}.
#[local] Instance plainNet : Net := {
  url_Parse raw := if has_prefix raw "oci://" then Some (MkURL "oci" "charts.example" "charts.example" false) else None;
  ParseIP_loopback _ := None;
}.
#[local] Instance plainWords : Wording := { ToLower := Config.ToLower; RuneCount s := strlen s; DurationString d := Itoa d }.
#[local] Instance plainPayloads : Payloads := {
  NewReader _ := None;
  Inflated s := (s, None);
  DecodePayload s := Err s;
  DecodeManifest s := Err s;
}.
#[local] Instance plainYaml : YAML := { UnmarshalYAML _ := Ok []; MarshalYAML _ := Ok "{}" }.

Definition chartFile : option (list (string * string)) := Some [("example", "oci://charts.example/stable/")].
Definition exampleService : service := MkService true true (Repositories chartFile) "prod" "".
Definition ana : Context_ := Some (MkIdentity "ana" ["dev"; "ops"] RoleEditor "s1").

Definition revision (n : Z) (status : string) : objectMeta :=
  MkObjectMeta "shop" ("sh.helm.release.v1.web.v" +s+ Itoa n)
    (list_to_map [("name", "web"); ("version", Itoa n); ("status", status)]) 0 (Itoa n).

(** A cluster that keeps two revisions of a release in config maps. *)
Definition exampleStored : cluster :=
  MkCluster
    (Some (fun driver _ _ _ _ => Ok (MkPage (if bool_decide (driver = DriverConfigMap) then [revision 1 "superseded"; revision 2 "deployed"] else []) "")))
    (fun _ _ => Ok (MkPage [] "")) (fun _ _ _ _ => Ok (MkPage [] "")) (fun _ _ _ _ => Ok (MkPage [] ""))
    (fun _ _ => Err (Respond.New "not found")) (fun _ _ => Err (Respond.New "not found")).

Definition exampleUpgrade : UpgradeRequest :=
  MkUpgradeRequest "shop" "web" "podinfo" "6.0.0" "oci://charts.example/stable" true "replicas: 2" false.

(** Helm does what it is asked and says nothing. *)
#[local] Instance quiet : Server answer () := fun one w =>
  (w, match one return answer one with
      | CreateValues => Ok "/tmp/values.yaml"
      | WriteValues _ values => (strlen values, None)
      | CloseValues _ => None
      | RemoveValues _ => tt
      | GetNamespace _ => None
      | RunHelm _ _ => MkOutcome [] [] None
      end).

Example upgrade_runs :
  exec (Upgrade 1 exampleStored exampleService ana exampleUpgrade) () =
    ((), [CreateValues; WriteValues "/tmp/values.yaml" "replicas: 2"; CloseValues "/tmp/values.yaml";
      RunHelm ["upgrade"; "web"; "oci://charts.example/stable/podinfo"; "--namespace"; "shop"; "--version"; "6.0.0"; "--values";
               "/tmp/values.yaml"; "--kube-context"; "prod"; "--kube-as-user"; "ana"; "--kube-as-group"; "dev"; "--kube-as-group"; "ops"]
              ["HELM_DRIVER=configmap"];
      RemoveValues "/tmp/values.yaml"],
     Some (Ok (MkHelmActionResult "upgrade" "upgraded web to podinfo 6.0.0" 0 false ""))).
Proof. by vm_compute. Qed.

Lemma helm_runs_as_asked_witness :
  configured exampleService /\
  wp (Upgrade 1 exampleStored exampleService ana exampleUpgrade) []
    (fun calls _ => asAsked ana "shop" ["upgrade"; "web"; "oci://charts.example/stable/podinfo"] calls).
Proof.
  assert (configured exampleService) as H by (by exists chartFile). split; [exact H |].
  exact (proj1 (proj2 (proj2 (helm_runs_as_asked 1 exampleStored exampleService ana H "shop" "web" 1 exampleUpgrade false)))).
Defined.

(** A name that reads as a flag is refused before anything is run. *)
Example flag_refused :
  exec (Uninstall 1 exampleStored exampleService ana "shop" "--all") () =
    ((), [], Some (Err (Respond.New "namespace and release must be valid kubernetes names"))).
Proof. by vm_compute. Qed.

(** Without the metadata client a release whose old revision is stored twice can
    be changed when the newest revision is listed first, and cannot when it is
    listed last; with that client it always can. *)
Example ambiguous_by_order :
  let at_ n := MkStored DriverSecret "shop" "web" n "deployed" 0 "" in
  latestDriver (at_ 2%Z) [at_ 1%Z; at_ 1%Z] = Ok DriverSecret /\ latestDriver (at_ 1%Z) [at_ 1%Z; at_ 2%Z] = Err (ambiguous 1).
Proof. by vm_compute. Qed.

(** ** The environment of helm *)

Lemma kept_spec allowed (held : gmap string string) entry key value :
  kept allowed held entry !! key = Some value ->
  held !! key = Some value \/ value = entry /\ allowed key = true /\ exists rest, str_cut entry "=" = (key, rest, true).
Proof.
  unfold kept. destruct (str_cut entry "=") as [[k rest] [|]]; cbn; [| by left]. destruct (allowed k) eqn:Ha; cbn; [| by left].
  intros [[<- <-] | [_ H]]%lookup_insert_Some; [right; by eauto | by left].
Qed.

Lemma kept_all allowed entries (held : gmap string string) key value :
  foldl (kept allowed) held entries !! key = Some value ->
  held !! key = Some value \/ value ∈ entries /\ allowed key = true /\ exists rest, str_cut value "=" = (key, rest, true).
Proof.
  revert held. induction entries as [| entry entries IH]; intros held; cbn; [by left |].
  intros [[H | (-> & Ha & Hr)]%kept_spec | (Hin & Ha & Hr)]%IH; [by left | right | right]; (split_and!; [set_solver | done | done]).
Qed.

(** Helm is given variables of the server's own environment only when they are
    among those it may have. *)
Lemma helmEnvironment_allowed environ extra entry :
  entry ∈ helmEnvironment environ extra ->
  exists key rest, str_cut entry "=" = (key, rest, true) /\
    (entry ∈ extra \/ entry ∈ environ /\ allowedHelmEnvironment key = true).
Proof.
  unfold helmEnvironment. intros ([key value] & -> & Hin)%map_elem. rewrite sort_by_elem, elem_of_map_to_list in Hin. cbn.
  destruct (kept_all _ _ _ _ _ Hin) as [H | (He & _ & rest & Hc)]; [| exists key, rest; by split; [| left]].
  destruct (kept_all _ _ _ _ _ H) as [H0 | (He & Ha & rest & Hc)]; [by rewrite lookup_empty in H0 |]. exists key, rest. split; [done | by right].
Qed.

End Helm.
